(* ===== verification/_CoqProject ===== *)
-Q . S2P
Prelude.v
CStr.v
Crc.v
MbDefs.v
MbUtils.v
MbFunc.v
MbDemo.v
MbPort.v
MbRtu.v
MbAscii.v
MbTcp.v
Mb.v
MbServer.v
MbThread.v
CliLine.v
CliToken.v
CliValue.v
CliFsm.v
CliWords.v
Cli.v
CliSession.v
CliEnter.v
CliFaults.v
Hash.v
Increase.v
RbTree.v
RbZipper.v
RbInsert.v
RbErase.v
RbMain.v
ListLoop.v
LinkedList.v
SeqList.v
Telnet.v
TelnetFsm.v
TelnetSafe.v
TelnetStream.v
TimeHeap.v
DList.v
SortTimer.v
TimeWheel.v
HttpParser.v
HttpConn.v
HttpAnswer.v
HttpPool.v
Dijkstra.v
SnailConn.v
SnailMgr.v
SnailConf.v
HuffOpt.v
BinTree.v
RuleMatch.v
Download.v
Ping.v
ConfFile.v
ProdCons.v
