(* ===== verification/Prelude.v ===== *)
(** * Verification of basic_data_struct

    The repository is a collection of C and C++ programs.  This development models
    those that carry logic of their own.  [FM] below stands for
    src/src/xukai871105-makefile-example/freemodbus-v1.5.0-linuxtcp-only, [CLI] for
    src/src/cli_parser-0.5/cli_parser-0.5/src, [LHP] for
    src/src/Linux High Perfermance Server Program/codes.

    ** The programs and their models

    FreeModbus is a Modbus slave.  An application calls [eMBPoll] in a loop; the
    port posts events; a received frame is checked by the framing mode (RTU, ASCII
    or TCP), executed by the handler registered for its function code, which
    calls the application's register callbacks, and answered in the same mode.

    - Crc.v: FM/modbus/rtu/mbcrc.c.  The tables, [usMBCRC16], and the bit-serial
      CRC it is compared with.
    - MbDefs.v: the enumerations and constants of FM/modbus/include.
    - MbUtils.v: FM/modbus/functions/mbutils.c, bit fields in byte arrays.
    - MbFunc.v: FM/modbus/functions, the ten request handlers and
      [eMBSetSlaveID].  The register callbacks an application supplies are the
      class [RegCB], what a handler needs of them the class [RegCBLaws]; every
      handler is shown safe against the interface.
    - MbDemo.v: the callbacks of FM/demo/LINUXTCP/demo.c, an instance of both.
    - MbPort.v: FM/demo/LINUXTCP/port/portevent.c, and the serial and timer calls
      of mbport.h, which have no implementation in the tree, as a log.
    - MbRtu.v, MbAscii.v: FM/modbus/rtu/mbrtu.c and FM/modbus/ascii/mbascii.c,
      the functions the stack calls and the interrupt routines.
    - MbTcp.v: FM/modbus/tcp/mbtcp.c over FM/demo/LINUXTCP/port/porttcp.c, with
      the results of the socket calls taken from a script of the network.
    - Mb.v: FM/modbus/mb.c.  One record [mb] holds the static variables of all
      modules, so that the sharing of buffers and of the event queue is explicit.
    - MbServer.v: requests and answers of the whole stack, its life cycle.
    - MbThread.v: [main] and the polling thread of demo.c, as a step relation over
      their interleavings.

    The CLI parser reads keys, edits the line, feeds its characters to a state
    machine that walks the tree of commands, and executes, completes or explains.

    - CliLine.v: CLI/cparser_line.c, the ten line buffers, with the characters sent
      to the terminal.
    - CliToken.v, CliValue.v: CLI/cparser_token.c, the matchers of tokens and the
      functions that read their values.
    - CliFsm.v: CLI/cparser_fsm.c, the parser state machine; CliWords.v, what it
      makes of a line as a sequence of words.
    - Cli.v: CLI/cparser.c, keys, completion, help, execution and command files;
      CliSession.v, sessions of it; CliEnter.v, what Enter does with a line;
      CliFaults.v, runs in which it goes wrong.

    The telnet client (src/src/telnet_client) runs three machines, given by tables,
    over the bytes from the server, the bytes from the keyboard, and the bytes of a
    subnegotiation.

    - Telnet.v: the client, on streams that may be null (the results of fopen and
      fdopen are not checked); TelnetFsm.v, the building of the machines; TelnetSafe.v,
      its safety; TelnetStream.v, option negotiation and transfer of data.

    The programs of a book on servers:

    - TimeHeap.v: LHP/11/11-6time_heap.h.  SortTimer.v: LHP/11/11-2lst_timer.h.
      TimeWheel.v: LHP/11/11-5tw_timer.h.  Three containers for timers; the last two
      on doubly linked lists in memory, which are DList.v.
    - HttpParser.v: LHP/8/8-3httpparser.cpp, the parser and the connection around it.
    - HttpConn.v: LHP/15/15-5http_conn.cpp, a connection of an HTTP server, with the
      calls its main loop makes for it; HttpAnswer.v, the answers to requests in a row;
      HttpPool.v: the thread pool of LHP/15/15-3threadpool.h with LHP/14/14-2locker.h and
      the main loop of LHP/15/15-6main.cpp, as steps of their threads; the end of
      [process] (close, m_sockfd, the load and the store of the counter, modfd) is one
      step for each access to something shared.
    - CStr.v: strings in character arrays, which these servers share.
    - SnailConn.v, SnailMgr.v, SnailConf.v: LHP/springsnail, a proxy: the buffers of a
      connection, the pool of connections with the event loop of a child process, and
      the configuration file.

    Data structures and functions that stand alone:

    - Hash.v: src/src/GeneralHashFunctions_C/GeneralHashFunctions.c and
      src/src/hash/mnq_5_hash.c.
    - Increase.v: src/src/byte_value_increase/byte_value_increase.c.
    - RbTree.v: src/src/data_struct/btree/rbtree.c on a heap of nodes with parent
      pointers; RbZipper.v, the zipper lemmas for rotations and recolouring;
      RbInsert.v, search and insertion; RbErase.v, deletion; RbMain.v, [main].
    - BinTree.v: src/src/data_struct/btree/BinaryTree.cpp and HuffmanTree.cpp, on the
      theory of optimal trees in HuffOpt.v.
    - RuleMatch.v: src/src/ipv6_rule_match, both versions of the rule matcher.
    - ListLoop.v: src/src/data_struct/linked_list/loop.c and loop2.c.  LinkedList.v:
      list.c beside them.  SeqList.v: src/src/data_struct/linear_list.
    - Dijkstra.v: src/src/data_struct/graphics/dijkstra.cpp.

    Programs around the network and threads:

    - Download.v: src/src/download/download.c: URLs, redirections, the division of a
      file among threads, their creation one by one, the threads as steps with the
      unlocked load and store of the count, and the file to resume from.
    - Ping.v: src/src/ping/ping_t.c: checksum, packets and both loops.
    - ConfFile.v: src/src/conf_file/conf.c and conf-2.c, keys in sections of a file.
    - ProdCons.v: src/src/thread/producer_consumer.c: two threads, a mutex and two
      condition variables, as steps.

    ** Conventions

    A function becomes a function from the state it works on to an [outcome]: [Ok]
    with the new state and the result, or [Fault] when it would leave the defined
    behaviour (a failed assertion, an access outside an array, a null or freed
    pointer).  Arrays are lists, pointers into them offsets; objects with pointers are
    finite maps from addresses.  Arithmetic wraps explicitly ([u8], [u16], [u32], [s8],
    [s32]).  What is outside the source (sockets, serial ports, [malloc], [getchar],
    [pthread_create], [epoll], the time) is an argument or a script.

    Loops with a counter recurse on it.  Other loops take fuel, and every theorem that
    says that a function returns says so for the fuel its definition gives it: the
    length of the text for the parsers, the number of nodes or timers for loops over
    lists and heaps, the room in the buffer for the relay.  The functions on the tree
    take fuel as an argument: [rb_search] is shown to need at most twice the logarithm
    of the size, [rb_insert] and [rb_erase] the height plus three.

    ** What the theorems show

    - Frames: the CRC is the bit-serial one, its zero check characterises valid
      trailers and it detects bursts; the LRC likewise; what one station sends
      another receives, in RTU and ASCII mode, interrupt by interrupt; which bursts
      are accepted; RTU interrupts never fail an assertion or leave the buffer.
    - TCP: a request is reassembled from any pieces; every well-formed request is
      answered under its own header by the registered handler; the demo serves its
      registers, and writes are read back.
    - The stack: which calls are legal when, how the handler table behaves, and
      that every handler is safe for every PDU.
    - The demo's threads: one poller at a time and the stack enabled exactly while
      it polls, shutdown, and the shutdown that is final.
    - The line editor refines an abstract editor on the buffer and on the screen; the
      state machine depends on the text only, and parses it into words; every key that
      leaves a text there is room for keeps the session in order, and Enter completes the
      line, calls what it selects or reports what is wrong with it; the values of
      tokens are those they spell.
    - Telnet: while the capabilities of the terminal fit their buffer no input takes the
      client out of its arrays, and a null pointer takes an unchecked failure or a server
      that asks for a terminal type too early; option negotiation refines an abstract one;
      binary data arrive unchanged.
    - Timers: the heap refines a priority queue, the list a sorted sequence, the wheel
      an agenda; a tick runs exactly what is due, and a timer of the wheel runs on the
      tick it was set for.
    - HTTP: the answer does not depend on how a request is cut into packets, and is
      that of a specification on the whole text.  The second server answers requests in a
      row like its specification; as long as a descriptor is not given out again while the
      thread that closed it is still at it, a connection is in the hands of one thread at a
      time, and requests in the queue are never left lying while a thread is idle.
    - With a server that answers as the code expects, what a download has written is right
      at all times, one that is taken for finished is complete, and it can be finished from
      every state, also after it was interrupted; the producer and the consumer hand over every
      item in order and come to an end; a key is found where it was written; the packets
      of ping verify, and their answers are recognised.
    - The proxy relays every byte, in order, between a client and its own server only,
      in every reachable state; the configuration is read back as it was written.
    - The red-black tree: search, insertion and deletion are those of the finite map that the
      heap represents, and the red-black invariants hold again afterwards.
    - Other trees: the text of a tree is read back, and Huffman's tree is optimal.
    - Lists: cycle detection decides; what the list programs print; Dijkstra's
      algorithm computes shortest distances; which rule the rule matcher finds.
    - Hashes and counters: equivalence with polynomial hashes, what is ignored,
      addition modulo the width, byte reversal.

    Where the code does not do what it means to, a theorem states what it does, or an
    example beside the model gives a run.

    ** Not modelled

    str_list.c has no defined behaviour (it writes through a pointer that is never set),
    producer_10_consumet_10.c does not compile, and the string helpers (src/libc,
    src/src/str_sm) are fragments whose effect is commented out or whose functions are
    missing.  Log output is left out, the debugging logs of springsnail, which print
    buffers as strings, among it.  The opening of sockets, forking, signals and terminal modes are system calls
    in all programs; so are the switch commands of the telnet client.  The remaining
    programs are short examples around system calls (the other chapters of LHP,
    src/example, src/src/libevent), bindings, and copies of other projects that need the
    Windows kernel or its socket providers (src/src/windows).

    This file: the [outcome] monad, machine integers, checked array accesses and
    the lemmas, tactics and hint databases the other files share. *)

From stdpp Require Import base numbers list list_numbers gmap strings.

#[local] Open Scope Z_scope.

(** ** Outcomes of C code

    A C function either returns a value or leaves the defined behaviour of the
    program: it fails an [assert], reads or writes outside an array,
    dereferences [NULL] or a freed pointer, divides by zero.
    [Blocked] is no error: the code waits for an input that the script of its
    environment does not have (yet).  A loop that is not structural is
    run on fuel; running out of it is a fault of the model and every theorem
    that a function returns excludes it. *)

Inductive fault : Type :=
| AssertFailed
| OutOfBounds
| NullDeref
| DivByZero
| Blocked
| OutOfFuel.

#[global] Instance fault_eq_dec : EqDecision fault.
Proof. solve_decision. Defined.

Inductive outcome (A : Type) : Type :=
| Ok (a : A)
| Fault (f : fault).

Arguments Ok {A} a.
Arguments Fault {A} f.

#[global] Instance outcome_ret : MRet outcome := fun A a => Ok a.

#[global] Instance outcome_bind : MBind outcome := fun A B k m =>
  match m with
  | Ok a => k a
  | Fault f => Fault f
  end.

(** [assert(e)] of C. *)
Definition assert_ (b : bool) : outcome unit :=
  if b then Ok tt else Fault AssertFailed.

(** ** Machine integers

    A w-bit unsigned object holds a [Z] in [0 .. 2^w - 1]; a conversion to it
    is [Z.modulo].  [int] is 32 bits wide and [char] is signed. *)

Definition u8 (z : Z) : Z := z `mod` 256.
Definition u16 (z : Z) : Z := z `mod` 65536.
Definition u32 (z : Z) : Z := z `mod` 4294967296.

(** Two's-complement reading of the low 8 bits: a conversion to [char]. *)
Definition s8 (z : Z) : Z := (z + 128) `mod` 256 - 128.

(** Two's-complement reading of the low 32 bits: a conversion to [int]. *)
Definition s32 (z : Z) : Z := (z + 2147483648) `mod` 4294967296 - 2147483648.

Definition is_u8 (z : Z) : Prop := 0 <= z < 256.
Definition is_u16 (z : Z) : Prop := 0 <= z < 65536.
Definition is_u32 (z : Z) : Prop := 0 <= z < 4294967296.

#[global] Instance is_u8_dec z : Decision (is_u8 z).
Proof. unfold is_u8. apply _. Defined.
#[global] Instance is_u16_dec z : Decision (is_u16 z).
Proof. unfold is_u16. apply _. Defined.
#[global] Instance is_u32_dec z : Decision (is_u32 z).
Proof. unfold is_u32. apply _. Defined.

(** An array of [UCHAR]. *)
Definition bytes_ok (l : list Z) : Prop := Forall is_u8 l.

#[global] Instance bytes_ok_dec l : Decision (bytes_ok l).
Proof. unfold bytes_ok. apply _. Defined.

(** ** Arrays

    A C array is a [list Z]; a pointer into it is a [Z] offset.  An access out
    of range is a fault, where stdpp's own update would silently do nothing. *)

Definition Zlen {A} (l : list A) : Z := Z.of_nat (length l).

Definition rd {A} (b : list A) (i : Z) : outcome A :=
  if bool_decide (0 <= i)
  then match b !! Z.to_nat i with
       | Some x => Ok x
       | None => Fault OutOfBounds
       end
  else Fault OutOfBounds.

Definition wr {A} (b : list A) (i : Z) (x : A) : outcome (list A) :=
  if bool_decide (0 <= i < Zlen b)
  then Ok (<[Z.to_nat i := x]> b)
  else Fault OutOfBounds.

(** The [n] elements from offset [i], and the array with the elements from [i]
    on replaced by [xs]: what [memcpy] from and to an array does. *)
Definition slice {A} (b : list A) (i n : Z) : list A :=
  take (Z.to_nat n) (drop (Z.to_nat i) b).

Definition splice {A} (b : list A) (i : Z) (xs : list A) : list A :=
  take (Z.to_nat i) b ++ xs ++ drop (Z.to_nat i + length xs) b.

Definition rd_slice {A} (b : list A) (i n : Z) : outcome (list A) :=
  if bool_decide (0 <= i /\ 0 <= n /\ i + n <= Zlen b)
  then Ok (slice b i n)
  else Fault OutOfBounds.

Definition wr_slice {A} (b : list A) (i : Z) (xs : list A) : outcome (list A) :=
  if bool_decide (0 <= i /\ i + Zlen xs <= Zlen b)
  then Ok (splice b i xs)
  else Fault OutOfBounds.

(** Arrays of arrays, and [for (; i < i0 + n; ++i)] from [i0] on. *)
Definition rd2 {A} (b : list (list A)) (i j : Z) : outcome A := row ← rd b i; rd row j.

Definition wr2 {A} (b : list (list A)) (i j : Z) (x : A) : outcome (list (list A)) :=
  row ← rd b i; row ← wr row j x; wr b i row.

Fixpoint for_ {A} (n : nat) (i : Z) (body : Z -> A -> outcome A) (st : A) : outcome A :=
  match n with
  | O => Ok st
  | S n => st ← body i st; for_ n (i + 1) body st
  end.

(** Text in a program, as bytes. *)
Definition text (s : string) : list Z := (fun c => Z.of_nat (Ascii.nat_of_ascii c)) <$> String.list_ascii_of_string s.

(** A number printed with [%d]. *)
Fixpoint dec_digits (fuel : nat) (n : Z) (acc : list Z) : list Z :=
  match fuel with
  | O => acc
  | S fuel => if decide (n < 10) then (48 + n) :: acc else dec_digits fuel (n / 10) ((48 + n `mod` 10) :: acc)
  end.
Definition dec (n : Z) : list Z := if decide (n < 0) then 45 :: dec_digits 20 (- n) [] else dec_digits 20 n [].

(** ** Tactics and hint databases *)

Create HintDb mach.
Create HintDb arr.
Create Rewrite HintDb arrlen.

(** Case analysis on the guards of C code. *)
Ltac zify_bool :=
  repeat match goal with
  | H : context [bool_decide ?P] |- _ => destruct (bool_decide_reflect P)
  | |- context [bool_decide ?P] => destruct (bool_decide_reflect P)
  | H : (_ && _)%bool = true |- _ => apply andb_true_iff in H as [? ?]
  | H : (_ && _)%bool = false |- _ => apply andb_false_iff in H
  | H : (_ || _)%bool = false |- _ => apply orb_false_iff in H as [? ?]
  | H : (_ || _)%bool = true |- _ => apply orb_true_iff in H
  | H : negb _ = true |- _ => apply negb_true_iff in H
  | H : negb _ = false |- _ => apply negb_false_iff in H
  | H : (_ =? _)%Z = true |- _ => apply Z.eqb_eq in H
  | H : (_ =? _)%Z = false |- _ => apply Z.eqb_neq in H
  | H : (_ <? _)%Z = true |- _ => apply Z.ltb_lt in H
  | H : (_ <? _)%Z = false |- _ => apply Z.ltb_ge in H
  | H : (_ <=? _)%Z = true |- _ => apply Z.leb_le in H
  | H : (_ <=? _)%Z = false |- _ => apply Z.leb_gt in H
  end.

(** Decide a closed goal by computation. *)
Ltac by_compute := apply (bool_decide_unpack _); vm_compute; exact I.

(** Solve a goal about array bounds and machine-integer ranges. *)
Ltac arith :=
  unfold Zlen, is_u8, is_u16, is_u32 in *;
  autorewrite with arrlen in *;
  try lia.

(** Destruct the first scrutinised bind of a hypothesis. *)
Ltac bind_inv H :=
  match type of H with
  | mbind _ ?m = _ =>
      let E := fresh "E" in
      destruct m eqn:E; simpl in H; [| discriminate H]
  end.

(** ** Lemmas on outcomes *)

Section Outcome.
Context {A B C : Type}.

Lemma bind_Ok (m : outcome A) (k : A -> outcome B) b :
  (x ← m; k x) = Ok b -> exists a, m = Ok a /\ k a = Ok b.
Proof. destruct m; simpl; [eauto | discriminate]. Qed.

Lemma bind_Ok_l (a : A) (k : A -> outcome B) : (x ← Ok a; k x) = k a.
Proof. reflexivity. Qed.

Lemma bind_assoc_outcome (m : outcome A) (k : A -> outcome B) (j : B -> outcome C) :
  (y ← (x ← m; k x); j y) = (x ← m; y ← k x; j y).
Proof. by destruct m. Qed.
End Outcome.

(** A [for] loop with an invariant. *)
Lemma for_inv {A} (P : Z -> A -> Prop) body n : forall i st,
  (forall k st, i <= k < i + Z.of_nat n -> P k st -> exists st', body k st = Ok st' /\ P (k + 1) st') ->
  P i st -> exists st', for_ n i body st = Ok st' /\ P (i + Z.of_nat n) st'.
Proof.
  induction n as [|n IH]; intros i st Hbody Hi.
  - exists st. split; [done|]. by replace (i + Z.of_nat 0) with i by lia.
  - destruct (Hbody i st ltac:(lia) Hi) as (st1 & E & H1). simpl. rewrite E. cbn [mbind outcome_bind].
    destruct (IH (i + 1) st1) as (st2 & E2 & H2); [|done|].
    + intros k st' Hk. apply Hbody. lia.
    + exists st2. split; [done|]. by replace (i + Z.of_nat (S n)) with (i + 1 + Z.of_nat n) by lia.
Qed.

(** ** Lemmas on machine integers *)

Lemma u8_range z : is_u8 (u8 z).
Proof. unfold is_u8, u8. by apply Z.mod_pos_bound. Qed.

Lemma u16_range z : is_u16 (u16 z).
Proof. unfold is_u16, u16. by apply Z.mod_pos_bound. Qed.

Lemma u32_range z : is_u32 (u32 z).
Proof. unfold is_u32, u32. by apply Z.mod_pos_bound. Qed.

Lemma u8_small z : is_u8 z -> u8 z = z.
Proof. apply Z.mod_small. Qed.

Lemma u16_small z : is_u16 z -> u16 z = z.
Proof. apply Z.mod_small. Qed.

Lemma u32_small z : is_u32 z -> u32 z = z.
Proof. apply Z.mod_small. Qed.

Lemma u8_is_u16 z : is_u8 z -> is_u16 z.
Proof. unfold is_u8, is_u16. lia. Qed.

#[export] Hint Resolve u8_range u16_range u32_range u8_is_u16 : mach.

Lemma shiftl_8 z : Z.shiftl z 8 = z * 256.
Proof. by rewrite Z.shiftl_mul_pow2. Qed.

Lemma shiftr_8 z : Z.shiftr z 8 = z `div` 256.
Proof. by rewrite Z.shiftr_div_pow2. Qed.

Lemma land_255 z : Z.land z 255 = z `mod` 256.
Proof. change 255 with (Z.ones 8). by rewrite Z.land_ones. Qed.

(** A value whose low [n] bits are clear and one that fits in them have no bit
    in common. *)
Lemma land_shiftl_disjoint hi lo n :
  0 <= n -> 0 <= lo < 2 ^ n -> Z.land (Z.shiftl hi n) lo = 0.
Proof.
  intros Hn Hlo. apply Z.bits_inj'. intros i Hi.
  rewrite Z.land_spec, Z.testbit_0_l.
  destruct (decide (i < n)).
  - rewrite Z.shiftl_spec_low by done. done.
  - rewrite <- (Z.mod_small lo (2 ^ n)) by done.
    rewrite Z.mod_pow2_bits_high by lia. by rewrite andb_false_r.
Qed.

Lemma lor_shiftl_add hi lo n :
  0 <= n -> 0 <= lo < 2 ^ n -> Z.lor (Z.shiftl hi n) lo = hi * 2 ^ n + lo.
Proof.
  intros Hn Hlo. rewrite <- Z.shiftl_mul_pow2 by done.
  rewrite Z.add_nocarry_lxor by (by apply land_shiftl_disjoint).
  rewrite Z.lxor_lor by (by apply land_shiftl_disjoint). done.
Qed.

(** [(USHORT)(hi << 8) | lo], the way every 16-bit field is decoded. *)
Lemma be16_decode hi lo :
  is_u8 hi -> is_u8 lo -> Z.lor (u16 (Z.shiftl hi 8)) lo = hi * 256 + lo.
Proof.
  intros Hhi Hlo. rewrite u16_small.
  - by rewrite (lor_shiftl_add hi lo 8).
  - rewrite shiftl_8. unfold is_u8, is_u16 in *. lia.
Qed.

Lemma testbit_high z n i : 0 <= z < 2 ^ n -> n <= i -> Z.testbit z i = false.
Proof.
  intros Hz Hi. rewrite <- (Z.mod_small z (2 ^ n)) by done.
  destruct (decide (0 <= n)); [by apply Z.mod_pow2_bits_high |].
  rewrite Z.pow_neg_r in Hz by lia. lia.
Qed.

Lemma bound_of_bits z n :
  0 <= n -> (forall i, n <= i -> Z.testbit z i = false) -> 0 <= z < 2 ^ n.
Proof.
  intros Hn Hb.
  assert (E : z = z `mod` 2 ^ n).
  { apply Z.bits_inj'. intros i Hi. destruct (decide (i < n)).
    - by rewrite Z.mod_pow2_bits_low.
    - rewrite Z.mod_pow2_bits_high by lia. apply Hb. lia. }
  rewrite E. apply Z.mod_pos_bound. lia.
Qed.

Lemma lxor_bound x y n :
  0 <= n -> 0 <= x < 2 ^ n -> 0 <= y < 2 ^ n -> 0 <= Z.lxor x y < 2 ^ n.
Proof.
  intros Hn Hx Hy. apply bound_of_bits; [done|]. intros i Hi.
  by rewrite Z.lxor_spec, (testbit_high x n), (testbit_high y n).
Qed.

Lemma lor_bound x y n :
  0 <= n -> 0 <= x < 2 ^ n -> 0 <= y < 2 ^ n -> 0 <= Z.lor x y < 2 ^ n.
Proof.
  intros Hn Hx Hy. apply bound_of_bits; [done|]. intros i Hi.
  by rewrite Z.lor_spec, (testbit_high x n), (testbit_high y n).
Qed.

Lemma lxor_is_u8 x y : is_u8 x -> is_u8 y -> is_u8 (Z.lxor x y).
Proof. by apply (lxor_bound x y 8). Qed.

Lemma lxor_is_u16 x y : is_u16 x -> is_u16 y -> is_u16 (Z.lxor x y).
Proof. by apply (lxor_bound x y 16). Qed.

#[export] Hint Resolve lxor_is_u8 lxor_is_u16 : mach.

Lemma be16_div_mod hi lo :
  is_u8 lo -> (hi * 256 + lo) `div` 256 = hi /\ (hi * 256 + lo) `mod` 256 = lo.
Proof.
  unfold is_u8. intros Hlo. rewrite Z.div_add_l, Z.div_small by lia. split; [lia|].
  rewrite Z.add_comm, Z_mod_plus_full, Z.mod_small; lia.
Qed.

Lemma hi_lo_of_u16 c :
  is_u16 c -> is_u8 (c `div` 256) /\ is_u8 (c `mod` 256) /\
              c `div` 256 * 256 + c `mod` 256 = c.
Proof.
  unfold is_u16, is_u8. intros Hc. split; [|split].
  - split; [apply Z.div_pos; lia | apply Z.div_lt_upper_bound; lia].
  - by apply Z.mod_pos_bound.
  - pose proof (Z.div_mod c 256). lia.
Qed.

(** ** Lemmas on arrays *)

Lemma Zlen_nonneg {A} (l : list A) : 0 <= Zlen l.
Proof. unfold Zlen. lia. Qed.

Lemma Zlen_app {A} (l k : list A) : Zlen (l ++ k) = Zlen l + Zlen k.
Proof. unfold Zlen. rewrite length_app. lia. Qed.

Lemma Zlen_cons {A} (x : A) l : Zlen (x :: l) = Zlen l + 1.
Proof. unfold Zlen. simpl. lia. Qed.

Lemma Zlen_insert {A} (l : list A) i x : Zlen (<[i := x]> l) = Zlen l.
Proof. unfold Zlen. by rewrite length_insert. Qed.

#[export] Hint Rewrite @Zlen_app @Zlen_cons @Zlen_insert : arrlen.
#[export] Hint Rewrite @length_app @length_insert @length_take @length_drop
  @length_replicate : arrlen.

Section Arrays.
Context {A : Type}.
Implicit Types (b : list A) (x : A) (i n : Z).

Lemma rd_Ok_iff b i x : rd b i = Ok x <-> 0 <= i /\ b !! Z.to_nat i = Some x.
Proof.
  unfold rd. zify_bool.
  - destruct (b !! Z.to_nat i); split; intros; destruct_and?; simplify_eq; auto.
  - split; [discriminate | lia].
Qed.

Lemma rd_in_range b i : 0 <= i < Zlen b -> exists x, rd b i = Ok x.
Proof.
  intros Hi. destruct (b !! Z.to_nat i) as [x|] eqn:E.
  - exists x. apply rd_Ok_iff. split; [lia | done].
  - apply lookup_ge_None in E. unfold Zlen in Hi. lia.
Qed.

Lemma rd_range b i x : rd b i = Ok x -> 0 <= i < Zlen b.
Proof.
  rewrite rd_Ok_iff. intros [? ?%lookup_lt_Some]. unfold Zlen. lia.
Qed.

Lemma wr_in_range b i x :
  0 <= i < Zlen b -> wr b i x = Ok (<[Z.to_nat i := x]> b).
Proof. intros Hi. unfold wr. by rewrite bool_decide_true. Qed.

Lemma wr_Ok b i x b' :
  wr b i x = Ok b' -> 0 <= i < Zlen b /\ b' = <[Z.to_nat i := x]> b.
Proof. unfold wr. zify_bool; intros; by simplify_eq. Qed.

Lemma rd_insert_eq b i x :
  0 <= i < Zlen b -> rd (<[Z.to_nat i := x]> b) i = Ok x.
Proof.
  intros Hi. apply rd_Ok_iff. split; [lia|].
  apply list_lookup_insert_eq. unfold Zlen in Hi. lia.
Qed.

Lemma rd_insert_ne b i j x :
  0 <= i -> i <> j -> rd (<[Z.to_nat i := x]> b) j = rd b j.
Proof.
  intros Hi Hne. unfold rd. zify_bool; [|done].
  rewrite list_lookup_insert_ne; [done | lia].
Qed.

Lemma slice_length b i n :
  0 <= i -> 0 <= n -> i + n <= Zlen b -> Zlen (slice b i n) = n.
Proof.
  intros ???. unfold Zlen, slice in *. rewrite length_take, length_drop. lia.
Qed.

Lemma splice_length b i (xs : list A) :
  0 <= i -> i + Zlen xs <= Zlen b -> Zlen (splice b i xs) = Zlen b.
Proof.
  intros ??. unfold Zlen, splice in *.
  rewrite !length_app, length_take, length_drop. lia.
Qed.

Lemma splice_nil b i : splice b i [] = b.
Proof. unfold splice. simpl. rewrite Nat.add_0_r. apply take_drop. Qed.

(** Writing one element and then the rest is writing them together. *)
Lemma splice_cons b i x (xs : list A) :
  0 <= i -> i + 1 + Zlen xs <= Zlen b ->
  splice (<[Z.to_nat i := x]> b) (i + 1) xs = splice b i (x :: xs).
Proof.
  intros Hi Hlen. unfold splice, Zlen in *.
  replace (Z.to_nat (i + 1)) with (S (Z.to_nat i)) by lia.
  rewrite (take_S_r _ _ x) by (apply list_lookup_insert_eq; lia).
  rewrite take_insert_ge by lia. rewrite drop_insert_lt by lia.
  rewrite <- app_assoc. simpl.
  by replace (Z.to_nat i + S (length xs))%nat with (S (Z.to_nat i + length xs)) by lia.
Qed.

Lemma slice_splice b i (xs : list A) :
  0 <= i -> i + Zlen xs <= Zlen b -> slice (splice b i xs) i (Zlen xs) = xs.
Proof.
  intros Hi Hlen. unfold slice, splice, Zlen in *.
  rewrite drop_app_le by (rewrite length_take; lia).
  rewrite drop_ge by (rewrite length_take; lia). simpl.
  rewrite Nat2Z.id. by rewrite take_app_length.
Qed.

Lemma splice_slice b i n :
  0 <= i -> 0 <= n -> i + n <= Zlen b -> splice b i (slice b i n) = b.
Proof.
  intros Hi Hn Hlen. pose proof (slice_length b i n Hi Hn Hlen) as L.
  unfold splice, slice, Zlen in *. rewrite <- drop_drop.
  replace (length (take (Z.to_nat n) (drop (Z.to_nat i) b))) with (Z.to_nat n) by lia.
  by rewrite take_drop, take_drop.
Qed.

Lemma slice_app_l (l k : list A) n : 0 <= n <= Zlen l -> slice (l ++ k) 0 n = slice l 0 n.
Proof.
  intros Hn. unfold slice, Zlen in *. change (Z.to_nat 0) with O. rewrite !drop_0.
  apply take_app_le. lia.
Qed.

Lemma slice_prefix b i n (l k : list A) :
  0 <= i -> slice b i n = l ++ k -> slice b i (Zlen l) = l.
Proof.
  intros Hi E. unfold slice, Zlen in *. rewrite Nat2Z.id.
  assert (length l <= Z.to_nat n)%nat.
  { pose proof (f_equal length E) as L. rewrite length_app, length_take in L. lia. }
  replace (length l) with (length l `min` Z.to_nat n)%nat by lia.
  rewrite <- take_take, E. by rewrite take_app_length.
Qed.

Lemma slice_suffix b i m n (l k : list A) :
  0 <= i -> Zlen l = m -> 0 <= n -> slice b i (m + n) = l ++ k -> slice b (i + m) n = k.
Proof.
  intros Hi <- Hn E. unfold slice, Zlen in *.
  apply (f_equal (drop (length l))) in E. rewrite drop_app_length in E. rewrite <- E.
  replace (Z.to_nat (Z.of_nat (length l) + n)) with (length l + Z.to_nat n)%nat by lia.
  rewrite <- take_drop_commute, drop_drop. do 2 f_equal. lia.
Qed.

(** The cells of a slice. *)
Lemma rd_of_slice b i n k x :
  0 <= i -> slice b i n !! k = Some x -> rd b (i + Z.of_nat k) = Ok x.
Proof.
  intros Hi. unfold slice. rewrite lookup_take_Some, lookup_drop. intros [Hx _].
  apply rd_Ok_iff. split; [lia|]. rewrite <- Hx. f_equal. lia.
Qed.

Lemma rd_slice_in_range b i n :
  0 <= i -> 0 <= n -> i + n <= Zlen b -> rd_slice b i n = Ok (slice b i n).
Proof. intros. unfold rd_slice. by rewrite bool_decide_true. Qed.

Lemma wr_slice_in_range b i (xs : list A) :
  0 <= i -> i + Zlen xs <= Zlen b -> wr_slice b i xs = Ok (splice b i xs).
Proof. intros. unfold wr_slice. by rewrite bool_decide_true. Qed.

Lemma slice_cons b i n x :
  rd b i = Ok x -> 0 < n -> slice b i n = x :: slice b (i + 1) (n - 1).
Proof.
  rewrite rd_Ok_iff. intros [Hi Hx] Hn. unfold slice.
  replace (Z.to_nat n) with (S (Z.to_nat (n - 1))) by lia.
  replace (Z.to_nat (i + 1)) with (S (Z.to_nat i)) by lia.
  by rewrite (drop_S _ _ _ Hx).
Qed.

Lemma slice_0 b i n : n <= 0 -> slice b i n = [].
Proof. intros. unfold slice. by replace (Z.to_nat n) with 0%nat by lia. Qed.

Lemma slice_all b n : n = Zlen b -> slice b 0 n = b.
Proof. intros ->. unfold slice, Zlen. rewrite Nat2Z.id. simpl. by apply take_ge. Qed.

Lemma rd_splice_lt b i j (xs : list A) :
  j < i -> i <= Zlen b -> rd (splice b i xs) j = rd b j.
Proof.
  intros Hj Hi. unfold rd, splice, Zlen in *. zify_bool; [|done].
  rewrite lookup_app_l by (rewrite length_take; lia).
  rewrite lookup_take_lt by lia. done.
Qed.
End Arrays.

Lemma Forall_slice {A} (P : A -> Prop) b i n : Forall P b -> Forall P (slice b i n).
Proof. intros. unfold slice. by apply Forall_take, Forall_drop. Qed.

Lemma Forall_splice {A} (P : A -> Prop) b i xs :
  Forall P b -> Forall P xs -> Forall P (splice b i xs).
Proof.
  intros. unfold splice.
  apply Forall_app; split; [by apply Forall_take |].
  apply Forall_app; split; [done | by apply Forall_drop].
Qed.

Lemma Forall_rd {A} (P : A -> Prop) b i x : Forall P b -> rd b i = Ok x -> P x.
Proof. rewrite rd_Ok_iff. intros H [_ Hx]. by eapply Forall_lookup_1. Qed.

Lemma Forall_wr {A} (P : A -> Prop) b i x b' :
  Forall P b -> P x -> wr b i x = Ok b' -> Forall P b'.
Proof. intros ?? [_ ->]%wr_Ok. by apply Forall_insert. Qed.

Lemma bytes_ok_nil : bytes_ok [].
Proof. constructor. Qed.

Lemma bytes_ok_cons x l : is_u8 x -> bytes_ok l -> bytes_ok (x :: l).
Proof. by constructor. Qed.

Lemma bytes_ok_app l k : bytes_ok l -> bytes_ok k -> bytes_ok (l ++ k).
Proof. intros. by apply Forall_app. Qed.

Lemma bytes_rd b i x : bytes_ok b -> rd b i = Ok x -> is_u8 x.
Proof. apply Forall_rd. Qed.

#[export] Hint Resolve Forall_slice Forall_splice Forall_wr bytes_rd
  bytes_ok_nil bytes_ok_cons bytes_ok_app : arr.

(** Arrays of arrays: their size, the values [g] they hold, and one value changed. *)
Definition dims2 {A} (b : list (list A)) (n c : Z) : Prop := Zlen b = n /\ Forall (fun row => Zlen row = c) b.

Definition holds2 {A} (b : list (list A)) (n c : Z) (g : Z -> Z -> A) : Prop :=
  forall i j, 0 <= i < n -> 0 <= j < c -> rd2 b i j = Ok (g i j).

Definition upd2 {A} (g : Z -> Z -> A) (i j : Z) (x : A) : Z -> Z -> A :=
  fun i' j' => if decide (i' = i /\ j' = j) then x else g i' j'.

Lemma wr2_ok {A} (b : list (list A)) n c g i j x :
  dims2 b n c -> holds2 b n c g -> 0 <= i < n -> 0 <= j < c ->
  exists b', wr2 b i j x = Ok b' /\ dims2 b' n c /\ holds2 b' n c (upd2 g i j x).
Proof.
  intros [Hn Hrows] Hg Hi Hj. unfold wr2.
  destruct (rd_in_range b i ltac:(lia)) as [row Er]. rewrite Er. cbn [mbind outcome_bind].
  assert (Hrow : Zlen row = c) by (by apply (Forall_rd _ _ _ _ Hrows Er)).
  rewrite wr_in_range by lia. cbn [mbind outcome_bind]. rewrite wr_in_range by lia. eexists. split; [done|].
  split; [split|].
  - by rewrite Zlen_insert.
  - apply Forall_insert; [done|]. by rewrite Zlen_insert.
  - intros i' j' Hi' Hj'. specialize (Hg i' j' Hi' Hj'). unfold rd2 in *. unfold upd2.
    destruct (decide (i' = i)) as [->|Hne].
    + rewrite rd_insert_eq by lia. cbn [mbind outcome_bind]. rewrite Er in Hg. cbn [mbind outcome_bind] in Hg.
      destruct (decide (j' = j)) as [->|Hjj].
      * rewrite rd_insert_eq by lia. by rewrite decide_True.
      * rewrite rd_insert_ne by lia. rewrite Hg. rewrite decide_False by tauto. done.
    + rewrite rd_insert_ne by lia. rewrite Hg. by rewrite decide_False by tauto.
Qed.

