(* ===== verification/CStr.v ===== *)
(** * Strings in character arrays

    What the servers use of [string.h] and [stdlib.h], on offsets into arrays that end
    strings with NUL, and the lemmas on strings that are cut in place by writing NULs. *)

From stdpp Require Import base numbers list list_numbers strings.
From S2P Require Import Prelude.

#[local] Open Scope Z_scope.

(** ** C strings *)

Definition CR : Z := 13.
Definition LF : Z := 10.
Definition is_blank (c : Z) : bool := bool_decide (c = 32) || bool_decide (c = 9).

(** The string at the front of some bytes, and at an offset of the buffer. *)
Fixpoint string_of (l : list Z) : outcome (list Z) :=
  match l with
  | [] => Fault OutOfBounds
  | c :: l => if decide (c = 0) then Ok [] else s ← string_of l; Ok (c :: s)
  end.

Definition cstr (buf : list Z) (i : Z) : outcome (list Z) :=
  if bool_decide (0 <= i) then string_of (drop (Z.to_nat i) buf) else Fault OutOfBounds.

(** [strpbrk] and [strspn] with blanks, [strchr], as offsets. *)
Fixpoint find_char (P : Z -> bool) (s : list Z) : option Z :=
  match s with
  | [] => None
  | c :: s => if P c then Some 0 else k ← find_char P s; Some (k + 1)
  end.

Fixpoint span_blanks (s : list Z) : Z :=
  match s with
  | [] => 0
  | c :: s => if is_blank c then span_blanks s + 1 else 0
  end.

Definition tolower (c : Z) : Z := if bool_decide (65 <= c <= 90) then c + 32 else c.

(** [strcasecmp(s, t) == 0], and of the first [n] characters. *)
Definition same_nocase (s t : list Z) : bool := bool_decide (tolower <$> s = tolower <$> t).
Definition same_nocase_n (s t : list Z) (n : nat) : bool := same_nocase (take n s) (take n t).

(** ** Numbers *)

Definition is_space (c : Z) : bool := bool_decide (c = 32) || bool_decide (9 <= c <= 13).

Fixpoint number (n : Z) (s : list Z) : Z :=
  match s with
  | c :: s => if bool_decide (48 <= c <= 57) then number (n * 10 + (c - 48)) s else n
  | [] => n
  end.

(** A [long] has 64 bits; a number beyond it becomes the nearest one. *)
Definition clamp_long (n : Z) : Z := Z.max (- 2 ^ 63) (Z.min (2 ^ 63 - 1) n).

(** [strtol( s, NULL, 10 )], which [atol] and [atoi] call. *)
Fixpoint atol (s : list Z) : Z :=
  match s with
  | [] => 0
  | c :: s' =>
      if is_space c then atol s'
      else if bool_decide (c = 45) then clamp_long (- number 0 s')
      else if bool_decide (c = 43) then clamp_long (number 0 s')
      else clamp_long (number 0 s)
  end.

Definition atoi (s : list Z) : Z := s32 (atol s).
(** A C string ends at its first NUL. *)
Fixpoint upto_nul (s : list Z) : list Z :=
  match s with
  | [] => []
  | c :: s => if decide (c = 0) then [] else c :: upto_nul s
  end.

Definition skip_blanks (s : list Z) : list Z := drop (Z.to_nat (span_blanks s)) s.
Definition is_slash (c : Z) : bool := bool_decide (c = 47).
Definition from_slash (s : list Z) : option (list Z) := k ← find_char is_slash s; Some (drop (Z.to_nat k) s).

(** ** Strings in the buffer *)

(** The string [s] stands at the offset [i]. *)
Definition at_ (buf : list Z) (i : Z) (s : list Z) : Prop :=
  0 <= i /\ (0 ∉ s) /\ exists rest, drop (Z.to_nat i) buf = s ++ 0 :: rest.

Lemma string_of_ok s rest : 0 ∉ s -> string_of (s ++ 0 :: rest) = Ok s.
Proof.
  induction s as [|c s IH]; [done|]. rewrite not_elem_of_cons. intros [Hc Hs]. simpl.
  rewrite decide_False by done. by rewrite IH.
Qed.

Lemma cstr_ok buf i s : at_ buf i s -> cstr buf i = Ok s.
Proof.
  intros (Hi & H0 & rest & E). unfold cstr. rewrite bool_decide_true by done. rewrite E. by apply string_of_ok.
Qed.

Lemma not_in_part (x : Z) n s : x ∉ s -> (x ∉ take n s) /\ (x ∉ drop n s).
Proof. rewrite <- (take_drop n s) at 1. by rewrite not_elem_of_app. Qed.

Lemma at_skip buf i s k : at_ buf i s -> 0 <= k <= Zlen s -> at_ buf (i + k) (drop (Z.to_nat k) s).
Proof.
  intros (Hi & H0 & rest & E) Hk. split; [lia|]. split; [by apply not_in_part|].
  exists rest. rewrite Z2Nat.inj_add by lia. rewrite <- drop_drop, E.
  by rewrite drop_app_le by (unfold Zlen in Hk; lia).
Qed.

Lemma find_char_range P s k : find_char P s = Some k -> 0 <= k < Zlen s.
Proof.
  revert k. induction s as [|c s IH]; intros k; simpl; [done|]. rewrite Zlen_cons. pose proof (Zlen_nonneg s).
  destruct (P c); [intros [= <-]; lia|]. destruct (find_char P s) as [j|]; [|done]. intros [= <-].
  specialize (IH j eq_refl). lia.
Qed.

Lemma span_blanks_range s : 0 <= span_blanks s <= Zlen s.
Proof.
  induction s as [|c s IH]; simpl; [unfold Zlen; simpl; lia|]. rewrite Zlen_cons. destruct (is_blank c); lia.
Qed.

(** Two buffers of the same length that agree from an offset on. *)
Definition agree_from (n : Z) (b b' : list Z) : Prop :=
  length b' = length b /\ forall i, n <= Z.of_nat i -> b' !! i = b !! i.

(** Writing the NUL that ends a string cuts it in two. *)
Lemma at_write buf i s k :
  at_ buf i s -> 0 <= k < Zlen s ->
  exists b, wr buf (i + k) 0 = Ok b /\ at_ b i (take (Z.to_nat k) s) /\ at_ b (i + k + 1) (drop (Z.to_nat (k + 1)) s) /\
            agree_from (i + Zlen s) buf b.
Proof.
  intros (Hi & H0 & rest & E) Hk. unfold Zlen in Hk.
  assert (Hlen : length buf = (Z.to_nat i + length s + 1 + length rest)%nat).
  { apply (f_equal length) in E. rewrite length_drop, length_app in E. simpl in E. lia. }
  rewrite wr_in_range by (unfold Zlen; lia). eexists. split; [done|].
  assert (Ed : drop (Z.to_nat i) (<[Z.to_nat (i + k):=0]> buf) =
               take (Z.to_nat k) s ++ 0 :: drop (Z.to_nat (k + 1)) s ++ 0 :: rest).
  { rewrite Z2Nat.inj_add by lia. rewrite drop_insert_ge by lia.
    replace (Z.to_nat i + Z.to_nat k - Z.to_nat i)%nat with (Z.to_nat k) by lia. rewrite E.
    rewrite insert_app_l by lia. rewrite (insert_take_drop s) by lia. rewrite <- app_assoc. simpl.
    by replace (S (Z.to_nat k)) with (Z.to_nat (k + 1)) by lia. }
  split; [|split; [|split]].
  - split; [done|]. split; [by apply not_in_part|]. by eexists.
  - split; [lia|]. split; [by apply not_in_part|]. exists rest.
    replace (Z.to_nat (i + k + 1)) with (Z.to_nat i + (Z.to_nat k + 1))%nat by lia. rewrite <- drop_drop, Ed.
    rewrite drop_app_ge by (rewrite length_take; lia). rewrite length_take.
    replace (Z.to_nat k + 1 - Z.to_nat k `min` length s)%nat with 1%nat by lia. done.
  - by rewrite length_insert.
  - intros j Hj. unfold Zlen in Hj. by rewrite list_lookup_insert_ne by lia.
Qed.

Lemma agree_trans n n' b1 b2 b3 : agree_from n b1 b2 -> agree_from n' b2 b3 -> n' <= n -> agree_from n b1 b3.
Proof.
  intros [L1 H1] [L2 H2] Hn. split; [congruence|]. intros i Hi. rewrite H2, H1 by lia. done.
Qed.

Lemma same_nocase_n_length s t n : same_nocase_n s t n = true -> (length (take n s) = length (take n t))%nat.
Proof.
  unfold same_nocase_n, same_nocase. intros H. apply bool_decide_eq_true in H.
  apply (f_equal length) in H. by rewrite !length_fmap in H.
Qed.

Lemma upto_nul_at buf i s rest : 0 <= i -> drop (Z.to_nat i) buf = s ++ 0 :: rest -> at_ buf i (upto_nul s) /\ Zlen (upto_nul s) <= Zlen s.
Proof.
  intros Hi E.
  assert (H : (0 ∉ upto_nul s) /\ Zlen (upto_nul s) <= Zlen s /\ exists r, s ++ 0 :: rest = upto_nul s ++ 0 :: r).
  { clear E. induction s as [|c s (IH1 & IH2 & r & IH3)]; simpl.
    - split; [apply not_elem_of_nil|]. split; [done|]. by exists rest.
    - destruct (decide (c = 0)) as [->|Hc].
      + split; [apply not_elem_of_nil|]. split; [unfold Zlen; simpl; lia|]. by exists (s ++ 0 :: rest).
      + split; [rewrite not_elem_of_cons; split; [congruence|done]|]. split; [rewrite !Zlen_cons; lia|].
        exists r. by rewrite IH3. }
  destruct H as (H1 & H2 & r & H3). split; [|done]. split; [done|]. split; [done|]. exists r. by rewrite E.
Qed.

Lemma agree_drop n b b' i : agree_from n b b' -> n <= Z.of_nat i -> drop i b' = drop i b.
Proof. intros [_ H] Hi. apply list_eq. intros j. rewrite !lookup_drop. apply H. lia. Qed.

Lemma drop_rd (buf : list Z) i l k c : 0 <= i -> drop (Z.to_nat i) buf = l -> l !! k = Some c -> rd buf (i + Z.of_nat k) = Ok c.
Proof.
  intros Hi E Hk. apply rd_Ok_iff. split; [lia|]. rewrite Z2Nat.inj_add by lia. rewrite Nat2Z.id.
  by rewrite <- lookup_drop, E.
Qed.

