(* ===== verification/Crc.v ===== *)
(** * CRC16 of the Modbus serial line (modbus/rtu/mbcrc.c)

    The table-driven checksum [usMBCRC16], a bit-serial reference definition of
    the same polynomial (0xA001, reflected), and what the checksum is for: the
    residue of a frame with its trailer is zero, only the right trailer gives
    zero, and a corruption inside two adjacent bytes never goes unnoticed. *)

From stdpp Require Import base numbers list.
From S2P Require Import Prelude.

#[local] Open Scope Z_scope.

Definition aucCRCHi : list Z :=
  [0x00; 0xC1; 0x81; 0x40; 0x01; 0xC0; 0x80; 0x41; 0x01; 0xC0; 0x80; 0x41;
   0x00; 0xC1; 0x81; 0x40; 0x01; 0xC0; 0x80; 0x41; 0x00; 0xC1; 0x81; 0x40;
   0x00; 0xC1; 0x81; 0x40; 0x01; 0xC0; 0x80; 0x41; 0x01; 0xC0; 0x80; 0x41;
   0x00; 0xC1; 0x81; 0x40; 0x00; 0xC1; 0x81; 0x40; 0x01; 0xC0; 0x80; 0x41;
   0x00; 0xC1; 0x81; 0x40; 0x01; 0xC0; 0x80; 0x41; 0x01; 0xC0; 0x80; 0x41;
   0x00; 0xC1; 0x81; 0x40; 0x01; 0xC0; 0x80; 0x41; 0x00; 0xC1; 0x81; 0x40;
   0x00; 0xC1; 0x81; 0x40; 0x01; 0xC0; 0x80; 0x41; 0x00; 0xC1; 0x81; 0x40;
   0x01; 0xC0; 0x80; 0x41; 0x01; 0xC0; 0x80; 0x41; 0x00; 0xC1; 0x81; 0x40;
   0x00; 0xC1; 0x81; 0x40; 0x01; 0xC0; 0x80; 0x41; 0x01; 0xC0; 0x80; 0x41;
   0x00; 0xC1; 0x81; 0x40; 0x01; 0xC0; 0x80; 0x41; 0x00; 0xC1; 0x81; 0x40;
   0x00; 0xC1; 0x81; 0x40; 0x01; 0xC0; 0x80; 0x41; 0x01; 0xC0; 0x80; 0x41;
   0x00; 0xC1; 0x81; 0x40; 0x00; 0xC1; 0x81; 0x40; 0x01; 0xC0; 0x80; 0x41;
   0x00; 0xC1; 0x81; 0x40; 0x01; 0xC0; 0x80; 0x41; 0x01; 0xC0; 0x80; 0x41;
   0x00; 0xC1; 0x81; 0x40; 0x00; 0xC1; 0x81; 0x40; 0x01; 0xC0; 0x80; 0x41;
   0x01; 0xC0; 0x80; 0x41; 0x00; 0xC1; 0x81; 0x40; 0x01; 0xC0; 0x80; 0x41;
   0x00; 0xC1; 0x81; 0x40; 0x00; 0xC1; 0x81; 0x40; 0x01; 0xC0; 0x80; 0x41;
   0x00; 0xC1; 0x81; 0x40; 0x01; 0xC0; 0x80; 0x41; 0x01; 0xC0; 0x80; 0x41;
   0x00; 0xC1; 0x81; 0x40; 0x01; 0xC0; 0x80; 0x41; 0x00; 0xC1; 0x81; 0x40;
   0x00; 0xC1; 0x81; 0x40; 0x01; 0xC0; 0x80; 0x41; 0x01; 0xC0; 0x80; 0x41;
   0x00; 0xC1; 0x81; 0x40; 0x00; 0xC1; 0x81; 0x40; 0x01; 0xC0; 0x80; 0x41;
   0x00; 0xC1; 0x81; 0x40; 0x01; 0xC0; 0x80; 0x41; 0x01; 0xC0; 0x80; 0x41;
   0x00; 0xC1; 0x81; 0x40].

Definition aucCRCLo : list Z :=
  [0x00; 0xC0; 0xC1; 0x01; 0xC3; 0x03; 0x02; 0xC2; 0xC6; 0x06; 0x07; 0xC7;
   0x05; 0xC5; 0xC4; 0x04; 0xCC; 0x0C; 0x0D; 0xCD; 0x0F; 0xCF; 0xCE; 0x0E;
   0x0A; 0xCA; 0xCB; 0x0B; 0xC9; 0x09; 0x08; 0xC8; 0xD8; 0x18; 0x19; 0xD9;
   0x1B; 0xDB; 0xDA; 0x1A; 0x1E; 0xDE; 0xDF; 0x1F; 0xDD; 0x1D; 0x1C; 0xDC;
   0x14; 0xD4; 0xD5; 0x15; 0xD7; 0x17; 0x16; 0xD6; 0xD2; 0x12; 0x13; 0xD3;
   0x11; 0xD1; 0xD0; 0x10; 0xF0; 0x30; 0x31; 0xF1; 0x33; 0xF3; 0xF2; 0x32;
   0x36; 0xF6; 0xF7; 0x37; 0xF5; 0x35; 0x34; 0xF4; 0x3C; 0xFC; 0xFD; 0x3D;
   0xFF; 0x3F; 0x3E; 0xFE; 0xFA; 0x3A; 0x3B; 0xFB; 0x39; 0xF9; 0xF8; 0x38;
   0x28; 0xE8; 0xE9; 0x29; 0xEB; 0x2B; 0x2A; 0xEA; 0xEE; 0x2E; 0x2F; 0xEF;
   0x2D; 0xED; 0xEC; 0x2C; 0xE4; 0x24; 0x25; 0xE5; 0x27; 0xE7; 0xE6; 0x26;
   0x22; 0xE2; 0xE3; 0x23; 0xE1; 0x21; 0x20; 0xE0; 0xA0; 0x60; 0x61; 0xA1;
   0x63; 0xA3; 0xA2; 0x62; 0x66; 0xA6; 0xA7; 0x67; 0xA5; 0x65; 0x64; 0xA4;
   0x6C; 0xAC; 0xAD; 0x6D; 0xAF; 0x6F; 0x6E; 0xAE; 0xAA; 0x6A; 0x6B; 0xAB;
   0x69; 0xA9; 0xA8; 0x68; 0x78; 0xB8; 0xB9; 0x79; 0xBB; 0x7B; 0x7A; 0xBA;
   0xBE; 0x7E; 0x7F; 0xBF; 0x7D; 0xBD; 0xBC; 0x7C; 0xB4; 0x74; 0x75; 0xB5;
   0x77; 0xB7; 0xB6; 0x76; 0x72; 0xB2; 0xB3; 0x73; 0xB1; 0x71; 0x70; 0xB0;
   0x50; 0x90; 0x91; 0x51; 0x93; 0x53; 0x52; 0x92; 0x96; 0x56; 0x57; 0x97;
   0x55; 0x95; 0x94; 0x54; 0x9C; 0x5C; 0x5D; 0x9D; 0x5F; 0x9F; 0x9E; 0x5E;
   0x5A; 0x9A; 0x9B; 0x5B; 0x99; 0x59; 0x58; 0x98; 0x88; 0x48; 0x49; 0x89;
   0x4B; 0x8B; 0x8A; 0x4A; 0x4E; 0x8E; 0x8F; 0x4F; 0x8D; 0x4D; 0x4C; 0x8C;
   0x44; 0x84; 0x85; 0x45; 0x87; 0x47; 0x46; 0x86; 0x82; 0x42; 0x43; 0x83;
   0x41; 0x81; 0x80; 0x40].

(** One turn of [while( usLen-- )]: the new ([ucCRCHi], [ucCRCLo]). *)
Definition crc_turn (ucCRCHi ucCRCLo byte : Z) : outcome (Z * Z) :=
  let iIndex := Z.lxor ucCRCLo byte in
  h ← rd aucCRCHi iIndex;
  l ← rd aucCRCLo iIndex;
  Ok (l, u8 (Z.lxor ucCRCHi h)).

Fixpoint usMBCRC16_loop (usLen : nat) (buf : list Z) (pucFrame : Z)
    (ucCRCHi ucCRCLo : Z) : outcome (Z * Z) :=
  match usLen with
  | O => Ok (ucCRCHi, ucCRCLo)
  | S usLen =>
      byte ← rd buf pucFrame;
      '(hi, lo) ← crc_turn ucCRCHi ucCRCLo byte;
      usMBCRC16_loop usLen buf (pucFrame + 1) hi lo
  end.

(** [usMBCRC16( &buf[pucFrame], usLen )]. *)
Definition usMBCRC16 (buf : list Z) (pucFrame usLen : Z) : outcome Z :=
  '(hi, lo) ← usMBCRC16_loop (Z.to_nat usLen) buf pucFrame 0xFF 0xFF;
  Ok (u16 (Z.lor (Z.shiftl hi 8) lo)).

(** ** Reference: one bit at a time *)

Definition crc_bit (x : Z) : Z :=
  if Z.testbit x 0 then Z.lxor (Z.shiftr x 1) 0xA001 else Z.shiftr x 1.

Fixpoint crc_bits (n : nat) (x : Z) : Z :=
  match n with
  | O => x
  | S n => crc_bits n (crc_bit x)
  end.

Definition crc_byte (c b : Z) : Z := crc_bits 8 (Z.lxor c b).

Definition crc_ref (bs : list Z) : Z := foldl crc_byte 0xFFFF bs.

(** ** Linearity and injectivity of the shift register *)

Lemma crc_bit_lxor x y : crc_bit (Z.lxor x y) = Z.lxor (crc_bit x) (crc_bit y).
Proof.
  unfold crc_bit. rewrite Z.lxor_spec, Z.shiftr_lxor.
  destruct (Z.testbit x 0), (Z.testbit y 0); simpl.
  - rewrite (Z.lxor_comm (Z.shiftr y 1)), Z.lxor_assoc, <- (Z.lxor_assoc 0xA001).
    by rewrite Z.lxor_nilpotent, Z.lxor_0_l.
  - by rewrite !Z.lxor_assoc, (Z.lxor_comm (Z.shiftr y 1)).
  - by rewrite Z.lxor_assoc.
  - done.
Qed.

Lemma crc_bits_lxor n x y :
  crc_bits n (Z.lxor x y) = Z.lxor (crc_bits n x) (crc_bits n y).
Proof.
  revert x y. induction n as [|n IH]; intros x y; [done|].
  cbn [crc_bits]. by rewrite crc_bit_lxor, IH.
Qed.

Lemma crc_bits_add n m x : crc_bits (n + m) x = crc_bits m (crc_bits n x).
Proof. revert x. induction n as [|n IH]; intros x; [done|]. apply IH. Qed.

Lemma crc_bits_shiftl n x : 0 <= x -> crc_bits n (Z.shiftl x (Z.of_nat n)) = x.
Proof.
  intros Hx. induction n as [|n IH]; [done|]. cbn [crc_bits].
  unfold crc_bit at 1. rewrite Z.shiftl_spec_low by lia.
  rewrite Z.shiftr_shiftl_l by lia.
  by replace (Z.of_nat (S n) - 1) with (Z.of_nat n) by lia.
Qed.

Lemma crc_bits_shiftl_8 x : 0 <= x -> crc_bits 8 (Z.shiftl x 8) = x.
Proof. apply (crc_bits_shiftl 8). Qed.

Lemma crc_bit_range x : is_u16 x -> is_u16 (crc_bit x).
Proof.
  intros Hx. unfold crc_bit, is_u16 in *.
  assert (Hs : 0 <= Z.shiftr x 1 < 65536).
  { rewrite Z.shiftr_div_pow2 by done. change (2 ^ 1) with 2.
    split; [apply Z.div_pos; lia|]. apply Z.div_lt_upper_bound; lia. }
  destruct (Z.testbit x 0); [|done]. by apply lxor_is_u16.
Qed.

Lemma crc_bits_range n x : is_u16 x -> is_u16 (crc_bits n x).
Proof.
  revert x. induction n as [|n IH]; intros x Hx; [done|].
  by apply IH, crc_bit_range.
Qed.

#[export] Hint Resolve crc_bits_range : mach.

(** The shifted-out bit is bit 15 of the result: nothing is lost. *)
Lemma crc_bit_top x : is_u16 x -> Z.testbit (crc_bit x) 15 = Z.testbit x 0.
Proof.
  intros Hx. unfold is_u16 in Hx.
  assert (Ht : Z.testbit (Z.shiftr x 1) 15 = false).
  { rewrite Z.shiftr_spec by lia. rewrite <- (Z.mod_small x (2 ^ 16)) by done.
    by apply Z.mod_pow2_bits_high. }
  unfold crc_bit. destruct (Z.testbit x 0); [|done].
  by rewrite Z.lxor_spec, Ht.
Qed.

Lemma crc_bit_inj x y : is_u16 x -> is_u16 y -> crc_bit x = crc_bit y -> x = y.
Proof.
  intros Hx Hy E.
  assert (E0 : Z.testbit x 0 = Z.testbit y 0).
  { rewrite <- !crc_bit_top by done. by rewrite E. }
  assert (Es : Z.shiftr x 1 = Z.shiftr y 1).
  { unfold crc_bit in E. rewrite <- E0 in E. destruct (Z.testbit x 0); [|done].
    apply (f_equal (fun z => Z.lxor z 0xA001)) in E.
    by rewrite !Z.lxor_assoc, Z.lxor_nilpotent, !Z.lxor_0_r in E. }
  apply Z.bits_inj'. intros i Hi. destruct (decide (i = 0)) as [->|]; [done|].
  replace i with ((i - 1) + 1) by lia. rewrite <- !Z.shiftr_spec by lia.
  by rewrite Es.
Qed.

Lemma crc_bits_inj n x y :
  is_u16 x -> is_u16 y -> crc_bits n x = crc_bits n y -> x = y.
Proof.
  revert x y. induction n as [|n IH]; intros x y Hx Hy E; [done|].
  apply crc_bit_inj; [done..|]. apply IH; [by apply crc_bit_range..|done].
Qed.

Arguments crc_byte : simpl never.
Arguments crc_bits : simpl never.
Arguments Z.div : simpl never.
Arguments Z.modulo : simpl never.

(** ** The tables hold the effect of eight shifts *)

Definition table_entry_ok (i : Z) : bool :=
  match rd aucCRCHi i, rd aucCRCLo i with
  | Ok h, Ok l => (h =? crc_bits 8 i `mod` 256) && (l =? crc_bits 8 i `div` 256)
  | _, _ => false
  end.

Lemma tables_ok : forallb table_entry_ok (seqZ 0 256) = true.
Proof. vm_compute. reflexivity. Qed.

Lemma table_lookup i :
  is_u8 i ->
  rd aucCRCHi i = Ok (crc_bits 8 i `mod` 256) /\
  rd aucCRCLo i = Ok (crc_bits 8 i `div` 256).
Proof.
  intros Hi. pose proof tables_ok as H. rewrite forallb_forall in H.
  assert (Hin : In i (seqZ 0 256)).
  { apply list_elem_of_In, elem_of_seqZ. unfold is_u8 in Hi. lia. }
  specialize (H i Hin). unfold table_entry_ok in H.
  destruct (rd aucCRCHi i), (rd aucCRCLo i); try done.
  zify_bool. by subst.
Qed.

Lemma crc_byte_split hi lo b :
  is_u8 hi -> is_u8 lo -> is_u8 b ->
  crc_byte (hi * 256 + lo) b = Z.lxor hi (crc_bits 8 (Z.lxor lo b)).
Proof.
  intros Hhi Hlo Hb. unfold crc_byte.
  assert (E : hi * 256 + lo = Z.lxor (Z.shiftl hi 8) lo).
  { rewrite <- shiftl_8. apply Z.add_nocarry_lxor.
    by apply (land_shiftl_disjoint hi lo 8). }
  rewrite E, Z.lxor_assoc, crc_bits_lxor.
  rewrite crc_bits_shiftl_8 by (unfold is_u8 in Hhi; lia). done.
Qed.

Lemma crc_turn_spec hi lo b :
  is_u8 hi -> is_u8 lo -> is_u8 b ->
  crc_turn hi lo b =
    Ok (crc_byte (hi * 256 + lo) b `div` 256, crc_byte (hi * 256 + lo) b `mod` 256).
Proof.
  intros Hhi Hlo Hb. rewrite crc_byte_split by done. unfold crc_turn.
  destruct (table_lookup (Z.lxor lo b)) as [-> ->]; [by apply lxor_is_u8|].
  generalize (crc_bits 8 (Z.lxor lo b)) as t. intros t. simpl.
  unfold u8. f_equal. f_equal.
  - rewrite <- !shiftr_8, Z.shiftr_lxor, (shiftr_8 hi).
    rewrite (Z.div_small hi) by done. by rewrite Z.lxor_0_l.
  - rewrite <- !land_255. apply Z.bits_inj'. intros i Hi.
    rewrite !Z.land_spec, !Z.lxor_spec, !Z.land_spec.
    by destruct (Z.testbit hi i), (Z.testbit t i), (Z.testbit 255 i).
Qed.

Lemma crc_byte_range c b : is_u16 c -> is_u8 b -> is_u16 (crc_byte c b).
Proof. intros. unfold crc_byte. auto with mach. Qed.

Lemma crc_fold_range bs c :
  is_u16 c -> bytes_ok bs -> is_u16 (foldl crc_byte c bs).
Proof.
  intros Hc Hbs. revert c Hc.
  induction Hbs as [|b bs Hb Hbs IH]; intros c Hc; [done|].
  simpl. by apply IH, crc_byte_range.
Qed.

Lemma usMBCRC16_loop_spec n buf p c :
  bytes_ok buf -> is_u16 c -> 0 <= p -> p + Z.of_nat n <= Zlen buf ->
  let c' := foldl crc_byte c (slice buf p (Z.of_nat n)) in
  usMBCRC16_loop n buf p (c `div` 256) (c `mod` 256) = Ok (c' `div` 256, c' `mod` 256).
Proof.
  intros Hbuf. revert p c. induction n as [|n IH]; intros p c Hc Hp Hlen c'.
  { subst c'. by rewrite slice_0 by lia. }
  subst c'. destruct (rd_in_range buf p) as [b Hb]; [lia|].
  rewrite (slice_cons _ _ _ _ Hb) by lia.
  replace (Z.of_nat (S n) - 1) with (Z.of_nat n) by lia.
  cbn [usMBCRC16_loop foldl]. rewrite Hb, bind_Ok_l.
  assert (is_u8 b) by (eauto with arr).
  destruct (hi_lo_of_u16 c Hc) as (? & ? & Ec).
  rewrite crc_turn_spec by done. rewrite Ec, bind_Ok_l.
  rewrite IH; [done | by apply crc_byte_range | lia..].
Qed.

Lemma usMBCRC16_ref buf p n :
  bytes_ok buf -> 0 <= p -> 0 <= n -> p + n <= Zlen buf ->
  usMBCRC16 buf p n = Ok (crc_ref (slice buf p n)).
Proof.
  intros Hbuf Hp Hn Hlen. unfold usMBCRC16.
  change (usMBCRC16_loop (Z.to_nat n) buf p 255 255)
    with (usMBCRC16_loop (Z.to_nat n) buf p (65535 `div` 256) (65535 `mod` 256)).
  rewrite usMBCRC16_loop_spec by (done || lia). rewrite Z2Nat.id by done. simpl.
  fold (crc_ref (slice buf p n)).
  assert (Hc : is_u16 (crc_ref (slice buf p n))).
  { apply crc_fold_range; [done | by apply Forall_slice]. }
  destruct (hi_lo_of_u16 _ Hc) as (? & ? & Ec).
  rewrite (lor_shiftl_add _ _ 8) by done. change (2 ^ 8) with 256.
  by rewrite Ec, u16_small.
Qed.

(** ** Two bytes are one 16-bit word *)

Lemma crc_two_bytes c b1 b2 :
  0 <= b2 ->
  crc_byte (crc_byte c b1) b2 = crc_bits 16 (Z.lxor c (Z.lxor b1 (Z.shiftl b2 8))).
Proof.
  intros Hb2. unfold crc_byte. rewrite <- Z.lxor_assoc.
  rewrite (crc_bits_add 8 8). rewrite (crc_bits_lxor 8 _ (Z.shiftl b2 8)).
  by rewrite crc_bits_shiftl_8.
Qed.

Lemma word_of_bytes b1 b2 :
  is_u8 b1 -> is_u8 b2 ->
  Z.lxor b1 (Z.shiftl b2 8) = b2 * 256 + b1 /\ is_u16 (b2 * 256 + b1).
Proof.
  intros H1 H2. split; [|unfold is_u8, is_u16 in *; lia].
  rewrite Z.lxor_comm, <- shiftl_8. symmetry. apply Z.add_nocarry_lxor.
  by apply (land_shiftl_disjoint b2 b1 8).
Qed.

Lemma crc_ref_app2 bs b1 b2 :
  is_u8 b1 -> is_u8 b2 ->
  crc_ref (bs ++ [b1; b2]) = crc_bits 16 (Z.lxor (crc_ref bs) (b2 * 256 + b1)).
Proof.
  intros H1 H2. unfold crc_ref. rewrite foldl_app. simpl.
  rewrite crc_two_bytes by (unfold is_u8 in H2; lia).
  by rewrite (proj1 (word_of_bytes b1 b2 H1 H2)).
Qed.

(** The checksum over a frame and a two-byte trailer is zero exactly for the
    trailer that holds the frame's checksum, low byte first. *)
Lemma crc_ref_trailer bs b1 b2 :
  bytes_ok bs -> is_u8 b1 -> is_u8 b2 ->
  crc_ref (bs ++ [b1; b2]) = 0 <->
    b1 = crc_ref bs `mod` 256 /\ b2 = crc_ref bs `div` 256.
Proof.
  intros Hbs H1 H2. rewrite crc_ref_app2 by done.
  assert (Hc : is_u16 (crc_ref bs)) by (by apply crc_fold_range).
  pose proof (word_of_bytes b1 b2 H1 H2) as [_ Hw].
  destruct (hi_lo_of_u16 _ Hc) as (Hh & Hl & Ec). split.
  - change 0 with (crc_bits 16 0) at 1. intros E.
    apply crc_bits_inj in E; [|by apply lxor_is_u16 | done].
    apply Z.lxor_eq in E. rewrite E. unfold is_u8 in *.
    rewrite Z.div_add_l by lia. rewrite Z.div_small by lia.
    rewrite Z.add_comm, Z_mod_plus_full, Z.mod_small by lia. lia.
  - intros [-> ->]. rewrite Ec. by rewrite Z.lxor_nilpotent.
Qed.

Lemma crc_fold_inj bs c c' :
  bytes_ok bs -> is_u16 c -> is_u16 c' ->
  foldl crc_byte c bs = foldl crc_byte c' bs -> c = c'.
Proof.
  intros Hbs. revert c c'. induction Hbs as [|b bs Hb Hbs IH]; intros c c' Hc Hc' E; [done|].
  simpl in E. apply IH in E; [|by apply crc_byte_range..].
  unfold crc_byte in E. apply crc_bits_inj in E; [|auto with mach..].
  apply (f_equal (fun z => Z.lxor z b)) in E.
  by rewrite !Z.lxor_assoc, Z.lxor_nilpotent, !Z.lxor_0_r in E.
Qed.

Lemma crc_ref_burst l r a b a' b' :
  bytes_ok l -> bytes_ok r -> is_u8 a -> is_u8 b -> is_u8 a' -> is_u8 b' ->
  crc_ref (l ++ [a; b] ++ r) = crc_ref (l ++ [a'; b'] ++ r) -> a = a' /\ b = b'.
Proof.
  intros Hl Hr Ha Hb Ha' Hb' E. unfold crc_ref in E.
  rewrite !(foldl_app _ l) in E. fold (crc_ref l) in E.
  assert (Hc : is_u16 (crc_ref l)) by (by apply crc_fold_range).
  simpl in E. apply crc_fold_inj in E; [|done|by repeat apply crc_byte_range..].
  rewrite !crc_two_bytes in E by (unfold is_u8 in *; lia).
  destruct (word_of_bytes a b) as [Ew Hw], (word_of_bytes a' b') as [Ew' Hw']; try done.
  rewrite Ew, Ew' in E.
  apply crc_bits_inj in E; [|by apply lxor_is_u16..].
  apply (f_equal (Z.lxor (crc_ref l))) in E.
  rewrite <- !Z.lxor_assoc, Z.lxor_nilpotent, !Z.lxor_0_l in E.
  unfold is_u8 in *. lia.
Qed.

(** ** Properties *)

(** C35: on any in-range part of a byte buffer the table-driven [usMBCRC16]
    returns (it never indexes a table or the buffer out of range) and its result
    is the bit-serial CRC with polynomial 0xA001 started at 0xFFFF. *)
Theorem usMBCRC16_is_bit_serial buf p n :
  bytes_ok buf -> 0 <= p -> 0 <= n -> p + n <= Zlen buf ->
  usMBCRC16 buf p n = Ok (crc_ref (slice buf p n)).
Proof. apply usMBCRC16_ref. Qed.

Lemma usMBCRC16_is_bit_serial_witness :
  usMBCRC16 [1; 3; 0; 0; 0; 2; 196; 11] 0 6 = Ok 3012.
Proof.
  rewrite usMBCRC16_is_bit_serial.
  - vm_compute. reflexivity.
  - by_compute.
  - lia.
  - lia.
  - vm_compute. discriminate.
Defined.

(** the receiver's check "CRC over the whole frame is zero" holds exactly
    when the last two bytes are the low and the high byte of the checksum of the
    bytes before them. *)
Lemma usMBCRC16_zero_iff_trailer bs lo hi :
  bytes_ok bs -> is_u8 lo -> is_u8 hi ->
  usMBCRC16 (bs ++ [lo; hi]) 0 (Zlen bs + 2) = Ok 0 <->
  exists crc, usMBCRC16 bs 0 (Zlen bs) = Ok crc /\
              lo = u8 (Z.land crc 0xFF) /\ hi = u8 (Z.shiftr crc 8).
Proof.
  intros Hbs Hlo Hhi. pose proof (Zlen_nonneg bs).
  assert (Hall : bytes_ok (bs ++ [lo; hi])).
  { auto with arr. }
  rewrite !usMBCRC16_ref by (done || (unfold Zlen; rewrite ?length_app; simpl; lia)).
  rewrite !slice_all by (unfold Zlen; rewrite ?length_app; simpl; lia).
  assert (Hc : is_u16 (crc_ref bs)) by (by apply crc_fold_range).
  destruct (hi_lo_of_u16 _ Hc) as (Hh & Hl & _).
  split.
  - intros [= E]. apply crc_ref_trailer in E as [-> ->]; [|done..].
    exists (crc_ref bs). rewrite land_255, shiftr_8, !u8_small by done. done.
  - intros (crc & [= <-] & -> & ->). rewrite land_255, shiftr_8, !u8_small by done.
    f_equal. by apply crc_ref_trailer.
Qed.

Lemma usMBCRC16_zero_iff_trailer_witness :
  usMBCRC16 ([1; 3; 0; 0; 0; 2] ++ [196; 11]) 0 (Zlen [1; 3; 0; 0; 0; 2] + 2) = Ok 0.
Proof.
  apply usMBCRC16_zero_iff_trailer.
  - by_compute.
  - by_compute.
  - by_compute.
  - exists 3012. vm_compute. repeat split.
Defined.

(** two frames that differ only inside two adjacent bytes have different
    checksums, whatever precedes and follows: such a corruption of a frame with a
    valid checksum is always detected. *)
Lemma usMBCRC16_detects_burst l r a b a' b' :
  bytes_ok l -> bytes_ok r -> is_u8 a -> is_u8 b -> is_u8 a' -> is_u8 b' ->
  (a, b) <> (a', b') ->
  usMBCRC16 (l ++ [a; b] ++ r) 0 (Zlen (l ++ [a; b] ++ r)) <>
  usMBCRC16 (l ++ [a'; b'] ++ r) 0 (Zlen (l ++ [a'; b'] ++ r)).
Proof.
  intros Hl Hr Ha Hb Ha' Hb' Hne.
  assert (forall x y, is_u8 x -> is_u8 y -> bytes_ok (l ++ [x; y] ++ r)).
  { auto with arr. }
  rewrite !usMBCRC16_ref by (auto || apply Zlen_nonneg || lia).
  rewrite !slice_all by lia. intros [= E].
  apply Hne. by apply crc_ref_burst in E as [-> ->].
Qed.

Lemma usMBCRC16_detects_burst_witness :
  usMBCRC16 ([1; 3] ++ [0; 0] ++ [7]) 0 (Zlen ([1; 3] ++ [0; 0] ++ [7])) <>
  usMBCRC16 ([1; 3] ++ [0; 9] ++ [7]) 0 (Zlen ([1; 3] ++ [0; 9] ++ [7])).
Proof.
  apply usMBCRC16_detects_burst; [by_compute.. | discriminate].
Defined.
