(* ===== verification/MbDefs.v ===== *)
(** * FreeModbus: enumerations, constants and status mapping

    The types of modbus/include/mb.h, mbproto.h, mbport.h, the PDU layout of
    mbframe.h, the configuration of mbconfig.h, and [prveMBError2Exception] of
    modbus/functions/mbutils.c. *)

From stdpp Require Import base numbers list.
From S2P Require Import Prelude.

#[local] Open Scope Z_scope.

(** ** mb.h *)

Inductive eMBMode := MB_RTU | MB_ASCII | MB_TCP.

Inductive eMBRegisterMode := MB_REG_READ | MB_REG_WRITE.

Inductive eMBErrorCode :=
| MB_ENOERR
| MB_ENOREG
| MB_EINVAL
| MB_EPORTERR
| MB_ENORES
| MB_EIO
| MB_EILLSTATE
| MB_ETIMEDOUT.

#[global] Instance eMBMode_eq_dec : EqDecision eMBMode.
Proof. solve_decision. Defined.
#[global] Instance eMBErrorCode_eq_dec : EqDecision eMBErrorCode.
Proof. solve_decision. Defined.

(** ** mbproto.h *)

Inductive eMBException :=
| MB_EX_NONE
| MB_EX_ILLEGAL_FUNCTION
| MB_EX_ILLEGAL_DATA_ADDRESS
| MB_EX_ILLEGAL_DATA_VALUE
| MB_EX_SLAVE_DEVICE_FAILURE
| MB_EX_ACKNOWLEDGE
| MB_EX_SLAVE_BUSY
| MB_EX_MEMORY_PARITY_ERROR
| MB_EX_GATEWAY_PATH_FAILED
| MB_EX_GATEWAY_TGT_FAILED.

#[global] Instance eMBException_eq_dec : EqDecision eMBException.
Proof. solve_decision. Defined.

(** The enumerators' values: what is sent in an exception response. *)
Definition eMBException_value (e : eMBException) : Z :=
  match e with
  | MB_EX_NONE => 0x00
  | MB_EX_ILLEGAL_FUNCTION => 0x01
  | MB_EX_ILLEGAL_DATA_ADDRESS => 0x02
  | MB_EX_ILLEGAL_DATA_VALUE => 0x03
  | MB_EX_SLAVE_DEVICE_FAILURE => 0x04
  | MB_EX_ACKNOWLEDGE => 0x05
  | MB_EX_SLAVE_BUSY => 0x06
  | MB_EX_MEMORY_PARITY_ERROR => 0x08
  | MB_EX_GATEWAY_PATH_FAILED => 0x0A
  | MB_EX_GATEWAY_TGT_FAILED => 0x0B
  end.

Definition MB_ADDRESS_BROADCAST : Z := 0.
Definition MB_ADDRESS_MIN : Z := 1.
Definition MB_ADDRESS_MAX : Z := 247.

Definition MB_FUNC_READ_COILS : Z := 1.
Definition MB_FUNC_READ_DISCRETE_INPUTS : Z := 2.
Definition MB_FUNC_WRITE_SINGLE_COIL : Z := 5.
Definition MB_FUNC_WRITE_MULTIPLE_COILS : Z := 15.
Definition MB_FUNC_READ_HOLDING_REGISTER : Z := 3.
Definition MB_FUNC_READ_INPUT_REGISTER : Z := 4.
Definition MB_FUNC_WRITE_REGISTER : Z := 6.
Definition MB_FUNC_WRITE_MULTIPLE_REGISTERS : Z := 16.
Definition MB_FUNC_READWRITE_MULTIPLE_REGISTERS : Z := 23.
Definition MB_FUNC_OTHER_REPORT_SLAVEID : Z := 17.
Definition MB_FUNC_ERROR : Z := 128.

(** ** mbport.h *)

Inductive eMBEventType :=
| EV_READY
| EV_FRAME_RECEIVED
| EV_EXECUTE
| EV_FRAME_SENT.

#[global] Instance eMBEventType_eq_dec : EqDecision eMBEventType.
Proof. solve_decision. Defined.

Inductive eMBParity := MB_PAR_NONE | MB_PAR_ODD | MB_PAR_EVEN.

(** ** mbframe.h and mbconfig.h *)

Definition MB_PDU_SIZE_MAX : Z := 253.
Definition MB_PDU_SIZE_MIN : Z := 1.
Definition MB_PDU_FUNC_OFF : Z := 0.
Definition MB_PDU_DATA_OFF : Z := 1.

Definition MB_FUNC_HANDLERS_MAX : Z := 16.
Definition MB_FUNC_OTHER_REP_SLAVEID_BUF : Z := 32.

(** ** mbutils.c: prveMBError2Exception *)

Definition prveMBError2Exception (eErrorCode : eMBErrorCode) : eMBException :=
  match eErrorCode with
  | MB_ENOERR => MB_EX_NONE
  | MB_ENOREG => MB_EX_ILLEGAL_DATA_ADDRESS
  | MB_ETIMEDOUT => MB_EX_SLAVE_BUSY
  | _ => MB_EX_SLAVE_DEVICE_FAILURE
  end.

Lemma error2exception_none e : prveMBError2Exception e = MB_EX_NONE <-> e = MB_ENOERR.
Proof. by destruct e. Qed.

Lemma eMBException_value_range e : is_u8 (eMBException_value e).
Proof. by destruct e. Qed.

#[export] Hint Resolve eMBException_value_range : mach.
