(* ===== verification/MbUtils.v ===== *)
(** * FreeModbus: bit fields in a byte array (modbus/functions/mbutils.c)

    [xMBUtilSetBits] and [xMBUtilGetBits] with the C conversions of every
    statement, the abstract view of the array as a sequence of bits, and the
    proof that the two functions write and read exactly one field of it. *)

From stdpp Require Import base numbers list.
From S2P Require Import Prelude MbDefs.

#[local] Open Scope Z_scope.

Definition BITS_UCHAR : Z := 8.

(** The two bytes that hold the field, as one word. *)
Definition rd_word (ucByteBuf : list Z) (usByteOffset : Z) : outcome Z :=
  b0 ← rd ucByteBuf usByteOffset;
  b1 ← rd ucByteBuf (usByteOffset + 1);
  Ok (u16 (Z.lor b0 (Z.shiftl b1 BITS_UCHAR))).

Definition xMBUtilSetBits (ucByteBuf : list Z) (usBitOffset ucNBits ucValue : Z)
    : outcome (list Z) :=
  let usValue := ucValue in
  _ ← assert_ (ucNBits <=? 8);
  let usByteOffset := u16 (usBitOffset `div` BITS_UCHAR) in
  let usNPreBits := u16 (usBitOffset - usByteOffset * BITS_UCHAR) in
  let usValue := u16 (Z.shiftl usValue usNPreBits) in
  let usMask := u16 (Z.shiftl 1 ucNBits - 1) in
  let usMask := u16 (Z.shiftl usMask (usBitOffset - usByteOffset * BITS_UCHAR)) in
  usWordBuf ← rd_word ucByteBuf usByteOffset;
  let usWordBuf := u16 (Z.lor (Z.land usWordBuf (Z.lnot usMask)) usValue) in
  ucByteBuf ← wr ucByteBuf usByteOffset (u8 (Z.land usWordBuf 0xFF));
  wr ucByteBuf (usByteOffset + 1) (u8 (Z.shiftr usWordBuf BITS_UCHAR)).

Definition xMBUtilGetBits (ucByteBuf : list Z) (usBitOffset ucNBits : Z) : outcome Z :=
  let usByteOffset := u16 (usBitOffset `div` BITS_UCHAR) in
  let usNPreBits := u16 (usBitOffset - usByteOffset * BITS_UCHAR) in
  let usMask := u16 (Z.shiftl 1 ucNBits - 1) in
  usWordBuf ← rd_word ucByteBuf usByteOffset;
  let usWordBuf := Z.shiftr usWordBuf usNPreBits in
  let usWordBuf := Z.land usWordBuf usMask in
  Ok (u8 usWordBuf).

(** ** The array as a sequence of bits *)

(** Bit [k] of the array, [k / 8] selecting the byte and [k mod 8] the bit. *)
Definition bit_at (b : list Z) (k : Z) : option bool :=
  x ← b !! Z.to_nat (k `div` 8);
  Some (Z.testbit x (k `mod` 8)).

(** The word update of [xMBUtilSetBits], bit by bit. *)
Definition field_mask (pre n : Z) : Z := Z.shiftl (Z.ones n) pre.

Definition set_field (w pre n v : Z) : Z :=
  Z.lor (Z.land w (Z.lnot (field_mask pre n))) (Z.shiftl v pre).

Lemma field_mask_spec pre n i :
  0 <= pre -> 0 <= n -> 0 <= i ->
  Z.testbit (field_mask pre n) i = bool_decide (pre <= i < pre + n).
Proof.
  intros Hpre Hn Hi. unfold field_mask. rewrite Z.shiftl_spec by done.
  destruct (decide (i < pre)).
  - rewrite Z.testbit_neg_r by lia. symmetry. apply bool_decide_false. lia.
  - rewrite Z.testbit_ones_nonneg by lia.
    zify_bool; [apply Z.ltb_lt | apply Z.ltb_ge]; lia.
Qed.

Lemma set_field_spec w pre n v i :
  0 <= pre -> 0 <= n -> 0 <= v < 2 ^ n -> 0 <= i ->
  Z.testbit (set_field w pre n v) i =
    if bool_decide (pre <= i < pre + n) then Z.testbit v (i - pre) else Z.testbit w i.
Proof.
  intros Hpre Hn Hv Hi. unfold set_field.
  rewrite Z.lor_spec, Z.land_spec, Z.lnot_spec, field_mask_spec, Z.shiftl_spec by done.
  zify_bool; simpl.
  - by rewrite andb_false_r.
  - rewrite andb_true_r. destruct (decide (i < pre)).
    + by rewrite (Z.testbit_neg_r v), orb_false_r by lia.
    + by rewrite (testbit_high v n), orb_false_r by lia.
Qed.

Lemma set_field_range w pre n v :
  0 <= pre -> 0 <= n -> pre + n <= 16 -> 0 <= v < 2 ^ n -> is_u16 w ->
  is_u16 (set_field w pre n v).
Proof.
  intros Hpre Hn Hpn Hv Hw. apply (bound_of_bits _ 16); [done|]. intros i Hi.
  rewrite set_field_spec by lia. rewrite bool_decide_false by lia.
  by apply (testbit_high w 16).
Qed.

Lemma mask_word n : 0 <= n <= 8 -> u16 (Z.shiftl 1 n - 1) = Z.ones n.
Proof.
  intros Hn. rewrite Z.shiftl_1_l. unfold Z.ones. rewrite Z.shiftl_1_l.
  assert (2 ^ n <= 2 ^ 8) by (apply Z.pow_le_mono_r; lia).
  assert (0 < 2 ^ n) by lia. apply u16_small. unfold is_u16.
  change (2 ^ 8) with 256 in *. lia.
Qed.

(** ** Execution of the two functions on a field inside the array *)

Section Fields.
Variables (buf : list Z) (off n : Z).
Hypothesis Hbuf : bytes_ok buf.
Hypothesis Hoff : is_u16 off.
Hypothesis Hn : 0 <= n <= 8.
Hypothesis Hfit : off `div` 8 + 1 < Zlen buf.

Let o := off `div` 8.
Let pre := off `mod` 8.

Lemma field_offsets :
  0 <= o < 8192 /\ 0 <= pre < 8 /\ off = o * 8 + pre /\
  u16 (off `div` BITS_UCHAR) = o /\ off - o * BITS_UCHAR = pre /\
  u16 pre = pre.
Proof.
  subst o pre. unfold is_u16 in Hoff. unfold BITS_UCHAR, u16.
  pose proof (Z.div_mod off 8 ltac:(lia)). pose proof (Z.mod_pos_bound off 8 ltac:(lia)).
  rewrite !(Z.mod_small _ 65536) by lia. lia.
Qed.

Lemma rd_word_spec :
  exists b0 b1, rd buf o = Ok b0 /\ rd buf (o + 1) = Ok b1 /\ is_u8 b0 /\ is_u8 b1 /\
                rd_word buf o = Ok (b1 * 256 + b0).
Proof.
  pose proof field_offsets as (? & _).
  destruct (rd_in_range buf o) as [b0 H0]; [lia|].
  destruct (rd_in_range buf (o + 1)) as [b1 H1]; [lia|].
  assert (is_u8 b0 /\ is_u8 b1) as [Hb0 Hb1] by (split; eauto with arr).
  exists b0, b1. do 4 (split; [done|]).
  unfold rd_word, BITS_UCHAR. rewrite H0, H1, !bind_Ok_l.
  rewrite Z.lor_comm, (lor_shiftl_add b1 b0 8) by done.
  rewrite u16_small; [done|]. unfold is_u8, is_u16 in *. lia.
Qed.

(** Bit [8 * o + i] of the array is bit [i] of the word. *)
Lemma bit_at_word b' w k :
  0 <= w < 65536 ->
  rd b' o = Ok (w `mod` 256) -> rd b' (o + 1) = Ok (w `div` 256) ->
  o * 8 <= k < o * 8 + 16 ->
  bit_at b' k = Some (Z.testbit w (k - o * 8)).
Proof.
  intros Hw H0 H1 Hk. rewrite rd_Ok_iff in H0, H1. destruct H0 as [_ H0], H1 as [_ H1].
  pose proof (Z.div_mod k 8 ltac:(lia)). pose proof (Z.mod_pos_bound k 8 ltac:(lia)).
  unfold bit_at. assert (k `div` 8 = o \/ k `div` 8 = o + 1) as [E|E] by lia; rewrite E.
  - rewrite H0. simpl. change 256 with (2 ^ 8).
    rewrite Z.mod_pow2_bits_low by lia. repeat f_equal. lia.
  - rewrite H1. simpl. rewrite <- shiftr_8, Z.shiftr_spec by lia. repeat f_equal. lia.
Qed.

Lemma set_bits_exec v :
  0 <= v < 2 ^ n ->
  exists w w', rd_word buf o = Ok w /\ is_u16 w /\ w' = set_field w pre n v /\ is_u16 w' /\
    rd buf o = Ok (w `mod` 256) /\ rd buf (o + 1) = Ok (w `div` 256) /\
    xMBUtilSetBits buf off n v =
      Ok (<[Z.to_nat (o + 1) := w' `div` 256]> (<[Z.to_nat o := w' `mod` 256]> buf)).
Proof.
  intros Hv. destruct rd_word_spec as (b0 & b1 & H0 & H1 & Hb0 & Hb1 & Hw).
  destruct field_offsets as (Ho & Hpre & Eoff & E1 & E2 & E3).
  assert (Hw16 : is_u16 (b1 * 256 + b0)) by (unfold is_u8, is_u16 in *; lia).
  pose proof (set_field_range _ pre n v ltac:(lia) ltac:(lia) ltac:(lia) Hv Hw16) as Hw'.
  exists (b1 * 256 + b0), (set_field (b1 * 256 + b0) pre n v).
  do 4 (split; [done|]).
  split. { rewrite H0. f_equal. symmetry. by apply be16_div_mod. }
  split. { rewrite H1. f_equal. symmetry. by apply be16_div_mod. }
  unfold xMBUtilSetBits. rewrite E1, E2, E3, mask_word by done.
  unfold assert_. rewrite (proj2 (Z.leb_le n 8)) by lia.
  rewrite !bind_Ok_l, Hw, bind_Ok_l.
  assert (Hv16 : is_u16 (Z.shiftl v pre)).
  { apply (bound_of_bits _ 16); [done|]. intros i Hi. rewrite Z.shiftl_spec by lia.
    apply (testbit_high v n); lia. }
  assert (Hm16 : is_u16 (Z.shiftl (Z.ones n) pre)).
  { apply (bound_of_bits _ 16); [done|]. intros i Hi. fold (field_mask pre n).
    rewrite field_mask_spec by lia. apply bool_decide_false. lia. }
  rewrite (u16_small _ Hv16), (u16_small _ Hm16).
  fold (field_mask pre n). fold (set_field (b1 * 256 + b0) pre n v).
  rewrite (u16_small _ Hw'). revert Hw'. generalize (set_field (b1 * 256 + b0) pre n v).
  intros w' Hw'. rewrite land_255. unfold BITS_UCHAR. rewrite shiftr_8.
  assert (u8 (w' `mod` 256) = w' `mod` 256 /\ u8 (w' `div` 256) = w' `div` 256) as [-> ->].
  { unfold is_u16 in Hw'. split; apply u8_small; unfold is_u8.
    - by apply Z.mod_pos_bound.
    - split; [apply Z.div_pos; lia | apply Z.div_lt_upper_bound; lia]. }
  subst o. rewrite wr_in_range, bind_Ok_l, wr_in_range; [done | rewrite Zlen_insert; lia | lia].
Qed.
End Fields.

Lemma get_bits_exec buf off n :
  bytes_ok buf -> is_u16 off -> 0 <= n <= 8 -> off `div` 8 + 1 < Zlen buf ->
  exists r, xMBUtilGetBits buf off n = Ok r /\ 0 <= r < 2 ^ n /\
    forall i, 0 <= i < n -> bit_at buf (off + i) = Some (Z.testbit r i).
Proof.
  intros Hbuf Hoff Hn Hfit.
  destruct (rd_word_spec buf off Hbuf Hoff Hfit) as (b0 & b1 & H0 & H1 & Hb0 & Hb1 & Hw).
  destruct (field_offsets off Hoff) as (Ho & Hpre & Eoff & E1 & E2 & E3).
  set (w := b1 * 256 + b0) in *. set (pre := off `mod` 8) in *. set (o := off `div` 8) in *.
  assert (Hr : 0 <= Z.land (Z.shiftr w pre) (Z.ones n) < 2 ^ n).
  { rewrite Z.land_ones by lia. apply Z.mod_pos_bound. lia. }
  assert (2 ^ n <= 2 ^ 8) by (apply Z.pow_le_mono_r; lia).
  exists (Z.land (Z.shiftr w pre) (Z.ones n)). split; [|split]; [|done|].
  - unfold xMBUtilGetBits. rewrite E1, E2, E3, (mask_word n Hn), Hw, bind_Ok_l.
    rewrite u8_small; [done|]. unfold is_u8. change (2 ^ 8) with 256 in *. lia.
  - intros i Hi.
    rewrite (bit_at_word off buf w).
    + rewrite Z.land_spec, Z.ones_spec_low, andb_true_r, Z.shiftr_spec by lia.
      do 2 f_equal. fold o. lia.
    + subst w. unfold is_u8 in *. lia.
    + fold o. rewrite H0. f_equal. subst w. symmetry. by apply be16_div_mod.
    + fold o. rewrite H1. f_equal. subst w. symmetry. by apply be16_div_mod.
    + fold o. lia.
Qed.

(** ** Properties *)

(** setting a field of up to eight bits that fits in the array returns (no
    assertion, no access out of range), keeps the array's length, changes exactly
    the bits of the field to the bits of the value, and reading the field back
    with [xMBUtilGetBits] gives the value. *)
Lemma xMBUtilSetBits_writes_field buf off n v :
  bytes_ok buf -> is_u16 off -> 0 <= n <= 8 -> 0 <= v < 2 ^ n ->
  off `div` 8 + 1 < Zlen buf ->
  exists buf',
    xMBUtilSetBits buf off n v = Ok buf' /\ bytes_ok buf' /\ Zlen buf' = Zlen buf /\
    (forall k, 0 <= k ->
       bit_at buf' k =
         if bool_decide (off <= k < off + n) then Some (Z.testbit v (k - off))
         else bit_at buf k) /\
    xMBUtilGetBits buf' off n = Ok v.
Proof.
  intros Hbuf Hoff Hn Hv Hfit.
  destruct (set_bits_exec buf off n Hbuf Hoff Hn Hfit v Hv)
    as (w & w' & Hrw & Hw & Ew' & Hw' & H0 & H1 & Hset).
  destruct (field_offsets off Hoff) as (Ho & Hpre & Eoff & _).
  set (o := off `div` 8) in *. set (pre := off `mod` 8) in *.
  eexists. split; [exact Hset|].
  destruct (hi_lo_of_u16 w' Hw') as (Hhi & Hlo & _).
  assert (Hbytes : bytes_ok (<[Z.to_nat (o + 1):=w' `div` 256]>
                               (<[Z.to_nat o:=w' `mod` 256]> buf))).
  { by repeat apply Forall_insert. }
  split; [done|]. split; [by rewrite !Zlen_insert|].
  match goal with |- context [xMBUtilGetBits ?b _ _] => set (buf' := b) in * end.
  assert (Hlen : Zlen buf' = Zlen buf) by (subst buf'; by rewrite !Zlen_insert).
  assert (R1 : rd buf' (o + 1) = Ok (w' `div` 256)).
  { subst buf'. apply rd_insert_eq. rewrite Zlen_insert. lia. }
  assert (R0 : rd buf' o = Ok (w' `mod` 256)).
  { subst buf'. rewrite rd_insert_ne by lia. apply rd_insert_eq. lia. }
  assert (Hbits : forall k, 0 <= k ->
       bit_at buf' k = if bool_decide (off <= k < off + n)
                       then Some (Z.testbit v (k - off)) else bit_at buf k).
  { intros k Hk. destruct (decide (o * 8 <= k < o * 8 + 16)) as [Hin|Hout].
    - rewrite (bit_at_word off buf' w'), (bit_at_word off buf w) by done.
      subst w'. fold o. rewrite set_field_spec by lia.
      zify_bool; try lia; [|done]. do 2 f_equal. lia.
    - rewrite bool_decide_false by lia. unfold bit_at. subst buf'.
      pose proof (Z.div_mod k 8 ltac:(lia)). pose proof (Z.mod_pos_bound k 8 ltac:(lia)).
      rewrite !list_lookup_insert_ne by lia. done. }
  split; [exact Hbits|].
  destruct (get_bits_exec buf' off n) as (r & Hget & Hr & Hrbits); try done.
  { rewrite Hlen. done. }
  rewrite Hget. f_equal. apply Z.bits_inj'. intros i Hi.
  destruct (decide (i < n)).
  - specialize (Hrbits i ltac:(lia)). rewrite Hbits in Hrbits by (unfold is_u16 in Hoff; lia).
    rewrite bool_decide_true in Hrbits by lia. injection Hrbits as <-. f_equal. lia.
  - by rewrite (testbit_high r n), (testbit_high v n) by lia.
Qed.

Lemma xMBUtilSetBits_writes_field_witness :
  exists buf', xMBUtilSetBits [0xFF; 0; 0xFF] 5 6 0x2A = Ok buf' /\
               xMBUtilGetBits buf' 5 6 = Ok 0x2A.
Proof.
  destruct (xMBUtilSetBits_writes_field [0xFF; 0; 0xFF] 5 6 0x2A)
    as (buf' & Hset & _ & _ & _ & Hget);
    [by_compute | by_compute | lia | lia | by_compute |].
  exists buf'. split; [exact Hset | exact Hget].
Defined.

(** The example of mbutils.h, [UCHAR ucBits[2]] and a field at bit offset 8,
    reads and writes [ucBits[2]]: the array must be one byte longer. *)
Lemma header_example_overruns : xMBUtilSetBits [0; 0] 8 8 0x5A = Fault OutOfBounds.
Proof. vm_compute. reflexivity. Qed.

(** With room for it, the low nibble 0xA of the value goes to bits 8 - 11. *)
Lemma header_example_nibbles : xMBUtilSetBits [0; 0; 0] 8 8 0x5A = Ok [0; 0x5A; 0] /\ xMBUtilGetBits [0; 0x5A; 0] 8 4 = Ok 0xA.
Proof. split; vm_compute; reflexivity. Qed.
