(* ===== verification/MbFunc.v ===== *)
(** * FreeModbus: the function-code handlers (modbus/functions/)

    The register callbacks of the application as a class [RegCB] (mb.h declares
    them, demo.c implements them), the ten handlers that decode a request PDU in
    place, call them and build the response in the same buffer, and what every
    handler guarantees to the protocol stack. *)

From stdpp Require Import base numbers list.
From S2P Require Import Prelude MbDefs.

#[local] Open Scope Z_scope.

(** ** The register callbacks (mb.h)

    A callback gets the frame buffer and the offset [pucRegBuffer] it may read
    from or write to, and returns the new registers, the buffer and a status. *)

Class RegCB (R : Type) := {
  eMBRegInputCB : R -> list Z -> Z -> Z -> Z -> outcome (R * list Z * eMBErrorCode);
  eMBRegHoldingCB :
    R -> list Z -> Z -> Z -> Z -> eMBRegisterMode -> outcome (R * list Z * eMBErrorCode);
  eMBRegCoilsCB :
    R -> list Z -> Z -> Z -> Z -> eMBRegisterMode -> outcome (R * list Z * eMBErrorCode);
  eMBRegDiscreteCB : R -> list Z -> Z -> Z -> Z -> outcome (R * list Z * eMBErrorCode);
}.

(** The state the handlers work on: the application's registers and the static
    variables of mbfuncother.c. *)
Record app (R : Type) := App {
  regs : R;
  ucMBSlaveID : list Z;
  usMBSlaveIDLen : Z;
}.
Arguments App {R}.
Arguments regs {R}.
Arguments ucMBSlaveID {R}.
Arguments usMBSlaveIDLen {R}.

Definition set_regs {R} (a : app R) (r : R) : app R :=
  App r (ucMBSlaveID a) (usMBSlaveIDLen a).

(** Offsets inside the PDU (the [#define]s at the head of each file). *)
Definition MB_PDU_FUNC_READ_ADDR_OFF : Z := MB_PDU_DATA_OFF.
Definition MB_PDU_FUNC_READ_CNT_OFF : Z := MB_PDU_DATA_OFF + 2.
Definition MB_PDU_FUNC_READ_SIZE : Z := 4.
Definition MB_PDU_FUNC_READ_COILCNT_MAX : Z := 0x07D0.
Definition MB_PDU_FUNC_READ_DISCCNT_MAX : Z := 0x07D0.
Definition MB_PDU_FUNC_READ_REGCNT_MAX : Z := 0x007D.
Definition MB_PDU_FUNC_WRITE_ADDR_OFF : Z := MB_PDU_DATA_OFF.
Definition MB_PDU_FUNC_WRITE_VALUE_OFF : Z := MB_PDU_DATA_OFF + 2.
Definition MB_PDU_FUNC_WRITE_SIZE : Z := 4.
Definition MB_PDU_FUNC_WRITE_MUL_ADDR_OFF : Z := MB_PDU_DATA_OFF.
Definition MB_PDU_FUNC_WRITE_MUL_CNT_OFF : Z := MB_PDU_DATA_OFF + 2.
Definition MB_PDU_FUNC_WRITE_MUL_BYTECNT_OFF : Z := MB_PDU_DATA_OFF + 4.
Definition MB_PDU_FUNC_WRITE_MUL_VALUES_OFF : Z := MB_PDU_DATA_OFF + 5.
Definition MB_PDU_FUNC_WRITE_MUL_SIZE_MIN : Z := 5.
Definition MB_PDU_FUNC_WRITE_MUL_COILCNT_MAX : Z := 0x07B0.
Definition MB_PDU_FUNC_WRITE_MUL_REGCNT_MAX : Z := 0x0078.
Definition MB_PDU_FUNC_READWRITE_READ_ADDR_OFF : Z := MB_PDU_DATA_OFF + 0.
Definition MB_PDU_FUNC_READWRITE_READ_REGCNT_OFF : Z := MB_PDU_DATA_OFF + 2.
Definition MB_PDU_FUNC_READWRITE_WRITE_ADDR_OFF : Z := MB_PDU_DATA_OFF + 4.
Definition MB_PDU_FUNC_READWRITE_WRITE_REGCNT_OFF : Z := MB_PDU_DATA_OFF + 6.
Definition MB_PDU_FUNC_READWRITE_BYTECNT_OFF : Z := MB_PDU_DATA_OFF + 8.
Definition MB_PDU_FUNC_READWRITE_WRITE_VALUES_OFF : Z := MB_PDU_DATA_OFF + 9.
Definition MB_PDU_FUNC_READWRITE_SIZE_MIN : Z := 9.

(** [x = ( USHORT )( pucFrame[o] << 8 ); x |= ( USHORT )( pucFrame[o + 1] );] *)
Definition rd_ushort (buf : list Z) (p : Z) : outcome Z :=
  hi ← rd buf p;
  lo ← rd buf (p + 1);
  Ok (Z.lor (u16 (Z.shiftl hi 8)) lo).

(** The number of bytes that hold [n] coils. *)
Definition coil_bytes (n : Z) : Z :=
  if bool_decide (Z.land n 0x0007 <> 0) then u8 (n `div` 8 + 1) else u8 (n `div` 8).

Section Handlers.
Context {R : Type} `{RegCB R}.
Implicit Types (a : app R) (buf : list Z) (pucFrame usLen : Z).

(** What a handler returns: the application state, the frame buffer, the new
    [*usLen] and the exception code. *)
Definition hresult : Type := app R * list Z * Z * eMBException.

(** ** mbfunccoils.c *)

Definition eMBFuncReadCoils a buf pucFrame usLen : outcome hresult :=
  if usLen =? MB_PDU_FUNC_READ_SIZE + MB_PDU_SIZE_MIN then
    w ← rd_ushort buf (pucFrame + MB_PDU_FUNC_READ_ADDR_OFF);
    let usRegAddress := u16 (w + 1) in
    usCoilCount ← rd_ushort buf (pucFrame + MB_PDU_FUNC_READ_CNT_OFF);
    if (1 <=? usCoilCount) && (usCoilCount <? MB_PDU_FUNC_READ_COILCNT_MAX) then
      let pucFrameCur := pucFrame + MB_PDU_FUNC_OFF in
      let usLen := MB_PDU_FUNC_OFF in
      buf ← wr buf pucFrameCur MB_FUNC_READ_COILS;
      let usLen := u16 (usLen + 1) in
      let ucNBytes := coil_bytes usCoilCount in
      buf ← wr buf (pucFrameCur + 1) ucNBytes;
      let usLen := u16 (usLen + 1) in
      '(r, buf, eRegStatus) ←
        eMBRegCoilsCB (regs a) buf (pucFrameCur + 2) usRegAddress usCoilCount MB_REG_READ;
      if decide (eRegStatus <> MB_ENOERR)
      then Ok (set_regs a r, buf, usLen, prveMBError2Exception eRegStatus)
      else Ok (set_regs a r, buf, u16 (usLen + ucNBytes), MB_EX_NONE)
    else Ok (a, buf, usLen, MB_EX_ILLEGAL_DATA_VALUE)
  else Ok (a, buf, usLen, MB_EX_ILLEGAL_DATA_VALUE).

(** The value is passed in a local [ucBuf[2]], not in the frame. *)
Definition eMBFuncWriteCoil a buf pucFrame usLen : outcome hresult :=
  if usLen =? MB_PDU_FUNC_WRITE_SIZE + MB_PDU_SIZE_MIN then
    w ← rd_ushort buf (pucFrame + MB_PDU_FUNC_WRITE_ADDR_OFF);
    let usRegAddress := u16 (w + 1) in
    v0 ← rd buf (pucFrame + MB_PDU_FUNC_WRITE_VALUE_OFF);
    v1 ← rd buf (pucFrame + MB_PDU_FUNC_WRITE_VALUE_OFF + 1);
    if (v1 =? 0x00) && ((v0 =? 0xFF) || (v0 =? 0x00)) then
      let ucBuf := [if v0 =? 0xFF then 1 else 0; 0] in
      '(r, _, eRegStatus) ← eMBRegCoilsCB (regs a) ucBuf 0 usRegAddress 1 MB_REG_WRITE;
      if decide (eRegStatus <> MB_ENOERR)
      then Ok (set_regs a r, buf, usLen, prveMBError2Exception eRegStatus)
      else Ok (set_regs a r, buf, usLen, MB_EX_NONE)
    else Ok (a, buf, usLen, MB_EX_ILLEGAL_DATA_VALUE)
  else Ok (a, buf, usLen, MB_EX_ILLEGAL_DATA_VALUE).

Definition eMBFuncWriteMultipleCoils a buf pucFrame usLen : outcome hresult :=
  if MB_PDU_FUNC_WRITE_SIZE + MB_PDU_SIZE_MIN <? usLen then
    w ← rd_ushort buf (pucFrame + MB_PDU_FUNC_WRITE_MUL_ADDR_OFF);
    let usRegAddress := u16 (w + 1) in
    usCoilCnt ← rd_ushort buf (pucFrame + MB_PDU_FUNC_WRITE_MUL_CNT_OFF);
    ucByteCount ← rd buf (pucFrame + MB_PDU_FUNC_WRITE_MUL_BYTECNT_OFF);
    let ucByteCountVerify := coil_bytes usCoilCnt in
    if (1 <=? usCoilCnt) && (usCoilCnt <=? MB_PDU_FUNC_WRITE_MUL_COILCNT_MAX)
       && (ucByteCountVerify =? ucByteCount) then
      '(r, buf, eRegStatus) ←
        eMBRegCoilsCB (regs a) buf (pucFrame + MB_PDU_FUNC_WRITE_MUL_VALUES_OFF)
                      usRegAddress usCoilCnt MB_REG_WRITE;
      if decide (eRegStatus <> MB_ENOERR)
      then Ok (set_regs a r, buf, usLen, prveMBError2Exception eRegStatus)
      else Ok (set_regs a r, buf, MB_PDU_FUNC_WRITE_MUL_BYTECNT_OFF, MB_EX_NONE)
    else Ok (a, buf, usLen, MB_EX_ILLEGAL_DATA_VALUE)
  else Ok (a, buf, usLen, MB_EX_ILLEGAL_DATA_VALUE).

(** ** mbfuncdisc.c *)

Definition eMBFuncReadDiscreteInputs a buf pucFrame usLen : outcome hresult :=
  if usLen =? MB_PDU_FUNC_READ_SIZE + MB_PDU_SIZE_MIN then
    w ← rd_ushort buf (pucFrame + MB_PDU_FUNC_READ_ADDR_OFF);
    let usRegAddress := u16 (w + 1) in
    usDiscreteCnt ← rd_ushort buf (pucFrame + MB_PDU_FUNC_READ_CNT_OFF);
    if (1 <=? usDiscreteCnt) && (usDiscreteCnt <? MB_PDU_FUNC_READ_DISCCNT_MAX) then
      let pucFrameCur := pucFrame + MB_PDU_FUNC_OFF in
      let usLen := MB_PDU_FUNC_OFF in
      buf ← wr buf pucFrameCur MB_FUNC_READ_DISCRETE_INPUTS;
      let usLen := u16 (usLen + 1) in
      let ucNBytes := coil_bytes usDiscreteCnt in
      buf ← wr buf (pucFrameCur + 1) ucNBytes;
      let usLen := u16 (usLen + 1) in
      '(r, buf, eRegStatus) ←
        eMBRegDiscreteCB (regs a) buf (pucFrameCur + 2) usRegAddress usDiscreteCnt;
      if decide (eRegStatus <> MB_ENOERR)
      then Ok (set_regs a r, buf, usLen, prveMBError2Exception eRegStatus)
      else Ok (set_regs a r, buf, u16 (usLen + ucNBytes), MB_EX_NONE)
    else Ok (a, buf, usLen, MB_EX_ILLEGAL_DATA_VALUE)
  else Ok (a, buf, usLen, MB_EX_ILLEGAL_DATA_VALUE).

(** ** mbfuncinput.c *)

Definition eMBFuncReadInputRegister a buf pucFrame usLen : outcome hresult :=
  if usLen =? MB_PDU_FUNC_READ_SIZE + MB_PDU_SIZE_MIN then
    w ← rd_ushort buf (pucFrame + MB_PDU_FUNC_READ_ADDR_OFF);
    let usRegAddress := u16 (w + 1) in
    usRegCount ← rd_ushort buf (pucFrame + MB_PDU_FUNC_READ_CNT_OFF);
    if (1 <=? usRegCount) && (usRegCount <? MB_PDU_FUNC_READ_REGCNT_MAX) then
      let pucFrameCur := pucFrame + MB_PDU_FUNC_OFF in
      let usLen := MB_PDU_FUNC_OFF in
      buf ← wr buf pucFrameCur MB_FUNC_READ_INPUT_REGISTER;
      let usLen := u16 (usLen + 1) in
      buf ← wr buf (pucFrameCur + 1) (u8 (usRegCount * 2));
      let usLen := u16 (usLen + 1) in
      '(r, buf, eRegStatus) ←
        eMBRegInputCB (regs a) buf (pucFrameCur + 2) usRegAddress usRegCount;
      if decide (eRegStatus <> MB_ENOERR)
      then Ok (set_regs a r, buf, usLen, prveMBError2Exception eRegStatus)
      else Ok (set_regs a r, buf, u16 (usLen + usRegCount * 2), MB_EX_NONE)
    else Ok (a, buf, usLen, MB_EX_ILLEGAL_DATA_VALUE)
  else Ok (a, buf, usLen, MB_EX_ILLEGAL_DATA_VALUE).

(** ** mbfuncholding.c *)

Definition eMBFuncWriteHoldingRegister a buf pucFrame usLen : outcome hresult :=
  if usLen =? MB_PDU_FUNC_WRITE_SIZE + MB_PDU_SIZE_MIN then
    w ← rd_ushort buf (pucFrame + MB_PDU_FUNC_WRITE_ADDR_OFF);
    let usRegAddress := u16 (w + 1) in
    '(r, buf, eRegStatus) ←
      eMBRegHoldingCB (regs a) buf (pucFrame + MB_PDU_FUNC_WRITE_VALUE_OFF)
                      usRegAddress 1 MB_REG_WRITE;
    if decide (eRegStatus <> MB_ENOERR)
    then Ok (set_regs a r, buf, usLen, prveMBError2Exception eRegStatus)
    else Ok (set_regs a r, buf, usLen, MB_EX_NONE)
  else Ok (a, buf, usLen, MB_EX_ILLEGAL_DATA_VALUE).

Definition eMBFuncWriteMultipleHoldingRegister a buf pucFrame usLen : outcome hresult :=
  if MB_PDU_FUNC_WRITE_MUL_SIZE_MIN + MB_PDU_SIZE_MIN <=? usLen then
    w ← rd_ushort buf (pucFrame + MB_PDU_FUNC_WRITE_MUL_ADDR_OFF);
    let usRegAddress := u16 (w + 1) in
    usRegCount ← rd_ushort buf (pucFrame + MB_PDU_FUNC_WRITE_MUL_CNT_OFF);
    ucRegByteCount ← rd buf (pucFrame + MB_PDU_FUNC_WRITE_MUL_BYTECNT_OFF);
    if (1 <=? usRegCount) && (usRegCount <=? MB_PDU_FUNC_WRITE_MUL_REGCNT_MAX)
       && (ucRegByteCount =? u8 (2 * usRegCount)) then
      '(r, buf, eRegStatus) ←
        eMBRegHoldingCB (regs a) buf (pucFrame + MB_PDU_FUNC_WRITE_MUL_VALUES_OFF)
                        usRegAddress usRegCount MB_REG_WRITE;
      if decide (eRegStatus <> MB_ENOERR)
      then Ok (set_regs a r, buf, usLen, prveMBError2Exception eRegStatus)
      else Ok (set_regs a r, buf, MB_PDU_FUNC_WRITE_MUL_BYTECNT_OFF, MB_EX_NONE)
    else Ok (a, buf, usLen, MB_EX_ILLEGAL_DATA_VALUE)
  else Ok (a, buf, usLen, MB_EX_ILLEGAL_DATA_VALUE).

(** The second assignment to [usRegCount] is [=], not [|=]: the high byte of the
    count is read and then dropped. *)
Definition eMBFuncReadHoldingRegister a buf pucFrame usLen : outcome hresult :=
  if usLen =? MB_PDU_FUNC_READ_SIZE + MB_PDU_SIZE_MIN then
    w ← rd_ushort buf (pucFrame + MB_PDU_FUNC_READ_ADDR_OFF);
    let usRegAddress := u16 (w + 1) in
    _ ← rd buf (pucFrame + MB_PDU_FUNC_READ_CNT_OFF);
    usRegCount ← rd buf (pucFrame + MB_PDU_FUNC_READ_CNT_OFF + 1);
    if (1 <=? usRegCount) && (usRegCount <=? MB_PDU_FUNC_READ_REGCNT_MAX) then
      let pucFrameCur := pucFrame + MB_PDU_FUNC_OFF in
      let usLen := MB_PDU_FUNC_OFF in
      buf ← wr buf pucFrameCur MB_FUNC_READ_HOLDING_REGISTER;
      let usLen := u16 (usLen + 1) in
      buf ← wr buf (pucFrameCur + 1) (u8 (usRegCount * 2));
      let usLen := u16 (usLen + 1) in
      '(r, buf, eRegStatus) ←
        eMBRegHoldingCB (regs a) buf (pucFrameCur + 2) usRegAddress usRegCount MB_REG_READ;
      if decide (eRegStatus <> MB_ENOERR)
      then Ok (set_regs a r, buf, usLen, prveMBError2Exception eRegStatus)
      else Ok (set_regs a r, buf, u16 (usLen + usRegCount * 2), MB_EX_NONE)
    else Ok (a, buf, usLen, MB_EX_ILLEGAL_DATA_VALUE)
  else Ok (a, buf, usLen, MB_EX_ILLEGAL_DATA_VALUE).

(** There is no [else] for a PDU that is too short: [MB_EX_NONE] with the
    request left in the buffer. *)
Definition eMBFuncReadWriteMultipleHoldingRegister a buf pucFrame usLen : outcome hresult :=
  if MB_PDU_FUNC_READWRITE_SIZE_MIN + MB_PDU_SIZE_MIN <=? usLen then
    w ← rd_ushort buf (pucFrame + MB_PDU_FUNC_READWRITE_READ_ADDR_OFF);
    let usRegReadAddress := u16 (w + 1) in
    usRegReadCount ← rd_ushort buf (pucFrame + MB_PDU_FUNC_READWRITE_READ_REGCNT_OFF);
    w ← rd_ushort buf (pucFrame + MB_PDU_FUNC_READWRITE_WRITE_ADDR_OFF);
    let usRegWriteAddress := u16 (w + 1) in
    usRegWriteCount ← rd_ushort buf (pucFrame + MB_PDU_FUNC_READWRITE_WRITE_REGCNT_OFF);
    ucRegWriteByteCount ← rd buf (pucFrame + MB_PDU_FUNC_READWRITE_BYTECNT_OFF);
    if (1 <=? usRegReadCount) && (usRegReadCount <=? 0x7D)
       && (1 <=? usRegWriteCount) && (usRegWriteCount <=? 0x79)
       && (2 * usRegWriteCount =? ucRegWriteByteCount) then
      '(r, buf, eRegStatus) ←
        eMBRegHoldingCB (regs a) buf (pucFrame + MB_PDU_FUNC_READWRITE_WRITE_VALUES_OFF)
                        usRegWriteAddress usRegWriteCount MB_REG_WRITE;
      let a := set_regs a r in
      if decide (eRegStatus = MB_ENOERR) then
        let pucFrameCur := pucFrame + MB_PDU_FUNC_OFF in
        let usLen := MB_PDU_FUNC_OFF in
        buf ← wr buf pucFrameCur MB_FUNC_READWRITE_MULTIPLE_REGISTERS;
        let usLen := u16 (usLen + 1) in
        buf ← wr buf (pucFrameCur + 1) (u8 (usRegReadCount * 2));
        let usLen := u16 (usLen + 1) in
        '(r, buf, eRegStatus) ←
          eMBRegHoldingCB (regs a) buf (pucFrameCur + 2)
                          usRegReadAddress usRegReadCount MB_REG_READ;
        if decide (eRegStatus = MB_ENOERR)
        then Ok (set_regs a r, buf, u16 (usLen + 2 * usRegReadCount), MB_EX_NONE)
        else Ok (set_regs a r, buf, usLen, prveMBError2Exception eRegStatus)
      else Ok (a, buf, usLen, prveMBError2Exception eRegStatus)
    else Ok (a, buf, usLen, MB_EX_ILLEGAL_DATA_VALUE)
  else Ok (a, buf, usLen, MB_EX_NONE).

(** ** mbfuncother.c *)

Definition eMBSetSlaveID a (ucSlaveID : Z) (xIsRunning : bool)
    (pucAdditional : list Z) (usAdditionalLen : Z) : outcome (app R * eMBErrorCode) :=
  if usAdditionalLen + 2 <? MB_FUNC_OTHER_REP_SLAVEID_BUF then
    let usMBSlaveIDLen := 0 in
    id ← wr (ucMBSlaveID a) usMBSlaveIDLen ucSlaveID;
    let usMBSlaveIDLen := usMBSlaveIDLen + 1 in
    id ← wr id usMBSlaveIDLen (u8 (if xIsRunning then 0xFF else 0x00));
    let usMBSlaveIDLen := usMBSlaveIDLen + 1 in
    if 0 <? usAdditionalLen then
      src ← rd_slice pucAdditional 0 usAdditionalLen;
      id ← wr_slice id usMBSlaveIDLen src;
      Ok (App (regs a) id (u16 (usMBSlaveIDLen + usAdditionalLen)), MB_ENOERR)
    else Ok (App (regs a) id usMBSlaveIDLen, MB_ENOERR)
  else Ok (a, MB_ENORES).

Definition eMBFuncReportSlaveID a buf pucFrame (usLen : Z) : outcome hresult :=
  src ← rd_slice (ucMBSlaveID a) 0 (usMBSlaveIDLen a);
  buf ← wr_slice buf (pucFrame + MB_PDU_DATA_OFF) src;
  Ok (a, buf, u16 (MB_PDU_DATA_OFF + usMBSlaveIDLen a), MB_EX_NONE).
End Handlers.

(** ** What the callbacks promise

    A callback that is given room for the data it is asked for returns, keeps the
    application's invariant, and changes nothing of the frame but that room: a
    read fills (at most) the data area, a write leaves the frame alone. *)

Definition touches (buf : list Z) (p m : Z) (buf' : list Z) : Prop :=
  exists xs, bytes_ok xs /\ Zlen xs = m /\ buf' = splice buf p xs.

Class RegCBLaws (R : Type) `{RegCB R} (wf : R -> Prop) : Prop := {
  input_law r buf p addr n :
    wf r -> bytes_ok buf -> is_u16 addr -> is_u16 n -> 0 <= p -> p + 2 * n <= Zlen buf ->
    exists r' buf' e, eMBRegInputCB r buf p addr n = Ok (r', buf', e) /\
                      wf r' /\ touches buf p (2 * n) buf';
  holding_read_law r buf p addr n :
    wf r -> bytes_ok buf -> is_u16 addr -> is_u16 n -> 0 <= p -> p + 2 * n <= Zlen buf ->
    exists r' buf' e, eMBRegHoldingCB r buf p addr n MB_REG_READ = Ok (r', buf', e) /\
                      wf r' /\ touches buf p (2 * n) buf';
  holding_write_law r buf p addr n :
    wf r -> bytes_ok buf -> is_u16 addr -> is_u16 n -> 0 <= p -> p + 2 * n <= Zlen buf ->
    exists r' e, eMBRegHoldingCB r buf p addr n MB_REG_WRITE = Ok (r', buf, e) /\ wf r';
  coils_read_law r buf p addr n :
    wf r -> bytes_ok buf -> is_u16 addr -> is_u16 n -> 0 <= p -> p + (n + 7) `div` 8 <= Zlen buf ->
    exists r' buf' e, eMBRegCoilsCB r buf p addr n MB_REG_READ = Ok (r', buf', e) /\
                      wf r' /\ touches buf p ((n + 7) `div` 8) buf';
  coils_write_law r buf p addr n :
    wf r -> bytes_ok buf -> is_u16 addr -> is_u16 n -> 0 <= p -> p + (n + 7) `div` 8 <= Zlen buf ->
    exists r' e, eMBRegCoilsCB r buf p addr n MB_REG_WRITE = Ok (r', buf, e) /\ wf r';
  discrete_law r buf p addr n :
    wf r -> bytes_ok buf -> is_u16 addr -> is_u16 n -> 0 <= p -> p + (n + 7) `div` 8 <= Zlen buf ->
    exists r' buf' e, eMBRegDiscreteCB r buf p addr n = Ok (r', buf', e) /\
                      wf r' /\ touches buf p ((n + 7) `div` 8) buf';
}.

(** ** Frames that differ only from an offset on *)

(** [buf'] has the length of [buf] and agrees with it before offset [p]. *)
Definition same_before (p : Z) (buf buf' : list Z) : Prop :=
  bytes_ok buf' /\ Zlen buf' = Zlen buf /\ take (Z.to_nat p) buf' = take (Z.to_nat p) buf.

Lemma same_before_refl p buf : bytes_ok buf -> same_before p buf buf.
Proof. done. Qed.

Lemma same_before_trans p b1 b2 b3 :
  same_before p b1 b2 -> same_before p b2 b3 -> same_before p b1 b3.
Proof. intros (? & ? & ?) (? & ? & ?). repeat split; congruence || done. Qed.

Lemma same_before_insert p buf i x :
  bytes_ok buf -> 0 <= p <= i -> is_u8 x -> same_before p buf (<[Z.to_nat i := x]> buf).
Proof.
  intros Hb Hi Hx. repeat split.
  - by apply Forall_insert.
  - apply Zlen_insert.
  - rewrite take_insert_ge; [done|lia].
Qed.

Lemma same_before_touches p q m buf buf' :
  bytes_ok buf -> 0 <= p <= q -> q + m <= Zlen buf -> touches buf q m buf' ->
  same_before p buf buf'.
Proof.
  intros Hb Hp Hm (xs & Hxs & Hlen & ->). pose proof (Zlen_nonneg xs). repeat split.
  - by apply Forall_splice.
  - apply splice_length; lia.
  - unfold splice. rewrite take_app_le by (rewrite length_take; unfold Zlen in *; lia).
    rewrite take_take. f_equal. lia.
Qed.

Lemma rd_ushort_spec buf p :
  bytes_ok buf -> 0 <= p -> p + 2 <= Zlen buf ->
  exists hi lo, rd buf p = Ok hi /\ rd buf (p + 1) = Ok lo /\ is_u8 hi /\ is_u8 lo /\
                rd_ushort buf p = Ok (hi * 256 + lo) /\ is_u16 (hi * 256 + lo).
Proof.
  intros Hb Hp Hl. destruct (rd_in_range buf p) as [hi Hhi]; [lia|].
  destruct (rd_in_range buf (p + 1)) as [lo Hlo]; [lia|].
  exists hi, lo. assert (is_u8 hi /\ is_u8 lo) as [? ?] by (split; eauto with arr).
  do 4 (split; [done|]). split.
  - unfold rd_ushort. rewrite Hhi, Hlo, !bind_Ok_l. by rewrite be16_decode.
  - unfold is_u8, is_u16 in *. lia.
Qed.

Lemma rd_ushort_ok buf p :
  bytes_ok buf -> 0 <= p -> p + 2 <= Zlen buf ->
  exists w, rd_ushort buf p = Ok w /\ is_u16 w.
Proof. intros. destruct (rd_ushort_spec buf p) as (hi & lo & _ & _ & _ & _ & ? & ?); eauto. Qed.

Lemma coil_bytes_spec n : 0 <= n < 2040 -> coil_bytes n = (n + 7) `div` 8.
Proof.
  intros Hn. unfold coil_bytes. change 7 with (Z.ones 3). rewrite Z.land_ones by done.
  change (2 ^ 3) with 8. change (Z.ones 3) with 7.
  pose proof (Z.div_mod n 8 ltac:(lia)). pose proof (Z.mod_pos_bound n 8 ltac:(lia)).
  pose proof (Z.div_mod (n + 7) 8 ltac:(lia)).
  pose proof (Z.mod_pos_bound (n + 7) 8 ltac:(lia)).
  zify_bool; rewrite u8_small by (unfold is_u8; lia); lia.
Qed.

Lemma coil_bytes_room n : 0 <= n -> 0 <= (n + 7) `div` 8 /\ 8 * ((n + 7) `div` 8) <= n + 7.
Proof.
  intros Hn. pose proof (Z.div_mod (n + 7) 8 ltac:(lia)).
  pose proof (Z.mod_pos_bound (n + 7) 8 ltac:(lia)). lia.
Qed.

(** ** Every handler is safe *)

Ltac unfold_offs :=
  unfold MB_PDU_FUNC_READ_ADDR_OFF, MB_PDU_FUNC_READ_CNT_OFF, MB_PDU_FUNC_READ_SIZE,
    MB_PDU_FUNC_READ_COILCNT_MAX, MB_PDU_FUNC_READ_DISCCNT_MAX, MB_PDU_FUNC_READ_REGCNT_MAX,
    MB_PDU_FUNC_WRITE_ADDR_OFF, MB_PDU_FUNC_WRITE_VALUE_OFF, MB_PDU_FUNC_WRITE_SIZE,
    MB_PDU_FUNC_WRITE_MUL_ADDR_OFF, MB_PDU_FUNC_WRITE_MUL_CNT_OFF,
    MB_PDU_FUNC_WRITE_MUL_BYTECNT_OFF, MB_PDU_FUNC_WRITE_MUL_VALUES_OFF,
    MB_PDU_FUNC_WRITE_MUL_SIZE_MIN, MB_PDU_FUNC_WRITE_MUL_COILCNT_MAX,
    MB_PDU_FUNC_WRITE_MUL_REGCNT_MAX, MB_PDU_FUNC_READWRITE_READ_ADDR_OFF,
    MB_PDU_FUNC_READWRITE_READ_REGCNT_OFF, MB_PDU_FUNC_READWRITE_WRITE_ADDR_OFF,
    MB_PDU_FUNC_READWRITE_WRITE_REGCNT_OFF, MB_PDU_FUNC_READWRITE_BYTECNT_OFF,
    MB_PDU_FUNC_READWRITE_WRITE_VALUES_OFF, MB_PDU_FUNC_READWRITE_SIZE_MIN,
    MB_PDU_DATA_OFF, MB_PDU_FUNC_OFF, MB_PDU_SIZE_MIN, MB_PDU_SIZE_MAX,
    MB_FUNC_OTHER_REP_SLAVEID_BUF in *.

Section Safety.
Context {R : Type} (wf : R -> Prop) `{Hlaws : RegCBLaws R wf}.
Implicit Types (a : app R) (buf : list Z).

(** The invariant of the handlers' state. *)
Definition app_ok a : Prop :=
  wf (regs a) /\ bytes_ok (ucMBSlaveID a) /\
  Zlen (ucMBSlaveID a) = MB_FUNC_OTHER_REP_SLAVEID_BUF /\
  0 <= usMBSlaveIDLen a < MB_FUNC_OTHER_REP_SLAVEID_BUF.

(** A handler that is given a PDU with room for the largest one returns, leaves
    what precedes the PDU alone and answers with a PDU that fits. *)
Definition handler_ok (h : app R -> list Z -> Z -> Z -> outcome hresult) : Prop :=
  forall a buf p len,
    app_ok a -> bytes_ok buf -> 0 <= p -> p + MB_PDU_SIZE_MAX <= Zlen buf ->
    0 <= len <= MB_PDU_SIZE_MAX ->
    exists a' buf' len' ex,
      h a buf p len = Ok (a', buf', len', ex) /\ app_ok a' /\
      same_before p buf buf' /\ 0 <= len' <= MB_PDU_SIZE_MAX.

Lemma app_ok_set_regs a r : app_ok a -> wf r -> app_ok (set_regs a r).
Proof. intros (? & ? & ? & ?) ?. done. Qed.

(** Finish one path of a handler. *)
Ltac path_done :=
  do 4 eexists; split; [reflexivity|];
  split; [by auto using app_ok_set_regs|];
  split; [done|]; rewrite ?u16_small by (unfold is_u16; lia); lia.

(** Execute the next access of a handler. *)
Ltac hstep :=
  match goal with
  | |- context [mbind _ (rd_ushort ?b ?q)] =>
      let w := fresh "w" in let E := fresh "E" in let Hw := fresh "Hw" in
      destruct (rd_ushort_ok b q) as (w & E & Hw);
      [done | lia | lia |]; rewrite E, bind_Ok_l; clear E
  | |- context [mbind _ (rd ?b ?q)] =>
      let x := fresh "x" in let E := fresh "E" in let Hx := fresh "Hx" in
      destruct (rd_in_range b q) as [x E]; [lia|];
      assert (Hx : is_u8 x) by (by eapply bytes_rd); rewrite E, bind_Ok_l; clear E
  end.

(** The two header bytes of a read response. *)
Lemma header_ok buf p c n :
  bytes_ok buf -> 0 <= p -> p + 2 <= Zlen buf -> is_u8 c -> is_u8 n ->
  exists buf', wr buf (p + 0) c = Ok (<[Z.to_nat (p + 0) := c]> buf) /\
               wr (<[Z.to_nat (p + 0) := c]> buf) (p + 0 + 1) n = Ok buf' /\
               same_before p buf buf'.
Proof.
  intros Hb Hp Hl Hc Hn. eexists. split; [apply wr_in_range; lia|].
  split; [apply wr_in_range; rewrite Zlen_insert; lia|].
  eapply same_before_trans; apply same_before_insert; try done; try lia.
  by apply Forall_insert.
Qed.

(** Write the response header, leaving [buf'] with [Hs : same_before p buf buf']. *)
Ltac hheader :=
  match goal with
  | Hb : bytes_ok ?b |- context [wr ?b (?p + 0) ?c] =>
      match goal with
      | |- context [wr _ (p + 0 + 1) ?n] =>
          let buf' := fresh "buf'" in
          destruct (header_ok b p c n) as (buf' & E1 & E2 & Hs);
          [done | lia | lia | by_compute | auto with mach |];
          rewrite E1, bind_Ok_l, E2, bind_Ok_l; clear E1 E2;
          change (u16 (u16 (0 + 1) + 1)) with 2;
          destruct Hs as (Hb' & Hl' & Ht'); pose proof (conj Hb' (conj Hl' Ht')) as Hs
      end
  end.

Lemma coil_bytes_range n : is_u8 (coil_bytes n).
Proof. unfold coil_bytes. zify_bool; auto with mach. Qed.
#[local] Hint Resolve coil_bytes_range : mach.

(** Start a handler: unfold it and dispose of the length guard. *)
Tactic Notation "hstart" reference(h) :=
  intros a buf p len Ha Hb Hp Hfit Hlen; assert (Hwf : wf (regs a)) by apply Ha;
  unfold h; unfold_offs;
  match goal with
  | |- context [if ?g then _ else _] => destruct g eqn:Hg; zify_bool; [|path_done]
  end.

Ltac hguard :=
  match goal with
  | |- context [if (?g && ?g')%bool then _ else _] =>
      destruct (g && g')%bool eqn:Hg2; zify_bool; [|path_done]
  end.

Ltac hfinish Hs Ht :=
  cbn [mbind outcome_bind];
  destruct (decide _);
  (do 4 eexists; split; [reflexivity|];
   split; [by apply app_ok_set_regs|];
   split; [first [done | eapply same_before_trans; [exact Hs|];
                         eapply same_before_touches; [..|exact Ht]; done || lia] |
           first [lia | rewrite u16_small; unfold is_u16; lia]]).

Lemma eMBFuncReadCoils_ok : handler_ok eMBFuncReadCoils.
Proof.
  hstart eMBFuncReadCoils. do 2 hstep. hguard. hheader.
  rewrite coil_bytes_spec in * by lia. pose proof (coil_bytes_room w0 ltac:(lia)).
  destruct (coils_read_law (regs a) buf' (p + 0 + 2) (u16 (w + 1)) w0)
    as (r & b2 & e & -> & Hr & Ht); auto with mach; try lia.
  hfinish Hs Ht.
Qed.

Lemma eMBFuncReadDiscreteInputs_ok : handler_ok eMBFuncReadDiscreteInputs.
Proof.
  hstart eMBFuncReadDiscreteInputs. do 2 hstep. hguard. hheader.
  rewrite coil_bytes_spec in * by lia. pose proof (coil_bytes_room w0 ltac:(lia)).
  destruct (discrete_law (regs a) buf' (p + 0 + 2) (u16 (w + 1)) w0)
    as (r & b2 & e & -> & Hr & Ht); auto with mach; try lia.
  hfinish Hs Ht.
Qed.

Lemma eMBFuncReadInputRegister_ok : handler_ok eMBFuncReadInputRegister.
Proof.
  hstart eMBFuncReadInputRegister. do 2 hstep. hguard. hheader.
  destruct (input_law (regs a) buf' (p + 0 + 2) (u16 (w + 1)) w0)
    as (r & b2 & e & -> & Hr & Ht); auto with mach; try lia.
  hfinish Hs Ht.
Qed.

Lemma eMBFuncReadHoldingRegister_ok : handler_ok eMBFuncReadHoldingRegister.
Proof.
  hstart eMBFuncReadHoldingRegister. do 3 hstep. hguard. hheader.
  destruct (holding_read_law (regs a) buf' (p + 0 + 2) (u16 (w + 1)) x0)
    as (r & b2 & e & -> & Hr & Ht); auto with mach; try lia.
  hfinish Hs Ht.
Qed.

Lemma eMBFuncWriteCoil_ok : handler_ok eMBFuncWriteCoil.
Proof.
  hstart eMBFuncWriteCoil. do 3 hstep.
  destruct ((x0 =? 0) && _)%bool; [|path_done].
  destruct (coils_write_law (regs a) [if x =? 255 then 1 else 0; 0] 0 (u16 (w + 1)) 1)
    as (r & e & -> & Hr); auto with mach; try done.
  { repeat apply bytes_ok_cons; [|by_compute | apply bytes_ok_nil]. by destruct (x =? 255). }
  pose proof (same_before_refl p buf Hb) as Hs. hfinish Hs Hs.
Qed.

Lemma eMBFuncWriteMultipleCoils_ok : handler_ok eMBFuncWriteMultipleCoils.
Proof.
  hstart eMBFuncWriteMultipleCoils. do 3 hstep. hguard.
  pose proof (coil_bytes_room w0 ltac:(lia)).
  destruct (coils_write_law (regs a) buf (p + (1 + 5)) (u16 (w + 1)) w0)
    as (r & e & -> & Hr); auto with mach; try lia.
  pose proof (same_before_refl p buf Hb) as Hs. hfinish Hs Hs.
Qed.

Lemma eMBFuncWriteHoldingRegister_ok : handler_ok eMBFuncWriteHoldingRegister.
Proof.
  hstart eMBFuncWriteHoldingRegister. hstep.
  destruct (holding_write_law (regs a) buf (p + (1 + 2)) (u16 (w + 1)) 1)
    as (r & e & -> & Hr); auto with mach; try done; try lia.
  pose proof (same_before_refl p buf Hb) as Hs. hfinish Hs Hs.
Qed.

Lemma eMBFuncWriteMultipleHoldingRegister_ok :
  handler_ok eMBFuncWriteMultipleHoldingRegister.
Proof.
  hstart eMBFuncWriteMultipleHoldingRegister. do 3 hstep. hguard.
  destruct (holding_write_law (regs a) buf (p + (1 + 5)) (u16 (w + 1)) w0)
    as (r & e & -> & Hr); auto with mach; try lia.
  pose proof (same_before_refl p buf Hb) as Hs. hfinish Hs Hs.
Qed.

Lemma eMBFuncReadWriteMultipleHoldingRegister_ok :
  handler_ok eMBFuncReadWriteMultipleHoldingRegister.
Proof.
  hstart eMBFuncReadWriteMultipleHoldingRegister. do 5 hstep.
  destruct (_ && _)%bool eqn:Hg2; zify_bool; [|path_done].
  destruct (holding_write_law (regs a) buf (p + (1 + 9)) (u16 (w1 + 1)) w2)
    as (r & e & -> & Hr); auto with mach; try lia.
  cbn [mbind outcome_bind]. destruct (decide (e = MB_ENOERR)); [|path_done].
  hheader. change (regs (set_regs a r)) with r.
  destruct (holding_read_law r buf' (p + 0 + 2) (u16 (w + 1)) w0)
    as (r2 & b2 & e2 & -> & Hr2 & Ht); auto with mach; try lia.
  assert (Ha' : app_ok (set_regs a r)) by (by apply app_ok_set_regs).
  hfinish Hs Ht.
Qed.

Lemma eMBFuncReportSlaveID_ok : handler_ok eMBFuncReportSlaveID.
Proof.
  intros a buf p len Ha Hb Hp Hfit Hlen. unfold eMBFuncReportSlaveID. unfold_offs.
  pose proof Ha as (Hwf & Hid & Hidlen & Hn). unfold_offs.
  rewrite rd_slice_in_range, bind_Ok_l by lia.
  pose proof (slice_length (ucMBSlaveID a) 0 (usMBSlaveIDLen a) ltac:(lia) ltac:(lia) ltac:(lia))
    as Hsl.
  rewrite wr_slice_in_range, bind_Ok_l by lia.
  do 4 eexists. split; [reflexivity|]. split; [done|]. split.
  - eapply (same_before_touches p (p + 1) (usMBSlaveIDLen a)); try done; try lia.
    eexists. split; [|split; [|reflexivity]]; [by apply Forall_slice | done].
  - rewrite u16_small; unfold is_u16; lia.
Qed.

Lemma eMBSetSlaveID_ok a id run add n :
  app_ok a -> is_u8 id -> bytes_ok add -> is_u16 n -> n <= Zlen add ->
  exists a' e, eMBSetSlaveID a id run add n = Ok (a', e) /\ app_ok a' /\
    (e = MB_ENOERR -> slice (ucMBSlaveID a') 0 (usMBSlaveIDLen a') =
                      id :: (if run then 0xFF else 0) :: take (Z.to_nat n) add) /\
    (e <> MB_ENOERR -> a' = a /\ 30 <= n).
Proof.
  intros Ha Hid Hadd Hn Hlen. pose proof Ha as (Hwf & Hb & Hbl & Hl).
  unfold eMBSetSlaveID. unfold_offs. unfold is_u16 in Hn.
  destruct (n + 2 <? 32) eqn:Hg; zify_bool.
  2: { exists a, MB_ENORES. do 3 (split; [done|]). intros _. split; [done | lia]. }
  assert (Hrun : is_u8 (u8 (if run then 255 else 0))) by auto with mach.
  assert (Erun : u8 (if run then 255 else 0) = if run then 255 else 0) by (by destruct run).
  rewrite wr_in_range, bind_Ok_l by lia.
  rewrite wr_in_range, bind_Ok_l by (rewrite Zlen_insert; lia).
  set (b2 := <[Z.to_nat (0 + 1) := _]> _).
  assert (Hb2 : bytes_ok b2) by (by repeat apply Forall_insert).
  assert (Hb2l : Zlen b2 = 32) by (subst b2; by rewrite !Zlen_insert).
  assert (Ehd : exists tl, b2 = id :: (if run then 255 else 0) :: tl).
  { rewrite <- Erun. unfold Zlen in Hbl. subst b2. destruct (ucMBSlaveID a) as [|? [|? tl]];
      [done.. |]. by exists tl. }
  destruct Ehd as [tl Etl]. revert Hb2 Hb2l. rewrite Etl. clear b2 Etl Erun Hrun.
  intros Hb2 Hb2l. destruct (0 <? n) eqn:Hg2; zify_bool.
  - rewrite rd_slice_in_range, bind_Ok_l by lia.
    pose proof (slice_length add 0 n ltac:(lia) ltac:(lia) ltac:(lia)) as Hsl.
    rewrite wr_slice_in_range, bind_Ok_l by lia.
    do 2 eexists. split; [reflexivity|].
    split; [|split]; [|intros _|done].
    + repeat split; cbn [regs ucMBSlaveID usMBSlaveIDLen]; try done.
      * apply Forall_splice; [done | by apply Forall_slice].
      * unfold_offs. rewrite splice_length; lia.
      * apply u16_range.
      * rewrite u16_small; unfold is_u16; unfold_offs; lia.
    + cbn [ucMBSlaveID usMBSlaveIDLen]. rewrite u16_small by (unfold is_u16; lia).
      unfold slice, splice. change (Z.to_nat 0) with O. rewrite !drop_0. simpl.
      replace (Z.to_nat (0 + 1 + 1 + n)) with (S (S (Z.to_nat n))) by lia. simpl.
      do 2 f_equal. rewrite take_app_le by (rewrite length_take; unfold Zlen in *; lia).
      rewrite take_take. f_equal. lia.
  - assert (n = 0) as -> by lia.
    do 2 eexists. split; [reflexivity|]. by repeat split.
Qed.
End Safety.
