(* ===== verification/MbDemo.v ===== *)
(** * FreeModbus: the register callbacks of the demo (demo/LINUXTCP/demo.c)

    The demo's register file with its four callbacks, the proof that they keep
    the promises of [RegCBLaws], and the requests served end to end: what reading
    and writing holding registers answers, and that a write is read back. *)

From stdpp Require Import base numbers list.
From S2P Require Import Prelude MbDefs MbFunc.

#[local] Open Scope Z_scope.

Definition REG_INPUT_START : Z := 1000.
Definition REG_INPUT_NREGS : Z := 4.
Definition REG_HOLDING_START : Z := 2000.
Definition REG_HOLDING_NREGS : Z := 130.

(** The two [USHORT] arrays of demo.c. *)
Record demo_regs := DemoRegs {
  usRegInputBuf : list Z;
  usRegHoldingBuf : list Z;
}.

(** [while( usNRegs > 0 ) { *pucRegBuffer++ = src[iRegIndex] >> 8; ... }] *)
Fixpoint regs_to_bytes (usNRegs : nat) (src : list Z) (iRegIndex : Z)
    (buf : list Z) (pucRegBuffer : Z) : outcome (list Z) :=
  match usNRegs with
  | O => Ok buf
  | S usNRegs =>
      x ← rd src iRegIndex;
      buf ← wr buf pucRegBuffer (u8 (Z.shiftr x 8));
      buf ← wr buf (pucRegBuffer + 1) (u8 (Z.land x 0xFF));
      regs_to_bytes usNRegs src (iRegIndex + 1) buf (pucRegBuffer + 2)
  end.

(** [while( usNRegs > 0 ) { dst[iRegIndex] = *pucRegBuffer++ << 8; ... }] *)
Fixpoint bytes_to_regs (usNRegs : nat) (buf : list Z) (pucRegBuffer : Z)
    (dst : list Z) (iRegIndex : Z) : outcome (list Z) :=
  match usNRegs with
  | O => Ok dst
  | S usNRegs =>
      hi ← rd buf pucRegBuffer;
      dst ← wr dst iRegIndex (u16 (Z.shiftl hi 8));
      lo ← rd buf (pucRegBuffer + 1);
      x ← rd dst iRegIndex;
      dst ← wr dst iRegIndex (u16 (Z.lor x lo));
      bytes_to_regs usNRegs buf (pucRegBuffer + 2) dst (iRegIndex + 1)
  end.

Definition demo_eMBRegInputCB (r : demo_regs) (buf : list Z)
    (pucRegBuffer usAddress usNRegs : Z) : outcome (demo_regs * list Z * eMBErrorCode) :=
  if (REG_INPUT_START <=? usAddress)
     && (usAddress + usNRegs <=? REG_INPUT_START + REG_INPUT_NREGS) then
    buf ← regs_to_bytes (Z.to_nat usNRegs) (usRegInputBuf r) (usAddress - REG_INPUT_START)
                        buf pucRegBuffer;
    Ok (r, buf, MB_ENOERR)
  else Ok (r, buf, MB_ENOREG).

Definition demo_eMBRegHoldingCB (r : demo_regs) (buf : list Z)
    (pucRegBuffer usAddress usNRegs : Z) (eMode : eMBRegisterMode)
    : outcome (demo_regs * list Z * eMBErrorCode) :=
  if (REG_HOLDING_START <=? usAddress)
     && (usAddress + usNRegs <=? REG_HOLDING_START + REG_HOLDING_NREGS) then
    let iRegIndex := usAddress - REG_HOLDING_START in
    match eMode with
    | MB_REG_READ =>
        buf ← regs_to_bytes (Z.to_nat usNRegs) (usRegHoldingBuf r) iRegIndex buf pucRegBuffer;
        Ok (r, buf, MB_ENOERR)
    | MB_REG_WRITE =>
        h ← bytes_to_regs (Z.to_nat usNRegs) buf pucRegBuffer (usRegHoldingBuf r) iRegIndex;
        Ok (DemoRegs (usRegInputBuf r) h, buf, MB_ENOERR)
    end
  else Ok (r, buf, MB_ENOREG).

Definition demo_eMBRegCoilsCB (r : demo_regs) (buf : list Z)
    (pucRegBuffer usAddress usNCoils : Z) (eMode : eMBRegisterMode)
    : outcome (demo_regs * list Z * eMBErrorCode) :=
  Ok (r, buf, MB_ENOREG).

Definition demo_eMBRegDiscreteCB (r : demo_regs) (buf : list Z)
    (pucRegBuffer usAddress usNDiscrete : Z) : outcome (demo_regs * list Z * eMBErrorCode) :=
  Ok (r, buf, MB_ENOREG).

#[global] Instance demo_RegCB : RegCB demo_regs := {
  eMBRegInputCB := demo_eMBRegInputCB;
  eMBRegHoldingCB := demo_eMBRegHoldingCB;
  eMBRegCoilsCB := demo_eMBRegCoilsCB;
  eMBRegDiscreteCB := demo_eMBRegDiscreteCB;
}.

(** ** The loops as list functions *)

Fixpoint be_bytes (rs : list Z) : list Z :=
  match rs with
  | [] => []
  | x :: rs => x `div` 256 :: x `mod` 256 :: be_bytes rs
  end.

Fixpoint be_words (bs : list Z) : list Z :=
  match bs with
  | hi :: lo :: bs => hi * 256 + lo :: be_words bs
  | _ => []
  end.

Lemma be_bytes_length rs : Zlen (be_bytes rs) = 2 * Zlen rs.
Proof. induction rs as [|x rs IH]; [done|]. simpl. rewrite !Zlen_cons, IH. lia. Qed.

Lemma be_bytes_ok rs : Forall is_u16 rs -> bytes_ok (be_bytes rs).
Proof.
  induction 1 as [|x rs Hx Hrs IH]; simpl; [apply bytes_ok_nil|].
  destruct (hi_lo_of_u16 x Hx) as (? & ? & _). auto with arr.
Qed.

Lemma be_words_spec n bs :
  length bs = (2 * n)%nat -> bytes_ok bs ->
  length (be_words bs) = n /\ Forall is_u16 (be_words bs) /\ be_bytes (be_words bs) = bs.
Proof.
  revert bs. induction n as [|n IH]; intros bs Hlen Hbs.
  { by destruct bs. }
  destruct bs as [|hi [|lo bs]]; simpl in Hlen; try lia.
  apply Forall_cons in Hbs as [Hhi [Hlo Hbs]%Forall_cons].
  destruct (IH bs) as (L & W & E); [lia | done |].
  simpl. split; [lia|]. split.
  - constructor; [unfold is_u8, is_u16 in *; lia | done].
  - destruct (be16_div_mod hi lo Hlo) as [-> ->]. by rewrite E.
Qed.

Lemma regs_to_bytes_spec n src i buf p :
  Forall is_u16 src -> 0 <= i -> i + Z.of_nat n <= Zlen src ->
  0 <= p -> p + 2 * Z.of_nat n <= Zlen buf ->
  regs_to_bytes n src i buf p = Ok (splice buf p (be_bytes (slice src i (Z.of_nat n)))).
Proof.
  intros Hsrc. revert i buf p. induction n as [|n IH]; intros i buf p Hi Hn Hp Hl.
  { rewrite slice_0 by lia. simpl. by rewrite splice_nil. }
  destruct (rd_in_range src i) as [x Hx]; [lia|].
  assert (Hx16 : is_u16 x) by (by eapply Forall_rd).
  destruct (hi_lo_of_u16 x Hx16) as (Hh & Hlo & _).
  rewrite (slice_cons _ _ _ _ Hx) by lia.
  replace (Z.of_nat (S n) - 1) with (Z.of_nat n) by lia.
  cbn [regs_to_bytes be_bytes]. rewrite Hx, bind_Ok_l.
  rewrite shiftr_8, land_255, !u8_small by done.
  rewrite wr_in_range, bind_Ok_l by lia.
  rewrite wr_in_range, bind_Ok_l by (rewrite Zlen_insert; lia).
  assert (Hlen : Zlen (be_bytes (slice src (i + 1) (Z.of_nat n))) = 2 * Z.of_nat n).
  { rewrite be_bytes_length, slice_length; lia. }
  rewrite IH by (rewrite ?Zlen_insert; lia). f_equal.
  replace (p + 2) with (p + 1 + 1) by lia.
  rewrite splice_cons by (rewrite ?Zlen_insert, ?Hlen; lia).
  rewrite splice_cons by (rewrite ?Zlen_cons, ?Hlen; lia). done.
Qed.

Lemma bytes_to_regs_spec n buf p dst i :
  bytes_ok buf -> 0 <= p -> p + 2 * Z.of_nat n <= Zlen buf ->
  0 <= i -> i + Z.of_nat n <= Zlen dst ->
  bytes_to_regs n buf p dst i =
    Ok (splice dst i (be_words (slice buf p (2 * Z.of_nat n)))).
Proof.
  intros Hbuf. revert p dst i. induction n as [|n IH]; intros p dst i Hp Hl Hi Hn.
  { rewrite slice_0 by lia. simpl. by rewrite splice_nil. }
  destruct (rd_in_range buf p) as [hi Hhi]; [lia|].
  destruct (rd_in_range buf (p + 1)) as [lo Hlo]; [lia|].
  assert (is_u8 hi /\ is_u8 lo) as [Hh8 Hl8] by (split; eauto with arr).
  rewrite (slice_cons _ _ _ _ Hhi), (slice_cons _ _ _ _ Hlo) by lia.
  replace (2 * Z.of_nat (S n) - 1 - 1) with (2 * Z.of_nat n) by lia.
  cbn [bytes_to_regs be_words]. rewrite Hhi, bind_Ok_l.
  rewrite wr_in_range, bind_Ok_l by lia. rewrite Hlo, bind_Ok_l.
  rewrite rd_insert_eq, bind_Ok_l by lia.
  rewrite wr_in_range, bind_Ok_l by (rewrite Zlen_insert; lia).
  rewrite list_insert_insert_eq, be16_decode by done.
  rewrite (u16_small (hi * 256 + lo)) by (unfold is_u8, is_u16 in *; lia).
  assert (Hw : Zlen (be_words (slice buf (p + 2) (2 * Z.of_nat n))) = Z.of_nat n).
  { unfold Zlen. f_equal. apply (be_words_spec n); [|by apply Forall_slice].
    pose proof (slice_length buf (p + 2) (2 * Z.of_nat n)). unfold Zlen in *. lia. }
  rewrite IH by (rewrite ?Zlen_insert; lia). f_equal.
  replace (p + 1 + 1) with (p + 2) by lia.
  rewrite splice_cons; [done | lia | rewrite Hw; lia].
Qed.

(** ** The demo keeps the promises of the interface *)

Definition demo_wf (r : demo_regs) : Prop :=
  Zlen (usRegInputBuf r) = REG_INPUT_NREGS /\ Forall is_u16 (usRegInputBuf r) /\
  Zlen (usRegHoldingBuf r) = REG_HOLDING_NREGS /\ Forall is_u16 (usRegHoldingBuf r).

Ltac unfold_demo :=
  unfold demo_wf, REG_INPUT_START, REG_INPUT_NREGS, REG_HOLDING_START, REG_HOLDING_NREGS in *.

Lemma touches_none buf p m :
  bytes_ok buf -> 0 <= p -> 0 <= m -> p + m <= Zlen buf -> touches buf p m buf.
Proof.
  intros Hb Hp Hm Hl. exists (slice buf p m).
  split; [by apply Forall_slice|]. split; [by apply slice_length|].
  by rewrite splice_slice.
Qed.

Lemma touches_be_bytes buf p src i n :
  Forall is_u16 src -> 0 <= i -> 0 <= n -> i + n <= Zlen src ->
  touches buf p (2 * n) (splice buf p (be_bytes (slice src i n))).
Proof.
  intros Hsrc Hi Hn Hl. eexists. split; [|split; [|reflexivity]].
  - by apply be_bytes_ok, Forall_slice.
  - rewrite be_bytes_length, slice_length; lia.
Qed.

(** Reading: the bytes of the registers, or [MB_ENOREG] and nothing. *)
Lemma demo_input_spec r buf p addr n :
  demo_wf r -> is_u16 n -> 0 <= p -> p + 2 * n <= Zlen buf ->
  demo_eMBRegInputCB r buf p addr n =
    if bool_decide (REG_INPUT_START <= addr /\ addr + n <= REG_INPUT_START + REG_INPUT_NREGS)
    then Ok (r, splice buf p (be_bytes (slice (usRegInputBuf r) (addr - REG_INPUT_START) n)),
             MB_ENOERR)
    else Ok (r, buf, MB_ENOREG).
Proof.
  intros Hr Hn Hp Hl. unfold demo_eMBRegInputCB. unfold_demo. unfold is_u16 in Hn.
  destruct (_ && _)%bool eqn:Hg; zify_bool; try lia; try done.
  rewrite regs_to_bytes_spec by (apply Hr || lia). by rewrite Z2Nat.id by lia.
Qed.

Lemma demo_holding_read_spec r buf p addr n :
  demo_wf r -> is_u16 n -> 0 <= p -> p + 2 * n <= Zlen buf ->
  demo_eMBRegHoldingCB r buf p addr n MB_REG_READ =
    if bool_decide (REG_HOLDING_START <= addr /\
                    addr + n <= REG_HOLDING_START + REG_HOLDING_NREGS)
    then Ok (r, splice buf p
                  (be_bytes (slice (usRegHoldingBuf r) (addr - REG_HOLDING_START) n)),
             MB_ENOERR)
    else Ok (r, buf, MB_ENOREG).
Proof.
  intros Hr Hn Hp Hl. unfold demo_eMBRegHoldingCB. unfold_demo. unfold is_u16 in Hn.
  destruct (_ && _)%bool eqn:Hg; zify_bool; try lia; try done.
  rewrite regs_to_bytes_spec by (apply Hr || lia). by rewrite Z2Nat.id by lia.
Qed.

Lemma demo_holding_write_spec r buf p addr n :
  demo_wf r -> bytes_ok buf -> is_u16 n -> 0 <= p -> p + 2 * n <= Zlen buf ->
  demo_eMBRegHoldingCB r buf p addr n MB_REG_WRITE =
    if bool_decide (REG_HOLDING_START <= addr /\
                    addr + n <= REG_HOLDING_START + REG_HOLDING_NREGS)
    then Ok (DemoRegs (usRegInputBuf r)
               (splice (usRegHoldingBuf r) (addr - REG_HOLDING_START)
                       (be_words (slice buf p (2 * n)))),
             buf, MB_ENOERR)
    else Ok (r, buf, MB_ENOREG).
Proof.
  intros Hr Hb Hn Hp Hl. unfold demo_eMBRegHoldingCB. unfold_demo. unfold is_u16 in Hn.
  destruct (_ && _)%bool eqn:Hg; zify_bool; try lia; try done.
  rewrite bytes_to_regs_spec by (done || lia). by rewrite Z2Nat.id by lia.
Qed.

Lemma demo_wf_write r xs i :
  demo_wf r -> Forall is_u16 xs -> 0 <= i -> i + Zlen xs <= REG_HOLDING_NREGS ->
  demo_wf (DemoRegs (usRegInputBuf r) (splice (usRegHoldingBuf r) i xs)).
Proof.
  intros (H1 & H2 & H3 & H4) Hxs Hi Hl. repeat split; try done; cbn [usRegHoldingBuf].
  - rewrite splice_length; lia.
  - by apply Forall_splice.
Qed.

Lemma be_words_slice buf p n :
  bytes_ok buf -> 0 <= p -> 0 <= n -> p + 2 * n <= Zlen buf ->
  Zlen (be_words (slice buf p (2 * n))) = n /\ Forall is_u16 (be_words (slice buf p (2 * n))) /\
  be_bytes (be_words (slice buf p (2 * n))) = slice buf p (2 * n).
Proof.
  intros Hb Hp Hn Hl. pose proof (slice_length buf p (2 * n) ltac:(lia) ltac:(lia) Hl) as L.
  destruct (be_words_spec (Z.to_nat n) (slice buf p (2 * n))) as (? & ? & ?).
  - unfold Zlen in L. lia.
  - by apply Forall_slice.
  - unfold Zlen. split; [lia | done].
Qed.

#[global] Instance demo_RegCBLaws : RegCBLaws demo_regs demo_wf.
Proof.
  split; cbn [eMBRegInputCB eMBRegHoldingCB eMBRegCoilsCB eMBRegDiscreteCB demo_RegCB];
    intros r buf p addr n Hr Hb Ha Hn Hp Hl; pose proof Hn as [Hn0 _];
    assert (0 <= (n + 7) `div` 8) by (apply Z.div_pos; lia).
  - rewrite demo_input_spec by done. zify_bool; do 3 eexists; (split; [done|]);
      (split; [done|]); [|apply touches_none; lia || done].
    apply touches_be_bytes; try apply Hr; unfold_demo; lia.
  - rewrite demo_holding_read_spec by done. zify_bool; do 3 eexists; (split; [done|]);
      (split; [done|]); [|apply touches_none; lia || done].
    apply touches_be_bytes; try apply Hr; unfold_demo; lia.
  - rewrite demo_holding_write_spec by done.
    destruct (be_words_slice buf p n) as (L & W & _); [done | lia.. |].
    zify_bool; do 2 eexists; (split; [done|]); [|done].
    apply demo_wf_write; try done; unfold_demo; lia.
  - do 3 eexists. do 2 (split; [done|]). apply touches_none; lia || done.
  - by do 2 eexists.
  - do 3 eexists. do 2 (split; [done|]). apply touches_none; lia || done.
Qed.

(** ** Requests served end to end *)

(** The bytes [bs] of a PDU stand in the frame buffer from offset [p] on. *)
Definition pdu_at (buf : list Z) (p : Z) (bs : list Z) : Prop :=
  0 <= p /\ p + Zlen bs <= Zlen buf /\ slice buf p (Zlen bs) = bs.

Lemma pdu_rd buf p bs (k : nat) x :
  pdu_at buf p bs -> bs !! k = Some x -> rd buf (p + Z.of_nat k) = Ok x.
Proof.
  intros (Hp & Hl & E) Hk. apply (rd_of_slice buf p (Zlen bs)); [done|]. by rewrite E.
Qed.

Lemma pdu_ushort buf p bs (k : nat) hi lo :
  pdu_at buf p bs -> bytes_ok buf -> bs !! k = Some hi -> bs !! S k = Some lo ->
  rd_ushort buf (p + Z.of_nat k) = Ok (hi * 256 + lo).
Proof.
  intros Hpdu Hb Hhi Hlo. unfold rd_ushort.
  pose proof (pdu_rd _ _ _ _ _ Hpdu Hhi) as R1. pose proof (pdu_rd _ _ _ _ _ Hpdu Hlo) as R2.
  replace (p + Z.of_nat (S k)) with (p + Z.of_nat k + 1) in R2 by lia.
  rewrite R1, R2, !bind_Ok_l. by rewrite be16_decode by eauto with arr.
Qed.

(** A header of two bytes and then the data is one splice. *)
Lemma header_then_data (buf : list Z) (p c n : Z) (xs : list Z) :
  0 <= p -> p + 2 + Zlen xs <= Zlen buf ->
  splice (<[Z.to_nat (p + 1):=n]> (<[Z.to_nat p:=c]> buf)) (p + 2) xs =
  splice buf p (c :: n :: xs).
Proof.
  intros Hp Hl. pose proof (Zlen_nonneg xs). replace (p + 2) with (p + 1 + 1) by lia.
  rewrite splice_cons by (rewrite ?Zlen_insert; lia).
  by rewrite splice_cons by (rewrite ?Zlen_cons; lia).
Qed.

(** What the answer to "read [n] holding registers from [addr]" is. *)
Definition read_answer (a : app demo_regs) (buf : list Z) (p addr n : Z) : @hresult demo_regs :=
  if bool_decide (1 <= n <= 125) then
    if bool_decide (REG_HOLDING_START <= addr /\
                    addr + n <= REG_HOLDING_START + REG_HOLDING_NREGS)
    then (a, splice buf p (MB_FUNC_READ_HOLDING_REGISTER :: 2 * n ::
                be_bytes (slice (usRegHoldingBuf (regs a)) (addr - REG_HOLDING_START) n)),
          2 + 2 * n, MB_EX_NONE)
    else (a, splice buf p [MB_FUNC_READ_HOLDING_REGISTER; 2 * n], 2, MB_EX_ILLEGAL_DATA_ADDRESS)
  else (a, buf, 5, MB_EX_ILLEGAL_DATA_VALUE).

Lemma set_regs_id {R} (a : app R) : set_regs a (regs a) = a.
Proof. by destruct a. Qed.

Lemma read_holding_exec a buf p fc ah al ch cl :
  app_ok demo_wf a -> bytes_ok buf -> p + MB_PDU_SIZE_MAX <= Zlen buf ->
  pdu_at buf p [fc; ah; al; ch; cl] ->
  eMBFuncReadHoldingRegister a buf p 5 =
    Ok (read_answer a buf p (u16 (ah * 256 + al + 1)) cl).
Proof.
  intros Ha Hb Hfit Hpdu. pose proof Hpdu as (Hp & _).
  unfold eMBFuncReadHoldingRegister, read_answer. unfold_offs.
  rewrite (proj2 (Z.eqb_eq 5 (4 + 1))) by done.
  change (p + 1) with (p + Z.of_nat 1). rewrite (pdu_ushort _ _ _ 1 ah al) by done.
  change (p + (1 + 2)) with (p + Z.of_nat 3). rewrite (pdu_rd _ _ _ 3 ch) by done.
  replace (p + Z.of_nat 3 + 1) with (p + Z.of_nat 4) by lia.
  rewrite bind_Ok_l, bind_Ok_l. rewrite (pdu_rd _ _ _ 4 cl) by done. rewrite bind_Ok_l.
  assert (Hcl : is_u8 cl). { eapply bytes_rd; [done|]. by apply (pdu_rd _ _ _ 4 cl Hpdu). }
  assert (Hcl16 : is_u16 cl) by auto with mach.
  rewrite Z.add_0_r. destruct (_ && _)%bool eqn:Hg; zify_bool; try done; try lia.
  all: rewrite wr_in_range, bind_Ok_l by lia;
    rewrite wr_in_range, bind_Ok_l by (rewrite Zlen_insert; lia);
    rewrite u8_small by (unfold is_u8; lia);
    change (u16 (u16 (0 + 1) + 1)) with 2;
    cbn [eMBRegHoldingCB demo_RegCB];
    rewrite demo_holding_read_spec by (try apply Ha; rewrite ?Zlen_insert; lia || done).
  - rewrite bool_decide_true by done. cbn [mbind outcome_bind].
    rewrite decide_False by (intros C; by apply C).
    rewrite set_regs_id, header_then_data.
    + rewrite (u16_small (2 + cl * 2)) by (unfold is_u16; lia). by rewrite (Z.mul_comm cl 2).
    + done.
    + rewrite be_bytes_length, slice_length; unfold_demo; try lia.
      destruct Ha as [(_ & _ & -> & _) _]. lia.
  - rewrite bool_decide_false by lia. cbn [mbind outcome_bind].
    rewrite decide_True by done. rewrite set_regs_id. cbn [prveMBError2Exception].
    rewrite <- header_then_data by (simpl; unfold Zlen in *; simpl; lia).
    by rewrite splice_nil, (Z.mul_comm cl 2).
Qed.

(** What "write [n] registers from [addr]" does; the values are the [2 * n]
    bytes after the header in the buffer, whatever the length of the PDU. *)
Definition write_answer (a : app demo_regs) (buf : list Z) (p len addr n bc : Z)
    : @hresult demo_regs :=
  if bool_decide (1 <= n <= 120 /\ bc = 2 * n) then
    if bool_decide (REG_HOLDING_START <= addr /\
                    addr + n <= REG_HOLDING_START + REG_HOLDING_NREGS)
    then (set_regs a (DemoRegs (usRegInputBuf (regs a))
            (splice (usRegHoldingBuf (regs a)) (addr - REG_HOLDING_START)
                    (be_words (slice buf (p + 6) (2 * n))))), buf, 5, MB_EX_NONE)
    else (a, buf, len, MB_EX_ILLEGAL_DATA_ADDRESS)
  else (a, buf, len, MB_EX_ILLEGAL_DATA_VALUE).

Lemma write_multiple_exec a buf p len fc ah al ch cl bc :
  app_ok demo_wf a -> bytes_ok buf -> p + MB_PDU_SIZE_MAX <= Zlen buf -> 6 <= len ->
  pdu_at buf p [fc; ah; al; ch; cl; bc] ->
  eMBFuncWriteMultipleHoldingRegister a buf p len =
    Ok (write_answer a buf p len (u16 (ah * 256 + al + 1)) (ch * 256 + cl) bc).
Proof.
  intros Ha Hb Hfit Hlen Hpdu. pose proof Hpdu as (Hp & _).
  unfold eMBFuncWriteMultipleHoldingRegister, write_answer. unfold_offs.
  rewrite (proj2 (Z.leb_le (5 + 1) len)) by lia.
  change (p + 1) with (p + Z.of_nat 1). rewrite (pdu_ushort _ _ _ 1 ah al) by done.
  change (p + (1 + 2)) with (p + Z.of_nat 3). rewrite (pdu_ushort _ _ _ 3 ch cl) by done.
  change (p + (1 + 4)) with (p + Z.of_nat 5). rewrite (pdu_rd _ _ _ 5 bc) by done.
  rewrite !bind_Ok_l. change (p + (1 + 5)) with (p + 6).
  set (n := ch * 256 + cl). set (addr := u16 (ah * 256 + al + 1)).
  assert (Hguard : ((1 <=? n) && (n <=? 120) && (bc =? u8 (2 * n)))%bool =
                   bool_decide (1 <= n <= 120 /\ bc = 2 * n)).
  { destruct (decide (1 <= n <= 120)).
    - rewrite u8_small by (unfold is_u8; lia). apply eq_iff_eq_true.
      rewrite !andb_true_iff, !Z.leb_le, Z.eqb_eq, bool_decide_eq_true. tauto.
    - rewrite bool_decide_false by tauto.
      destruct (_ && _)%bool eqn:Hg; zify_bool; [lia | done]. }
  rewrite Hguard. case_bool_decide as Hn; [|done].
  cbn [eMBRegHoldingCB demo_RegCB].
  rewrite demo_holding_write_spec by (try apply Ha; try done; unfold is_u16; lia).
  case_bool_decide; cbn [mbind outcome_bind].
  - by rewrite decide_False by (intros C; by apply C).
  - rewrite decide_True by done. by rewrite set_regs_id.
Qed.

(** ** Properties *)

(** the demo's answer to a "read holding registers" PDU, on every branch: the
    count is checked first, then the address range, and the data are the
    registers' bytes, high byte first; registers are not changed.  The count is
    the low byte [cl] alone, whatever the high byte [ch] is. *)
Lemma demo_read_holding a buf p fc ah al ch cl :
  app_ok demo_wf a -> bytes_ok buf -> p + MB_PDU_SIZE_MAX <= Zlen buf ->
  pdu_at buf p [fc; ah; al; ch; cl] ->
  eMBFuncReadHoldingRegister a buf p 5 =
    Ok (read_answer a buf p (u16 (ah * 256 + al + 1)) cl).
Proof. apply read_holding_exec. Qed.

(** A buffer and an application state for the witnesses. *)
Definition demo_regs0 : demo_regs :=
  DemoRegs [11; 12; 13; 14] (seqZ 0 130).
Definition demo_app0 : app demo_regs := App demo_regs0 (replicate 32 0) 0.
Definition frame_of (pdu : list Z) : list Z := [0] ++ pdu ++ replicate (255 - length pdu) 0.

#[local] Instance pdu_at_dec buf p bs : Decision (pdu_at buf p bs).
Proof. unfold pdu_at. apply _. Defined.
#[local] Instance app_ok_demo_dec a : Decision (app_ok demo_wf a).
Proof. unfold app_ok, demo_wf. apply _. Defined.

Lemma demo_read_holding_witness :
  eMBFuncReadHoldingRegister demo_app0 (frame_of [3; 0x07; 0xD1; 0; 2]) 1 5 =
  Ok (demo_app0, frame_of [3; 4; 0; 2; 0; 3], 6, MB_EX_NONE).
Proof.
  rewrite (demo_read_holding demo_app0 (frame_of [3; 0x07; 0xD1; 0; 2]) 1 3 0x07 0xD1 0 2);
    [vm_compute; reflexivity | by_compute..].
Defined.

(** a successful "write multiple registers" is read back: after it, reading
    the same registers answers with exactly the bytes that were written. *)
Lemma demo_write_then_read a buf p fc ah al n vs :
  app_ok demo_wf a -> bytes_ok buf -> p + MB_PDU_SIZE_MAX <= Zlen buf ->
  1 <= n <= 120 -> Zlen vs = 2 * n ->
  pdu_at buf p ([fc; ah; al; 0; n; 2 * n] ++ vs) ->
  REG_HOLDING_START <= u16 (ah * 256 + al + 1) ->
  u16 (ah * 256 + al + 1) + n <= REG_HOLDING_START + REG_HOLDING_NREGS ->
  exists a',
    eMBFuncWriteMultipleHoldingRegister a buf p (6 + 2 * n) = Ok (a', buf, 5, MB_EX_NONE) /\
    app_ok demo_wf a' /\
    forall buf2 p2 fc2,
      bytes_ok buf2 -> p2 + MB_PDU_SIZE_MAX <= Zlen buf2 ->
      pdu_at buf2 p2 [fc2; ah; al; 0; n] ->
      exists buf2', eMBFuncReadHoldingRegister a' buf2 p2 5 =
                      Ok (a', buf2', 2 + 2 * n, MB_EX_NONE) /\
                    slice buf2' p2 (2 + 2 * n) = [MB_FUNC_READ_HOLDING_REGISTER; 2 * n] ++ vs.
Proof.
  intros Ha Hb Hfit Hn Hvs Hpdu Hlo Hhi. set (addr := u16 (ah * 256 + al + 1)) in *.
  pose proof Hpdu as (Hp & Hroom & Hpd). rewrite Zlen_app, Hvs in Hroom, Hpd.
  change (Zlen [fc; ah; al; 0; n; 2 * n]) with 6 in *.
  assert (Hhdr : pdu_at buf p [fc; ah; al; 0; n; 2 * n]).
  { split; [done|]. split; [change (Zlen [fc; ah; al; 0; n; 2 * n]) with 6; lia|].
    by eapply slice_prefix. }
  assert (Hdata : slice buf (p + 6) (2 * n) = vs).
  { apply (slice_suffix buf p 6 (2 * n) [fc; ah; al; 0; n; 2 * n] vs); done || lia. }
  rewrite (write_multiple_exec a buf p (6 + 2 * n) fc ah al 0 n (2 * n)) by (done || lia).
  fold addr. change (0 * 256 + n) with n. unfold write_answer.
  rewrite !bool_decide_true by lia. rewrite Hdata.
  destruct (be_words_slice buf (p + 6) n) as (Lw & Fw & Ew); [done | lia.. |].
  rewrite Hdata in Lw, Fw, Ew.
  eexists. split; [reflexivity|].
  set (a' := set_regs a _).
  assert (Ha' : app_ok demo_wf a').
  { apply app_ok_set_regs; [done|]. apply demo_wf_write; [apply Ha | done | unfold_demo; lia..]. }
  split; [done|]. intros buf2 p2 fc2 Hb2 Hfit2 Hpdu2.
  rewrite (read_holding_exec _ _ _ _ _ _ _ _ Ha' Hb2 Hfit2 Hpdu2). fold addr.
  unfold read_answer. rewrite !bool_decide_true by lia.
  eexists. split; [reflexivity|].
  subst a'. cbn [regs set_regs usRegHoldingBuf].
  destruct Ha as [(_ & _ & Hh & _) _].
  rewrite <- Lw at 2. rewrite slice_splice by (unfold_demo; lia). rewrite Ew.
  replace (2 + 2 * n) with (Zlen (MB_FUNC_READ_HOLDING_REGISTER :: 2 * n :: vs))
    by (rewrite !Zlen_cons; lia).
  apply slice_splice; [apply Hpdu2|]. rewrite Zlen_app, Hvs. change (Zlen [_; _]) with 2.
  unfold MB_PDU_SIZE_MAX in Hfit2. lia.
Qed.

Lemma demo_write_then_read_witness :
  exists a',
    eMBFuncWriteMultipleHoldingRegister demo_app0
      (frame_of [16; 0x07; 0xD1; 0; 2; 4; 1; 2; 3; 4]) 1 10 =
      Ok (a', frame_of [16; 0x07; 0xD1; 0; 2; 4; 1; 2; 3; 4], 5, MB_EX_NONE).
Proof.
  destruct (demo_write_then_read demo_app0
              (frame_of [16; 0x07; 0xD1; 0; 2; 4; 1; 2; 3; 4]) 1 16 0x07 0xD1 2 [1; 2; 3; 4])
    as (a' & Hw & _); [by_compute..|].
  exists a'. exact Hw.
Defined.
