(* ===== verification/MbPort.v ===== *)
(** * FreeModbus: the porting layer seen by the protocol stack

    The one-slot event queue of demo/LINUXTCP/port/portevent.c, and the calls
    the serial modes make to a serial port and a timer.  The tree has no serial
    port (it is built for TCP only), so those calls are kept as a log, newest
    first, and their initialisation functions are parameters where they are
    used. *)

From stdpp Require Import base numbers list.
From S2P Require Import Prelude MbDefs.

#[local] Open Scope Z_scope.

(** ** portevent.c *)

Record events := Events {
  eQueuedEvent : eMBEventType;
  xEventInQueue : bool;
}.

Definition xMBPortEventInit (q : events) : events * bool :=
  (Events (eQueuedEvent q) false, true).

Definition xMBPortEventPost (q : events) (eEvent : eMBEventType) : events * bool :=
  (Events eEvent true, true).

(** [xMBPortEventGet]: the queued event, or a turn of the polling function
    [pool] ([xMBPortTCPPool]), whose result is ignored and whose effect on the
    queue is seen by the next call. *)
Definition xMBPortEventGet {S : Type} (get_q : S -> events) (set_q : S -> events -> S)
    (pool : S -> outcome (S * bool)) (s : S) : outcome (S * option eMBEventType) :=
  let q := get_q s in
  if xEventInQueue q then
    Ok (set_q s (Events (eQueuedEvent q) false), Some (eQueuedEvent q))
  else
    '(s, _) ← pool s;
    Ok (s, None).

(** ** The serial port and timer calls of mbport.h *)

Inductive port_call :=
| SerialEnable (xRxEnable xTxEnable : bool)
| TimersEnable
| TimersDisable
| SerialPutByte (b : Z).

(** What the two serial modes share: the frame buffer [ucRTUBuf] (mbascii.c
    points [ucASCIIBuf] to it), the event queue and the calls made. *)
Record serial := Serial {
  ucRTUBuf : list Z;
  queue : events;
  calls : list port_call;
}.

Definition set_buf (s : serial) (b : list Z) : serial := Serial b (queue s) (calls s).
Definition call (s : serial) (c : port_call) : serial := Serial (ucRTUBuf s) (queue s) (c :: calls s).
Definition post (s : serial) (e : eMBEventType) : serial * bool :=
  let '(q, b) := xMBPortEventPost (queue s) e in (Serial (ucRTUBuf s) q (calls s), b).

(** *** What the log says of the port

    mbport.h: the receiver and the transmitter interrupts are enabled as the
    last [vMBPortSerialEnable] said, and the timer runs since the last
    [vMBPortTimersEnable] unless it was disabled after it. *)

Fixpoint rx_on (cs : list port_call) : bool :=
  match cs with
  | [] => false
  | SerialEnable rx _ :: _ => rx
  | _ :: cs => rx_on cs
  end.

Fixpoint tx_on (cs : list port_call) : bool :=
  match cs with
  | [] => false
  | SerialEnable _ tx :: _ => tx
  | _ :: cs => tx_on cs
  end.

Fixpoint timer_on (cs : list port_call) : bool :=
  match cs with
  | [] => false
  | TimersEnable :: _ => true
  | TimersDisable :: _ => false
  | _ :: cs => timer_on cs
  end.

(** The bytes put on the line, oldest first. *)
Fixpoint line_out (cs : list port_call) : list Z :=
  match cs with
  | [] => []
  | SerialPutByte b :: cs => line_out cs ++ [b]
  | _ :: cs => line_out cs
  end.

(** ** Lemmas *)

(** A posted event is what the next [xMBPortEventGet] returns, and only once. *)
Lemma post_then_get {S : Type} get_q set_q pool (s : S) q e :
  get_q s = fst (xMBPortEventPost q e) ->
  xMBPortEventGet get_q set_q pool s = Ok (set_q s (Events e false), Some e).
Proof. unfold xMBPortEventGet. by intros ->. Qed.
