(* ===== verification/MbRtu.v ===== *)
(** * FreeModbus: Modbus RTU (modbus/rtu/mbrtu.c)

    The receive and transmit state machines run by the serial and timer
    interrupts, and the frame functions the protocol stack calls.  A byte read
    by [xMBPortSerialGetByte] is an argument of the receive machine. *)

From stdpp Require Import base numbers list relations.
From S2P Require Import Prelude Crc MbDefs MbPort.

#[local] Open Scope Z_scope.

Definition MB_SER_PDU_SIZE_MIN : Z := 4.
Definition MB_SER_PDU_SIZE_MAX : Z := 256.
Definition MB_SER_PDU_SIZE_CRC : Z := 2.
Definition MB_SER_PDU_ADDR_OFF : Z := 0.
Definition MB_SER_PDU_PDU_OFF : Z := 1.

Inductive eMBRcvState := STATE_RX_INIT | STATE_RX_IDLE | STATE_RX_RCV | STATE_RX_ERROR.
Inductive eMBSndState := STATE_TX_IDLE | STATE_TX_XMIT.

#[global] Instance eMBRcvState_eq_dec : EqDecision eMBRcvState.
Proof. solve_decision. Defined.
#[global] Instance eMBSndState_eq_dec : EqDecision eMBSndState.
Proof. solve_decision. Defined.

(** The static variables of mbrtu.c ([ucRTUBuf] is in [serial]);
    [pucSndBufferCur] is an offset in [ucRTUBuf]. *)
Record rtu := Rtu {
  eSndState : eMBSndState;
  eRcvState : eMBRcvState;
  pucSndBufferCur : Z;
  usSndBufferCount : Z;
  usRcvBufferPos : Z;
}.

Definition set_rcv (r : rtu) (st : eMBRcvState) : rtu :=
  Rtu (eSndState r) st (pucSndBufferCur r) (usSndBufferCount r) (usRcvBufferPos r).
Definition set_snd (r : rtu) (st : eMBSndState) : rtu :=
  Rtu st (eRcvState r) (pucSndBufferCur r) (usSndBufferCount r) (usRcvBufferPos r).

(** The reload value of the t3.5 timer, in units of 50us. *)
Definition usTimerT35_50us (ulBaudRate : Z) : outcome Z :=
  if 19200 <? ulBaudRate then Ok 35
  else if ulBaudRate =? 0 then Fault DivByZero
  else Ok ((7 * 220000) `div` (2 * ulBaudRate)).

Definition eMBRTUInit (xMBPortSerialInit : Z -> Z -> Z -> eMBParity -> bool)
    (xMBPortTimersInit : Z -> bool)
    (ucPort ulBaudRate : Z) (eParity : eMBParity) : outcome eMBErrorCode :=
  if negb (xMBPortSerialInit ucPort ulBaudRate 8 eParity) then Ok MB_EPORTERR
  else
    t ← usTimerT35_50us ulBaudRate;
    if negb (xMBPortTimersInit (u16 t)) then Ok MB_EPORTERR else Ok MB_ENOERR.

Definition eMBRTUStart (r : rtu) (s : serial) : rtu * serial :=
  (set_rcv r STATE_RX_INIT, call (call s (SerialEnable true false)) TimersEnable).

Definition eMBRTUStop (r : rtu) (s : serial) : rtu * serial :=
  (r, call (call s (SerialEnable false false)) TimersDisable).

(** The out-parameters (address, frame offset, length) are assigned only when a
    frame is accepted. *)
Definition eMBRTUReceive (r : rtu) (s : serial)
    : outcome (eMBErrorCode * option (Z * Z * Z)) :=
  _ ← assert_ (usRcvBufferPos r <? MB_SER_PDU_SIZE_MAX);
  if MB_SER_PDU_SIZE_MIN <=? usRcvBufferPos r then
    crc ← usMBCRC16 (ucRTUBuf s) 0 (usRcvBufferPos r);
    if crc =? 0 then
      addr ← rd (ucRTUBuf s) MB_SER_PDU_ADDR_OFF;
      Ok (MB_ENOERR,
          Some (addr, MB_SER_PDU_PDU_OFF,
                u16 (usRcvBufferPos r - MB_SER_PDU_PDU_OFF - MB_SER_PDU_SIZE_CRC)))
    else Ok (MB_EIO, None)
  else Ok (MB_EIO, None).

(** [pucFrame] is an offset in [ucRTUBuf]: the stack sends from the buffer
    [eMBRTUReceive] returned. *)
Definition eMBRTUSend (r : rtu) (s : serial) (ucSlaveAddress pucFrame usLength : Z)
    : outcome (rtu * serial * eMBErrorCode) :=
  if decide (eRcvState r = STATE_RX_IDLE) then
    let cur := pucFrame - 1 in
    let count := 1 in
    buf ← wr (ucRTUBuf s) (cur + MB_SER_PDU_ADDR_OFF) ucSlaveAddress;
    let count := u16 (count + usLength) in
    usCRC16 ← usMBCRC16 buf cur count;
    buf ← wr buf count (u8 (Z.land usCRC16 0xFF));
    let count := u16 (count + 1) in
    buf ← wr buf count (u8 (Z.shiftr usCRC16 8));
    let count := u16 (count + 1) in
    Ok (Rtu STATE_TX_XMIT (eRcvState r) cur count (usRcvBufferPos r),
        call (set_buf s buf) (SerialEnable false true), MB_ENOERR)
  else Ok (r, s, MB_EIO).

Definition xMBRTUReceiveFSM (r : rtu) (s : serial) (ucByte : Z)
    : outcome (rtu * serial * bool) :=
  _ ← assert_ (bool_decide (eSndState r = STATE_TX_IDLE));
  match eRcvState r with
  | STATE_RX_INIT => Ok (r, call s TimersEnable, false)
  | STATE_RX_ERROR => Ok (r, call s TimersEnable, false)
  | STATE_RX_IDLE =>
      let pos := 0 in
      buf ← wr (ucRTUBuf s) pos ucByte;
      Ok (Rtu (eSndState r) STATE_RX_RCV (pucSndBufferCur r) (usSndBufferCount r) (u16 (pos + 1)),
          call (set_buf s buf) TimersEnable, false)
  | STATE_RX_RCV =>
      if usRcvBufferPos r <? MB_SER_PDU_SIZE_MAX then
        buf ← wr (ucRTUBuf s) (usRcvBufferPos r) ucByte;
        Ok (Rtu (eSndState r) STATE_RX_RCV (pucSndBufferCur r) (usSndBufferCount r)
                (u16 (usRcvBufferPos r + 1)),
            call (set_buf s buf) TimersEnable, false)
      else Ok (set_rcv r STATE_RX_ERROR, call s TimersEnable, false)
  end.

Definition xMBRTUTransmitFSM (r : rtu) (s : serial) : outcome (rtu * serial * bool) :=
  _ ← assert_ (bool_decide (eRcvState r = STATE_RX_IDLE));
  match eSndState r with
  | STATE_TX_IDLE => Ok (r, call s (SerialEnable true false), false)
  | STATE_TX_XMIT =>
      if negb (usSndBufferCount r =? 0) then
        b ← rd (ucRTUBuf s) (pucSndBufferCur r);
        Ok (Rtu (eSndState r) (eRcvState r) (pucSndBufferCur r + 1)
                (u16 (usSndBufferCount r - 1)) (usRcvBufferPos r),
            call s (SerialPutByte b), false)
      else
        let '(s, xNeedPoll) := post s EV_FRAME_SENT in
        Ok (set_snd r STATE_TX_IDLE, call s (SerialEnable true false), xNeedPoll)
  end.

Definition xMBRTUTimerT35Expired (r : rtu) (s : serial) : outcome (rtu * serial * bool) :=
  '(s, xNeedPoll) ←
    match eRcvState r with
    | STATE_RX_INIT => Ok (post s EV_READY)
    | STATE_RX_RCV => Ok (post s EV_FRAME_RECEIVED)
    | STATE_RX_ERROR => Ok (s, false)
    | STATE_RX_IDLE => Fault AssertFailed
    end;
  Ok (set_rcv r STATE_RX_IDLE, call s TimersDisable, xNeedPoll).

(** A run of bytes from the line. *)
Fixpoint rtu_feed (r : rtu) (s : serial) (bs : list Z) : outcome (rtu * serial) :=
  match bs with
  | [] => Ok (r, s)
  | b :: bs =>
      '(r, s, _) ← xMBRTUReceiveFSM r s b;
      rtu_feed r s bs
  end.

(** [n] transmitter-empty interrupts. *)
Fixpoint rtu_drain (n : nat) (r : rtu) (s : serial) : outcome (rtu * serial) :=
  match n with
  | O => Ok (r, s)
  | S n =>
      '(r, s, _) ← xMBRTUTransmitFSM r s;
      rtu_drain n r s
  end.

(** ** Reception *)

Definition mem_ok (s : serial) : Prop :=
  Zlen (ucRTUBuf s) = MB_SER_PDU_SIZE_MAX /\ bytes_ok (ucRTUBuf s).

#[global] Instance mem_ok_dec s : Decision (mem_ok s).
Proof. unfold mem_ok. apply _. Defined.

(** A whole part of a frame received in [STATE_RX_RCV]. *)
Lemma rtu_feed_rcv bs r s :
  eSndState r = STATE_TX_IDLE -> eRcvState r = STATE_RX_RCV ->
  Zlen (ucRTUBuf s) = MB_SER_PDU_SIZE_MAX ->
  0 <= usRcvBufferPos r -> usRcvBufferPos r + Zlen bs <= MB_SER_PDU_SIZE_MAX ->
  exists cs,
    rtu_feed r s bs =
      Ok (Rtu STATE_TX_IDLE STATE_RX_RCV (pucSndBufferCur r) (usSndBufferCount r)
              (usRcvBufferPos r + Zlen bs),
          Serial (splice (ucRTUBuf s) (usRcvBufferPos r) bs) (queue s) cs).
Proof.
  revert r s. induction bs as [|b bs IH]; intros r s Hs Hr Hm Hp Hfit.
  - exists (calls s). destruct r, s; simpl in *. subst. rewrite splice_nil.
    change (Zlen []) with 0. by rewrite Z.add_0_r.
  - rewrite Zlen_cons in *. unfold MB_SER_PDU_SIZE_MAX in *. pose proof (Zlen_nonneg bs).
    cbn [rtu_feed]. unfold xMBRTUReceiveFSM. rewrite Hs, Hr. rewrite bool_decide_true by done.
    cbn [assert_ mbind outcome_bind]. rewrite (proj2 (Z.ltb_lt _ _)) by (unfold MB_SER_PDU_SIZE_MAX; lia).
    rewrite wr_in_range by lia. cbn [mbind outcome_bind].
    rewrite u16_small by (unfold is_u16; lia).
    destruct (IH (Rtu STATE_TX_IDLE STATE_RX_RCV (pucSndBufferCur r) (usSndBufferCount r)
                      (usRcvBufferPos r + 1))
                 (call (set_buf s (<[Z.to_nat (usRcvBufferPos r):=b]> (ucRTUBuf s))) TimersEnable))
      as [cs Hcs]; simpl; try done; try lia; [by rewrite Zlen_insert|].
    exists cs. rewrite Hcs. simpl. rewrite splice_cons by lia. do 3 f_equal. lia.
Qed.

(** The first byte of a frame, in [STATE_RX_IDLE]. *)
Lemma rtu_feed_idle bs r s :
  eSndState r = STATE_TX_IDLE -> eRcvState r = STATE_RX_IDLE ->
  Zlen (ucRTUBuf s) = MB_SER_PDU_SIZE_MAX ->
  1 <= Zlen bs <= MB_SER_PDU_SIZE_MAX ->
  exists cs,
    rtu_feed r s bs =
      Ok (Rtu STATE_TX_IDLE STATE_RX_RCV (pucSndBufferCur r) (usSndBufferCount r) (Zlen bs),
          Serial (splice (ucRTUBuf s) 0 bs) (queue s) cs).
Proof.
  intros Hs Hr Hm Hfit. destruct bs as [|b bs]; [by destruct Hfit|].
  rewrite Zlen_cons in *. unfold MB_SER_PDU_SIZE_MAX in *. pose proof (Zlen_nonneg bs).
  cbn [rtu_feed]. unfold xMBRTUReceiveFSM. rewrite Hs, Hr. rewrite bool_decide_true by done.
  cbn [assert_ mbind outcome_bind]. rewrite wr_in_range by lia. cbn [mbind outcome_bind].
  change (u16 (0 + 1)) with 1.
  destruct (rtu_feed_rcv bs
              (Rtu STATE_TX_IDLE STATE_RX_RCV (pucSndBufferCur r) (usSndBufferCount r) 1)
              (call (set_buf s (<[Z.to_nat 0:=b]> (ucRTUBuf s))) TimersEnable))
    as [cs Hcs]; simpl; unfold MB_SER_PDU_SIZE_MAX; try done; try lia; [by rewrite Zlen_insert|].
  exists cs. rewrite Hcs. simpl. rewrite <- (splice_cons (ucRTUBuf s) 0 b bs) by lia.
  do 3 f_equal. lia.
Qed.

(** In the error state every byte is dropped. *)
Lemma rtu_feed_error bs r s :
  eSndState r = STATE_TX_IDLE -> eRcvState r = STATE_RX_ERROR ->
  exists cs, rtu_feed r s bs = Ok (r, Serial (ucRTUBuf s) (queue s) cs).
Proof.
  intros Hs Hr. revert s. induction bs as [|b bs IH]; intros s.
  - exists (calls s). by destruct s.
  - cbn [rtu_feed]. unfold xMBRTUReceiveFSM. rewrite Hs, Hr, bool_decide_true by done.
    cbn [assert_ mbind outcome_bind]. apply (IH (call s TimersEnable)).
Qed.

Lemma rtu_feed_app bs1 bs2 r s :
  rtu_feed r s (bs1 ++ bs2) = ('(r, s) ← rtu_feed r s bs1; rtu_feed r s bs2).
Proof.
  revert r s. induction bs1 as [|b bs1 IH]; intros r s; [done|]. simpl.
  destruct (xMBRTUReceiveFSM r s b) as [[[r1 s1] p]|]; [apply IH | done].
Qed.

(** More bytes than a frame may have. *)
Lemma rtu_feed_overflow bs r s :
  eSndState r = STATE_TX_IDLE -> eRcvState r = STATE_RX_IDLE ->
  Zlen (ucRTUBuf s) = MB_SER_PDU_SIZE_MAX -> MB_SER_PDU_SIZE_MAX < Zlen bs ->
  exists r' b' cs, rtu_feed r s bs = Ok (r', Serial b' (queue s) cs) /\
                   eSndState r' = STATE_TX_IDLE /\ eRcvState r' = STATE_RX_ERROR.
Proof.
  intros Hs Hr Hm Hlong. unfold MB_SER_PDU_SIZE_MAX in *.
  assert (Hl : Zlen (take 256 bs) = 256) by (unfold Zlen in *; rewrite length_take; lia).
  destruct (drop 256 bs) as [|c rest] eqn:Hd.
  { apply (f_equal length) in Hd. rewrite length_drop in Hd. unfold Zlen in *. simpl in Hd. lia. }
  rewrite <- (take_drop 256 bs), Hd, rtu_feed_app.
  destruct (rtu_feed_idle (take 256 bs) r s) as [cs ->];
    try done; unfold MB_SER_PDU_SIZE_MAX; try lia.
  rewrite Hl. cbn [mbind outcome_bind rtu_feed].
  unfold xMBRTUReceiveFSM. simpl eSndState. rewrite bool_decide_true by done.
  cbn [assert_ mbind outcome_bind eRcvState usRcvBufferPos].
  rewrite (proj2 (Z.ltb_ge _ _)) by (unfold MB_SER_PDU_SIZE_MAX; lia). cbn [mbind outcome_bind].
  match goal with |- context [rtu_feed ?r1 ?s1 rest] =>
    destruct (rtu_feed_error rest r1 s1) as [cs2 ->]; try done end.
  do 3 eexists. split; [reflexivity|]. done.
Qed.

(** ** Frames *)

(** A Modbus RTU frame: address, PDU, checksum low byte first. *)
Definition rtu_frame (addr : Z) (pdu : list Z) : list Z :=
  (addr :: pdu) ++ [crc_ref (addr :: pdu) `mod` 256; crc_ref (addr :: pdu) `div` 256].

Lemma rtu_frame_length addr pdu : Zlen (rtu_frame addr pdu) = Zlen pdu + 3.
Proof. unfold rtu_frame, Zlen. rewrite length_app. simpl. lia. Qed.

Lemma crc_ref_u16 bs : bytes_ok bs -> is_u16 (crc_ref bs).
Proof. intros. by apply crc_fold_range. Qed.

Lemma rtu_frame_bytes addr pdu : is_u8 addr -> bytes_ok pdu -> bytes_ok (rtu_frame addr pdu).
Proof.
  intros Ha Hp. assert (Hb : bytes_ok (addr :: pdu)) by auto with arr.
  destruct (hi_lo_of_u16 _ (crc_ref_u16 _ Hb)) as (? & ? & _).
  unfold rtu_frame. auto with arr.
Qed.

Lemma rtu_frame_crc addr pdu :
  is_u8 addr -> bytes_ok pdu -> crc_ref (rtu_frame addr pdu) = 0.
Proof.
  intros Ha Hp. assert (Hb : bytes_ok (addr :: pdu)) by auto with arr.
  destruct (hi_lo_of_u16 _ (crc_ref_u16 _ Hb)) as (? & ? & _).
  unfold rtu_frame. by apply crc_ref_trailer.
Qed.

(** At least four bytes with checksum zero are a frame. *)
Lemma crc_zero_frame bs :
  bytes_ok bs -> 4 <= Zlen bs -> crc_ref bs = 0 ->
  exists addr pdu, bs = rtu_frame addr pdu /\ 1 <= Zlen pdu.
Proof.
  intros Hb Hl Hc. unfold Zlen in *.
  destruct bs as [|hi bs'] using rev_ind; [simpl in Hl; lia|]. clear IHbs'.
  destruct bs' as [|lo bs'' _] using rev_ind; [simpl in Hl; lia|].
  rewrite !length_app in Hl. simpl in Hl.
  destruct bs'' as [|addr pdu]; [simpl in Hl; lia|].
  rewrite <- app_assoc in *. apply Forall_app in Hb as [Hb1 Hb2]. simpl app in Hb2, Hc. inversion Hb2 as [|? ? Hlo Hb3]; subst.
  inversion Hb3; subst.
  apply (crc_ref_trailer (addr :: pdu)) in Hc as [-> ->]; [|done..].
  exists addr, pdu. split; [done|]. simpl in Hl. lia.
Qed.

(** The answer of [eMBRTUReceive] when the bytes [bs] are in the buffer. *)
Lemma rtu_receive_crc r s bs :
  mem_ok s -> usRcvBufferPos r = Zlen bs -> slice (ucRTUBuf s) 0 (Zlen bs) = bs ->
  4 <= Zlen bs < MB_SER_PDU_SIZE_MAX ->
  eMBRTUReceive r s =
    if crc_ref bs =? 0
    then Ok (MB_ENOERR, Some (hd 0 bs, MB_SER_PDU_PDU_OFF, Zlen bs - 3))
    else Ok (MB_EIO, None).
Proof.
  intros [Hm Hb] Hpos Hbs Hl. unfold eMBRTUReceive. rewrite Hpos.
  unfold MB_SER_PDU_SIZE_MAX in *.
  unfold MB_SER_PDU_SIZE_MIN, MB_SER_PDU_SIZE_MAX, MB_SER_PDU_PDU_OFF, MB_SER_PDU_SIZE_CRC.
  rewrite (proj2 (Z.ltb_lt _ _)) by lia. rewrite (proj2 (Z.leb_le _ _)) by lia.
  cbn [assert_ mbind outcome_bind].
  rewrite usMBCRC16_ref by (done || lia). rewrite Hbs, bind_Ok_l.
  destruct (crc_ref bs =? 0); [|done].
  destruct bs as [|a bs]; [by destruct Hl|].
  change MB_SER_PDU_ADDR_OFF with (0 + Z.of_nat 0).
  rewrite (rd_of_slice _ 0 (Zlen (a :: bs)) 0 a) by (try done; by rewrite Hbs).
  rewrite bind_Ok_l. rewrite u16_small by (unfold is_u16; lia). 
  by replace (Zlen (a :: bs) - 1 - 2) with (Zlen (a :: bs) - 3) by lia.
Qed.

Lemma rtu_receive_short r s :
  usRcvBufferPos r < MB_SER_PDU_SIZE_MIN -> eMBRTUReceive r s = Ok (MB_EIO, None).
Proof.
  intros Hp. unfold eMBRTUReceive, MB_SER_PDU_SIZE_MIN, MB_SER_PDU_SIZE_MAX in *.
  rewrite (proj2 (Z.ltb_lt _ _)) by lia. by rewrite (proj2 (Z.leb_gt _ _)) by lia.
Qed.

(** A frame in the buffer is accepted and located. *)
Lemma rtu_receive_frame r s addr pdu :
  mem_ok s -> usRcvBufferPos r = Zlen (rtu_frame addr pdu) ->
  slice (ucRTUBuf s) 0 (Zlen (rtu_frame addr pdu)) = rtu_frame addr pdu ->
  is_u8 addr -> bytes_ok pdu -> 1 <= Zlen pdu <= 252 ->
  eMBRTUReceive r s = Ok (MB_ENOERR, Some (addr, MB_SER_PDU_PDU_OFF, Zlen pdu)).
Proof.
  intros Hm Hpos Hs Ha Hp Hl.
  rewrite (rtu_receive_crc r s (rtu_frame addr pdu)); try done.
  - rewrite rtu_frame_crc by done. rewrite rtu_frame_length.
    by replace (Zlen pdu + 3 - 3) with (Zlen pdu) by lia.
  - rewrite rtu_frame_length. unfold MB_SER_PDU_SIZE_MAX. lia.
Qed.

(** ** Transmission *)

(** [eMBRTUSend] completes the frame in place. *)
Lemma rtu_send_frame r s addr pdu :
  mem_ok s -> eRcvState r = STATE_RX_IDLE -> is_u8 addr -> bytes_ok pdu ->
  Zlen pdu <= 253 -> slice (ucRTUBuf s) 1 (Zlen pdu) = pdu ->
  exists s',
    eMBRTUSend r s addr 1 (Zlen pdu) =
      Ok (Rtu STATE_TX_XMIT STATE_RX_IDLE 0 (Zlen pdu + 3) (usRcvBufferPos r), s', MB_ENOERR) /\
    mem_ok s' /\ queue s' = queue s /\ calls s' = SerialEnable false true :: calls s /\
    slice (ucRTUBuf s') 0 (Zlen pdu + 3) = rtu_frame addr pdu.
Proof.
  intros [Hm Hb] Hr Ha Hp Hl Hpdu. unfold eMBRTUSend. rewrite decide_True by done.
  unfold MB_SER_PDU_SIZE_MAX, MB_SER_PDU_ADDR_OFF in *. pose proof (Zlen_nonneg pdu).
  change (1 - 1) with 0. change (0 + 0) with 0.
  destruct (ucRTUBuf s) as [|x buf] eqn:Ebuf; [done|].
  rewrite Zlen_cons in Hm. inversion Hb as [|? ? _ Hb']; subst.
  assert (Hpre : slice buf 0 (Zlen pdu) = pdu).
  { rewrite <- Hpdu at 2. unfold slice. done. }
  rewrite wr_in_range by (rewrite Zlen_cons; lia). rewrite bind_Ok_l.
  change (<[Z.to_nat 0:=addr]> (x :: buf)) with (addr :: buf).
  rewrite (u16_small (1 + Zlen pdu)) by (unfold is_u16; lia).
  rewrite usMBCRC16_ref by (auto with arr || (rewrite ?Zlen_cons; lia)). rewrite bind_Ok_l.
  assert (Eframe : slice (addr :: buf) 0 (1 + Zlen pdu) = addr :: pdu).
  { rewrite (slice_cons _ 0 _ addr) by (done || lia). f_equal. rewrite <- Hpre at 2.
    unfold slice. simpl. do 2 f_equal. lia. }
  rewrite Eframe. set (c := crc_ref (addr :: pdu)).
  assert (Hc : is_u16 c) by (apply crc_ref_u16; auto with arr).
  destruct (hi_lo_of_u16 _ Hc) as (Hh & Hlo & _).
  rewrite land_255, shiftr_8, !u8_small by done.
  rewrite (u16_small (1 + Zlen pdu + 1)), (u16_small (1 + Zlen pdu + 1 + 1))
    by (unfold is_u16; lia).
  rewrite wr_in_range, bind_Ok_l by (rewrite Zlen_cons; lia).
  rewrite wr_in_range, bind_Ok_l by (rewrite Zlen_insert, Zlen_cons; lia).
  set (buf' := <[_ := _]> _).
  exists (call (set_buf s buf') (SerialEnable false true)).
  assert (Hsp : buf' = splice (addr :: buf) (1 + Zlen pdu) [c `mod` 256; c `div` 256]).
  { subst buf'. rewrite <- splice_cons
      by (rewrite ?Zlen_cons; change (Zlen (@nil Z)) with 0; lia).
    rewrite <- splice_cons
      by (rewrite ?Zlen_insert, ?Zlen_cons; change (Zlen (@nil Z)) with 0; lia).
    by rewrite splice_nil. }
  split; [|split; [|split; [done|split; [done|]]]].
  - rewrite Hr. do 4 f_equal. lia.
  - split; simpl ucRTUBuf; unfold MB_SER_PDU_SIZE_MAX; subst buf'; [rewrite !Zlen_insert, Zlen_cons; lia|].
    repeat apply Forall_insert; auto with arr.
  - simpl ucRTUBuf. rewrite Hsp. unfold rtu_frame. fold c.
    rewrite <- Eframe. unfold slice, splice, Zlen in *. change (Z.to_nat 0) with 0%nat.
    rewrite !drop_0. rewrite app_assoc. rewrite take_app_le.
    + apply take_ge. rewrite length_app, length_take. simpl. lia.
    + rewrite length_app, length_take. simpl. lia.
Qed.

(** The transmit interrupts put the buffer on the line. *)
Lemma rtu_drain_xmit n cur pos s :
  0 <= cur -> cur + Z.of_nat n <= Zlen (ucRTUBuf s) -> Z.of_nat n < 65536 ->
  exists cs,
    rtu_drain n (Rtu STATE_TX_XMIT STATE_RX_IDLE cur (Z.of_nat n) pos) s =
      Ok (Rtu STATE_TX_XMIT STATE_RX_IDLE (cur + Z.of_nat n) 0 pos,
          Serial (ucRTUBuf s) (queue s) cs) /\
    line_out cs = line_out (calls s) ++ slice (ucRTUBuf s) cur (Z.of_nat n).
Proof.
  revert cur s. induction n as [|n IH]; intros cur s Hc Hfit Hn.
  - exists (calls s). rewrite slice_0 by done. rewrite app_nil_r, Z.add_0_r. by destruct s.
  - cbn [rtu_drain]. unfold xMBRTUTransmitFSM. cbn [eRcvState eSndState usSndBufferCount pucSndBufferCur usRcvBufferPos].
    rewrite bool_decide_true by done. cbn [assert_ mbind outcome_bind].
    rewrite (proj2 (Z.eqb_neq _ _)) by lia. cbn [negb].
    destruct (rd_in_range (ucRTUBuf s) cur) as [b Eb]; [lia|]. rewrite Eb. cbn [mbind outcome_bind].
    replace (u16 (Z.of_nat (S n) - 1)) with (Z.of_nat n)
      by (rewrite u16_small; unfold is_u16; lia).
    destruct (IH (cur + 1) (call s (SerialPutByte b))) as (cs & -> & Hout); simpl ucRTUBuf; try lia.
    exists cs. split; [do 3 f_equal; lia|].
    rewrite Hout, (slice_cons _ cur (Z.of_nat (S n)) b) by (done || lia).
    simpl. rewrite <- app_assoc. simpl. do 3 f_equal. lia.
Qed.

(** A sender and a transmission to the end. *)
Lemma rtu_transmission r s addr pdu :
  mem_ok s -> eRcvState r = STATE_RX_IDLE -> is_u8 addr -> bytes_ok pdu ->
  Zlen pdu <= 253 -> slice (ucRTUBuf s) 1 (Zlen pdu) = pdu ->
  exists r1 s1 r2 s2,
    eMBRTUSend r s addr 1 (Zlen pdu) = Ok (r1, s1, MB_ENOERR) /\
    rtu_drain (length pdu + 4) r1 s1 = Ok (r2, s2) /\
    line_out (calls s2) = line_out (calls s) ++ rtu_frame addr pdu /\
    queue s2 = Events EV_FRAME_SENT true /\
    eSndState r2 = STATE_TX_IDLE /\ eRcvState r2 = STATE_RX_IDLE /\
    rx_on (calls s2) = true /\ tx_on (calls s2) = false.
Proof.
  intros Hm Hr Ha Hp Hl Hpdu.
  destruct (rtu_send_frame r s addr pdu) as (s1 & Hsend & [Hm1 Hb1] & Hq1 & Hc1 & Hf1); try done.
  replace (Zlen pdu + 3) with (Z.of_nat (length pdu + 3)) in * by (unfold Zlen; lia).
  unfold MB_SER_PDU_SIZE_MAX in *.
  destruct (rtu_drain_xmit (length pdu + 3) 0 (usRcvBufferPos r) s1) as (cs & Hdr & Hout);
    [lia | unfold Zlen in *; lia | unfold Zlen in *; lia |].
  do 4 eexists. split; [exact Hsend|].
  assert (Hplus : forall n r s, rtu_drain (n + 1) r s = ('(r, s) ← rtu_drain n r s;
                     '(r, s, _) ← xMBRTUTransmitFSM r s; Ok (r, s))).
  { induction n as [|n IH]; intros r' s'; [done|]. simpl.
    destruct (xMBRTUTransmitFSM r' s') as [[[r3 s3] p]|]; [apply IH | done]. }
  replace (length pdu + 4)%nat with (length pdu + 3 + 1)%nat by lia.
  rewrite Hplus, Hdr. cbn [mbind outcome_bind]. split; [reflexivity|].
  cbn. rewrite Hout, Hf1, Hc1. done.
Qed.

(** ** The machines under their interrupts

    What can happen to the module: a start or a stop by [eMBEnable] and
    [eMBDisable], a received byte, a free transmitter, an expired timer, a
    response sent by [eMBPoll] from the PDU at offset 1. *)

Inductive rtu_event :=
| EvStart
| EvStop
| EvByte (b : Z)
| EvTxEmpty
| EvT35
| EvSend (addr len : Z).

Definition rtu_handle (ev : rtu_event) (st : rtu * serial) : outcome (rtu * serial) :=
  let '(r, s) := st in
  match ev with
  | EvStart => Ok (eMBRTUStart r s)
  | EvStop => Ok (eMBRTUStop r s)
  | EvByte b => '(r, s, _) ← xMBRTUReceiveFSM r s b; Ok (r, s)
  | EvTxEmpty => '(r, s, _) ← xMBRTUTransmitFSM r s; Ok (r, s)
  | EvT35 => '(r, s, _) ← xMBRTUTimerT35Expired r s; Ok (r, s)
  | EvSend addr len => '(r, s, _) ← eMBRTUSend r s addr 1 len; Ok (r, s)
  end.

(** An interrupt comes only when the module asked for it; the stack is not
    started in the middle of a transmission; a PDU is at most 253 bytes. *)
Definition rtu_enabled (ev : rtu_event) (st : rtu * serial) : Prop :=
  let '(r, s) := st in
  match ev with
  | EvStart => eSndState r = STATE_TX_IDLE
  | EvStop => True
  | EvByte b => rx_on (calls s) = true /\ is_u8 b
  | EvTxEmpty => tx_on (calls s) = true
  | EvT35 => timer_on (calls s) = true
  | EvSend addr len => is_u8 addr /\ 0 <= len <= MB_PDU_SIZE_MAX
  end.

Inductive rtu_step : rtu * serial -> rtu * serial -> Prop :=
| rtu_step_event ev st st' :
    rtu_enabled ev st -> rtu_handle ev st = Ok st' -> rtu_step st st'.

(** The states before any event: nothing enabled, nothing being sent. *)
Definition rtu_init (st : rtu * serial) : Prop :=
  let '(r, s) := st in
  mem_ok s /\ calls s = [] /\ eSndState r = STATE_TX_IDLE /\ usRcvBufferPos r = 0.

Definition rtu_inv (st : rtu * serial) : Prop :=
  let '(r, s) := st in
  mem_ok s /\ 0 <= usRcvBufferPos r <= MB_SER_PDU_SIZE_MAX /\
  (rx_on (calls s) = true -> eSndState r = STATE_TX_IDLE) /\
  (timer_on (calls s) = true -> eRcvState r <> STATE_RX_IDLE) /\
  (tx_on (calls s) = true ->
     eSndState r = STATE_TX_XMIT /\ eRcvState r = STATE_RX_IDLE /\
     0 <= pucSndBufferCur r /\ 0 <= usSndBufferCount r /\
     pucSndBufferCur r + usSndBufferCount r <= MB_SER_PDU_SIZE_MAX).

Lemma mem_ok_wr s i b buf :
  mem_ok s -> is_u8 b -> wr (ucRTUBuf s) i b = Ok buf -> mem_ok (set_buf s buf).
Proof.
  intros [Hl Hb] Hx Hw. split; simpl.
  - apply wr_Ok in Hw as [_ ->]. by rewrite Zlen_insert.
  - by eapply Forall_wr.
Qed.

(** Close the parts of the invariant that are immediate. *)
Ltac inv_done :=
  unfold MB_SER_PDU_SIZE_MAX in *; repeat split; simpl; unfold MB_SER_PDU_SIZE_MAX in *;
  try match goal with
  | H : mem_ok _ |- Zlen _ = _ => apply H
  | H : mem_ok _ |- bytes_ok _ => apply H
  end; try done; try lia; auto.

Lemma rtu_inv_byte b r s :
  rtu_inv (r, s) -> rtu_enabled (EvByte b) (r, s) ->
  exists st', rtu_handle (EvByte b) (r, s) = Ok st' /\ rtu_inv st'.
Proof.
  intros (Hm & Hpos & Hrx & Htm & Htx) [Hon Hb]. pose proof (Hrx Hon) as Hs.
  assert (Htx0 : tx_on (calls s) = false).
  { destruct (tx_on (calls s)); [|done]. destruct Htx as [? _]; congruence. }
  simpl. unfold xMBRTUReceiveFSM. rewrite bool_decide_true by done.
  cbn [assert_ mbind outcome_bind]. pose proof Hm as [Hl Hbuf].
  unfold MB_SER_PDU_SIZE_MAX in *.
  destruct (eRcvState r) eqn:Hr.
  - eexists. split; [reflexivity|]. simpl. rewrite Hr, Htx0. inv_done.
  - rewrite wr_in_range by lia. eexists. split; [reflexivity|]. simpl. rewrite Htx0.
    split; [|inv_done].
    apply (mem_ok_wr s 0 b); [by split | done | apply wr_in_range; lia].
  - destruct (usRcvBufferPos r <? 256) eqn:Hg; zify_bool.
    + rewrite wr_in_range by lia. eexists. split; [reflexivity|]. simpl. rewrite Htx0.
      rewrite u16_small by (unfold is_u16; lia). split; [|inv_done].
      apply (mem_ok_wr s (usRcvBufferPos r) b); [by split | done | apply wr_in_range; lia].
    + eexists. split; [reflexivity|]. simpl. rewrite Htx0. inv_done.
  - eexists. split; [reflexivity|]. simpl. rewrite Hr, Htx0. inv_done.
Qed.

Lemma rtu_inv_tx r s :
  rtu_inv (r, s) -> rtu_enabled EvTxEmpty (r, s) ->
  exists st', rtu_handle EvTxEmpty (r, s) = Ok st' /\ rtu_inv st'.
Proof.
  intros (Hm & Hpos & Hrx & Htm & Htx) Hon. destruct (Htx Hon) as (Hs & Hr & Hc & Hn & Hfit).
  simpl. unfold xMBRTUTransmitFSM. rewrite Hs, Hr, bool_decide_true by done.
  cbn [assert_ mbind outcome_bind]. pose proof Hm as [Hl Hbuf].
  unfold MB_SER_PDU_SIZE_MAX in *.
  destruct (usSndBufferCount r =? 0) eqn:Hg; zify_bool; cbn [negb].
  - eexists. split; [reflexivity|]. simpl. inv_done.
  - destruct (rd_in_range (ucRTUBuf s) (pucSndBufferCur r)) as [b ->]; [lia|].
    eexists. split; [reflexivity|]. simpl. rewrite u16_small by (unfold is_u16; lia).
    rewrite Hr in Htm. rewrite Hs in Hrx. inv_done.
Qed.

Lemma rtu_inv_send addr len r s :
  rtu_inv (r, s) -> rtu_enabled (EvSend addr len) (r, s) ->
  exists st', rtu_handle (EvSend addr len) (r, s) = Ok st' /\ rtu_inv st'.
Proof.
  intros (Hm & Hpos & Hrx & Htm & Htx) [Ha Hlen]. unfold MB_PDU_SIZE_MAX in Hlen.
  destruct (decide (eRcvState r = STATE_RX_IDLE)) as [Hr|Hr].
  - pose proof Hm as [Hl Hb]. unfold MB_SER_PDU_SIZE_MAX in Hl.
    pose proof (slice_length (ucRTUBuf s) 1 len ltac:(lia) ltac:(lia) ltac:(lia)) as Hsl.
    destruct (rtu_send_frame r s addr (slice (ucRTUBuf s) 1 len))
      as (s' & Hsend & Hm' & _ & Hc & _); rewrite ?Hsl; try done; [by apply Forall_slice | lia |].
    rewrite Hsl in Hsend. simpl. rewrite Hsend. eexists. split; [reflexivity|]. simpl. rewrite Hc.
    simpl. unfold MB_SER_PDU_SIZE_MAX in *. rewrite Hr in Htm.
    split; [done|]. inv_done.
  - simpl. unfold eMBRTUSend. rewrite decide_False by done. eexists. by split.
Qed.

Lemma rtu_inv_progress ev st :
  rtu_inv st -> rtu_enabled ev st -> exists st', rtu_handle ev st = Ok st' /\ rtu_inv st'.
Proof.
  destruct st as [r s]. destruct ev as [| |b| | |addr len].
  - intros (Hm & Hpos & _) Hs. eexists. split; [reflexivity|]. inv_done.
  - intros (Hm & Hpos & _) Hs. eexists. split; [reflexivity|]. inv_done.
  - apply rtu_inv_byte.
  - apply rtu_inv_tx.
  - intros (Hm & Hpos & Hrx & Htm & Htx) Hon. simpl in Hon. pose proof (Htm Hon) as Hr.
    assert (Htx0 : tx_on (calls s) = false).
    { destruct (tx_on (calls s)); [|done]. by destruct Htx as (_ & ? & _). }
    simpl. unfold xMBRTUTimerT35Expired.
    destruct (eRcvState r) eqn:E; try done;
      (eexists; split; [reflexivity|]; simpl; rewrite Htx0; inv_done).
  - apply rtu_inv_send.
Qed.

Lemma rtu_reachable_inv st st' : rtu_init st -> rtc rtu_step st st' -> rtu_inv st'.
Proof.
  intros Hi Hrtc. assert (H0 : rtu_inv st).
  { destruct st as [r s], Hi as (Hm & Hc & Hs & Hp). simpl. rewrite Hc, Hp.
    unfold MB_SER_PDU_SIZE_MAX. repeat split; try done; apply Hm. }
  clear Hi. induction Hrtc as [|st1 st2 st3 Hst _ IH]; [done|].
  apply IH. destruct Hst as [ev st1 st2 Hen Hh].
  destruct (rtu_inv_progress ev st1 H0 Hen) as (st2' & Hh' & Hinv). congruence.
Qed.

(** ** Properties *)

(** what the receive machine makes of a burst of bytes from an idle line,
    ended by the t3.5 timer: up to 256 bytes are stored in order and announced
    with [EV_FRAME_RECEIVED]; a longer burst is dropped silently.  Either way
    the machine is idle again. *)
Lemma rtu_reception r s bs :
  mem_ok s -> eSndState r = STATE_TX_IDLE -> eRcvState r = STATE_RX_IDLE -> bs <> [] ->
  exists r1 s1 r2 s2 xNeedPoll,
    rtu_feed r s bs = Ok (r1, s1) /\
    xMBRTUTimerT35Expired r1 s1 = Ok (r2, s2, xNeedPoll) /\
    eSndState r2 = STATE_TX_IDLE /\ eRcvState r2 = STATE_RX_IDLE /\
    (if Zlen bs <=? MB_SER_PDU_SIZE_MAX
     then queue s2 = Events EV_FRAME_RECEIVED true /\ usRcvBufferPos r2 = Zlen bs /\
          slice (ucRTUBuf s2) 0 (Zlen bs) = bs
     else queue s2 = queue s /\ xNeedPoll = false).
Proof.
  intros [Hm Hb] Hs Hr Hne.
  assert (1 <= Zlen bs) by (destruct bs; [done|]; unfold Zlen; simpl; lia).
  destruct (Zlen bs <=? MB_SER_PDU_SIZE_MAX) eqn:Hl; zify_bool.
  - destruct (rtu_feed_idle bs r s) as [cs Hf]; try done.
    do 5 eexists. split; [exact Hf|]. split; [reflexivity|]. do 4 (split; [done|]).
    apply slice_splice; lia.
  - destruct (rtu_feed_overflow bs r s) as (r' & b' & cs & Hf & Hs' & Hr'); try done.
    do 5 eexists. split; [exact Hf|]. unfold xMBRTUTimerT35Expired. rewrite Hr'.
    split; [reflexivity|]. done.
Qed.

(** A state as [main] finds it, and after the startup delay. *)
Definition rtu0 : rtu := Rtu STATE_TX_IDLE STATE_RX_INIT 0 0 0.
Definition rtu_idle : rtu := Rtu STATE_TX_IDLE STATE_RX_IDLE 0 0 0.
Definition serial0 : serial := Serial (replicate 256 0) (Events EV_READY false) [].

Lemma rtu_reception_witness :
  exists r1 s1 r2 s2 p,
    rtu_feed rtu_idle serial0 [1; 2; 3] = Ok (r1, s1) /\
    xMBRTUTimerT35Expired r1 s1 = Ok (r2, s2, p) /\ usRcvBufferPos r2 = 3.
Proof.
  destruct (rtu_reception rtu_idle serial0 [1; 2; 3])
    as (r1 & s1 & r2 & s2 & p & H1 & H2 & _ & _ & _ & H3 & _); [by_compute | done.. |].
  by exists r1, s1, r2, s2, p.
Defined.

(** C38: which bursts [eMBRTUReceive] accepts: exactly the well-formed frames
    (address, non-empty PDU, checksum), whose address, PDU offset and PDU length
    it returns; every other burst of fewer than 256 bytes is [MB_EIO].  A burst
    of 256 bytes, which the receive machine announces, fails the assertion. *)
Theorem rtu_receive_verdict r s bs :
  mem_ok s -> usRcvBufferPos r = Zlen bs -> slice (ucRTUBuf s) 0 (Zlen bs) = bs ->
  (forall addr pdu, bs = rtu_frame addr pdu -> 1 <= Zlen pdu <= 252 ->
     eMBRTUReceive r s = Ok (MB_ENOERR, Some (addr, MB_SER_PDU_PDU_OFF, Zlen pdu))) /\
  ((forall addr pdu, 1 <= Zlen pdu -> bs <> rtu_frame addr pdu) -> Zlen bs < 256 ->
     eMBRTUReceive r s = Ok (MB_EIO, None)) /\
  (Zlen bs = 256 -> eMBRTUReceive r s = Fault AssertFailed).
Proof.
  intros Hm Hpos Hbs. assert (Hb : bytes_ok bs) by (rewrite <- Hbs; apply Forall_slice, Hm).
  split; [|split].
  - intros addr pdu -> Hl. inversion Hb as [|? ? Ha Hb2]; subst. apply Forall_app in Hb2 as [Hp _].
    by apply rtu_receive_frame.
  - intros Hno Hl. destruct (decide (4 <= Zlen bs)) as [H4|H4].
    + rewrite (rtu_receive_crc r s bs) by (done || (unfold MB_SER_PDU_SIZE_MAX; lia)).
      destruct (crc_ref bs =? 0) eqn:E; zify_bool; [|done].
      destruct (crc_zero_frame bs Hb H4 E) as (addr & pdu & Ef & Hn). by destruct (Hno addr pdu).
    + apply rtu_receive_short. unfold MB_SER_PDU_SIZE_MIN. lia.
  - intros Hl. unfold eMBRTUReceive. by rewrite Hpos, Hl.
Qed.

Lemma rtu_receive_verdict_witness :
  eMBRTUReceive (Rtu STATE_TX_IDLE STATE_RX_IDLE 0 0 8)
    (Serial ([1; 3; 0; 0; 0; 2; 196; 11] ++ replicate 248 0) (Events EV_READY false) []) =
  Ok (MB_ENOERR, Some (1, 1, 5)).
Proof.
  apply (rtu_receive_verdict _ _ [1; 3; 0; 0; 0; 2; 196; 11])
    with (addr := 1) (pdu := [3; 0; 0; 0; 2]); [by_compute | done | done | by_compute | done].
Defined.

(** C9: round trip over the line: what one station sends, interrupt by interrupt,
    is announced and accepted by another as the same address and PDU. *)
Theorem rtu_roundtrip r s addr pdu rr ss :
  mem_ok s -> eRcvState r = STATE_RX_IDLE -> calls s = [] ->
  is_u8 addr -> bytes_ok pdu -> 1 <= Zlen pdu <= 252 ->
  slice (ucRTUBuf s) 1 (Zlen pdu) = pdu ->
  mem_ok ss -> eSndState rr = STATE_TX_IDLE -> eRcvState rr = STATE_RX_IDLE ->
  exists r1 s1 r2 s2 rr1 ss1 rr2 ss2 xNeedPoll,
    eMBRTUSend r s addr 1 (Zlen pdu) = Ok (r1, s1, MB_ENOERR) /\
    rtu_drain (length pdu + 4) r1 s1 = Ok (r2, s2) /\
    rtu_feed rr ss (line_out (calls s2)) = Ok (rr1, ss1) /\
    xMBRTUTimerT35Expired rr1 ss1 = Ok (rr2, ss2, xNeedPoll) /\
    queue ss2 = Events EV_FRAME_RECEIVED true /\
    eMBRTUReceive rr2 ss2 = Ok (MB_ENOERR, Some (addr, 1, Zlen pdu)) /\
    slice (ucRTUBuf ss2) 1 (Zlen pdu) = pdu.
Proof.
  intros Hm Hr Hcs Ha Hp Hl Hpdu [Hm2 Hb2] Hs2 Hr2.
  destruct (rtu_transmission r s addr pdu) as (r1 & s1 & r2 & s2 & Hsend & Hdr & Hout & _);
    try done; [lia|].
  rewrite Hcs in Hout. simpl in Hout.
  pose proof (rtu_frame_length addr pdu) as Hfl.
  assert (Hfb : bytes_ok (rtu_frame addr pdu)) by (by apply rtu_frame_bytes).
  unfold MB_SER_PDU_SIZE_MAX in *.
  destruct (rtu_feed_idle (rtu_frame addr pdu) rr ss) as [cs Hf];
    try done; [unfold MB_SER_PDU_SIZE_MAX; lia|].
  do 9 eexists. do 2 (split; [eassumption|]). rewrite Hout. split; [exact Hf|].
  split; [reflexivity|]. split; [done|].
  assert (Hin : slice (splice (ucRTUBuf ss) 0 (rtu_frame addr pdu)) 0 (Zlen (rtu_frame addr pdu))
                = rtu_frame addr pdu) by (apply slice_splice; lia).
  split.
  - apply rtu_receive_frame; simpl; try done. split; simpl.
    + rewrite splice_length; unfold MB_SER_PDU_SIZE_MAX; lia.
    + by apply Forall_splice.
  - simpl. apply (slice_suffix _ 0 1 (Zlen pdu) [addr]); try done; [lia|].
    apply (slice_prefix _ 0 _ _ [crc_ref (addr :: pdu) `mod` 256; crc_ref (addr :: pdu) `div` 256])
      in Hin; [|done]. rewrite Zlen_cons in Hin. by rewrite Z.add_comm.
Qed.

Lemma rtu_roundtrip_witness :
  exists r1 s1 r2 s2 rr1 ss1 rr2 ss2 p,
    eMBRTUSend rtu_idle serial0 17 1 2 = Ok (r1, s1, MB_ENOERR) /\
    rtu_drain 6 r1 s1 = Ok (r2, s2) /\
    rtu_feed rtu_idle serial0 (line_out (calls s2)) = Ok (rr1, ss1) /\
    xMBRTUTimerT35Expired rr1 ss1 = Ok (rr2, ss2, p) /\
    eMBRTUReceive rr2 ss2 = Ok (MB_ENOERR, Some (17, 1, 2)).
Proof.
  destruct (rtu_roundtrip rtu_idle serial0 17 [0; 0] rtu_idle serial0)
    as (r1 & s1 & r2 & s2 & rr1 & ss1 & rr2 & ss2 & p & H1 & H2 & H3 & H4 & _ & H5 & _);
    [by_compute | done | done | by_compute | by_compute | by_compute | done | by_compute | done | done |].
  by exists r1, s1, r2, s2, rr1, ss1, rr2, ss2, p.
Defined.

(** C10: no interrupt can break the module: in every state reached by enabled
    events, each enabled event is handled without a failed assertion or an
    access outside the buffer, and the receive position stays inside it. *)
Theorem rtu_interrupts_safe st st' ev :
  rtu_init st -> rtc rtu_step st st' -> rtu_enabled ev st' ->
  exists r s, rtu_handle ev st' = Ok (r, s) /\
              mem_ok s /\ 0 <= usRcvBufferPos r <= MB_SER_PDU_SIZE_MAX.
Proof.
  intros Hi Hrtc Hen.
  destruct (rtu_inv_progress ev st' (rtu_reachable_inv _ _ Hi Hrtc) Hen)
    as ([r s] & Hh & Hm & Hp & _).
  by exists r, s.
Qed.

Lemma rtu_interrupts_safe_witness :
  exists r s, rtu_handle (EvByte 7) (eMBRTUStart rtu0 serial0) = Ok (r, s) /\
              mem_ok s /\ 0 <= usRcvBufferPos r <= MB_SER_PDU_SIZE_MAX.
Proof.
  apply (rtu_interrupts_safe (rtu0, serial0)).
  - split; [by_compute | done].
  - apply rtc_once. by apply (rtu_step_event EvStart).
  - split; [done | by_compute].
Defined.

(** The restriction on [EvStart] is needed: [eMBRTUStart] does not reset
    [eSndState], so a stack that is disabled while it sends and enabled again
    fails the assertion of the receive machine at the next byte. *)
Lemma rtu_restart_while_sending :
  (st ← rtu_handle (EvSend 1 1) (rtu_idle, serial0);
   st ← rtu_handle EvStop st;
   st ← rtu_handle EvStart st;
   rtu_handle (EvByte 1) st) = Fault AssertFailed.
Proof. by vm_compute. Qed.

(** The t3.5 reload value is 3.5 characters of 11 bits, to the 50us below, for
    every rate the 16-bit timer argument can express. *)
Lemma t35_value ulBaudRate :
  12 <= ulBaudRate <= 19200 ->
  usTimerT35_50us ulBaudRate = Ok ((35 * 11 * 20000) `div` (10 * ulBaudRate)) /\
  is_u16 ((35 * 11 * 20000) `div` (10 * ulBaudRate)).
Proof.
  intros Hb. unfold usTimerT35_50us.
  rewrite (proj2 (Z.ltb_ge _ _)), (proj2 (Z.eqb_neq _ _)) by lia.
  assert (E : (35 * 11 * 20000) `div` (10 * ulBaudRate) = (7 * 220000) `div` (2 * ulBaudRate)).
  { replace (35 * 11 * 20000) with (5 * (7 * 220000)) by done.
    replace (10 * ulBaudRate) with (5 * (2 * ulBaudRate)) by lia.
    by rewrite Z.div_mul_cancel_l by lia. }
  rewrite E. split; [done|]. unfold is_u16. split.
  - apply Z.div_pos; lia.
  - apply Z.div_lt_upper_bound; lia.
Qed.
