(* ===== verification/MbAscii.v ===== *)
(** * FreeModbus: Modbus ASCII (modbus/ascii/mbascii.c)

    The character state machines, the hexadecimal coding of a frame and its
    longitudinal redundancy check.  The frame buffer is the one of mbrtu.c
    ([ucASCIIBuf = ucRTUBuf]). *)

From stdpp Require Import base numbers list list_numbers.
From S2P Require Import Prelude MbDefs MbPort.

#[local] Open Scope Z_scope.

Definition MB_ASCII_DEFAULT_CR : Z := 13.
Definition MB_ASCII_DEFAULT_LF : Z := 10.
Definition MB_ASCII_START : Z := 58. (* ':' *)
Definition MB_SER_PDU_SIZE_MIN : Z := 3.
Definition MB_SER_PDU_SIZE_MAX : Z := 256.
Definition MB_SER_PDU_SIZE_LRC : Z := 1.
Definition MB_SER_PDU_ADDR_OFF : Z := 0.
Definition MB_SER_PDU_PDU_OFF : Z := 1.
Definition MB_ASCII_TIMEOUT_SEC : Z := 1.

Inductive eMBRcvState := STATE_RX_IDLE | STATE_RX_RCV | STATE_RX_WAIT_EOF.
Inductive eMBSndState :=
  STATE_TX_IDLE | STATE_TX_START | STATE_TX_DATA | STATE_TX_END | STATE_TX_NOTIFY.
Inductive eMBBytePos := BYTE_HIGH_NIBBLE | BYTE_LOW_NIBBLE.

#[global] Instance ascii_rcv_eq_dec : EqDecision eMBRcvState.
Proof. solve_decision. Defined.
#[global] Instance ascii_snd_eq_dec : EqDecision eMBSndState.
Proof. solve_decision. Defined.

(** The static variables of mbascii.c ([ucLRC] is never used). *)
Record ascii := Ascii {
  eSndState : eMBSndState;
  eRcvState : eMBRcvState;
  usRcvBufferPos : Z;
  eBytePos : eMBBytePos;
  pucSndBufferCur : Z;
  usSndBufferCount : Z;
  ucMBLFCharacter : Z;
}.

Definition set_rx (a : ascii) (st : eMBRcvState) (pos : Z) (bp : eMBBytePos) : ascii :=
  Ascii (eSndState a) st pos bp (pucSndBufferCur a) (usSndBufferCount a) (ucMBLFCharacter a).
Definition set_tx (a : ascii) (st : eMBSndState) (bp : eMBBytePos) (cur count : Z) : ascii :=
  Ascii st (eRcvState a) (usRcvBufferPos a) bp cur count (ucMBLFCharacter a).

(** ** Characters *)

Definition prvucMBCHAR2BIN (ucCharacter : Z) : Z :=
  if (48 <=? ucCharacter) && (ucCharacter <=? 57) then u8 (ucCharacter - 48)
  else if (65 <=? ucCharacter) && (ucCharacter <=? 70) then u8 (ucCharacter - 65 + 0x0A)
  else 0xFF.

Definition prvucMBBIN2CHAR (ucByte : Z) : outcome Z :=
  if ucByte <=? 0x09 then Ok (u8 (48 + ucByte))
  else if (0x0A <=? ucByte) && (ucByte <=? 0x0F) then Ok (u8 (ucByte - 0x0A + 65))
  else Fault AssertFailed.

(** ** Longitudinal redundancy check *)

Fixpoint prvucMBLRC_loop (usLen : nat) (buf : list Z) (pucFrame ucLRC : Z) : outcome Z :=
  match usLen with
  | O => Ok ucLRC
  | S usLen =>
      b ← rd buf pucFrame;
      prvucMBLRC_loop usLen buf (pucFrame + 1) (u8 (ucLRC + b))
  end.

Definition prvucMBLRC (buf : list Z) (pucFrame usLen : Z) : outcome Z :=
  ucLRC ← prvucMBLRC_loop (Z.to_nat usLen) buf pucFrame 0;
  Ok (u8 (- s8 ucLRC)).

(** ** The frame functions *)

Definition eMBASCIIInit (xMBPortSerialInit : Z -> Z -> Z -> eMBParity -> bool)
    (xMBPortTimersInit : Z -> bool) (a : ascii)
    (ucPort ulBaudRate : Z) (eParity : eMBParity) : ascii * eMBErrorCode :=
  let a := Ascii (eSndState a) (eRcvState a) (usRcvBufferPos a) (eBytePos a)
                 (pucSndBufferCur a) (usSndBufferCount a) MB_ASCII_DEFAULT_LF in
  (a, if negb (xMBPortSerialInit ucPort ulBaudRate 7 eParity) then MB_EPORTERR
      else if negb (xMBPortTimersInit (u16 (MB_ASCII_TIMEOUT_SEC * 20000))) then MB_EPORTERR
      else MB_ENOERR).

Definition eMBASCIIStart (a : ascii) (s : serial) : ascii * serial :=
  let s := call s (SerialEnable true false) in
  let a := set_rx a STATE_RX_IDLE (usRcvBufferPos a) (eBytePos a) in
  let '(s, _) := post s EV_READY in
  (a, s).

Definition eMBASCIIStop (a : ascii) (s : serial) : ascii * serial :=
  (a, call (call s (SerialEnable false false)) TimersDisable).

Definition eMBASCIIReceive (a : ascii) (s : serial)
    : outcome (eMBErrorCode * option (Z * Z * Z)) :=
  _ ← assert_ (usRcvBufferPos a <? MB_SER_PDU_SIZE_MAX);
  if MB_SER_PDU_SIZE_MIN <=? usRcvBufferPos a then
    lrc ← prvucMBLRC (ucRTUBuf s) 0 (usRcvBufferPos a);
    if lrc =? 0 then
      addr ← rd (ucRTUBuf s) MB_SER_PDU_ADDR_OFF;
      Ok (MB_ENOERR,
          Some (addr, MB_SER_PDU_PDU_OFF,
                u16 (usRcvBufferPos a - MB_SER_PDU_PDU_OFF - MB_SER_PDU_SIZE_LRC)))
    else Ok (MB_EIO, None)
  else Ok (MB_EIO, None).

Definition eMBASCIISend (a : ascii) (s : serial) (ucSlaveAddress pucFrame usLength : Z)
    : outcome (ascii * serial * eMBErrorCode) :=
  if decide (eRcvState a = STATE_RX_IDLE) then
    let cur := pucFrame - 1 in
    let count := 1 in
    buf ← wr (ucRTUBuf s) (cur + MB_SER_PDU_ADDR_OFF) ucSlaveAddress;
    let count := u16 (count + usLength) in
    usLRC ← prvucMBLRC buf cur count;
    buf ← wr buf count usLRC;
    let count := u16 (count + 1) in
    Ok (set_tx a STATE_TX_START (eBytePos a) cur count,
        call (set_buf s buf) (SerialEnable false true), MB_ENOERR)
  else Ok (a, s, MB_EIO).

(** ** The state machines *)

Definition xMBASCIIReceiveFSM (a : ascii) (s : serial) (ucByte : Z)
    : outcome (ascii * serial * bool) :=
  _ ← assert_ (bool_decide (eSndState a = STATE_TX_IDLE));
  match eRcvState a with
  | STATE_RX_RCV =>
      let s := call s TimersEnable in
      if ucByte =? MB_ASCII_START then
        Ok (set_rx a (eRcvState a) 0 BYTE_HIGH_NIBBLE, s, false)
      else if ucByte =? MB_ASCII_DEFAULT_CR then
        Ok (set_rx a STATE_RX_WAIT_EOF (usRcvBufferPos a) (eBytePos a), s, false)
      else
        let ucResult := prvucMBCHAR2BIN ucByte in
        match eBytePos a with
        | BYTE_HIGH_NIBBLE =>
            if usRcvBufferPos a <? MB_SER_PDU_SIZE_MAX then
              buf ← wr (ucRTUBuf s) (usRcvBufferPos a) (u8 (Z.shiftl ucResult 4));
              Ok (set_rx a (eRcvState a) (usRcvBufferPos a) BYTE_LOW_NIBBLE, set_buf s buf, false)
            else
              Ok (set_rx a STATE_RX_IDLE (usRcvBufferPos a) (eBytePos a),
                  call s TimersDisable, false)
        | BYTE_LOW_NIBBLE =>
            old ← rd (ucRTUBuf s) (usRcvBufferPos a);
            buf ← wr (ucRTUBuf s) (usRcvBufferPos a) (Z.lor old ucResult);
            Ok (set_rx a (eRcvState a) (u16 (usRcvBufferPos a + 1)) BYTE_HIGH_NIBBLE,
                set_buf s buf, false)
        end
  | STATE_RX_WAIT_EOF =>
      if ucByte =? ucMBLFCharacter a then
        let s := call s TimersDisable in
        let a := set_rx a STATE_RX_IDLE (usRcvBufferPos a) (eBytePos a) in
        let '(s, xNeedPoll) := post s EV_FRAME_RECEIVED in
        Ok (a, s, xNeedPoll)
      else if ucByte =? MB_ASCII_START then
        Ok (set_rx a STATE_RX_RCV 0 BYTE_HIGH_NIBBLE, call s TimersEnable, false)
      else
        Ok (set_rx a STATE_RX_IDLE (usRcvBufferPos a) (eBytePos a), s, false)
  | STATE_RX_IDLE =>
      if ucByte =? MB_ASCII_START then
        Ok (set_rx a STATE_RX_RCV 0 BYTE_HIGH_NIBBLE, call s TimersEnable, false)
      else Ok (a, s, false)
  end.

Definition xMBASCIITransmitFSM (a : ascii) (s : serial) : outcome (ascii * serial * bool) :=
  _ ← assert_ (bool_decide (eRcvState a = STATE_RX_IDLE));
  let cur := pucSndBufferCur a in
  let count := usSndBufferCount a in
  match eSndState a with
  | STATE_TX_START =>
      Ok (set_tx a STATE_TX_DATA BYTE_HIGH_NIBBLE cur count,
          call s (SerialPutByte MB_ASCII_START), false)
  | STATE_TX_DATA =>
      if 0 <? count then
        match eBytePos a with
        | BYTE_HIGH_NIBBLE =>
            b ← rd (ucRTUBuf s) cur;
            ucByte ← prvucMBBIN2CHAR (u8 (Z.shiftr b 4));
            Ok (set_tx a (eSndState a) BYTE_LOW_NIBBLE cur count,
                call s (SerialPutByte ucByte), false)
        | BYTE_LOW_NIBBLE =>
            b ← rd (ucRTUBuf s) cur;
            ucByte ← prvucMBBIN2CHAR (u8 (Z.land b 0x0F));
            Ok (set_tx a (eSndState a) BYTE_HIGH_NIBBLE (cur + 1) (u16 (count - 1)),
                call s (SerialPutByte ucByte), false)
        end
      else
        Ok (set_tx a STATE_TX_END (eBytePos a) cur count,
            call s (SerialPutByte MB_ASCII_DEFAULT_CR), false)
  | STATE_TX_END =>
      Ok (set_tx a STATE_TX_NOTIFY (eBytePos a) cur count,
          call s (SerialPutByte (ucMBLFCharacter a)), false)
  | STATE_TX_NOTIFY =>
      let '(s, xNeedPoll) := post s EV_FRAME_SENT in
      Ok (set_tx a STATE_TX_IDLE (eBytePos a) cur count,
          call s (SerialEnable true false), xNeedPoll)
  | STATE_TX_IDLE =>
      Ok (a, call s (SerialEnable true false), false)
  end.

Definition xMBASCIITimerT1SExpired (a : ascii) (s : serial) : outcome (ascii * serial * bool) :=
  a ←
    match eRcvState a with
    | STATE_RX_RCV | STATE_RX_WAIT_EOF =>
        Ok (set_rx a STATE_RX_IDLE (usRcvBufferPos a) (eBytePos a))
    | STATE_RX_IDLE => Fault AssertFailed
    end;
  Ok (a, call s TimersDisable, false).

(** A run of characters from the line, and [n] transmitter interrupts. *)
Fixpoint ascii_feed (a : ascii) (s : serial) (cs : list Z) : outcome (ascii * serial) :=
  match cs with
  | [] => Ok (a, s)
  | c :: cs =>
      '(a, s, _) ← xMBASCIIReceiveFSM a s c;
      ascii_feed a s cs
  end.

Fixpoint ascii_drain (n : nat) (a : ascii) (s : serial) : outcome (ascii * serial) :=
  match n with
  | O => Ok (a, s)
  | S n =>
      '(a, s, _) ← xMBASCIITransmitFSM a s;
      ascii_drain n a s
  end.

(** ** Hexadecimal digits *)

Definition hex_char (n : Z) : Z := if n <=? 9 then 48 + n else n - 10 + 65.

Lemma bin2char n : 0 <= n < 16 -> prvucMBBIN2CHAR n = Ok (hex_char n).
Proof.
  intros Hn. unfold prvucMBBIN2CHAR, hex_char.
  destruct (n <=? 9) eqn:E; zify_bool.
  - by rewrite u8_small by (unfold is_u8; lia).
  - rewrite (proj2 (Z.leb_le 10 n)), (proj2 (Z.leb_le n 15)) by lia. simpl.
    by rewrite u8_small by (unfold is_u8; lia).
Qed.

Lemma char2bin n : 0 <= n < 16 -> prvucMBCHAR2BIN (hex_char n) = n.
Proof.
  intros Hn. assert (H : Forall (fun n => prvucMBCHAR2BIN (hex_char n) = n) (seqZ 0 16))
    by by_compute.
  rewrite Forall_forall in H. apply H, elem_of_seqZ. lia.
Qed.

Lemma hex_char_not_control n :
  0 <= n < 16 -> (hex_char n =? MB_ASCII_START) = false /\ (hex_char n =? MB_ASCII_DEFAULT_CR) = false.
Proof.
  intros Hn. unfold hex_char, MB_ASCII_START, MB_ASCII_DEFAULT_CR.
  destruct (n <=? 9) eqn:E; zify_bool; rewrite !Z.eqb_neq; lia.
Qed.

Lemma nibbles b :
  is_u8 b ->
  0 <= Z.shiftr b 4 < 16 /\ 0 <= Z.land b 15 < 16 /\
  Z.lor (u8 (Z.shiftl (Z.shiftr b 4) 4)) (Z.land b 15) = b.
Proof.
  intros Hb. unfold is_u8 in Hb.
  change 15 with (Z.ones 4). rewrite Z.land_ones by lia. rewrite Z.shiftr_div_pow2 by lia.
  change (2 ^ 4) with 16.
  pose proof (Z.div_mod b 16 ltac:(done)). pose proof (Z.mod_pos_bound b 16 ltac:(done)).
  split; [lia|]. split; [lia|].
  rewrite u8_small by (unfold is_u8; rewrite Z.shiftl_mul_pow2 by lia; change (2 ^ 4) with 16; lia).
  rewrite (lor_shiftl_add _ _ 4) by (change (2 ^ 4) with 16; lia). change (2 ^ 4) with 16. lia.
Qed.

(** The two characters of a byte, and of a string of bytes. *)
Definition hex_byte (b : Z) : list Z := [hex_char (Z.shiftr b 4); hex_char (Z.land b 15)].
Definition hex_bytes (bs : list Z) : list Z := concat (hex_byte <$> bs).

(** ** The check byte *)

Definition sum_bytes (bs : list Z) : Z := foldr Z.add 0 bs.

Lemma lrc_loop n buf p acc :
  bytes_ok buf -> 0 <= p -> p + Z.of_nat n <= Zlen buf -> is_u8 acc ->
  prvucMBLRC_loop n buf p acc = Ok (u8 (acc + sum_bytes (slice buf p (Z.of_nat n)))).
Proof.
  revert p acc. induction n as [|n IH]; intros p acc Hb Hp Hl Ha.
  - cbn [prvucMBLRC_loop]. rewrite slice_0 by done. simpl. by rewrite Z.add_0_r, u8_small.
  - cbn [prvucMBLRC_loop]. destruct (rd_in_range buf p) as [x Hx]; [lia|].
    rewrite Hx, bind_Ok_l, IH by (auto with mach; lia).
    rewrite (slice_cons _ p _ x) by (done || lia).
    replace (Z.of_nat (S n) - 1) with (Z.of_nat n) by lia. simpl.
    f_equal. unfold u8. rewrite Zplus_mod_idemp_l. f_equal. lia.
Qed.

Lemma u8_neg_s8 z : u8 (- s8 (u8 z)) = u8 (- z).
Proof.
  unfold u8, s8. rewrite Zplus_mod_idemp_l.
  pose proof (Z.div_mod (z + 128) 256 ltac:(done)) as E.
  replace (- ((z + 128) `mod` 256 - 128)) with (- z + ((z + 128) `div` 256) * 256) by lia.
  by rewrite Z.mod_add.
Qed.

Lemma prvucMBLRC_spec buf p n :
  bytes_ok buf -> 0 <= p -> 0 <= n -> p + n <= Zlen buf ->
  prvucMBLRC buf p n = Ok (u8 (- sum_bytes (slice buf p n))).
Proof.
  intros Hb Hp Hn Hl. unfold prvucMBLRC. rewrite lrc_loop by (done || lia).
  rewrite Z2Nat.id by done. cbn [mbind outcome_bind]. by rewrite u8_neg_s8.
Qed.

Lemma sum_bytes_app l k : sum_bytes (l ++ k) = sum_bytes l + sum_bytes k.
Proof. induction l as [|x l IH]; simpl; [done|]. rewrite IH. lia. Qed.

(** A Modbus ASCII frame in binary: address, PDU, check byte. *)
Definition ascii_frame (addr : Z) (pdu : list Z) : list Z :=
  (addr :: pdu) ++ [u8 (- sum_bytes (addr :: pdu))].

Lemma ascii_frame_length addr pdu : Zlen (ascii_frame addr pdu) = Zlen pdu + 2.
Proof. unfold ascii_frame, Zlen. rewrite length_app. simpl. lia. Qed.

Lemma ascii_frame_bytes addr pdu : is_u8 addr -> bytes_ok pdu -> bytes_ok (ascii_frame addr pdu).
Proof. intros. unfold ascii_frame. auto 10 with arr mach. Qed.

(** The check sums to zero exactly when the last byte is the right one. *)
Lemma lrc_zero_iff bs c :
  is_u8 c -> u8 (- sum_bytes (bs ++ [c])) = 0 <-> c = u8 (- sum_bytes bs).
Proof.
  intros Hc. rewrite sum_bytes_app. simpl. unfold u8, is_u8 in *. split; intros E.
  - apply Z.mod_divide in E as [k E]; [|done].
    apply Z.mod_unique_pos with (q := k); lia.
  - apply Z.mod_divide; [done|]. exists ((- sum_bytes bs) `div` 256).
    pose proof (Z.div_mod (- sum_bytes bs) 256 ltac:(done)). lia.
Qed.

(** ** Reception *)

Definition mem_ok (s : serial) : Prop :=
  Zlen (ucRTUBuf s) = MB_SER_PDU_SIZE_MAX /\ bytes_ok (ucRTUBuf s).

#[global] Instance mem_ok_dec s : Decision (mem_ok s).
Proof. unfold mem_ok. apply _. Defined.

Lemma ascii_feed_app cs1 cs2 a s :
  ascii_feed a s (cs1 ++ cs2) = ('(a, s) ← ascii_feed a s cs1; ascii_feed a s cs2).
Proof.
  revert a s. induction cs1 as [|c cs1 IH]; intros a s; [done|]. simpl.
  destruct (xMBASCIIReceiveFSM a s c) as [[[a1 s1] p]|]; [apply IH | done].
Qed.

(** Whatever the receiver was doing, a colon starts a frame. *)
Lemma ascii_colon a s :
  eSndState a = STATE_TX_IDLE -> ucMBLFCharacter a <> MB_ASCII_START ->
  xMBASCIIReceiveFSM a s MB_ASCII_START =
    Ok (set_rx a STATE_RX_RCV 0 BYTE_HIGH_NIBBLE, call s TimersEnable, false).
Proof.
  intros Hs Hlf. unfold xMBASCIIReceiveFSM. rewrite bool_decide_true by done.
  cbn [assert_ mbind outcome_bind]. destruct (eRcvState a); try done.
  rewrite (proj2 (Z.eqb_neq _ _)) by done. done.
Qed.

(** The two characters of one byte. *)
Lemma ascii_feed_byte a s b :
  eSndState a = STATE_TX_IDLE -> eRcvState a = STATE_RX_RCV -> eBytePos a = BYTE_HIGH_NIBBLE ->
  0 <= usRcvBufferPos a < Zlen (ucRTUBuf s) -> Zlen (ucRTUBuf s) = MB_SER_PDU_SIZE_MAX -> is_u8 b ->
  exists cs,
    ascii_feed a s (hex_byte b) =
      Ok (set_rx a STATE_RX_RCV (usRcvBufferPos a + 1) BYTE_HIGH_NIBBLE,
          Serial (<[Z.to_nat (usRcvBufferPos a) := b]> (ucRTUBuf s)) (queue s) cs).
Proof.
  intros Hs Hr Hp Hpos Hm Hb. destruct (nibbles b Hb) as (Hh & Hl & Eb).
  destruct (hex_char_not_control _ Hh) as [H1 H2], (hex_char_not_control _ Hl) as [H3 H4].
  unfold hex_byte. cbn [ascii_feed]. unfold xMBASCIIReceiveFSM.
  rewrite Hs, Hr, Hp, bool_decide_true by done. cbn [assert_ mbind outcome_bind].
  rewrite H1, H2, (proj2 (Z.ltb_lt _ _)), char2bin by (done || lia).
  simpl ucRTUBuf. rewrite wr_in_range by lia. cbn [mbind outcome_bind].
  cbn [set_rx eSndState eRcvState eBytePos usRcvBufferPos].
  rewrite Hs, bool_decide_true by done. cbn [assert_ mbind outcome_bind].
  rewrite H3, H4, char2bin by done. simpl ucRTUBuf.
  rewrite rd_insert_eq by lia. cbn [mbind outcome_bind].
  rewrite wr_in_range by (rewrite Zlen_insert; lia). cbn [mbind outcome_bind].
  rewrite Eb, list_insert_insert_eq, u16_small
    by (unfold is_u16, MB_SER_PDU_SIZE_MAX in *; lia).
  eexists. unfold set_rx. simpl. by rewrite Hs.
Qed.

(** The characters of a string of bytes. *)
Lemma ascii_feed_bytes bs a s :
  eSndState a = STATE_TX_IDLE -> eRcvState a = STATE_RX_RCV -> eBytePos a = BYTE_HIGH_NIBBLE ->
  Zlen (ucRTUBuf s) = MB_SER_PDU_SIZE_MAX -> bytes_ok bs ->
  0 <= usRcvBufferPos a -> usRcvBufferPos a + Zlen bs <= MB_SER_PDU_SIZE_MAX ->
  exists cs,
    ascii_feed a s (hex_bytes bs) =
      Ok (set_rx a STATE_RX_RCV (usRcvBufferPos a + Zlen bs) BYTE_HIGH_NIBBLE,
          Serial (splice (ucRTUBuf s) (usRcvBufferPos a) bs) (queue s) cs).
Proof.
  intros Hs Hr Hp Hm Hbs. revert a s Hs Hr Hp Hm.
  induction Hbs as [|b bs Hb Hbs IH]; intros a s Hs Hr Hp Hm Hpos Hfit.
  - exists (calls s). rewrite splice_nil. change (Zlen []) with 0. rewrite Z.add_0_r.
    destruct a, s; simpl in *; by subst.
  - rewrite Zlen_cons in *. pose proof (Zlen_nonneg bs).
    change (hex_bytes (b :: bs)) with (hex_byte b ++ hex_bytes bs). rewrite ascii_feed_app.
    destruct (ascii_feed_byte a s b) as [cs1 ->]; try done; [lia|]. cbn [mbind outcome_bind].
    match goal with |- context [ascii_feed ?a1 ?s1 _] =>
      destruct (IH a1 s1) as [cs2 ->]; simpl; try done; try lia end; [by rewrite Zlen_insert|].
    exists cs2. rewrite splice_cons by lia. unfold set_rx. simpl. do 3 f_equal. lia.
Qed.

(** The characters of a frame on the line. *)
Definition ascii_line (addr : Z) (pdu : list Z) : list Z :=
  [MB_ASCII_START] ++ hex_bytes (ascii_frame addr pdu) ++ [MB_ASCII_DEFAULT_CR; MB_ASCII_DEFAULT_LF].

Lemma ascii_reception a s addr pdu :
  mem_ok s -> eSndState a = STATE_TX_IDLE -> ucMBLFCharacter a = MB_ASCII_DEFAULT_LF ->
  is_u8 addr -> bytes_ok pdu -> Zlen pdu <= 254 ->
  exists bp cs,
    ascii_feed a s (ascii_line addr pdu) =
      Ok (set_rx a STATE_RX_IDLE (Zlen (ascii_frame addr pdu)) bp,
          Serial (splice (ucRTUBuf s) 0 (ascii_frame addr pdu))
                 (Events EV_FRAME_RECEIVED true) cs).
Proof.
  intros [Hm Hb] Hs Hlf Ha Hp Hl. unfold ascii_line. rewrite ascii_feed_app. cbn [ascii_feed].
  rewrite ascii_colon by (done || by rewrite Hlf). cbn [mbind outcome_bind].
  rewrite ascii_feed_app.
  match goal with |- context [ascii_feed ?a1 ?s1 (hex_bytes _)] =>
    destruct (ascii_feed_bytes (ascii_frame addr pdu) a1 s1) as [cs ->]; try done end;
    [by apply ascii_frame_bytes
    | simpl; rewrite ascii_frame_length; unfold MB_SER_PDU_SIZE_MAX; lia |].
  cbn [mbind outcome_bind ascii_feed]. unfold xMBASCIIReceiveFSM.
  cbn [set_rx eSndState eRcvState eBytePos usRcvBufferPos ucMBLFCharacter].
  rewrite Hs, bool_decide_true by done. cbn [assert_ mbind outcome_bind].
  change (MB_ASCII_DEFAULT_CR =? MB_ASCII_START) with false.
  change (MB_ASCII_DEFAULT_CR =? MB_ASCII_DEFAULT_CR) with true.
  cbn [mbind outcome_bind set_rx eSndState eRcvState eBytePos usRcvBufferPos ucMBLFCharacter].
  rewrite Hs, Hlf, bool_decide_true by done. cbn [assert_ mbind outcome_bind].
  change (MB_ASCII_DEFAULT_LF =? MB_ASCII_DEFAULT_LF) with true.
  do 2 eexists. unfold set_rx. simpl. rewrite Hlf, ?Hs. reflexivity.
Qed.

(** ** Acceptance *)

Lemma ascii_receive_lrc a s bs :
  mem_ok s -> usRcvBufferPos a = Zlen bs -> slice (ucRTUBuf s) 0 (Zlen bs) = bs ->
  3 <= Zlen bs < MB_SER_PDU_SIZE_MAX ->
  eMBASCIIReceive a s =
    if u8 (- sum_bytes bs) =? 0
    then Ok (MB_ENOERR, Some (hd 0 bs, MB_SER_PDU_PDU_OFF, Zlen bs - 2))
    else Ok (MB_EIO, None).
Proof.
  intros [Hm Hb] Hpos Hbs Hl. unfold eMBASCIIReceive. rewrite Hpos.
  unfold MB_SER_PDU_SIZE_MAX in *.
  unfold MB_SER_PDU_SIZE_MIN, MB_SER_PDU_SIZE_MAX, MB_SER_PDU_PDU_OFF, MB_SER_PDU_SIZE_LRC.
  rewrite (proj2 (Z.ltb_lt _ _)) by lia. rewrite (proj2 (Z.leb_le _ _)) by lia.
  cbn [assert_ mbind outcome_bind].
  rewrite prvucMBLRC_spec by (done || lia). rewrite Hbs, bind_Ok_l.
  destruct (u8 (- sum_bytes bs) =? 0); [|done].
  destruct bs as [|x bs]; [by destruct Hl|].
  change MB_SER_PDU_ADDR_OFF with (0 + Z.of_nat 0).
  rewrite (rd_of_slice _ 0 (Zlen (x :: bs)) 0 x) by (try done; by rewrite Hbs).
  rewrite bind_Ok_l. rewrite u16_small by (unfold is_u16; lia).
  by replace (Zlen (x :: bs) - 1 - 1) with (Zlen (x :: bs) - 2) by lia.
Qed.

Lemma ascii_receive_frame a s addr pdu :
  mem_ok s -> usRcvBufferPos a = Zlen (ascii_frame addr pdu) ->
  slice (ucRTUBuf s) 0 (Zlen (ascii_frame addr pdu)) = ascii_frame addr pdu ->
  1 <= Zlen pdu <= 253 ->
  eMBASCIIReceive a s = Ok (MB_ENOERR, Some (addr, MB_SER_PDU_PDU_OFF, Zlen pdu)).
Proof.
  intros Hm Hpos Hs Hl.
  rewrite (ascii_receive_lrc a s (ascii_frame addr pdu)); try done.
  - unfold ascii_frame at 1. rewrite (proj2 (lrc_zero_iff _ _ (u8_range _))) by done.
    rewrite ascii_frame_length.
    by replace (Zlen pdu + 2 - 2) with (Zlen pdu) by lia.
  - rewrite ascii_frame_length. unfold MB_SER_PDU_SIZE_MAX. lia.
Qed.

(** ** Transmission *)

Lemma ascii_send_frame a s addr pdu :
  mem_ok s -> eRcvState a = STATE_RX_IDLE -> is_u8 addr -> bytes_ok pdu ->
  Zlen pdu <= 254 -> slice (ucRTUBuf s) 1 (Zlen pdu) = pdu ->
  exists s',
    eMBASCIISend a s addr 1 (Zlen pdu) =
      Ok (set_tx a STATE_TX_START (eBytePos a) 0 (Zlen pdu + 2), s', MB_ENOERR) /\
    mem_ok s' /\ queue s' = queue s /\ calls s' = SerialEnable false true :: calls s /\
    slice (ucRTUBuf s') 0 (Zlen pdu + 2) = ascii_frame addr pdu.
Proof.
  intros [Hm Hb] Hr Ha Hp Hl Hpdu. unfold eMBASCIISend. rewrite decide_True by done.
  unfold MB_SER_PDU_SIZE_MAX, MB_SER_PDU_ADDR_OFF in *. pose proof (Zlen_nonneg pdu).
  change (1 - 1) with 0. change (0 + 0) with 0.
  destruct (ucRTUBuf s) as [|x buf] eqn:Ebuf; [done|].
  rewrite Zlen_cons in Hm. inversion Hb as [|? ? _ Hb']; subst.
  assert (Hpre : slice buf 0 (Zlen pdu) = pdu) by (rewrite <- Hpdu at 2; done).
  rewrite wr_in_range by (rewrite Zlen_cons; lia). rewrite bind_Ok_l.
  change (<[Z.to_nat 0:=addr]> (x :: buf)) with (addr :: buf).
  rewrite (u16_small (1 + Zlen pdu)) by (unfold is_u16; lia).
  rewrite prvucMBLRC_spec by (auto with arr || (rewrite ?Zlen_cons; lia)). rewrite bind_Ok_l.
  assert (Eframe : slice (addr :: buf) 0 (1 + Zlen pdu) = addr :: pdu).
  { rewrite (slice_cons _ 0 _ addr) by (done || lia). f_equal. rewrite <- Hpre at 2.
    unfold slice. simpl. do 2 f_equal. lia. }
  rewrite Eframe. set (c := u8 (- sum_bytes (addr :: pdu))).
  assert (Hc : is_u8 c) by apply u8_range.
  rewrite (u16_small (1 + Zlen pdu + 1)) by (unfold is_u16; lia).
  rewrite wr_in_range, bind_Ok_l by (rewrite Zlen_cons; lia).
  set (buf' := <[_ := _]> _).
  exists (call (set_buf s buf') (SerialEnable false true)).
  assert (Hsp : buf' = splice (addr :: buf) (1 + Zlen pdu) [c]).
  { subst buf'. rewrite <- splice_cons
      by (rewrite ?Zlen_cons; change (Zlen (@nil Z)) with 0; lia).
    by rewrite splice_nil. }
  split; [|split; [|split; [done|split; [done|]]]].
  - do 4 f_equal. lia.
  - split; simpl ucRTUBuf; unfold MB_SER_PDU_SIZE_MAX; subst buf';
      [rewrite !Zlen_insert, Zlen_cons; lia|].
    apply Forall_insert; auto with arr.
  - simpl ucRTUBuf. rewrite Hsp. unfold ascii_frame. fold c.
    rewrite <- Eframe. unfold slice, splice, Zlen in *. change (Z.to_nat 0) with 0%nat.
    rewrite !drop_0. rewrite app_assoc. rewrite take_app_le.
    + apply take_ge. rewrite length_app, length_take. simpl. lia.
    + rewrite length_app, length_take. simpl. lia.
Qed.

(** The data part: two interrupts a byte. *)
Lemma ascii_drain_data n a cur s :
  eRcvState a = STATE_RX_IDLE -> bytes_ok (ucRTUBuf s) ->
  0 <= cur -> cur + Z.of_nat n <= Zlen (ucRTUBuf s) -> Z.of_nat n < 65536 ->
  exists cs,
    ascii_drain (2 * n) (set_tx a STATE_TX_DATA BYTE_HIGH_NIBBLE cur (Z.of_nat n)) s =
      Ok (set_tx a STATE_TX_DATA BYTE_HIGH_NIBBLE (cur + Z.of_nat n) 0,
          Serial (ucRTUBuf s) (queue s) cs) /\
    line_out cs = line_out (calls s) ++ hex_bytes (slice (ucRTUBuf s) cur (Z.of_nat n)).
Proof.
  intros Hr. revert cur s. induction n as [|n IH]; intros cur s Hb Hc Hfit Hn.
  - exists (calls s). rewrite slice_0 by done. rewrite app_nil_r, Z.add_0_r. by destruct s.
  - replace (2 * S n)%nat with (S (S (2 * n))) by lia.
    destruct (rd_in_range (ucRTUBuf s) cur) as [b Eb]; [lia|].
    assert (H8 : is_u8 b) by (by eapply bytes_rd).
    destruct (nibbles b H8) as (Hh & Hl & _).
    cbn [ascii_drain]. unfold xMBASCIITransmitFSM.
    cbn [set_tx eRcvState eSndState usSndBufferCount pucSndBufferCur eBytePos usRcvBufferPos
         ucMBLFCharacter].
    rewrite Hr, bool_decide_true by done. cbn [assert_ mbind outcome_bind].
    rewrite (proj2 (Z.ltb_lt _ _)) by lia. rewrite Eb. cbn [mbind outcome_bind].
    rewrite u8_small, bin2char by (unfold is_u8; lia). cbn [mbind outcome_bind].
    cbn [set_tx eRcvState eSndState usSndBufferCount pucSndBufferCur eBytePos usRcvBufferPos
         ucMBLFCharacter call ucRTUBuf].
    rewrite Hr, bool_decide_true by done. cbn [assert_ mbind outcome_bind].
    rewrite (proj2 (Z.ltb_lt _ _)) by lia. rewrite Eb. cbn [mbind outcome_bind].
    rewrite u8_small, bin2char by (unfold is_u8; lia). cbn [mbind outcome_bind].
    replace (u16 (Z.of_nat (S n) - 1)) with (Z.of_nat n)
      by (rewrite u16_small; unfold is_u16; lia).
    match goal with |- context [ascii_drain _ _ ?s1] =>
      destruct (IH (cur + 1) s1) as (cs & Hcs & Hout); simpl ucRTUBuf; try done; try lia end.
    unfold set_tx in Hcs. rewrite Hr in Hcs. exists cs. split.
    + unfold set_tx. rewrite Hr. etransitivity; [exact Hcs|]. do 3 f_equal. lia.
    + rewrite Hout, (slice_cons _ cur (Z.of_nat (S n)) b) by (done || lia).
      simpl. unfold hex_bytes. simpl. rewrite <- !app_assoc. simpl.
      replace (Z.of_nat (S n) - 1) with (Z.of_nat n) by lia. done.
Qed.

Lemma ascii_drain_add n m a s :
  ascii_drain (n + m) a s = ('(a, s) ← ascii_drain n a s; ascii_drain m a s).
Proof.
  revert a s. induction n as [|n IH]; intros a s; [done|]. simpl.
  destruct (xMBASCIITransmitFSM a s) as [[[a1 s1] p]|]; [apply IH | done].
Qed.

(** The first interrupt, and the last three. *)
Lemma ascii_drain_start a bp cur n s :
  eRcvState a = STATE_RX_IDLE ->
  ascii_drain 1 (set_tx a STATE_TX_START bp cur n) s =
    Ok (set_tx a STATE_TX_DATA BYTE_HIGH_NIBBLE cur n, call s (SerialPutByte MB_ASCII_START)).
Proof. destruct a. simpl. by intros ->. Qed.

Lemma ascii_drain_tail a cur b q cs :
  eRcvState a = STATE_RX_IDLE -> ucMBLFCharacter a = MB_ASCII_DEFAULT_LF ->
  ascii_drain 3 (set_tx a STATE_TX_DATA BYTE_HIGH_NIBBLE cur 0) (Serial b q cs) =
    Ok (set_tx a STATE_TX_IDLE BYTE_HIGH_NIBBLE cur 0,
        Serial b (Events EV_FRAME_SENT true)
          (SerialEnable true false :: SerialPutByte MB_ASCII_DEFAULT_LF ::
           SerialPutByte MB_ASCII_DEFAULT_CR :: cs)).
Proof. destruct a. simpl. by intros -> ->. Qed.

(** A transmission to the end: colon, two interrupts a byte, CR, LF, notify. *)
Lemma ascii_transmission a s addr pdu :
  mem_ok s -> eRcvState a = STATE_RX_IDLE -> ucMBLFCharacter a = MB_ASCII_DEFAULT_LF ->
  is_u8 addr -> bytes_ok pdu ->
  Zlen pdu <= 254 -> slice (ucRTUBuf s) 1 (Zlen pdu) = pdu ->
  exists a1 s1 a2 s2,
    eMBASCIISend a s addr 1 (Zlen pdu) = Ok (a1, s1, MB_ENOERR) /\
    ascii_drain (1 + 2 * (length pdu + 2) + 3) a1 s1 = Ok (a2, s2) /\
    line_out (calls s2) = line_out (calls s) ++ ascii_line addr pdu /\
    queue s2 = Events EV_FRAME_SENT true /\ eSndState a2 = STATE_TX_IDLE.
Proof.
  intros Hm Hr Hlf Ha Hp Hl Hpdu.
  destruct (ascii_send_frame a s addr pdu) as (s1 & Hsend & [Hm1 Hb1] & _ & Hc1 & Hf1); try done.
  unfold MB_SER_PDU_SIZE_MAX in *.
  replace (Zlen pdu + 2) with (Z.of_nat (length pdu + 2)) in * by (unfold Zlen; lia).
  destruct (ascii_drain_data (length pdu + 2) a 0 (call s1 (SerialPutByte MB_ASCII_START)))
    as (cs & Hdr & Hout); try done; simpl ucRTUBuf; [unfold Zlen in *; lia.. |].
  do 4 eexists. split; [exact Hsend|].
  rewrite !ascii_drain_add, ascii_drain_start by done. cbn [mbind outcome_bind]. rewrite Hdr.
  cbn [mbind outcome_bind]. rewrite ascii_drain_tail by done.
  split; [reflexivity|]. split; [|done]. simpl. rewrite Hout. simpl.
  rewrite Hc1, Hf1. simpl. unfold ascii_line. by rewrite <- !app_assoc.
Qed.

(** ** Properties *)

(** The longitudinal redundancy check: over a frame and one more byte it is
    zero exactly when that byte is the check of the frame itself, so a change of
    any single byte is detected. *)
Lemma prvucMBLRC_zero_iff bs c :
  bytes_ok bs -> is_u8 c ->
  prvucMBLRC (bs ++ [c]) 0 (Zlen bs + 1) = Ok 0 <-> prvucMBLRC bs 0 (Zlen bs) = Ok c.
Proof.
  intros Hb Hc. pose proof (Zlen_nonneg bs).
  rewrite !prvucMBLRC_spec by (auto with arr; rewrite ?Zlen_app; change (Zlen [c]) with 1; lia).
  rewrite !slice_all by (rewrite ?Zlen_app; done).
  split.
  - intros [= E]. apply lrc_zero_iff in E; [by rewrite E | done].
  - intros [= E]. f_equal. by apply lrc_zero_iff.
Qed.

Lemma prvucMBLRC_zero_iff_witness : prvucMBLRC ([0xF7; 0x03; 0x13; 0x89; 0; 0x0A] ++ [0x60]) 0
  (Zlen [0xF7; 0x03; 0x13; 0x89; 0; 0x0A] + 1) = Ok 0.
Proof. apply prvucMBLRC_zero_iff; [by_compute | by_compute | done]. Defined.

(** C37: round trip in ASCII mode: the characters one station sends, interrupt by
    interrupt, are announced and accepted by another as the same address and
    PDU, whatever state the receiver's machine was in before the colon. *)
Theorem ascii_roundtrip a s addr pdu b t :
  mem_ok s -> eRcvState a = STATE_RX_IDLE -> ucMBLFCharacter a = MB_ASCII_DEFAULT_LF ->
  calls s = [] -> is_u8 addr -> bytes_ok pdu -> 1 <= Zlen pdu <= 253 ->
  slice (ucRTUBuf s) 1 (Zlen pdu) = pdu ->
  mem_ok t -> eSndState b = STATE_TX_IDLE -> ucMBLFCharacter b = MB_ASCII_DEFAULT_LF ->
  exists a1 s1 a2 s2 b1 t1,
    eMBASCIISend a s addr 1 (Zlen pdu) = Ok (a1, s1, MB_ENOERR) /\
    ascii_drain (1 + 2 * (length pdu + 2) + 3) a1 s1 = Ok (a2, s2) /\
    ascii_feed b t (line_out (calls s2)) = Ok (b1, t1) /\
    queue t1 = Events EV_FRAME_RECEIVED true /\
    eMBASCIIReceive b1 t1 = Ok (MB_ENOERR, Some (addr, 1, Zlen pdu)) /\
    slice (ucRTUBuf t1) 1 (Zlen pdu) = pdu.
Proof.
  intros Hm Hr Hlf Hcs Ha Hp Hl Hpdu Hmt Hsb Hlfb.
  destruct (ascii_transmission a s addr pdu) as (a1 & s1 & a2 & s2 & Hsend & Hdr & Hout & _);
    try done; [lia|].
  rewrite Hcs in Hout. simpl in Hout.
  destruct (ascii_reception b t addr pdu) as (bp & cs & Hf); try done; [lia|].
  pose proof (ascii_frame_length addr pdu) as Hfl. destruct Hmt as [Hm2 Hb2].
  unfold MB_SER_PDU_SIZE_MAX in *.
  do 6 eexists. do 2 (split; [eassumption|]). rewrite Hout. split; [exact Hf|]. split; [done|].
  assert (Hin : slice (splice (ucRTUBuf t) 0 (ascii_frame addr pdu)) 0 (Zlen (ascii_frame addr pdu))
                = ascii_frame addr pdu) by (apply slice_splice; lia).
  split.
  - apply ascii_receive_frame; try done. split; simpl.
    + rewrite splice_length; unfold MB_SER_PDU_SIZE_MAX; lia.
    + apply Forall_splice; [done | by apply ascii_frame_bytes].
  - simpl. apply (slice_suffix _ 0 1 (Zlen pdu) [addr]); try done; [lia|].
    apply (slice_prefix _ 0 _ _ [u8 (- sum_bytes (addr :: pdu))]) in Hin; [|done].
    rewrite Zlen_cons in Hin. by rewrite Z.add_comm.
Qed.

(** The states for the witness: a sender, and a receiver in the middle of a
    frame that was never finished. *)
Definition ascii0 : ascii :=
  Ascii STATE_TX_IDLE STATE_RX_IDLE 0 BYTE_HIGH_NIBBLE 0 0 MB_ASCII_DEFAULT_LF.
Definition ascii_midframe : ascii :=
  Ascii STATE_TX_IDLE STATE_RX_RCV 7 BYTE_LOW_NIBBLE 0 0 MB_ASCII_DEFAULT_LF.
Definition ascii_serial0 : serial := Serial (replicate 256 0) (Events EV_READY false) [].

Lemma ascii_roundtrip_witness :
  exists a1 s1 a2 s2 b1 t1,
    eMBASCIISend ascii0 ascii_serial0 17 1 2 = Ok (a1, s1, MB_ENOERR) /\
    ascii_drain 12 a1 s1 = Ok (a2, s2) /\
    ascii_feed ascii_midframe ascii_serial0 (line_out (calls s2)) = Ok (b1, t1) /\
    eMBASCIIReceive b1 t1 = Ok (MB_ENOERR, Some (17, 1, 2)).
Proof.
  destruct (ascii_roundtrip ascii0 ascii_serial0 17 [0; 0] ascii_midframe ascii_serial0)
    as (a1 & s1 & a2 & s2 & b1 & t1 & H1 & H2 & H3 & _ & H4 & _);
    [by_compute | done | done | done | by_compute | by_compute | by_compute | done | by_compute
    | done | done |].
  by exists a1, s1, a2, s2, b1, t1.
Defined.

(** The character timer is not stopped when a frame is dropped in
    [STATE_RX_WAIT_EOF]; when it expires the machine is idle and the assertion
    of [xMBASCIITimerT1SExpired] fails. *)
Lemma ascii_timer_after_bad_eof :
  exists a s, ascii_feed ascii0 ascii_serial0 [MB_ASCII_START; MB_ASCII_DEFAULT_CR; 65] = Ok (a, s) /\
    timer_on (calls s) = true /\ xMBASCIITimerT1SExpired a s = Fault AssertFailed.
Proof. do 2 eexists. split; [vm_compute; reflexivity | by vm_compute]. Qed.

(** A character that is no hexadecimal digit is not refused: it is stored as the
    nibble 0xF, and spills into the high nibble when it comes second. *)
Lemma ascii_bad_digit_stored :
  exists a s, ascii_feed ascii0 ascii_serial0 [MB_ASCII_START; 48; 122] = Ok (a, s) /\
    rd (ucRTUBuf s) 0 = Ok 0xFF /\ usRcvBufferPos a = 1.
Proof. do 2 eexists. split; [vm_compute; reflexivity | by vm_compute]. Qed.
