(* ===== verification/MbTcp.v ===== *)
(** * FreeModbus: Modbus TCP (demo/LINUXTCP/port/porttcp.c, modbus/tcp/mbtcp.c)

    The port keeps one client connection and reassembles the request in
    [aucTCPBuf]; the frame functions strip and complete the MBAP header.  The
    socket calls are answered by a script of the environment ([net]). *)

From stdpp Require Import base numbers list.
From S2P Require Import Prelude MbDefs MbPort.

#[local] Open Scope Z_scope.

Definition MB_TCP_TID : Z := 0.
Definition MB_TCP_PID : Z := 2.
Definition MB_TCP_LEN : Z := 4.
Definition MB_TCP_UID : Z := 6.
Definition MB_TCP_FUNC : Z := 7.
Definition MB_TCP_PROTOCOL_ID : Z := 0.
Definition MB_TCP_DEFAULT_PORT : Z := 502.
Definition MB_TCP_READ_TIMEOUT : Z := 1000.
Definition MB_TCP_READ_CYCLE : Z := 100.
Definition MB_TCP_BUF_SIZE : Z := 256 + 7.
Definition MB_TCP_PSEUDO_ADDRESS : Z := 255.
Definition SOCKET_ERROR : Z := -1.
Definition INVALID_SOCKET : Z := -1.

(** ** The environment of the socket calls

    [recv] hands over at most the number of bytes asked for, and at most what is
    available; it returns 0 when the peer has nothing more to send.  [send]
    accepts at most the number of bytes offered. *)

Inductive client_event :=
| ClIdle                    (* [select] times out or fails: nothing to read yet *)
| ClError                   (* [recv] returns [SOCKET_ERROR] *)
| ClData (k : positive).    (* up to [k] bytes are available *)

Inductive send_event :=
| SndError                  (* [send] returns -1 *)
| SndClosed                 (* [send] returns 0 *)
| SndSome (k : positive).   (* up to [k] bytes are accepted *)

Record net := Net {
  listen_script : list (bool * Z);   (* is the listener readable, [accept]'s result *)
  client_script : list client_event;
  send_script : list send_event;
  inq : list Z;                      (* what the peer has still to send *)
  outq : list Z;                     (* what was sent to the peer *)
}.

(** [recv( xClientSocket, ..., n, 0 )]: the bytes received, [None] for an error. *)
Fixpoint net_recv (cs : list client_event) (inq : list Z) (n : Z)
    : outcome (list client_event * list Z * option (list Z)) :=
  match cs with
  | [] => Fault Blocked
  | ClIdle :: cs => net_recv cs inq n
  | ClError :: cs => Ok (cs, inq, None)
  | ClData k :: cs =>
      let m := Z.to_nat (Z.min (Z.pos k) n) in
      Ok (cs, drop m inq, Some (take m inq))
  end.

(** ** The state of the port *)

Record tcp := Tcp {
  xListenSocket : Z;
  xClientSocket : Z;
  aucTCPBuf : list Z;
  usTCPBufPos : Z;
  usTCPFrameBytesLeft : Z;
  tcp_queue : events;
  tcp_net : net;
}.

Definition set_client (t : tcp) (fd : Z) : tcp :=
  Tcp (xListenSocket t) fd (aucTCPBuf t) (usTCPBufPos t) (usTCPFrameBytesLeft t)
      (tcp_queue t) (tcp_net t).
Definition set_rcv (t : tcp) (buf : list Z) (pos left : Z) : tcp :=
  Tcp (xListenSocket t) (xClientSocket t) buf pos left (tcp_queue t) (tcp_net t).
Definition set_queue (t : tcp) (q : events) : tcp :=
  Tcp (xListenSocket t) (xClientSocket t) (aucTCPBuf t) (usTCPBufPos t)
      (usTCPFrameBytesLeft t) q (tcp_net t).
Definition set_net (t : tcp) (n : net) : tcp :=
  Tcp (xListenSocket t) (xClientSocket t) (aucTCPBuf t) (usTCPBufPos t)
      (usTCPFrameBytesLeft t) (tcp_queue t) n.
Definition set_in (n : net) (cs : list client_event) (q : list Z) : net :=
  Net (listen_script n) cs (send_script n) q (outq n).

(** ** porttcp.c *)

(** [fd_socket], [r_bind] and [r_listen] are the results of the three socket
    calls; the port asked for is returned with the state. *)
Definition xMBTCPPortInit (t : tcp) (usTCPPort fd_socket r_bind r_listen : Z)
    : tcp * Z * bool :=
  let usPort := if usTCPPort =? 0 then MB_TCP_DEFAULT_PORT else usTCPPort in
  let t := Tcp fd_socket (xClientSocket t) (aucTCPBuf t) (usTCPBufPos t)
               (usTCPFrameBytesLeft t) (tcp_queue t) (tcp_net t) in
  if fd_socket =? -1 then (t, usPort, false)
  else if r_bind =? -1 then (t, usPort, false)
  else if r_listen =? -1 then (t, usPort, false)
  else (t, usPort, true).

(** The bytes still in the socket are read into the frame buffer and lost. *)
Definition prvvMBPortReleaseClient (t : tcp) : outcome tcp :=
  '(cs, q, r) ← net_recv (client_script (tcp_net t)) (inq (tcp_net t)) MB_TCP_BUF_SIZE;
  buf ← wr_slice (aucTCPBuf t) 0 (default [] r);
  Ok (set_client (set_net (set_rcv t buf (usTCPBufPos t) (usTCPFrameBytesLeft t))
                          (set_in (tcp_net t) cs q)) INVALID_SOCKET).

Definition prvbMBPortAcceptClient (t : tcp) (xNewSocket : Z) : tcp * bool :=
  if negb (xClientSocket t =? INVALID_SOCKET) then (t, false)
  else if xNewSocket =? INVALID_SOCKET then (t, false)
  else (set_rcv (set_client t xNewSocket) (aucTCPBuf t) 0 MB_TCP_FUNC, true).

(** Both sockets are closed; [xListenSocket] keeps its (now invalid) value. *)
Definition vMBTCPPortClose (t : tcp) : outcome tcp :=
  if negb (xClientSocket t =? SOCKET_ERROR) then prvvMBPortReleaseClient t else Ok t.

Definition vMBTCPPortDisable (t : tcp) : outcome tcp :=
  if negb (xClientSocket t =? SOCKET_ERROR) then prvvMBPortReleaseClient t else Ok t.

(** What [xMBPortTCPPool] does with [ret = length chunk] bytes it received:
    [inl] to go on, [inr] when the frame is complete. *)
Definition pool_received (t : tcp) (chunk : list Z) : outcome (tcp + tcp) :=
  buf ← wr_slice (aucTCPBuf t) (usTCPBufPos t) chunk;
  let pos := u16 (usTCPBufPos t + Zlen chunk) in
  let left := u16 (usTCPFrameBytesLeft t - Zlen chunk) in
  if MB_TCP_FUNC <=? pos then
    hi ← rd buf MB_TCP_LEN;
    lo ← rd buf (MB_TCP_LEN + 1);
    let usLength := Z.lor (u16 (Z.shiftl hi 8)) lo in
    if pos <? MB_TCP_UID + usLength then
      Ok (inl (set_rcv t buf pos (u16 (usLength + MB_TCP_UID - pos))))
    else if pos =? MB_TCP_UID + usLength then
      let '(q, _) := xMBPortEventPost (tcp_queue t) EV_FRAME_RECEIVED in
      Ok (inr (set_queue (set_rcv t buf pos left) q))
    else
      _ ← assert_ (pos <=? MB_TCP_UID + usLength);
      Ok (inl (set_rcv t buf pos left))
  else Ok (inl (set_rcv t buf pos left)).

(** The [while( TRUE )] loop of [xMBPortTCPPool].  [FD_SET] on an invalid socket
    indexes the descriptor set out of bounds. *)
Fixpoint pool_loop (cs : list client_event) (t : tcp) : outcome (tcp * bool) :=
  if xClientSocket t =? INVALID_SOCKET then Fault OutOfBounds
  else
    match cs with
    | [] => Fault Blocked
    | ClIdle :: cs => pool_loop cs t
    | ClError :: cs =>
        Ok (set_client (set_net t (set_in (tcp_net t) cs (inq (tcp_net t)))) INVALID_SOCKET, true)
    | ClData k :: cs =>
        let m := Z.to_nat (Z.min (Z.pos k) (usTCPFrameBytesLeft t)) in
        let chunk := take m (inq (tcp_net t)) in
        let t := set_net t (set_in (tcp_net t) cs (drop m (inq (tcp_net t)))) in
        if bool_decide (chunk = []) then Ok (set_client t INVALID_SOCKET, true)
        else
          r ← pool_received t chunk;
          match r with
          | inl t => pool_loop cs t
          | inr t => Ok (t, true)
          end
    end.

Definition xMBPortTCPPool (t : tcp) : outcome (tcp * bool) :=
  t ← (if xClientSocket t =? INVALID_SOCKET then
         match listen_script (tcp_net t) with
         | [] => Fault Blocked
         | (isset, fd) :: ls =>
             let n := tcp_net t in
             let t := set_net t (Net ls (client_script n) (send_script n) (inq n) (outq n)) in
             Ok (if isset : bool then fst (prvbMBPortAcceptClient t fd) else t)
         end
       else Ok t);
  pool_loop (client_script (tcp_net t)) t.

(** The offset and the length of the request. *)
Definition xMBTCPPortGetRequest (t : tcp) : tcp * (Z * Z) * bool :=
  (set_rcv t (aucTCPBuf t) 0 MB_TCP_FUNC, (0, usTCPBufPos t), true).

(** The [do ... while] loop of [xMBTCPPortSendResponse]; [out] is what was sent. *)
Fixpoint send_loop (ss : list send_event) (t : tcp) (pucMBTCPFrame usTCPLength : Z)
    (iBytesSent iTimeOut : Z) (out : list Z) : outcome (tcp * bool) :=
  let done_ (t : tcp) ss out (iBytesSent : Z) :=
    let n := tcp_net t in
    Ok (set_net t (Net (listen_script n) (client_script n) ss (inq n) out),
        iBytesSent =? usTCPLength) in
  match ss with
  | [] => Fault Blocked
  | SndError :: ss =>
      if 0 <? iTimeOut then
        if negb (iBytesSent =? usTCPLength) then
          send_loop ss t pucMBTCPFrame usTCPLength iBytesSent (iTimeOut - MB_TCP_READ_CYCLE) out
        else done_ t ss out iBytesSent
      else done_ t ss out iBytesSent
  | SndClosed :: ss =>
      t ← prvvMBPortReleaseClient t;
      done_ t ss out iBytesSent
  | SndSome k :: ss =>
      let res := Z.min (Z.pos k) (usTCPLength - iBytesSent) in
      bs ← rd_slice (aucTCPBuf t) (pucMBTCPFrame + iBytesSent) res;
      let iBytesSent := iBytesSent + res in
      if negb (iBytesSent =? usTCPLength) then
        send_loop ss t pucMBTCPFrame usTCPLength iBytesSent iTimeOut (out ++ bs)
      else done_ t ss (out ++ bs) iBytesSent
  end.

Definition xMBTCPPortSendResponse (t : tcp) (pucMBTCPFrame usTCPLength : Z)
    : outcome (tcp * bool) :=
  send_loop (send_script (tcp_net t)) t pucMBTCPFrame usTCPLength 0 MB_TCP_READ_TIMEOUT
            (outq (tcp_net t)).

(** ** mbtcp.c *)

Definition eMBTCPDoInit (t : tcp) (ucTCPPort fd_socket r_bind r_listen : Z) : tcp * eMBErrorCode :=
  let '(t, _, ok) := xMBTCPPortInit t ucTCPPort fd_socket r_bind r_listen in
  (t, if ok : bool then MB_ENOERR else MB_EPORTERR).

Definition eMBTCPStart (t : tcp) : tcp := t.

Definition eMBTCPStop (t : tcp) : outcome tcp := vMBTCPPortDisable t.

Definition eMBTCPReceive (t : tcp) : outcome (tcp * eMBErrorCode * option (Z * Z * Z)) :=
  let '(t, (pucMBTCPFrame, usLength), ok) := xMBTCPPortGetRequest t in
  if ok : bool then
    hi ← rd (aucTCPBuf t) (pucMBTCPFrame + MB_TCP_PID);
    lo ← rd (aucTCPBuf t) (pucMBTCPFrame + MB_TCP_PID + 1);
    let usPID := Z.lor (u16 (Z.shiftl hi 8)) lo in
    if usPID =? MB_TCP_PROTOCOL_ID then
      Ok (t, MB_ENOERR,
          Some (MB_TCP_PSEUDO_ADDRESS, pucMBTCPFrame + MB_TCP_FUNC, u16 (usLength - MB_TCP_FUNC)))
    else Ok (t, MB_EIO, None)
  else Ok (t, MB_EIO, None).

Definition eMBTCPSend (t : tcp) (pucFrame usLength : Z) : outcome (tcp * eMBErrorCode) :=
  let pucMBTCPFrame := pucFrame - MB_TCP_FUNC in
  let usTCPLength := u16 (usLength + MB_TCP_FUNC) in
  buf ← wr (aucTCPBuf t) (pucMBTCPFrame + MB_TCP_LEN) (u8 (Z.shiftr (usLength + 1) 8));
  buf ← wr buf (pucMBTCPFrame + MB_TCP_LEN + 1) (u8 (Z.land (usLength + 1) 0xFF));
  '(t, ok) ← xMBTCPPortSendResponse
               (set_rcv t buf (usTCPBufPos t) (usTCPFrameBytesLeft t)) pucMBTCPFrame usTCPLength;
  Ok (t, if ok : bool then MB_ENOERR else MB_EIO).

(** ** Reassembly *)

(** A Modbus TCP frame: the MBAP header and the PDU. *)
Definition mbap (t1 t2 p1 p2 uid : Z) (pdu : list Z) : list Z :=
  [t1; t2; p1; p2; (Zlen pdu + 1) `div` 256; (Zlen pdu + 1) `mod` 256; uid] ++ pdu.

Lemma mbap_length t1 t2 p1 p2 uid pdu : Zlen (mbap t1 t2 p1 p2 uid pdu) = Zlen pdu + 7.
Proof. unfold mbap. rewrite Zlen_app. change (Zlen [_; _; _; _; _; _; _]) with 7. lia. Qed.

(** The turns of a script in which data arrive. *)
Definition is_data (e : client_event) : bool := if e is ClData _ then true else false.
Definition is_error (e : client_event) : bool := if e is ClError then true else false.
Definition data_turns (cs : list client_event) : nat := length (filter (fun e => is_data e) cs).

(** The length field of a buffer that begins with part [d] of a frame. *)
Lemma mbap_length_field buf d r t1 t2 p1 p2 uid pdu :
  d ++ r = mbap t1 t2 p1 p2 uid pdu -> 7 <= Zlen d -> slice buf 0 (Zlen d) = d ->
  bytes_ok buf -> Zlen pdu <= 256 ->
  rd buf MB_TCP_LEN = Ok ((Zlen pdu + 1) `div` 256) /\
  rd buf (MB_TCP_LEN + 1) = Ok ((Zlen pdu + 1) `mod` 256) /\
  Z.lor (u16 (Z.shiftl ((Zlen pdu + 1) `div` 256) 8)) ((Zlen pdu + 1) `mod` 256) = Zlen pdu + 1.
Proof.
  intros Hd Hl Hs Hb Hp. pose proof (Zlen_nonneg pdu).
  assert (Hat : forall k x, (k < 7)%nat -> mbap t1 t2 p1 p2 uid pdu !! k = Some x ->
                            rd buf (0 + Z.of_nat k) = Ok x).
  { intros k x Hk Hx. apply (rd_of_slice buf 0 (Zlen d) k x); [done|]. rewrite Hs.
    rewrite <- Hd in Hx. rewrite lookup_app_l in Hx; [done|]. unfold Zlen in *. lia. }
  split; [by apply (Hat 4%nat); [lia|]|]. split; [by apply (Hat 5%nat); [lia|]|].
  assert (Hb1 : is_u8 ((Zlen pdu + 1) `div` 256)).
  { eapply bytes_rd; [exact Hb|]. by apply (Hat 4%nat); [lia|]. }
  assert (Hb2 : is_u8 ((Zlen pdu + 1) `mod` 256)).
  { eapply bytes_rd; [exact Hb|]. by apply (Hat 5%nat); [lia|]. }
  rewrite be16_decode by done. pose proof (Z.div_mod (Zlen pdu + 1) 256 ltac:(done)). lia.
Qed.

(** The part of a frame received so far. *)
Record receiving (t : tcp) (d r rest : list Z) : Prop := {
  rcv_client : xClientSocket t <> INVALID_SOCKET;
  rcv_size : Zlen (aucTCPBuf t) = MB_TCP_BUF_SIZE;
  rcv_bytes : bytes_ok (aucTCPBuf t);
  rcv_pos : usTCPBufPos t = Zlen d;
  rcv_left : usTCPFrameBytesLeft t = if Zlen d <? 7 then 7 - Zlen d else Zlen r;
  rcv_prefix : slice (aucTCPBuf t) 0 (Zlen d) = d;
  rcv_inq : inq (tcp_net t) = r ++ rest;
}.

(** A chunk after the part [d]. *)
Lemma append_chunk (buf d c : list Z) :
  slice buf 0 (Zlen d) = d -> Zlen d + Zlen c <= Zlen buf ->
  slice (splice buf (Zlen d) c) 0 (Zlen (d ++ c)) = d ++ c.
Proof.
  intros Hd Hl. unfold slice, splice, Zlen in *. change (Z.to_nat 0) with O in *.
  rewrite drop_0 in *. rewrite !Nat2Z.id in *. rewrite Hd, app_assoc.
  apply take_app_length.
Qed.

(** The state of a complete frame [adu]. *)
Record received (t : tcp) (adu rest : list Z) : Prop := {
  rcd_client : xClientSocket t <> INVALID_SOCKET;
  rcd_size : Zlen (aucTCPBuf t) = MB_TCP_BUF_SIZE;
  rcd_bytes : bytes_ok (aucTCPBuf t);
  rcd_pos : usTCPBufPos t = Zlen adu;
  rcd_frame : slice (aucTCPBuf t) 0 (Zlen adu) = adu;
  rcd_event : tcp_queue t = Events EV_FRAME_RECEIVED true;
  rcd_inq : inq (tcp_net t) = rest;
}.

Section Reassembly.
Context (t1 t2 p1 p2 uid : Z) (pdu rest : list Z).
Hypothesis Hpdu : Zlen pdu <= 256.
Abbreviation adu := (mbap t1 t2 p1 p2 uid pdu).
Hypothesis Hadu : bytes_ok adu.

Lemma pool_received_step t d c r :
  receiving t d (c ++ r) rest -> d ++ c ++ r = adu -> c <> [] ->
  Zlen c <= usTCPFrameBytesLeft t ->
  forall t0, t0 = set_net t (set_in (tcp_net t) (client_script (tcp_net t0)) (r ++ rest)) ->
  exists t',
    (tcp_net t' = tcp_net t0 /\ xListenSocket t' = xListenSocket t0) /\
    if bool_decide (r = [])
    then pool_received t0 c = Ok (inr t') /\ received t' adu rest
    else pool_received t0 c = Ok (inl t') /\ receiving t' (d ++ c) r rest.
Proof.
  intros [Hcl Hsz Hby Hpos Hleft Hpre Hinq] Hd Hc Hroom t0 Ht0.
  pose proof (mbap_length t1 t2 p1 p2 uid pdu) as Ladu. pose proof (Zlen_nonneg pdu).
  pose proof (f_equal Zlen Hd) as Ld. rewrite !Zlen_app, Ladu in Ld.
  pose proof (Zlen_nonneg d). pose proof (Zlen_nonneg r).
  assert (1 <= Zlen c) by (destruct c; [done|]; rewrite Zlen_cons; pose proof (Zlen_nonneg c); lia).
  unfold MB_TCP_BUF_SIZE in *.
  assert (Hcb : bytes_ok c).
  { rewrite <- Hd in Hadu. apply Forall_app in Hadu as [_ Hadu'].
    by apply Forall_app in Hadu' as [? _]. }
  assert (E0 : aucTCPBuf t0 = aucTCPBuf t /\ usTCPBufPos t0 = Zlen d /\
               usTCPFrameBytesLeft t0 = usTCPFrameBytesLeft t /\
               xClientSocket t0 = xClientSocket t /\ inq (tcp_net t0) = r ++ rest).
  { rewrite Ht0. simpl. by rewrite Hpos. }
  destruct E0 as (E1 & E2 & E3 & E4 & E5).
  unfold pool_received. rewrite E1, E2, E3.
  rewrite wr_slice_in_range, bind_Ok_l by lia.
  rewrite (u16_small (Zlen d + Zlen c)) by (unfold is_u16; lia).
  rewrite Zlen_app in Hleft.
  assert (Hleft' : 0 <= usTCPFrameBytesLeft t - Zlen c < 65536).
  { destruct (Zlen d <? 7) eqn:G; zify_bool; lia. }
  rewrite (u16_small (usTCPFrameBytesLeft t - Zlen c)) by exact Hleft'.
  set (buf := splice (aucTCPBuf t) (Zlen d) c).
  assert (Hbuf : slice buf 0 (Zlen (d ++ c)) = d ++ c) by (apply append_chunk; [done | lia]).
  assert (Hbsz : Zlen buf = 263) by (subst buf; rewrite splice_length; lia).
  assert (Hbb : bytes_ok buf) by (by apply Forall_splice).
  rewrite <- Zlen_app. unfold MB_TCP_FUNC.
  destruct (7 <=? Zlen (d ++ c)) eqn:Hg; [apply Z.leb_le in Hg | apply Z.leb_gt in Hg];
    rewrite Zlen_app in *.
  - destruct (mbap_length_field buf (d ++ c) r t1 t2 p1 p2 uid pdu) as (R1 & R2 & R3);
      try done; [by rewrite <- app_assoc | by rewrite Zlen_app | by rewrite Zlen_app |].
    rewrite R1, bind_Ok_l, R2, bind_Ok_l, R3. unfold MB_TCP_UID. rewrite <- Zlen_app.
    case_bool_decide as Hr.
    + subst r. change (Zlen []) with 0 in *. rewrite Zlen_app.
      rewrite (proj2 (Z.ltb_ge _ _)), (proj2 (Z.eqb_eq _ _)) by lia.
      eexists. split; [|split; [reflexivity|]]; [done|].
      rewrite app_nil_r in Hd. split; simpl; try done; try congruence.
      * rewrite <- Hd, Zlen_app. lia.
      * rewrite <- Hd, Zlen_app. exact Hbuf.
    + assert (1 <= Zlen r) by (destruct r; [done|]; rewrite Zlen_cons; pose proof (Zlen_nonneg r); lia).
      rewrite Zlen_app. rewrite (proj2 (Z.ltb_lt _ _)) by lia.
      eexists. split; [|split; [reflexivity|]]; [done|].
      split; simpl; rewrite ?Zlen_app; try done; try congruence; try lia.
      rewrite (proj2 (Z.ltb_ge _ _)) by lia. rewrite u16_small; unfold is_u16; lia.
  - rewrite bool_decide_false by (intros ->; change (Zlen []) with 0 in *; lia).
    eexists. split; [|split; [reflexivity|]]; [done|].
    split; simpl; rewrite ?Zlen_app; try done; try congruence; try lia.
    rewrite (proj2 (Z.ltb_lt (Zlen d) 7)) in Hleft by lia.
    rewrite (proj2 (Z.ltb_lt _ _)) by lia. lia.
Qed.

Lemma pool_loop_reassembles cs t d r :
  receiving t d r rest -> d ++ r = adu -> r <> [] ->
  Forall (fun e => is_error e = false) cs -> Zlen r <= Z.of_nat (data_turns cs) ->
  exists t', pool_loop cs t = Ok (t', true) /\ received t' adu rest /\
             send_script (tcp_net t') = send_script (tcp_net t) /\
             outq (tcp_net t') = outq (tcp_net t).
Proof.
  intros Hrcv Hd Hr Herr. revert t d r Hrcv Hd Hr.
  induction Herr as [|e cs He Herr IH]; intros t d r Hrcv Hd Hr Hturns.
  { destruct r; [done|]. rewrite Zlen_cons in Hturns. pose proof (Zlen_nonneg r).
    unfold data_turns in Hturns. simpl in Hturns. lia. }
  cbn [pool_loop]. pose proof (rcv_client _ _ _ _ Hrcv) as Hcl.
  rewrite (proj2 (Z.eqb_neq _ _)) by exact Hcl.
  destruct e as [| |k]; [|done|].
  { apply (IH t d r); try done. }
  pose proof (rcv_left _ _ _ _ Hrcv) as Hleft. rewrite (rcv_inq _ _ _ _ Hrcv).
  pose proof (mbap_length t1 t2 p1 p2 uid pdu) as Ladu. pose proof (Zlen_nonneg pdu).
  pose proof (f_equal Zlen Hd) as Ld. rewrite Zlen_app, Ladu in Ld.
  assert (1 <= Zlen r) by (destruct r; [done|]; rewrite Zlen_cons; pose proof (Zlen_nonneg r); lia).
  assert (Hl : 1 <= usTCPFrameBytesLeft t <= Zlen r).
  { rewrite Hleft. destruct (Zlen d <? 7) eqn:G; zify_bool; lia. }
  set (m := Z.to_nat (Z.min (Z.pos k) (usTCPFrameBytesLeft t))).
  assert (Hm : (1 <= m <= length r)%nat) by (unfold Zlen in *; lia).
  rewrite take_app_le, drop_app_le by lia.
  set (c := take m r).
  assert (Lc : Zlen c = Z.of_nat m) by (unfold Zlen; subst c; rewrite length_take; lia).
  rewrite bool_decide_false by (intros E; rewrite E in Lc; change (Zlen []) with 0 in Lc; lia).
  rewrite <- (take_drop m r) in Hrcv, Hd. fold c in Hrcv, Hd.
  set (t0 := set_net t (set_in (tcp_net t) cs (drop m r ++ rest))).
  destruct (pool_received_step t d c (drop m r) Hrcv) with (t0 := t0) as (t' & [En _] & Hstep);
    try done; [by intros E; rewrite E in Lc; change (Zlen []) with 0 in Lc; lia
              | rewrite Lc; subst m; lia |].
  assert (Es : send_script (tcp_net t') = send_script (tcp_net t) /\
               outq (tcp_net t') = outq (tcp_net t)) by (by rewrite En).
  revert Hstep. case_bool_decide as Hrest; intros [-> Hrcv']; cbn [mbind outcome_bind].
  - by exists t'.
  - rewrite <- (proj1 Es), <- (proj2 Es). apply (IH t' (d ++ c) (drop m r)); try done.
    + by rewrite <- app_assoc.
    + unfold data_turns in *. rewrite filter_cons_True in Hturns by done. simpl in Hturns.
      unfold Zlen in *. rewrite length_drop. lia.
Qed.
End Reassembly.

(** ** Sending *)

Definition is_some_sent (e : send_event) : bool := if e is SndSome _ then true else false.

Lemma slice_split {A} (b : list A) i n m :
  0 <= i -> 0 <= n -> 0 <= m -> slice b i (n + m) = slice b i n ++ slice b (i + n) m.
Proof.
  intros Hi Hn Hm. unfold slice. rewrite !Z2Nat.inj_add by done.
  rewrite <- drop_drop. symmetry. apply take_take_drop.
Qed.

(** As long as the socket takes something each time, all of the frame is sent. *)
Lemma send_loop_all ss t p len sent tmo out :
  Forall (fun e => is_some_sent e = true) ss ->
  0 <= p -> 0 <= sent < len -> p + len <= Zlen (aucTCPBuf t) ->
  len - sent <= Zlen ss ->
  exists ss',
    send_loop ss t p len sent tmo out =
      Ok (set_net t (Net (listen_script (tcp_net t)) (client_script (tcp_net t)) ss'
                         (inq (tcp_net t)) (out ++ slice (aucTCPBuf t) (p + sent) (len - sent))),
          true).
Proof.
  intros Hss Hp. revert sent out. induction Hss as [|e ss He Hss IH]; intros sent out Hs Hl Hn.
  { change (Zlen []) with 0 in Hn. lia. }
  rewrite Zlen_cons in Hn. destruct e as [| |k]; try done. cbn [send_loop].
  set (res := Z.min (Z.pos k) (len - sent)). assert (Hres : 1 <= res <= len - sent) by lia.
  rewrite rd_slice_in_range by lia. cbn [mbind outcome_bind].
  destruct (sent + res =? len) eqn:G; zify_bool; cbn [negb].
  - exists ss. by replace res with (len - sent) by lia.
  - destruct (IH (sent + res) (out ++ slice (aucTCPBuf t) (p + sent) res)) as [ss' ->]; try lia.
    exists ss'. rewrite <- app_assoc. replace (len - sent) with (res + (len - (sent + res))) by lia.
    rewrite slice_split by lia. by rewrite Z.add_assoc.
Qed.

(** After [MB_TCP_READ_TIMEOUT / MB_TCP_READ_CYCLE] retries a dead socket makes
    the send give up. *)
Lemma send_loop_errors t p len out ss :
  0 < len ->
  send_loop (replicate 11 SndError ++ ss) t p len 0 MB_TCP_READ_TIMEOUT out =
    Ok (set_net t (Net (listen_script (tcp_net t)) (client_script (tcp_net t)) ss
                       (inq (tcp_net t)) out), false).
Proof.
  intros Hl. unfold MB_TCP_READ_TIMEOUT. cbn [replicate app].
  assert (E : (0 =? len) = false) by (apply Z.eqb_neq; lia).
  cbn [send_loop]. unfold MB_TCP_READ_CYCLE. by rewrite !E.
Qed.

(** [eMBTCPSend] completes the MBAP header of the response in place. *)
Lemma tcp_send_frame t x1 x2 t1 t2 p1 p2 uid pdu :
  Zlen (aucTCPBuf t) = MB_TCP_BUF_SIZE -> Zlen pdu <= 256 ->
  slice (aucTCPBuf t) 0 (Zlen pdu + 7) = [t1; t2; p1; p2; x1; x2; uid] ++ pdu ->
  Forall (fun e => is_some_sent e = true) (send_script (tcp_net t)) ->
  Zlen pdu + 7 <= Zlen (send_script (tcp_net t)) ->
  exists buf ss,
    eMBTCPSend t MB_TCP_FUNC (Zlen pdu) =
      Ok (set_net (set_rcv t buf (usTCPBufPos t) (usTCPFrameBytesLeft t))
            (Net (listen_script (tcp_net t)) (client_script (tcp_net t)) ss (inq (tcp_net t))
                 (outq (tcp_net t) ++ mbap t1 t2 p1 p2 uid pdu)), MB_ENOERR) /\
    Zlen buf = MB_TCP_BUF_SIZE /\ (bytes_ok (aucTCPBuf t) -> bytes_ok buf).
Proof.
  intros Hsz Hl Hs Hss Hn. pose proof (Zlen_nonneg pdu). unfold MB_TCP_BUF_SIZE in *.
  unfold eMBTCPSend, MB_TCP_FUNC, MB_TCP_LEN. change (7 - 7) with 0.
  rewrite wr_in_range, bind_Ok_l by lia. rewrite wr_in_range, bind_Ok_l by (rewrite Zlen_insert; lia).
  rewrite u16_small by (unfold is_u16; lia).
  rewrite land_255, shiftr_8.
  pose proof (Z.div_mod (Zlen pdu + 1) 256 ltac:(done)).
  pose proof (Z.mod_pos_bound (Zlen pdu + 1) 256 ltac:(done)).
  rewrite !u8_small by (unfold is_u8; lia). change (0 + 4 + 1) with 5. change (0 + 4) with 4.
  set (buf := <[Z.to_nat 5 := _]> _).
  assert (Hbl : Zlen buf = 263) by (subst buf; by rewrite !Zlen_insert).
  assert (Hbuf : slice buf 0 (Zlen pdu + 7) = mbap t1 t2 p1 p2 uid pdu).
  { revert Hs. subst buf. unfold slice, Zlen in *. change (Z.to_nat 0) with O.
    rewrite !drop_0. replace (Z.to_nat (Z.of_nat (length pdu) + 7)) with (7 + length pdu)%nat by lia.
    generalize (aucTCPBuf t) as l. intros l.
    do 7 (destruct l as [|? l]; [by intros|]). simpl.
    intros E. injection E as -> -> -> -> -> -> -> E. by rewrite E. }
  unfold xMBTCPPortSendResponse. simpl tcp_net.
  destruct (send_loop_all (send_script (tcp_net t))
              (set_rcv t buf (usTCPBufPos t) (usTCPFrameBytesLeft t)) 0 (Zlen pdu + 7) 0
              MB_TCP_READ_TIMEOUT (outq (tcp_net t))) as [ss' Hsend];
    try done; simpl; try lia.
  exists buf, ss'. rewrite Hsend. rewrite Z.sub_0_r. change (0 + 0) with 0.
  split; [by rewrite <- Hbuf|]. split; [done|].
  intros Hb. subst buf. repeat apply Forall_insert; try done; unfold is_u8; lia.
Qed.

(** ** Properties *)

(** a request is reassembled whatever the pieces it arrives in: from the
    start of a frame, if no receive fails and data arrive in enough turns, the
    poll function returns with [EV_FRAME_RECEIVED] posted, the frame and nothing
    else consumed from the stream and stored at the start of the buffer. *)
Lemma tcp_pool_reassembles t t1 t2 p1 p2 uid pdu rest :
  xClientSocket t <> INVALID_SOCKET -> Zlen (aucTCPBuf t) = MB_TCP_BUF_SIZE ->
  bytes_ok (aucTCPBuf t) -> usTCPBufPos t = 0 -> usTCPFrameBytesLeft t = MB_TCP_FUNC ->
  bytes_ok (mbap t1 t2 p1 p2 uid pdu) -> Zlen pdu <= 256 ->
  inq (tcp_net t) = mbap t1 t2 p1 p2 uid pdu ++ rest ->
  Forall (fun e => is_error e = false) (client_script (tcp_net t)) ->
  Zlen pdu + 7 <= Z.of_nat (data_turns (client_script (tcp_net t))) ->
  exists t', xMBPortTCPPool t = Ok (t', true) /\ received t' (mbap t1 t2 p1 p2 uid pdu) rest.
Proof.
  intros Hcl Hsz Hb Hpos Hleft Hadu Hpdu Hin Herr Hturns.
  unfold xMBPortTCPPool. rewrite (proj2 (Z.eqb_neq _ _)) by done. rewrite bind_Ok_l.
  destruct (pool_loop_reassembles t1 t2 p1 p2 uid pdu rest Hpdu Hadu
              (client_script (tcp_net t)) t [] (mbap t1 t2 p1 p2 uid pdu))
    as (t' & Hpool & Hr & _); try done.
  - by rewrite mbap_length.
  - by exists t'.
Qed.

(** A connected port with a request on the way. *)
Definition tcp_conn (n : net) : tcp :=
  Tcp 3 4 (replicate 263 0) 0 MB_TCP_FUNC (Events EV_READY false) n.
Definition one_by_one (k : nat) : list client_event := replicate k (ClData 1).

Lemma tcp_pool_reassembles_witness :
  exists t', xMBPortTCPPool
      (tcp_conn (Net [] (ClIdle :: ClData 5 :: one_by_one 20) [] (mbap 0 1 0 0 9 [3; 0; 1; 0; 2] ++ [7]) []))
      = Ok (t', true) /\ received t' (mbap 0 1 0 0 9 [3; 0; 1; 0; 2]) [7].
Proof. apply tcp_pool_reassembles; by_compute || done. Defined.

(** What a complete header asks for next. *)
Lemma pool_received_header t hi lo a b c d e :
  aucTCPBuf t = replicate 263 0 -> usTCPBufPos t = 0 -> usTCPFrameBytesLeft t = 7 ->
  is_u8 hi -> is_u8 lo -> 1 < hi * 256 + lo ->
  pool_received t [a; b; c; d; hi; lo; e] =
    Ok (inl (set_rcv t ([a; b; c; d; hi; lo; e] ++ replicate 256 0) 7
                     (u16 (hi * 256 + lo + 6 - 7)))).
Proof.
  intros Hb Hp Hl Hhi Hlo Hgt. unfold pool_received. rewrite Hb, Hp, Hl.
  rewrite wr_slice_in_range by (by vm_compute). rewrite bind_Ok_l.
  change (splice (replicate 263 0) 0 [a; b; c; d; hi; lo; e])
    with ([a; b; c; d; hi; lo; e] ++ replicate 256 0).
  change (MB_TCP_FUNC <=? _) with true. cbn iota beta.
  change (rd ([a; b; c; d; hi; lo; e] ++ replicate 256 0) MB_TCP_LEN) with (Ok hi).
  change (rd ([a; b; c; d; hi; lo; e] ++ replicate 256 0) (MB_TCP_LEN + 1)) with (Ok lo).
  rewrite !bind_Ok_l, be16_decode by done.
  change (u16 (0 + Zlen [a; b; c; d; hi; lo; e])) with 7. unfold MB_TCP_UID.
  by rewrite (proj2 (Z.ltb_lt _ _)) by lia.
Qed.

(** the length field of the MBAP header is trusted: a header that announces
    no bytes fails an assertion, and one that announces more than the buffer
    holds makes [recv] write past the end of [aucTCPBuf]. *)
Lemma tcp_header_length_unchecked :
  xMBPortTCPPool (tcp_conn (Net [] [ClData 7] [] [0; 1; 0; 0; 0; 0; 9] [])) = Fault AssertFailed /\
  forall hi lo data,
    is_u8 hi -> is_u8 lo -> 257 < hi * 256 + lo <= 65530 -> hi * 256 + lo <= Zlen data ->
    xMBPortTCPPool (tcp_conn (Net [] [ClData 7; ClData 65535] []
                                  ([0; 1; 0; 0; hi; lo; 9] ++ data) [])) = Fault OutOfBounds.
Proof.
  split; [by vm_compute|]. intros hi lo data Hhi Hlo Hgt Hdata.
  unfold xMBPortTCPPool, tcp_conn. cbn [xClientSocket].
  change (4 =? INVALID_SOCKET) with false. cbn iota. rewrite bind_Ok_l.
  cbn [tcp_net client_script pool_loop xClientSocket inq usTCPFrameBytesLeft].
  change (Z.to_nat (Z.min 7 MB_TCP_FUNC)) with 7%nat. cbn [take drop app].
  change (4 =? INVALID_SOCKET) with false. cbn iota. rewrite bool_decide_false by done.
  rewrite pool_received_header by (done || lia).
  cbn [mbind outcome_bind set_rcv set_net xClientSocket usTCPFrameBytesLeft tcp_net set_in inq].
  rewrite u16_small by (unfold is_u16; lia). change (4 =? INVALID_SOCKET) with false. cbn iota.
  rewrite drop_0. set (m := Z.to_nat _).
  assert (Hm : (257 <= m)%nat) by (subst m; lia).
  assert (Lm : Zlen (take m data) = Z.of_nat m) by (unfold Zlen in *; rewrite length_take; lia).
  rewrite bool_decide_false by (intros E; rewrite E in Lm; change (Zlen []) with 0 in Lm; lia).
  unfold pool_received, wr_slice. cbn [usTCPBufPos aucTCPBuf]. rewrite bool_decide_false; [done|].
  rewrite Lm. change (Zlen _) with 263. cbn [usTCPBufPos set_net set_rcv]. lia.
Qed.

Lemma tcp_header_length_unchecked_witness :
  xMBPortTCPPool (tcp_conn (Net [] [ClData 7; ClData 65535] []
                                ([0; 1; 0; 0; 1; 2; 9] ++ replicate 258 0) [])) = Fault OutOfBounds.
Proof. apply tcp_header_length_unchecked; by_compute. Defined.
