(* ===== verification/Mb.v ===== *)
(** * FreeModbus: the protocol stack (modbus/mb.c)

    Initialisation, the enable/disable state machine, the table of function
    handlers and the polling function that turns a received frame into a
    response.  The stack's state holds the three transports and one event queue;
    a pointer to the current frame functions is the mode whose functions
    [eMBInit] or [eMBTCPInit] installed. *)

From stdpp Require Import base numbers list.
From S2P Require Import MbRtu MbAscii.
From S2P Require Import Prelude MbDefs MbFunc MbPort MbTcp.

#[local] Open Scope Z_scope.

Inductive eMBState_t := STATE_ENABLED | STATE_DISABLED | STATE_NOT_INITIALIZED.
#[global] Instance eMBState_eq_dec : EqDecision eMBState_t.
Proof. solve_decision. Defined.

(** The handlers of modbus/functions/ and those an application registers. *)
Inductive handler_id :=
| H_ReportSlaveID
| H_ReadInputRegister
| H_ReadHoldingRegister
| H_WriteMultipleHoldingRegister
| H_WriteHoldingRegister
| H_ReadWriteMultipleHoldingRegister
| H_ReadCoils
| H_WriteCoil
| H_WriteMultipleCoils
| H_ReadDiscreteInputs
| H_User (n : nat).
#[global] Instance handler_id_eq_dec : EqDecision handler_id.
Proof. solve_decision. Defined.

(** An entry of [xFuncHandlers]: [ucFunctionCode] and [pxHandler]. *)
Definition xMBFunctionHandler : Type := Z * option handler_id.

(** The table as it is initialised; the entries after the listed ones are zero. *)
Definition xFuncHandlers0 : list xMBFunctionHandler :=
  [ (MB_FUNC_OTHER_REPORT_SLAVEID, Some H_ReportSlaveID);
    (MB_FUNC_READ_INPUT_REGISTER, Some H_ReadInputRegister);
    (MB_FUNC_READ_HOLDING_REGISTER, Some H_ReadHoldingRegister);
    (MB_FUNC_WRITE_MULTIPLE_REGISTERS, Some H_WriteMultipleHoldingRegister);
    (MB_FUNC_WRITE_REGISTER, Some H_WriteHoldingRegister);
    (MB_FUNC_READWRITE_MULTIPLE_REGISTERS, Some H_ReadWriteMultipleHoldingRegister);
    (MB_FUNC_READ_COILS, Some H_ReadCoils);
    (MB_FUNC_WRITE_SINGLE_COIL, Some H_WriteCoil);
    (MB_FUNC_WRITE_MULTIPLE_COILS, Some H_WriteMultipleCoils);
    (MB_FUNC_READ_DISCRETE_INPUTS, Some H_ReadDiscreteInputs) ] ++ replicate 6 (0, None).

(** Where [ucMBFrame] points. *)
Inductive frame_ptr := FrameSerial (off : Z) | FrameTcp (off : Z).

(** The build configuration (mbconfig.h, port.h). *)
Record config := Config {
  MB_RTU_ENABLED : bool;
  MB_ASCII_ENABLED : bool;
  MB_PORT_HAS_CLOSE : bool;
}.

(** This tree: TCP only, with a close function. *)
Definition config_linuxtcp : config := Config false false true.

Record mb (R : Type) := Mb {
  m_rtu : MbRtu.rtu;
  m_ascii : MbAscii.ascii;
  m_buf : list Z;                   (* ucRTUBuf *)
  m_calls : list port_call;
  m_tcp : tcp;
  m_queue : events;
  ucMBAddress : Z;
  eMBCurrentMode : eMBMode;
  eMBState : eMBState_t;
  cur_fns : option eMBMode;         (* whose frame functions are installed *)
  has_close : bool;                 (* pvMBFrameCloseCur != NULL *)
  xFuncHandlers : list xMBFunctionHandler;
  ucMBFrame : option frame_ptr;     (* the static variables of eMBPoll *)
  ucRcvAddress : Z;
  usLength : Z;
  m_app : app R;
}.
Arguments Mb {R}.
Arguments m_rtu {R}. Arguments m_ascii {R}. Arguments m_buf {R}. Arguments m_calls {R}.
Arguments m_tcp {R}. Arguments m_queue {R}. Arguments ucMBAddress {R}.
Arguments eMBCurrentMode {R}. Arguments eMBState {R}. Arguments cur_fns {R}.
Arguments has_close {R}. Arguments xFuncHandlers {R}. Arguments ucMBFrame {R}.
Arguments ucRcvAddress {R}. Arguments usLength {R}. Arguments m_app {R}.

Section Setters.
Context {R : Type}.
Implicit Types m : mb R.

Definition get_serial m : serial := Serial (m_buf m) (m_queue m) (m_calls m).
Definition get_tcp m : tcp := set_queue (m_tcp m) (m_queue m).

Definition put_rtu m (r : MbRtu.rtu) (s : serial) : mb R :=
  Mb r (m_ascii m) (ucRTUBuf s) (calls s) (m_tcp m) (queue s) (ucMBAddress m)
     (eMBCurrentMode m) (eMBState m) (cur_fns m) (has_close m) (xFuncHandlers m)
     (ucMBFrame m) (ucRcvAddress m) (usLength m) (m_app m).
Definition put_ascii m (a : MbAscii.ascii) (s : serial) : mb R :=
  Mb (m_rtu m) a (ucRTUBuf s) (calls s) (m_tcp m) (queue s) (ucMBAddress m)
     (eMBCurrentMode m) (eMBState m) (cur_fns m) (has_close m) (xFuncHandlers m)
     (ucMBFrame m) (ucRcvAddress m) (usLength m) (m_app m).
Definition put_tcp m (t : tcp) : mb R :=
  Mb (m_rtu m) (m_ascii m) (m_buf m) (m_calls m) t (tcp_queue t) (ucMBAddress m)
     (eMBCurrentMode m) (eMBState m) (cur_fns m) (has_close m) (xFuncHandlers m)
     (ucMBFrame m) (ucRcvAddress m) (usLength m) (m_app m).
Definition put_queue m (q : events) : mb R :=
  Mb (m_rtu m) (m_ascii m) (m_buf m) (m_calls m) (m_tcp m) q (ucMBAddress m)
     (eMBCurrentMode m) (eMBState m) (cur_fns m) (has_close m) (xFuncHandlers m)
     (ucMBFrame m) (ucRcvAddress m) (usLength m) (m_app m).
Definition put_state m (st : eMBState_t) : mb R :=
  Mb (m_rtu m) (m_ascii m) (m_buf m) (m_calls m) (m_tcp m) (m_queue m) (ucMBAddress m)
     (eMBCurrentMode m) st (cur_fns m) (has_close m) (xFuncHandlers m)
     (ucMBFrame m) (ucRcvAddress m) (usLength m) (m_app m).
Definition put_mode m (addr : Z) (mode : eMBMode) : mb R :=
  Mb (m_rtu m) (m_ascii m) (m_buf m) (m_calls m) (m_tcp m) (m_queue m) addr
     mode (eMBState m) (cur_fns m) (has_close m) (xFuncHandlers m)
     (ucMBFrame m) (ucRcvAddress m) (usLength m) (m_app m).
Definition put_fns m (mode : eMBMode) (close : bool) : mb R :=
  Mb (m_rtu m) (m_ascii m) (m_buf m) (m_calls m) (m_tcp m) (m_queue m) (ucMBAddress m)
     (eMBCurrentMode m) (eMBState m) (Some mode) close (xFuncHandlers m)
     (ucMBFrame m) (ucRcvAddress m) (usLength m) (m_app m).
Definition put_handlers m (hs : list xMBFunctionHandler) : mb R :=
  Mb (m_rtu m) (m_ascii m) (m_buf m) (m_calls m) (m_tcp m) (m_queue m) (ucMBAddress m)
     (eMBCurrentMode m) (eMBState m) (cur_fns m) (has_close m) hs
     (ucMBFrame m) (ucRcvAddress m) (usLength m) (m_app m).
Definition put_frame m (f : frame_ptr) (addr len : Z) : mb R :=
  Mb (m_rtu m) (m_ascii m) (m_buf m) (m_calls m) (m_tcp m) (m_queue m) (ucMBAddress m)
     (eMBCurrentMode m) (eMBState m) (cur_fns m) (has_close m) (xFuncHandlers m)
     (Some f) addr len (m_app m).
Definition put_len m (len : Z) : mb R :=
  Mb (m_rtu m) (m_ascii m) (m_buf m) (m_calls m) (m_tcp m) (m_queue m) (ucMBAddress m)
     (eMBCurrentMode m) (eMBState m) (cur_fns m) (has_close m) (xFuncHandlers m)
     (ucMBFrame m) (ucRcvAddress m) len (m_app m).
Definition put_app m (a : app R) : mb R :=
  Mb (m_rtu m) (m_ascii m) (m_buf m) (m_calls m) (m_tcp m) (m_queue m) (ucMBAddress m)
     (eMBCurrentMode m) (eMBState m) (cur_fns m) (has_close m) (xFuncHandlers m)
     (ucMBFrame m) (ucRcvAddress m) (usLength m) a.

(** The memory [ucMBFrame] points into. *)
Definition frame_mem m (f : frame_ptr) : list Z * Z :=
  match f with
  | FrameSerial o => (m_buf m, o)
  | FrameTcp o => (aucTCPBuf (m_tcp m), o)
  end.
Definition put_frame_mem m (f : frame_ptr) (buf : list Z) : mb R :=
  match f with
  | FrameSerial _ =>
      Mb (m_rtu m) (m_ascii m) buf (m_calls m) (m_tcp m) (m_queue m) (ucMBAddress m)
         (eMBCurrentMode m) (eMBState m) (cur_fns m) (has_close m) (xFuncHandlers m)
         (ucMBFrame m) (ucRcvAddress m) (usLength m) (m_app m)
  | FrameTcp _ =>
      let t := m_tcp m in
      Mb (m_rtu m) (m_ascii m) (m_buf m) (m_calls m)
         (set_rcv t buf (usTCPBufPos t) (usTCPFrameBytesLeft t)) (m_queue m) (ucMBAddress m)
         (eMBCurrentMode m) (eMBState m) (cur_fns m) (has_close m) (xFuncHandlers m)
         (ucMBFrame m) (ucRcvAddress m) (usLength m) (m_app m)
  end.
End Setters.

Section Stack.
Context {R : Type} `{RegCB R}.
Context (cfg : config).
(** The serial port's initialisation, which is not part of the tree, and the
    handlers of an application. *)
Context (xMBPortSerialInit : Z -> Z -> Z -> eMBParity -> bool) (xMBPortTimersInit : Z -> bool).
Context (user_handler : nat -> app R -> list Z -> Z -> Z -> outcome (@hresult R)).
Implicit Types m : mb R.

Definition run_handler (h : handler_id) : app R -> list Z -> Z -> Z -> outcome (@hresult R) :=
  match h with
  | H_ReportSlaveID => eMBFuncReportSlaveID
  | H_ReadInputRegister => eMBFuncReadInputRegister
  | H_ReadHoldingRegister => eMBFuncReadHoldingRegister
  | H_WriteMultipleHoldingRegister => eMBFuncWriteMultipleHoldingRegister
  | H_WriteHoldingRegister => eMBFuncWriteHoldingRegister
  | H_ReadWriteMultipleHoldingRegister => eMBFuncReadWriteMultipleHoldingRegister
  | H_ReadCoils => eMBFuncReadCoils
  | H_WriteCoil => eMBFuncWriteCoil
  | H_WriteMultipleCoils => eMBFuncWriteMultipleCoils
  | H_ReadDiscreteInputs => eMBFuncReadDiscreteInputs
  | H_User n => user_handler n
  end.

(** ** Initialisation *)

Definition eMBInit m (eMode : eMBMode) (ucSlaveAddress ucPort ulBaudRate : Z)
    (eParity : eMBParity) : outcome (mb R * eMBErrorCode) :=
  if (ucSlaveAddress =? MB_ADDRESS_BROADCAST)
     || (ucSlaveAddress <? MB_ADDRESS_MIN) || (MB_ADDRESS_MAX <? ucSlaveAddress) then
    Ok (m, MB_EINVAL)
  else
    let m := put_mode m ucSlaveAddress (eMBCurrentMode m) in
    '(m, eStatus) ←
      match eMode with
      | MB_RTU =>
          if MB_RTU_ENABLED cfg then
            let m := put_fns m MB_RTU (MB_PORT_HAS_CLOSE cfg) in
            e ← eMBRTUInit xMBPortSerialInit xMBPortTimersInit ucPort ulBaudRate eParity;
            Ok (m, e)
          else Ok (m, MB_EINVAL)
      | MB_ASCII =>
          if MB_ASCII_ENABLED cfg then
            let m := put_fns m MB_ASCII (MB_PORT_HAS_CLOSE cfg) in
            let '(a, e) := eMBASCIIInit xMBPortSerialInit xMBPortTimersInit (m_ascii m)
                                        ucPort ulBaudRate eParity in
            Ok (put_ascii m a (get_serial m), e)
          else Ok (m, MB_EINVAL)
      | MB_TCP => Ok (m, MB_EINVAL)
      end;
    if decide (eStatus = MB_ENOERR) then
      let '(q, ok) := xMBPortEventInit (m_queue m) in
      let m := put_queue m q in
      if negb ok then Ok (m, MB_EPORTERR)
      else Ok (put_state (put_mode m (ucMBAddress m) eMode) STATE_DISABLED, eStatus)
    else Ok (m, eStatus).

Definition eMBTCPInit m (ucTCPPort fd_socket r_bind r_listen : Z) : mb R * eMBErrorCode :=
  let '(t, eStatus) := eMBTCPDoInit (get_tcp m) ucTCPPort fd_socket r_bind r_listen in
  let m := put_tcp m t in
  if decide (eStatus <> MB_ENOERR) then (put_state m STATE_DISABLED, eStatus)
  else
    let '(q, ok) := xMBPortEventInit (m_queue m) in
    let m := put_queue m q in
    if negb ok then (m, MB_EPORTERR)
    else (put_state (put_mode (put_fns m MB_TCP (MB_PORT_HAS_CLOSE cfg))
                              MB_TCP_PSEUDO_ADDRESS MB_TCP) STATE_DISABLED, eStatus).

(** ** The handler table *)

(** The first entry that is free or already holds [h]. *)
Fixpoint register_at (hs : list xMBFunctionHandler) (ucFunctionCode : Z) (h : handler_id)
    : option (list xMBFunctionHandler) :=
  match hs with
  | [] => None
  | (c, p) :: hs =>
      if bool_decide (p = None \/ p = Some h) then Some ((ucFunctionCode, Some h) :: hs)
      else (cons (c, p)) <$> register_at hs ucFunctionCode h
  end.

(** The first entry with the code is cleared. *)
Fixpoint unregister_at (hs : list xMBFunctionHandler) (ucFunctionCode : Z)
    : list xMBFunctionHandler :=
  match hs with
  | [] => []
  | (c, p) :: hs =>
      if c =? ucFunctionCode then (0, None) :: hs else (c, p) :: unregister_at hs ucFunctionCode
  end.

Definition eMBRegisterCB m (ucFunctionCode : Z) (pxHandler : option handler_id)
    : mb R * eMBErrorCode :=
  if (0 <? ucFunctionCode) && (ucFunctionCode <=? 127) then
    match pxHandler with
    | Some h =>
        match register_at (xFuncHandlers m) ucFunctionCode h with
        | Some hs => (put_handlers m hs, MB_ENOERR)
        | None => (m, MB_ENORES)
        end
    | None => (put_handlers m (unregister_at (xFuncHandlers m) ucFunctionCode), MB_ENOERR)
    end
  else (m, MB_EINVAL).

(** The loop of [eMBPoll]: stop at the first entry whose code is zero. *)
Fixpoint find_handler (hs : list xMBFunctionHandler) (ucFunctionCode : Z)
    : option (option handler_id) :=
  match hs with
  | [] => None
  | (c, p) :: hs =>
      if c =? 0 then None
      else if c =? ucFunctionCode then Some p
      else find_handler hs ucFunctionCode
  end.

(** ** Enabling and disabling *)

Definition pvMBFrameStartCur m : outcome (mb R) :=
  match cur_fns m with
  | None => Fault NullDeref
  | Some MB_RTU => let '(r, s) := eMBRTUStart (m_rtu m) (get_serial m) in Ok (put_rtu m r s)
  | Some MB_ASCII => let '(a, s) := eMBASCIIStart (m_ascii m) (get_serial m) in Ok (put_ascii m a s)
  | Some MB_TCP => Ok (put_tcp m (eMBTCPStart (get_tcp m)))
  end.

Definition pvMBFrameStopCur m : outcome (mb R) :=
  match cur_fns m with
  | None => Fault NullDeref
  | Some MB_RTU => let '(r, s) := eMBRTUStop (m_rtu m) (get_serial m) in Ok (put_rtu m r s)
  | Some MB_ASCII => let '(a, s) := eMBASCIIStop (m_ascii m) (get_serial m) in Ok (put_ascii m a s)
  | Some MB_TCP => t ← eMBTCPStop (get_tcp m); Ok (put_tcp m t)
  end.

(** [vMBPortClose] of the serial modes is not part of the tree. *)
Definition pvMBFrameCloseCur m : outcome (mb R) :=
  match cur_fns m with
  | Some MB_TCP => t ← vMBTCPPortClose (get_tcp m); Ok (put_tcp m t)
  | _ => Ok m
  end.

Definition peMBFrameReceiveCur m : outcome (mb R * eMBErrorCode) :=
  match cur_fns m with
  | None => Fault NullDeref
  | Some MB_RTU =>
      '(e, o) ← eMBRTUReceive (m_rtu m) (get_serial m);
      Ok (match o with Some (addr, off, len) => put_frame m (FrameSerial off) addr len
                     | None => m end, e)
  | Some MB_ASCII =>
      '(e, o) ← eMBASCIIReceive (m_ascii m) (get_serial m);
      Ok (match o with Some (addr, off, len) => put_frame m (FrameSerial off) addr len
                     | None => m end, e)
  | Some MB_TCP =>
      '(t, e, o) ← eMBTCPReceive (get_tcp m);
      let m := put_tcp m t in
      Ok (match o with Some (addr, off, len) => put_frame m (FrameTcp off) addr len
                     | None => m end, e)
  end.

(** The frame functions are given the frame their receive function returned. *)
Definition peMBFrameSendCur m (f : frame_ptr) : outcome (mb R * eMBErrorCode) :=
  let off := snd (frame_mem m f) in
  match cur_fns m with
  | None => Fault NullDeref
  | Some MB_RTU =>
      '(r, s, e) ← eMBRTUSend (m_rtu m) (get_serial m) (ucMBAddress m) off (usLength m);
      Ok (put_rtu m r s, e)
  | Some MB_ASCII =>
      '(a, s, e) ← eMBASCIISend (m_ascii m) (get_serial m) (ucMBAddress m) off (usLength m);
      Ok (put_ascii m a s, e)
  | Some MB_TCP =>
      '(t, e) ← eMBTCPSend (get_tcp m) off (usLength m);
      Ok (put_tcp m t, e)
  end.

Definition eMBClose m : outcome (mb R * eMBErrorCode) :=
  if decide (eMBState m = STATE_DISABLED) then
    m ← (if has_close m then pvMBFrameCloseCur m else Ok m);
    Ok (m, MB_ENOERR)
  else Ok (m, MB_EILLSTATE).

Definition eMBEnable m : outcome (mb R * eMBErrorCode) :=
  if decide (eMBState m = STATE_DISABLED) then
    m ← pvMBFrameStartCur m;
    Ok (put_state m STATE_ENABLED, MB_ENOERR)
  else Ok (m, MB_EILLSTATE).

Definition eMBDisable m : outcome (mb R * eMBErrorCode) :=
  match eMBState m with
  | STATE_ENABLED =>
      m ← pvMBFrameStopCur m;
      Ok (put_state m STATE_DISABLED, MB_ENOERR)
  | STATE_DISABLED => Ok (m, MB_ENOERR)
  | STATE_NOT_INITIALIZED => Ok (m, MB_EILLSTATE)
  end.

(** ** Polling *)

(** [EV_FRAME_RECEIVED] *)
Definition poll_received m : outcome (mb R) :=
  '(m, eStatus) ← peMBFrameReceiveCur m;
  if decide (eStatus = MB_ENOERR) then
    if (ucRcvAddress m =? ucMBAddress m) || (ucRcvAddress m =? MB_ADDRESS_BROADCAST)
    then Ok (put_queue m (fst (xMBPortEventPost (m_queue m) EV_EXECUTE)))
    else Ok m
  else Ok m.

(** An exception occurred: build an error frame. *)
Definition error_frame m (f : frame_ptr) (ucFunctionCode : Z) (eException : eMBException)
    : outcome (mb R) :=
  if decide (eException <> MB_EX_NONE) then
    let '(buf, off) := frame_mem m f in
    let len := 0 in
    buf ← wr buf (off + len) (u8 (Z.lor ucFunctionCode MB_FUNC_ERROR));
    let len := u16 (len + 1) in
    buf ← wr buf (off + len) (eMBException_value eException);
    let len := u16 (len + 1) in
    Ok (put_len (put_frame_mem m f buf) len)
  else Ok m.

(** [EV_EXECUTE]; [MB_ASCII_TIMEOUT_WAIT_BEFORE_SEND_MS] is 0, so nothing is
    waited for. *)
Definition poll_execute m : outcome (mb R) :=
  match ucMBFrame m with
  | None => Fault NullDeref
  | Some f =>
      let '(buf, off) := frame_mem m f in
      ucFunctionCode ← rd buf (off + MB_PDU_FUNC_OFF);
      '(m, eException) ←
        match find_handler (xFuncHandlers m) ucFunctionCode with
        | None => Ok (m, MB_EX_ILLEGAL_FUNCTION)
        | Some None => Fault NullDeref
        | Some (Some h) =>
            '(a, buf, len, ex) ← run_handler h (m_app m) buf off (usLength m);
            Ok (put_app (put_len (put_frame_mem m f buf) len) a, ex)
        end;
      if negb (ucRcvAddress m =? MB_ADDRESS_BROADCAST) then
        m ← error_frame m f ucFunctionCode eException;
        '(m, _) ← peMBFrameSendCur m f;
        Ok m
      else Ok m
  end.

Definition eMBPoll m : outcome (mb R * eMBErrorCode) :=
  if decide (eMBState m <> STATE_ENABLED) then Ok (m, MB_EILLSTATE)
  else
    '(m, ev) ← xMBPortEventGet m_queue put_queue
                 (fun m => '(t, b) ← xMBPortTCPPool (get_tcp m); Ok (put_tcp m t, b)) m;
    m ← match ev with
        | None => Ok m
        | Some EV_READY => Ok m
        | Some EV_FRAME_RECEIVED => poll_received m
        | Some EV_EXECUTE => poll_execute m
        | Some EV_FRAME_SENT => Ok m
        end;
    Ok (m, MB_ENOERR).
End Stack.

(** ** The handler table *)

(** An entry that is in use. *)
Definition in_use (e : xMBFunctionHandler) : Prop := fst e <> 0 /\ snd e <> None.
Definition free_slots (k : nat) : list xMBFunctionHandler := replicate k (0, None).

Lemma find_handler_app used rest c :
  Forall in_use used ->
  find_handler (used ++ rest) c =
    match find_handler used c with Some p => Some p | None => find_handler rest c end.
Proof.
  intros Hu. induction Hu as [|[c' p] used [Hc _] Hu IH]; [done|]. simpl in *.
  rewrite (proj2 (Z.eqb_neq c' 0)) by done. destruct (c' =? c); [done | apply IH].
Qed.

Lemma find_handler_None used c :
  Forall in_use used -> c ∉ (fst <$> used) -> find_handler used c = None.
Proof.
  intros Hu. induction Hu as [|[c' p] used [Hc _] Hu IH]; intros Hn; [done|]. simpl in *.
  rewrite not_elem_of_cons in Hn. destruct Hn as [Hne Hn].
  rewrite (proj2 (Z.eqb_neq c' 0)), (proj2 (Z.eqb_neq c' c)) by congruence. by apply IH.
Qed.

Lemma find_handler_free k c : find_handler (free_slots k) c = None.
Proof. by destruct k. Qed.

Lemma register_at_app used rest c h :
  Forall in_use used -> Some h ∉ (snd <$> used) ->
  register_at (used ++ rest) c h = (fun l => used ++ l) <$> register_at rest c h.
Proof.
  intros Hu. induction Hu as [|[c' p] used [_ Hp] Hu IH]; intros Hn.
  { simpl. by destruct (register_at rest c h). }
  simpl in *. rewrite not_elem_of_cons in Hn. destruct Hn as [Hne Hn].
  rewrite bool_decide_false by (intros [?|?]; [done | congruence]).
  rewrite IH by done. by destruct (register_at rest c h).
Qed.

Lemma unregister_at_app u1 c p u2 :
  c ∉ (fst <$> u1) -> unregister_at (u1 ++ (c, p) :: u2) c = u1 ++ (0, None) :: u2.
Proof.
  induction u1 as [|[c' p'] u1 IH]; intros Hn; simpl in *.
  - by rewrite Z.eqb_refl.
  - rewrite not_elem_of_cons in Hn. destruct Hn as [Hne Hn].
    rewrite (proj2 (Z.eqb_neq c' c)) by congruence. by rewrite IH.
Qed.

(** registering a handler: in a table whose used entries come first, a new
    handler takes the first free entry and is found by the dispatcher of
    [eMBPoll], every other code is dispatched as before, and a full table is
    refused with [MB_ENORES]. *)
Lemma register_handler {R} (m : mb R) used k c h :
  xFuncHandlers m = used ++ free_slots k -> Forall in_use used ->
  1 <= c <= 127 -> c ∉ (fst <$> used) -> Some h ∉ (snd <$> used) ->
  match k with
  | O => eMBRegisterCB m c (Some h) = (m, MB_ENORES)
  | S k =>
      exists m', eMBRegisterCB m c (Some h) = (m', MB_ENOERR) /\
        xFuncHandlers m' = (used ++ [(c, Some h)]) ++ free_slots k /\
        find_handler (xFuncHandlers m') c = Some (Some h) /\
        forall d, d <> c -> find_handler (xFuncHandlers m') d = find_handler (xFuncHandlers m) d
  end.
Proof.
  intros Hm Hu Hc Hnc Hnh. unfold eMBRegisterCB.
  rewrite (proj2 (Z.ltb_lt _ _)), (proj2 (Z.leb_le _ _)) by lia. simpl.
  rewrite Hm, register_at_app by done. destruct k as [|k]; [done|].
  cbn [free_slots replicate register_at]. rewrite bool_decide_true by tauto. cbn.
  eexists. split; [reflexivity|]. cbn [xFuncHandlers put_handlers].
  split; [by rewrite <- app_assoc|]. split.
  - rewrite find_handler_app, find_handler_None by done. simpl. rewrite Z.eqb_refl.
    by rewrite (proj2 (Z.eqb_neq c 0)) by lia.
  - intros d Hd. rewrite !find_handler_app by done. destruct (find_handler used d); [done|].
    simpl. rewrite (proj2 (Z.eqb_neq c 0)), (proj2 (Z.eqb_neq c d)) by (congruence || lia).
    by destruct k.
Qed.

(** removing a handler clears its entry in the middle of the table, and the
    dispatcher stops at the first empty entry: the handlers before it are
    dispatched as before, but every handler after it becomes unreachable until
    the gap is filled again. *)
Lemma unregister_hides_the_rest {R} (m : mb R) u1 c p u2 k :
  xFuncHandlers m = (u1 ++ (c, p) :: u2) ++ free_slots k -> Forall in_use (u1 ++ (c, p) :: u2) ->
  NoDup (fst <$> (u1 ++ (c, p) :: u2)) -> 1 <= c <= 127 ->
  exists m', eMBRegisterCB m c None = (m', MB_ENOERR) /\
    (forall d, d ∈ (fst <$> u1) ->
       find_handler (xFuncHandlers m') d = find_handler (xFuncHandlers m) d) /\
    (forall d, d ∈ (c :: (fst <$> u2)) -> find_handler (xFuncHandlers m') d = None).
Proof.
  intros Hm Hu Hnd Hc. unfold eMBRegisterCB.
  rewrite (proj2 (Z.ltb_lt _ _)), (proj2 (Z.leb_le _ _)) by lia. simpl.
  eexists. split; [reflexivity|]. cbn [xFuncHandlers put_handlers].
  apply Forall_app in Hu as [Hu1 Hu2]. rewrite fmap_app in Hnd.
  apply NoDup_app in Hnd as (Hn1 & Hdis & Hn2). cbn in Hn2.
  assert (Hc1 : c ∉ (fst <$> u1)).
  { intros Hin. apply (Hdis c Hin). by left. }
  rewrite Hm, <- app_assoc. change (((c, p) :: u2) ++ free_slots k) with ((c, p) :: (u2 ++ free_slots k)).
  rewrite unregister_at_app by done.
  split; intros d Hd.
  - rewrite !find_handler_app by done. destruct (find_handler u1 d) eqn:E; [done|]. exfalso.
    clear -Hd Hu1 E. induction Hu1 as [|[c' p'] u1 [Hc _] Hu1 IH]; simpl in *; [by apply elem_of_nil in Hd|].
    rewrite (proj2 (Z.eqb_neq c' 0)) in E by done. destruct (c' =? d) eqn:G; [done|].
    apply Z.eqb_neq in G. apply elem_of_cons in Hd as [->|Hd]; [done|]. by apply IH.
  - rewrite find_handler_app by done. rewrite find_handler_None; [done..|].
    intros Hin. apply (Hdis d Hin). done.
Qed.

(** ** One request over TCP *)

Section Request.
Context {R : Type} (wf : R -> Prop) `{Hlaws : RegCBLaws R wf}.
Context (user_handler : nat -> app R -> list Z -> Z -> Z -> outcome (@hresult R)).
Implicit Types m : mb R.

(** Enabled in TCP mode, a client connected, at the start of a frame. *)
Record ready m : Prop := {
  rdy_state : eMBState m = STATE_ENABLED;
  rdy_fns : cur_fns m = Some MB_TCP;
  rdy_addr : ucMBAddress m = MB_TCP_PSEUDO_ADDRESS;
  rdy_queue : xEventInQueue (m_queue m) = false;
  rdy_client : xClientSocket (m_tcp m) <> INVALID_SOCKET;
  rdy_size : Zlen (aucTCPBuf (m_tcp m)) = MB_TCP_BUF_SIZE;
  rdy_bytes : bytes_ok (aucTCPBuf (m_tcp m));
  rdy_pos : usTCPBufPos (m_tcp m) = 0;
  rdy_left : usTCPFrameBytesLeft (m_tcp m) = MB_TCP_FUNC;
  rdy_app : app_ok wf (m_app m);
}.

(** Every code the dispatcher knows has a handler, and the handler is safe. *)
Definition table_ok (hs : list xMBFunctionHandler) : Prop :=
  forall c p, find_handler hs c = Some p ->
    exists h, p = Some h /\ handler_ok wf (run_handler user_handler h).

(** What the stack runs for function code [fc]. *)
Definition serve (hs : list xMBFunctionHandler) (fc : Z) (a : app R) (buf : list Z) (p len : Z)
    : outcome (@hresult R) :=
  match find_handler hs fc with
  | None => Ok (a, buf, len, MB_EX_ILLEGAL_FUNCTION)
  | Some (Some h) => run_handler user_handler h a buf p len
  | Some None => Fault NullDeref
  end.

(** The response PDU: the handler's, or an exception. *)
Definition response (fc : Z) (buf : list Z) (p len : Z) (ex : eMBException) : list Z :=
  if decide (ex = MB_EX_NONE) then slice buf p len
  else [u8 (Z.lor fc MB_FUNC_ERROR); eMBException_value ex].

Lemma serve_ok hs fc : table_ok hs -> handler_ok wf (serve hs fc).
Proof.
  intros Ht a buf p len Ha Hb Hp Hfit Hlen. unfold serve.
  destruct (find_handler hs fc) as [p'|] eqn:E.
  - destruct (Ht _ _ E) as (h & -> & Hh). by apply Hh.
  - do 4 eexists. split; [reflexivity|]. split; [done|]. split; [by apply same_before_refl | done].
Qed.

Lemma default_table_ok : table_ok xFuncHandlers0.
Proof.
  intros c p. unfold xFuncHandlers0.
  rewrite find_handler_app by (repeat constructor; done).
  rewrite (find_handler_free 6). cbn [find_handler].
  repeat match goal with
  | |- context [if ?b then _ else _] =>
      destruct b; [intros E; (discriminate E || injection E as <-)|]
  end; try done; eexists; (split; [reflexivity|]); simpl;
  first [ by apply eMBFuncReportSlaveID_ok | by apply eMBFuncReadInputRegister_ok
        | by apply eMBFuncReadHoldingRegister_ok | by apply eMBFuncWriteMultipleHoldingRegister_ok
        | by apply eMBFuncWriteHoldingRegister_ok
        | by apply eMBFuncReadWriteMultipleHoldingRegister_ok
        | by apply eMBFuncReadCoils_ok | by apply eMBFuncWriteCoil_ok
        | by apply eMBFuncWriteMultipleCoils_ok | by apply eMBFuncReadDiscreteInputs_ok ].
Qed.

(** First turn: the request is read from the socket. *)
Lemma poll_reads m t1 t2 p1 p2 uid pdu rest :
  ready m -> bytes_ok (mbap t1 t2 p1 p2 uid pdu) -> Zlen pdu <= 256 ->
  inq (tcp_net (m_tcp m)) = mbap t1 t2 p1 p2 uid pdu ++ rest ->
  Forall (fun e => is_error e = false) (client_script (tcp_net (m_tcp m))) ->
  Zlen pdu + 7 <= Z.of_nat (data_turns (client_script (tcp_net (m_tcp m)))) ->
  exists t, eMBPoll user_handler m = Ok (put_tcp m t, MB_ENOERR) /\
    received t (mbap t1 t2 p1 p2 uid pdu) rest /\
    send_script (tcp_net t) = send_script (tcp_net (m_tcp m)) /\
    outq (tcp_net t) = outq (tcp_net (m_tcp m)).
Proof.
  intros [] Hadu Hpdu Hin Herr Hturns.
  destruct (pool_loop_reassembles t1 t2 p1 p2 uid pdu rest Hpdu Hadu
              (client_script (tcp_net (m_tcp m))) (get_tcp m) [] (mbap t1 t2 p1 p2 uid pdu))
    as (t & Hpool & Hr & Hs & Ho); try done; [by rewrite mbap_length|].
  assert (Hp : xMBPortTCPPool (get_tcp m) = Ok (t, true)).
  { unfold xMBPortTCPPool. change (xClientSocket (get_tcp m)) with (xClientSocket (m_tcp m)).
    rewrite (proj2 (Z.eqb_neq _ _)) by done. rewrite bind_Ok_l. exact Hpool. }
  exists t. split; [|done]. unfold eMBPoll. rewrite decide_False by (intros C; by apply C).
  unfold xMBPortEventGet. rewrite rdy_queue0, Hp. done.
Qed.

(** Second turn: the request is accepted for execution. *)
Lemma poll_accepts m t t1 t2 uid pdu rest :
  ready m -> Zlen pdu <= 256 -> received t (mbap t1 t2 0 0 uid pdu) rest ->
  eMBPoll user_handler (put_tcp m t) =
    Ok (put_queue (put_frame (put_tcp m (set_rcv (set_queue t (Events EV_FRAME_RECEIVED false))
                                                 (aucTCPBuf t) 0 MB_TCP_FUNC))
                             (FrameTcp 7) MB_TCP_PSEUDO_ADDRESS (Zlen pdu))
                  (Events EV_EXECUTE true), MB_ENOERR).
Proof.
  intros [] Hpdu Hr. pose proof (rcd_event _ _ _ Hr) as rcd_event0.
  pose proof (rcd_pos _ _ _ Hr) as rcd_pos0. pose proof (rcd_frame _ _ _ Hr) as rcd_frame0.
  pose proof (Zlen_nonneg pdu). pose proof (mbap_length t1 t2 0 0 uid pdu) as Hl.
  unfold eMBPoll. rewrite decide_False by (intros C; by apply C).
  unfold xMBPortEventGet. cbn [m_queue put_tcp]. rewrite rcd_event0. cbn [xEventInQueue].
  cbn [mbind outcome_bind eQueuedEvent]. unfold poll_received, peMBFrameReceiveCur.
  cbn [cur_fns put_queue put_tcp]. rewrite rdy_fns0.
  unfold eMBTCPReceive. cbn [xMBTCPPortGetRequest get_tcp m_tcp put_queue put_tcp set_queue].
  assert (Hat : forall k x, (k < 7)%nat -> mbap t1 t2 0 0 uid pdu !! k = Some x ->
                            rd (aucTCPBuf t) (0 + Z.of_nat k) = Ok x).
  { intros k x Hk Hx. apply (rd_of_slice _ 0 (Zlen (mbap t1 t2 0 0 uid pdu)) k x); [done|].
    by rewrite rcd_frame0. }
  cbn [aucTCPBuf set_rcv set_queue].
  change (0 + MB_TCP_PID + 1) with (0 + Z.of_nat 3). change (0 + MB_TCP_PID) with (0 + Z.of_nat 2).
  change (get_tcp _) with (set_queue t (Events EV_FRAME_RECEIVED false)).
  change (aucTCPBuf (set_queue t _)) with (aucTCPBuf t).
  rewrite (Hat 2%nat 0), bind_Ok_l by (done || lia).
  rewrite (Hat 3%nat 0), bind_Ok_l by (done || lia).
  change (Z.lor (u16 (Z.shiftl 0 8)) 0 =? MB_TCP_PROTOCOL_ID) with true. cbn iota.
  change (usTCPBufPos (set_queue t _)) with (usTCPBufPos t).
  rewrite rcd_pos0, Hl. change MB_TCP_FUNC with 7.
  replace (u16 (Zlen pdu + 7 - 7)) with (Zlen pdu) by (rewrite u16_small; unfold is_u16; lia).
  cbn [mbind outcome_bind]. rewrite decide_True by done.
  cbn [put_frame put_tcp put_queue ucRcvAddress ucMBAddress]. by rewrite rdy_addr0.
Qed.

(** A stack with a request at offset 7 of the TCP buffer to execute. *)
Record executing m (hdr : list Z) (fc len : Z) : Prop := {
  exe_state : eMBState m = STATE_ENABLED;
  exe_fns : cur_fns m = Some MB_TCP;
  exe_queue : m_queue m = Events EV_EXECUTE true;
  exe_frame : ucMBFrame m = Some (FrameTcp 7);
  exe_rcv : ucRcvAddress m = MB_TCP_PSEUDO_ADDRESS;
  exe_len : usLength m = len;
  exe_size : Zlen (aucTCPBuf (m_tcp m)) = MB_TCP_BUF_SIZE;
  exe_bytes : bytes_ok (aucTCPBuf (m_tcp m));
  exe_hdr : slice (aucTCPBuf (m_tcp m)) 0 7 = hdr;
  exe_fc : rd (aucTCPBuf (m_tcp m)) 7 = Ok fc;
  exe_app : app_ok wf (m_app m);
}.

(** The state after the response was sent. *)
Record answered m m' (a : app R) (adu : list Z) : Prop := {
  ans_state : eMBState m' = STATE_ENABLED;
  ans_fns : cur_fns m' = Some MB_TCP;
  ans_addr : ucMBAddress m' = ucMBAddress m;
  ans_queue : xEventInQueue (m_queue m') = false;
  ans_client : xClientSocket (m_tcp m') = xClientSocket (m_tcp m);
  ans_size : Zlen (aucTCPBuf (m_tcp m')) = MB_TCP_BUF_SIZE;
  ans_bytes : bytes_ok (aucTCPBuf (m_tcp m'));
  ans_pos : usTCPBufPos (m_tcp m') = usTCPBufPos (m_tcp m);
  ans_left : usTCPFrameBytesLeft (m_tcp m') = usTCPFrameBytesLeft (m_tcp m);
  ans_in : inq (tcp_net (m_tcp m')) = inq (tcp_net (m_tcp m));
  ans_out : outq (tcp_net (m_tcp m')) = outq (tcp_net (m_tcp m)) ++ adu;
  ans_table : xFuncHandlers m' = xFuncHandlers m;
  ans_app : m_app m' = a;
}.

Lemma header_slice (buf hdr : list Z) len :
  0 <= len -> slice buf 0 7 = hdr -> slice buf 0 (len + 7) = hdr ++ slice buf 7 len.
Proof.
  intros Hl <-. rewrite Z.add_comm. by rewrite (slice_split buf 0 7 len) by lia.
Qed.

Lemma same_before_header buf buf' : same_before 7 buf buf' -> slice buf' 0 7 = slice buf 0 7.
Proof. intros (_ & _ & E). unfold slice. change (Z.to_nat 0) with O. by rewrite !drop_0. Qed.

Lemma response_length fc buf p len ex :
  0 <= p -> p + len <= Zlen buf -> 0 <= len <= 253 ->
  0 <= Zlen (response fc buf p len ex) <= 253.
Proof.
  intros. unfold response. case_decide; [rewrite slice_length; lia|]. unfold Zlen. simpl. lia.
Qed.

(** The stack with the handler's results, before the response is sent. *)
Lemma poll_sends m f buf hdr t1 t2 p1 p2 x1 x2 uid pdu :
  f = FrameTcp 7 -> cur_fns m = Some MB_TCP ->
  aucTCPBuf (m_tcp m) = buf -> Zlen buf = MB_TCP_BUF_SIZE -> bytes_ok buf ->
  hdr = [t1; t2; p1; p2; x1; x2; uid] ->
  slice buf 0 (Zlen pdu + 7) = hdr ++ pdu -> usLength m = Zlen pdu -> Zlen pdu <= 253 ->
  Forall (fun e => is_some_sent e = true) (send_script (tcp_net (m_tcp m))) ->
  260 <= Zlen (send_script (tcp_net (m_tcp m))) ->
  exists t', peMBFrameSendCur m f = Ok (put_tcp m t', MB_ENOERR) /\
    tcp_queue t' = m_queue m /\ xClientSocket t' = xClientSocket (m_tcp m) /\
    Zlen (aucTCPBuf t') = MB_TCP_BUF_SIZE /\ bytes_ok (aucTCPBuf t') /\
    usTCPBufPos t' = usTCPBufPos (m_tcp m) /\
    usTCPFrameBytesLeft t' = usTCPFrameBytesLeft (m_tcp m) /\
    inq (tcp_net t') = inq (tcp_net (m_tcp m)) /\
    outq (tcp_net t') = outq (tcp_net (m_tcp m)) ++ mbap t1 t2 p1 p2 uid pdu.
Proof.
  intros -> Hf Hbuf Hsz Hb -> Hs Hlen Hpdu Hss Hn.
  destruct (tcp_send_frame (get_tcp m) x1 x2 t1 t2 p1 p2 uid pdu) as (buf' & ss & Hsend & Hsz' & Hb');
    try (simpl; rewrite ?Hbuf; done || lia).
  unfold peMBFrameSendCur. rewrite Hf. cbn [frame_mem snd]. change 7 with MB_TCP_FUNC at 1.
  rewrite Hlen, Hsend. cbn [mbind outcome_bind]. eexists. split; [reflexivity|].
  cbn. repeat split; try done. apply Hb'. simpl. by rewrite Hbuf.
Qed.

(** An exception response in place. *)
Lemma exception_frame (buf hdr : list Z) x v :
  9 <= Zlen buf -> slice buf 0 7 = hdr ->
  slice (<[Z.to_nat 8 := v]> (<[Z.to_nat 7 := x]> buf)) 0 9 = hdr ++ [x; v].
Proof.
  intros Hl <-. unfold Zlen in Hl.
  do 9 (destruct buf as [|? buf]; [simpl in Hl; lia|]). by destruct buf.
Qed.

(** The state in which the response PDU is in place. *)
Lemma poll_response m fc len' ex t1 t2 p1 p2 x1 x2 uid :
  let buf := aucTCPBuf (m_tcp m) in
  Zlen buf = MB_TCP_BUF_SIZE -> bytes_ok buf -> slice buf 0 7 = [t1; t2; p1; p2; x1; x2; uid] ->
  usLength m = len' -> 0 <= len' <= 253 -> is_u8 fc ->
  exists buf2,
    error_frame m (FrameTcp 7) fc ex
    = Ok (put_len (put_frame_mem m (FrameTcp 7) buf2) (Zlen (response fc buf 7 len' ex))) /\
    Zlen buf2 = MB_TCP_BUF_SIZE /\ bytes_ok buf2 /\
    slice buf2 0 (Zlen (response fc buf 7 len' ex) + 7) =
      [t1; t2; p1; p2; x1; x2; uid] ++ response fc buf 7 len' ex.
Proof.
  intros buf Hsz Hb Hh Hlen Hl Hfc. unfold MB_TCP_BUF_SIZE in *. unfold response, error_frame.
  destruct (decide (ex = MB_EX_NONE)) as [->|Hex].
  - rewrite decide_False by (intros C; by apply C). exists buf.
    rewrite slice_length by lia. split; [|split; [done | split; [done|]]].
    + destruct m as [? ? ? ? [] ? ? ? ? ? ? ? ? ? ? ?]. simpl in *. by subst.
    + apply header_slice; [lia | done].
  - rewrite decide_True by done. cbn [frame_mem]. fold buf.
    change (7 + 0) with 7. change (7 + u16 (0 + 1)) with 8. change (u16 (u16 (0 + 1) + 1)) with 2.
    rewrite wr_in_range, bind_Ok_l by lia. rewrite wr_in_range, bind_Ok_l by (rewrite Zlen_insert; lia).
    eexists. split; [reflexivity|]. split; [by rewrite !Zlen_insert|]. split.
    + repeat apply Forall_insert; auto with mach.
    + change (Zlen [_; _] + 7) with 9. apply exception_frame; [lia | done].
Qed.

(** Third turn: the handler runs and the response is sent. *)
Lemma poll_executes m fc len t1 t2 p1 p2 x1 x2 uid :
  executing m [t1; t2; p1; p2; x1; x2; uid] fc len -> table_ok (xFuncHandlers m) ->
  0 <= len <= MB_PDU_SIZE_MAX -> is_u8 fc ->
  Forall (fun e => is_some_sent e = true) (send_script (tcp_net (m_tcp m))) ->
  260 <= Zlen (send_script (tcp_net (m_tcp m))) ->
  exists m' a' buf' len' ex,
    eMBPoll user_handler m = Ok (m', MB_ENOERR) /\
    serve (xFuncHandlers m) fc (m_app m) (aucTCPBuf (m_tcp m)) 7 len = Ok (a', buf', len', ex) /\
    app_ok wf a' /\
    answered m m' a' (mbap t1 t2 p1 p2 uid (response fc buf' 7 len' ex)).
Proof.
  intros [] Ht Hlen Hfc Hss Hn. unfold MB_PDU_SIZE_MAX, MB_TCP_BUF_SIZE in *.
  destruct (serve_ok (xFuncHandlers m) fc Ht (m_app m) (aucTCPBuf (m_tcp m)) 7 len)
    as (a' & buf' & len' & ex & Hserve & Ha' & Hsame & Hlen'); try done;
    unfold MB_PDU_SIZE_MAX in *; try lia.
  pose proof Hsame as (Hb' & Hl' & _). apply same_before_header in Hsame.
  rewrite exe_hdr0 in Hsame.
  (* what the dispatch does *)
  set (m1 := put_queue m (Events EV_EXECUTE false)).
  set (m2 := put_app (put_len (put_frame_mem m1 (FrameTcp 7) buf') len') a').
  assert (Hdisp : exists m3,
    match find_handler (xFuncHandlers m1) fc with
    | None => Ok (m1, MB_EX_ILLEGAL_FUNCTION)
    | Some None => Fault NullDeref
    | Some (Some h) =>
        '(a, buf, len, ex) ← run_handler user_handler h (m_app m1) (aucTCPBuf (m_tcp m1)) 7 (usLength m1);
        Ok (put_app (put_len (put_frame_mem m1 (FrameTcp 7) buf) len) a, ex)
    end = Ok (m3, ex) /\ m3 = m2).
  { subst m2. unfold serve in Hserve. cbn [m1 put_queue xFuncHandlers m_app m_tcp usLength].
    rewrite exe_len0. destruct (find_handler (xFuncHandlers m) fc) as [[h|]|]; [|done|].
    - rewrite Hserve. by eexists.
    - injection Hserve as <- <- <- <-. eexists. split; [reflexivity|]. subst m1.
      destruct m as [? ? ? ? [] ? ? ? ? ? ? ? ? ? ? ?]. simpl in *. by subst. }
  destruct Hdisp as (m3 & Hdisp & ->).
  destruct (poll_response m2 fc len' ex t1 t2 p1 p2 x1 x2 uid)
    as (buf2 & Hresp & Hsz2 & Hb2 & Hs2); try done; [change (Zlen buf' = 263); lia|].
  change (aucTCPBuf (m_tcp m2)) with buf' in *.
  pose proof (response_length fc buf' 7 len' ex ltac:(lia) ltac:(lia) ltac:(lia)) as Hrl.
  set (m4 := put_len (put_frame_mem m2 (FrameTcp 7) buf2) (Zlen (response fc buf' 7 len' ex))) in *.
  destruct (poll_sends m4 (FrameTcp 7) buf2 [t1; t2; p1; p2; x1; x2; uid]
              t1 t2 p1 p2 x1 x2 uid (response fc buf' 7 len' ex))
    as (t' & Hsend & Hq & Hcl & Hsz4 & Hb4 & Hpos & Hleft & Hin & Hout); try done; [lia|].
  exists (put_tcp m4 t'), a', buf', len', ex. split; [|split; [done|split; [done|]]].
  - unfold eMBPoll. rewrite decide_False by (intros C; by apply C).
    unfold xMBPortEventGet. rewrite exe_queue0. cbn [xEventInQueue eQueuedEvent mbind outcome_bind].
    fold m1. unfold poll_execute. change (ucMBFrame m1) with (ucMBFrame m). rewrite exe_frame0.
    cbn [frame_mem]. change (m_tcp m1) with (m_tcp m). change (7 + MB_PDU_FUNC_OFF) with 7.
    rewrite exe_fc0, bind_Ok_l. change (m_tcp m1) with (m_tcp m) in Hdisp. rewrite Hdisp.
    cbn [mbind outcome_bind]. change (ucRcvAddress m2) with (ucRcvAddress m). rewrite exe_rcv0.
    cbn [MB_TCP_PSEUDO_ADDRESS Z.eqb MB_ADDRESS_BROADCAST negb].
    rewrite Hresp. cbn [mbind outcome_bind]. fold m4. rewrite Hsend. done.
  - split; try done.
    + change (m_queue (put_tcp m4 t')) with (tcp_queue t'). by rewrite Hq.
Qed.
End Request.
