(* ===== verification/MbServer.v ===== *)
(** * FreeModbus: a Modbus TCP server, request by request

    What the stack of mb.c promises when it is run over the port of porttcp.c:
    every well-formed request is answered, in three turns of [eMBPoll], with the
    handler's response or an exception under the request's own MBAP header; and
    what that means for the registers of demo.c.  Then the states of the stack:
    which calls are legal when, and what happens after a failed start. *)

From stdpp Require Import base numbers list list_numbers.
From S2P Require Import MbRtu MbAscii.
From S2P Require Import Prelude MbDefs MbFunc MbDemo MbPort MbTcp Mb.

#[local] Open Scope Z_scope.

(** The request is in [client_script]'s reach and the socket takes the response. *)
Record network_ok (n : net) (len : Z) : Prop := {
  nok_noerr : Forall (fun e => is_error e = false) (client_script n);
  nok_turns : len + 7 <= Z.of_nat (data_turns (client_script n));
  nok_send : Forall (fun e => is_some_sent e = true) (send_script n);
  nok_room : 260 <= Zlen (send_script n);
}.

Section Server.
Context {R : Type} (wf : R -> Prop) `{Hlaws : RegCBLaws R wf}.
Context (user_handler : nat -> app R -> list Z -> Z -> Z -> outcome (@hresult R)).
Implicit Types m : mb R.

Lemma request_response m t1 t2 uid fc pdu rest :
  ready wf m -> table_ok wf user_handler (xFuncHandlers m) ->
  bytes_ok (mbap t1 t2 0 0 uid (fc :: pdu)) -> Zlen (fc :: pdu) <= MB_PDU_SIZE_MAX ->
  inq (tcp_net (m_tcp m)) = mbap t1 t2 0 0 uid (fc :: pdu) ++ rest ->
  network_ok (tcp_net (m_tcp m)) (Zlen (fc :: pdu)) ->
  exists m1 m2 m3 buf a' buf' len' ex,
    eMBPoll user_handler m = Ok (m1, MB_ENOERR) /\
    eMBPoll user_handler m1 = Ok (m2, MB_ENOERR) /\
    eMBPoll user_handler m2 = Ok (m3, MB_ENOERR) /\
    slice buf 7 (Zlen (fc :: pdu)) = fc :: pdu /\ bytes_ok buf /\ Zlen buf = MB_TCP_BUF_SIZE /\
    serve user_handler (xFuncHandlers m) fc (m_app m) buf 7 (Zlen (fc :: pdu))
      = Ok (a', buf', len', ex) /\
    ready wf m3 /\ m_app m3 = a' /\ xFuncHandlers m3 = xFuncHandlers m /\
    inq (tcp_net (m_tcp m3)) = rest /\
    outq (tcp_net (m_tcp m3)) =
      outq (tcp_net (m_tcp m)) ++ mbap t1 t2 0 0 uid (response fc buf' 7 len' ex).
Proof.
  intros Hr Ht Hadu Hl Hin [Hne Htu Hss Hn]. unfold MB_PDU_SIZE_MAX in Hl.
  destruct (poll_reads wf user_handler m t1 t2 0 0 uid (fc :: pdu) rest)
    as (t & Hp1 & Hrec & Hs & Ho); try done; [lia|].
  pose proof (poll_accepts wf user_handler m t t1 t2 uid (fc :: pdu) rest Hr ltac:(lia) Hrec) as Hp2.
  set (m2 := put_queue _ _) in Hp2. pose proof (Zlen_nonneg (fc :: pdu)).
  pose proof (rcd_frame _ _ _ Hrec) as Hf. rewrite mbap_length in Hf.
  set (len := Zlen (fc :: pdu)) in *.
  assert (Hhdr : slice (aucTCPBuf t) 0 7 =
                 [t1; t2; 0; 0; (len + 1) `div` 256; (len + 1) `mod` 256; uid])
    by (by apply (slice_prefix (aucTCPBuf t) 0 (len + 7)
          [t1; t2; 0; 0; (len + 1) `div` 256; (len + 1) `mod` 256; uid] (fc :: pdu))).
  assert (Hpdu : slice (aucTCPBuf t) 7 len = fc :: pdu).
  { apply (slice_suffix (aucTCPBuf t) 0 7 len
             [t1; t2; 0; 0; (len + 1) `div` 256; (len + 1) `mod` 256; uid]); try done.
    by rewrite Z.add_comm. }
  assert (Hfc : rd (aucTCPBuf t) 7 = Ok fc).
  { apply (rd_of_slice (aucTCPBuf t) 7 len 0 fc); [done|]. by rewrite Hpdu. }
  assert (Hexe : executing wf m2 [t1; t2; 0; 0; (len + 1) `div` 256; (len + 1) `mod` 256; uid] fc len).
  { destruct Hr, Hrec. split; try done. }
  destruct (poll_executes wf user_handler m2 fc len t1 t2 0 0 ((len + 1) `div` 256)
              ((len + 1) `mod` 256) uid)
    as (m3 & a' & buf' & len' & ex & Hp3 & Hserve & Ha' & Hans); try done.
  { by eapply bytes_rd; [apply (rcd_bytes _ _ _ Hrec)|]. }
  { cbn. by rewrite Hs. }
  { cbn. by rewrite Hs. }
  exists (put_tcp m t), m2, m3, (aucTCPBuf t), a', buf', len', ex.
  do 3 (split; [done|]). split; [done|]. split; [apply (rcd_bytes _ _ _ Hrec)|].
  split; [apply (rcd_size _ _ _ Hrec)|]. split; [done|].
  destruct Hans, Hr. pose proof (rcd_client _ _ _ Hrec). split; [|split; [done|split; [done|split]]].
  - split; try done; try congruence; try (by rewrite ans_client).
    + rewrite ans_addr. done.
  - rewrite ans_in. apply (rcd_inq _ _ _ Hrec).
  - rewrite ans_out. cbn. by rewrite Ho.
Qed.
End Server.

(** ** The demo server *)

(** A stack of the demo, enabled and connected, on a given network. *)
Definition demo_mb (a : app demo_regs) (n : net) : mb demo_regs :=
  Mb rtu0 ascii0 (replicate 256 0) [] (tcp_conn n) (Events EV_READY false)
     MB_TCP_PSEUDO_ADDRESS MB_TCP STATE_ENABLED (Some MB_TCP) true xFuncHandlers0
     None 0 0 a.

Definition no_user_handler {R} (n : nat) (a : app R) (buf : list Z) (p len : Z)
    : outcome (@hresult R) := Ok (a, buf, len, MB_EX_ILLEGAL_FUNCTION).

Lemma demo_mb_ready a n : app_ok demo_wf a -> ready demo_wf (demo_mb a n).
Proof. intros Ha. split; try done. by_compute. Qed.

(** ** Properties *)

(** C2: every well-formed request is answered: with all handlers safe, a stack
    that is ready reads the request in whatever pieces it comes, runs the handler
    registered for its function code on exactly the request's PDU, and sends back
    one frame with the request's transaction, protocol and unit identifiers, that
    carries the handler's response or, if the handler failed or there is none,
    the exception PDU; the stack is ready for the next request. *)
Theorem tcp_request_answered {R} (wf : R -> Prop) `{Hlaws : RegCBLaws R wf} user_handler
    (m : mb R) t1 t2 uid fc pdu rest :
  ready wf m -> table_ok wf user_handler (xFuncHandlers m) ->
  bytes_ok (mbap t1 t2 0 0 uid (fc :: pdu)) -> Zlen (fc :: pdu) <= MB_PDU_SIZE_MAX ->
  inq (tcp_net (m_tcp m)) = mbap t1 t2 0 0 uid (fc :: pdu) ++ rest ->
  network_ok (tcp_net (m_tcp m)) (Zlen (fc :: pdu)) ->
  exists m1 m2 m3 buf a' buf' len' ex,
    eMBPoll user_handler m = Ok (m1, MB_ENOERR) /\
    eMBPoll user_handler m1 = Ok (m2, MB_ENOERR) /\
    eMBPoll user_handler m2 = Ok (m3, MB_ENOERR) /\
    slice buf 7 (Zlen (fc :: pdu)) = fc :: pdu /\
    serve user_handler (xFuncHandlers m) fc (m_app m) buf 7 (Zlen (fc :: pdu))
      = Ok (a', buf', len', ex) /\
    ready wf m3 /\ m_app m3 = a' /\ xFuncHandlers m3 = xFuncHandlers m /\
    inq (tcp_net (m_tcp m3)) = rest /\
    outq (tcp_net (m_tcp m3)) =
      outq (tcp_net (m_tcp m)) ++ mbap t1 t2 0 0 uid (response fc buf' 7 len' ex).
Proof.
  intros Hr Ht Hadu Hl Hin Hn.
  destruct (request_response wf user_handler m t1 t2 uid fc pdu rest)
    as (m1 & m2 & m3 & buf & a' & buf' & len' & ex & H1 & H2 & H3 & H4 & _ & _ & H5 & H6); try done.
  by exists m1, m2, m3, buf, a', buf', len', ex.
Qed.

(** C32: every handler of the stack is safe for any application whose callbacks
    keep their promises: given a PDU of at most 253 bytes in a buffer with room
    for the largest one it returns (no access outside the buffer, no failed
    assertion), keeps the application's invariant, leaves the bytes before the
    PDU alone and answers with at most 253 bytes. *)
Theorem handlers_safe {R} (wf : R -> Prop) `{Hlaws : RegCBLaws R wf} user_handler h :
  (forall n, h <> H_User n) -> handler_ok wf (run_handler user_handler h).
Proof.
  intros Hu. assert (E : exists c, find_handler xFuncHandlers0 c = Some (Some h)).
  { destruct h; [exists 17 | exists 4 | exists 3 | exists 16 | exists 6 | exists 23 | exists 1
                | exists 5 | exists 15 | exists 2 | by destruct (Hu n)]; done. }
  destruct E as [c Hc]. by destruct (default_table_ok wf user_handler c _ Hc) as (h' & [= <-] & Hh).
Qed.

Lemma handlers_safe_witness : handler_ok demo_wf (run_handler no_user_handler H_WriteMultipleCoils).
Proof.
  refine (handlers_safe demo_wf no_user_handler H_WriteMultipleCoils _). intros n. discriminate.
Defined.

(** what an application sets with [eMBSetSlaveID] is what "report slave id"
    answers: the identifier, the run indicator and the additional bytes. *)
Lemma slave_id_reported {R} (wf : R -> Prop) `{Hlaws : RegCBLaws R wf} (a : app R) id run add n
    buf p len :
  app_ok wf a -> is_u8 id -> bytes_ok add -> 0 <= n < 30 -> n <= Zlen add ->
  bytes_ok buf -> 0 <= p -> p + MB_PDU_SIZE_MAX <= Zlen buf ->
  exists a' buf', eMBSetSlaveID a id run add n = Ok (a', MB_ENOERR) /\ app_ok wf a' /\
    eMBFuncReportSlaveID a' buf p len = Ok (a', buf', n + 3, MB_EX_NONE) /\
    slice buf' (p + 1) (n + 2) = id :: (if run then 0xFF else 0) :: take (Z.to_nat n) add.
Proof.
  intros Ha Hid Hadd Hn Hl Hb Hp Hfit. unfold MB_PDU_SIZE_MAX in Hfit.
  destruct (eMBSetSlaveID_ok wf a id run add n) as (a' & e & Hset & Ha' & Hok & Hbad);
    try done; [unfold is_u16; lia|].
  destruct (decide (e = MB_ENOERR)) as [->|He]; [|destruct (Hbad He); lia].
  specialize (Hok eq_refl). pose proof Ha' as (_ & Hidb & Hidl & Hlen).
  unfold MB_FUNC_OTHER_REP_SLAVEID_BUF in *.
  assert (Elen : usMBSlaveIDLen a' = n + 2).
  { apply (f_equal Zlen) in Hok. rewrite slice_length, !Zlen_cons in Hok by lia. rewrite Hok.
    unfold Zlen in *. rewrite length_take. lia. }
  rewrite Elen in *. exists a'. eexists. split; [done|]. split; [done|].
  unfold eMBFuncReportSlaveID. unfold_offs. rewrite Elen.
  rewrite rd_slice_in_range, bind_Ok_l by lia. rewrite Hok.
  set (bs := id :: _ :: _). assert (Lb : Zlen bs = n + 2).
  { subst bs. rewrite !Zlen_cons. unfold Zlen in *. rewrite length_take. lia. }
  rewrite wr_slice_in_range, bind_Ok_l by lia.
  rewrite u16_small by (unfold is_u16; lia). replace (1 + (n + 2)) with (n + 3) by lia.
  split; [reflexivity|].
  rewrite <- Lb. apply slice_splice; lia.
Qed.

Lemma slave_id_reported_witness :
  exists a' buf', eMBSetSlaveID demo_app0 0x34 true [1; 2; 3] 3 = Ok (a', MB_ENOERR) /\
    eMBFuncReportSlaveID a' (frame_of [17]) 1 1 = Ok (a', buf', 6, MB_EX_NONE).
Proof.
  destruct (slave_id_reported demo_wf demo_app0 0x34 true [1; 2; 3] 3 (frame_of [17]) 1 1)
    as (a' & buf' & H1 & _ & H2 & _); [by_compute..|].
  by exists a', buf'.
Defined.

#[local] Instance network_ok_dec n len : Decision (network_ok n len).
Proof.
  refine (cast_if (decide (Forall (fun e => is_error e = false) (client_script n) /\
    len + 7 <= Z.of_nat (data_turns (client_script n)) /\
    Forall (fun e => is_some_sent e = true) (send_script n) /\ 260 <= Zlen (send_script n))));
  [by split; apply a || destruct a as (? & ? & ? & ?) | intros []; tauto].
Defined.

Definition net_of (req : list Z) : net :=
  Net [] (ClIdle :: ClData 3 :: replicate 30 (ClData 2)) (replicate 260 (SndSome 7)) req [].

Lemma tcp_request_answered_witness :
  exists m1 m2 m3,
    eMBPoll no_user_handler (demo_mb demo_app0 (net_of (mbap 0 9 0 0 1 [0x2B; 1]))) = Ok (m1, MB_ENOERR) /\
    eMBPoll no_user_handler m1 = Ok (m2, MB_ENOERR) /\
    eMBPoll no_user_handler m2 = Ok (m3, MB_ENOERR).
Proof.
  destruct (tcp_request_answered demo_wf no_user_handler
              (demo_mb demo_app0 (net_of (mbap 0 9 0 0 1 [0x2B; 1]))) 0 9 1 0x2B [1] [])
    as (m1 & m2 & m3 & _ & _ & _ & _ & _ & H1 & H2 & H3 & _).
  - apply demo_mb_ready. by_compute.
  - apply (default_table_ok demo_wf no_user_handler).
  - by_compute.
  - by_compute.
  - reflexivity.
  - by_compute.
  - by exists m1, m2, m3.
Defined.

(** C1: the demo on the wire: a client that asks for [n] holding registers from
    protocol address [ah * 256 + al] inside the demo's range gets one frame with
    their current values, high byte first, and its request's identifiers; no
    register changes. *)
Theorem demo_serves_holding_registers m t1 t2 uid ah al n rest :
  ready demo_wf m -> xFuncHandlers m = xFuncHandlers0 ->
  bytes_ok [t1; t2; uid; ah; al] -> 1 <= n <= 125 ->
  REG_HOLDING_START <= ah * 256 + al + 1 ->
  ah * 256 + al + 1 + n <= REG_HOLDING_START + REG_HOLDING_NREGS ->
  inq (tcp_net (m_tcp m)) = mbap t1 t2 0 0 uid [3; ah; al; 0; n] ++ rest ->
  network_ok (tcp_net (m_tcp m)) 5 ->
  exists m1 m2 m3,
    eMBPoll no_user_handler m = Ok (m1, MB_ENOERR) /\
    eMBPoll no_user_handler m1 = Ok (m2, MB_ENOERR) /\
    eMBPoll no_user_handler m2 = Ok (m3, MB_ENOERR) /\
    ready demo_wf m3 /\ m_app m3 = m_app m /\ inq (tcp_net (m_tcp m3)) = rest /\
    outq (tcp_net (m_tcp m3)) = outq (tcp_net (m_tcp m)) ++
      mbap t1 t2 0 0 uid
        ([3; 2 * n] ++ be_bytes (slice (usRegHoldingBuf (regs (m_app m)))
                                       (ah * 256 + al + 1 - REG_HOLDING_START) n)).
Proof.
  intros Hr Ht Hb Hn Hlo Hhi Hin Hnet.
  unfold bytes_ok in Hb. rewrite !Forall_cons in Hb. destruct Hb as (B1 & B2 & B3 & B4 & B5 & _).
  destruct (request_response demo_wf no_user_handler m t1 t2 uid 3 [ah; al; 0; n] rest)
    as (m1 & m2 & m3 & buf & a' & buf' & len' & ex & H1' & H2' & H3' & Hpdu & Hbb & Hbl & Hserve
        & Hr3 & Ha & _ & Hin3 & Hout); try done.
  { rewrite Ht. apply (default_table_ok demo_wf no_user_handler). }
  { change (bytes_ok [t1; t2; 0; 0; 0; 6; uid; 3; ah; al; 0; n]). unfold is_u8 in *.
    repeat (apply bytes_ok_cons; [unfold is_u8; lia|]). apply bytes_ok_nil. }
  change (Zlen [3; ah; al; 0; n]) with 5 in *. unfold MB_TCP_BUF_SIZE in Hbl.
  exists m1, m2, m3. do 4 (split; [done|]).
  unfold serve in Hserve. rewrite Ht in Hserve. cbn in Hserve.
  rewrite (read_holding_exec (m_app m) buf 7 3 ah al 0 n) in Hserve;
    [| apply (rdy_app _ _ Hr) | done | unfold MB_PDU_SIZE_MAX; lia | split; [done | split; [|done]]].
  2: { change (Zlen [3; ah; al; 0; n]) with 5. lia. }
  assert (Hu : is_u16 (ah * 256 + al + 1))
    by (unfold is_u16, is_u8, REG_HOLDING_START, REG_HOLDING_NREGS in *; lia).
  rewrite u16_small in Hserve by done.
  unfold read_answer in Hserve. rewrite !bool_decide_true in Hserve by lia.
  injection Hserve as <- <- <- <-. split; [done|]. split; [done|].
  rewrite Hout. unfold response. rewrite decide_True by done. do 2 f_equal.
  destruct (rdy_app _ _ Hr) as [(_ & _ & Hh & _) _].
  set (data := be_bytes _). assert (Hd : Zlen data = 2 * n).
  { subst data. rewrite be_bytes_length, slice_length; unfold REG_HOLDING_START, REG_HOLDING_NREGS in *; lia. }
  replace (2 + 2 * n) with (Zlen ([3; 2 * n] ++ data))
    by (rewrite Zlen_app, Hd; change (Zlen [_; _]) with 2; lia).
  apply slice_splice; [done|]. rewrite Zlen_app, Hd. change (Zlen [_; _]) with 2. lia.
Qed.

Lemma demo_serves_holding_registers_witness :
  exists m1 m2 m3,
    eMBPoll no_user_handler (demo_mb demo_app0 (net_of (mbap 0 9 0 0 1 [3; 0x07; 0xD1; 0; 2])))
      = Ok (m1, MB_ENOERR) /\
    eMBPoll no_user_handler m1 = Ok (m2, MB_ENOERR) /\
    eMBPoll no_user_handler m2 = Ok (m3, MB_ENOERR) /\
    outq (tcp_net (m_tcp m3)) = mbap 0 9 0 0 1 [3; 4; 0; 2; 0; 3].
Proof.
  destruct (demo_serves_holding_registers
              (demo_mb demo_app0 (net_of (mbap 0 9 0 0 1 [3; 0x07; 0xD1; 0; 2]))) 0 9 1 0x07 0xD1 2 [])
    as (m1 & m2 & m3 & H1 & H2 & H3 & _ & _ & _ & Ho);
    [apply demo_mb_ready; by_compute | reflexivity | by_compute | by_compute | by_compute
    | by_compute | reflexivity | by_compute |].
  exists m1, m2, m3. do 3 (split; [done|]). rewrite Ho. vm_compute. reflexivity.
Defined.

(** ** The states of the stack *)

(** the life cycle: [eMBEnable] succeeds exactly from the disabled state (once
    frame functions are installed), [eMBDisable] and [eMBPoll] from a stack that
    was never initialised or is not enabled are refused and change nothing, and
    after [eMBTCPInit] a stack can be enabled and polls. *)
Lemma stack_life_cycle {R} `{RegCB R} cfg user_handler (m : mb R) ucTCPPort fd r_bind r_listen :
  (eMBState m <> STATE_DISABLED -> eMBEnable m = Ok (m, MB_EILLSTATE)) /\
  (eMBState m <> STATE_DISABLED -> eMBClose m = Ok (m, MB_EILLSTATE)) /\
  (eMBState m <> STATE_ENABLED -> eMBPoll user_handler m = Ok (m, MB_EILLSTATE)) /\
  (eMBState m = STATE_NOT_INITIALIZED -> eMBDisable m = Ok (m, MB_EILLSTATE)) /\
  (fd <> -1 -> r_bind <> -1 -> r_listen <> -1 ->
   exists m1 m2,
     eMBTCPInit cfg m ucTCPPort fd r_bind r_listen = (m1, MB_ENOERR) /\
     eMBState m1 = STATE_DISABLED /\ ucMBAddress m1 = MB_TCP_PSEUDO_ADDRESS /\
     eMBEnable m1 = Ok (m2, MB_ENOERR) /\ eMBState m2 = STATE_ENABLED /\
     cur_fns m2 = Some MB_TCP /\ xEventInQueue (m_queue m2) = false).
Proof.
  split; [|split; [|split; [|split]]].
  - intros Hs. unfold eMBEnable. by rewrite decide_False.
  - intros Hs. unfold eMBClose. by rewrite decide_False.
  - intros Hs. unfold eMBPoll. by rewrite decide_True.
  - intros Hs. unfold eMBDisable. by rewrite Hs.
  - intros Hfd Hb Hl. unfold eMBTCPInit, eMBTCPDoInit, xMBTCPPortInit.
    rewrite (proj2 (Z.eqb_neq _ _) Hfd), (proj2 (Z.eqb_neq _ _) Hb), (proj2 (Z.eqb_neq _ _) Hl).
    rewrite decide_False by (intros C; by apply C). do 2 eexists. split; [reflexivity|].
    split; [done|]. split; [done|]. split; [reflexivity|]. done.
Qed.

Lemma stack_life_cycle_witness :
  eMBPoll no_user_handler (put_state (demo_mb demo_app0 (net_of [])) STATE_DISABLED) =
    Ok (put_state (demo_mb demo_app0 (net_of [])) STATE_DISABLED, MB_EILLSTATE).
Proof.
  apply (stack_life_cycle config_linuxtcp no_user_handler
           (put_state (demo_mb demo_app0 (net_of [])) STATE_DISABLED) 0 0 0 0). done.
Defined.

(** a failed [eMBTCPInit] leaves the stack in the disabled state with no frame
    functions installed, so that the [eMBEnable] this state permits calls a null
    pointer. *)
Lemma failed_init_then_enable {R} cfg (m : mb R) ucTCPPort fd r_bind r_listen :
  cur_fns m = None -> fd = -1 \/ r_bind = -1 \/ r_listen = -1 ->
  exists m', eMBTCPInit cfg m ucTCPPort fd r_bind r_listen = (m', MB_EPORTERR) /\
             eMBState m' = STATE_DISABLED /\ eMBEnable m' = Fault NullDeref.
Proof.
  intros Hf Hfail. unfold eMBTCPInit, eMBTCPDoInit, xMBTCPPortInit.
  destruct (fd =? -1) eqn:E1; [|destruct (r_bind =? -1) eqn:E2;
    [|destruct (r_listen =? -1) eqn:E3; [|zify_bool; lia]]].
  all: rewrite decide_True by done; eexists; split; [reflexivity|]; split; [done|];
    unfold eMBEnable; rewrite decide_True by done; unfold pvMBFrameStartCur; cbn; by rewrite Hf.
Qed.

(** The stack of the demo before any call. *)
Definition mb_boot : mb demo_regs :=
  Mb rtu0 ascii0 (replicate 256 0) [] (Tcp 0 INVALID_SOCKET (replicate 263 0) 0 0 (Events EV_READY false)
       (Net [] [] [] [] [])) (Events EV_READY false)
     0 MB_RTU STATE_NOT_INITIALIZED None false xFuncHandlers0 None 0 0 demo_app0.

Lemma failed_init_then_enable_witness :
  exists m', eMBTCPInit config_linuxtcp mb_boot 0 3 (-1) 0 = (m', MB_EPORTERR) /\
             eMBState m' = STATE_DISABLED /\ eMBEnable m' = Fault NullDeref.
Proof. apply failed_init_then_enable; [reflexivity | right; left; reflexivity]. Defined.

(** Registering a handler for a code that has one is reported as a success, but
    the new handler comes later in the table and is never called. *)
Lemma register_for_known_code :
  let '(m', e) := eMBRegisterCB mb_boot MB_FUNC_READ_COILS (Some (H_User 0)) in
  e = MB_ENOERR /\ find_handler (xFuncHandlers m') MB_FUNC_READ_COILS = Some (Some H_ReadCoils).
Proof. by vm_compute. Qed.

(** ** Witnesses of the properties of the handler table *)

Lemma register_handler_witness :
  exists m', eMBRegisterCB mb_boot 100 (Some (H_User 0)) = (m', MB_ENOERR) /\
             find_handler (xFuncHandlers m') 100 = Some (Some (H_User 0)).
Proof.
  destruct (register_handler mb_boot (take 10 xFuncHandlers0) 6 100 (H_User 0))
    as (m' & H1 & _ & H2 & _); [reflexivity | by repeat constructor | lia | by_compute | by_compute |].
  by exists m'.
Defined.

Lemma unregister_hides_the_rest_witness :
  exists m', eMBRegisterCB mb_boot MB_FUNC_READ_INPUT_REGISTER None = (m', MB_ENOERR) /\
             find_handler (xFuncHandlers m') MB_FUNC_READ_HOLDING_REGISTER = None.
Proof.
  destruct (unregister_hides_the_rest mb_boot (take 1 xFuncHandlers0) MB_FUNC_READ_INPUT_REGISTER
              (Some H_ReadInputRegister) (take 8 (drop 2 xFuncHandlers0)) 6)
    as (m' & H1 & _ & H2);
    [reflexivity | by repeat constructor | by_compute | by_compute |].
  exists m'. split; [exact H1|]. apply H2. by_compute.
Defined.
