(* ===== verification/MbThread.v ===== *)
(** * FreeModbus demo: the command line and the polling thread (demo.c)

    demo.c runs the stack in a thread of its own.  [main] reads commands and talks
    to that thread only through [ePollThreadState], which is read and written under
    a lock.  Each access under the lock and each call of the stack is one step; the
    two sides interleave freely.  A call that faults has no step.

    [getchar] takes the next character of the input; at its end it returns [EOF],
    which the [CHAR] it is stored in keeps as -1. *)

From stdpp Require Import base numbers list list_numbers relations.
From S2P Require Import MbRtu MbAscii.
From S2P Require Import Prelude MbDefs MbFunc MbDemo MbPort MbTcp Mb MbServer.

#[local] Open Scope Z_scope.

Inductive ThreadState := STOPPED | RUNNING | SHUTDOWN.
#[global] Instance ThreadState_eq_dec : EqDecision ThreadState.
Proof. solve_decision. Defined.

(** Where a polling thread is in [pvPollingThread]. *)
Inductive thread_pc :=
| T_start      (* eSetPollingThreadState( RUNNING ) *)
| T_enable     (* eMBEnable(  ) *)
| T_poll       (* eMBPoll(  ) *)
| T_check      (* eGetPollingThreadState(  ) != SHUTDOWN *)
| T_disable    (* eMBDisable(  ) *)
| T_stop.      (* eSetPollingThreadState( STOPPED ) *)
#[global] Instance thread_pc_eq_dec : EqDecision thread_pc.
Proof. solve_decision. Defined.

(** Where [main] is. *)
Inductive main_pc :=
| M_read                            (* cCh = getchar(  ) *)
| M_switch (cCh : Z)                (* switch ( cCh ) *)
| M_create (cCh : Z)                (* pthread_create, the state was STOPPED *)
| M_eat (cCh : Z) (bDoExit : bool)  (* while( cCh != '\n' ) *)
| M_close                           (* eMBClose(  ) *)
| M_done (iExitCode : Z).
#[global] Instance main_pc_eq_dec : EqDecision main_pc.
Proof. solve_decision. Defined.

(** What is printed, prompts apart. *)
Inductive message :=
| MsgNoInit | MsgWelcome | MsgCannotStart | MsgState (s : ThreadState) | MsgHelp
| MsgIllegal (cCh : Z).

Record demo := Demo {
  ePollThreadState : ThreadState;
  stack : mb demo_regs;
  threads : list thread_pc;
  main_at : main_pc;
  input : list Z;
  output : list message;
}.

Definition newline : Z := 10.
Definition EOF : Z := -1.
Definition getchar (inp : list Z) : Z * list Z :=
  match inp with [] => (EOF, []) | c :: inp => (c, inp) end.

(** What the network does during a call is not the program's choice. *)
Definition with_net {R} (m : mb R) (n : net) : mb R :=
  put_tcp m (set_net (get_tcp m) n).

Section Thread.
Context (user_handler : nat -> app demo_regs -> list Z -> Z -> Z -> outcome (@hresult demo_regs)).

(** One step of [pvPollingThread]; [None] when it has returned. *)
Definition pvPollingThread (n : net) (pc : thread_pc) (s : ThreadState) (m : mb demo_regs)
    : outcome (ThreadState * mb demo_regs * option thread_pc) :=
  match pc with
  | T_start => Ok (RUNNING, m, Some T_enable)
  | T_enable =>
      '(m, e) ← eMBEnable m;
      Ok (s, m, Some (if decide (e = MB_ENOERR) then T_poll else T_disable))
  | T_poll =>
      '(m, e) ← eMBPoll user_handler (with_net m n);
      Ok (s, m, Some (if decide (e <> MB_ENOERR) then T_disable else T_check))
  | T_check => Ok (s, m, Some (if decide (s <> SHUTDOWN) then T_poll else T_disable))
  | T_disable => '(m, _) ← eMBDisable (with_net m n); Ok (s, m, Some T_stop)
  | T_stop => Ok (STOPPED, m, None)
  end.

Definition say (d : demo) (msg : message) : demo :=
  Demo (ePollThreadState d) (stack d) (threads d) (main_at d) (input d) (output d ++ [msg]).
Definition goto (d : demo) (pc : main_pc) : demo :=
  Demo (ePollThreadState d) (stack d) (threads d) pc (input d) (output d).
Definition eSetPollingThreadState (d : demo) (s : ThreadState) : demo :=
  Demo s (stack d) (threads d) (main_at d) (input d) (output d).
Definition eGetPollingThreadState (d : demo) : ThreadState := ePollThreadState d.
Definition take_char (d : demo) (k : Z -> main_pc) : demo :=
  let '(c, inp) := getchar (input d) in
  Demo (ePollThreadState d) (stack d) (threads d) (k c) inp (output d).

(** The first half of [bCreatePollingThread]: is the state [STOPPED]? *)
Definition create_check (d : demo) (cCh : Z) : demo :=
  if decide (eGetPollingThreadState d = STOPPED) then goto d (M_create cCh)
  else goto (say d MsgCannotStart) (M_eat cCh false).

(** The second half: [created] says whether [pthread_create] succeeded. *)
Definition create_thread (created : bool) (d : demo) (cCh : Z) : demo :=
  if created then
    Demo (ePollThreadState d) (stack d) (threads d ++ [T_start]) (M_eat cCh false) (input d) (output d)
  else goto (say d MsgCannotStart) (M_eat cCh false).

Definition command (d : demo) (cCh : Z) : demo :=
  if cCh =? 113 (* 'q' *) then goto d (M_eat cCh true)
  else if cCh =? 100 (* 'd' *) then goto (eSetPollingThreadState d SHUTDOWN) (M_eat cCh false)
  else if cCh =? 101 (* 'e' *) then create_check d cCh
  else if cCh =? 115 (* 's' *) then
    goto (say d (MsgState (eGetPollingThreadState d))) (M_eat cCh false)
  else if cCh =? 104 (* 'h' *) then goto (say d MsgHelp) (M_eat cCh false)
  else if negb (cCh =? newline) then goto (say d (MsgIllegal cCh)) (M_eat cCh false)
  else goto d (M_eat cCh false).

(** One step of [main] after its start; [None] once it has returned. *)
Definition main_step (created : bool) (n : net) (d : demo) : outcome (option demo) :=
  match main_at d with
  | M_read => Ok (Some (take_char d M_switch))
  | M_switch c => Ok (Some (command d c))
  | M_create c => Ok (Some (create_thread created d c))
  | M_eat c bDoExit =>
      Ok (Some (if negb (c =? newline) then take_char d (fun c => M_eat c bDoExit)
                else goto d (if bDoExit then M_close else M_read)))
  | M_close =>
      '(m, _) ← eMBClose (with_net (stack d) n);
      Ok (Some (Demo (ePollThreadState d) m (threads d) (M_done 0) (input d) (output d)))
  | M_done _ => Ok None
  end.

(** The start of [main]: the results of the socket calls of [eMBTCPInit] are given. *)
Definition main_start (cfg : config) (m : mb demo_regs) (fd r_bind r_listen : Z) (inp : list Z) : demo :=
  let '(m, e) := eMBTCPInit cfg m 0 fd r_bind r_listen in
  if decide (e <> MB_ENOERR) then Demo STOPPED m [] (M_done 1) inp [MsgNoInit]
  else Demo STOPPED m [] M_read inp [MsgWelcome].

(** Give the [i]th thread one step. *)
Definition thread_step (n : net) (i : nat) (d : demo) : outcome (option demo) :=
  match threads d !! i with
  | None => Ok None
  | Some pc =>
      '(s, m, pc') ← pvPollingThread n pc (ePollThreadState d) (stack d);
      Ok (Some (Demo s m (match pc' with Some pc' => <[i := pc']> (threads d)
                                       | None => delete i (threads d) end)
                     (main_at d) (input d) (output d)))
  end.

(** The process ends when [main] returns. *)
Definition live (d : demo) : Prop := match main_at d with M_done _ => False | _ => True end.

Inductive demo_step : demo -> demo -> Prop :=
| step_main created n d d' : main_step created n d = Ok (Some d') -> demo_step d d'
| step_thread n i d d' : live d -> thread_step n i d = Ok (Some d') -> demo_step d d'.

(** The command "enable" is not given while a thread that was created has not
    set the state yet. *)
Definition patient (d : demo) : Prop := main_at d = M_switch 101 -> T_start ∉ threads d.

Inductive patient_step : demo -> demo -> Prop :=
| step_patient d d' : patient d -> demo_step d d' -> patient_step d d'.
End Thread.

(** ** The stack the threads share *)

(** What a stack call leaves as it was. *)
Definition same_setup {R} (m m' : mb R) : Prop :=
  eMBState m' = eMBState m /\ cur_fns m' = cur_fns m.

(** Take an equation [... = Ok _] apart along the binds and branches of its left side. *)
Ltac run_through :=
  repeat match goal with
  | H : Ok _ = Ok _ |- _ => injection H as H; subst
  | H : Fault _ = Ok _ |- _ => discriminate H
  | H : mbind _ ?x = Ok _ |- _ =>
      let E := fresh "E" in destruct x eqn:E; cbn [mbind outcome_bind] in H; [|discriminate H]
  | p : (_ * _)%type |- _ => destruct p
  | H : context [match ?x with _ => _ end] |- _ =>
      lazymatch type of H with _ = Ok _ => let E := fresh "E" in destruct x eqn:E end
  | H : (_, _) = (_, _) |- _ => injection H as ? ?; subst
  | |- context [match ?x with _ => _ end] => destruct x
  end.

Section Setup.
Context {R : Type} `{RegCB R}.
Context (user_handler : nat -> app R -> list Z -> Z -> Z -> outcome (@hresult R)).
Implicit Types m : mb R.

#[local] Instance same_setup_pre : PreOrder (@same_setup R).
Proof.
  split; [by intros m|]. intros m1 m2 m3 [H1 H2] [H3 H4]. split; congruence.
Qed.

Lemma receive_setup m m' e : peMBFrameReceiveCur m = Ok (m', e) -> same_setup m m'.
Proof. unfold peMBFrameReceiveCur. intros Hr. run_through; done. Qed.

Lemma send_setup m m' f e : peMBFrameSendCur m f = Ok (m', e) -> same_setup m m'.
Proof. unfold peMBFrameSendCur. intros Hr. run_through; done. Qed.

Lemma put_frame_mem_setup m f buf : same_setup m (put_frame_mem m f buf).
Proof. by destruct f. Qed.

Lemma error_frame_setup m m' f c ex : error_frame m f c ex = Ok m' -> same_setup m m'.
Proof.
  unfold error_frame. intros He. run_through; try done.
  apply (put_frame_mem_setup m f).
Qed.

Lemma poll_received_setup m m' : poll_received m = Ok m' -> same_setup m m'.
Proof.
  unfold poll_received. intros He. run_through.
  all: match goal with E : peMBFrameReceiveCur _ = _ |- _ => apply receive_setup in E end; done.
Qed.

Lemma poll_execute_setup m m' : poll_execute user_handler m = Ok m' -> same_setup m m'.
Proof.
  unfold poll_execute. intros He. run_through.
  all: repeat match goal with
  | E : peMBFrameSendCur _ _ = _ |- _ => apply send_setup in E
  | E : error_frame _ _ _ _ = _ |- _ => apply error_frame_setup in E
  end.
  all: try (etrans; [|done]); try (etrans; [|done]); try done.
  all: by apply put_frame_mem_setup.
Qed.

Lemma eMBPoll_setup m m' e : eMBPoll user_handler m = Ok (m', e) -> same_setup m m'.
Proof.
  unfold eMBPoll, xMBPortEventGet. intros He. run_through; try done.
  - etrans; [|by apply poll_received_setup]. done.
  - etrans; [|by apply poll_execute_setup]. done.
Qed.

(** With the functions of the TCP mode installed. *)
Lemma enable_tcp m :
  eMBState m = STATE_DISABLED -> cur_fns m = Some MB_TCP ->
  exists m', eMBEnable m = Ok (m', MB_ENOERR) /\ eMBState m' = STATE_ENABLED /\
             cur_fns m' = Some MB_TCP.
Proof.
  intros Hs Hf. unfold eMBEnable, pvMBFrameStartCur. rewrite decide_True by done. rewrite Hf.
  by eexists.
Qed.

Lemma disable_tcp m m' e :
  eMBState m <> STATE_NOT_INITIALIZED -> cur_fns m = Some MB_TCP -> eMBDisable m = Ok (m', e) ->
  eMBState m' = STATE_DISABLED /\ cur_fns m' = Some MB_TCP.
Proof.
  unfold eMBDisable, pvMBFrameStopCur. intros Hs Hf Hd. rewrite Hf in Hd.
  destruct (eMBState m) eqn:E; run_through; done.
Qed.

Lemma close_setup m m' e : eMBClose m = Ok (m', e) -> same_setup m m'.
Proof. unfold eMBClose, pvMBFrameCloseCur. intros Hc. run_through; done. Qed.

Lemma poll_enabled m m' e :
  eMBState m = STATE_ENABLED -> eMBPoll user_handler m = Ok (m', e) -> e = MB_ENOERR.
Proof. unfold eMBPoll. intros Hs Hp. rewrite decide_False in Hp by (by intros ?). run_through; done. Qed.
End Setup.

(** ** Invariants *)

(** The state of the stack at each point of a lone polling thread. *)
Definition stack_at (pc : option thread_pc) : eMBState_t :=
  match pc with
  | Some (T_poll | T_check | T_disable) => STATE_ENABLED
  | _ => STATE_DISABLED
  end.

(** At most one thread, the stack in the state that thread expects. *)
Record one_thread (d : demo) : Prop := {
  ot_most : (length (threads d) <= 1)%nat;
  ot_fns : cur_fns (stack d) = Some MB_TCP;
  ot_stack : eMBState (stack d) = stack_at (head (threads d));
  ot_create : forall c, main_at d = M_create c -> threads d = [] /\ ePollThreadState d = STOPPED;
  ot_busy : forall pc, threads d = [pc] -> pc <> T_start -> ePollThreadState d <> STOPPED;
}.

Section Threads.
Context (user_handler : nat -> app demo_regs -> list Z -> Z -> Z -> outcome (@hresult demo_regs)).

(** A step of [main] that leaves the threads, the stack and the shared state alone. *)
Lemma one_thread_main d pc inp out :
  one_thread d -> (forall c, pc <> M_create c) ->
  one_thread (Demo (ePollThreadState d) (stack d) (threads d) pc inp out).
Proof. intros [H1 H2 H3 H4 H5] Hpc. split; try done. intros c E. by destruct (Hpc c). Qed.

Lemma one_thread_shutdown d pc inp out :
  one_thread d -> (forall c, pc <> M_create c) ->
  one_thread (Demo SHUTDOWN (stack d) (threads d) pc inp out).
Proof. intros [H1 H2 H3 H4 H5] Hpc. split; try done. intros c E. by destruct (Hpc c). Qed.

Lemma one_thread_command d c :
  one_thread d -> main_at d = M_switch c -> patient d -> one_thread (command d c).
Proof.
  intros Hd Hm Hp. unfold command.
  destruct (c =? 113) eqn:?; [by apply one_thread_main|].
  destruct (c =? 100) eqn:?; [by apply (one_thread_shutdown d)|].
  destruct (c =? 101) eqn:E; [|by repeat case_match; apply (one_thread_main d)].
  unfold create_check. case_decide as Hs; [|by apply (one_thread_main d)].
  zify_bool. subst c. specialize (Hp Hm). destruct Hd as [H1 H2 H3 H4 H5]. split; try done.
  intros c _. split; [|done]. cbn. destruct (threads d) as [|pc [|pc' l]]; [done| |simpl in H1; lia].
  destruct (decide (pc = T_start)) as [->|Hne]; [by destruct Hp; left|]. by destruct (H5 pc).
Qed.

Lemma one_thread_main_step created n d d' :
  one_thread d -> patient d -> main_step created n d = Ok (Some d') -> one_thread d'.
Proof.
  intros Hd Hp Hs. unfold main_step in Hs. destruct (main_at d) eqn:Hm.
  - injection Hs as <-. unfold take_char. destruct (getchar _). by apply (one_thread_main d).
  - injection Hs as <-. by apply one_thread_command.
  - injection Hs as <-. unfold create_thread. destruct created; [|by apply (one_thread_main d)].
    destruct Hd as [H1 H2 H3 H4 H5]. destruct (H4 _ Hm) as [Ht Hst]. rewrite Ht in *.
    split; try done. cbn. intros pc [= <-]. done.
  - injection Hs as <-. destruct (negb _).
    + unfold take_char. destruct (getchar _). by apply (one_thread_main d).
    + apply (one_thread_main d); [done|]. intros c. by destruct bDoExit.
  - run_through. destruct Hd as [H1 H2 H3 H4 H5].
    match goal with E : eMBClose _ = _ |- _ => apply close_setup in E as [Es Ef] end.
    split; cbn in *; try done; congruence.
  - done.
Qed.

Lemma one_thread_thread_step n i d d' :
  one_thread d -> thread_step user_handler n i d = Ok (Some d') -> one_thread d'.
Proof.
  intros [H1 H2 H3 H4 H5] Hs. unfold thread_step in Hs.
  destruct (threads d) as [|pc [|pc' l]] eqn:Ht; [done| |simpl in H1; lia].
  destruct i as [|i]; [|by destruct i]. simpl in Hs, H3.
  assert (Hc : forall c, main_at d <> M_create c) by (intros c E; by destruct (H4 c E)).
  destruct pc; cbn in H3; unfold pvPollingThread in Hs.
  - injection Hs as <-. split; cbn; try done. by intros c E; destruct (Hc c).
  - destruct (enable_tcp _ H3 H2) as (m' & E & Es & Ef). rewrite E in Hs.
    injection Hs as <-. split; cbn; try done; [by intros c ?; destruct (Hc c)|]. intros pc [= <-] _. by apply (H5 T_enable).
  - destruct (eMBPoll _ _) as [[m' e]|] eqn:E; [|done]. cbn [mbind outcome_bind] in Hs.
    assert (e = MB_ENOERR) as -> by (exact (poll_enabled user_handler (with_net (stack d) n) m' e H3 E)).
    destruct (eMBPoll_setup _ _ _ _ E) as [Es Ef]. injection Hs as <-.
    split; cbn in *; try done; try congruence.
    intros pc [= <-] _. by apply (H5 T_poll).
  - injection Hs as <-. split; cbn; try done; [by case_decide|by intros c ?; destruct (Hc c)|].
    intros pc _ _. by apply (H5 T_check).
  - destruct (eMBDisable _) as [[m' e]|] eqn:E; [|done]. cbn [mbind outcome_bind] in Hs.
    apply disable_tcp in E as [Es Ef]; [|cbn; congruence..]. injection Hs as <-.
    split; cbn; try done; [by intros c ?; destruct (Hc c)|]. intros pc _ _. by apply (H5 T_disable).
  - injection Hs as <-. split; cbn; try done; lia.
Qed.

Lemma one_thread_steps d d' :
  one_thread d -> rtc (patient_step user_handler) d d' -> one_thread d'.
Proof.
  intros Hd Hr. induction Hr as [|d d1 d' Hstep Hr IH]; [done|]. apply IH.
  inversion Hstep as [? ? Hp Hs]; subst. inversion Hs; subst;
    [by eapply one_thread_main_step | by eapply one_thread_thread_step].
Qed.

Lemma one_thread_start cfg m fd r_bind r_listen inp :
  fd <> -1 -> r_bind <> -1 -> r_listen <> -1 ->
  one_thread (main_start cfg m fd r_bind r_listen inp).
Proof.
  intros Hfd Hb Hl. unfold main_start, eMBTCPInit, eMBTCPDoInit, xMBTCPPortInit.
  rewrite (proj2 (Z.eqb_neq _ _) Hfd), (proj2 (Z.eqb_neq _ _) Hb), (proj2 (Z.eqb_neq _ _) Hl).
  rewrite decide_False by (intros C; by apply C). cbn [xMBPortEventInit negb].
  rewrite decide_False by (intros C; by apply C). split; try done. cbn. lia.
Qed.

(** Shut down before any thread runs. *)
Definition stuck (d : demo) : Prop :=
  threads d = [] /\ ePollThreadState d = SHUTDOWN /\ forall c, main_at d <> M_create c.

Lemma stuck_step d d' : stuck d -> demo_step user_handler d d' -> stuck d'.
Proof.
  intros (Ht & Hs & Hm) Hstep. inversion Hstep as [created n ?? Hst|n i ?? _ Hst]; subst.
  - unfold main_step in Hst. destruct (main_at d) eqn:Hmd; try (by destruct (Hm cCh)).
    + injection Hst as <-. unfold take_char. destruct (getchar _). by split.
    + injection Hst as <-. unfold command, create_check, eGetPollingThreadState. rewrite Hs.
      repeat case_match; by split.
    + injection Hst as <-. unfold take_char. destruct (getchar _).
      destruct (negb _); split; try done. split; [done|]. intros c. by destruct bDoExit.
    + run_through. by split.
    + done.
  - unfold thread_step in Hst. by rewrite Ht in Hst.
Qed.
End Threads.

(** ** Schedules *)

(** Whose turn it is; [pthread_create] succeeds. *)
Inductive turn := TMain | TThread (i : nat) (n : net).

Fixpoint run (ts : list turn) (d : demo) : outcome demo :=
  match ts with
  | [] => Ok d
  | t :: ts =>
      o ← (match t with
           | TMain => main_step true (Net [] [] [] [] []) d
           | TThread i n => thread_step no_user_handler n i d
           end);
      match o with Some d => run ts d | None => Ok d end
  end.

(** Every state the schedule visits is patient and live. *)
Fixpoint patient_along (ts : list turn) (d : demo) : bool :=
  match ts with
  | [] => true
  | t :: ts =>
      bool_decide (main_at d = M_switch 101 -> T_start ∉ threads d) &&
      (if main_at d is M_done _ then false else true) &&
      match (match t with
             | TMain => main_step true (Net [] [] [] [] []) d
             | TThread i n => thread_step no_user_handler n i d
             end) with
      | Ok (Some d) => patient_along ts d
      | _ => true
      end
  end.

Lemma run_patient ts d d' :
  run ts d = Ok d' -> patient_along ts d = true -> rtc (patient_step no_user_handler) d d'.
Proof.
  revert d. induction ts as [|t ts IH]; intros d Hr Hp; simpl in *; [injection Hr as <-; apply rtc_refl|].
  apply andb_prop in Hp as [[Hp Hl]%andb_prop Hn]. apply bool_decide_eq_true_1 in Hp.
  set (o := match t with TMain => _ | TThread i n => _ end) in *.
  destruct o as [[d1|]|] eqn:Eo; cbn [mbind outcome_bind] in Hr; [|injection Hr as <-; apply rtc_refl|done].
  apply (rtc_l _ _ d1); [|by apply IH]. split; [done|]. subst o. destruct t as [|i n].
  - by eapply step_main.
  - eapply step_thread; [|done]. unfold live. by destruct (main_at d).
Qed.

Definition quiet : net := Net [(false, 0)] [] [] [] [].
Definition demo_start (inp : list Z) : demo := main_start config_linuxtcp mb_boot 3 0 0 inp.

(** "e", twice, before the first thread has set the state: the second thread finds
    the stack enabled, disables it under the first one, and both stop. *)
Lemma enable_twice_disables :
  (d ← run (replicate 8 TMain ++
            [TThread 0 quiet; TThread 0 quiet; TThread 1 quiet; TThread 1 quiet; TThread 1 quiet;
             TThread 1 quiet; TThread 0 quiet; TThread 0 quiet; TThread 0 quiet])
           (demo_start [101; 10; 101; 10]);
   Ok (ePollThreadState d, eMBState (stack d), threads d)) = Ok (STOPPED, STATE_DISABLED, []).
Proof. by vm_compute. Qed.

(** At the end of the input [main] looks for a newline that never comes. *)
Lemma end_of_input_spins created n d c b :
  main_at d = M_eat c b -> c <> newline -> input d = [] ->
  exists d', main_step created n d = Ok (Some d') /\ main_at d' = M_eat EOF b /\ input d' = [].
Proof.
  intros Hm Hc Hi. unfold main_step. rewrite Hm. rewrite (proj2 (Z.eqb_neq _ _) Hc). cbn.
  unfold take_char. rewrite Hi. by eexists.
Qed.

(** ** Properties *)

(** C33: the polling thread and the command line cooperate: as long as "enable" is
    not given while a new thread has not yet announced itself, at most one polling
    thread exists in every interleaving, and the stack is enabled exactly while
    that thread is between its [eMBEnable] and its [eMBDisable]; until it has
    stopped the shared state is not [STOPPED], so no other thread is created. *)
Theorem polling_thread_exclusive user_handler cfg m fd r_bind r_listen inp d :
  fd <> -1 -> r_bind <> -1 -> r_listen <> -1 ->
  rtc (patient_step user_handler) (main_start cfg m fd r_bind r_listen inp) d ->
  (length (threads d) <= 1)%nat /\
  eMBState (stack d) = stack_at (head (threads d)) /\
  (forall pc, threads d = [pc] -> pc <> T_start -> ePollThreadState d <> STOPPED).
Proof.
  intros Hfd Hb Hl Hr. apply one_thread_steps in Hr; [by destruct Hr|].
  by apply one_thread_start.
Qed.

(** The shortest run: one "enable" and the steps up to the first poll. *)
Lemma polling_thread_exclusive_witness :
  exists d, run (replicate 4 TMain ++ [TThread 0 quiet; TThread 0 quiet]) (demo_start [101; 10]) = Ok d /\
    threads d = [T_poll] /\ eMBState (stack d) = STATE_ENABLED.
Proof.
  set (d0 := demo_start [101; 10]).
  destruct (run (replicate 4 TMain ++ [TThread 0 quiet; TThread 0 quiet]) d0) as [d|] eqn:E.
  2: { vm_compute in E. discriminate E. }
  exists d. assert (Ht : threads d = [T_poll]) by (vm_compute in E; by injection E as <-).
  split; [reflexivity|]. split; [exact Ht|].
  change STATE_ENABLED with (stack_at (head [T_poll])). rewrite <- Ht.
  apply (polling_thread_exclusive no_user_handler config_linuxtcp mb_boot 3 0 0 [101; 10] d);
    [lia..|]. apply (run_patient _ _ _ E). vm_compute. reflexivity.
Defined.

(** a request to shut down is carried out: once the loop condition sees
    [SHUTDOWN] and the call that disables the stack returns, the thread is gone
    after three steps of its own, the stack is disabled and the state [STOPPED],
    so that a new thread can be created. *)
Lemma shutdown_stops user_handler cfg m fd r_bind r_listen inp d n m' e :
  fd <> -1 -> r_bind <> -1 -> r_listen <> -1 ->
  rtc (patient_step user_handler) (main_start cfg m fd r_bind r_listen inp) d ->
  live d -> threads d = [T_check] -> ePollThreadState d = SHUTDOWN ->
  eMBDisable (with_net (stack d) n) = Ok (m', e) ->
  exists d', nsteps (demo_step user_handler) 3 d d' /\ threads d' = [] /\
    ePollThreadState d' = STOPPED /\ eMBState (stack d') = STATE_DISABLED /\ input d' = input d.
Proof.
  intros Hfd Hb Hl Hr Hlive Ht Hs Hd.
  apply one_thread_steps in Hr as [_ Hf Hst _ _]; [|by apply one_thread_start].
  rewrite Ht in Hst. cbn in Hst. pose proof Hd as Hd'.
  apply disable_tcp in Hd' as [Hdis _]; [|cbn; congruence|done].
  exists (Demo STOPPED m' [] (main_at d) (input d) (output d)). split; [|done].
  eapply nsteps_l; [|eapply nsteps_l; [|eapply nsteps_l; [|apply nsteps_O]]].
  - apply (step_thread _ n 0); [done|]. unfold thread_step. rewrite Ht. cbn. rewrite Hs. done.
  - apply (step_thread _ n 0); [done|]. unfold thread_step, pvPollingThread.
    cbn [threads stack lookup list_lookup ePollThreadState main_at input output]. rewrite Hd. done.
  - by apply (step_thread _ n 0).
Qed.

(** a "disable" given when no thread runs is final: the state becomes
    [SHUTDOWN], which only a thread would ever reset, and from then on no thread
    is created, whatever the commands. *)
Lemma early_shutdown_is_final user_handler d d' :
  threads d = [] -> ePollThreadState d = SHUTDOWN -> (forall c, main_at d <> M_create c) ->
  rtc (demo_step user_handler) d d' -> threads d' = [] /\ ePollThreadState d' = SHUTDOWN.
Proof.
  intros Ht Hs Hm Hr. assert (Hd : stuck d) by done. clear Ht Hs Hm.
  induction Hr as [d|d d1 d' Hstep Hr IH]; [by destruct Hd as (? & ? & _)|].
  apply IH. by eapply stuck_step.
Qed.

(** A thread that reaches the loop condition: the client hangs up during the first
    poll, which is left, and "d" is given meanwhile. *)
Definition hang_up : net := Net [(true, 4)] [ClError] [] [] [].
Definition to_check : list turn :=
  replicate 5 TMain ++ [TThread 0 quiet; TThread 0 quiet; TThread 0 hang_up; TMain; TMain].

Lemma shutdown_stops_witness :
  exists d d', run to_check (demo_start [101; 10; 100; 10]) = Ok d /\ threads d = [T_check] /\
    nsteps (demo_step no_user_handler) 3 d d' /\ threads d' = [] /\ ePollThreadState d' = STOPPED.
Proof.
  set (d0 := demo_start [101; 10; 100; 10]).
  destruct (run to_check d0) as [d|] eqn:E.
  2: { vm_compute in E. discriminate E. }
  destruct (eMBDisable (with_net (stack d) quiet)) as [[m' e]|] eqn:Ed.
  2: { vm_compute in E. injection E as <-. vm_compute in Ed. discriminate Ed. }
  destruct (shutdown_stops no_user_handler config_linuxtcp mb_boot 3 0 0 [101; 10; 100; 10] d quiet m' e)
    as (d' & Hn & Ht' & Hs' & _); [lia..| | | | |exact Ed|].
  - apply (run_patient _ _ _ E). vm_compute. reflexivity.
  - vm_compute in E. injection E as <-. exact I.
  - vm_compute in E. injection E as <-. reflexivity.
  - vm_compute in E. injection E as <-. reflexivity.
  - exists d, d'. split; [reflexivity|]. split; [|done].
    vm_compute in E. injection E as <-. reflexivity.
Defined.

(** "d" as the first command. *)
Lemma early_shutdown_is_final_witness :
  exists d d', run (replicate 3 TMain) (demo_start [100; 10; 101; 10]) = Ok d /\
    run (replicate 9 TMain) d = Ok d' /\ threads d' = [].
Proof.
  set (d0 := demo_start [100; 10; 101; 10]).
  destruct (run (replicate 3 TMain) d0) as [d|] eqn:E.
  2: { vm_compute in E. discriminate E. }
  destruct (run (replicate 9 TMain) d) as [d'|] eqn:E'.
  2: { vm_compute in E. injection E as <-. vm_compute in E'. discriminate E'. }
  exists d, d'. split; [reflexivity|]. split; [exact E'|].
  apply (early_shutdown_is_final no_user_handler d d').
  - vm_compute in E. injection E as <-. reflexivity.
  - vm_compute in E. injection E as <-. reflexivity.
  - vm_compute in E. injection E as <-. intros c. discriminate.
  - apply (rtc_subrel (patient_step no_user_handler)); [by intros ? ? []|].
    apply (run_patient _ _ _ E'). vm_compute in E. injection E as <-. vm_compute. reflexivity.
Defined.
