(* ===== verification/CliLine.v ===== *)
(** * CLI parser: the line buffers (cparser_line.c)

    The line editor of the command-line parser: ten line buffers with a cursor,
    used as a circular history, and what is sent to the terminal while they are
    edited.  The output of [printc] and [prints] is kept as the list of the
    characters sent.  A parser argument is an [option]: [None] is the null
    pointer, the negation of [VALID_PARSER]. *)

From stdpp Require Import base numbers list list_numbers.
From S2P Require Import Prelude.

#[local] Open Scope Z_scope.

Definition CPARSER_MAX_LINES : Z := 10.
Definition CPARSER_MAX_LINE_SIZE : Z := 383.

Inductive cparser_result_t :=
| CPARSER_OK | CPARSER_NOT_OK | CPARSER_ERR_INVALID_PARAMS | CPARSER_ERR_NOT_EXIST
| CPARSER_ERR_OUT_OF_RES | CPARSER_ERR_PARSE_ERR | CPARSER_ERR_INCOMP_CMD.

Record cparser_line_t := Line {
  last : Z;
  current : Z;
  buf : list Z;
}.

(** The part of [struct cparser_] the line buffers use, and the output. *)
Record cparser_t := Parser {
  root_level : Z;
  prompt : list (list Z);
  is_privileged_mode : bool;
  max_line : Z;
  cur_line : Z;
  lines : list cparser_line_t;
  out : list Z;
}.

Definition put_line (p : cparser_t) (ls : list cparser_line_t) : cparser_t :=
  Parser (root_level p) (prompt p) (is_privileged_mode p) (max_line p) (cur_line p) ls (out p).
Definition put_cur (p : cparser_t) (mx cur : Z) : cparser_t :=
  Parser (root_level p) (prompt p) (is_privileged_mode p) mx cur (lines p) (out p).

(** A conversion to [short]. *)
Definition s16 (z : Z) : Z := (z + 32768) `mod` 65536 - 32768.

(** ** Output *)

Definition printc (p : cparser_t) (ch : Z) : cparser_t :=
  Parser (root_level p) (prompt p) (is_privileged_mode p) (max_line p) (cur_line p) (lines p)
         (out p ++ [ch]).

(** The characters from offset [i] up to the terminating NUL. *)
Fixpoint c_string (fuel : nat) (b : list Z) (i : Z) : outcome (list Z) :=
  match fuel with
  | O => Fault OutOfFuel
  | S fuel =>
      c ← rd b i;
      if c =? 0 then Ok [] else s ← c_string fuel b (i + 1); Ok (c :: s)
  end.

(** A string in an array ends within the array: its length is enough fuel. *)
Definition prints (p : cparser_t) (b : list Z) (i : Z) : outcome cparser_t :=
  s ← c_string (S (length b)) b i;
  Ok (foldl printc p s).

Definition BS : Z := 8.
Definition LF : Z := 10.
Definition SP : Z := 32.

(** [for (n = from; n < to; n++) printc('\b')] *)
Definition backspaces (p : cparser_t) (from to : Z) : cparser_t :=
  Nat.iter (Z.to_nat (to - from)) (fun p => printc p BS) p.

Definition cparser_print_prompt (p : cparser_t) : outcome cparser_t :=
  let p := if is_privileged_mode p then printc p 43 (* '+' *) else p in
  pr ← rd (prompt p) (root_level p);
  prints p pr 0.

(** ** Line operations *)

Definition cparser_line_reset (line : option cparser_line_t)
    : option cparser_line_t * cparser_result_t :=
  match line with
  | None => (None, CPARSER_ERR_INVALID_PARAMS)
  | Some line => (Some (Line 0 0 (replicate (length (buf line)) 0)), CPARSER_OK)
  end.

(** [for (n = line->last; n > line->current; n--) line->buf[n] = line->buf[n-1];] *)
Fixpoint shift_up (k : nat) (b : list Z) (n : Z) : outcome (list Z) :=
  match k with
  | O => Ok b
  | S k => c ← rd b (n - 1); b ← wr b n c; shift_up k b (n - 1)
  end.

(** [for (n = line->current; n < line->last; n++) line->buf[n-1] = line->buf[n];] *)
Fixpoint shift_down (k : nat) (b : list Z) (n : Z) : outcome (list Z) :=
  match k with
  | O => Ok b
  | S k => c ← rd b n; b ← wr b (n - 1) c; shift_down k b (n + 1)
  end.

Definition cparser_line_insert (parser : option cparser_t) (ch : Z)
    : outcome (option cparser_t * cparser_result_t) :=
  match parser with
  | None => Ok (None, CPARSER_ERR_INVALID_PARAMS)
  | Some p =>
      if ch =? 0 then Ok (Some p, CPARSER_ERR_INVALID_PARAMS)
      else
        line ← rd (lines p) (cur_line p);
        if CPARSER_MAX_LINE_SIZE <=? last line then Ok (Some p, CPARSER_ERR_OUT_OF_RES)
        else
          b ← shift_up (Z.to_nat (last line - current line)) (buf line) (last line);
          let last' := s16 (last line + 1) in
          b ← wr b last' 0;
          b ← wr b (current line) ch;
          let p := printc p ch in
          let line := Line last' (s16 (current line + 1)) b in
          ls ← wr (lines p) (cur_line p) line;
          p ← prints (put_line p ls) (buf line) (current line);
          Ok (Some (backspaces p (current line) (last line)), CPARSER_OK)
  end.

Definition cparser_line_delete (parser : option cparser_t)
    : outcome (option cparser_t * cparser_result_t) :=
  match parser with
  | None => Ok (None, CPARSER_ERR_INVALID_PARAMS)
  | Some p =>
      line ← rd (lines p) (cur_line p);
      _ ← assert_ (current line <=? last line);
      if (last line =? 0) || (current line =? 0) then Ok (Some p, CPARSER_ERR_NOT_EXIST)
      else
        b ← shift_down (Z.to_nat (last line - current line)) (buf line) (current line);
        let current' := s16 (current line - 1) in
        let last' := s16 (last line - 1) in
        b ← wr b last' 0;
        let line := Line last' current' b in
        ls ← wr (lines p) (cur_line p) line;
        p ← prints (printc (put_line p ls) BS) (buf line) (current line);
        let p := printc (printc p SP) BS in
        Ok (Some (backspaces p (current line) (last line)), CPARSER_OK)
  end.

Definition cparser_line_print (parser : option cparser_t) (print_prompt new_line : bool)
    : outcome (option cparser_t) :=
  match parser with
  | None => Fault AssertFailed
  | Some p =>
      let p := if new_line then printc p LF else p in
      p ← (if print_prompt then cparser_print_prompt p else Ok p);
      line ← rd (lines p) (cur_line p);
      p ← prints p (buf line) 0;
      Ok (Some (backspaces p (current line) (last line)))
  end.

Definition cparser_line_current (parser : option cparser_t) : outcome Z :=
  match parser with
  | None => Fault AssertFailed
  | Some p => line ← rd (lines p) (cur_line p); Ok (current line)
  end.

Definition cparser_line_last (parser : option cparser_t) : outcome Z :=
  match parser with
  | None => Fault AssertFailed
  | Some p => line ← rd (lines p) (cur_line p); Ok (last line)
  end.

Definition cparser_line_current_char (parser : option cparser_t) : outcome Z :=
  match parser with
  | None => Fault AssertFailed
  | Some p => line ← rd (lines p) (cur_line p); rd (buf line) (current line)
  end.

Definition cparser_line_char (parser : option cparser_t) (pos : Z) : outcome Z :=
  match parser with
  | None => Fault AssertFailed
  | Some p =>
      line ← rd (lines p) (cur_line p);
      _ ← assert_ (pos <? last line);
      rd (buf line) pos
  end.

Definition cparser_line_next_char (parser : option cparser_t) : outcome (option cparser_t * Z) :=
  match parser with
  | None => Fault AssertFailed
  | Some p =>
      line ← rd (lines p) (cur_line p);
      if last line =? current line then Ok (Some p, 0)
      else
        retval ← rd (buf line) (current line);
        let p := printc p retval in
        ls ← wr (lines p) (cur_line p) (Line (last line) (s16 (current line + 1)) (buf line));
        Ok (Some (put_line p ls), retval)
  end.

Definition cparser_line_prev_char (parser : option cparser_t) : outcome (option cparser_t * Z) :=
  match parser with
  | None => Fault AssertFailed
  | Some p =>
      line ← rd (lines p) (cur_line p);
      if current line =? 0 then Ok (Some p, 0)
      else
        let p := printc p BS in
        ls ← wr (lines p) (cur_line p) (Line (last line) (s16 (current line - 1)) (buf line));
        Ok (Some (put_line p ls), BS)
  end.

(** [for (n = 0; n < cparser_line_last(parser); n++) prints("\b \b");] *)
Definition erase_line (p : cparser_t) (n : Z) : cparser_t :=
  Nat.iter (Z.to_nat n) (fun p => printc (printc (printc p BS) SP) BS) p.

Definition cparser_line_next_line (parser : option cparser_t)
    : outcome (option cparser_t * cparser_result_t) :=
  match parser with
  | None => Ok (None, CPARSER_ERR_INVALID_PARAMS)
  | Some p =>
      n ← cparser_line_last (Some p);
      let p := erase_line p n in
      let cur := s16 (cur_line p + 1) in
      let cur := if max_line p <? cur then 0 else cur in
      p ← cparser_line_print (Some (put_cur p (max_line p) cur)) false false;
      Ok (p, CPARSER_OK)
  end.

Definition cparser_line_prev_line (parser : option cparser_t)
    : outcome (option cparser_t * cparser_result_t) :=
  match parser with
  | None => Ok (None, CPARSER_ERR_INVALID_PARAMS)
  | Some p =>
      n ← cparser_line_last (Some p);
      let p := erase_line p n in
      let cur := s16 (cur_line p - 1) in
      let cur := if cur <? 0 then max_line p else cur in
      p ← cparser_line_print (Some (put_cur p (max_line p) cur)) false false;
      Ok (p, CPARSER_OK)
  end.

Definition cparser_line_advance (parser : option cparser_t)
    : outcome (option cparser_t * cparser_result_t) :=
  match parser with
  | None => Ok (None, CPARSER_ERR_INVALID_PARAMS)
  | Some p =>
      let cur := s16 (cur_line p + 1) in
      let cur := if CPARSER_MAX_LINES <=? cur then 0 else cur in
      let mx := if max_line p <? cur then cur else max_line p in
      let p := put_cur p mx cur in
      line ← rd (lines p) (cur_line p);
      match cparser_line_reset (Some line) with
      | (Some line, CPARSER_OK) =>
          ls ← wr (lines p) (cur_line p) line;
          Ok (Some (put_line p ls), CPARSER_OK)
      | _ => Fault AssertFailed
      end
  end.

(** ** The line a buffer holds

    A line is the text before the cursor and the text from the cursor on. *)

Record holds (l : cparser_line_t) (lt rt : list Z) : Prop := {
  h_buf : exists rest, buf l = lt ++ rt ++ 0 :: rest;
  h_size : Zlen (buf l) = CPARSER_MAX_LINE_SIZE + 1;
  h_current : current l = Zlen lt;
  h_last : last l = Zlen lt + Zlen rt;
  h_nul : Forall (fun c => c <> 0) (lt ++ rt);
}.

(** ** A terminal line

    What a terminal shows of the characters sent to it since the last newline: a
    backspace moves the cursor, any other character overwrites. *)

Record term := Term { cells : list Z; tcur : nat }.

Definition put_cell (t : term) (c : Z) : term :=
  if c =? BS then Term (cells t) (pred (tcur t))
  else if c =? LF then Term [] 0
  else Term (take (tcur t) (cells t) ++ c :: drop (S (tcur t)) (cells t)) (S (tcur t)).

Definition show (t : term) (cs : list Z) : term := foldl put_cell t cs.

Definition printable (c : Z) : Prop := c <> BS /\ c <> LF /\ c <> 0.

(** ** Output, all at once *)

Definition emit (p : cparser_t) (s : list Z) : cparser_t :=
  Parser (root_level p) (prompt p) (is_privileged_mode p) (max_line p) (cur_line p) (lines p)
         (out p ++ s).

Lemma emit_emit p s s' : emit (emit p s) s' = emit p (s ++ s').
Proof. unfold emit. simpl. by rewrite app_assoc. Qed.

Lemma emit_nil p : emit p [] = p.
Proof. destruct p. unfold emit. simpl. by rewrite app_nil_r. Qed.

Lemma printc_emit p c : printc p c = emit p [c].
Proof. done. Qed.

Lemma foldl_printc p s : foldl printc p s = emit p s.
Proof.
  revert p. induction s as [|c s IH]; intros p; simpl; [by rewrite emit_nil|].
  by rewrite IH, printc_emit, emit_emit.
Qed.

Lemma iter_emit k s p : Nat.iter k (fun p => emit p s) p = emit p (concat (replicate k s)).
Proof.
  induction k as [|k IH]; simpl; [by rewrite emit_nil|]. rewrite IH, emit_emit. f_equal.
  clear IH. induction k as [|k IH]; simpl; [by rewrite app_nil_r|]. by rewrite <- app_assoc, IH.
Qed.

Lemma concat_replicate_1 {A} (x : A) k : concat (replicate k [x]) = replicate k x.
Proof. induction k; simpl; by f_equal. Qed.

Lemma backspaces_emit p from to :
  backspaces p from to = emit p (replicate (Z.to_nat (to - from)) BS).
Proof. unfold backspaces. rewrite <- concat_replicate_1. apply (iter_emit _ [BS]). Qed.

Lemma erase_line_emit p n :
  erase_line p n = emit p (concat (replicate (Z.to_nat n) [BS; SP; BS])).
Proof.
  rewrite <- iter_emit. unfold erase_line. generalize (Z.to_nat n). intros k.
  induction k as [|k IH]; simpl; [done|]. rewrite IH.
  by rewrite !printc_emit, !emit_emit.
Qed.

(** ** Accesses in the middle of a list *)

Lemma rd_mid {A} (l k : list A) x i : i = Zlen l -> rd (l ++ x :: k) i = Ok x.
Proof.
  intros ->. apply rd_Ok_iff. unfold Zlen. split; [lia|]. rewrite Nat2Z.id.
  by rewrite list_lookup_middle.
Qed.

Lemma wr_mid {A} (l k : list A) x y i : i = Zlen l -> wr (l ++ x :: k) i y = Ok (l ++ y :: k).
Proof.
  intros ->. rewrite wr_in_range.
  - unfold Zlen. rewrite Nat2Z.id, insert_app_r_alt by lia. by rewrite Nat.sub_diag.
  - rewrite Zlen_app, Zlen_cons. pose proof (Zlen_nonneg l). pose proof (Zlen_nonneg k). lia.
Qed.

Lemma shift_up_spec rt : forall lt x rest,
  shift_up (length rt) (lt ++ rt ++ x :: rest) (Zlen lt + Zlen rt)
  = Ok (lt ++ List.hd x rt :: rt ++ rest).
Proof.
  induction rt as [|r rt IH] using rev_ind; intros lt x rest; [done|].
  rewrite length_app. simpl. rewrite Nat.add_1_r. simpl.
  rewrite <- !app_assoc. simpl. rewrite Zlen_app.
  rewrite (app_assoc lt rt), (rd_mid (lt ++ rt)) by (rewrite Zlen_app; change (Zlen [r]) with 1; lia).
  cbn [mbind outcome_bind].
  rewrite <- (app_assoc lt rt (r :: x :: rest)).
  replace (lt ++ rt ++ r :: x :: rest) with ((lt ++ rt ++ [r]) ++ x :: rest)
    by (by rewrite <- !app_assoc).
  rewrite wr_mid by (rewrite !Zlen_app; lia). cbn [mbind outcome_bind].
  replace ((lt ++ rt ++ [r]) ++ r :: rest) with (lt ++ rt ++ r :: r :: rest)
    by (by rewrite <- !app_assoc).
  replace (Zlen lt + (Zlen rt + Zlen [r]) - 1) with (Zlen lt + Zlen rt)
    by (change (Zlen [r]) with 1; lia).
  rewrite IH. by destruct rt.
Qed.

Lemma shift_down_spec rt : forall lt y rest,
  shift_down (length rt) (lt ++ y :: rt ++ rest) (Zlen lt + 1)
  = Ok (lt ++ rt ++ List.last rt y :: rest).
Proof.
  induction rt as [|r rt IH]; intros lt y rest; [done|]. simpl.
  replace (lt ++ y :: r :: rt ++ rest) with ((lt ++ [y]) ++ r :: rt ++ rest)
    by (by rewrite <- !app_assoc).
  rewrite rd_mid by (rewrite Zlen_app; done). cbn [mbind outcome_bind].
  rewrite <- app_assoc. simpl. rewrite wr_mid by lia. cbn [mbind outcome_bind].
  replace (lt ++ r :: r :: rt ++ rest) with ((lt ++ [r]) ++ r :: rt ++ rest)
    by (by rewrite <- !app_assoc).
  replace (Zlen lt + 1 + 1) with (Zlen (lt ++ [r]) + 1) by (rewrite Zlen_app; done).
  rewrite IH, <- app_assoc. simpl. destruct rt as [|r' rt]; [done|].
  do 5 f_equal. (* the last element of a non-empty list *)
  clear. revert r'. induction rt as [|r2 rt IH]; intros r'; [done|]. apply IH.
Qed.

Lemma c_string_spec s : forall b rest fuel,
  Forall (fun c => c <> 0) s -> (length s < fuel)%nat ->
  c_string fuel (b ++ s ++ 0 :: rest) (Zlen b) = Ok s.
Proof.
  induction s as [|c s IH]; intros b rest fuel Hs Hf; (destruct fuel as [|fuel]; [simpl in *; lia|]).
  - simpl. by rewrite rd_mid.
  - apply Forall_cons in Hs as [Hc Hs]. simpl in *. rewrite rd_mid by done.
    cbn [mbind outcome_bind]. rewrite (proj2 (Z.eqb_neq _ _) Hc).
    replace (b ++ c :: s ++ 0 :: rest) with ((b ++ [c]) ++ s ++ 0 :: rest) by (by rewrite <- app_assoc).
    replace (Zlen b + 1) with (Zlen (b ++ [c])) by (rewrite Zlen_app; done).
    rewrite IH by (done || lia). done.
Qed.

Lemma prints_spec p b s rest b' i :
  b' = b ++ s ++ 0 :: rest -> i = Zlen b -> Forall (fun c => c <> 0) s ->
  prints p b' i = Ok (emit p s).
Proof.
  intros -> -> Hs. unfold prints. rewrite c_string_spec; [|done|rewrite !length_app; lia].
  cbn [mbind outcome_bind]. by rewrite foldl_printc.
Qed.

Lemma s16_small z : -32768 <= z < 32768 -> s16 z = z.
Proof. intros Hz. unfold s16. rewrite Z.mod_small by lia. lia. Qed.

(** ** The operations on the line of the cursor *)

(** [p] with line [l] as its current line. *)
Definition at_line (p : cparser_t) (l : cparser_line_t) : Prop :=
  0 <= cur_line p /\ lines p !! Z.to_nat (cur_line p) = Some l.

Definition with_line (p : cparser_t) (l : cparser_line_t) : cparser_t :=
  put_line p (<[Z.to_nat (cur_line p) := l]> (lines p)).

Lemma at_line_rd p l : at_line p l -> rd (lines p) (cur_line p) = Ok l.
Proof. intros [H1 H2]. by apply rd_Ok_iff. Qed.

Lemma at_line_wr p l l' :
  at_line p l -> wr (lines p) (cur_line p) l' = Ok (<[Z.to_nat (cur_line p) := l']> (lines p)).
Proof.
  intros [H1 H2]. apply wr_in_range. apply lookup_lt_Some in H2. unfold Zlen. lia.
Qed.

Lemma at_with_line p l l' s : at_line p l -> at_line (emit (with_line p l') s) l'.
Proof.
  intros [H1 H2]. split; [done|]. simpl. apply list_lookup_insert_eq.
  by apply lookup_lt_Some in H2.
Qed.

Lemma holds_bounds l lt rt : holds l lt rt -> Zlen lt + Zlen rt <= CPARSER_MAX_LINE_SIZE.
Proof.
  intros [[rest Hb] Hs _ _ _]. rewrite Hb, !Zlen_app, Zlen_cons in Hs.
  pose proof (Zlen_nonneg rest). lia.
Qed.

Ltac line_lia :=
  repeat rewrite ?Zlen_app, ?Zlen_cons in *;
  repeat match goal with l : list Z |- _ => lazymatch goal with
    | _ : 0 <= Zlen l |- _ => fail | _ => pose proof (Zlen_nonneg l) end end;
  change (Zlen (@nil Z)) with 0 in *; unfold CPARSER_MAX_LINE_SIZE in *; lia.

Lemma insert_spec p l lt rt ch :
  at_line p l -> holds l lt rt -> ch <> 0 -> Zlen lt + Zlen rt < CPARSER_MAX_LINE_SIZE ->
  exists l', holds l' (lt ++ [ch]) rt /\
    cparser_line_insert (Some p) ch =
      Ok (Some (emit (with_line p l') (ch :: rt ++ replicate (length rt) BS)), CPARSER_OK).
Proof.
  intros Hat [[rest Hb] Hs Hc Hl Hn] Hch Hroom.
  destruct rest as [|z rest]; [rewrite Hb in Hs; line_lia|].
  exists (Line (Zlen lt + 1 + Zlen rt) (Zlen lt + 1) (lt ++ ch :: rt ++ 0 :: rest)). split.
  - split; simpl.
    + exists rest. by rewrite <- app_assoc.
    + rewrite Hb in Hs. line_lia.
    + by rewrite Zlen_app.
    + rewrite Zlen_app. done.
    + apply Forall_app in Hn as [Hn1 Hn2]. rewrite <- app_assoc. apply Forall_app. split; [done|]. by constructor.
  - unfold cparser_line_insert. rewrite (proj2 (Z.eqb_neq _ _) Hch), (at_line_rd _ _ Hat).
    cbn [mbind outcome_bind]. rewrite Hl, Hc. rewrite (proj2 (Z.leb_gt _ _)) by done.
    replace (Z.to_nat (Zlen lt + Zlen rt - Zlen lt)) with (length rt) by (unfold Zlen; lia).
    rewrite Hb, shift_up_spec. cbn [mbind outcome_bind].
    rewrite !s16_small by line_lia.
    replace (lt ++ List.hd 0 rt :: rt ++ z :: rest) with ((lt ++ List.hd 0 rt :: rt) ++ z :: rest)
      by (by rewrite <- app_assoc).
    rewrite wr_mid by line_lia. cbn [mbind outcome_bind].
    rewrite <- app_assoc. simpl. rewrite wr_mid by done. cbn [mbind outcome_bind].
    replace (Zlen lt + Zlen rt + 1) with (Zlen lt + 1 + Zlen rt) by lia.
    rewrite (at_line_wr p l) by done. cbn [mbind outcome_bind buf current last].
    erewrite (prints_spec _ (lt ++ [ch]) rt rest); [| by rewrite <- app_assoc | by rewrite Zlen_app |
      by apply Forall_app in Hn as [_ ?]].
    cbn [mbind outcome_bind]. rewrite backspaces_emit, printc_emit.
    replace (Z.to_nat (Zlen lt + 1 + Zlen rt - (Zlen lt + 1))) with (length rt) by (unfold Zlen; lia).
    unfold emit, with_line, put_line. simpl. by rewrite <- !app_assoc.
Qed.

Lemma delete_spec p l lt c rt :
  at_line p l -> holds l (lt ++ [c]) rt ->
  exists l', holds l' lt rt /\
    cparser_line_delete (Some p) =
      Ok (Some (emit (with_line p l') (BS :: rt ++ [SP; BS] ++ replicate (length rt) BS)), CPARSER_OK).
Proof.
  intros Hat [[rest Hb] Hs Hc Hl Hn]. rewrite Zlen_app in Hc, Hl. change (Zlen [c]) with 1 in Hc, Hl.
  assert (Hn' : Forall (fun c => c <> 0) (lt ++ rt)).
  { apply Forall_app in Hn as [[Hn1 _]%Forall_app Hn2]. by apply Forall_app. }
  assert (Hlen : Zlen lt + Zlen rt < CPARSER_MAX_LINE_SIZE) by (rewrite Hb in Hs; line_lia).
  exists (Line (Zlen lt + Zlen rt) (Zlen lt) (lt ++ rt ++ 0 :: 0 :: rest)). split.
  - split; simpl; try done; [by exists (0 :: rest)|]. rewrite Hb in Hs. line_lia.
  - unfold cparser_line_delete. rewrite (at_line_rd _ _ Hat). cbn [mbind outcome_bind].
    rewrite Hl, Hc. rewrite (proj2 (Z.leb_le _ _)) by line_lia. cbn [assert_ mbind outcome_bind].
    rewrite (proj2 (Z.eqb_neq _ _)) by line_lia. rewrite (proj2 (Z.eqb_neq _ _)) by line_lia.
    cbn [orb]. replace (Z.to_nat (Zlen lt + 1 + Zlen rt - (Zlen lt + 1))) with (length rt) by (unfold Zlen; lia).
    rewrite Hb. rewrite <- app_assoc. simpl. rewrite shift_down_spec. cbn [mbind outcome_bind].
    rewrite !s16_small by line_lia.
    replace (Zlen lt + 1 + Zlen rt - 1) with (Zlen lt + Zlen rt) by lia.
    replace (Zlen lt + 1 - 1) with (Zlen lt) by lia.
    rewrite (app_assoc lt rt), wr_mid by (by rewrite Zlen_app). rewrite <- app_assoc.
    cbn [mbind outcome_bind]. rewrite (at_line_wr p l) by done. cbn [mbind outcome_bind buf current last].
    erewrite (prints_spec _ lt rt (0 :: rest)); [|done..|by apply Forall_app in Hn' as [_ ?]].
    cbn [mbind outcome_bind]. rewrite backspaces_emit, !printc_emit, !emit_emit.
    replace (Z.to_nat (Zlen lt + Zlen rt - Zlen lt)) with (length rt) by (unfold Zlen; lia).
    done.
Qed.

Lemma next_char_spec p l lt c rt :
  at_line p l -> holds l lt (c :: rt) ->
  exists l', holds l' (lt ++ [c]) rt /\
    cparser_line_next_char (Some p) = Ok (Some (emit (with_line p l') [c]), c).
Proof.
  intros Hat Hh. pose proof (holds_bounds _ _ _ Hh) as Hbd. destruct Hh as [[rest Hb] Hs Hc Hl Hn].
  exists (Line (last l) (Zlen lt + 1) (buf l)). split.
  - split; simpl; [|done|..].
    + exists rest. rewrite Hb. by rewrite <- app_assoc.
    + by rewrite Zlen_app.
    + rewrite Hl. line_lia.
    + by rewrite <- app_assoc.
  - unfold cparser_line_next_char. rewrite (at_line_rd _ _ Hat). cbn [mbind outcome_bind].
    rewrite Hc, Hl. rewrite (proj2 (Z.eqb_neq _ _)) by line_lia.
    rewrite Hb. simpl. rewrite rd_mid by done. cbn [mbind outcome_bind].
    rewrite (at_line_wr p l) by done. cbn [mbind outcome_bind]. rewrite s16_small by line_lia. done.
Qed.

Lemma prev_char_spec p l lt c rt :
  at_line p l -> holds l (lt ++ [c]) rt ->
  exists l', holds l' lt (c :: rt) /\
    cparser_line_prev_char (Some p) = Ok (Some (emit (with_line p l') [BS]), BS).
Proof.
  intros Hat Hh. pose proof (holds_bounds _ _ _ Hh) as Hbd. destruct Hh as [[rest Hb] Hs Hc Hl Hn].
  exists (Line (last l) (Zlen lt) (buf l)). split.
  - split; simpl; [|done..| |].
    + exists rest. rewrite Hb. by rewrite <- app_assoc.
    + rewrite Hl. line_lia.
    + by rewrite <- app_assoc in Hn.
  - unfold cparser_line_prev_char. rewrite (at_line_rd _ _ Hat). cbn [mbind outcome_bind].
    rewrite Hc. rewrite (proj2 (Z.eqb_neq _ _)) by line_lia.
    rewrite (at_line_wr p l) by done. cbn [mbind outcome_bind].
    rewrite s16_small by line_lia. replace (Zlen (lt ++ [c]) - 1) with (Zlen lt) by line_lia. done.
Qed.

(** ** The terminal *)

Lemma show_app t s s' : show t (s ++ s') = show (show t s) s'.
Proof. apply foldl_app. Qed.

Lemma show_cons t c s : show t (c :: s) = show (put_cell t c) s.
Proof. done. Qed.

Lemma put_printable a b c :
  printable c -> put_cell (Term (a ++ b) (length a)) c = Term (a ++ c :: drop 1 b) (S (length a)).
Proof.
  intros (H1 & H2 & _). unfold put_cell. cbn [cells tcur].
  rewrite (proj2 (Z.eqb_neq _ _) H1), (proj2 (Z.eqb_neq _ _) H2).
  rewrite take_app_length, drop_app_ge by lia.
  by replace (S (length a) - length a)%nat with 1%nat by lia.
Qed.

Lemma put_BS cs n : put_cell (Term cs n) BS = Term cs (pred n).
Proof. done. Qed.

Lemma show_printable s : forall a b,
  Forall printable s ->
  show (Term (a ++ b) (length a)) s = Term (a ++ s ++ drop (length s) b) (length a + length s).
Proof.
  induction s as [|c s IH]; intros a b Hs; [simpl; by rewrite Nat.add_0_r|].
  apply Forall_cons in Hs as [Hc Hs]. rewrite show_cons, put_printable by done.
  specialize (IH (a ++ [c]) (drop 1 b) Hs). rewrite length_app, Nat.add_1_r in IH.
  rewrite <- !app_assoc in IH. cbn [app] in IH. rewrite IH, drop_drop. f_equal. simpl. lia.
Qed.

Lemma show_BS k : forall cs n, show (Term cs n) (replicate k BS) = Term cs (n - k).
Proof.
  induction k as [|k IH]; intros cs n; [simpl; by rewrite Nat.sub_0_r|].
  cbn [replicate]. rewrite show_cons, put_BS, IH. f_equal. lia.
Qed.

(** The terminal shows the prompt, the line and perhaps blanks after it, with the
    cursor where the line's is. *)
Definition displays (t : term) (pre lt rt : list Z) : Prop :=
  exists k, t = Term (pre ++ lt ++ rt ++ replicate k SP) (length pre + length lt).

Lemma displays_insert t pre lt rt ch :
  displays t pre lt rt -> printable ch -> Forall printable rt ->
  displays (show t (ch :: rt ++ replicate (length rt) BS)) pre (lt ++ [ch]) rt.
Proof.
  intros [k ->] Hch Hrt. exists (pred k). change (ch :: rt ++ ?x) with ((ch :: rt) ++ x).
  rewrite show_app, (app_assoc pre), <- length_app, show_printable by (by constructor).
  rewrite show_BS. f_equal.
  - rewrite <- !app_assoc. simpl. do 4 f_equal. rewrite drop_app_ge, drop_replicate by lia.
    f_equal. simpl. lia.
  - rewrite !length_app. simpl. lia.
Qed.

Lemma displays_delete t pre lt c rt :
  displays t pre (lt ++ [c]) rt -> Forall printable rt ->
  displays (show t (BS :: rt ++ [SP; BS] ++ replicate (length rt) BS)) pre lt rt.
Proof.
  intros [k ->] Hrt. exists (S k).
  replace (BS :: rt ++ [SP; BS] ++ replicate (length rt) BS)
    with (BS :: (rt ++ [SP]) ++ replicate (S (length rt)) BS) by (by rewrite <- app_assoc).
  rewrite show_cons, put_BS, show_app.
  replace (pred (length pre + length (lt ++ [c]))) with (length (pre ++ lt))
    by (rewrite !length_app; simpl; lia).
  replace (pre ++ (lt ++ [c]) ++ rt ++ replicate k SP) with ((pre ++ lt) ++ c :: rt ++ replicate k SP)
    by (by rewrite <- !app_assoc).
  rewrite show_printable, show_BS.
  - f_equal.
    + rewrite <- !app_assoc. do 3 f_equal. rewrite length_app, Nat.add_1_r. simpl. f_equal.
      rewrite drop_app_ge, Nat.sub_diag by lia. done.
    + rewrite !length_app. simpl. lia.
  - apply Forall_app. split; [done|]. by repeat constructor.
Qed.

Lemma displays_right t pre lt c rt :
  displays t pre lt (c :: rt) -> printable c -> displays (show t [c]) pre (lt ++ [c]) rt.
Proof.
  intros [k ->] Hc. exists k. rewrite show_cons, (app_assoc pre), <- length_app.
  rewrite put_printable by done. rewrite <- !app_assoc. simpl. f_equal. rewrite !length_app. simpl. lia.
Qed.

Lemma displays_left t pre lt c rt :
  displays t pre (lt ++ [c]) rt -> displays (show t [BS]) pre lt (c :: rt).
Proof.
  intros [k ->]. exists k. rewrite show_cons, put_BS, <- !app_assoc. simpl. f_equal.
  rewrite !length_app. simpl. lia.
Qed.

(** ** Editing sessions *)

Inductive edit := EInsert (ch : Z) | EDelete | ELeft | ERight.

Definition run_edit (p : cparser_t) (e : edit) : outcome (option cparser_t) :=
  match e with
  | EInsert ch => '(p, _) ← cparser_line_insert (Some p) ch; Ok p
  | EDelete => '(p, _) ← cparser_line_delete (Some p); Ok p
  | ELeft => '(p, _) ← cparser_line_prev_char (Some p); Ok p
  | ERight => '(p, _) ← cparser_line_next_char (Some p); Ok p
  end.

Fixpoint run_edits (p : cparser_t) (es : list edit) : outcome cparser_t :=
  match es with
  | [] => Ok p
  | e :: es =>
      o ← run_edit p e;
      match o with Some p => run_edits p es | None => Fault NullDeref end
  end.

(** The abstract editor: the text before the cursor, last character first, and the
    text from the cursor on. *)
Definition zipper : Type := list Z * list Z.

Definition spec_edit (z : zipper) (e : edit) : zipper :=
  let '(rl, rt) := z in
  match e with
  | EInsert ch => if Zlen rl + Zlen rt <? CPARSER_MAX_LINE_SIZE then (ch :: rl, rt) else (rl, rt)
  | EDelete => (tail rl, rt)
  | ELeft => match rl with [] => (rl, rt) | c :: rl => (rl, c :: rt) end
  | ERight => match rt with [] => (rl, rt) | c :: rt => (c :: rl, rt) end
  end.

Definition edit_ok (e : edit) : Prop := match e with EInsert ch => printable ch | _ => True end.

(** The buffer holds the abstract line and the terminal shows it. *)
Record editing (p : cparser_t) (t : term) (pre : list Z) (z : zipper) : Prop := {
  ed_line : exists l, at_line p l /\ holds l (rev z.1) z.2;
  ed_display : displays t pre (rev z.1) z.2;
  ed_printable : Forall printable z.1 /\ Forall printable z.2;
}.

(** The other lines and the history are not touched. *)
Definition same_others (p p' : cparser_t) : Prop :=
  max_line p' = max_line p /\ cur_line p' = cur_line p /\
  forall i, i <> Z.to_nat (cur_line p) -> lines p' !! i = lines p !! i.

Lemma same_others_with p l s : same_others p (emit (with_line p l) s).
Proof. split; [done|]. split; [done|]. intros i Hi. simpl. by rewrite list_lookup_insert_ne. Qed.

(** One edit that succeeds: a new line [l'], [s] on the terminal. *)
Lemma editing_step p t pre z l' s z' l :
  at_line p l -> holds l' (rev z'.1) z'.2 -> displays (show t s) pre (rev z'.1) z'.2 ->
  Forall printable z.1 -> Forall printable z.2 ->
  (Forall printable z.1 -> Forall printable z.2 -> Forall printable z'.1 /\ Forall printable z'.2) ->
  exists s', out (emit (with_line p l') s) = out p ++ s' /\
    editing (emit (with_line p l') s) (show t s') pre z' /\ same_others p (emit (with_line p l') s).
Proof.
  intros Hat Hh Hd H1 H2 Hp. exists s. split; [done|]. split; [|apply same_others_with].
  split; [|done|by apply Hp]. exists l'. split; [by eapply at_with_line | done].
Qed.

Lemma run_edit_spec p t pre z e :
  editing p t pre z -> edit_ok e ->
  exists p' s, run_edit p e = Ok (Some p') /\ out p' = out p ++ s /\
    editing p' (show t s) pre (spec_edit z e) /\ same_others p p'.
Proof.
  destruct z as [rl rt]. intros Hed He. pose proof Hed as [(l & Hat & Hh) Hd [Hp1 Hp2]].
  simpl in Hh, Hd, Hp1, Hp2.
  assert (Hstay : exists s, out p = out p ++ s /\ editing p (show t s) pre (rl, rt) /\ same_others p p)
    by (exists []; by rewrite app_nil_r).
  destruct e as [ch| | |]; cbn [run_edit spec_edit edit_ok] in *.
  - replace (Zlen rl) with (Zlen (rev rl)) by (unfold Zlen; by rewrite length_rev).
    destruct (Zlen (rev rl) + Zlen rt <? CPARSER_MAX_LINE_SIZE) eqn:G; zify_bool.
    + destruct (insert_spec p l (rev rl) rt ch) as (l' & Hh' & E); try done; [by destruct He as (_ & _ & ?)|].
      rewrite E. cbn [mbind outcome_bind]. eexists.
      destruct (editing_step p t pre (rl, rt) l' (ch :: rt ++ replicate (length rt) BS) (ch :: rl, rt) l)
        as (s & ? & ? & ?); try done; [by apply displays_insert | by intros; split; [constructor|] |].
      by exists s.
    + unfold cparser_line_insert. destruct He as (_ & _ & He).
      rewrite (proj2 (Z.eqb_neq _ _) He), (at_line_rd _ _ Hat). cbn [mbind outcome_bind].
      rewrite (h_last _ _ _ Hh), (proj2 (Z.leb_le _ _)) by done. cbn [mbind outcome_bind].
      destruct Hstay as (s & ? & ? & ?). by exists p, s.
  - destruct rl as [|c rl]; simpl in Hh, Hd.
    + unfold cparser_line_delete. rewrite (at_line_rd _ _ Hat). cbn [mbind outcome_bind].
      rewrite (h_last _ _ _ Hh), (h_current _ _ _ Hh). rewrite (proj2 (Z.leb_le _ _)) by line_lia.
      cbn [assert_ mbind outcome_bind]. change (Zlen [] =? 0) with true. rewrite orb_true_r.
      cbn [mbind outcome_bind]. destruct Hstay as (s & ? & ? & ?). by exists p, s.
    + destruct (delete_spec p l (rev rl) c rt) as (l' & Hh' & E); try done.
      rewrite E. cbn [mbind outcome_bind]. eexists.
      destruct (editing_step p t pre (c :: rl, rt) l' (BS :: rt ++ [SP; BS] ++ replicate (length rt) BS) (rl, rt) l)
        as (s & ? & ? & ?); try done; [by eapply displays_delete | by intros [? ?]%Forall_cons ? |].
      by exists s.
  - destruct rl as [|c rl]; simpl in Hh, Hd.
    + unfold cparser_line_prev_char. rewrite (at_line_rd _ _ Hat). cbn [mbind outcome_bind].
      rewrite (h_current _ _ _ Hh). change (Zlen [] =? 0) with true.
      cbn [mbind outcome_bind]. destruct Hstay as (s & ? & ? & ?). by exists p, s.
    + destruct (prev_char_spec p l (rev rl) c rt) as (l' & Hh' & E); try done.
      rewrite E. cbn [mbind outcome_bind]. eexists.
      destruct (editing_step p t pre (c :: rl, rt) l' [BS] (rl, c :: rt) l)
        as (s & ? & ? & ?); try done; [by eapply displays_left | by intros [? ?]%Forall_cons ?; split; [|constructor] |].
      by exists s.
  - destruct rt as [|c rt].
    + unfold cparser_line_next_char. rewrite (at_line_rd _ _ Hat). cbn [mbind outcome_bind].
      rewrite (h_current _ _ _ Hh), (h_last _ _ _ Hh), (proj2 (Z.eqb_eq _ _)) by line_lia.
      cbn [mbind outcome_bind]. destruct Hstay as (s & ? & ? & ?). by exists p, s.
    + destruct (next_char_spec p l (rev rl) c rt) as (l' & Hh' & E); try done.
      rewrite E. cbn [mbind outcome_bind]. eexists.
      apply Forall_cons in Hp2 as [Hpc Hp2].
      destruct (editing_step p t pre (rl, c :: rt) l' [c] (c :: rl, rt) l)
        as (s & ? & ? & ?); try done; [by apply displays_right | by constructor | by intros ? [? ?]%Forall_cons; split; [constructor|] |].
      by exists s.
Qed.

Lemma same_others_trans p1 p2 p3 : same_others p1 p2 -> same_others p2 p3 -> same_others p1 p3.
Proof.
  intros (H1 & H2 & H3) (H4 & H5 & H6). split; [congruence|]. split; [congruence|].
  intros i Hi. rewrite H6 by congruence. by apply H3.
Qed.

Lemma run_edits_spec es : forall p t pre z,
  editing p t pre z -> Forall edit_ok es ->
  exists p' s, run_edits p es = Ok p' /\ out p' = out p ++ s /\
    editing p' (show t s) pre (foldl spec_edit z es) /\ same_others p p'.
Proof.
  induction es as [|e es IH]; intros p t pre z Hed Hes.
  - exists p, []. rewrite app_nil_r. done.
  - apply Forall_cons in Hes as [He Hes].
    destruct (run_edit_spec p t pre z e Hed He) as (p1 & s1 & E1 & O1 & Hed1 & S1).
    destruct (IH p1 (show t s1) pre (spec_edit z e) Hed1 Hes) as (p' & s & E & O & Hed' & S').
    exists p', (s1 ++ s). simpl. rewrite E1. cbn [mbind outcome_bind]. split; [done|].
    split; [by rewrite O, O1, app_assoc|]. rewrite show_app. split; [done|].
    by eapply same_others_trans.
Qed.

(** ** The history *)

Record history_ok (p : cparser_t) : Prop := {
  hist_count : Zlen (lines p) = CPARSER_MAX_LINES;
  hist_cur : 0 <= cur_line p <= max_line p;
  hist_max : max_line p < CPARSER_MAX_LINES;
  hist_size : Forall (fun l => Zlen (buf l) = CPARSER_MAX_LINE_SIZE + 1) (lines p);
}.

Lemma c_string_of_line p l lt rt :
  at_line p l -> holds l lt rt -> prints p (buf l) 0 = Ok (emit p (lt ++ rt)).
Proof.
  intros _ [[rest Hb] _ _ _ Hn]. apply (prints_spec p [] (lt ++ rt) rest); [|done|done].
  rewrite Hb. by rewrite <- app_assoc.
Qed.

Lemma line_print_spec p l lt rt :
  at_line p l -> holds l lt rt ->
  cparser_line_print (Some p) false false =
    Ok (Some (emit p ((lt ++ rt) ++ replicate (length rt) BS))).
Proof.
  intros Hat Hh. unfold cparser_line_print. cbn [mbind outcome_bind].
  rewrite (at_line_rd _ _ Hat). cbn [mbind outcome_bind].
  rewrite (c_string_of_line p l lt rt) by done. cbn [mbind outcome_bind].
  rewrite backspaces_emit, emit_emit, (h_last _ _ _ Hh), (h_current _ _ _ Hh).
  by replace (Z.to_nat (Zlen lt + Zlen rt - Zlen lt)) with (length rt) by (unfold Zlen; lia).
Qed.

(** Going to line [cur]: what is erased and what is shown instead. *)
Definition visit (p : cparser_t) (cur : Z) (n : Z) (lt rt : list Z) : cparser_t :=
  emit (put_cur p (max_line p) cur)
       (concat (replicate (Z.to_nat n) [BS; SP; BS]) ++ (lt ++ rt) ++ replicate (length rt) BS).

Lemma visit_spec p cur n l lt rt :
  0 <= cur -> lines p !! Z.to_nat cur = Some l -> holds l lt rt ->
  cparser_line_print (Some (put_cur (erase_line p n) (max_line (erase_line p n)) cur)) false false
  = Ok (Some (visit p cur n lt rt)).
Proof.
  intros Hc Hl Hh. rewrite erase_line_emit.
  rewrite (line_print_spec _ l lt rt); [|done|done].
  unfold visit, emit, put_cur. simpl. by rewrite <- !app_assoc.
Qed.

Definition prev_of (p : cparser_t) : Z := if cur_line p =? 0 then max_line p else cur_line p - 1.
Definition next_of (p : cparser_t) : Z := if cur_line p =? max_line p then 0 else cur_line p + 1.

Lemma prev_line_spec p l0 l lt rt :
  history_ok p -> at_line p l0 -> lines p !! Z.to_nat (prev_of p) = Some l -> holds l lt rt ->
  cparser_line_prev_line (Some p) = Ok (Some (visit p (prev_of p) (last l0) lt rt), CPARSER_OK).
Proof.
  intros [Hn Hc Hm _] Hat Hl Hh. unfold CPARSER_MAX_LINES in Hm.
  unfold cparser_line_prev_line, cparser_line_last.
  rewrite (at_line_rd _ _ Hat). cbn [mbind outcome_bind].
  replace (cur_line (erase_line p (last l0))) with (cur_line p) by (by rewrite erase_line_emit).
  rewrite s16_small by lia.
  replace (if cur_line p - 1 <? 0 then _ else _) with (prev_of p).
  2: { rewrite erase_line_emit. unfold prev_of. simpl. repeat case_match; zify_bool; lia. }
  rewrite (visit_spec _ _ _ l lt rt); [done| |done..].
  unfold prev_of. case_match; lia.
Qed.

Lemma next_line_spec p l0 l lt rt :
  history_ok p -> at_line p l0 -> lines p !! Z.to_nat (next_of p) = Some l -> holds l lt rt ->
  cparser_line_next_line (Some p) = Ok (Some (visit p (next_of p) (last l0) lt rt), CPARSER_OK).
Proof.
  intros [Hn Hc Hm _] Hat Hl Hh. unfold CPARSER_MAX_LINES in Hm.
  unfold cparser_line_next_line, cparser_line_last.
  rewrite (at_line_rd _ _ Hat). cbn [mbind outcome_bind].
  replace (cur_line (erase_line p (last l0))) with (cur_line p) by (by rewrite erase_line_emit).
  rewrite s16_small by lia.
  replace (if max_line _ <? cur_line p + 1 then 0 else cur_line p + 1) with (next_of p).
  2: { rewrite erase_line_emit. unfold next_of. simpl. repeat case_match; zify_bool; lia. }
  rewrite (visit_spec _ _ _ l lt rt); [done| |done..].
  unfold next_of. case_match; lia.
Qed.
Lemma show_erase b : forall a c,
  show (Term (a ++ b ++ c) (length a + length b)) (concat (replicate (length b) [BS; SP; BS]))
  = Term (a ++ replicate (length b) SP ++ c) (length a).
Proof.
  induction b as [|x b IH] using rev_ind; intros a c; [simpl; by rewrite Nat.add_0_r|].
  rewrite length_app, Nat.add_1_r. cbn [replicate concat]. rewrite show_app.
  replace (show _ [BS; SP; BS]) with (Term (a ++ b ++ SP :: c) (length a + length b)).
  - rewrite IH. f_equal. f_equal. by rewrite replicate_cons_app, <- app_assoc.
  - rewrite !show_cons, put_BS. rewrite Nat.add_succ_r. cbn [pred].
    rewrite <- length_app, <- (app_assoc b), !(app_assoc a). cbn [app].
    by rewrite put_printable.
Qed.

(** From the end of a line the screen follows. *)
Lemma displays_visit t pre lt0 lt rt n :
  displays t pre lt0 [] -> n = Zlen lt0 -> Forall printable (lt ++ rt) ->
  displays (show t (concat (replicate (Z.to_nat n) [BS; SP; BS]) ++ (lt ++ rt) ++ replicate (length rt) BS))
    pre lt rt.
Proof.
  intros [k ->] -> Hp. unfold Zlen. rewrite Nat2Z.id. rewrite (show_app _ (concat _)), (show_app _ (lt ++ rt)). cbn [app].
  rewrite show_erase, show_printable, show_BS by done.
  exists (length lt0 + k - length (lt ++ rt))%nat. f_equal.
  - rewrite <- !app_assoc. by rewrite <- replicate_add, drop_replicate.
  - rewrite length_app. lia.
Qed.

Lemma advance_spec p :
  history_ok p ->
  let cur := if cur_line p =? CPARSER_MAX_LINES - 1 then 0 else cur_line p + 1 in
  cparser_line_advance (Some p) =
    Ok (Some (put_line (put_cur p (Z.max (max_line p) cur) cur)
                (<[Z.to_nat cur := Line 0 0 (replicate 384 0)]> (lines p))), CPARSER_OK).
Proof.
  intros [Hn Hc Hm Hs] cur. unfold CPARSER_MAX_LINES in *. unfold cparser_line_advance.
  rewrite s16_small by lia. change (CPARSER_MAX_LINES) with 10.
  replace (if 10 <=? cur_line p + 1 then 0 else cur_line p + 1) with cur.
  2: { subst cur. repeat case_match; zify_bool; lia. }
  replace (if max_line p <? cur then cur else max_line p) with (Z.max (max_line p) cur)
    by (case_match; zify_bool; lia).
  assert (Hcur : 0 <= cur < Zlen (lines p)) by (subst cur; case_match; zify_bool; lia).
  destruct (rd_in_range (lines p) cur Hcur) as [l El]. cbn [put_cur lines cur_line]. rewrite El.
  cbn [mbind outcome_bind cparser_line_reset]. rewrite wr_in_range by done.
  cbn [mbind outcome_bind]. pose proof (Forall_rd _ _ _ _ Hs El) as Hl. cbn in Hl.
  replace (length (buf l)) with 384%nat by (unfold Zlen, CPARSER_MAX_LINE_SIZE in Hl; lia). done.
Qed.

(** ** Properties *)

(** C31: the line editor refines an abstract one, on the buffer and on the screen:
    after any sequence of insertions of printable characters, deletions and cursor
    movements that starts on an empty line behind a prompt, no access was out of
    bounds, the line buffer holds exactly the text and the cursor of the abstract
    editor (an insertion into a full line of 383 characters being ignored, like a
    deletion or a movement at an end), the other lines of the history are
    unchanged, and a terminal that was sent the output shows the prompt and the
    text with its cursor in the right place. *)
Theorem line_editing_refines p l t pre es :
  at_line p l -> holds l [] [] -> t = Term pre (length pre) -> Forall edit_ok es ->
  exists p' s l', run_edits p es = Ok p' /\ out p' = out p ++ s /\ same_others p p' /\
    at_line p' l' /\
    let '(rl, rt) := foldl spec_edit ([], []) es in
    holds l' (rev rl) rt /\ displays (show t s) pre (rev rl) rt.
Proof.
  intros Hat Hh -> Hes.
  assert (Hed : editing p (Term pre (length pre)) pre ([], [])).
  { split; [by exists l| |by split; constructor]. exists 0%nat. simpl. by rewrite app_nil_r, Nat.add_0_r. }
  destruct (run_edits_spec es _ _ _ _ Hed Hes) as (p' & s & E & O & [(l' & Hat' & Hh') Hd' _] & So).
  exists p', s, l'. do 4 (split; [done|]). destruct (foldl spec_edit ([], []) es) as [rl rt] eqn:Ez. done.
Qed.

(** the history: after a command line is entered, [cparser_line_advance] gives an
    empty line of its own to the next command, and "up" from there recalls the line
    just entered, cursor included, whichever of the ten buffers they are in, and
    puts it on the screen behind the prompt. *)
Lemma history_recall p l lt rt pre :
  history_ok p -> at_line p l -> holds l lt rt -> Forall printable (lt ++ rt) ->
  exists p1 l1 p2 s,
    cparser_line_advance (Some p) = Ok (Some p1, CPARSER_OK) /\ at_line p1 l1 /\ holds l1 [] [] /\
    cparser_line_prev_line (Some p1) = Ok (Some p2, CPARSER_OK) /\
    cur_line p2 = cur_line p /\ at_line p2 l /\ out p2 = out p1 ++ s /\
    displays (show (Term pre (length pre)) s) pre lt rt.
Proof.
  intros Hh Hat Hl Hp. rewrite (advance_spec p Hh). destruct Hh as [Hn Hc Hm Hs].
  set (cur := if cur_line p =? CPARSER_MAX_LINES - 1 then 0 else cur_line p + 1). set (p1 := put_line _ _).
  unfold CPARSER_MAX_LINES in *.
  assert (Hcur : 0 <= cur < Zlen (lines p) /\ cur <> cur_line p)
    by (subst cur; case_match; zify_bool; lia).
  assert (Hat1 : at_line p1 (Line 0 0 (replicate 384 0))).
  { split; [simpl; lia|]. apply list_lookup_insert_eq. unfold Zlen in Hcur. lia. }
  assert (Hprev : prev_of p1 = cur_line p).
  { unfold prev_of. simpl. subst cur. repeat case_match; zify_bool; lia. }
  assert (Hl1 : lines p1 !! Z.to_nat (prev_of p1) = Some l).
  { rewrite Hprev. cbn [p1 lines]. destruct Hat as [Hat1' Hat2]. simpl.
    rewrite list_lookup_insert_ne by lia. done. }
  assert (Hh1 : history_ok p1).
  { split; simpl; unfold CPARSER_MAX_LINES; [by rewrite Zlen_insert | lia.. |].
    by apply Forall_insert. }
  exists p1, (Line 0 0 (replicate 384 0)). rewrite (prev_line_spec p1 _ l lt rt) by done.
  do 2 eexists. split; [done|]. split; [done|].
  split; [by split; try done; exists (replicate 383 0)|]. split; [done|]. split; [done|].
  split; [split; [simpl; lia|exact Hl1]|]. split; [reflexivity|].
  apply (displays_visit _ _ []); [|done|done]. exists 0%nat. simpl. by rewrite app_nil_r, Nat.add_0_r.
Qed.

(** walking the history: from the end of a line, "down" and "up" go to the next
    and the previous line in use, in a circle, so that each undoes the other; no
    line changes, and the screen shows the line gone to instead of the old one. *)
Lemma history_navigation p l lt t pre ln lt1 rt1 lp lt2 rt2 :
  history_ok p -> at_line p l -> holds l lt [] -> displays t pre lt [] ->
  lines p !! Z.to_nat (next_of p) = Some ln -> holds ln lt1 rt1 -> Forall printable (lt1 ++ rt1) ->
  lines p !! Z.to_nat (prev_of p) = Some lp -> holds lp lt2 rt2 -> Forall printable (lt2 ++ rt2) ->
  (exists p1 s,
    cparser_line_next_line (Some p) = Ok (Some p1, CPARSER_OK) /\ lines p1 = lines p /\
    cur_line p1 = next_of p /\ prev_of p1 = cur_line p /\
    out p1 = out p ++ s /\ displays (show t s) pre lt1 rt1) /\
  (exists p2 s,
    cparser_line_prev_line (Some p) = Ok (Some p2, CPARSER_OK) /\ lines p2 = lines p /\
    cur_line p2 = prev_of p /\ next_of p2 = cur_line p /\
    out p2 = out p ++ s /\ displays (show t s) pre lt2 rt2).
Proof.
  intros Hh Hat Hl Ht Hn Hn1 Hn2 Hp Hp1 Hp2.
  assert (Hlast : last l = Zlen lt) by (rewrite (h_last _ _ _ Hl); change (Zlen []) with 0; lia).
  rewrite (next_line_spec p l ln lt1 rt1), (prev_line_spec p l lp lt2 rt2) by done.
  destruct Hh as [_ Hc Hm _]. split.
  - do 2 eexists. do 3 (split; [reflexivity|]).
    split; [unfold prev_of, next_of; simpl; repeat case_match; zify_bool; lia|].
    split; [reflexivity|]. by apply (displays_visit _ _ lt).
  - do 2 eexists. do 3 (split; [reflexivity|]).
    split; [unfold prev_of, next_of; simpl; repeat case_match; zify_bool; lia|].
    split; [reflexivity|]. by apply (displays_visit _ _ lt).
Qed.

(** ** Concrete sessions *)

Definition line_of (lt rt : list Z) : cparser_line_t :=
  Line (Zlen lt + Zlen rt) (Zlen lt) (lt ++ rt ++ replicate (384 - length (lt ++ rt)) 0).
Definition empty_line : cparser_line_t := line_of [] [].

(** Two lines in the history, "ls" and "ab", at the second one. *)
Definition two_lines (cur : Z) : cparser_t :=
  Parser 0 [[36; 32; 0]] false 1 cur
    (line_of [108; 115] [] :: line_of [97; 98] [] :: replicate 8 empty_line) [].
Definition fresh : cparser_t := Parser 0 [[36; 32; 0]] false 0 0 (replicate 10 empty_line) [].

Lemma line_of_holds lt rt :
  (length (lt ++ rt) < 384)%nat -> Forall (fun c => c <> 0) (lt ++ rt) -> holds (line_of lt rt) lt rt.
Proof.
  intros Hlen Hn. split; simpl; try done.
  - exists (replicate (383 - length (lt ++ rt)) 0).
    replace (384 - length (lt ++ rt))%nat with (S (383 - length (lt ++ rt))) by lia. done.
  - rewrite app_assoc, Zlen_app. unfold Zlen. rewrite length_replicate. unfold CPARSER_MAX_LINE_SIZE. lia.
Qed.

Lemma two_lines_ok cur : 0 <= cur <= 1 -> history_ok (two_lines cur).
Proof. intros Hc. split; try done. by_compute. Qed.

(** "lx", left, delete, "a", right: the line is "ax". *)
Definition session : list edit := [EInsert 108; EInsert 120; ELeft; EDelete; EInsert 97; ERight].

Lemma line_editing_refines_witness :
  exists p' s l', run_edits fresh session = Ok p' /\ out p' = out fresh ++ s /\
    at_line p' l' /\ holds l' [97; 120] [] /\ displays (show (Term [36; 32] 2) s) [36; 32] [97; 120] [].
Proof.
  destruct (line_editing_refines fresh empty_line (Term [36; 32] 2) [36; 32] session)
    as (p' & s & l' & E & O & _ & Hat & Hh & Hd).
  - by split.
  - apply line_of_holds; [simpl; lia | constructor].
  - reflexivity.
  - repeat constructor; done.
  - exists p', s, l'. done.
Defined.

Lemma history_recall_witness :
  exists p1 p2,
    cparser_line_advance (Some (two_lines 1)) = Ok (Some p1, CPARSER_OK) /\
    cparser_line_prev_line (Some p1) = Ok (Some p2, CPARSER_OK) /\
    cur_line p2 = 1 /\ at_line p2 (line_of [97; 98] []).
Proof.
  destruct (history_recall (two_lines 1) (line_of [97; 98] []) [97; 98] [] [36; 32])
    as (p1 & l1 & p2 & s & H1 & _ & _ & H2 & H3 & H4 & _).
  - apply two_lines_ok. lia.
  - by split.
  - apply line_of_holds; [simpl; lia | repeat constructor; done].
  - repeat constructor; done.
  - by exists p1, p2.
Defined.

Lemma history_navigation_witness :
  exists p1 s, cparser_line_next_line (Some (two_lines 1)) = Ok (Some p1, CPARSER_OK) /\
    cur_line p1 = 0 /\ out p1 = out (two_lines 1) ++ s /\
    displays (show (Term [36; 32; 97; 98] 4) s) [36; 32] [108; 115] [].
Proof.
  destruct (history_navigation (two_lines 1) (line_of [97; 98] []) [97; 98] (Term [36; 32; 97; 98] 4) [36; 32]
              (line_of [108; 115] []) [108; 115] [] (line_of [108; 115] []) [108; 115] [])
    as [(p1 & s & H1 & _ & H2 & _ & H3 & H4) _].
  - apply two_lines_ok. lia.
  - by split.
  - apply line_of_holds; [simpl; lia | repeat constructor; done].
  - by exists 0%nat.
  - reflexivity.
  - apply line_of_holds; [simpl; lia | repeat constructor; done].
  - repeat constructor; done.
  - reflexivity.
  - apply line_of_holds; [simpl; lia | repeat constructor; done].
  - repeat constructor; done.
  - exists p1, s. done.
Defined.

(** With the cursor inside the line the screen does not follow: "ab", left, up
    erases two columns from the cursor on, one of them the prompt's, and leaves the
    "b" where it is. *)
Definition left_up : outcome (option term) :=
  p ← run_edits (two_lines 1) [ELeft];
  '(o, _) ← cparser_line_prev_line (Some p);
  Ok (match o with Some p => Some (show (Term [36; 32; 97; 98] 4) (out p)) | None => None end).

Lemma history_inside_a_line : left_up = Ok (Some (Term [36; 108; 115; 98] 3)).
Proof. by vm_compute. Qed.
