(* ===== verification/CliToken.v ===== *)
(** * CLI parser: parse-tree nodes and tokens (cparser_token.c, cparser_token_tbl.c)

    The nodes of the parse tree, the functions that tell whether a token matches a
    node, and those that read the value of a token.  The tree is constant data, so
    a pointer to a node is the node.  A string constant is the list of its
    characters; a [char] is a [Z].

    A match function returns the result code and what it leaves in [*is_complete];
    callers look at the latter only after [CPARSER_OK]. *)

From stdpp Require Import base numbers list list_numbers.
From S2P Require Import Prelude CliLine.

#[local] Open Scope Z_scope.

Inductive cparser_node_type_t :=
| CPARSER_NODE_ROOT | CPARSER_NODE_END | CPARSER_NODE_KEYWORD | CPARSER_NODE_STRING
| CPARSER_NODE_UINT | CPARSER_NODE_UINT64 | CPARSER_NODE_INT | CPARSER_NODE_INT64
| CPARSER_NODE_HEX | CPARSER_NODE_HEX64 | CPARSER_NODE_FLOAT | CPARSER_NODE_MACADDR
| CPARSER_NODE_IPV4ADDR | CPARSER_NODE_FILE | CPARSER_NODE_LIST.

#[global] Instance node_type_eq_dec : EqDecision cparser_node_type_t.
Proof. solve_decision. Defined.

#[global] Instance result_eq_dec : EqDecision cparser_result_t.
Proof. solve_decision. Defined.

(** [void *param]: a string, the keywords of a LIST, or the glue function of an END. *)
Inductive node_param :=
| PStr (s : list Z)
| PList (keywords : list (list Z))
| PGlue (fn : nat).

Inductive cparser_node_t := Node {
  n_type : cparser_node_type_t;
  n_flags : Z;
  n_param : node_param;
  n_desc : option (list Z);
  n_children : list cparser_node_t;     (* children, linked by sibling *)
}.

Definition CPARSER_NODE_FLAGS_OPT_START : Z := 1.
Definition CPARSER_NODE_FLAGS_OPT_END : Z := 2.
Definition CPARSER_NODE_FLAGS_OPT_PARTIAL : Z := 4.
Definition CPARSER_NODE_FLAGS_HIDDEN : Z := 8.

Definition CPARSER_MAX_TOKEN_SIZE : Z := 256.
Definition CPARSER_MAX_NUM_TOKENS : Z := 32.

Record cparser_token_t := Token {
  begin_ptr : Z;
  token_len : Z;
  tbuf : list Z;
  tparent : option cparser_node_t;
  tnode : option cparser_node_t;
}.

(** ** The C library *)

Definition isdigit (c : Z) : bool := (48 <=? c) && (c <=? 57).
Definition isxdigit (c : Z) : bool :=
  isdigit c || ((65 <=? c) && (c <=? 70)) || ((97 <=? c) && (c <=? 102)).

(** [strncmp] on two arrays. *)
Fixpoint strncmp (n : nat) (a b : list Z) : outcome Z :=
  match n with
  | O => Ok 0
  | S n =>
      match a, b with
      | x :: a, y :: b =>
          if negb (x =? y) then Ok (u8 x - u8 y)
          else if x =? 0 then Ok 0
          else strncmp n a b
      | _, _ => Fault OutOfBounds
      end
  end.

(** A string constant in memory. *)
Definition cstr (s : list Z) : list Z := s ++ [0].

Definition param_str (node : cparser_node_t) : outcome (list Z) :=
  match n_param node with PStr s => Ok s | _ => Fault NullDeref end.
Definition param_list (node : cparser_node_t) : outcome (list (list Z)) :=
  match n_param node with PList ks => Ok ks | _ => Fault NullDeref end.

Definition is_type (node : cparser_node_t) (ts : list cparser_node_type_t) : bool :=
  bool_decide (n_type node ∈ ts).

(** ** Match functions *)

Definition match_result : Type := cparser_result_t * bool.

Definition cparser_match_root (token : list Z) (len : Z) (node : cparser_node_t)
    : outcome match_result :=
  Fault AssertFailed.

Definition cparser_match_end (token : list Z) (len : Z) (node : cparser_node_t)
    : outcome match_result :=
  _ ← assert_ (is_type node [CPARSER_NODE_END]);
  Ok (CPARSER_NOT_OK, false).

Definition cparser_match_keyword (token : list Z) (len : Z) (node : cparser_node_t)
    : outcome match_result :=
  _ ← assert_ (is_type node [CPARSER_NODE_KEYWORD]);
  kw ← param_str node;
  let kw_len := Zlen kw in
  if kw_len <? len then Ok (CPARSER_NOT_OK, false)
  else
    let match_len := if kw_len <? len then kw_len else len in
    r ← strncmp (Z.to_nat match_len) token (cstr kw);
    if r =? 0 then Ok (CPARSER_OK, match_len =? kw_len)
    else Ok (CPARSER_NOT_OK, false).

Definition cparser_match_string (token : list Z) (len : Z) (node : cparser_node_t)
    : outcome match_result :=
  _ ← assert_ (is_type node [CPARSER_NODE_STRING]);
  Ok (CPARSER_OK, true).

(** [for (n = from; n < token_len; n++) if (!p(token[n])) return CPARSER_NOT_OK;]
    over [k] characters. *)
Fixpoint all_from (p : Z -> bool) (k : nat) (token : list Z) (n : Z) : outcome bool :=
  match k with
  | O => Ok true
  | S k => c ← rd token n; if p c then all_from p k token (n + 1) else Ok false
  end.

Definition cparser_match_uint (token : list Z) (len : Z) (node : cparser_node_t)
    : outcome match_result :=
  _ ← assert_ (is_type node [CPARSER_NODE_UINT; CPARSER_NODE_UINT64]);
  _ ← assert_ (0 <? len);
  t0 ← rd token 0;
  if negb (isdigit t0) then Ok (CPARSER_NOT_OK, false)
  else if len =? 1 then Ok (CPARSER_OK, true)
  else
    t1 ← rd token 1;
    if (t1 =? 120) && negb (t0 =? 48) then Ok (CPARSER_NOT_OK, false)
    else if negb (t1 =? 120) && negb (isdigit t1) then Ok (CPARSER_NOT_OK, false)
    else
      let is_dec := negb (t1 =? 120) in
      if len =? 2 then Ok (CPARSER_OK, is_dec)
      else
        ok ← all_from (if is_dec then isdigit else isxdigit) (Z.to_nat (len - 2)) token 2;
        if (ok : bool) then Ok (CPARSER_OK, true) else Ok (CPARSER_NOT_OK, false).

Definition cparser_match_int (token : list Z) (len : Z) (node : cparser_node_t)
    : outcome match_result :=
  _ ← assert_ (is_type node [CPARSER_NODE_INT; CPARSER_NODE_INT64]);
  _ ← assert_ (0 <? len);
  t0 ← rd token 0;
  if negb (isdigit t0) && negb (t0 =? 45) && negb (t0 =? 43) then Ok (CPARSER_NOT_OK, false)
  else if len =? 1 then Ok (CPARSER_OK, isdigit t0)
  else
    ok ← all_from isdigit (Z.to_nat (len - 1)) token 1;
    if (ok : bool) then Ok (CPARSER_OK, true) else Ok (CPARSER_NOT_OK, false).

Definition cparser_match_hex (token : list Z) (len : Z) (node : cparser_node_t)
    : outcome match_result :=
  _ ← assert_ (is_type node [CPARSER_NODE_HEX; CPARSER_NODE_HEX64]);
  _ ← assert_ (0 <? len);
  t0 ← rd token 0;
  if negb (t0 =? 48) then Ok (CPARSER_NOT_OK, false)
  else if len =? 1 then Ok (CPARSER_OK, false)
  else
    t1 ← rd token 1;
    if negb (t1 =? 120) then Ok (CPARSER_NOT_OK, false)
    else if len =? 2 then Ok (CPARSER_OK, false)
    else
      ok ← all_from isxdigit (Z.to_nat (len - 2)) token 2;
      if (ok : bool) then Ok (CPARSER_OK, true) else Ok (CPARSER_NOT_OK, false).

(** The last loop of [cparser_match_float], entered with [*is_complete = 1]. *)
Fixpoint float_loop (k : nat) (token : list Z) (n : Z) (has_dec_pt : bool) : outcome match_result :=
  match k with
  | O => Ok (CPARSER_OK, true)
  | S k =>
      c ← rd token n;
      if c =? 46 then
        if has_dec_pt then Ok (CPARSER_NOT_OK, false) else float_loop k token (n + 1) true
      else if isdigit c then float_loop k token (n + 1) has_dec_pt
      else Ok (CPARSER_NOT_OK, true)
  end.

Definition cparser_match_float (token : list Z) (len : Z) (node : cparser_node_t)
    : outcome match_result :=
  _ ← assert_ (is_type node [CPARSER_NODE_FLOAT]);
  _ ← assert_ (0 <? len);
  t0 ← rd token 0;
  let signed := (t0 =? 43) || (t0 =? 45) in
  if signed && (len =? 1) then Ok (CPARSER_OK, false)
  else
    let base := if signed then 1 else 0 in
    c ← rd token base;
    if (c =? 46) && (len =? 2) then Ok (CPARSER_OK, false)
    else if negb (c =? 46) && negb (isdigit c) then Ok (CPARSER_NOT_OK, false)
    else float_loop (Z.to_nat (len - base)) token base (c =? 46).

Fixpoint mac_loop (k : nat) (token : list Z) (n num_digit num_colon : Z) : outcome match_result :=
  match k with
  | O => Ok (CPARSER_OK, (num_colon =? 5) && (0 <? num_digit))
  | S k =>
      c ← rd token n;
      if num_digit =? 0 then
        if isxdigit c then mac_loop k token (n + 1) 1 num_colon else Ok (CPARSER_NOT_OK, false)
      else if num_digit =? 1 then
        if negb (isxdigit c) && negb (c =? 58) then Ok (CPARSER_NOT_OK, false)
        else if c =? 58 then
          if 5 <? num_colon + 1 then Ok (CPARSER_NOT_OK, false)
          else mac_loop k token (n + 1) 0 (num_colon + 1)
        else mac_loop k token (n + 1) 2 num_colon
      else if negb (c =? 58) then Ok (CPARSER_NOT_OK, false)
      else if 5 <? num_colon + 1 then Ok (CPARSER_NOT_OK, false)
      else mac_loop k token (n + 1) 0 (num_colon + 1)
  end.

Definition cparser_match_macaddr (token : list Z) (len : Z) (node : cparser_node_t)
    : outcome match_result :=
  _ ← assert_ (is_type node [CPARSER_NODE_MACADDR]);
  mac_loop (Z.to_nat len) token 0 0 0.

Fixpoint ipv4_loop (k : nat) (token : list Z) (n num_digit num_dot : Z) : outcome match_result :=
  match k with
  | O => Ok (CPARSER_OK, (num_dot =? 3) && (0 <? num_digit))
  | S k =>
      _ ← assert_ (num_digit <? 4);
      c ← rd token n;
      if num_digit =? 0 then
        if isdigit c then ipv4_loop k token (n + 1) 1 num_dot else Ok (CPARSER_NOT_OK, false)
      else if num_digit =? 3 then
        if negb (c =? 46) then Ok (CPARSER_NOT_OK, false)
        else if 3 <? num_dot + 1 then Ok (CPARSER_NOT_OK, false)
        else ipv4_loop k token (n + 1) 0 (num_dot + 1)
      else if negb (isdigit c) && negb (c =? 46) then Ok (CPARSER_NOT_OK, false)
      else if c =? 46 then
        if 3 <? num_dot + 1 then Ok (CPARSER_NOT_OK, false)
        else ipv4_loop k token (n + 1) 0 (num_dot + 1)
      else if num_digit + 1 =? 3 then
        a ← rd token (n - 2);
        b ← rd token (n - 1);
        r ← strncmp 3 [a; b; c; 0] [50; 53; 53; 0];     (* a, "255" *)
        if 0 <? r then Ok (CPARSER_NOT_OK, false)
        else ipv4_loop k token (n + 1) 3 num_dot
      else ipv4_loop k token (n + 1) (num_digit + 1) num_dot
  end.

Definition cparser_match_ipv4addr (token : list Z) (len : Z) (node : cparser_node_t)
    : outcome match_result :=
  _ ← assert_ (is_type node [CPARSER_NODE_IPV4ADDR]);
  ipv4_loop (Z.to_nat len) token 0 0 0.

Definition cparser_match_file (token : list Z) (len : Z) (node : cparser_node_t)
    : outcome match_result :=
  _ ← assert_ (is_type node [CPARSER_NODE_FILE]);
  Ok (CPARSER_OK, true).

Fixpoint count_matches (token : list Z) (len : Z) (keywords : list (list Z)) : outcome Z :=
  match keywords with
  | [] => Ok 0
  | kw :: keywords =>
      r ← strncmp (Z.to_nat len) token (cstr kw);
      n ← count_matches token len keywords;
      Ok (if r =? 0 then n + 1 else n)
  end.

Definition cparser_match_list (token : list Z) (len : Z) (node : cparser_node_t)
    : outcome match_result :=
  _ ← assert_ (is_type node [CPARSER_NODE_LIST]);
  ks ← param_list node;
  _ ← assert_ (negb (bool_decide (ks = [])));
  num_matches ← count_matches token len ks;
  Ok (if num_matches =? 0 then CPARSER_NOT_OK else CPARSER_OK, num_matches =? 1).

Definition cparser_match_fn_tbl (t : cparser_node_type_t)
    : list Z -> Z -> cparser_node_t -> outcome match_result :=
  match t with
  | CPARSER_NODE_ROOT => cparser_match_root
  | CPARSER_NODE_END => cparser_match_end
  | CPARSER_NODE_KEYWORD => cparser_match_keyword
  | CPARSER_NODE_STRING => cparser_match_string
  | CPARSER_NODE_UINT | CPARSER_NODE_UINT64 => cparser_match_uint
  | CPARSER_NODE_INT | CPARSER_NODE_INT64 => cparser_match_int
  | CPARSER_NODE_HEX | CPARSER_NODE_HEX64 => cparser_match_hex
  | CPARSER_NODE_FLOAT => cparser_match_float
  | CPARSER_NODE_MACADDR => cparser_match_macaddr
  | CPARSER_NODE_IPV4ADDR => cparser_match_ipv4addr
  | CPARSER_NODE_FILE => cparser_match_file
  | CPARSER_NODE_LIST => cparser_match_list
  end.

(** The node's own match function. *)
Definition match_node (token : list Z) (len : Z) (node : cparser_node_t) : outcome match_result :=
  cparser_match_fn_tbl (n_type node) token len node.

(** ** Get functions

    The result code and the value stored through [value]. *)

Definition u64 (z : Z) : Z := z `mod` 18446744073709551616.

Definition cparser_get_string (token : cparser_token_t) : cparser_result_t * option (list Z) :=
  if token_len token =? 0 then (CPARSER_NOT_OK, None) else (CPARSER_OK, Some (tbuf token)).

(** The loop of [cparser_get_uint_internal] ([wrap] is [u32]) and of its 64-bit twin
    ([u64]); [None] when the overflow test fires. *)
Fixpoint uint_loop (wrap : Z -> Z) (k : nat) (token : list Z) (n old : Z) : outcome (option Z) :=
  match k with
  | O => Ok (Some old)
  | S k =>
      c ← rd token n;
      d ← (if (48 <=? c) && (c <=? 57) then Ok (c - 48) else Fault AssertFailed);
      let new := wrap (wrap (old * 10) + d) in
      if negb (wrap (new - d) `div` 10 =? old) then Ok None
      else uint_loop wrap k token (n + 1) new
  end.

Definition store (o : option Z) : cparser_result_t * Z :=
  match o with Some v => (CPARSER_OK, v) | None => (CPARSER_NOT_OK, 0) end.

Definition cparser_get_uint_internal (token : list Z) (from len : Z) : outcome (cparser_result_t * Z) :=
  o ← uint_loop u32 (Z.to_nat len) token from 0; Ok (store o).
Definition cparser_get_uint64_internal (token : list Z) (from len : Z) : outcome (cparser_result_t * Z) :=
  o ← uint_loop u64 (Z.to_nat len) token from 0; Ok (store o).

Definition hex_digit (c : Z) : outcome Z :=
  if (48 <=? c) && (c <=? 57) then Ok (c - 48)
  else if (97 <=? c) && (c <=? 102) then Ok (c - 97 + 10)
  else if (65 <=? c) && (c <=? 70) then Ok (c - 65 + 10)
  else Fault AssertFailed.

(** The loop of [cparser_get_hex] and [cparser_get_hex64]. *)
Fixpoint hex_loop (wrap : Z -> Z) (k : nat) (token : list Z) (n old : Z) : outcome (option Z) :=
  match k with
  | O => Ok (Some old)
  | S k =>
      c ← rd token n;
      d ← hex_digit c;
      let new := wrap (wrap (Z.shiftl old 4) + d) in
      if negb (Z.shiftr (wrap (new - d)) 4 =? old) then Ok None
      else hex_loop wrap k token (n + 1) new
  end.

Definition get_hex (wrap : Z -> Z) (token : cparser_token_t) : outcome (cparser_result_t * Z) :=
  if token_len token =? 0 then Ok (CPARSER_NOT_OK, 0)
  else
    c0 ← rd (tbuf token) 0;
    c1 ← rd (tbuf token) 1;
    _ ← assert_ ((2 <? token_len token) && (c0 =? 48) && (c1 =? 120));
    o ← hex_loop wrap (Z.to_nat (token_len token - 2)) (tbuf token) 2 0;
    Ok (store o).
Definition cparser_get_hex (token : cparser_token_t) := get_hex u32 token.
Definition cparser_get_hex64 (token : cparser_token_t) := get_hex u64 token.

Definition cparser_get_uint (token : cparser_token_t) : outcome (cparser_result_t * Z) :=
  if token_len token =? 0 then Ok (CPARSER_NOT_OK, 0)
  else
    x ← (if 1 <? token_len token then c ← rd (tbuf token) 1; Ok (c =? 120) else Ok false);
    if (x : bool) then cparser_get_hex token
    else cparser_get_uint_internal (tbuf token) 0 (token_len token).

Definition cparser_get_uint64 (token : cparser_token_t) : outcome (cparser_result_t * Z) :=
  if token_len token =? 0 then Ok (CPARSER_NOT_OK, 0)
  else
    x ← (if 1 <? token_len token then c ← rd (tbuf token) 1; Ok (c =? 120) else Ok false);
    if (x : bool) then cparser_get_hex64 token
    else cparser_get_uint64_internal (tbuf token) 0 (token_len token).

(** A conversion of the low 64 bits to [int64_t]. *)
Definition s64 (z : Z) : Z := (z + 9223372036854775808) `mod` 18446744073709551616 - 9223372036854775808.

(** [cparser_get_int] ([cast] is [s32], [limit] 2^31) and its 64-bit twin.  The negation of
    the smallest value is that value again. *)
Definition get_int (internal : list Z -> Z -> Z -> outcome (cparser_result_t * Z)) (cast : Z -> Z)
    (limit : Z) (token : cparser_token_t) : outcome (cparser_result_t * Z) :=
  if token_len token =? 0 then Ok (CPARSER_NOT_OK, 0)
  else
    _ ← assert_ (0 <? token_len token);
    c ← rd (tbuf token) 0;
    let sign := if c =? 45 then -1 else 1 in
    let init_pos := if (c =? 45) || (c =? 43) then 1 else 0 in
    '(rc, tmp) ← internal (tbuf token) init_pos (token_len token - init_pos);
    if negb (bool_decide (rc = CPARSER_OK)) then Ok (CPARSER_NOT_OK, 0)
    else if sign =? 1 then
      if limit - 1 <? tmp then Ok (CPARSER_NOT_OK, 0) else Ok (CPARSER_OK, cast tmp)
    else
      if limit <? tmp then Ok (CPARSER_NOT_OK, 0) else Ok (CPARSER_OK, cast (- cast tmp)).
Definition cparser_get_int := get_int cparser_get_uint_internal s32 2147483648.
Definition cparser_get_int64 := get_int cparser_get_uint64_internal s64 9223372036854775808.

(** *** [sscanf] with [%lu] and [%lx] *)

Definition isspace (c : Z) : bool := (c =? 32) || ((9 <=? c) && (c <=? 13)).

Definition digit_val (base c : Z) : option Z :=
  let v := if isdigit c then Some (c - 48)
           else if (97 <=? c) && (c <=? 122) then Some (c - 87)
           else if (65 <=? c) && (c <=? 90) then Some (c - 55)
           else None in
  match v with Some v => if v <? base then Some v else None | None => None end.

(** The value of the leading digits, whether there are any, and the rest. *)
Fixpoint scan_digits (base : Z) (s : list Z) (acc : Z) (any : bool) : Z * bool * list Z :=
  match s with
  | c :: s' =>
      match digit_val base c with
      | Some v => scan_digits base s' (acc * base + v) true
      | None => (acc, any, s)
      end
  | [] => (acc, any, [])
  end.

Definition ULONG_MAX : Z := 18446744073709551615.

Fixpoint skip_spaces (s : list Z) : list Z :=
  match s with c :: s' => if isspace c then skip_spaces s' else s | [] => [] end.

(** One [%lu] ([base] 10) or [%lx] ([base] 16, which allows a "0x"). *)
Definition scan_ulong (base : Z) (s : list Z) : option (Z * list Z) :=
  let s := skip_spaces s in
  let '(neg, s) := match s with
                   | c :: s' => if c =? 45 then (true, s') else if c =? 43 then (false, s') else (false, s)
                   | [] => (false, [])
                   end in
  let s := match s with
           | a :: b :: s' =>
               if (base =? 16) && (a =? 48) && ((b =? 120) || (b =? 88)) then s' else s
           | _ => s
           end in
  let '(v, any, rest) := scan_digits base s 0 false in
  if (any : bool) then
    Some (if ULONG_MAX <? v then ULONG_MAX else if (neg : bool) then u64 (- v) else v, rest)
  else None.

(** [sscanf(s, "%lu<sep>%lu<sep>...")] with [n] conversions: the values converted. *)
Fixpoint sscanf_seq (base sep : Z) (n : nat) (s : list Z) : list Z :=
  match n with
  | O => []
  | S n =>
      match scan_ulong base s with
      | None => []
      | Some (v, rest) =>
          v :: match n, rest with
               | S _, c :: rest => if c =? sep then sscanf_seq base sep n rest else []
               | _, _ => []
               end
      end
  end.

(** A token's text, read as a string. *)
Definition token_string (token : cparser_token_t) : outcome (list Z) :=
  c_string (S (length (tbuf token))) (tbuf token) 0.

Definition cparser_get_macaddr (token : cparser_token_t) : outcome (cparser_result_t * list Z) :=
  if token_len token =? 0 then Ok (CPARSER_NOT_OK, replicate 6 0)
  else
    s ← token_string token;
    let vs := sscanf_seq 16 58 6 s in
    if negb (bool_decide (length vs = 6%nat)) || existsb (fun v => 255 <? v) vs
    then Ok (CPARSER_NOT_OK, replicate 6 0)
    else Ok (CPARSER_OK, u8 <$> vs).

Definition cparser_get_ipv4addr (token : cparser_token_t) : outcome (cparser_result_t * Z) :=
  if token_len token =? 0 then Ok (CPARSER_NOT_OK, 0)
  else
    s ← token_string token;
    match sscanf_seq 10 46 4 s with
    | [a; b; c; d] =>
        if (255 <? a) || (255 <? b) || (255 <? c) || (255 <? d) then Ok (CPARSER_NOT_OK, 0)
        else
          let val := u32 (Z.shiftl (u32 a) 24) in
          let val := Z.lor val (u32 (Z.shiftl (u32 b) 16)) in
          let val := Z.lor val (u32 (Z.shiftl (u32 c) 8)) in
          Ok (CPARSER_OK, Z.lor val (u32 d))
    | _ => Ok (CPARSER_NOT_OK, 0)
    end.

(** [is_regular] is what [stat] says of the path. *)
Definition cparser_get_file (is_regular : list Z -> bool) (token : cparser_token_t)
    : outcome (cparser_result_t * option (list Z)) :=
  if token_len token =? 0 then Ok (CPARSER_NOT_OK, None)
  else
    s ← token_string token;
    if is_regular s then Ok (CPARSER_OK, Some (tbuf token)) else Ok (CPARSER_NOT_OK, None).

(** [scan_double] is [sscanf(s, "%lf")]; [None] leaves the value 0.0. *)
Definition cparser_get_float {D : Type} (zero : D) (scan_double : list Z -> option D)
    (token : cparser_token_t) (value : D) : outcome (cparser_result_t * D) :=
  if token_len token =? 0 then Ok (CPARSER_NOT_OK, value)
  else
    s ← token_string token;
    match scan_double s with
    | None => Ok (CPARSER_NOT_OK, zero)
    | Some v => Ok (CPARSER_OK, v)
    end.

(** The first keyword that agrees with the token on the shorter of the two. *)
Fixpoint find_keyword (token : list Z) (len : Z) (keywords : list (list Z)) : outcome (option (list Z)) :=
  match keywords with
  | [] => Ok None
  | kw :: keywords =>
      let clen := if len <? Zlen kw then len else Zlen kw in
      r ← strncmp (Z.to_nat clen) token (cstr kw);
      if r =? 0 then Ok (Some kw) else find_keyword token len keywords
  end.

Definition cparser_get_list (token : cparser_token_t) : outcome (cparser_result_t * option (list Z)) :=
  match tnode token with
  | None => Ok (CPARSER_NOT_OK, None)
  | Some node =>
      _ ← assert_ (is_type node [CPARSER_NODE_LIST]);
      ks ← param_list node;
      o ← find_keyword (tbuf token) (token_len token) ks;
      Ok (if o is Some _ then CPARSER_OK else CPARSER_NOT_OK, o)
  end.

(** ** Tokens as texts

    What a match function says of the characters of a token: [None] for no match,
    otherwise whether the match is complete. *)

Definition char_ok (c : Z) : Prop := -128 <= c < 128 /\ c <> 0.

#[global] Instance char_ok_dec c : Decision (char_ok c).
Proof. unfold char_ok. apply _. Defined.

Fixpoint prefixb (s kw : list Z) : bool :=
  match s, kw with
  | [], _ => true
  | x :: s, y :: kw => (x =? y) && prefixb s kw
  | _ :: _, [] => false
  end.

Definition uint_text (s : list Z) : option bool :=
  match s with
  | [] => None
  | t0 :: s1 =>
      if negb (isdigit t0) then None
      else match s1 with
           | [] => Some true
           | t1 :: s2 =>
               if t1 =? 120 then
                 if t0 =? 48 then if forallb isxdigit s2 then Some (negb (bool_decide (s2 = []))) else None
                 else None
               else if forallb isdigit s1 then Some true else None
           end
  end.

Definition int_text (s : list Z) : option bool :=
  match s with
  | [] => None
  | t0 :: s1 =>
      if isdigit t0 || (t0 =? 45) || (t0 =? 43) then
        if forallb isdigit s1 then Some (isdigit t0 || negb (bool_decide (s1 = []))) else None
      else None
  end.

Definition hex_text (s : list Z) : option bool :=
  match s with
  | [] => None
  | t0 :: s1 =>
      if negb (t0 =? 48) then None
      else match s1 with
           | [] => Some false
           | t1 :: s2 =>
               if negb (t1 =? 120) then None
               else if forallb isxdigit s2 then Some (negb (bool_decide (s2 = []))) else None
           end
  end.

Fixpoint float_rest (s : list Z) (has_dec_pt : bool) : option bool :=
  match s with
  | [] => Some true
  | c :: s =>
      if c =? 46 then if has_dec_pt then None else float_rest s true
      else if isdigit c then float_rest s has_dec_pt else None
  end.

Definition float_text (s : list Z) : option bool :=
  match s with
  | [] => None
  | t0 :: s1 =>
      if (t0 =? 43) || (t0 =? 45) then
        match s1 with
        | [] => Some false
        | c :: s2 =>
            if (c =? 46) && bool_decide (s2 = []) then Some false
            else if (c =? 46) || isdigit c then float_rest s1 (c =? 46) else None
        end
      else if (t0 =? 46) && bool_decide (length s1 = 1%nat) then Some false
      else if (t0 =? 46) || isdigit t0 then float_rest s (t0 =? 46) else None
  end.

(** [nd]: digits of the group so far; [nc]: colons so far. *)
Fixpoint mac_text (s : list Z) (nd nc : Z) : option bool :=
  match s with
  | [] => Some ((nc =? 5) && (0 <? nd))
  | c :: s =>
      if isxdigit c && (nd <? 2) then mac_text s (nd + 1) nc
      else if (c =? 58) && (0 <? nd) && (nc <? 5) then mac_text s 0 (nc + 1)
      else None
  end.

(** [nd], [nd]: as above for dots; [v]: the value of the group so far. *)
Fixpoint ipv4_text (s : list Z) (nd ndot v : Z) : option bool :=
  match s with
  | [] => Some ((ndot =? 3) && (0 <? nd))
  | c :: s =>
      if isdigit c && (nd <? 3) then
        if 255 <? v * 10 + (c - 48) then None else ipv4_text s (nd + 1) ndot (v * 10 + (c - 48))
      else if (c =? 46) && (0 <? nd) && (ndot <? 3) then ipv4_text s 0 (ndot + 1) 0
      else None
  end.

Definition list_text (ks : list (list Z)) (s : list Z) : option bool :=
  match length (filter (fun kw => prefixb s kw) ks) with
  | O => None
  | S O => Some true
  | _ => Some false
  end.

Definition match_text (node : cparser_node_t) (s : list Z) : option bool :=
  match n_type node, n_param node with
  | CPARSER_NODE_KEYWORD, PStr kw => if prefixb s kw then Some (Zlen s =? Zlen kw) else None
  | (CPARSER_NODE_STRING | CPARSER_NODE_FILE), _ => Some true
  | (CPARSER_NODE_UINT | CPARSER_NODE_UINT64), _ => uint_text s
  | (CPARSER_NODE_INT | CPARSER_NODE_INT64), _ => int_text s
  | (CPARSER_NODE_HEX | CPARSER_NODE_HEX64), _ => hex_text s
  | CPARSER_NODE_FLOAT, _ => float_text s
  | CPARSER_NODE_MACADDR, _ => mac_text s 0 0
  | CPARSER_NODE_IPV4ADDR, _ => ipv4_text s 0 0 0
  | CPARSER_NODE_LIST, PList ks => list_text ks s
  | _, _ => None
  end.

(** A node the parser can try to match: its parameter has the type's kind. *)
Definition node_ok (node : cparser_node_t) : Prop :=
  match n_type node, n_param node with
  | CPARSER_NODE_ROOT, _ => False
  | CPARSER_NODE_KEYWORD, PStr kw => Forall char_ok kw
  | CPARSER_NODE_KEYWORD, _ => False
  | CPARSER_NODE_LIST, PList ks => ks <> [] /\ Forall (Forall char_ok) ks
  | CPARSER_NODE_LIST, _ => False
  | _, _ => True
  end.

Definition verdict (r : match_result) : option bool :=
  match r with (CPARSER_OK, b) => Some b | _ => None end.

(** ** The match functions compute it *)

Lemma rd_at {A} (l k : list A) x i : i = Zlen l -> rd (l ++ x :: k) i = Ok x.
Proof. apply rd_mid. Qed.

Lemma all_from_spec p s : forall a rest,
  all_from p (length s) (a ++ s ++ rest) (Zlen a) = Ok (forallb p s).
Proof.
  induction s as [|c s IH]; intros a rest; [done|]. simpl. rewrite rd_at by done.
  cbn [mbind outcome_bind]. destruct (p c); [|done].
  replace (a ++ c :: s ++ rest) with ((a ++ [c]) ++ s ++ rest) by (by rewrite <- app_assoc).
  replace (Zlen a + 1) with (Zlen (a ++ [c])) by (by rewrite Zlen_app). apply IH.
Qed.

Lemma strncmp_spec s : forall kw rest,
  Forall char_ok s -> Forall char_ok kw ->
  exists r, strncmp (length s) (s ++ rest) (cstr kw) = Ok r /\ (r =? 0) = prefixb s kw.
Proof.
  assert (Hu : forall x y, -128 <= x < 128 -> -128 <= y < 128 -> x <> y -> u8 x - u8 y <> 0).
  { intros x y Hx Hy Hne. unfold u8. Z.to_euclidean_division_equations. lia. }
  induction s as [|x s IH]; intros kw rest Hs Hk; [by exists 0|].
  apply Forall_cons in Hs as [[Hx Hx0] Hs]. unfold cstr. destruct kw as [|y kw]; simpl.
  - rewrite (proj2 (Z.eqb_neq _ _) Hx0). simpl. eexists. split; [done|].
    apply Z.eqb_neq. apply Hu; lia.
  - apply Forall_cons in Hk as [[Hy _] Hk]. destruct (x =? y) eqn:E; zify_bool.
    + simpl. rewrite (proj2 (Z.eqb_neq _ _) Hx0). apply (IH kw rest Hs Hk).
    + simpl. eexists. split; [done|]. apply Z.eqb_neq. by apply Hu.
Qed.

Ltac zl := change (Zlen (@nil Z)) with 0 in *; repeat rewrite ?Zlen_cons, ?Zlen_app in *;
  change (Zlen (@nil Z)) with 0 in *;
  repeat match goal with l : list Z |- _ => lazymatch goal with
    | _ : 0 <= Zlen l |- _ => fail | _ => pose proof (Zlen_nonneg l) end end; lia.

Lemma rd_0 {A} (x : A) l : rd (x :: l) 0 = Ok x.
Proof. done. Qed.

Lemma rd_1 {A} (a x : A) l : rd (a :: x :: l) 1 = Ok x.
Proof. done. Qed.

Lemma len_test_1 (c : Z) s : (Zlen (c :: s) =? 1) = bool_decide (s = []).
Proof. destruct s; [done|]. rewrite bool_decide_eq_false_2 by done. apply Z.eqb_neq. zl. Qed.

Lemma len_test_2 (a b : Z) s : (Zlen (a :: b :: s) =? 2) = bool_decide (s = []).
Proof. destruct s; [done|]. rewrite bool_decide_eq_false_2 by done. apply Z.eqb_neq. zl. Qed.

Lemma len_rest_1 (a : Z) s : Z.to_nat (Zlen (a :: s) - 1) = length s.
Proof. unfold Zlen. simpl. lia. Qed.

Lemma len_rest_2 (a b : Z) s : Z.to_nat (Zlen (a :: b :: s) - 2) = length s.
Proof. unfold Zlen. simpl. lia. Qed.

Lemma all_from_1 p a s rest : all_from p (length s) (a :: s ++ rest) 1 = Ok (forallb p s).
Proof. apply (all_from_spec p s [a] rest). Qed.

Lemma all_from_2 p a b s rest : all_from p (length s) (a :: b :: s ++ rest) 2 = Ok (forallb p s).
Proof. apply (all_from_spec p s [a; b] rest). Qed.

(** A match function agrees with the text. *)
Definition agrees (o : outcome match_result) (v : option bool) : Prop :=
  exists r, o = Ok r /\ verdict r = v.

(** Both sides have been computed. *)
Ltac agree := solve [eexists; split; [reflexivity|]; try reflexivity; done].

Lemma match_uint_text node s rest :
  is_type node [CPARSER_NODE_UINT; CPARSER_NODE_UINT64] = true -> s <> [] ->
  agrees (cparser_match_uint (s ++ rest) (Zlen s) node) (uint_text s).
Proof.
  intros Ht Hs. unfold cparser_match_uint, agrees. rewrite Ht. destruct s as [|t0 s1]; [done|].
  rewrite (proj2 (Z.ltb_lt 0 _)) by zl. cbn [assert_ mbind outcome_bind app]. rewrite ?rd_0, ?rd_1. cbn [mbind outcome_bind].
  unfold uint_text. destruct (isdigit t0) eqn:D0; cbn [negb]; [|agree].
  rewrite len_test_1. destruct s1 as [|t1 s2]; [agree|].
  rewrite bool_decide_eq_false_2 by done. cbn [app]. rewrite ?rd_0, ?rd_1. cbn [mbind outcome_bind].
  destruct (t1 =? 120) eqn:X; cbn [andb negb].
  - destruct (t0 =? 48); cbn [andb negb]; [|agree].
    rewrite len_test_2. destruct s2 as [|t2 s3]; [agree|].
    rewrite bool_decide_eq_false_2 by done. rewrite len_rest_2, (all_from_2 isxdigit).
    cbn [mbind outcome_bind]. destruct (forallb isxdigit (t2 :: s3)); agree.
  - cbn [forallb]. destruct (isdigit t1) eqn:D1; cbn [andb negb]; [|agree].
    rewrite len_test_2. destruct s2 as [|t2 s3]; [agree|].
    rewrite bool_decide_eq_false_2 by done. rewrite len_rest_2, (all_from_2 isdigit).
    cbn [mbind outcome_bind]. destruct (forallb isdigit (t2 :: s3)); agree.
Qed.

Lemma match_int_text node s rest :
  is_type node [CPARSER_NODE_INT; CPARSER_NODE_INT64] = true -> s <> [] ->
  agrees (cparser_match_int (s ++ rest) (Zlen s) node) (int_text s).
Proof.
  intros Ht Hs. unfold cparser_match_int, agrees. rewrite Ht. destruct s as [|t0 s1]; [done|].
  rewrite (proj2 (Z.ltb_lt 0 _)) by zl. cbn [assert_ mbind outcome_bind app]. rewrite ?rd_0, ?rd_1. cbn [mbind outcome_bind].
  unfold int_text. rewrite len_test_1.
  destruct (isdigit t0) eqn:D0, (t0 =? 45), (t0 =? 43); cbn [andb orb negb]; try agree.
  all: destruct s1 as [|t1 s2]; [agree|]; rewrite bool_decide_eq_false_2 by done;
    cbn [negb]; rewrite len_rest_1, all_from_1; cbn [mbind outcome_bind];
    destruct (forallb isdigit (t1 :: s2)); agree.
Qed.

Lemma match_hex_text node s rest :
  is_type node [CPARSER_NODE_HEX; CPARSER_NODE_HEX64] = true -> s <> [] ->
  agrees (cparser_match_hex (s ++ rest) (Zlen s) node) (hex_text s).
Proof.
  intros Ht Hs. unfold cparser_match_hex, agrees. rewrite Ht. destruct s as [|t0 s1]; [done|].
  rewrite (proj2 (Z.ltb_lt 0 _)) by zl. cbn [assert_ mbind outcome_bind app]. rewrite ?rd_0, ?rd_1. cbn [mbind outcome_bind].
  unfold hex_text. rewrite len_test_1. destruct (t0 =? 48); cbn [negb]; [|agree].
  destruct s1 as [|t1 s2]; [agree|].
  rewrite bool_decide_eq_false_2 by done. cbn [app]. rewrite ?rd_0, ?rd_1. cbn [mbind outcome_bind].
  destruct (t1 =? 120); cbn [negb]; [|agree].
  rewrite len_test_2. destruct s2 as [|t2 s3]; [agree|].
  rewrite bool_decide_eq_false_2 by done. rewrite len_rest_2, (all_from_2 isxdigit).
  cbn [mbind outcome_bind]. destruct (forallb isxdigit (t2 :: s3)); agree.
Qed.

Lemma float_loop_text s : forall a rest hp,
  agrees (float_loop (length s) (a ++ s ++ rest) (Zlen a) hp) (float_rest s hp).
Proof.
  induction s as [|c s IH]; intros a rest hp; [agree|]. cbn [length float_loop float_rest app].
  rewrite rd_at by done. cbn [mbind outcome_bind].
  assert (Hgo : forall hp', agrees (float_loop (length s) (a ++ c :: s ++ rest) (Zlen a + 1) hp')
                                   (float_rest s hp')).
  { intros hp'. specialize (IH (a ++ [c]) rest hp'). rewrite <- app_assoc, Zlen_app in IH. exact IH. }
  destruct (c =? 46); [destruct hp; [agree|done]|]. destruct (isdigit c); [done|agree].
Qed.

Lemma match_float_text node s rest :
  is_type node [CPARSER_NODE_FLOAT] = true -> s <> [] ->
  agrees (cparser_match_float (s ++ rest) (Zlen s) node) (float_text s).
Proof.
  intros Ht Hs. unfold cparser_match_float. rewrite Ht. destruct s as [|t0 s1]; [done|].
  rewrite (proj2 (Z.ltb_lt 0 _)) by zl. cbn [assert_ mbind outcome_bind app]. rewrite rd_0.
  cbn [mbind outcome_bind]. unfold float_text. rewrite len_test_1.
  destruct ((t0 =? 43) || (t0 =? 45)) eqn:Sg; cbn [andb].
  - destruct s1 as [|c s2]; [agree|]. rewrite bool_decide_eq_false_2 by done. cbn [app]. rewrite rd_1.
    cbn [mbind outcome_bind]. rewrite len_test_2.
    destruct (c =? 46) eqn:Dot; cbn [andb orb negb].
    + destruct s2 as [|c2 s3]; [agree|]. rewrite bool_decide_eq_false_2 by done.
      rewrite len_rest_1. apply (float_loop_text (c :: c2 :: s3) [t0] rest true).
    + destruct (isdigit c); cbn [negb]; [|agree].
      rewrite len_rest_1. apply (float_loop_text (c :: s2) [t0] rest false).
  - rewrite rd_0. cbn [mbind outcome_bind].
    replace (Zlen (t0 :: s1) =? 2) with (bool_decide (length s1 = 1%nat)).
    2: { unfold Zlen. simpl length. case_bool_decide; symmetry; [apply Z.eqb_eq | apply Z.eqb_neq]; lia. }
    replace (Z.to_nat (Zlen (t0 :: s1) - 0)) with (length (t0 :: s1)) by (unfold Zlen; lia).
    destruct (t0 =? 46) eqn:Dot; cbn [andb orb negb].
    + case_bool_decide; [agree|]. apply (float_loop_text (t0 :: s1) [] rest true).
    + destruct (isdigit t0); cbn [negb]; [|agree]. apply (float_loop_text (t0 :: s1) [] rest false).
Qed.

Lemma mac_loop_text s : forall a rest nd nc,
  0 <= nd <= 2 -> agrees (mac_loop (length s) (a ++ s ++ rest) (Zlen a) nd nc) (mac_text s nd nc).
Proof.
  induction s as [|c s IH]; intros a rest nd nc Hnd; [agree|]. cbn [length mac_loop mac_text app].
  rewrite rd_at by done. cbn [mbind outcome_bind].
  assert (Hgo : forall nd' nc', 0 <= nd' <= 2 ->
    agrees (mac_loop (length s) (a ++ c :: s ++ rest) (Zlen a + 1) nd' nc') (mac_text s nd' nc')).
  { intros nd' nc' Hnd'. specialize (IH (a ++ [c]) rest nd' nc' Hnd').
    rewrite <- app_assoc, Zlen_app in IH. exact IH. }
  assert (Hc : c =? 58 = true -> isxdigit c = false) by (by intros ->%Z.eqb_eq).
  assert (Hcase : nd = 0 \/ nd = 1 \/ nd = 2) by lia.
  replace (5 <? nc + 1) with (negb (nc <? 5)) by (destruct (nc <? 5) eqn:?, (5 <? nc + 1) eqn:?; zify_bool; done || lia).
  destruct Hcase as [->|[->| ->]].
  - change (0 =? 0) with true. change (0 <? 2) with true. change (0 <? 0) with false.
    rewrite andb_true_r, andb_false_r. cbn [andb].
    destruct (isxdigit c); [apply Hgo; lia | agree].
  - change (1 =? 0) with false. change (1 =? 1) with true. change (1 <? 2) with true.
    change (0 <? 1) with true. rewrite !andb_true_r.
    destruct (c =? 58) eqn:E; [rewrite (Hc eq_refl)|]; cbn [andb negb].
    + destruct (nc <? 5); cbn [negb]; [apply Hgo; lia | agree].
    + rewrite andb_true_r. destruct (isxdigit c); cbn [negb]; [apply Hgo; lia | agree].
  - change (2 =? 0) with false. change (2 =? 1) with false. change (2 <? 2) with false.
    change (0 <? 2) with true. rewrite andb_false_r, andb_true_r.
    destruct (c =? 58); cbn [andb negb]; [|agree]. destruct (nc <? 5); cbn [negb]; [apply Hgo; lia | agree].
Qed.

(** Comparing three digits with "255" as strings compares their values. *)
Lemma strncmp_255 a b c :
  isdigit a = true -> isdigit b = true -> isdigit c = true ->
  exists r, strncmp 3 [a; b; c; 0] [50; 53; 53; 0] = Ok r /\
            (0 <? r) = (255 <? ((a - 48) * 10 + (b - 48)) * 10 + (c - 48)).
Proof.
  unfold isdigit. intros Ha Hb Hc. zify_bool.
  assert (Hu : forall x, 48 <= x <= 57 -> u8 x = x) by (intros; apply u8_small; unfold is_u8; lia).
  cbn [strncmp].
  assert (Hz : forall x, 48 <= x <= 57 -> (x =? 0) = false) by (intros; apply Z.eqb_neq; lia).
  rewrite !Hz, !Hu by lia.
  destruct (a =? 50) eqn:Ea; cbn [negb]; zify_bool; [|eexists; split; [done|];
    destruct (0 <? a - 50) eqn:?, (255 <? _) eqn:?; zify_bool; done || lia].
  destruct (b =? 53) eqn:Eb; cbn [negb]; zify_bool; [|eexists; split; [done|];
    destruct (0 <? b - 53) eqn:?, (255 <? _) eqn:?; zify_bool; done || lia].
  destruct (c =? 53) eqn:Ec; cbn [negb]; zify_bool; eexists; (split; [done|]).
  - subst. done.
  - destruct (0 <? c - 53) eqn:?, (255 <? _) eqn:?; zify_bool; done || lia.
Qed.

(** The digits just read. *)
Definition group (a : list Z) (nd v : Z) : Prop :=
  (nd = 0 /\ v = 0) \/
  (nd = 1 /\ exists a' x, a = a' ++ [x] /\ isdigit x = true /\ v = x - 48) \/
  (nd = 2 /\ exists a' x y, a = a' ++ [x; y] /\ isdigit x = true /\ isdigit y = true /\
                           v = (x - 48) * 10 + (y - 48)) \/
  nd = 3.

Lemma rd_back2 {A} (a : list A) x y k : rd (a ++ x :: y :: k) (Zlen (a ++ [x; y]) - 2) = Ok x.
Proof. apply rd_at. rewrite Zlen_app. change (Zlen [x; y]) with 2. lia. Qed.

Lemma rd_back1 {A} (a : list A) x y k : rd (a ++ x :: y :: k) (Zlen (a ++ [x; y]) - 1) = Ok y.
Proof.
  replace (a ++ x :: y :: k) with ((a ++ [x]) ++ y :: k) by (by rewrite <- app_assoc).
  apply rd_at. rewrite !Zlen_app. change (Zlen [x; y]) with 2. change (Zlen [x]) with 1. lia.
Qed.

Lemma ipv4_loop_text s : forall a rest nd ndot v,
  group a nd v -> agrees (ipv4_loop (length s) (a ++ s ++ rest) (Zlen a) nd ndot) (ipv4_text s nd ndot v).
Proof.
  induction s as [|c s IH]; intros a rest nd ndot v Hg; [agree|]. cbn [length ipv4_loop ipv4_text app].
  assert (Hnd : 0 <= nd <= 3) by (unfold group in Hg; lia).
  rewrite (proj2 (Z.ltb_lt nd 4)) by lia. cbn [assert_ mbind outcome_bind].
  rewrite (rd_at a (s ++ rest) c (Zlen a)) by done. cbn [mbind outcome_bind].
  assert (Hgo : forall nd' ndot' v', group (a ++ [c]) nd' v' ->
    agrees (ipv4_loop (length s) (a ++ c :: s ++ rest) (Zlen a + 1) nd' ndot') (ipv4_text s nd' ndot' v')).
  { intros nd' ndot' v' Hg'. specialize (IH (a ++ [c]) rest nd' ndot' v' Hg').
    rewrite <- app_assoc, Zlen_app in IH. exact IH. }
  assert (Hc : c =? 46 = true -> isdigit c = false) by (by intros ->%Z.eqb_eq).
  replace (3 <? ndot + 1) with (negb (ndot <? 3))
    by (destruct (ndot <? 3) eqn:?, (3 <? ndot + 1) eqn:?; zify_bool; done || lia).
  assert (Hdot : forall nd', 0 < nd' -> agrees
    (if negb (ndot <? 3) then Ok (CPARSER_NOT_OK, false)
     else ipv4_loop (length s) (a ++ c :: s ++ rest) (Zlen a + 1) 0 (ndot + 1))
    (if true && (0 <? nd') && (ndot <? 3) then ipv4_text s 0 (ndot + 1) 0 else None)).
  { intros nd' Hp. rewrite (proj2 (Z.ltb_lt 0 nd')) by done. cbn [andb].
    destruct (ndot <? 3); cbn [negb]; [apply Hgo; left; done | agree]. }
  destruct Hg as [[-> ->]|[(-> & a' & x & -> & Hx & ->)|[(-> & a' & x & y & -> & Hx & Hy & ->)| ->]]].
  - change (0 =? 0) with true. change (0 <? 3) with true. change (0 <? 0) with false.
    rewrite andb_true_r, andb_false_r. cbn [andb].
    destruct (isdigit c) eqn:Dc; [|agree].
    rewrite (proj2 (Z.ltb_ge 255 _)) by (unfold isdigit in Dc; zify_bool; lia).
    apply Hgo. right. left. split; [done|]. by exists a, c.
  - change (1 =? 0) with false. change (1 =? 3) with false. change (1 <? 3) with true.
    change (1 + 1 =? 3) with false. rewrite andb_true_r.
    destruct (c =? 46) eqn:E; [rewrite (Hc eq_refl)|]; cbn [andb negb]; [by apply (Hdot 1)|].
    rewrite andb_true_r. destruct (isdigit c) eqn:Dc; cbn [negb]; [|agree].
    rewrite (proj2 (Z.ltb_ge 255 _)) by (unfold isdigit in *; zify_bool; lia).
    apply Hgo. right. right. left. split; [done|]. exists a', x, c. by rewrite <- app_assoc.
  - change (2 =? 0) with false. change (2 =? 3) with false. change (2 <? 3) with true.
    change (2 + 1 =? 3) with true. rewrite andb_true_r.
    destruct (c =? 46) eqn:E; [rewrite (Hc eq_refl)|]; cbn [andb negb]; [by apply (Hdot 2)|].
    rewrite andb_true_r. destruct (isdigit c) eqn:Dc; cbn [negb]; [|agree].
    replace ((a' ++ [x; y]) ++ c :: s ++ rest) with (a' ++ x :: y :: c :: s ++ rest) in *
      by (by rewrite <- app_assoc).
    rewrite rd_back2, rd_back1.
    cbn [mbind outcome_bind]. destruct (strncmp_255 x y c Hx Hy Dc) as (r & Er & Hr). rewrite Er.
    cbn [mbind outcome_bind]. rewrite Hr. destruct (255 <? _); [agree|].
    apply Hgo. right. right. by right.
  - change (3 =? 0) with false. change (3 =? 3) with true. change (3 <? 3) with false.
    rewrite andb_false_r. destruct (c =? 46) eqn:E; cbn [andb negb]; [by apply (Hdot 3)|]. agree.
Qed.

Lemma count_matches_text ks s rest :
  Forall char_ok s -> Forall (Forall char_ok) ks ->
  count_matches (s ++ rest) (Zlen s) ks = Ok (Z.of_nat (length (filter (fun kw => prefixb s kw) ks))).
Proof.
  intros Hs Hk. induction Hk as [|kw ks Hkw Hks IH]; [done|]. cbn [count_matches].
  replace (Z.to_nat (Zlen s)) with (length s) by (unfold Zlen; lia).
  destruct (strncmp_spec s kw rest Hs Hkw) as (r & Er & Hr). rewrite Er. cbn [mbind outcome_bind].
  rewrite IH. cbn [mbind outcome_bind]. rewrite Hr, filter_cons.
  destruct (prefixb s kw) eqn:Ep; [rewrite decide_True by done | rewrite decide_False by (by intros [])];
    [simpl; f_equal; lia | done].
Qed.

Lemma prefixb_length s : forall kw, prefixb s kw = true -> (length s <= length kw)%nat.
Proof.
  induction s as [|x s IH]; intros [|y kw]; simpl; try done; [lia|].
  intros [_ H]%andb_prop. apply IH in H. lia.
Qed.

Lemma is_type_in node t ts : n_type node = t -> t ∈ ts -> is_type node ts = true.
Proof. intros <- Ht. by apply bool_decide_eq_true_2. Qed.

(** Every match function says of the token what the text says, and reads nothing
    beyond it. *)
Lemma match_node_text node s rest :
  node_ok node -> Forall char_ok s -> s <> [] ->
  agrees (match_node (s ++ rest) (Zlen s) node) (match_text node s).
Proof.
  intros Hn Hs Hne. unfold match_node, match_text, node_ok in *.
  destruct (n_type node) eqn:Et; try done; cbn [cparser_match_fn_tbl].
  - unfold cparser_match_end. rewrite (is_type_in _ _ _ Et) by (rewrite !elem_of_cons; tauto). agree.
  - destruct (n_param node) as [kw| |] eqn:Ep; try done.
    unfold cparser_match_keyword, param_str. rewrite (is_type_in _ _ _ Et) by (rewrite !elem_of_cons; tauto). rewrite Ep.
    cbn [assert_ mbind outcome_bind].
    destruct (Zlen kw <? Zlen s) eqn:El; zify_bool.
    + destruct (prefixb s kw) eqn:Epre; [|agree]. apply prefixb_length in Epre. unfold Zlen in El. lia.
    + replace (Z.to_nat (Zlen s)) with (length s) by (unfold Zlen; lia).
      destruct (strncmp_spec s kw rest Hs Hn) as (r & Er & Hr). rewrite Er. cbn [mbind outcome_bind].
      rewrite Hr. destruct (prefixb s kw); agree.
  - unfold cparser_match_string. rewrite (is_type_in _ _ _ Et) by (rewrite !elem_of_cons; tauto). agree.
  - apply match_uint_text; [|done]. apply (is_type_in _ _ _ Et). (rewrite !elem_of_cons; tauto).
  - apply match_uint_text; [|done]. apply (is_type_in _ _ _ Et). (rewrite !elem_of_cons; tauto).
  - apply match_int_text; [|done]. apply (is_type_in _ _ _ Et). (rewrite !elem_of_cons; tauto).
  - apply match_int_text; [|done]. apply (is_type_in _ _ _ Et). (rewrite !elem_of_cons; tauto).
  - apply match_hex_text; [|done]. apply (is_type_in _ _ _ Et). (rewrite !elem_of_cons; tauto).
  - apply match_hex_text; [|done]. apply (is_type_in _ _ _ Et). (rewrite !elem_of_cons; tauto).
  - apply match_float_text; [|done]. apply (is_type_in _ _ _ Et). (rewrite !elem_of_cons; tauto).
  - unfold cparser_match_macaddr. rewrite (is_type_in _ _ _ Et) by (rewrite !elem_of_cons; tauto). cbn [assert_ mbind outcome_bind].
    replace (Z.to_nat (Zlen s)) with (length s) by (unfold Zlen; lia).
    apply (mac_loop_text s [] rest). lia.
  - unfold cparser_match_ipv4addr. rewrite (is_type_in _ _ _ Et) by (rewrite !elem_of_cons; tauto). cbn [assert_ mbind outcome_bind].
    replace (Z.to_nat (Zlen s)) with (length s) by (unfold Zlen; lia).
    apply (ipv4_loop_text s [] rest). by left.
  - unfold cparser_match_file. rewrite (is_type_in _ _ _ Et) by (rewrite !elem_of_cons; tauto). agree.
  - destruct (n_param node) as [|ks|] eqn:Ep; try done. destruct Hn as [Hks Hn].
    unfold cparser_match_list, param_list. rewrite (is_type_in _ _ _ Et) by (rewrite !elem_of_cons; tauto). rewrite Ep.
    cbn [assert_ mbind outcome_bind]. rewrite bool_decide_eq_false_2 by done.
    cbn [negb assert_ mbind outcome_bind]. rewrite count_matches_text by done. cbn [mbind outcome_bind].
    unfold list_text. destruct (length (filter _ ks)) as [|[|k]]; [agree..|].
    eexists. split; [done|]. cbn [verdict].
    rewrite (proj2 (Z.eqb_neq _ 0)) by lia. by rewrite (proj2 (Z.eqb_neq _ 1)) by lia.
Qed.
