(* ===== verification/CliValue.v ===== *)
(** * CLI parser: the values of tokens

    What the get functions of cparser_token.c (modelled in CliToken) return for a
    token that their match function accepts: numbers with their overflow behaviour,
    addresses, and the keyword of a list. *)

From stdpp Require Import base numbers list list_numbers.
From S2P Require Import Prelude CliLine CliToken.

#[local] Open Scope Z_scope.

(** A token whose characters are [s], closed by a NUL. *)
Definition has_text (tok : cparser_token_t) (s : list Z) : Prop :=
  token_len tok = Zlen s /\ exists rest, tbuf tok = s ++ 0 :: rest.

Definition dec_val (s : list Z) : Z := foldl (fun v c => v * 10 + (c - 48)) 0 s.

Definition hex_char (c : Z) : Z :=
  if isdigit c then c - 48 else if (97 <=? c) && (c <=? 102) then c - 87 else c - 55.

Definition hex_val (s : list Z) : Z := foldl (fun v c => v * 16 + hex_char c) 0 s.

(** ** Decimal numbers *)

Section Width.
Variable wrap : Z -> Z.
Variable M : Z.
Hypothesis wrap_mod : forall z, wrap z = z `mod` M.
Hypothesis M_big : 16 <= M.

(** One step of the loop: the test on the new value fires exactly when ten times the old
    one does not fit, whatever the digit adds. *)
Lemma uint_test old d :
  0 <= old < M -> 0 <= d <= 9 ->
  (wrap (wrap (wrap (old * 10) + d) - d) `div` 10 =? old) = (old * 10 <? M).
Proof.
  intros Ho Hd. rewrite !wrap_mod.
  replace (((((old * 10) `mod` M + d) `mod` M) - d) `mod` M) with ((old * 10) `mod` M).
  2: { rewrite Zminus_mod_idemp_l. rewrite Z.add_simpl_r. by rewrite Z.mod_mod by lia. }
  destruct (old * 10 <? M) eqn:E; zify_bool.
  - rewrite Z.mod_small by lia. rewrite Z.div_mul by lia. lia.
  - apply Z.eqb_neq. intros H. pose proof (Z.mod_pos_bound (old * 10) M ltac:(lia)).
    assert ((old * 10) `mod` M <= old * 10 - M).
    { pose proof (Z.div_mod (old * 10) M ltac:(lia)).
      assert (1 <= (old * 10) `div` M) by (apply Z.div_le_lower_bound; lia). nia. }
    assert ((old * 10) `mod` M `div` 10 < old) by (apply Z.div_lt_upper_bound; lia). lia.
Qed.

(** What the loop computes on digits, over the mathematical integers. *)
Fixpoint uint_run (s : list Z) (old : Z) : option Z :=
  match s with
  | [] => Some old
  | c :: s => if old * 10 <? M then uint_run s ((old * 10 + (c - 48)) `mod` M) else None
  end.

Lemma uint_loop_run s : forall a rest old,
  forallb isdigit s = true -> 0 <= old < M ->
  uint_loop wrap (length s) (a ++ s ++ rest) (Zlen a) old = Ok (uint_run s old).
Proof.
  induction s as [|c s IH]; intros a rest old Hs Ho; [done|].
  cbn [forallb] in Hs. apply andb_prop in Hs as [Hc Hs]. cbn [length uint_loop app uint_run].
  rewrite rd_at by done. cbn [mbind outcome_bind].
  change ((48 <=? c) && (c <=? 57)) with (isdigit c). rewrite Hc. cbn [mbind outcome_bind].
  unfold isdigit in Hc. rewrite uint_test by (zify_bool; lia).
  destruct (old * 10 <? M); [cbn [negb]|done].
  replace (a ++ c :: s ++ rest) with ((a ++ [c]) ++ s ++ rest) by (by rewrite <- app_assoc).
  replace (Zlen a + 1) with (Zlen (a ++ [c])) by (by rewrite Zlen_app).
  rewrite !wrap_mod, Zplus_mod_idemp_l. apply IH; [done|]. apply Z.mod_pos_bound. lia.
Qed.

Lemma dec_val_from s v : foldl (fun v c => v * 10 + (c - 48)) v s = v * 10 ^ Zlen s + dec_val s.
Proof.
  unfold dec_val. revert v. induction s as [|c s IH]; intros v.
  - change (Zlen []) with 0. cbn [foldl]. lia.
  - cbn [foldl]. rewrite IH, (IH (0 * 10 + _)), Zlen_cons, Z.pow_add_r by (pose proof (Zlen_nonneg s); lia).
    lia.
Qed.

Lemma dec_val_nonneg s : forallb isdigit s = true -> 0 <= dec_val s.
Proof.
  induction s as [|c s IH]; [done|]. cbn [forallb]. intros [Hc Hs]%andb_prop.
  unfold dec_val. cbn [foldl]. rewrite dec_val_from. unfold isdigit in Hc. zify_bool.
  specialize (IH Hs). assert (0 <= 10 ^ Zlen s) by (apply Z.pow_nonneg; lia). nia.
Qed.

Lemma uint_run_fits s : forall old,
  forallb isdigit s = true -> 0 <= old -> foldl (fun v c => v * 10 + (c - 48)) old s < M ->
  uint_run s old = Some (foldl (fun v c => v * 10 + (c - 48)) old s).
Proof.
  induction s as [|c s IH]; intros old Hs Ho Hv; [done|].
  cbn [forallb] in Hs. apply andb_prop in Hs as [Hc Hs]. cbn [uint_run foldl] in *.
  unfold isdigit in Hc. assert (Hlow : old * 10 + (c - 48) < M).
  { rewrite dec_val_from in Hv. pose proof (dec_val_nonneg s Hs).
    assert (1 <= 10 ^ Zlen s) by (apply (Z.pow_le_mono_r 10 0); [lia | apply Zlen_nonneg]).
    zify_bool. nia. }
  rewrite (proj2 (Z.ltb_lt _ _)) by (zify_bool; lia). rewrite Z.mod_small by (zify_bool; lia).
  apply IH; [done | zify_bool; lia | done].
Qed.

Lemma uint_run_mod s : forall old v, uint_run s old = Some v -> 0 <= old < M ->
  v = foldl (fun v c => v * 10 + (c - 48)) old s `mod` M.
Proof.
  induction s as [|c s IH]; intros old v; cbn [uint_run foldl].
  - intros [= <-] Ho. by rewrite Z.mod_small.
  - destruct (_ <? M); [|done]. intros H Ho.
    rewrite (IH _ _ H) by (apply Z.mod_pos_bound; lia). rewrite !dec_val_from.
    rewrite <- Zplus_mod_idemp_l, Zmult_mod_idemp_l, Zplus_mod_idemp_l. done.
Qed.

Lemma uint_run_snoc s d : forall old,
  0 <= old -> forallb isdigit s = true -> foldl (fun v c => v * 10 + (c - 48)) old s < M ->
  uint_run (s ++ [d]) old =
  let v := foldl (fun v c => v * 10 + (c - 48)) old s in
  if v * 10 <? M then Some ((v * 10 + (d - 48)) `mod` M) else None.
Proof.
  intros old Ho Hs Hv. pose proof (uint_run_fits s old Hs Ho Hv) as Hfit.
  revert Hfit. generalize (foldl (fun v c => v * 10 + (c - 48)) old s) as v. clear Hs Hv Ho.
  revert old. induction s as [|c s IH]; intros old v; cbn [uint_run app].
  - by intros [= ->].
  - destruct (_ <? M); [|done]. apply IH.
Qed.

(** ** Hexadecimal numbers *)

Hypothesis M_16 : M `mod` 16 = 0.

Lemma hex_char_range c : isxdigit c = true -> 0 <= hex_char c <= 15.
Proof.
  unfold isxdigit, hex_char, isdigit. intros H.
  destruct ((48 <=? c) && (c <=? 57)) eqn:E1; [zify_bool; lia|].
  destruct ((97 <=? c) && (c <=? 102)) eqn:E2; [zify_bool; lia|].
  cbn [orb] in H. rewrite orb_false_r in H. zify_bool. lia.
Qed.




End Width.

(** ** The get functions *)

Lemma rd_holds_0 tok c s : has_text tok (c :: s) -> rd (tbuf tok) 0 = Ok c.
Proof. by intros [_ [rest ->]]. Qed.


Lemma holds_len_pos tok c s : has_text tok (c :: s) -> (token_len tok =? 0) = false.
Proof. intros [-> _]. apply Z.eqb_neq. zl. Qed.

(** [is_hex]: the token reads "0x...". *)
Definition is_hex (s : list Z) : bool :=
  match s with _ :: c :: _ => c =? 120 | _ => false end.

Lemma digits_not_hex s : forallb isdigit s = true -> is_hex s = false.
Proof.
  destruct s as [|a [|c s]]; [done..|]. cbn [forallb is_hex].
  intros [_ [Hc _]%andb_prop]%andb_prop.
  unfold isdigit in Hc. apply Z.eqb_neq. zify_bool. lia.
Qed.

(** What reading the unsigned number [s] into [M]-sized words gives: the value when it
    fits; never a value of another residue; a hexadecimal number is refused exactly when it
    does not fit, but of the decimal numbers below [10 * M] that do not fit the first
    four are taken, wrapped. *)
Definition unsigned_result (M : Z) (s : list Z) (r : cparser_result_t * Z) : Prop :=
  let '(rc, v) := r in
  if is_hex s then
    let n := hex_val (drop 2 s) in
    (n < M -> rc = CPARSER_OK /\ v = n) /\ (M <= n -> rc = CPARSER_NOT_OK)
  else
    let n := dec_val s in
    (n < M -> rc = CPARSER_OK /\ v = n) /\
    (M <= n < 10 * M -> rc = CPARSER_OK <-> n < M + 4) /\
    (rc = CPARSER_OK -> v = n `mod` M).

Lemma decimal_result wrap M s rest a :
  (forall z, wrap z = z `mod` M) -> 16 <= M -> M `mod` 10 = 6 ->
  forallb isdigit s = true -> is_hex s = false ->
  exists o, uint_loop wrap (length s) (a ++ s ++ rest) (Zlen a) 0 = Ok o /\
            unsigned_result M s (store o).
Proof.
  intros Hw HM H6 Hs Hx. exists (uint_run M s 0). split; [apply uint_loop_run; auto; lia|].
  unfold unsigned_result. destruct (store (uint_run M s 0)) as [rc v] eqn:Est. rewrite Hx.
  split; [|split].
  - intros Hn. rewrite (uint_run_fits M HM s 0 Hs ltac:(lia) Hn) in Est. by injection Est as <- <-.
  - destruct s as [|d p _] using rev_ind; [cbn; lia|].
    rewrite forallb_app in Hs. apply andb_prop in Hs as [Hp [Hd _]%andb_prop].
    unfold isdigit in Hd. unfold dec_val. rewrite foldl_app. cbn [foldl]. fold (dec_val p). intros Hn.
    pose proof (dec_val_nonneg p Hp) as H0.
    rewrite (uint_run_snoc M HM p d 0 ltac:(lia) Hp) in Est by (fold (dec_val p); zify_bool; lia).
    cbv zeta in Est. fold (dec_val p) in Est. pose proof (Z.div_mod M 10 ltac:(lia)).
    destruct (dec_val p * 10 <? M) eqn:E; injection Est as <- <-; zify_bool; split; intros; done || lia.
  - intros ->. destruct (uint_run M s 0) as [n|] eqn:E; [|done]. injection Est as <-.
    apply (uint_run_mod M HM s 0); [done|lia].
Qed.


Lemma len_nat (s : list Z) : Z.to_nat (Zlen s) = length s.
Proof. unfold Zlen. lia. Qed.

(** A match function that accepts a token completely accepts its text so. *)
Lemma complete_text (f : list Z -> Z -> cparser_node_t -> outcome match_result) text node tok s :
  (forall rest, agrees (f (s ++ rest) (Zlen s) node) text) -> has_text tok s ->
  f (tbuf tok) (token_len tok) node = Ok (CPARSER_OK, true) -> text = Some true.
Proof.
  intros Hf [Hlen [rest Hb]] Hm. rewrite Hlen, Hb in Hm. destruct (Hf (0 :: rest)) as (r & Hr & <-).
  rewrite Hm in Hr. by injection Hr as <-.
Qed.


Lemma is_type_two node t1 t2 : is_type node [t1; t2] = true -> n_type node = t1 \/ n_type node = t2.
Proof. unfold is_type. rewrite bool_decide_eq_true, !elem_of_cons, elem_of_nil. tauto. Qed.





(** ** Signed numbers *)

(** The sign of the text and its digits. *)
Definition split_sign (s : list Z) : Z * list Z :=
  match s with
  | c :: s' => if c =? 45 then (-1, s') else if c =? 43 then (1, s') else (1, s)
  | [] => (1, [])
  end.

(** With [H] = 2^(w-1): when the digits fit 2^w the number is returned exactly when it lies in
    -H .. H - 1; otherwise what is returned is congruent to it. *)
Definition signed_result (H : Z) (s : list Z) (r : cparser_result_t * Z) : Prop :=
  let '(rc, v) := r in
  let '(sg, ds) := split_sign s in
  let n := dec_val ds in
  (n < 2 * H -> if bool_decide (- H <= sg * n < H) then rc = CPARSER_OK /\ v = sg * n
                else rc = CPARSER_NOT_OK) /\
  (rc = CPARSER_OK -> - H <= v < H /\ v `mod` (2 * H) = (sg * n) `mod` (2 * H)).

Lemma int_text_complete s : int_text s = Some true ->
  forallb isdigit (snd (split_sign s)) = true /\ snd (split_sign s) <> [] /\ s <> [].
Proof.
  unfold int_text, split_sign. destruct s as [|c s]; [done|].
  destruct (c =? 45) eqn:E1; [|destruct (c =? 43) eqn:E2]; cbn [snd].
  - apply Z.eqb_eq in E1 as ->. change (isdigit 45) with false. cbn [orb].
    destruct (forallb isdigit s); [|done]. case_bool_decide; done.
  - apply Z.eqb_eq in E2 as ->. change (isdigit 43) with false. cbn [orb].
    destruct (forallb isdigit s); [|done]. case_bool_decide; done.
  - rewrite !orb_false_r. cbn [forallb]. destruct (isdigit c); [|done].
    by destruct (forallb isdigit s).
Qed.

(** The branches of [cparser_get_int] on the magnitude it has read. *)
Lemma signed_branches (H : Z) (cast : Z -> Z) sg tmp :
  0 < H -> (forall z, cast z = (z + H) `mod` (2 * H) - H) -> sg = 1 \/ sg = -1 -> 0 <= tmp < 2 * H ->
  (if sg =? 1 then if H - 1 <? tmp then (CPARSER_NOT_OK, 0) else (CPARSER_OK, cast tmp)
   else if H <? tmp then (CPARSER_NOT_OK, 0) else (CPARSER_OK, cast (- cast tmp))) =
  if bool_decide (- H <= sg * tmp < H) then (CPARSER_OK, sg * tmp) else (CPARSER_NOT_OK, 0).
Proof.
  intros HH Hc Hsg Ht.
  assert (Hid : forall z, - H <= z < H -> cast z = z) by (intros z Hz; rewrite Hc, Z.mod_small; lia).
  assert (HcH : cast H = - H).
  { rewrite Hc. replace (H + H) with (0 + 1 * (2 * H)) by lia. rewrite Z.mod_add, Z.mod_0_l; lia. }
  destruct Hsg as [-> | ->]; cbn [Z.eqb Pos.eqb].
  - destruct (H - 1 <? tmp) eqn:E; zify_bool; try lia; [done|].
    rewrite Hid by lia. f_equal. lia.
  - destruct (H <? tmp) eqn:E; zify_bool; try lia; [done|]. f_equal.
    destruct (decide (tmp = H)) as [->|Hne].
    + rewrite HcH, Z.opp_involutive, HcH. lia.
    + rewrite (Hid tmp), Hid; lia.
Qed.

Lemma signed_get wrap cast H tok s :
  let M := 2 * H in
  (forall z, wrap z = z `mod` M) -> (forall z, cast z = (z + H) `mod` M - H) ->
  16 <= M -> M `mod` 10 = 6 -> has_text tok s -> int_text s = Some true ->
  exists r, get_int (fun token from len =>
              o ← uint_loop wrap (Z.to_nat len) token from 0; Ok (store o)) cast H tok = Ok r /\
            signed_result H s r.
Proof.
  intros M Hw Hcast HM H10 Ht Hs. destruct (int_text_complete s Hs) as (Hd & Hdne & Hne).
  unfold get_int, signed_result. destruct s as [|c s]; [done|].
  rewrite (holds_len_pos _ _ _ Ht), (rd_holds_0 _ _ _ Ht). destruct Ht as [Hl [rest Hb]].
  rewrite Hl, Hb, (proj2 (Z.ltb_lt 0 _)) by zl. cbn [assert_ mbind outcome_bind].
  set (sg := if c =? 45 then -1 else 1). set (pos := if (c =? 45) || (c =? 43) then 1 else 0).
  assert (Hsplit : exists a, c :: s = a ++ snd (split_sign (c :: s)) /\ pos = Zlen a /\
                             fst (split_sign (c :: s)) = sg).
  { unfold pos, sg, split_sign. destruct (c =? 45); [by exists [c]|].
    destruct (c =? 43); [by exists [c] | by exists []]. }
  destruct Hsplit as (a & Ha & -> & Hsg). destruct (split_sign (c :: s)) as [sg' ds] eqn:Esp.
  cbn [fst snd] in *. subst sg'.
  replace (Z.to_nat (Zlen (c :: s) - Zlen a)) with (length ds) by (rewrite Ha; unfold Zlen; rewrite length_app; lia).
  rewrite Ha, <- app_assoc.
  destruct (decimal_result wrap M ds (0 :: rest) a Hw HM H10 Hd (digits_not_hex ds Hd)) as (o & Eo & Ho).
  rewrite Eo. cbn [mbind outcome_bind]. destruct (store o) as [rc tmp] eqn:Est.
  assert (Hrange : rc = CPARSER_OK -> 0 <= tmp < M).
  { intros ->. unfold unsigned_result in Ho. rewrite (digits_not_hex ds Hd) in Ho.
    destruct Ho as (_ & _ & Hv). rewrite (Hv eq_refl). apply Z.mod_pos_bound. lia. }
  unfold unsigned_result in Ho. rewrite (digits_not_hex ds Hd) in Ho. cbv zeta in Ho.
  destruct Ho as (Hfit & _ & Hmod).
  case_bool_decide as Erc; cbn [negb].
  2: { eexists. split; [reflexivity|]. cbv beta iota zeta. split; [|done].
       intros Hn. destruct (Hfit Hn) as [-> _]. done. }
  subst rc. specialize (Hrange eq_refl). specialize (Hmod eq_refl).
  assert (Hbr := signed_branches H cast sg tmp ltac:(lia) Hcast ltac:(unfold sg; destruct (c =? 45); lia) Hrange).
  eexists. split.
  { transitivity (@Ok (cparser_result_t * Z)
      (if bool_decide (- H <= sg * tmp < H) then (CPARSER_OK, sg * tmp) else (CPARSER_NOT_OK, 0))); [|reflexivity].
    rewrite <- Hbr. destruct (sg =? 1), (H - 1 <? tmp), (H <? tmp); reflexivity. }
  case_bool_decide as Hin.
  - split.
    + intros Hn. destruct (Hfit Hn) as [_ ->]. by rewrite bool_decide_eq_true_2.
    + intros _. split; [done|]. rewrite Hmod. unfold M. by rewrite Zmult_mod_idemp_r.
  - split; [|done]. intros Hn. destruct (Hfit Hn) as [_ ->]. by rewrite bool_decide_eq_false_2.
Qed.

Lemma match_int_asserts token len node r :
  cparser_match_int token len node = Ok r ->
  is_type node [CPARSER_NODE_INT; CPARSER_NODE_INT64] = true /\ 0 < len.
Proof.
  unfold cparser_match_int. destruct (is_type node _); [|done]. cbn [assert_ mbind outcome_bind].
  destruct (0 <? len) eqn:E; [|done]. zify_bool. done.
Qed.

(** a token that [cparser_match_int] accepts completely is read by [cparser_get_int] and
    [cparser_get_int64] without a failed assertion: when its digits fit an unsigned word, the
    signed value is returned exactly when the signed word holds it, the smallest value
    included; whatever is returned is congruent to the number written. *)
Lemma signed_token_values node tok s :
  has_text tok s -> cparser_match_int (tbuf tok) (token_len tok) node = Ok (CPARSER_OK, true) ->
  (exists r, cparser_get_int tok = Ok r /\ signed_result 2147483648 s r) /\
  (exists r, cparser_get_int64 tok = Ok r /\ signed_result 9223372036854775808 s r).
Proof.
  intros Ht Hm. destruct (match_int_asserts _ _ _ _ Hm) as [Hn Hl].
  assert (Htext : int_text s = Some true).
  { apply (complete_text cparser_match_int (int_text s) node tok s); [|done..]. intros rest.
    apply match_int_text; [done|]. intros ->. destruct Ht as [H0 _]. rewrite H0 in Hl. done. }
  split; [apply (signed_get u32) | apply (signed_get u64)]; done.
Qed.

(** The smallest 32-bit value. *)
Lemma signed_token_values_witness :
  exists tok, let s := [45;50;49;52;55;52;56;51;54;52;56] in
    has_text tok s /\
    (exists r, cparser_get_int tok = Ok r /\ signed_result 2147483648 s r /\
               r = (CPARSER_OK, -2147483648)).
Proof.
  set (s := [45;50;49;52;55;52;56;51;54;52;56]). set (tok := Token 0 11 (s ++ [0; 0]) None None).
  set (node := Node CPARSER_NODE_INT 0 (PStr []) None []).
  assert (Ht : has_text tok s) by (split; [reflexivity | exists [0]; reflexivity]).
  destruct (signed_token_values node tok s Ht eq_refl) as [(r1 & E1 & H1) _].
  exists tok. split; [exact Ht|]. exists r1. split; [assumption | split; [assumption|]].
  vm_compute in E1. congruence.
Defined.

(** ** Addresses *)

(** [g1 <sep> g2 <sep> ...]: what follows the first group. *)
Definition tail_groups (sep : Z) (gs : list (list Z)) : list Z := concat (cons sep <$> gs).

Definition base_val (base : Z) (g : list Z) : Z := if base =? 16 then hex_val g else dec_val g.
Definition base_digit (base : Z) : Z -> bool := if base =? 16 then isxdigit else isdigit.

Lemma digit_val_dec c : isdigit c = true -> digit_val 10 c = Some (c - 48).
Proof.
  intros Hc. unfold digit_val. rewrite Hc. unfold isdigit in Hc.
  by rewrite (proj2 (Z.ltb_lt _ _)) by (zify_bool; lia).
Qed.

Lemma digit_val_hex c : isxdigit c = true -> digit_val 16 c = Some (hex_char c).
Proof.
  intros Hc. pose proof (hex_char_range c Hc). unfold digit_val, hex_char, isxdigit in *.
  destruct (isdigit c) eqn:D; [by rewrite (proj2 (Z.ltb_lt _ _)) by lia|]. cbn [orb] in Hc.
  destruct ((97 <=? c) && (c <=? 102)) eqn:E.
  - assert (Hx : (97 <=? c) && (c <=? 122) = true) by (zify_bool; apply andb_true_intro; lia).
    rewrite Hx. by rewrite (proj2 (Z.ltb_lt _ _)) by lia.
  - rewrite orb_false_r in Hc.
    assert (Hx : (97 <=? c) && (c <=? 122) = false) by (apply andb_false_iff; left; zify_bool; lia).
    assert (Hy : (65 <=? c) && (c <=? 90) = true) by (zify_bool; apply andb_true_intro; lia).
    rewrite Hx, Hy. by rewrite (proj2 (Z.ltb_lt _ _)) by lia.
Qed.

Section Scan.
Variables base sep : Z.
Hypothesis base_case : base = 10 \/ base = 16.
Hypothesis sep_none : digit_val base sep = None.

Definition stops (t : list Z) : Prop := match t with [] => True | c :: _ => digit_val base c = None end.

Lemma scan_digits_group g : forall t acc any,
  forallb (base_digit base) g = true -> stops t ->
  scan_digits base (g ++ t) acc any =
  (foldl (fun v c => v * base + (if base =? 16 then hex_char c else c - 48)) acc g,
   if bool_decide (g = []) then any else true, t).
Proof.
  induction g as [|c g IH]; intros t acc any Hg Ht; cbn [app foldl].
  - destruct t as [|c t]; [done|]. cbn [scan_digits stops] in *. by rewrite Ht.
  - cbn [forallb] in Hg. apply andb_prop in Hg as [Hc Hg]. cbn [scan_digits].
    assert (Hv : digit_val base c = Some (if base =? 16 then hex_char c else c - 48)).
    { unfold base_digit in Hc. destruct base_case as [-> | ->]; cbn [Z.eqb Pos.eqb] in *;
        [by apply digit_val_dec | by apply digit_val_hex]. }
    rewrite Hv, IH by done. by case_bool_decide.
Qed.

Lemma base_val_fold g : base_val base g =
  foldl (fun v c => v * base + (if base =? 16 then hex_char c else c - 48)) 0 g.
Proof. unfold base_val, hex_val, dec_val. by destruct base_case as [-> | ->]. Qed.

Lemma digit_plain c : base_digit base c = true ->
  isspace c = false /\ c <> 45 /\ c <> 43 /\ c <> 120 /\ c <> 88.
Proof.
  unfold base_digit, isspace, isxdigit, isdigit. destruct (base =? 16); intros Hc.
  - split; [destruct (c =? 32) eqn:?, (9 <=? c) eqn:?, (c <=? 13) eqn:?; zify_bool; try done; lia|].
    zify_bool. lia.
  - split; [destruct (c =? 32) eqn:?, (9 <=? c) eqn:?, (c <=? 13) eqn:?; zify_bool; try done; lia|].
    zify_bool. lia.
Qed.

Lemma scan_ulong_group g t :
  forallb (base_digit base) g = true -> g <> [] -> stops t -> digit_val base 120 = None ->
  (match t with 120 :: _ | 88 :: _ => False | _ => True end) -> 0 <= base_val base g <= ULONG_MAX ->
  scan_ulong base (g ++ t) = Some (base_val base g, t).
Proof.
  intros Hg Hne Ht Hx Hnx Hv. destruct g as [|c g]; [done|].
  pose proof Hg as Hg0. cbn [forallb] in Hg. apply andb_prop in Hg as [Hc Hg].
  destruct (digit_plain c Hc) as (Hs & H45 & H43 & _).
  unfold scan_ulong. cbn [app skip_spaces]. rewrite Hs, (proj2 (Z.eqb_neq _ _) H45), (proj2 (Z.eqb_neq _ _) H43).
  assert (Hno : match c :: g ++ t with
                | a :: b :: s' => if (base =? 16) && (a =? 48) && ((b =? 120) || (b =? 88)) then s' else c :: g ++ t
                | _ => c :: g ++ t end = c :: g ++ t).
  { destruct (g ++ t) as [|b u] eqn:E; [done|].
    assert (Hb : (b =? 120) || (b =? 88) = false).
    { destruct g as [|b' g]; cbn [app] in E.
      - subst t. apply orb_false_iff; split; apply Z.eqb_neq; intros ->; done.
      - injection E as -> _. cbn [forallb] in Hg. apply andb_prop in Hg as [Hb _].
        apply digit_plain in Hb. apply orb_false_iff; split; apply Z.eqb_neq; tauto. }
    by rewrite Hb, andb_false_r. }
  rewrite Hno. change (c :: g ++ t) with ((c :: g) ++ t). rewrite scan_digits_group by done.
  rewrite <- base_val_fold. rewrite (proj2 (Z.ltb_ge _ _)) by lia. by case_bool_decide.
Qed.

Hypothesis sep_plain : sep <> 120 /\ sep <> 88.

Definition group_ok (g : list Z) : Prop :=
  g <> [] /\ forallb (base_digit base) g = true /\ 0 <= base_val base g <= ULONG_MAX.

Lemma sscanf_groups gs : forall g,
  Forall group_ok (g :: gs) ->
  sscanf_seq base sep (S (length gs)) (g ++ tail_groups sep gs) = base_val base <$> g :: gs.
Proof.
  assert (H120 : digit_val base 120 = None) by (by destruct base_case as [-> | ->]).
  induction gs as [|h gs IH]; intros g Hg; apply Forall_cons in Hg as [(Hne & Hd & Hv) Hgs];
    cbn [sscanf_seq length].
  - rewrite scan_ulong_group by done. done.
  - rewrite scan_ulong_group; [|done..| |done].
    2: { cbn. destruct sep_plain as [H1 H2]. destruct sep as [|q|]; [done| |done].
         do 7 (destruct q as [q|q|]; try done). }
    cbn [tail_groups fmap list_fmap concat app]. rewrite Z.eqb_refl.
    change (h ++ concat (cons sep <$> gs)) with (h ++ tail_groups sep gs). f_equal.
    apply (IH h Hgs).
Qed.
End Scan.

(** The text of a complete IPv4 address: what is left of the current group, and the groups
    after it. *)
Lemma ipv4_text_groups s : forall nd ndot v,
  ipv4_text s nd ndot v = Some true -> 0 <= nd -> 0 <= v ->
  exists g gs, s = g ++ tail_groups 46 gs /\ Z.of_nat (length gs) = 3 - ndot /\
    forallb isdigit g = true /\ (nd = 0 -> g <> []) /\
    foldl (fun v c => v * 10 + (c - 48)) v g <= Z.max v 255 /\
    Forall (fun h => h <> [] /\ forallb isdigit h = true /\ dec_val h <= 255) gs.
Proof.
  induction s as [|c s IH]; intros nd ndot v; cbn [ipv4_text].
  - destruct (ndot =? 3) eqn:E1, (0 <? nd) eqn:E2; cbn [andb]; try done. intros _ Hnd Hv. zify_bool.
    exists [], []. cbn. repeat split; [lia | lia | lia | done].
  - destruct (isdigit c && (nd <? 3)) eqn:E.
    + destruct (255 <? v * 10 + (c - 48)) eqn:E2; [done|]. intros H Hnd Hv. zify_bool.
      unfold isdigit in *. zify_bool.
      destruct (IH (nd + 1) ndot (v * 10 + (c - 48)) H) as (g & gs & -> & Hl & Hd & Hn & Hval & Hgs); [lia..|].
      exists (c :: g), gs. cbn [foldl forallb app]. repeat split; try done; [|lia].
      unfold isdigit. rewrite Hd. rewrite !andb_true_iff. repeat split; lia.
    + destruct ((c =? 46) && (0 <? nd) && (ndot <? 3)) eqn:E2; [|done]. intros H Hnd Hv. zify_bool. subst c.
      destruct (IH 0 (ndot + 1) 0 H) as (g & gs & -> & Hl & Hd & Hn & Hval & Hgs); [lia..|].
      exists [], (g :: gs). cbn [length foldl forallb]. repeat split; try done; [|lia|lia|].
      * rewrite Nat2Z.inj_succ. lia.
      * apply Forall_cons. split; [|done]. split; [auto|]. split; [done|]. unfold dec_val. lia.
Qed.

Lemma mac_text_groups s : forall nd nc,
  mac_text s nd nc = Some true -> 0 <= nd <= 2 ->
  exists g gs, s = g ++ tail_groups 58 gs /\ Z.of_nat (length gs) = 5 - nc /\
    forallb isxdigit g = true /\ (nd = 0 -> g <> []) /\ Zlen g <= 2 - nd /\
    Forall (fun h => h <> [] /\ forallb isxdigit h = true /\ Zlen h <= 2) gs.
Proof.
  induction s as [|c s IH]; intros nd nc; cbn [mac_text].
  - destruct (nc =? 5) eqn:E1, (0 <? nd) eqn:E2; cbn [andb]; try done. intros _ Hnd. zify_bool.
    exists [], []. change (Zlen []) with 0. cbn. repeat split; [lia | lia | lia | done].
  - destruct (isxdigit c) eqn:Hx; cbn [andb].
    + destruct (nd <? 2) eqn:E; [|rewrite (proj2 (Z.eqb_neq c 58)) by (by intros ->); done].
      intros H Hnd. zify_bool.
      destruct (IH (nd + 1) nc H) as (g & gs & -> & Hl & Hd & Hn & Hlen & Hgs); [lia|].
      exists (c :: g), gs. cbn [forallb app]. rewrite Hx, Hd, Zlen_cons. repeat split; try done; lia.
    + destruct ((c =? 58) && (0 <? nd) && (nc <? 5)) eqn:E2; [|done]. intros H Hnd. zify_bool. subst c.
      destruct (IH 0 (nc + 1) H) as (g & gs & -> & Hl & Hd & Hn & Hlen & Hgs); [lia|].
      exists [], (g :: gs). change (Zlen []) with 0. cbn [length forallb]. repeat split; try done; try lia.
      apply Forall_cons. split; [|done]. split; [auto|]. split; [done|]. lia.
Qed.

Lemma hex_val_two g : forallb isxdigit g = true -> Zlen g <= 2 -> 0 <= hex_val g <= 255.
Proof.
  intros Hg Hl. destruct g as [|a [|b [|c g]]]; cbn [forallb] in Hg; rewrite ?andb_true_iff in Hg.
  - cbn. lia.
  - pose proof (hex_char_range a ltac:(tauto)). cbn. lia.
  - pose proof (hex_char_range a ltac:(tauto)). pose proof (hex_char_range b ltac:(tauto)).
    unfold hex_val. cbn [foldl]. lia.
  - zl.
Qed.

Lemma token_string_holds tok s : has_text tok s -> Forall (fun c => c <> 0) s -> token_string tok = Ok s.
Proof.
  intros [_ [rest Hb]] Hs. unfold token_string. rewrite Hb.
  apply (c_string_spec s [] rest); [done|]. rewrite length_app. cbn [length]. lia.
Qed.

(** The words of an address. *)
Definition ipv4_word (a b c d : Z) : Z := a * 16777216 + b * 65536 + c * 256 + d.

Lemma ipv4_word_lor a b c d :
  0 <= a <= 255 -> 0 <= b <= 255 -> 0 <= c <= 255 -> 0 <= d <= 255 ->
  Z.lor (Z.lor (Z.lor (u32 (Z.shiftl (u32 a) 24)) (u32 (Z.shiftl (u32 b) 16))) (u32 (Z.shiftl (u32 c) 8))) (u32 d)
  = ipv4_word a b c d.
Proof.
  intros Ha Hb Hc Hd.
  rewrite (u32_small a), (u32_small b), (u32_small c), (u32_small d) by (unfold is_u32; lia).
  assert (Hs : forall x n, 0 <= x <= 255 -> 0 <= n <= 24 -> u32 (Z.shiftl x n) = Z.shiftl x n).
  { intros x n Hx Hn. apply u32_small. rewrite Z.shiftl_mul_pow2 by lia. unfold is_u32.
    assert (0 < 2 ^ n <= 2 ^ 24) by (split; [apply Z.pow_pos_nonneg; lia | apply Z.pow_le_mono_r; lia]).
    change (2 ^ 24) with 16777216 in *. nia. }
  rewrite !Hs by lia.
  rewrite lor_shiftl_add by (rewrite ?Z.shiftl_mul_pow2 by lia; lia).
  replace (a * 2 ^ 24 + Z.shiftl b 16) with (Z.shiftl (a * 256 + b) 16)
    by (rewrite !Z.shiftl_mul_pow2 by lia; lia).
  rewrite lor_shiftl_add by (rewrite ?Z.shiftl_mul_pow2 by lia; lia).
  replace ((a * 256 + b) * 2 ^ 16 + Z.shiftl c 8) with (Z.shiftl ((a * 256 + b) * 256 + c) 8)
    by (rewrite !Z.shiftl_mul_pow2 by lia; lia).
  rewrite lor_shiftl_add by lia. unfold ipv4_word. lia.
Qed.

(** A complete address token is its groups joined by the separator. *)
Definition joined (sep : Z) (gs : list (list Z)) : list Z :=
  match gs with [] => [] | g :: gs => g ++ tail_groups sep gs end.

Lemma digit_nonzero g : forallb isxdigit g = true -> Forall (fun c => c <> 0) g.
Proof.
  intros Hg. apply Forall_forall. intros c Hc ->. rewrite forallb_forall in Hg.
  apply list_elem_of_In in Hc. by apply Hg in Hc.
Qed.

Lemma isdigit_isxdigit g : forallb isdigit g = true -> forallb isxdigit g = true.
Proof.
  rewrite !forallb_forall. intros H c Hc. unfold isxdigit. by rewrite (H c Hc).
Qed.

Lemma joined_nonzero sep g gs :
  sep <> 0 -> Forall (fun h => forallb isxdigit h = true) (g :: gs) ->
  Forall (fun c => c <> 0) (joined sep (g :: gs)).
Proof.
  intros Hs Hg. cbn [joined]. apply Forall_cons in Hg as [Hg Hgs]. apply Forall_app. split; [by apply digit_nonzero|].
  induction Hgs as [|h gs Hh Hgs IH]; [done|]. unfold tail_groups. cbn [fmap list_fmap concat app].
  apply Forall_cons. split; [done|]. apply Forall_app. split; [by apply digit_nonzero | exact IH].
Qed.

Lemma ipv4_token tok s :
  has_text tok s -> ipv4_text s 0 0 0 = Some true ->
  exists a b c d, s = joined 46 [a; b; c; d] /\
    Forall (fun g => g <> [] /\ forallb isdigit g = true /\ 0 <= dec_val g <= 255) [a; b; c; d] /\
    cparser_get_ipv4addr tok = Ok (CPARSER_OK, ipv4_word (dec_val a) (dec_val b) (dec_val c) (dec_val d)).
Proof.
  intros Ht Hs. destruct (ipv4_text_groups s 0 0 0 Hs) as (a & gs & -> & Hl & Hda & Hna & Hva & Hgs); [lia..|].
  destruct gs as [|b [|c [|d [|? ?]]]]; cbn [length] in Hl; try lia. exists a, b, c, d.
  assert (Hok : Forall (fun g => g <> [] /\ forallb isdigit g = true /\ 0 <= dec_val g <= 255) [a; b; c; d]).
  { apply Forall_cons. split.
    - repeat split; [auto | done | by apply dec_val_nonneg | unfold dec_val; lia].
    - eapply Forall_impl; [exact Hgs|]. intros g (Hg1 & Hg2 & Hg3).
      repeat split; [done.. | by apply dec_val_nonneg | done]. }
  split; [done|]. split; [done|]. change (a ++ tail_groups 46 [b; c; d]) with (joined 46 [a; b; c; d]) in *.
  unfold cparser_get_ipv4addr.
  assert (Hlen : (token_len tok =? 0) = false).
  { destruct Ht as [-> _]. apply Z.eqb_neq. cbn [joined tail_groups fmap list_fmap concat app]. zl. }
  rewrite Hlen, (token_string_holds tok (joined 46 [a; b; c; d]) Ht).
  2: { apply joined_nonzero; [done|]. eapply Forall_impl; [exact Hok|].
       intros g (_ & Hg & _). by apply isdigit_isxdigit. }
  cbn [mbind outcome_bind joined].
  change 4%nat with (S (length [b; c; d])).
  rewrite (sscanf_groups 10 46 ltac:(by left) eq_refl ltac:(done) [b; c; d] a).
  2: { eapply Forall_impl; [exact Hok|]. intros g (Hg1 & Hg2 & Hg3).
       split; [done|]. split; [done|]. unfold base_val, ULONG_MAX. cbn [Z.eqb Pos.eqb]. lia. }
  rewrite !Forall_cons in Hok. destruct Hok as ((_ & _ & Ha) & (_ & _ & Hb) & (_ & _ & Hc) & (_ & _ & Hd) & _).
  change (base_val 10 <$> [a; b; c; d]) with [dec_val a; dec_val b; dec_val c; dec_val d]. cbv iota.
  rewrite !(proj2 (Z.ltb_ge 255 _)) by lia. cbn [orb]. by rewrite ipv4_word_lor.
Qed.

Lemma mac_token tok s :
  has_text tok s -> mac_text s 0 0 = Some true ->
  exists gs, s = joined 58 gs /\ length gs = 6%nat /\
    Forall (fun g => g <> [] /\ forallb isxdigit g = true /\ Zlen g <= 2) gs /\
    cparser_get_macaddr tok = Ok (CPARSER_OK, hex_val <$> gs).
Proof.
  intros Ht Hs. destruct (mac_text_groups s 0 0 Hs) as (a & gs & -> & Hl & Hda & Hna & Hva & Hgs); [lia|].
  exists (a :: gs). assert (Hl6 : length (a :: gs) = 6%nat) by (cbn [length]; lia).
  assert (Hok : Forall (fun g => g <> [] /\ forallb isxdigit g = true /\ Zlen g <= 2) (a :: gs)).
  { apply Forall_cons. split; [|done]. split; [auto|]. split; [done | lia]. }
  split; [done|]. split; [done|]. split; [done|].
  change (a ++ tail_groups 58 gs) with (joined 58 (a :: gs)) in *. unfold cparser_get_macaddr.
  assert (Hlen : (token_len tok =? 0) = false).
  { destruct Ht as [-> _]. apply Z.eqb_neq. cbn [joined]. destruct a; [by destruct Hna|].
    cbn [app]. rewrite Zlen_cons. pose proof (Zlen_nonneg (a ++ tail_groups 58 gs)). lia. }
  rewrite Hlen, (token_string_holds tok (joined 58 (a :: gs)) Ht).
  2: { apply joined_nonzero; [done|]. eapply Forall_impl; [exact Hok|]. by intros g (_ & Hg & _). }
  cbn [mbind outcome_bind joined].
  assert (Hval : Forall (fun v => 0 <= v <= 255) (hex_val <$> a :: gs)).
  { apply Forall_fmap. eapply Forall_impl; [exact Hok|]. intros g (_ & Hg & Hz). by apply hex_val_two. }
  replace 6%nat with (S (length gs)) by (cbn [length] in Hl6; lia).
  rewrite (sscanf_groups 16 58 ltac:(by right) eq_refl ltac:(done) gs a).
  2: { eapply Forall_impl; [exact Hok|]. intros g (Hg1 & Hg2 & Hg3). split; [done|]. split; [done|].
       unfold base_val, ULONG_MAX. cbn [Z.eqb Pos.eqb]. pose proof (hex_val_two g Hg2 Hg3). lia. }
  change (base_val 16 <$> a :: gs) with (hex_val <$> a :: gs).
  rewrite bool_decide_eq_true_2 by (rewrite length_fmap; done). cbn [negb orb].
  assert (Hno : existsb (fun v => 255 <? v) (hex_val <$> a :: gs) = false).
  { apply not_true_is_false. rewrite existsb_exists. intros (v & Hv & H255).
    rewrite Forall_forall in Hval. apply list_elem_of_In in Hv. apply Hval in Hv. zify_bool. lia. }
  rewrite Hno. do 2 f_equal. rewrite <- (list_fmap_id (hex_val <$> a :: gs)) at 2.
  apply list_fmap_ext. intros i v Hv.   pose proof (Forall_lookup_1 _ _ _ _ Hval Hv) as Hr. cbv beta in Hr.
  unfold id. apply u8_small. unfold is_u8. lia.
Qed.

(** a token that [cparser_match_ipv4addr] accepts completely reads a.b.c.d with four decimal
    groups of at most 255, and [cparser_get_ipv4addr] returns the word of these numbers; one that
    [cparser_match_macaddr] accepts completely has six groups of one or two hexadecimal digits, and
    [cparser_get_macaddr] returns their values. *)
Lemma address_token_values node tok s :
  has_text tok s ->
  (cparser_match_ipv4addr (tbuf tok) (token_len tok) node = Ok (CPARSER_OK, true) ->
   exists a b c d, s = joined 46 [a; b; c; d] /\
     Forall (fun g => g <> [] /\ forallb isdigit g = true /\ 0 <= dec_val g <= 255) [a; b; c; d] /\
     cparser_get_ipv4addr tok =
       Ok (CPARSER_OK, ipv4_word (dec_val a) (dec_val b) (dec_val c) (dec_val d))) /\
  (cparser_match_macaddr (tbuf tok) (token_len tok) node = Ok (CPARSER_OK, true) ->
   exists gs, s = joined 58 gs /\ length gs = 6%nat /\
     Forall (fun g => g <> [] /\ forallb isxdigit g = true /\ Zlen g <= 2) gs /\
     cparser_get_macaddr tok = Ok (CPARSER_OK, hex_val <$> gs)).
Proof.
  intros Ht. split; intros Hm.
  - apply ipv4_token; [done|].
    apply (complete_text cparser_match_ipv4addr (ipv4_text s 0 0 0) node tok s); [|done..]. intros rest.
    unfold cparser_match_ipv4addr in *. destruct (is_type node _); [|done].
    cbn [assert_ mbind outcome_bind]. rewrite len_nat. apply (ipv4_loop_text s [] rest). by left.
  - apply mac_token; [done|].
    apply (complete_text cparser_match_macaddr (mac_text s 0 0) node tok s); [|done..]. intros rest.
    unfold cparser_match_macaddr in *. destruct (is_type node _); [|done].
    cbn [assert_ mbind outcome_bind]. rewrite len_nat. apply (mac_loop_text s [] rest). lia.
Qed.

(** 10.0.0.255 *)
Lemma address_token_values_witness :
  exists tok, let s := [49;48;46;48;46;48;46;50;53;53] in
    has_text tok s /\ cparser_get_ipv4addr tok = Ok (CPARSER_OK, 167772415).
Proof.
  set (s := [49;48;46;48;46;48;46;50;53;53]). set (tok := Token 0 10 (s ++ [0; 0]) None None).
  set (node := Node CPARSER_NODE_IPV4ADDR 0 (PStr []) None []).
  assert (Ht : has_text tok s) by (split; [reflexivity | exists [0]; reflexivity]).
  destruct (proj1 (address_token_values node tok s Ht) eq_refl) as (a & b & c & d & _ & _ & E).
  exists tok. split; [exact Ht|]. rewrite E. rewrite <- E. reflexivity.
Defined.

(** ** Lists and floats *)

(** [cparser_get_list] compares on the shorter of token and keyword, so a keyword that is a
    prefix of the token wins over the token itself: with the keywords "ab" and "abc" the token
    "abc" yields "ab", although [cparser_match_list] took it as the unique match "abc". *)
Lemma get_list_takes_a_shorter_keyword :
  let ab := [97; 98] in let abc := [97; 98; 99] in
  let node := Node CPARSER_NODE_LIST 0 (PList [ab; abc]) None [] in
  let tok := Token 0 3 (abc ++ [0]) None (Some node) in
  cparser_match_list (tbuf tok) 3 node = Ok (CPARSER_OK, true) /\
  cparser_get_list tok = Ok (CPARSER_OK, Some ab).
Proof. done. Qed.

(** A keyword that is a prefix of another is never a complete match. *)
Lemma match_list_never_completes ks kw kw' s rest node :
  n_type node = CPARSER_NODE_LIST -> n_param node = PList ks -> Forall (Forall char_ok) ks ->
  kw <> [] -> (exists ks1 ks2 ks3, ks = ks1 ++ kw :: ks2 ++ kw' :: ks3) -> prefixb kw kw' = true ->
  s = kw -> cparser_match_list (s ++ rest) (Zlen s) node = Ok (CPARSER_OK, false).
Proof.
  intros Ht Hp Hks Hne (ks1 & ks2 & ks3 & ->) Hpre ->.
  assert (Hkw : Forall char_ok kw) by (rewrite Forall_app, Forall_cons in Hks; tauto).
  unfold cparser_match_list, param_list. rewrite (is_type_in _ _ _ Ht) by (rewrite elem_of_cons; tauto).
  rewrite Hp. cbn [assert_ mbind outcome_bind].
  rewrite bool_decide_eq_false_2 by (by destruct ks1). cbn [negb assert_ mbind outcome_bind].
  rewrite count_matches_text by done. cbn [mbind outcome_bind].
  assert (Hself : prefixb kw kw = true).
  { clear. induction kw as [|x kw IH]; [done|]. cbn. by rewrite Z.eqb_refl. }
  rewrite !filter_app, !filter_cons, Hself, filter_app, filter_cons, Hpre, !decide_True by done.
  rewrite !length_app. cbn [length]. rewrite !length_app. cbn [length].
  rewrite (proj2 (Z.eqb_neq _ 0)), (proj2 (Z.eqb_neq _ 1)) by lia. done.
Qed.

(** A number cannot begin with its decimal point: the length test takes the point for the second
    character, and the loop then meets it once more.  "." is refused, ".5" is never complete and
    ".55" is refused. *)
Lemma match_float_leading_point node :
  n_type node = CPARSER_NODE_FLOAT ->
  cparser_match_float [46] 1 node = Ok (CPARSER_NOT_OK, false) /\
  cparser_match_float [46; 53] 2 node = Ok (CPARSER_OK, false) /\
  cparser_match_float [46; 53; 53] 3 node = Ok (CPARSER_NOT_OK, false).
Proof.
  intros Ht. unfold cparser_match_float. rewrite (is_type_in _ _ _ Ht) by (rewrite elem_of_cons; tauto).
  done.
Qed.
