(* ===== verification/CliFsm.v ===== *)
(** * CLI parser: the parser state machine (cparser_fsm.c)

    Characters go one at a time into a state machine that splits them into tokens
    and walks the parse tree; a backspace undoes the last character.  The first
    half translates cparser_fsm.c, with the token stack as the array it is in the
    code.  The second half shows that the machine is a function of the text it has
    been given: whatever was typed and erased, its state is the one it would be in
    had only the remaining text been typed. *)

From stdpp Require Import base numbers list list_numbers.
From S2P Require Import Prelude CliLine CliToken.

#[local] Open Scope Z_scope.

Inductive cparser_state_t :=
| CPARSER_STATE_WHITESPACE | CPARSER_STATE_TOKEN | CPARSER_STATE_ERROR.

#[global] Instance state_eq_dec : EqDecision cparser_state_t.
Proof. solve_decision. Defined.

Definition CPARSER_MAX_NESTED_LEVELS : Z := 4.
Definition CPARSER_MAX_PROMPT : Z := 16.
Definition CPARSER_FLAGS_DEBUG : Z := 1.

Record cparser_cfg_t := Cfg {
  cfg_root : option cparser_node_t;
  ch_complete : Z;
  ch_erase : Z;
  ch_del : Z;
  ch_help : Z;
  cfg_prompt : list Z;
  fd : Z;
  cfg_flags : Z;
}.

(** The fields of [struct cparser_] the state machine works on. *)
Record fsm_t := Fsm {
  cur_node : option cparser_node_t;
  state : cparser_state_t;
  token_tos : Z;
  current_pos : Z;
  last_good : Z;
  tokens : list cparser_token_t;
}.

(** The user input section, and the record of the last command. *)
Record user_t := User {
  user_buf : option (list Z);
  user_buf_size : Z;
  user_buf_count : Z;
  user_do_echo : bool;
  user_input_cb : option nat;
}.

Record command_t := Command {
  last_line_idx : Z;
  last_rc : cparser_result_t;
  last_end_node : option cparser_node_t;
}.

(** [struct cparser_]; [ln] has the line buffers, the prompts and the output. *)
Record cparser := CParser {
  ln : cparser_t;
  cfg : cparser_cfg_t;
  root : list (option cparser_node_t);
  fsm : fsm_t;
  p_done : bool;
  cookies : list (option nat);
  usr : user_t;
  cmd : command_t;
}.

Definition set_ln (p : cparser) (l : cparser_t) : cparser :=
  CParser l (cfg p) (root p) (fsm p) (p_done p) (cookies p) (usr p) (cmd p).
Definition set_fsm (p : cparser) (f : fsm_t) : cparser :=
  CParser (ln p) (cfg p) (root p) f (p_done p) (cookies p) (usr p) (cmd p).

Definition pc (p : cparser) (ch : Z) : cparser := set_ln p (printc (ln p) ch).
Definition ps (p : cparser) (s : list Z) : cparser := set_ln p (emit (ln p) s).

Definition set_pos (f : fsm_t) (pos : Z) : fsm_t :=
  Fsm (cur_node f) (state f) (token_tos f) pos (last_good f) (tokens f).
Definition set_state (f : fsm_t) (s : cparser_state_t) : fsm_t :=
  Fsm (cur_node f) s (token_tos f) (current_pos f) (last_good f) (tokens f).
Definition set_good (f : fsm_t) (g : Z) : fsm_t :=
  Fsm (cur_node f) (state f) (token_tos f) (current_pos f) g (tokens f).
Definition set_tokens (f : fsm_t) (ts : list cparser_token_t) : fsm_t :=
  Fsm (cur_node f) (state f) (token_tos f) (current_pos f) (last_good f) ts.
Definition set_node (f : fsm_t) (n : option cparser_node_t) (tos : Z) : fsm_t :=
  Fsm n (state f) tos (current_pos f) (last_good f) (tokens f).

(** ** cparser_match *)

Definition NODE_USABLE (priv : bool) (n : cparser_node_t) : bool :=
  priv || (Z.land (n_flags n) CPARSER_NODE_FLAGS_HIDDEN =? 0).

(** [*match], [*is_complete] and [num_matches]. *)
Record match_acc := MatchAcc {
  m_match : option cparser_node_t;
  m_complete : bool;
  m_count : Z;
}.

Fixpoint match_children (priv : bool) (token : list Z) (len : Z) (children : list cparser_node_t)
    (a : match_acc) : outcome match_acc :=
  match children with
  | [] => Ok a
  | child :: children =>
      if negb (NODE_USABLE priv child) then match_children priv token len children a
      else
        '(rc, local_is_complete) ← match_node token len child;
        match_children priv token len children
          (if bool_decide (rc = CPARSER_OK) then
             match m_match a with
             | None => MatchAcc (Some child) local_is_complete (m_count a + 1)
             | Some _ =>
                 if negb (m_complete a) && local_is_complete
                 then MatchAcc (Some child) local_is_complete (m_count a + 1)
                 else MatchAcc (m_match a) (m_complete a) (m_count a + 1)
             end
           else a)
  end.

Definition cparser_match (priv : bool) (token : list Z) (len : Z) (parent : option cparser_node_t)
    : outcome match_acc :=
  match parent with
  | None => Fault AssertFailed
  | Some parent =>
      a ← match_children priv token len (n_children parent) (MatchAcc None false 0);
      match m_match a with
      | Some m =>
          if (m_count a =? 1) && is_type m [CPARSER_NODE_KEYWORD]
          then Ok (MatchAcc (m_match a) true (m_count a))
          else Ok a
      | None => if m_count a =? 1 then Fault NullDeref else Ok a
      end
  end.

(** ** The token stack *)

Definition CUR_TOKEN (f : fsm_t) : outcome cparser_token_t := rd (tokens f) (token_tos f).

Definition empty_token : cparser_token_t :=
  Token (-1) 0 (replicate (Z.to_nat CPARSER_MAX_TOKEN_SIZE) 0) None None.

Definition cparser_token_stack_reset (f : fsm_t) : fsm_t :=
  Fsm (cur_node f) (state f) 0 0 (-1)
      (map (fun t => Token (-1) 0 (replicate (length (tbuf t)) 0) None None) (tokens f)).

Definition INSERT_TOK_STK (t : cparser_token_t) (ch : Z) : outcome cparser_token_t :=
  b ← wr (tbuf t) (token_len t) ch;
  Ok (Token (begin_ptr t) (s16 (token_len t + 1)) b (tparent t) (tnode t)).

Definition DELETE_TOK_STK (t : cparser_token_t) : outcome cparser_token_t :=
  let len := if token_len t =? 0 then 0 else s16 (token_len t - 1) in
  b ← wr (tbuf t) len 0;
  Ok (Token (begin_ptr t) len b (tparent t) (tnode t)).

Definition set_begin (t : cparser_token_t) (b : Z) : cparser_token_t :=
  Token b (token_len t) (tbuf t) (tparent t) (tnode t).

(** ** The state functions: the parser, the new state and [*ch_processed]. *)

Definition handler_result : Type := fsm_t * cparser_state_t * bool.

Definition cparser_ws_erase (priv : bool) (f : fsm_t) (ch : Z) : outcome handler_result :=
  if 0 <? current_pos f then
    let f := set_pos f (s16 (current_pos f - 1)) in
    if 0 <? token_tos f then
      token ← rd (tokens f) (token_tos f - 1);
      if current_pos f <=? begin_ptr token + token_len token then
        let cur := tparent token in
        ts ← wr (tokens f) (token_tos f - 1)
                (Token (begin_ptr token) (token_len token) (tbuf token) None (tnode token));
        token ← rd ts (token_tos f);
        b ← wr (tbuf token) 0 0;
        ts ← wr ts (token_tos f) (Token (-1) 0 b None None);
        Ok (set_node (set_tokens f ts) cur (s16 (token_tos f - 1)), CPARSER_STATE_TOKEN, true)
      else Ok (f, CPARSER_STATE_WHITESPACE, true)
    else Ok (f, CPARSER_STATE_WHITESPACE, true)
  else Ok (f, CPARSER_STATE_WHITESPACE, false).

Definition cparser_ws_space (priv : bool) (f : fsm_t) (ch : Z) : outcome handler_result :=
  Ok (f, CPARSER_STATE_WHITESPACE, true).

Definition cparser_ws_char (priv : bool) (f : fsm_t) (ch : Z) : outcome handler_result :=
  m ← cparser_match priv [ch] 1 (cur_node f);
  if m_count m =? 0 then Ok (f, CPARSER_STATE_ERROR, true)
  else
    token ← CUR_TOKEN f;
    token ← INSERT_TOK_STK (set_begin token (current_pos f)) ch;
    ts ← wr (tokens f) (token_tos f) token;
    Ok (set_tokens f ts, CPARSER_STATE_TOKEN, true).

Definition cparser_tok_erase (priv : bool) (f : fsm_t) (ch : Z) : outcome handler_result :=
  token ← CUR_TOKEN f;
  token ← DELETE_TOK_STK token;
  let f := set_pos f (s16 (current_pos f - 1)) in
  if token_len token =? 0 then
    ts ← wr (tokens f) (token_tos f) (set_begin token (-1));
    Ok (set_tokens f ts, CPARSER_STATE_WHITESPACE, true)
  else
    ts ← wr (tokens f) (token_tos f) token;
    Ok (set_tokens f ts, CPARSER_STATE_TOKEN, true).

Definition cparser_tok_space (priv : bool) (f : fsm_t) (ch : Z) : outcome handler_result :=
  _ ← assert_ (ch =? 32);
  token ← CUR_TOKEN f;
  m ← cparser_match priv (tbuf token) (token_len token) (cur_node f);
  if (1 <=? m_count m) && m_complete m then
    b ← wr (tbuf token) (token_len token) 0;
    ts ← wr (tokens f) (token_tos f) (Token (begin_ptr token) (token_len token) b (cur_node f) (m_match m));
    let tos := s16 (token_tos f + 1) in
    _ ← assert_ (tos <? CPARSER_MAX_NUM_TOKENS);
    token ← rd ts tos;
    _ ← assert_ (begin_ptr token =? -1);
    _ ← assert_ (token_len token =? 0);
    _ ← assert_ (negb (bool_decide (is_Some (tparent token))));
    Ok (set_node (set_tokens f ts) (m_match m) tos, CPARSER_STATE_WHITESPACE, true)
  else Ok (f, CPARSER_STATE_ERROR, true).

Definition cparser_tok_char (priv : bool) (f : fsm_t) (ch : Z) : outcome handler_result :=
  token ← CUR_TOKEN f;
  if token_len token <? CPARSER_MAX_TOKEN_SIZE then
    token ← INSERT_TOK_STK token ch;
    m ← cparser_match priv (tbuf token) (token_len token) (cur_node f);
    if m_count m =? 0 then
      token ← DELETE_TOK_STK token;
      ts ← wr (tokens f) (token_tos f) token;
      Ok (set_tokens f ts, CPARSER_STATE_ERROR, true)
    else
      ts ← wr (tokens f) (token_tos f) token;
      Ok (set_tokens f ts, CPARSER_STATE_TOKEN, true)
  else Ok (f, CPARSER_STATE_ERROR, true).

Definition cparser_err_erase (priv : bool) (f : fsm_t) (ch : Z) : outcome handler_result :=
  _ ← assert_ (0 <? current_pos f);
  let f := set_pos f (s16 (current_pos f - 1)) in
  if last_good f + 1 =? current_pos f then
    token ← CUR_TOKEN f;
    if current_pos f <=? begin_ptr token + token_len token
    then Ok (f, CPARSER_STATE_TOKEN, true)
    else Ok (f, CPARSER_STATE_WHITESPACE, true)
  else Ok (f, CPARSER_STATE_ERROR, true).

Definition cparser_err_space (priv : bool) (f : fsm_t) (ch : Z) : outcome handler_result :=
  Ok (f, CPARSER_STATE_ERROR, true).

Definition cparser_err_char (priv : bool) (f : fsm_t) (ch : Z) : outcome handler_result :=
  Ok (f, CPARSER_STATE_ERROR, true).

Inductive input_type := IN_ERASE | IN_SPACE | IN_CHAR.

Definition cparser_state_func_tbl (s : cparser_state_t) (i : input_type)
    : bool -> fsm_t -> Z -> outcome handler_result :=
  match s, i with
  | CPARSER_STATE_WHITESPACE, IN_ERASE => cparser_ws_erase
  | CPARSER_STATE_WHITESPACE, IN_SPACE => cparser_ws_space
  | CPARSER_STATE_WHITESPACE, IN_CHAR => cparser_ws_char
  | CPARSER_STATE_TOKEN, IN_ERASE => cparser_tok_erase
  | CPARSER_STATE_TOKEN, IN_SPACE => cparser_tok_space
  | CPARSER_STATE_TOKEN, IN_CHAR => cparser_tok_char
  | CPARSER_STATE_ERROR, IN_ERASE => cparser_err_erase
  | CPARSER_STATE_ERROR, IN_SPACE => cparser_err_space
  | CPARSER_STATE_ERROR, IN_CHAR => cparser_err_char
  end.

Definition BEL : Z := 7.

(** ** Debugging output *)

(** [for (n = from; n < ...; n++) printc(line char n)], [k] times. *)
Fixpoint debug_line (k : nat) (p : cparser) (n : Z) : outcome cparser :=
  match k with
  | O => Ok p
  | S k => c ← cparser_line_char (Some (ln p)) n; debug_line k (pc p c) (n + 1)
  end.

(** The characters [0 .. token_len] of a token, the NUL included. *)
Fixpoint debug_buf (k : nat) (p : cparser) (b : list Z) (m : Z) : outcome cparser :=
  match k with
  | O => Ok p
  | S k => c ← rd b m; debug_buf k (pc p c) b (m + 1)
  end.

Fixpoint debug_tokens (k : nat) (p : cparser) (n : Z) : outcome cparser :=
  match k with
  | O => Ok p
  | S k =>
      t ← rd (tokens (fsm p)) n;
      p ← debug_buf (Z.to_nat (token_len t + 1)) (pc p 91) (tbuf t) 0;
      debug_tokens k (pc (pc p 93) LF) (n + 1)
  end.

(** "State: WHITESPACE\n" and its like. *)
Definition state_name (s : cparser_state_t) : list Z :=
  [83; 116; 97; 116; 101; 58; 32] ++
  match s with
  | CPARSER_STATE_WHITESPACE => [87; 72; 73; 84; 69; 83; 80; 65; 67; 69]
  | CPARSER_STATE_TOKEN => [84; 79; 75; 69; 78]
  | CPARSER_STATE_ERROR => [69; 82; 82; 79; 82]
  end ++ [LF].

Definition fsm_debug (p : cparser) : outcome cparser :=
  let p := ps (pc p LF) (state_name (state (fsm p))) in
  p ← debug_line (Z.to_nat (current_pos (fsm p))) p 0;
  p ← debug_tokens (Z.to_nat (token_tos (fsm p) + 1)) (pc p LF) 0;
  l ← cparser_line_print (Some (ln p)) true true;
  match l with Some l => Ok (set_ln p l) | None => Fault AssertFailed end.

Definition is_erase (c : cparser_cfg_t) (ch : Z) : bool := (ch_erase c =? ch) || (ch_del c =? ch).

Definition cparser_fsm_input (p : cparser) (ch : Z) : outcome (cparser * cparser_result_t) :=
  let f := fsm p in
  i ← (if is_erase (cfg p) ch then _ ← assert_ (0 <? current_pos f); Ok (Some IN_ERASE)
       else if CPARSER_MAX_LINE_SIZE - 1 <=? current_pos f then Ok None
       else if ch =? 32 then Ok (Some IN_SPACE)
       else Ok (Some IN_CHAR));
  match i with
  | None => Ok (pc p BEL, CPARSER_OK)
  | Some i =>
      '(f, s, ch_processed) ← cparser_state_func_tbl (state f) i (is_privileged_mode (ln p)) f ch;
      let f := set_state f s in
      let f :=
        if (ch_processed : bool) then
          let f := match i with IN_ERASE => f | _ => set_pos f (s16 (current_pos f + 1)) end in
          if bool_decide (s = CPARSER_STATE_ERROR) then f else set_good f (s16 (current_pos f - 1))
        else f in
      let p := set_fsm p f in
      p ← (if Z.land (cfg_flags (cfg p)) CPARSER_FLAGS_DEBUG =? 0 then Ok p else fsm_debug p);
      Ok (p, CPARSER_OK)
  end.

Definition cparser_fsm_reset (p : cparser) : outcome cparser :=
  r ← rd (root p) (root_level (ln p));
  let f := cparser_token_stack_reset (fsm p) in
  Ok (set_fsm p (Fsm r CPARSER_STATE_WHITESPACE (token_tos f) (current_pos f) (last_good f) (tokens f))).

(** ** The match as a function of the text *)

Definition better (a : match_acc) (child : cparser_node_t) (v : option bool) : match_acc :=
  match v with
  | None => a
  | Some c =>
      match m_match a with
      | Some _ =>
          if negb (m_complete a) && c then MatchAcc (Some child) c (m_count a + 1)
          else MatchAcc (m_match a) (m_complete a) (m_count a + 1)
      | None => MatchAcc (Some child) c (m_count a + 1)
      end
  end.

Definition pick (priv : bool) (s : list Z) (children : list cparser_node_t) (a : match_acc) : match_acc :=
  foldl (fun a child => if NODE_USABLE priv child then better a child (match_text child s) else a) a children.

(** The node a token selects, and whether it selects it completely: the first complete match,
    or else the first match; a keyword alone may be abbreviated. *)
Definition best (priv : bool) (s : list Z) (parent : cparser_node_t) : option (cparser_node_t * bool) :=
  let a := pick priv s (n_children parent) (MatchAcc None false 0) in
  match m_match a with
  | Some m => Some (m, ((m_count a =? 1) && is_type m [CPARSER_NODE_KEYWORD]) || m_complete a)
  | None => None
  end.

Lemma match_children_pick priv s rest children : forall a,
  Forall node_ok children -> Forall char_ok s -> s <> [] ->
  match_children priv (s ++ rest) (Zlen s) children a = Ok (pick priv s children a).
Proof.
  induction children as [|child children IH]; intros a Hn Hs Hne; [done|].
  apply Forall_cons in Hn as [Hc Hn]. cbn [match_children pick foldl].
  destruct (NODE_USABLE priv child); cbn [negb]; [|by apply IH].
  destruct (match_node_text child s rest Hc Hs Hne) as ([rc b] & -> & Hv). cbn [mbind outcome_bind].
  rewrite IH by done. f_equal. unfold pick. f_equal.
  destruct rc; cbn [verdict] in Hv; rewrite <- Hv; try done.
Qed.

(** What the loop keeps: a match is recorded as soon as one is counted. *)
Definition acc_ok (a : match_acc) : Prop :=
  0 <= m_count a /\ (m_count a = 0 <-> m_match a = None).

Lemma pick_ok priv s children : forall a, acc_ok a -> acc_ok (pick priv s children a).
Proof.
  induction children as [|child children IH]; intros a Ha; [done|]. cbn [pick foldl]. apply IH.
  destruct (NODE_USABLE priv child); [|done]. destruct Ha as [H0 Ha]. unfold better.
  destruct (match_text child s) as [c|]; [|done].
  destruct (m_match a) eqn:E; [destruct (negb _ && _)|]; split; cbn; try lia;
    (split; [lia | rewrite ?E; done]).
Qed.

Lemma cparser_match_best priv s rest parent :
  Forall node_ok (n_children parent) -> Forall char_ok s -> s <> [] ->
  exists a, cparser_match priv (s ++ rest) (Zlen s) (Some parent) = Ok a /\ 0 <= m_count a /\
    match best priv s parent with
    | Some (m, c) => (m_count a =? 0) = false /\ m_match a = Some m /\ m_complete a = c
    | None => (m_count a =? 0) = true
    end.
Proof.
  intros Hn Hs Hne. unfold cparser_match, best. rewrite match_children_pick by done.
  cbn [mbind outcome_bind].
  destruct (pick_ok priv s (n_children parent) (MatchAcc None false 0)) as [H0 Ha]; [by split|].
  destruct (pick _ _ _ _) as [mm mc mn]. cbn [m_match m_complete m_count] in *.
  destruct mm as [m|].
  - assert (mn <> 0) by (intros H; by apply Ha in H).
    destruct ((mn =? 1) && _) eqn:E; cbn [orb]; eexists; (split; [reflexivity|]); cbn;
      (split; [done|]); (split; [by apply Z.eqb_neq|]); done.
  - rewrite (proj2 Ha eq_refl). eexists. split; [reflexivity|]. done.
Qed.

(** A child of a parent whose match is complete is one of the parent's children, and no END node. *)
Lemma pick_child priv s children : forall a,
  match m_match (pick priv s children a) with
  | Some m => m_match a = Some m \/ (m ∈ children /\ match_text m s <> None)
  | None => True
  end.
Proof.
  induction children as [|child children IH]; intros a; cbn [pick foldl].
  - destruct (m_match a); auto.
  - specialize (IH (if NODE_USABLE priv child then better a child (match_text child s) else a)).
    unfold pick in IH. destruct (m_match (foldl _ _ children)) as [m|]; [|done].
    destruct IH as [IH|[IH1 IH2]]; [|right; split; [by right|done]].
    destruct (NODE_USABLE priv child); [|by left]. unfold better in IH.
    destruct (match_text child s) as [c|] eqn:Et; [|by left].
    destruct (m_match a) as [m0|]; [destruct (negb _ && _)|]; cbn in IH;
      first [by left | injection IH as <-; right; split; [by left | by rewrite Et]].
Qed.

Lemma best_child priv s parent m c :
  best priv s parent = Some (m, c) -> m ∈ n_children parent /\ n_type m <> CPARSER_NODE_END.
Proof.
  unfold best. pose proof (pick_child priv s (n_children parent) (MatchAcc None false 0)) as H.
  destruct (m_match (pick _ _ _ _)) as [m'|]; [|done]. intros [= <- _].
  destruct H as [H|[H1 H2]]; [done|]. split; [done|]. intros He. apply H2. unfold match_text. by rewrite He.
Qed.

(** ** The abstract machine

    The closed tokens (the last one first) with the node each was read at and the node it
    selected, the current node, the open token if any, how many characters are good, and how
    many bad ones follow. *)

Record closed := Closed { c_begin : Z; c_text : list Z; c_parent : cparser_node_t; c_node : cparser_node_t }.

Record machine := Machine {
  m_closed : list closed;
  m_cur : cparser_node_t;
  m_open : option (Z * list Z);
  m_good : Z;
  m_bad : nat;
}.

Definition machine0 (r : cparser_node_t) : machine := Machine [] r None 0 0.

Definition fail (a : machine) : machine :=
  Machine (m_closed a) (m_cur a) (m_open a) (m_good a) (S (m_bad a)).

Definition feed (priv : bool) (a : machine) (c : Z) : machine :=
  match m_bad a, m_open a with
  | S _, _ => fail a
  | O, None =>
      if c =? 32 then Machine (m_closed a) (m_cur a) None (m_good a + 1) 0
      else match best priv [c] (m_cur a) with
           | None => fail a
           | Some _ => Machine (m_closed a) (m_cur a) (Some (m_good a, [c])) (m_good a + 1) 0
           end
  | O, Some (b, w) =>
      if c =? 32 then
        match best priv w (m_cur a) with
        | Some (m, true) => Machine (Closed b w (m_cur a) m :: m_closed a) m None (m_good a + 1) 0
        | _ => fail a
        end
      else if Zlen w <? CPARSER_MAX_TOKEN_SIZE then
        match best priv (w ++ [c]) (m_cur a) with
        | None => fail a
        | Some _ => Machine (m_closed a) (m_cur a) (Some (b, w ++ [c])) (m_good a + 1) 0
        end
      else fail a
  end.

(** The machine after a text. *)
Definition run (priv : bool) (r : cparser_node_t) (t : list Z) : machine := foldl (feed priv) (machine0 r) t.

Definition unfeed (a : machine) : machine :=
  match m_bad a, m_open a with
  | S k, _ => Machine (m_closed a) (m_cur a) (m_open a) (m_good a) k
  | O, Some (b, w) =>
      let w := removelast w in
      Machine (m_closed a) (m_cur a) (if bool_decide (w = []) then None else Some (b, w)) (m_good a - 1) 0
  | O, None =>
      match m_closed a with
      | Closed b w par _ :: cl =>
          if m_good a - 1 <=? b + Zlen w then Machine cl par (Some (b, w)) (m_good a - 1) 0
          else Machine (m_closed a) (m_cur a) None (m_good a - 1) 0
      | [] => Machine [] (m_cur a) None (m_good a - 1) 0
      end
  end.

(** Tokens lie where they were typed. *)
Definition placed (a : machine) : Prop :=
  match m_open a with
  | Some (b, w) => w <> [] /\ b + Zlen w = m_good a /\ 0 <= b
  | None => match m_closed a with
            | Closed b w _ _ :: _ => b + Zlen w < m_good a
            | [] => True
            end
  end /\ 0 <= m_good a.

Lemma feed_placed priv a c : placed a -> placed (feed priv a c).
Proof.
  unfold feed, placed. intros [Ha H0]. destruct (m_bad a); [|done].
  destruct (m_open a) as [[b w]|] eqn:Eo.
  - destruct (c =? 32).
    + destruct (best priv w (m_cur a)) as [[m [|]]|]; cbn; rewrite ?Eo; try done. lia.
    + destruct (_ <? _); [|cbn; by rewrite Eo].
      destruct (best _ _ _); cbn; rewrite ?Eo; [|done]. rewrite Zlen_app. change (Zlen [c]) with 1.
      split; [|lia]. split; [by destruct w | lia].
  - destruct (c =? 32); cbn.
    + split; [|lia]. destruct (m_closed a) as [|[b w ? ?] ?]; [done | lia].
    + destruct (best _ _ _); cbn; rewrite ?Eo; [|done]. change (Zlen [c]) with 1.
      split; [|lia]. split; [done | lia].
Qed.

(** An erase undoes the last character. *)
Lemma unfeed_feed priv a c : placed a -> unfeed (feed priv a c) = a.
Proof.
  destruct a as [cl cur o g [|bad]]; unfold feed, unfeed, placed, fail; cbn [m_closed m_cur m_open m_good m_bad]; [|done].
  intros [Ha H0]. destruct o as [[b w]|].
  - destruct Ha as (Hw & Hg & Hb). destruct (c =? 32).
    + destruct (best priv w cur) as [[m [|]]|]; cbn; try done.
      rewrite (proj2 (Z.leb_le _ _)) by lia. by rewrite Z.add_simpl_r.
    + destruct (_ <? _); [|done]. destruct (best _ _ _); cbn; [|done].
      rewrite removelast_last, bool_decide_eq_false_2, Z.add_simpl_r by done. done.
  - destruct (c =? 32); cbn.
    + rewrite Z.add_simpl_r. destruct cl as [|[b w ? ?] cl]; [done|].
      by rewrite (proj2 (Z.leb_gt _ _)) by lia.
    + destruct (best _ _ _); cbn; [|done]. by rewrite Z.add_simpl_r.
Qed.

Lemma run_snoc priv r t c : run priv r (t ++ [c]) = feed priv (run priv r t) c.
Proof. unfold run. by rewrite foldl_app. Qed.

Lemma run_placed priv r t : placed (run priv r t).
Proof.
  induction t as [|c t IH] using rev_ind; [done|]. rewrite run_snoc. by apply feed_placed.
Qed.

Lemma unfeed_run priv r t c : unfeed (run priv r (t ++ [c])) = run priv r t.
Proof. rewrite run_snoc. apply unfeed_feed, run_placed. Qed.

(** How far a text has got. *)
Lemma run_pos priv r t : m_good (run priv r t) + Z.of_nat (m_bad (run priv r t)) = Zlen t.
Proof.
  induction t as [|c t IH] using rev_ind; [done|]. rewrite run_snoc, Zlen_app. change (Zlen [c]) with 1.
  revert IH. destruct (run priv r t) as [cl cur o g [|bad]]; unfold feed, fail; cbn; [|lia].
  intros IH. destruct o as [[b w]|], (c =? 32); cbn; try lia.
  - destruct (best priv w cur) as [[m [|]]|]; cbn; lia.
  - destruct (_ <? _); [|cbn; lia]. destruct (best _ _ _); cbn; lia.
  - destruct (best _ _ _); cbn; lia.
Qed.

(** ** The machine in memory *)

Definition pad (w : list Z) : list Z := w ++ replicate (Z.to_nat (CPARSER_MAX_TOKEN_SIZE - Zlen w)) 0.

Definition closed_token (c : closed) : cparser_token_t :=
  Token (c_begin c) (Zlen (c_text c)) (pad (c_text c)) (Some (c_parent c)) (Some (c_node c)).

(** The token on top of the stack; its [node] may be left from a token that was reopened. *)
Definition open_token (o : option (Z * list Z)) (nd : option cparser_node_t) : cparser_token_t :=
  match o with
  | Some (b, w) => Token b (Zlen w) (pad w) None nd
  | None => Token (-1) 0 (pad []) None nd
  end.

Definition unused (t : cparser_token_t) : Prop := exists nd, t = open_token None nd.

Definition machine_state (a : machine) : cparser_state_t :=
  match m_bad a, m_open a with
  | S _, _ => CPARSER_STATE_ERROR
  | O, Some _ => CPARSER_STATE_TOKEN
  | O, None => CPARSER_STATE_WHITESPACE
  end.

Definition layout (a : machine) (nd : option cparser_node_t) (rest : list cparser_token_t) : fsm_t :=
  Fsm (Some (m_cur a)) (machine_state a) (Zlen (m_closed a)) (m_good a + Z.of_nat (m_bad a)) (m_good a - 1)
      ((closed_token <$> reverse (m_closed a)) ++ open_token (m_open a) nd :: rest).

Definition represents (f : fsm_t) (a : machine) : Prop :=
  exists nd rest, f = layout a nd rest /\ Forall unused rest /\
    Zlen (m_closed a) + 1 + Zlen rest = CPARSER_MAX_NUM_TOKENS.

(** A tree of at most [h] levels below which the parser can match every node. *)
Fixpoint tree_ok (h : nat) (n : cparser_node_t) : Prop :=
  match h with
  | O => False
  | S h => Forall (fun c => node_ok c /\ (n_type c <> CPARSER_NODE_END -> tree_ok h c)) (n_children n)
  end.

(** What the next character relies on. *)
Record ready (a : machine) : Prop := {
  rd_tree : tree_ok (Z.to_nat CPARSER_MAX_NUM_TOKENS - length (m_closed a)) (m_cur a);
  rd_word : m_bad a = O ->
            match m_open a with
            | Some (_, w) => Forall char_ok w /\ Zlen w <= CPARSER_MAX_TOKEN_SIZE - 1
            | None => True
            end;
  rd_place : placed a;
  rd_room : m_good a + Z.of_nat (m_bad a) < CPARSER_MAX_LINE_SIZE - 1;
}.

Lemma tree_ok_children h n : tree_ok h n -> Forall node_ok (n_children n).
Proof. destruct h; [done|]. cbn. intros H. eapply Forall_impl; [exact H|]. by intros c [? _]. Qed.

Lemma tree_ok_best h n priv w m c :
  tree_ok h n -> best priv w n = Some (m, c) -> exists h', h = S h' /\ tree_ok h' m /\ h' <> O.
Proof.
  destruct h as [|h]; [done|]. cbn [tree_ok]. intros H Hb. apply best_child in Hb as [Hin He].
  exists h. split; [done|]. rewrite Forall_forall in H. destruct (H m Hin) as [_ Ht].
  specialize (Ht He). split; [done|]. by destruct h.
Qed.

Lemma pad_insert w c : Zlen w < CPARSER_MAX_TOKEN_SIZE -> wr (pad w) (Zlen w) c = Ok (pad (w ++ [c])).
Proof.
  intros Hw. unfold pad. rewrite Zlen_app. change (Zlen [c]) with 1.
  replace (Z.to_nat (CPARSER_MAX_TOKEN_SIZE - Zlen w))
    with (S (Z.to_nat (CPARSER_MAX_TOKEN_SIZE - (Zlen w + 1)))) by (pose proof (Zlen_nonneg w); lia).
  cbn [replicate]. rewrite wr_mid by done. by rewrite <- app_assoc.
Qed.

Lemma pad_delete w c : Zlen w < CPARSER_MAX_TOKEN_SIZE -> wr (pad (w ++ [c])) (Zlen w) 0 = Ok (pad w).
Proof.
  intros Hw. unfold pad. rewrite Zlen_app. change (Zlen [c]) with 1.
  replace (Z.to_nat (CPARSER_MAX_TOKEN_SIZE - Zlen w))
    with (S (Z.to_nat (CPARSER_MAX_TOKEN_SIZE - (Zlen w + 1)))) by (pose proof (Zlen_nonneg w); lia).
  rewrite <- app_assoc. cbn [app replicate]. by rewrite wr_mid by done.
Qed.

Lemma pad_close w : Zlen w < CPARSER_MAX_TOKEN_SIZE -> wr (pad w) (Zlen w) 0 = Ok (pad w).
Proof.
  intros Hw. rewrite pad_insert by done. f_equal. unfold pad. rewrite Zlen_app. change (Zlen [0]) with 1.
  replace (Z.to_nat (CPARSER_MAX_TOKEN_SIZE - Zlen w))
    with (S (Z.to_nat (CPARSER_MAX_TOKEN_SIZE - (Zlen w + 1)))) by (pose proof (Zlen_nonneg w); lia).
  by rewrite <- app_assoc.
Qed.

(** The rest of [cparser_fsm_input] once a state function has returned. *)
Definition settle (i : input_type) (r : handler_result) : fsm_t :=
  let '(f, s, ch_processed) := r in
  let f := set_state f s in
  if (ch_processed : bool) then
    let f := match i with IN_ERASE => f | _ => set_pos f (s16 (current_pos f + 1)) end in
    if bool_decide (s = CPARSER_STATE_ERROR) then f else set_good f (s16 (current_pos f - 1))
  else f.

Definition quiet (p : cparser) : Prop := Z.land (cfg_flags (cfg p)) CPARSER_FLAGS_DEBUG = 0.

Lemma fsm_input_settle p ch i r :
  quiet p ->
  (if is_erase (cfg p) ch then i = IN_ERASE /\ 0 < current_pos (fsm p)
   else current_pos (fsm p) < CPARSER_MAX_LINE_SIZE - 1 /\ i = if ch =? 32 then IN_SPACE else IN_CHAR) ->
  cparser_state_func_tbl (state (fsm p)) i (is_privileged_mode (ln p)) (fsm p) ch = Ok r ->
  cparser_fsm_input p ch = Ok (set_fsm p (settle i r), CPARSER_OK).
Proof.
  intros Hq Hi Hr. unfold cparser_fsm_input. destruct (is_erase (cfg p) ch).
  - destruct Hi as [-> Hpos]. rewrite (proj2 (Z.ltb_lt _ _) Hpos). cbn [assert_ mbind outcome_bind].
    rewrite Hr. destruct r as [[f s] b]. cbn [mbind outcome_bind]. cbn [cfg set_fsm]. by rewrite Hq.
  - destruct Hi as [Hpos ->]. rewrite (proj2 (Z.leb_gt _ _)) by lia. cbn [mbind outcome_bind].
    destruct (ch =? 32); cbn [mbind outcome_bind]; rewrite Hr; destruct r as [[f s] b];
      cbn [mbind outcome_bind cfg set_fsm]; by rewrite Hq.
Qed.

(** Reduce the accessors of the state. *)
Ltac fsm_cbn := cbv delta [set_state set_pos set_good set_tokens set_node set_begin fail] beta;
  cbn [layout machine_state m_closed m_cur m_open m_good m_bad cur_node state token_tos
  current_pos last_good tokens set_state set_pos set_good set_tokens set_node open_token set_begin
  begin_ptr token_len tbuf tparent tnode mbind outcome_bind].

Lemma Zlen_closed cl : Zlen (closed_token <$> reverse cl) = Zlen cl.
Proof. unfold Zlen. by rewrite length_fmap, length_reverse. Qed.

Lemma top_at cl t rest : rd ((closed_token <$> reverse cl) ++ t :: rest) (Zlen cl) = Ok t.
Proof. apply rd_mid. by rewrite Zlen_closed. Qed.

Lemma top_put cl t t' rest :
  wr ((closed_token <$> reverse cl) ++ t :: rest) (Zlen cl) t' = Ok ((closed_token <$> reverse cl) ++ t' :: rest).
Proof. apply wr_mid. by rewrite Zlen_closed. Qed.

Lemma next_at cl t t' rest : rd ((closed_token <$> reverse cl) ++ t :: t' :: rest) (Zlen cl + 1) = Ok t'.
Proof.
  replace ((closed_token <$> reverse cl) ++ t :: t' :: rest)
    with (((closed_token <$> reverse cl) ++ [t]) ++ t' :: rest) by (by rewrite <- app_assoc).
  apply rd_mid. by rewrite Zlen_app, Zlen_closed.
Qed.

(** A state function that leaves the machine alone and fails. *)
Lemma settle_fail a nd rest i :
  ready a -> i <> IN_ERASE -> settle i (layout a nd rest, CPARSER_STATE_ERROR, true) = layout (fail a) nd rest.
Proof.
  intros [_ _ [_ H0] Hr] Hi. unfold CPARSER_MAX_LINE_SIZE in *. unfold layout, settle.
  destruct i; [done| |]; fsm_cbn; rewrite bool_decide_eq_true_2 by done;
    rewrite s16_small by lia; f_equal; lia.
Qed.

Lemma represents_layout a nd rest :
  Forall unused rest -> Zlen (m_closed a) + 1 + Zlen rest = CPARSER_MAX_NUM_TOKENS ->
  represents (layout a nd rest) a.
Proof. intros H1 H2. by exists nd, rest. Qed.

(** After a good character: the state function's result, with the position it leaves. *)
Lemma settle_good cur s tos pos good ts i :
  i <> IN_ERASE -> s <> CPARSER_STATE_ERROR -> 0 <= pos < 383 -> forall s0,
  settle i (Fsm cur s0 tos pos good ts, s, true) = Fsm cur s tos (pos + 1) pos ts.
Proof.
  intros Hi Hs Hp s0. unfold settle.
  destruct i; [done| |]; fsm_cbn; rewrite bool_decide_eq_false_2 by done; fsm_cbn;
    rewrite !s16_small by lia; f_equal; lia.
Qed.

Lemma ws_feed priv cl cur good nd rest ch :
  let a := Machine cl cur None good 0 in
  ready a -> char_ok ch -> Forall unused rest -> Zlen cl + 1 + Zlen rest = CPARSER_MAX_NUM_TOKENS ->
  exists r, cparser_state_func_tbl CPARSER_STATE_WHITESPACE (if ch =? 32 then IN_SPACE else IN_CHAR) priv
              (layout a nd rest) ch = Ok r /\
            represents (settle (if ch =? 32 then IN_SPACE else IN_CHAR) r) (feed priv a ch).
Proof.
  intros a. subst a. intros Hr Hch Hrest Hlen. pose proof Hr as [Htree _ [_ H0] Hroom]. cbn [m_good m_bad m_cur m_closed m_open] in *.
  unfold CPARSER_MAX_LINE_SIZE in *. unfold feed. cbn [m_bad m_open]. destruct (ch =? 32) eqn:Esp.
  - eexists. split; [reflexivity|]. unfold layout. fsm_cbn. rewrite settle_good by (done || lia).
    exists nd, rest. split; [|done]. unfold layout. fsm_cbn. f_equal; lia.
  - cbn [cparser_state_func_tbl]. unfold cparser_ws_char. cbn [layout cur_node m_cur].
    destruct (cparser_match_best priv [ch] [] cur) as (m & Em & _ & Hm);
      [by eapply tree_ok_children | by apply Forall_singleton | done|].
    change ([ch] ++ []) with [ch] in Em. change (Zlen [ch]) with 1 in Em. rewrite Em.
    cbn [mbind outcome_bind]. cbn [m_cur]. destruct (best priv [ch] cur) as [[m' c']|].
    + destruct Hm as (-> & _). unfold CUR_TOKEN. fsm_cbn.  rewrite top_at. fsm_cbn.
      unfold INSERT_TOK_STK. fsm_cbn. pose proof (pad_insert [] ch eq_refl) as Hpad. change (Zlen []) with 0 in Hpad.
      rewrite Hpad. fsm_cbn. rewrite top_put. fsm_cbn.
      eexists. split; [reflexivity|]. rewrite settle_good by (done || lia).
      exists nd, rest. split; [|done]. unfold layout. fsm_cbn. rewrite s16_small by lia.
      replace (good + Z.of_nat 0) with good by lia. f_equal; lia.
    + rewrite Hm. eexists. split; [reflexivity|]. rewrite settle_fail by done. by apply represents_layout.
Qed.

Lemma tok_space_feed priv cl cur b w good nd rest :
  let a := Machine cl cur (Some (b, w)) good 0 in
  ready a -> Forall unused rest -> Zlen cl + 1 + Zlen rest = CPARSER_MAX_NUM_TOKENS ->
  exists r, cparser_tok_space priv (layout a nd rest) 32 = Ok r /\
            represents (settle IN_SPACE r) (feed priv a 32).
Proof.
  intros a. subst a. intros Hr Hrest Hlen. pose proof Hr as [Htree Hwd [[Hne [Hg Hb]] H0] Hroom].
  destruct (Hwd eq_refl) as [Hw Hwl].
  cbn [m_good m_bad m_cur m_closed m_open] in *. unfold CPARSER_MAX_LINE_SIZE, CPARSER_MAX_NUM_TOKENS in *.
  unfold cparser_tok_space, CUR_TOKEN. cbn [Z.eqb Pos.eqb assert_]. fsm_cbn. rewrite top_at. fsm_cbn.
  destruct (cparser_match_best priv w (replicate (Z.to_nat (CPARSER_MAX_TOKEN_SIZE - Zlen w)) 0) cur)
    as (m & Em & Hm0 & Hm); [by eapply tree_ok_children | done | done|].
  fold (pad w) in Em. rewrite Em. fsm_cbn. unfold feed. cbn [m_bad m_open m_cur m_closed m_good Z.eqb Pos.eqb].
  destruct (best priv w cur) as [[m' c']|] eqn:Ebest.
  - destruct Hm as (Hc & Hmm & ->). zify_bool. rewrite (proj2 (Z.leb_le 1 _)) by lia. cbn [andb].
    destruct c'.
    + destruct (tree_ok_best _ _ _ _ _ _ Htree Ebest) as (h' & Eh & Ht' & Hh').
      destruct rest as [|t rest]; [change (Zlen []) with 0 in Hlen; unfold Zlen in *; lia|].
      apply Forall_cons in Hrest as [[nd' ->] Hrest]. rewrite Zlen_cons in Hlen.
      pose proof (Zlen_nonneg cl). pose proof (Zlen_nonneg rest).
      rewrite pad_close by lia. fsm_cbn. rewrite top_put. fsm_cbn.
      rewrite s16_small by lia. rewrite (proj2 (Z.ltb_lt _ 32)) by lia. cbn [assert_]. fsm_cbn.
      rewrite next_at. fsm_cbn.
      cbn [Z.eqb Pos.eqb assert_]. fsm_cbn. rewrite bool_decide_eq_false_2 by (by intros []).
      cbn [negb assert_]. fsm_cbn. eexists. split; [reflexivity|].
      rewrite settle_good by (done || lia). exists nd', rest. split; [|split; [done|]].
      * unfold layout. fsm_cbn. rewrite Hmm, Zlen_cons, reverse_cons, fmap_app, <- app_assoc. f_equal; lia.
      * cbn [m_closed]. unfold CPARSER_MAX_NUM_TOKENS. rewrite Zlen_cons. lia.
    + eexists. split; [reflexivity|]. fold (layout (Machine cl cur (Some (b, w)) good 0) nd rest).
      rewrite (settle_fail (Machine cl cur (Some (b, w)) good 0)) by done. by apply represents_layout.
  - zify_bool. rewrite (proj2 (Z.leb_gt 1 _)) by lia. cbn [andb]. eexists. split; [reflexivity|].
    rewrite (settle_fail (Machine cl cur (Some (b, w)) good 0)) by done. by apply represents_layout.
Qed.

Lemma tok_char_feed priv cl cur b w good nd rest ch :
  let a := Machine cl cur (Some (b, w)) good 0 in
  ready a -> char_ok ch -> ch <> 32 -> Forall unused rest ->
  Zlen cl + 1 + Zlen rest = CPARSER_MAX_NUM_TOKENS ->
  exists r, cparser_tok_char priv (layout a nd rest) ch = Ok r /\
            represents (settle IN_CHAR r) (feed priv a ch).
Proof.
  intros a. subst a. intros Hr Hch Hsp Hrest Hlen.
  pose proof Hr as [Htree Hwd [[Hne [Hg Hb]] H0] Hroom].
  destruct (Hwd eq_refl) as [Hw Hwl].
  cbn [m_good m_bad m_cur m_closed m_open] in *. unfold CPARSER_MAX_LINE_SIZE, CPARSER_MAX_NUM_TOKENS in *.
  pose proof (Zlen_nonneg w).
  unfold cparser_tok_char, CUR_TOKEN. fsm_cbn. rewrite top_at. fsm_cbn.
  unfold feed. cbn [m_bad m_open m_cur m_closed m_good]. rewrite (proj2 (Z.eqb_neq _ _) Hsp).
  assert (Hlt : (Zlen w <? CPARSER_MAX_TOKEN_SIZE) = true) by (apply Z.ltb_lt; lia). rewrite Hlt. zify_bool.
  unfold INSERT_TOK_STK. fsm_cbn. rewrite pad_insert by done. fsm_cbn.
  unfold CPARSER_MAX_TOKEN_SIZE in *. rewrite s16_small by lia.
  destruct (cparser_match_best priv (w ++ [ch]) (replicate (Z.to_nat (CPARSER_MAX_TOKEN_SIZE - Zlen (w ++ [ch]))) 0) cur)
    as (m & Em & Hm0 & Hm); [by eapply tree_ok_children | by apply Forall_app_2; [|apply Forall_singleton] | by destruct w|].
  fold (pad (w ++ [ch])) in Em. rewrite Zlen_app in Em. change (Zlen [ch]) with 1 in Em. rewrite Em. fsm_cbn.
  destruct (best priv (w ++ [ch]) cur) as [[m' c']|].
  - destruct Hm as (-> & _ & _). rewrite top_put. fsm_cbn. eexists. split; [reflexivity|].
    rewrite settle_good by (done || lia). exists nd, rest. split; [|done]. unfold layout. fsm_cbn.
    rewrite Zlen_app. change (Zlen [ch]) with 1. f_equal; lia.
  - rewrite Hm. unfold DELETE_TOK_STK. fsm_cbn. rewrite (proj2 (Z.eqb_neq _ 0)) by lia.
    rewrite s16_small by lia. rewrite Z.add_simpl_r, pad_delete by (unfold CPARSER_MAX_TOKEN_SIZE; lia).
    fsm_cbn. rewrite top_put. fsm_cbn. exists (layout (Machine cl cur (Some (b, w)) good 0) nd rest, CPARSER_STATE_ERROR, true).
    split; [reflexivity|].
    rewrite (settle_fail (Machine cl cur (Some (b, w)) good 0)) by done. by apply represents_layout.
Qed.

(** *** A character *)

Lemma fsm_input_feed p a ch :
  quiet p -> represents (fsm p) a -> ready a -> char_ok ch -> is_erase (cfg p) ch = false ->
  exists f', cparser_fsm_input p ch = Ok (set_fsm p f', CPARSER_OK) /\
             represents f' (feed (is_privileged_mode (ln p)) a ch).
Proof.
  intros Hq (nd & rest & Ef & Hrest & Hlen) Hr Hch Her. set (i := if ch =? 32 then IN_SPACE else IN_CHAR).
  assert (exists r, cparser_state_func_tbl (state (fsm p)) i (is_privileged_mode (ln p)) (fsm p) ch = Ok r /\
                    represents (settle i r) (feed (is_privileged_mode (ln p)) a ch)) as (rr & Err & Hrep).
  { rewrite Ef. unfold i. destruct a as [cl cur o good [|bad]].
    - destruct o as [[b w]|]; [|by apply ws_feed].
      cbn [layout state machine_state m_bad m_open cparser_state_func_tbl].
      destruct (ch =? 32) eqn:E; zify_bool; [subst ch; by apply tok_space_feed | by apply tok_char_feed].
    - cbn [layout state machine_state m_bad m_open].
      eexists (layout _ nd rest, CPARSER_STATE_ERROR, true).
      split; [destruct (ch =? 32); reflexivity|].
      rewrite settle_fail by (done || by destruct (ch =? 32)). by apply represents_layout. }
  exists (settle i rr). split; [|done]. apply (fsm_input_settle p ch i rr); [done| |done].
  rewrite Her. split; [|done]. rewrite Ef. apply Hr.
Qed.

(** *** An erase *)

Lemma settle_erase cur s tos pos good ts : s <> CPARSER_STATE_ERROR -> 0 <= pos < 383 -> forall s0,
  settle IN_ERASE (Fsm cur s0 tos pos good ts, s, true) = Fsm cur s tos pos (pos - 1) ts.
Proof.
  intros Hs Hp s0. unfold settle. fsm_cbn. rewrite bool_decide_eq_false_2 by done. fsm_cbn.
  by rewrite s16_small by lia.
Qed.

(** What an erase relies on. *)
Record erasable (a : machine) : Prop := {
  er_place : placed a;
  er_word : m_bad a = O ->
            match m_open a with Some (_, w) => Zlen w <= CPARSER_MAX_TOKEN_SIZE | None => True end;
  er_pos : 0 < m_good a + Z.of_nat (m_bad a) <= CPARSER_MAX_LINE_SIZE - 1;
}.

Lemma ws_unfeed priv cl cur good nd rest ch :
  let a := Machine cl cur None good 0 in
  erasable a -> Forall unused rest -> Zlen cl + 1 + Zlen rest = CPARSER_MAX_NUM_TOKENS ->
  exists r, cparser_ws_erase priv (layout a nd rest) ch = Ok r /\ represents (settle IN_ERASE r) (unfeed a).
Proof.
  intros a. subst a. intros [Hpl _ Hpos] Hrest Hlen.
  unfold placed in Hpl. cbn [m_good m_bad m_cur m_closed m_open] in *.
  unfold CPARSER_MAX_LINE_SIZE, CPARSER_MAX_NUM_TOKENS in *.
  unfold cparser_ws_erase, unfeed. fsm_cbn. rewrite (proj2 (Z.ltb_lt 0 _)) by lia.
  rewrite s16_small by lia. replace (good + Z.of_nat 0 - 1) with (good - 1) by lia.
  destruct cl as [|[b w par n] cl].
  - change (Zlen []) with 0. cbn [Z.ltb Z.compare]. eexists. split; [reflexivity|].
    rewrite settle_erase by (done || lia). exists nd, rest. split; [|done]. unfold layout. fsm_cbn.
    change (Zlen []) with 0. f_equal; lia.
  - rewrite Zlen_cons in *. pose proof (Zlen_nonneg cl). pose proof (Zlen_nonneg rest).
    rewrite (proj2 (Z.ltb_lt 0 _)) by lia.
    rewrite Z.add_simpl_r. rewrite reverse_cons, fmap_app, <- app_assoc. cbn [fmap list_fmap app].
    change (closed_token (Closed b w par n)) with (Token b (Zlen w) (pad w) (Some par) (Some n)).
    rewrite top_at. fsm_cbn.
    destruct (good - 1 <=? b + Zlen w) eqn:E.
    + rewrite top_put. fsm_cbn. rewrite next_at. fsm_cbn.
      change (wr (pad []) 0 0) with (Ok (pad [])). fsm_cbn.
      replace ((closed_token <$> reverse cl) ++ Token b (Zlen w) (pad w) None (Some n) :: Token (-1) 0 (pad []) None nd :: rest)
        with (((closed_token <$> reverse cl) ++ [Token b (Zlen w) (pad w) None (Some n)]) ++ Token (-1) 0 (pad []) None nd :: rest)
        by (by rewrite <- app_assoc).
      rewrite wr_mid by (rewrite Zlen_app, Zlen_closed; done). fsm_cbn. rewrite s16_small by lia.
      eexists. split; [reflexivity|]. rewrite settle_erase by (done || lia).
      exists (Some n), (open_token None None :: rest). split; [|split].
      * unfold layout. fsm_cbn. rewrite <- app_assoc. f_equal; lia.
      * apply Forall_cons. split; [by exists None | done].
      * cbn [m_closed]. unfold CPARSER_MAX_NUM_TOKENS. rewrite Zlen_cons. lia.
    + eexists. split; [reflexivity|]. rewrite settle_erase by (done || lia).
      exists nd, rest. split; [|split; [done|]].
      * unfold layout. fsm_cbn. rewrite Zlen_cons, reverse_cons, fmap_app, <- app_assoc. f_equal; lia.
      * cbn [m_closed]. unfold CPARSER_MAX_NUM_TOKENS. rewrite Zlen_cons. lia.
Qed.

Lemma tok_unfeed priv cl cur b w good nd rest ch :
  let a := Machine cl cur (Some (b, w)) good 0 in
  erasable a -> Forall unused rest -> Zlen cl + 1 + Zlen rest = CPARSER_MAX_NUM_TOKENS ->
  exists r, cparser_tok_erase priv (layout a nd rest) ch = Ok r /\ represents (settle IN_ERASE r) (unfeed a).
Proof.
  intros a. subst a. intros [[Hpl _] Hw Hpos] Hrest Hlen. specialize (Hw eq_refl). cbn [m_good m_bad m_cur m_closed m_open] in *.
  unfold CPARSER_MAX_LINE_SIZE, CPARSER_MAX_NUM_TOKENS, CPARSER_MAX_TOKEN_SIZE in *.
  destruct Hpl as (Hne & Hg & Hb). destruct w as [|x w _] using rev_ind; [done|].
  unfold cparser_tok_erase, unfeed, CUR_TOKEN. fsm_cbn. rewrite top_at. fsm_cbn.
  rewrite removelast_last. rewrite Zlen_app in *. change (Zlen [x]) with 1 in *. pose proof (Zlen_nonneg w).
  unfold DELETE_TOK_STK. fsm_cbn. rewrite (proj2 (Z.eqb_neq _ 0)) by lia. rewrite !s16_small by lia.
  replace (Zlen w + 1 - 1) with (Zlen w) by lia. rewrite pad_delete by (unfold CPARSER_MAX_TOKEN_SIZE; lia). fsm_cbn.
  replace (good + Z.of_nat 0 - 1) with (good - 1) by lia.
  destruct w as [|y w].
  - change (Zlen []) with 0 in *. cbn [Z.eqb]. rewrite top_put. fsm_cbn. eexists. split; [reflexivity|].
    rewrite settle_erase by (done || lia). exists nd, rest. split; [|done].
    rewrite bool_decide_eq_true_2 by done. unfold layout. fsm_cbn. f_equal; lia.
  - rewrite (proj2 (Z.eqb_neq _ 0)) by zl. rewrite top_put. fsm_cbn. eexists. split; [reflexivity|].
    rewrite settle_erase by (done || lia). exists nd, rest. split; [|done].
    rewrite bool_decide_eq_false_2 by done. unfold layout. fsm_cbn. f_equal; lia.
Qed.

Lemma err_unfeed priv cl cur o good bad nd rest ch :
  let a := Machine cl cur o good (S bad) in
  erasable a -> Forall unused rest -> Zlen cl + 1 + Zlen rest = CPARSER_MAX_NUM_TOKENS ->
  exists r, cparser_err_erase priv (layout a nd rest) ch = Ok r /\ represents (settle IN_ERASE r) (unfeed a).
Proof.
  intros a. subst a. intros [[Hpl H0] _ Hpos] Hrest Hlen. cbn [m_good m_bad m_cur m_closed m_open] in *.
  unfold CPARSER_MAX_LINE_SIZE, CPARSER_MAX_NUM_TOKENS in *.
  unfold cparser_err_erase, unfeed, CUR_TOKEN. fsm_cbn. rewrite (proj2 (Z.ltb_lt 0 _)) by lia.
  cbn [assert_]. fsm_cbn. rewrite s16_small by lia. destruct bad as [|bad].
  - rewrite (proj2 (Z.eqb_eq _ _)) by lia. rewrite top_at. fsm_cbn. destruct o as [[b w]|]; fsm_cbn.
    + rewrite (proj2 (Z.leb_le _ _)) by lia. eexists. split; [reflexivity|].
      rewrite settle_erase by (done || lia). exists nd, rest. split; [|done]. unfold layout. fsm_cbn. f_equal; lia.
    + rewrite (proj2 (Z.leb_gt _ _)) by lia. eexists. split; [reflexivity|].
      rewrite settle_erase by (done || lia). exists nd, rest. split; [|done]. unfold layout. fsm_cbn. f_equal; lia.
  - rewrite (proj2 (Z.eqb_neq _ _)) by lia. eexists. split; [reflexivity|].
    exists nd, rest. split; [|done]. unfold settle. rewrite bool_decide_eq_true_2 by done.
    unfold layout. fsm_cbn. f_equal; lia.
Qed.

Lemma fsm_input_unfeed p a ch :
  quiet p -> represents (fsm p) a -> erasable a -> is_erase (cfg p) ch = true ->
  exists f', cparser_fsm_input p ch = Ok (set_fsm p f', CPARSER_OK) /\ represents f' (unfeed a).
Proof.
  intros Hq (nd & rest & Ef & Hrest & Hlen) He Her.
  assert (exists r, cparser_state_func_tbl (state (fsm p)) IN_ERASE (is_privileged_mode (ln p)) (fsm p) ch = Ok r /\
                    represents (settle IN_ERASE r) (unfeed a)) as (rr & Err & Hrep).
  { rewrite Ef. destruct a as [cl cur o good [|bad]];
      cbn [layout state machine_state m_bad m_open cparser_state_func_tbl].
    - destruct o as [[b w]|]; [by apply tok_unfeed | by apply ws_unfeed].
    - by apply err_unfeed. }
  exists (settle IN_ERASE rr). split; [|done]. apply (fsm_input_settle p ch IN_ERASE rr); [done| |done].
  rewrite Her. split; [done|]. rewrite Ef. apply He.
Qed.

(** ** Texts *)

(** The length of the run of non-blanks at the end of a text. *)
Definition last_run (t : list Z) : Z := foldl (fun k c => if c =? 32 then 0 else k + 1) 0 t.

(** A text the machine can take: no NUL, no erase character, short enough for the machine, and no word
    that would fill the buffer of a token. *)
Definition text_ok (c : cparser_cfg_t) (t : list Z) : Prop :=
  Forall (fun x => char_ok x /\ is_erase c x = false) t /\ Zlen t <= CPARSER_MAX_LINE_SIZE - 1 /\
  forall p q, t = p ++ q -> last_run p <= CPARSER_MAX_TOKEN_SIZE - 1.

Lemma text_ok_prefix c t q : text_ok c (t ++ q) -> text_ok c t.
Proof.
  intros (H1 & H2 & H3). apply Forall_app in H1 as [H1 _]. rewrite Zlen_app in H2. pose proof (Zlen_nonneg q).
  split; [done|]. split; [lia|]. intros p q' ->. apply (H3 p (q' ++ q)). by rewrite app_assoc.
Qed.

Lemma run_word priv r t : Forall char_ok t ->
  match m_open (run priv r t) with
  | Some (_, w) => Forall char_ok w /\ Zlen w <= last_run t
  | None => True
  end \/ m_bad (run priv r t) <> O.
Proof.
  induction t as [|c t IH] using rev_ind; [by left|]. intros [Ht Hc]%Forall_app. specialize (IH Ht).
  rewrite run_snoc. unfold last_run. rewrite foldl_app. cbn [foldl]. fold (last_run t).
  revert IH. destruct (run priv r t) as [cl cur o g [|bad]]; unfold feed, fail;
    cbn [m_closed m_cur m_open m_good m_bad]; [|intros _; right; lia].
  intros [IH|IH]; [|done]. destruct o as [[b w]|], (c =? 32).
  - destruct (best priv w cur) as [[m [|]]|]; cbn; first [by left | right; lia].
  - destruct (_ <? _); [|right; cbn; lia]. destruct (best _ _ _); cbn; [left|right; lia].
    destruct IH as [IH1 IH2]. rewrite Zlen_app. change (Zlen [c]) with 1. split; [|lia].
    by apply Forall_app_2.
  - by left.
  - destruct (best _ _ _); cbn; [left|right; lia]. change (Zlen [c]) with 1.
    split; [done|]. enough (0 <= last_run t) by lia. clear.
    induction t as [|x t IH] using rev_ind; [done|]. unfold last_run. rewrite foldl_app. cbn [foldl].
    fold (last_run t). destruct (x =? 32); lia.
Qed.

Lemma run_tree priv r t h : tree_ok h r ->
  exists h', tree_ok h' (m_cur (run priv r t)) /\ (h' + length (m_closed (run priv r t)) = h)%nat.
Proof.
  intros Hr. induction t as [|c t IH] using rev_ind; [exists h; split; [done | cbn; lia]|].
  rewrite run_snoc. destruct IH as (h' & Ht & Hl). revert Ht Hl.
  destruct (run priv r t) as [cl cur o g [|bad]]; unfold feed, fail;
    cbn [m_closed m_cur m_open m_good m_bad]; intros Ht Hl; [|by exists h'].
  destruct o as [[b w]|], (c =? 32).
  - destruct (best priv w cur) as [[m [|]]|] eqn:Eb; cbn [m_closed m_cur]; [|by exists h'..].
    destruct (tree_ok_best _ _ _ _ _ _ Ht Eb) as (h'' & -> & Ht'' & _). exists h''. cbn [length] in *.
    split; [done | lia].
  - destruct (_ <? _); [|by exists h']. destruct (best _ _ _); by exists h'.
  - by exists h'.
  - destruct (best _ _ _); by exists h'.
Qed.

Definition max_depth : nat := Z.to_nat CPARSER_MAX_NUM_TOKENS.

Lemma text_ok_chars c t : text_ok c t -> Forall char_ok t.
Proof. intros [H _]. eapply Forall_impl; [exact H|]. by intros x [? _]. Qed.

Lemma ready_run cf priv r t ch :
  tree_ok max_depth r -> text_ok cf (t ++ [ch]) -> ready (run priv r t).
Proof.
  intros Hr Hok. pose proof (text_ok_prefix _ _ _ Hok) as Ht. pose proof (text_ok_chars _ _ Ht) as Hc.
  destruct Hok as (_ & Hlen & _). rewrite Zlen_app in Hlen. change (Zlen [ch]) with 1 in Hlen.
  pose proof (run_pos priv r t) as Hp. split.
  - destruct (run_tree priv r t max_depth Hr) as (h' & Ht' & Hl). unfold max_depth in Hl.
    by replace (Z.to_nat CPARSER_MAX_NUM_TOKENS - length (m_closed (run priv r t)))%nat with h' by lia.
  - intros H0. destruct (run_word priv r t Hc) as [H|H]; [|done].
    destruct (m_open _) as [[b w]|]; [|done]. destruct H as [Hw Hl]. split; [done|].
    destruct Ht as (_ & _ & H3). specialize (H3 t [] (eq_sym (app_nil_r t))). lia.
  - apply run_placed.
  - lia.
Qed.

Lemma erasable_run cf priv r t :
  text_ok cf t -> t <> [] -> erasable (run priv r t).
Proof.
  intros Ht Hne. pose proof (text_ok_chars _ _ Ht) as Hc. pose proof (run_pos priv r t) as Hp.
  destruct Ht as (_ & Hlen & H3). split.
  - apply run_placed.
  - intros H0. destruct (run_word priv r t Hc) as [H|H]; [|done].
    destruct (m_open _) as [[b w]|]; [|done]. destruct H as [_ Hl].
    specialize (H3 t [] (eq_sym (app_nil_r t))). lia.
  - rewrite Hp. split; [|done]. destruct t; [done|]. zl.
Qed.

(** *** The parser tracks a text *)

(** The state machine of [p] is where the text [t] takes it from the root [r]. *)
Definition tracks (p : cparser) (r : cparser_node_t) (t : list Z) : Prop :=
  represents (fsm p) (run (is_privileged_mode (ln p)) r t).

Lemma tracks_char p r t ch :
  quiet p -> tree_ok max_depth r -> tracks p r t -> text_ok (cfg p) (t ++ [ch]) ->
  exists f', cparser_fsm_input p ch = Ok (set_fsm p f', CPARSER_OK) /\ tracks (set_fsm p f') r (t ++ [ch]).
Proof.
  intros Hq Hr Ht Hok. pose proof Hok as [Hc _]. apply Forall_app in Hc as [_ Hc]. apply Forall_cons in Hc as [[Hc He] _].
  destruct (fsm_input_feed p _ ch Hq Ht (ready_run _ _ _ _ _ Hr Hok) Hc He) as (f' & Ef & Hf).
  exists f'. split; [done|]. unfold tracks. rewrite run_snoc. exact Hf.
Qed.

Lemma tracks_erase p r t c ch :
  quiet p -> tracks p r (t ++ [c]) -> text_ok (cfg p) (t ++ [c]) -> is_erase (cfg p) ch = true ->
  exists f', cparser_fsm_input p ch = Ok (set_fsm p f', CPARSER_OK) /\ tracks (set_fsm p f') r t.
Proof.
  intros Hq Ht Hok He.
  destruct (fsm_input_unfeed p _ ch Hq Ht) as (f' & Ef & Hf); [|done|].
  { apply (erasable_run (cfg p)); [done | by destruct t]. }
  exists f'. split; [done|]. unfold tracks. by rewrite unfeed_run in Hf.
Qed.

(** A token array of the right shape: what [cparser_fsm_reset] needs. *)
Definition tokens_sized (f : fsm_t) : Prop :=
  Zlen (tokens f) = CPARSER_MAX_NUM_TOKENS /\
  Forall (fun t => Zlen (tbuf t) = CPARSER_MAX_TOKEN_SIZE) (tokens f).

Lemma reset_tracks p r :
  rd (root p) (root_level (ln p)) = Ok (Some r) -> tokens_sized (fsm p) ->
  exists f', cparser_fsm_reset p = Ok (set_fsm p f') /\ tracks (set_fsm p f') r [].
Proof.
  intros Hr [Hn Hb]. unfold cparser_fsm_reset. rewrite Hr. cbn [mbind outcome_bind]. eexists. split; [reflexivity|].
  unfold tracks. cbn [cparser_token_stack_reset token_tos current_pos last_good tokens set_fsm fsm ln].
  assert (Hmap : map (fun t => Token (-1) 0 (replicate (length (tbuf t)) 0) None None) (tokens (fsm p)) =
                 replicate (length (tokens (fsm p))) (open_token None None)).
  { clear Hn. induction Hb as [|t ts Ht Hts IH]; [done|]. cbn [map length replicate]. rewrite IH. f_equal.
    unfold open_token, pad. cbn [app]. do 2 f_equal. unfold Zlen in *. change (Z.of_nat (length [])) with 0.
    unfold CPARSER_MAX_TOKEN_SIZE in *. lia. }
  rewrite Hmap. exists None, (replicate 31 (open_token None None)). split; [|split].
  - unfold layout. fsm_cbn. unfold Zlen, CPARSER_MAX_NUM_TOKENS in Hn.
    replace (length (tokens (fsm p))) with 32%nat by lia. reflexivity.
  - apply Forall_replicate. by exists None.
  - reflexivity.
Qed.

Lemma last_run_le t : 0 <= last_run t <= Zlen t.
Proof.
  induction t as [|x t IH] using rev_ind; [done|]. unfold last_run. rewrite foldl_app, Zlen_app. cbn [foldl].
  fold (last_run t). change (Zlen [x]) with 1. destruct (x =? 32); lia.
Qed.

Lemma text_ok_short c t :
  Forall (fun x => char_ok x /\ is_erase c x = false) t -> Zlen t <= CPARSER_MAX_TOKEN_SIZE - 1 -> text_ok c t.
Proof.
  unfold CPARSER_MAX_TOKEN_SIZE, CPARSER_MAX_LINE_SIZE. intros Hc Hl. split; [done|].
  split; [unfold CPARSER_MAX_LINE_SIZE; lia|]. intros p q ->. rewrite Zlen_app in Hl.
  pose proof (last_run_le p). pose proof (Zlen_nonneg q). unfold CPARSER_MAX_TOKEN_SIZE. lia.
Qed.

(** ** Typing and erasing *)

Inductive edit := TypeChar (c : Z) | EraseChar.

Fixpoint type_edits (p : cparser) (es : list edit) : outcome cparser :=
  match es with
  | [] => Ok p
  | e :: es =>
      '(p, _) ← cparser_fsm_input p (match e with TypeChar c => c | EraseChar => ch_erase (cfg p) end);
      type_edits p es
  end.

(** The text that is left. *)
Fixpoint edited (t : list Z) (es : list edit) : list Z :=
  match es with
  | [] => t
  | TypeChar c :: es => edited (t ++ [c]) es
  | EraseChar :: es => edited (removelast t) es
  end.

(** Nothing is erased from an empty text, and every text on the way is one the machine can take. *)
Fixpoint edits_ok (cf : cparser_cfg_t) (t : list Z) (es : list edit) : Prop :=
  match es with
  | [] => True
  | TypeChar c :: es => text_ok cf (t ++ [c]) /\ edits_ok cf (t ++ [c]) es
  | EraseChar :: es => t <> [] /\ edits_ok cf (removelast t) es
  end.

Lemma edits_track es : forall p r t,
  quiet p -> tree_ok max_depth r -> tracks p r t -> text_ok (cfg p) t -> edits_ok (cfg p) t es ->
  exists f', type_edits p es = Ok (set_fsm p f') /\ tracks (set_fsm p f') r (edited t es).
Proof.
  induction es as [|e es IH]; intros p r t Hq Hr Ht Hok He.
  - exists (fsm p). by destruct p.
  - assert (exists f t', cparser_fsm_input p (match e with TypeChar c => c | EraseChar => ch_erase (cfg p) end) =
                         Ok (set_fsm p f, CPARSER_OK) /\ tracks (set_fsm p f) r t' /\ text_ok (cfg p) t' /\
                         edits_ok (cfg p) t' es /\ edited t (e :: es) = edited t' es)
      as (f & t' & E1 & Ht' & Hok' & He' & ->).
    { destruct e as [c|]; cbn [edits_ok edited] in *.
      - destruct He as [Hok' He]. destruct (tracks_char p r t c Hq Hr Ht Hok') as (f & E & Hf). by exists f, (t ++ [c]).
      - destruct He as [Hne He]. destruct t as [|c t _] using rev_ind; [done|]. rewrite removelast_last in *.
        destruct (tracks_erase p r t c (ch_erase (cfg p)) Hq Ht Hok) as (f & E & Hf).
        { unfold is_erase. by rewrite Z.eqb_refl. }
        exists f, t. by apply text_ok_prefix in Hok. }
    destruct (IH (set_fsm p f) r t' Hq Hr Ht' Hok' He') as (f' & E2 & Hf').
    exists f'. split; [|exact Hf']. cbn [type_edits]. rewrite E1. cbn [mbind outcome_bind]. exact E2.
Qed.

(** C6: whatever is typed and erased after a reset, as long as there is something to erase and every
    text on the way is one the machine has room for ([edits_ok]: at most 382 characters, no word of
    more than 255, no NUL and no erase character among those typed), the machine neither fails an
    assertion nor leaves its arrays, and it ends in the state that the remaining text determines: the
    tokens, the node reached, the state, the position and the last good position are those of typing
    just that text, an erase undoing exactly one character, errors and token boundaries included.
    The tree has at most 32 levels.  A word of 256 characters is beyond the condition and does
    overrun its token ([token_of_256_overruns] of CliFaults). *)
Theorem fsm_tracks_text p r es :
  quiet p -> rd (root p) (root_level (ln p)) = Ok (Some r) -> tree_ok max_depth r -> tokens_sized (fsm p) ->
  edits_ok (cfg p) [] es ->
  exists p0 f', cparser_fsm_reset p = Ok p0 /\ type_edits p0 es = Ok (set_fsm p f') /\
    represents f' (run (is_privileged_mode (ln p)) r (edited [] es)).
Proof.
  intros Hq Hroot Hr Hs He. destruct (reset_tracks p r Hroot Hs) as (f0 & E0 & H0).
  destruct (edits_track es (set_fsm p f0) r [] Hq Hr H0) as (f' & E & Hf); [|done|].
  { apply text_ok_short; [done|]. change (Zlen []) with 0. done. }
  by exists (set_fsm p f0), f'.
Qed.

Section Example_tree.
(** "show" with an unsigned number, or "stop". *)
Definition ex_end : cparser_node_t := Node CPARSER_NODE_END 0 (PGlue 0) None [].
Definition ex_num : cparser_node_t := Node CPARSER_NODE_UINT 0 (PStr []) None [ex_end].
Definition ex_show : cparser_node_t := Node CPARSER_NODE_KEYWORD 0 (PStr [115;104;111;119]) None [ex_num].
Definition ex_stop : cparser_node_t := Node CPARSER_NODE_KEYWORD 0 (PStr [115;116;111;112]) None [ex_end].
Definition ex_root : cparser_node_t := Node CPARSER_NODE_ROOT 0 (PStr []) None [ex_show; ex_stop].

Definition ex_cfg : cparser_cfg_t := Cfg (Some ex_root) 9 8 127 63 [62; 0] 1 0.
Definition ex_line : cparser_line_t := Line 0 0 (replicate 384 0).
Definition ex_parser : cparser :=
  CParser (Parser 0 (replicate 4 (62 :: replicate 15 0)) false 0 0 (replicate 10 ex_line) [])
          ex_cfg (Some ex_root :: replicate 3 None)
          (Fsm None CPARSER_STATE_ERROR 5 7 3 (replicate 32 empty_token)) false (replicate 4 None)
          (User None 0 0 false None) (Command (-1) CPARSER_ERR_NOT_EXIST None).
End Example_tree.

Lemma ex_root_ok : tree_ok max_depth ex_root.
Proof.
  change max_depth with 32%nat.
  repeat first [progress cbn [tree_ok node_ok n_type n_param n_children ex_root ex_show ex_stop ex_num ex_end]
               | done | by_compute | apply List.Forall_nil | apply List.Forall_cons | split | intros _].
Qed.

(** "shox", the "x" erased, "w 7" and a second number that is too much, erased again. *)
Lemma fsm_tracks_text_witness :
  let es := (TypeChar <$> [115;104;111;120]) ++ [EraseChar] ++ (TypeChar <$> [119;32;55;32;55]) ++ [EraseChar] in
  edits_ok (cfg ex_parser) [] es /\
  exists p0 f', cparser_fsm_reset ex_parser = Ok p0 /\ type_edits p0 es = Ok (set_fsm ex_parser f') /\
    represents f' (run false ex_root [115;104;111;119;32;55;32]) /\ token_tos f' = 2 /\
    state f' = CPARSER_STATE_WHITESPACE.
Proof.
  intros es. assert (He : edits_ok (cfg ex_parser) [] es).
  { cbn [edits_ok es fmap list_fmap app removelast]. repeat first [done | apply text_ok_short; by_compute | split]. }
  split; [exact He|].
  assert (Hs : tokens_sized (fsm ex_parser)) by (split; [reflexivity | by_compute]).
  destruct (fsm_tracks_text ex_parser ex_root es eq_refl eq_refl ex_root_ok Hs He) as (p0 & f' & E0 & E & Hf).
  exists p0, f'. split; [exact E0|]. split; [exact E|]. split; [exact Hf|].
  destruct Hf as (nd & rest & -> & _). split; reflexivity.
Defined.
