(* ===== verification/CliWords.v ===== *)
(** * CLI parser: the state machine as a parser of words

    The state machine of CliFsm works character by character and rejects a
    character as soon as no node matches.  This file shows that the outcome is the
    same as splitting the line into words and looking each word up among the
    children of the node the word before it selected: a token's prefixes match
    whatever the token matches, so no word is rejected too early.  FLOAT nodes are
    the exception (see [match_float_leading_point] in CliValue). *)

From stdpp Require Import base numbers list list_numbers.
From S2P Require Import Prelude CliLine CliToken CliFsm.

#[local] Open Scope Z_scope.

(** ** Prefixes of a token *)

Lemma prefixb_snoc s c kw : prefixb (s ++ [c]) kw = true -> prefixb s kw = true.
Proof.
  revert kw. induction s as [|x s IH]; intros [|y kw]; cbn; try done.
  intros [-> H]%andb_prop. by apply IH.
Qed.

Lemma forallb_snoc {A} (p : A -> bool) s c : forallb p (s ++ [c]) = true -> forallb p s = true.
Proof. rewrite forallb_app. by intros [-> _]%andb_prop. Qed.

Lemma uint_text_prefix s c : s <> [] -> uint_text (s ++ [c]) <> None -> uint_text s <> None.
Proof.
  intros Hs. unfold uint_text. destruct s as [|t0 s1]; [done|]. cbn [app].
  destruct (isdigit t0); cbn [negb]; [|done]. destruct s1 as [|t1 s2]; [done|]. cbn [app].
  destruct (t1 =? 120).
  - destruct (t0 =? 48); [|done]. destruct (forallb isxdigit (s2 ++ [c])) eqn:F; [|done].
    by rewrite (forallb_snoc _ _ _ F).
  - destruct (forallb isdigit (t1 :: s2 ++ [c])) eqn:F; [|done]. intros _.
    by rewrite (forallb_snoc isdigit (t1 :: s2) c F).
Qed.

Lemma int_text_prefix s c : s <> [] -> int_text (s ++ [c]) <> None -> int_text s <> None.
Proof.
  intros Hs. unfold int_text. destruct s as [|t0 s1]; [done|]. cbn [app].
  destruct (_ || _); [|done]. destruct (forallb isdigit (s1 ++ [c])) eqn:F; [|done].
  by rewrite (forallb_snoc _ _ _ F).
Qed.

Lemma hex_text_prefix s c : s <> [] -> hex_text (s ++ [c]) <> None -> hex_text s <> None.
Proof.
  intros Hs. unfold hex_text. destruct s as [|t0 s1]; [done|]. cbn [app].
  destruct (t0 =? 48); cbn [negb]; [|done]. destruct s1 as [|t1 s2]; [done|]. cbn [app].
  destruct (t1 =? 120); cbn [negb]; [|done]. destruct (forallb isxdigit (s2 ++ [c])) eqn:F; [|done].
  by rewrite (forallb_snoc _ _ _ F).
Qed.

Lemma mac_text_prefix s c : forall nd nc, mac_text (s ++ [c]) nd nc <> None -> mac_text s nd nc <> None.
Proof.
  induction s as [|x s IH]; intros nd nc; [done|]. cbn [app mac_text].
  destruct (_ && _); [apply IH|]. destruct (_ && _ && _); [apply IH | done].
Qed.

Lemma ipv4_text_prefix s c : forall nd nd' v, ipv4_text (s ++ [c]) nd nd' v <> None -> ipv4_text s nd nd' v <> None.
Proof.
  induction s as [|x s IH]; intros nd nd' v; [done|]. cbn [app ipv4_text].
  destruct (_ && _); [destruct (_ <? _); [done | apply IH]|].
  destruct (_ && _ && _); [apply IH | done].
Qed.

Lemma list_text_prefix ks s c : list_text ks (s ++ [c]) <> None -> list_text ks s <> None.
Proof.
  unfold list_text. intros H.
  destruct (filter (fun kw => prefixb (s ++ [c]) kw) ks) as [|kw l] eqn:E; [done|].
  assert (Hin : kw ∈ filter (fun kw => prefixb (s ++ [c]) kw) ks) by (rewrite E; left).
  apply list_elem_of_filter in Hin as [Hp Hin]. apply Is_true_true in Hp. apply prefixb_snoc in Hp.
  assert (Hin' : kw ∈ filter (fun kw => prefixb s kw) ks)
    by (apply list_elem_of_filter; split; [by apply Is_true_true | done]).
  destruct (filter (fun kw => prefixb s kw) ks) as [|? [|? ?]]; [by apply not_elem_of_nil in Hin' | done..].
Qed.

(** A node matches every prefix of what it matches, unless it is a FLOAT. *)
Lemma match_text_prefix n s c :
  n_type n <> CPARSER_NODE_FLOAT -> s <> [] -> match_text n (s ++ [c]) <> None -> match_text n s <> None.
Proof.
  intros Hf Hs. unfold match_text.
  destruct (n_type n); try done; try (by apply uint_text_prefix); try (by apply int_text_prefix);
    try (by apply hex_text_prefix); try (by apply mac_text_prefix); try (by apply ipv4_text_prefix).
  - destruct (n_param n) as [kw| |]; try done. destruct (prefixb (s ++ [c]) kw) eqn:E; [|done].
    by rewrite (prefixb_snoc _ _ _ E).
  - destruct (n_param n); try done. apply list_text_prefix.
Qed.

(** ** Prefixes of a match *)

Lemma pick_some priv s children : forall a,
  m_match (pick priv s children a) <> None <->
  m_match a <> None \/ Exists (fun n => NODE_USABLE priv n = true /\ match_text n s <> None) children.
Proof.
  induction children as [|child children IH]; intros a; cbn [pick foldl].
  - rewrite Exists_nil. tauto.
  - specialize (IH (if NODE_USABLE priv child then better a child (match_text child s) else a)).
    unfold pick in IH. rewrite IH, Exists_cons.
    assert (Hb : m_match (if NODE_USABLE priv child then better a child (match_text child s) else a) <> None <->
                 m_match a <> None \/ (NODE_USABLE priv child = true /\ match_text child s <> None)).
    { destruct (NODE_USABLE priv child); [|intuition congruence]. unfold better.
      destruct (match_text child s) as [b|]; [|intuition congruence].
      destruct (m_match a) eqn:E; [destruct (negb _ && _)|]; cbn; intuition congruence. }
    rewrite Hb. tauto.
Qed.

Lemma best_some priv s n :
  best priv s n <> None <-> Exists (fun n => NODE_USABLE priv n = true /\ match_text n s <> None) (n_children n).
Proof.
  unfold best. pose proof (pick_some priv s (n_children n) (MatchAcc None false 0)) as H. cbn [m_match] in H.
  destruct (m_match (pick _ _ _ _)); intuition congruence.
Qed.

Definition no_float (n : cparser_node_t) : Prop := Forall (fun c => n_type c <> CPARSER_NODE_FLOAT) (n_children n).

Lemma best_prefix priv s c n :
  no_float n -> s <> [] -> best priv (s ++ [c]) n <> None -> best priv s n <> None.
Proof.
  rewrite !best_some. intros Hf Hs He. rewrite !Exists_exists in *. destruct He as (m & Hin & Hu & Hm).
  exists m. split; [done|]. split; [done|]. unfold no_float in Hf. rewrite Forall_forall in Hf.
  by apply (match_text_prefix m s c (Hf m Hin) Hs).
Qed.

(** ** Words *)

(** The nodes the words select, one below the other: [None] when a word selects none, or none
    completely. *)
Fixpoint resolve (priv : bool) (n : cparser_node_t) (ws : list (list Z)) : option cparser_node_t :=
  match ws with
  | [] => Some n
  | w :: ws =>
      match best priv w n with
      | Some (m, true) => resolve priv m ws
      | _ => None
      end
  end.

(** Each word with the blanks before it; one blank ends it. *)
Definition spread (ws : list (nat * list Z)) : list Z :=
  concat ((fun '(k, w) => replicate k 32 ++ w ++ [32]) <$> ws).

Definition word_ok (w : list Z) : Prop :=
  w <> [] /\ Forall (fun c => c <> 32) w /\ Zlen w <= CPARSER_MAX_TOKEN_SIZE - 1.

(** No FLOAT in the first [h] levels. *)
Fixpoint floatless (h : nat) (n : cparser_node_t) : Prop :=
  match h with
  | O => True
  | S h => no_float n /\ Forall (floatless h) (n_children n)
  end.

Definition idle (a : machine) : Prop := m_open a = None /\ m_bad a = O.

Lemma feed_blanks priv k : forall a, idle a ->
  idle (foldl (feed priv) a (replicate k 32)) /\ m_cur (foldl (feed priv) a (replicate k 32)) = m_cur a.
Proof.
  induction k as [|k IH]; intros a Ha; [done|]. cbn [replicate foldl].
  assert (Hf : idle (feed priv a 32) /\ m_cur (feed priv a 32) = m_cur a).
  { destruct Ha as [Ho Hb]. unfold feed. rewrite Ho, Hb. done. }
  destruct Hf as [Hf <-]. by apply IH.
Qed.

Lemma bad_stays priv t : forall a, m_bad a <> O -> m_bad (foldl (feed priv) a t) <> O.
Proof.
  induction t as [|c t IH]; intros a Ha; [done|]. cbn [foldl]. apply IH. unfold feed.
  destruct (m_bad a) eqn:E; [done|]. cbn. lia.
Qed.

(** The characters of a word open a token with that text, if the node has a match for it. *)
Lemma feed_word priv a w :
  idle a -> no_float (m_cur a) -> word_ok w ->
  match best priv w (m_cur a) with
  | Some _ => exists b, foldl (feed priv) a w = Machine (m_closed a) (m_cur a) (Some (b, w)) (m_good a + Zlen w) 0
  | None => m_bad (foldl (feed priv) a w) <> O
  end.
Proof.
  intros [Ho Hb] Hf (Hne & Hsp & Hlen). revert Hne Hsp Hlen.
  induction w as [|c w IH] using rev_ind; [done|]. intros _ [Hsp Hc]%Forall_app Hlen.
  apply Forall_cons in Hc as [Hc _]. rewrite Zlen_app in *. change (Zlen [c]) with 1 in *.
  rewrite foldl_app. cbn [foldl]. destruct w as [|x w].
  - cbn [foldl app]. unfold feed. rewrite Hb, Ho, (proj2 (Z.eqb_neq _ _) Hc).
    destruct (best priv [c] (m_cur a)); [by exists (m_good a) | cbn; lia].
  - specialize (IH ltac:(done) Hsp ltac:(lia)).
    destruct (best priv (x :: w) (m_cur a)) as [mc|] eqn:Eb.
    + destruct IH as (b & ->). unfold feed. cbn [m_bad m_open m_cur m_closed m_good].
      rewrite (proj2 (Z.eqb_neq _ _) Hc), (proj2 (Z.ltb_lt _ _)) by lia.
      destruct (best priv ((x :: w) ++ [c]) (m_cur a)); [|cbn; lia]. exists b. f_equal. lia.
    + assert (Hn : best priv ((x :: w) ++ [c]) (m_cur a) = None).
      { destruct (best priv ((x :: w) ++ [c]) (m_cur a)) eqn:E; [|done].
        exfalso. by apply (best_prefix priv (x :: w) c (m_cur a) Hf); [|rewrite E|]. }
      rewrite Hn. by apply (bad_stays priv [c]).
Qed.

(** No FLOAT in the tree. *)
Definition float_free (n : cparser_node_t) : Prop := forall h, floatless h n.

Lemma float_free_best n priv w m c : float_free n -> best priv w n = Some (m, c) -> float_free m.
Proof.
  intros H Hb h. destruct (H (S h)) as [_ Hc]. apply best_child in Hb as [Hin _].
  rewrite Forall_forall in Hc. by apply Hc.
Qed.

Lemma feed_spread priv ws : forall a,
  idle a -> float_free (m_cur a) -> Forall (fun '(_, w) => word_ok w) ws ->
  let a' := foldl (feed priv) a (spread ws) in
  match resolve priv (m_cur a) (snd <$> ws) with
  | Some n => idle a' /\ m_cur a' = n /\ c_text <$> m_closed a' = reverse (snd <$> ws) ++ (c_text <$> m_closed a)
  | None => m_bad a' <> O
  end.
Proof.
  induction ws as [|[k w] ws IH]; intros a Ha Hf Hw; [done|].
  apply Forall_cons in Hw as [Hw Hws].
  cbn [spread fmap list_fmap concat resolve snd]. cbv zeta.
  change (concat _) with (spread ws). rewrite !foldl_app. cbn [foldl].
  destruct (feed_blanks priv k a Ha) as [Hi Hcur]. set (a1 := foldl (feed priv) a (replicate k 32)) in *.
  assert (Hcl : m_closed a1 = m_closed a).
  { unfold a1. clear -Ha. revert a Ha. induction k as [|k IH]; intros a Ha; [done|]. cbn [replicate foldl].
    destruct Ha as [Ho Hb]. rewrite IH; unfold feed; rewrite Ho, Hb; done. }
  rewrite <- Hcur, <- Hcl in *. destruct (Hf 1%nat) as [Hnf _]. pose proof (feed_word priv a1 w Hi Hnf Hw) as Hfw.
  destruct (best priv w (m_cur a1)) as [[m c]|] eqn:Eb.
  - destruct Hfw as (b & ->). set (a2 := Machine _ _ _ _ _).
    assert (E32 : feed priv a2 32 =
      if c then Machine (Closed b w (m_cur a1) m :: m_closed a1) m None (m_good a1 + Zlen w + 1) 0 else fail a2).
    { unfold feed, a2. cbn [m_bad m_open m_cur m_closed m_good Z.eqb Pos.eqb]. rewrite Eb. by destruct c. }
    rewrite E32. destruct c.
    + specialize (IH (Machine (Closed b w (m_cur a1) m :: m_closed a1) m None (m_good a1 + Zlen w + 1) 0)).
      cbn [m_cur m_closed fmap list_fmap c_text] in IH.
      specialize (IH ltac:(done) (float_free_best _ _ _ _ _ Hf Eb) Hws). cbv zeta in IH.
      destruct (resolve priv m (snd <$> ws)); [|exact IH]. destruct IH as (H1 & H2 & H3).
      split; [exact H1|]. split; [exact H2|]. rewrite reverse_cons, <- app_assoc. exact H3.
    + apply (bad_stays priv). cbn. lia.
  - apply (bad_stays priv). apply (bad_stays priv [32]). exact Hfw.
Qed.

(** Typing a text. *)
Lemma edits_ok_chars cf s : forall t, text_ok cf (t ++ s) -> edits_ok cf t (TypeChar <$> s).
Proof.
  induction s as [|c s IH]; intros t Ht; [done|]. cbn [fmap list_fmap edits_ok].
  replace (t ++ c :: s) with ((t ++ [c]) ++ s) in Ht by (by rewrite <- app_assoc).
  split; [by apply text_ok_prefix in Ht | by apply IH].
Qed.

Lemma edited_chars s : forall t, edited t (TypeChar <$> s) = t ++ s.
Proof.
  induction s as [|c s IH]; intros t; cbn [fmap list_fmap edited]; [by rewrite app_nil_r|].
  by rewrite IH, <- app_assoc.
Qed.

(** C7: typing words separated by blanks into the state machine gives what looking the words up one
    after the other gives: if each word selects a child of the node before it completely, the machine
    is between tokens at the last node, and its stack holds the words; otherwise it is in the error
    state.  (In a tree without FLOAT nodes.) *)
Theorem fsm_parses_words p r ws :
  quiet p -> rd (root p) (root_level (ln p)) = Ok (Some r) -> tree_ok max_depth r -> float_free r ->
  tokens_sized (fsm p) -> Forall (fun '(_, w) => word_ok w) ws -> text_ok (cfg p) (spread ws) ->
  exists p0 f', cparser_fsm_reset p = Ok p0 /\ type_edits p0 (TypeChar <$> spread ws) = Ok (set_fsm p f') /\
    match resolve (is_privileged_mode (ln p)) r (snd <$> ws) with
    | Some n =>
        state f' = CPARSER_STATE_WHITESPACE /\ cur_node f' = Some n /\
        token_tos f' = Zlen ws /\
        exists toks rest, tokens f' = toks ++ rest /\
          (fun t => take (Z.to_nat (token_len t)) (tbuf t)) <$> toks = snd <$> ws
    | None => state f' = CPARSER_STATE_ERROR
    end.
Proof.
  intros Hq Hroot Hr Hfr Hs Hw Hok. destruct (reset_tracks p r Hroot Hs) as (f0 & E0 & H0).
  destruct (edits_track (TypeChar <$> spread ws) (set_fsm p f0) r [] Hq Hr H0) as (f' & E & Hf);
    [by apply (text_ok_prefix _ [] (spread ws)) | by apply edits_ok_chars|].
  exists (set_fsm p f0), f'. split; [exact E0|]. split; [exact E|].
  unfold tracks in Hf. cbn [fsm set_fsm ln] in Hf. rewrite edited_chars in Hf. cbn [app] in Hf.
  pose proof (feed_spread (is_privileged_mode (ln p)) ws (machine0 r) ltac:(done) Hfr Hw) as Hsp.
  cbv zeta in Hsp. change (foldl _ (machine0 r) (spread ws)) with (run (is_privileged_mode (ln p)) r (spread ws)) in Hsp.
  destruct Hf as (nd & rest & -> & _). unfold layout. cbn [state cur_node token_tos tokens m_cur machine0] in *.
  unfold machine_state. destruct (resolve _ _ _) as [n|].
  - destruct Hsp as ([Ho Hb] & -> & Hcl). cbn [machine0 m_closed fmap list_fmap] in Hcl. rewrite app_nil_r in Hcl.
    rewrite Ho, Hb. repeat split.
    + apply (f_equal length) in Hcl. rewrite length_fmap, length_reverse, length_fmap in Hcl. unfold Zlen. lia.
    + eexists _, _. split; [reflexivity|]. rewrite <- list_fmap_compose.
      rewrite <- (reverse_involutive (snd <$> ws)), <- Hcl, <- fmap_reverse. apply list_fmap_ext.
      intros i c _. unfold compose, closed_token, pad. cbn [token_len tbuf].
      rewrite take_app_le by (unfold Zlen; lia). unfold Zlen. rewrite Nat2Z.id. by rewrite firstn_all.
  - by destruct (m_bad _).
Qed.

Lemma ex_root_float_free : float_free ex_root.
Proof.
  intros h. do 4 (destruct h as [|h]; [repeat first [done | apply List.Forall_nil | apply List.Forall_cons | split]|]).
  repeat first [done | apply List.Forall_nil | apply List.Forall_cons | split].
Qed.

(** "  sh  12 " is "show 12", and "s " is ambiguous. *)
Lemma fsm_parses_words_witness :
  resolve false ex_root [[115;104]; [49;50]] = Some ex_num /\ resolve false ex_root [[115]] = None /\
  exists p0 f', cparser_fsm_reset ex_parser = Ok p0 /\
    type_edits p0 (TypeChar <$> spread [(2%nat, [115;104]); (1%nat, [49;50])]) = Ok (set_fsm ex_parser f') /\
    cur_node f' = Some ex_num.
Proof.
  split; [reflexivity|]. split; [reflexivity|].
  assert (Hs : tokens_sized (fsm ex_parser)) by (split; [reflexivity | by_compute]).
  assert (Hw : Forall (fun '(_, w) => word_ok w) [(2%nat, [115;104]); (1%nat, [49;50])])
    by (repeat first [apply List.Forall_nil | apply List.Forall_cons]; split; try done; split; by_compute).
  assert (Hok : text_ok (cfg ex_parser) (spread [(2%nat, [115;104]); (1%nat, [49;50])]))
    by (apply text_ok_short; by_compute).
  destruct (fsm_parses_words ex_parser ex_root _ eq_refl eq_refl ex_root_ok ex_root_float_free Hs Hw Hok)
    as (p0 & f' & E0 & E & Hf).
  exists p0, f'. split; [exact E0|]. split; [exact E|]. apply Hf.
Defined.
