(* ===== verification/Cli.v ===== *)
(** * CLI parser: keys, completion, help and execution (cparser.c)

    The top of the command-line parser: a key goes to the line buffers (CliLine)
    and to the state machine (CliFsm), or asks for completion, help or the execution of
    the line.  [cparser_input] and the functions it calls call each other; here
    the callees take the input function as an argument and [cparser_input] ties the
    knot with fuel.

    The glue function of a command and the callback of a user input are code of the
    application: they are parameters, like [glob] and the content of a command file.
    [out] collects what is handed to [cfg.printc] and [cfg.prints]. *)

From stdpp Require Import base numbers list list_numbers.
From S2P Require Import Prelude CliLine CliToken CliFsm.

#[local] Open Scope Z_scope.

Inductive cparser_char_t :=
| CPARSER_CHAR_UNKNOWN | CPARSER_CHAR_REGULAR | CPARSER_CHAR_UP_ARROW | CPARSER_CHAR_DOWN_ARROW
| CPARSER_CHAR_LEFT_ARROW | CPARSER_CHAR_RIGHT_ARROW | CPARSER_CHAR_FIRST | CPARSER_CHAR_LAST.

#[global] Instance char_type_eq_dec : EqDecision cparser_char_t.
Proof. solve_decision. Defined.

Definition res : Type := cparser * cparser_result_t.

(** ** Setters *)

Definition set_usr (p : cparser) (u : user_t) : cparser :=
  CParser (ln p) (cfg p) (root p) (fsm p) (p_done p) (cookies p) u (cmd p).
Definition set_cmd (p : cparser) (c : command_t) : cparser :=
  CParser (ln p) (cfg p) (root p) (fsm p) (p_done p) (cookies p) (usr p) c.
Definition set_done (p : cparser) (b : bool) : cparser :=
  CParser (ln p) (cfg p) (root p) (fsm p) b (cookies p) (usr p) (cmd p).
Definition set_cookies (p : cparser) (cs : list (option nat)) : cparser :=
  CParser (ln p) (cfg p) (root p) (fsm p) (p_done p) cs (usr p) (cmd p).
Definition set_roots (p : cparser) (rs : list (option cparser_node_t)) : cparser :=
  CParser (ln p) (cfg p) rs (fsm p) (p_done p) (cookies p) (usr p) (cmd p).
Definition set_cfg (p : cparser) (c : cparser_cfg_t) : cparser :=
  CParser (ln p) c (root p) (fsm p) (p_done p) (cookies p) (usr p) (cmd p).
Definition set_fd (p : cparser) (n : Z) : cparser :=
  let c := cfg p in
  set_cfg p (Cfg (cfg_root c) (ch_complete c) (ch_erase c) (ch_del c) (ch_help c) (cfg_prompt c) n (cfg_flags c)).
Definition set_level (p : cparser) (n : Z) : cparser :=
  let l := ln p in
  set_ln p (Parser n (prompt l) (is_privileged_mode l) (max_line l) (cur_line l) (lines l) (out l)).
Definition set_prompts (p : cparser) (ps : list (list Z)) : cparser :=
  let l := ln p in
  set_ln p (Parser (root_level l) ps (is_privileged_mode l) (max_line l) (cur_line l) (lines l) (out l)).
Definition set_priv (p : cparser) (b : bool) : cparser :=
  let l := ln p in
  set_ln p (Parser (root_level l) (prompt l) b (max_line l) (cur_line l) (lines l) (out l)).

(** A line operation on the whole parser. *)
Definition on_line {A} (p : cparser) (op : option cparser_t -> outcome (option cparser_t * A))
    : outcome (cparser * A) :=
  '(l, a) ← op (Some (ln p));
  match l with Some l => Ok (set_ln p l, a) | None => Fault NullDeref end.

Definition print_prompt (p : cparser) : outcome cparser :=
  l ← cparser_print_prompt (ln p); Ok (set_ln p l).

Definition priv (p : cparser) : bool := is_privileged_mode (ln p).

(** ** Messages *)

Definition S_LF_NODE : list Z := [60; 76; 70; 62].                       (* "<LF>" *)
Definition S_OPEN : list Z := [91; 32].                                  (* "[ " *)
Definition S_BAR : list Z := [32; 124; 32].                              (* " | " *)
Definition S_CLOSE : list Z := [32; 93].                                 (* " ]" *)
Definition S_DASH : list Z := [32; 45; 32].                              (* " - " *)
Definition S_INCOMPLETE : list Z :=                                      (* "Incomplete command\n" *)
  [73;110;99;111;109;112;108;101;116;101;32;99;111;109;109;97;110;100;10].
Definition S_PARSE_ERROR : list Z :=                                     (* "Parse error\n" *)
  [80;97;114;115;101;32;101;114;114;111;114;10].
Definition S_LAST_GOOD : list Z :=                                       (* "Last known good parse point." *)
  [76;97;115;116;32;107;110;111;119;110;32;103;111;111;100;32;112;97;114;115;101;32;112;111;105;110;116;46].

(** ** Help *)

Fixpoint print_keywords (p : cparser) (ks : list (list Z)) : cparser :=
  match ks with
  | [] => p
  | [k] => ps p k
  | k :: ks => print_keywords (ps (ps p k) S_BAR) ks
  end.

Definition cparser_help_print_node (p : cparser) (node : cparser_node_t) (add_lf print_desc : bool)
    : outcome cparser :=
  if negb (NODE_USABLE (priv p) node) then Ok p
  else
    let p := if add_lf then pc p LF else p in
    match n_type node with
    | CPARSER_NODE_ROOT => Fault AssertFailed
    | CPARSER_NODE_END => Ok (ps p S_LF_NODE)
    | CPARSER_NODE_LIST =>
        ks ← param_list node;
        _ ← assert_ (negb (bool_decide (ks = [])));
        Ok (ps (print_keywords (ps p S_OPEN) ks) S_CLOSE)
    | _ =>
        s ← param_str node;
        let p := ps p s in
        Ok (match print_desc, n_desc node with
            | true, Some d => ps (ps p S_DASH) d
            | _, _ => p
            end)
    end.

Definition cparser_print_error (p : cparser) (msg : list Z) : outcome cparser :=
  let p := pc p LF in
  pr ← rd (prompt (ln p)) (root_level (ln p));
  s ← c_string (S (length pr)) pr 0;
  let m := Zlen s + 1 in
  let p := ps p (replicate (Z.to_nat (m + last_good (fsm p))) SP) in
  Ok (ps (pc p 94) msg).

(** The children, each on a line of its own. *)
Fixpoint print_nodes (p : cparser) (nodes : list cparser_node_t) : outcome cparser :=
  match nodes with
  | [] => Ok p
  | n :: nodes => p ← cparser_help_print_node p n true true; print_nodes p nodes
  end.

(** Those that match the token. *)
Fixpoint print_matching (p : cparser) (token : list Z) (len : Z) (nodes : list cparser_node_t) : outcome cparser :=
  match nodes with
  | [] => Ok p
  | n :: nodes =>
      if negb (NODE_USABLE (priv p) n) then print_matching p token len nodes
      else
        '(rc, _) ← match_node token len n;
        p ← (if bool_decide (rc = CPARSER_OK) then cparser_help_print_node p n true true else Ok p);
        print_matching p token len nodes
  end.

Definition cur_children (p : cparser) : outcome (list cparser_node_t) :=
  match cur_node (fsm p) with Some n => Ok (n_children n) | None => Fault NullDeref end.

Definition cparser_help (p : cparser) : outcome res :=
  children ← cur_children p;
  p ← match state (fsm p) with
      | CPARSER_STATE_WHITESPACE => print_nodes p children
      | CPARSER_STATE_ERROR => p ← cparser_print_error p S_LAST_GOOD; print_nodes p children
      | CPARSER_STATE_TOKEN =>
          token ← CUR_TOKEN (fsm p);
          print_matching p (tbuf token) (token_len token) children
      end;
  l ← cparser_line_print (Some (ln p)) true true;
  match l with Some l => Ok (set_ln p l, CPARSER_OK) | None => Fault AssertFailed end.

(** ** User input and the last command *)

Definition cparser_input_reset (p : cparser) : cparser :=
  set_usr p (User None 0 0 (user_do_echo (usr p)) None).

Definition cparser_is_user_input (p : cparser) : outcome (bool * bool) :=
  let u := usr p in
  match user_buf u with
  | Some _ =>
      _ ← assert_ (bool_decide (is_Some (user_input_cb u)) && negb (user_buf_size u =? 0));
      Ok (true, user_do_echo u)
  | None =>
      _ ← assert_ (negb (bool_decide (is_Some (user_input_cb u))) && (user_buf_size u =? 0));
      Ok (false, false)
  end.

Definition cparser_record_command (p : cparser) (rc : cparser_result_t) : cparser :=
  set_cmd p (Command (cur_line (ln p)) rc (cur_node (fsm p))).

(** ** Completion and execution

    [input p ch] is [cparser_input(parser, ch, CPARSER_CHAR_REGULAR)]. *)

Section Open.
Variable glue : nat -> cparser -> outcome res.
Variable glob : list Z -> option (list (list Z)).
Variable input : cparser -> Z -> outcome res.

(** [rc = cparser_input(...); assert(CPARSER_OK == rc);] for each character. *)
Fixpoint input_all (p : cparser) (cs : list Z) : outcome cparser :=
  match cs with
  | [] => Ok p
  | c :: cs =>
      '(p, rc) ← input p c;
      _ ← assert_ (bool_decide (rc = CPARSER_OK));
      input_all p cs
  end.

(** [while ( *ch_ptr )] from [param + off]: the rest of the string. *)
Definition rest_of (s : list Z) (off : Z) : outcome (list Z) :=
  if bool_decide (0 <= off <= Zlen s) then Ok (drop (Z.to_nat off) s) else Fault OutOfBounds.

Definition cparser_complete_keyword (p : cparser) (node : cparser_node_t) (token : list Z) (len : Z)
    : outcome res :=
  _ ← assert_ (is_type node [CPARSER_NODE_KEYWORD]);
  kw ← param_str node;
  cs ← rest_of kw len;
  p ← input_all p cs;
  Ok (p, CPARSER_OK).

Definition cparser_complete_file (p : cparser) (node : cparser_node_t) (token : list Z) (len : Z)
    : outcome res :=
  _ ← assert_ (is_type node [CPARSER_NODE_FILE] && negb (len =? 0));
  s ← c_string (S (length token)) token 0;
  match glob s with
  | None => Ok (p, CPARSER_NOT_OK)
  | Some [path] => p ← input_all p (drop (Z.to_nat len) path); Ok (p, CPARSER_OK)
  | Some _ => Ok (p, CPARSER_OK)
  end.

(** [for (n = token_len; n < match_len; n++) if (lnode->keyword[n] != match_lnode->keyword[n]) break;]
    over [k] characters: the [n] it stops at. *)
Fixpoint common_len (k : nat) (kw first : list Z) (n : Z) : outcome Z :=
  match k with
  | O => Ok n
  | S k =>
      a ← rd (cstr kw) n;
      b ← rd (cstr first) n;
      if negb (a =? b) then Ok n else common_len k kw first (n + 1)
  end.

(** The loop over the list: the first keyword that matches and the length all matches share. *)
Fixpoint list_common (token : list Z) (len : Z) (ks : list (list Z)) (acc : option (list Z * Z))
    : outcome (option (list Z * Z)) :=
  match ks with
  | [] => Ok acc
  | kw :: ks =>
      r ← strncmp (Z.to_nat len) (cstr kw) token;
      acc ← (if negb (r =? 0) then Ok acc
             else match acc with
                  | None => Ok (Some (kw, Zlen kw))
                  | Some (first, match_len) =>
                      n ← common_len (Z.to_nat (match_len - len)) kw first len;
                      Ok (Some (first, n))
                  end);
      list_common token len ks acc
  end.

Definition cparser_complete_list (p : cparser) (node : cparser_node_t) (token : list Z) (len : Z)
    : outcome res :=
  _ ← assert_ (is_type node [CPARSER_NODE_LIST] && negb (len =? 0));
  ks ← param_list node;
  m ← list_common token len ks None;
  match m with
  | Some (first, match_len) =>
      if 0 <? match_len then
        p ← input_all p (take (Z.to_nat (match_len - len)) (drop (Z.to_nat len) first));
        Ok (p, CPARSER_OK)
      else Ok (p, CPARSER_NOT_OK)
  | None => Ok (p, CPARSER_NOT_OK)
  end.

Definition cparser_complete_fn_tbl (t : cparser_node_type_t)
    : option (cparser -> cparser_node_t -> list Z -> Z -> outcome res) :=
  match t with
  | CPARSER_NODE_KEYWORD => Some cparser_complete_keyword
  | CPARSER_NODE_FILE => Some cparser_complete_file
  | CPARSER_NODE_LIST => Some cparser_complete_list
  | _ => None
  end.

(** The token's completion function, if its node has one, and a blank. *)
Definition complete_token (p : cparser) (m : option cparser_node_t) (token : cparser_token_t)
    : outcome cparser :=
  match m with
  | None => Fault NullDeref
  | Some m =>
      p ← match cparser_complete_fn_tbl (n_type m) with
          | Some fn => '(p, _) ← fn p m (tbuf token) (token_len token); Ok p
          | None => Ok p
          end;
      input_all p [32]
  end.

(** The loop of [cparser_execute_cmd] that descends through single keywords. *)
Fixpoint descend (fuel : nat) (p : cparser) : outcome cparser :=
  match fuel with
  | O => Fault OutOfFuel
  | S fuel =>
      children ← cur_children p;
      match children with
      | [] => Fault AssertFailed
      | [child] =>
          if is_type child [CPARSER_NODE_KEYWORD] && NODE_USABLE (priv p) child then
            token ← CUR_TOKEN (fsm p);
            '(p, _) ← cparser_complete_keyword p child (tbuf token) (token_len token);
            p ← input_all p [32];
            descend fuel p
          else Ok p
      | _ => Ok p
      end
  end.

Definition find_end (p : cparser) (children : list cparser_node_t) : option cparser_node_t :=
  find (fun c => is_type c [CPARSER_NODE_END] && NODE_USABLE (priv p) c) children.

(** Record, reset and prompt, after a failure. *)
Definition give_up_cmd (p : cparser) (rc : cparser_result_t) (blank : bool) : outcome res :=
  let p := cparser_record_command p rc in
  p ← cparser_fsm_reset p;
  let p := if blank then pc p LF else p in
  p ← print_prompt p;
  Ok (p, rc).

Definition finish_cmd (p : cparser) (rc : cparser_result_t) : outcome res :=
  let p := cparser_record_command p rc in
  p ← cparser_fsm_reset p;
  '(is_input, _) ← cparser_is_user_input p;
  p ← (if is_input : bool then Ok p else print_prompt p);
  Ok (p, rc).

(** Once the token, if any, is closed. *)
Definition execute_node (fuel : nat) (p : cparser) : outcome res :=
  p ← descend fuel p;
  children ← cur_children p;
  match find_end p children with
  | Some child =>
      match n_param child with
      | PGlue g =>
          let f := fsm p in
          let p := pc (set_fsm p (set_node f (Some child) (token_tos f))) LF in
          '(p, rc) ← glue g p;
          finish_cmd p rc
      | _ => Fault NullDeref
      end
  | None =>
      if token_tos (fsm p) =? 0 then give_up_cmd p CPARSER_OK true
      else p ← cparser_print_error p S_INCOMPLETE; give_up_cmd p CPARSER_ERR_INCOMP_CMD false
  end.

Definition cparser_execute_cmd (fuel : nat) (p : cparser) : outcome res :=
  match state (fsm p) with
  | CPARSER_STATE_TOKEN =>
      token ← CUR_TOKEN (fsm p);
      m ← cparser_match (priv p) (tbuf token) (token_len token) (cur_node (fsm p));
      if (1 <=? m_count m) && m_complete m then
        p ← complete_token p (m_match m) token;
        execute_node fuel p
      else
        p ← cparser_print_error p S_INCOMPLETE;
        give_up_cmd p CPARSER_ERR_INCOMP_CMD false
  | CPARSER_STATE_WHITESPACE => execute_node fuel p
  | CPARSER_STATE_ERROR =>
      p ← cparser_print_error p S_PARSE_ERROR;
      finish_cmd p CPARSER_ERR_PARSE_ERR
  end.

Fixpoint match_prefix_loop (pv : bool) (token : list Z) (len : Z) (children : list cparser_node_t)
    (ch offset : Z) : outcome cparser_result_t :=
  match children with
  | [] => Ok CPARSER_OK
  | child :: children =>
      if negb (NODE_USABLE pv child) then match_prefix_loop pv token len children ch offset
      else
        '(rc, _) ← match_node token len child;
        if bool_decide (rc = CPARSER_NOT_OK) then match_prefix_loop pv token len children ch offset
        else if negb (is_type child [CPARSER_NODE_KEYWORD]) then Ok CPARSER_NOT_OK
        else
          kw ← param_str child;
          c ← rd (cstr kw) offset;
          if negb (c =? ch) then Ok CPARSER_NOT_OK
          else match_prefix_loop pv token len children ch offset
  end.

Definition cparser_match_prefix (pv : bool) (token : list Z) (len : Z) (parent : cparser_node_t)
    (ch offset : Z) : outcome cparser_result_t :=
  _ ← assert_ (negb (ch =? 0));
  match_prefix_loop pv token len (n_children parent) ch offset.

(** [while (('\0' != *ch_ptr) && (CPARSER_OK == cparser_match_prefix(...)))] over the rest [cs] of
    the first match's parameter; [token] points into the token stack, so it is read again each
    time.  Returns the number of characters fed. *)
Fixpoint common_loop (p : cparser) (cs : list Z) (offset : Z) : outcome (cparser * Z) :=
  match cs with
  | [] => Ok (p, offset)
  | c :: cs =>
      token ← CUR_TOKEN (fsm p);
      match cur_node (fsm p) with
      | None => Fault AssertFailed
      | Some parent =>
          rc ← cparser_match_prefix (priv p) (tbuf token) (token_len token) parent c offset;
          if bool_decide (rc = CPARSER_OK) then
            p ← input_all p [c];
            common_loop p cs (offset + 1)
          else Ok (p, offset)
      end
  end.

(** The parser and [keep_going]. *)
Definition cparser_complete_one_level (p : cparser) : outcome (cparser * bool) :=
  match state (fsm p) with
  | CPARSER_STATE_ERROR => Ok (pc p BEL, false)
  | CPARSER_STATE_WHITESPACE =>
      match cur_node (fsm p) with
      | Some n =>
          match n_children n with
          | [child] =>
              if is_type child [CPARSER_NODE_KEYWORD] then
                kw ← param_str child;
                p ← input_all p kw;
                p ← input_all p [32];
                Ok (p, false)
              else '(p, _) ← cparser_help p; Ok (p, false)
          | _ => '(p, _) ← cparser_help p; Ok (p, false)
          end
      | None => '(p, _) ← cparser_help p; Ok (p, false)
      end
  | CPARSER_STATE_TOKEN =>
      token ← CUR_TOKEN (fsm p);
      m ← cparser_match (priv p) (tbuf token) (token_len token) (cur_node (fsm p));
      if (m_count m =? 1) && m_complete m then
        p ← complete_token p (m_match m) token;
        Ok (p, true)
      else
        match m_match m with
        | None => Fault NullDeref
        | Some n =>
            s ← param_str n;
            cs ← rest_of s (token_len token);
            '(p, offset) ← common_loop p cs (token_len token);
            if offset =? token_len token then '(p, _) ← cparser_help p; Ok (p, false)
            else Ok (p, false)
        end
  end.

(** [while (cparser_complete_one_level(parser));] *)
Fixpoint complete_loop (fuel : nat) (p : cparser) : outcome cparser :=
  match fuel with
  | O => Fault OutOfFuel
  | S fuel =>
      '(p, keep_going) ← cparser_complete_one_level p;
      if (keep_going : bool) then complete_loop fuel p else Ok p
  end.
End Open.

Section Input.
Variable glue : nat -> cparser -> outcome res.
Variable input_cb : nat -> cparser -> list Z -> Z -> outcome res.
Variable glob : list Z -> option (list (list Z)).

(** [for (n = from; n < to; n++) cparser_fsm_input(parser, cparser_line_char(parser, n));] with
    its assertion, [k] times. *)
Fixpoint feed_line (k : nat) (p : cparser) (n : Z) : outcome cparser :=
  match k with
  | O => Ok p
  | S k =>
      c ← cparser_line_char (Some (ln p)) n;
      '(p, rc) ← cparser_fsm_input p c;
      _ ← assert_ (bool_decide (rc = CPARSER_OK));
      feed_line k p (n + 1)
  end.

(** A key while the application reads a user input. *)
Definition user_key (p : cparser) (ch : Z) (ch_type : cparser_char_t) : outcome res :=
  let u := usr p in
  if negb (bool_decide (ch_type = CPARSER_CHAR_REGULAR)) then Ok (p, CPARSER_OK)
  else
    match user_buf u with
    | None => Fault NullDeref
    | Some b =>
        if ch =? LF then
          match user_input_cb u with
          | None => Fault AssertFailed
          | Some cb =>
              b ← wr b (user_buf_count u) 0;
              let p := set_usr p (User (Some b) (user_buf_size u) (user_buf_count u) (user_do_echo u) (Some cb)) in
              '(p, rc) ← input_cb cb p b (user_buf_count u);
              p ← print_prompt (cparser_input_reset p);
              Ok (p, rc)
          end
        else if is_erase (cfg p) ch then
          let n := if 0 <? user_buf_count u then user_buf_count u - 1 else user_buf_count u in
          let p := set_usr p (User (Some b) (user_buf_size u) n (user_do_echo u) (user_input_cb u)) in
          Ok (if user_do_echo u then pc p BS else p, CPARSER_OK)
        else if user_buf_count u + 1 <? user_buf_size u then
          b ← wr b (user_buf_count u) ch;
          let p := set_usr p (User (Some b) (user_buf_size u) (user_buf_count u + 1) (user_do_echo u) (user_input_cb u)) in
          Ok (if user_do_echo u then pc p ch else p, CPARSER_OK)
        else Ok (p, CPARSER_OK)
    end.

(** The recall of a line: [cparser_line_prev_line] or [cparser_line_next_line], then the part of
    the line before its cursor goes into the state machine. *)
Definition recall (p : cparser)
    (op : option cparser_t -> outcome (option cparser_t * cparser_result_t)) : outcome res :=
  '(p, rc) ← on_line p op;
  _ ← assert_ (bool_decide (rc = CPARSER_OK));
  p ← cparser_fsm_reset p;
  n ← cparser_line_current (Some (ln p));
  p ← feed_line (Z.to_nat n) p 0;
  Ok (p, CPARSER_OK).

(** [do { ch = move(parser); if (ch) cparser_fsm_input(parser, ch); } while (ch);] *)
Fixpoint move_all (fuel : nat) (p : cparser)
    (op : option cparser_t -> outcome (option cparser_t * Z)) : outcome cparser :=
  match fuel with
  | O => Fault OutOfFuel
  | S fuel =>
      '(p, ch) ← on_line p op;
      if ch =? 0 then Ok p
      else '(p, _) ← cparser_fsm_input p ch; move_all fuel p op
  end.

(** A line has at most CPARSER_MAX_LINE_SIZE characters. *)
Definition move_fuel : nat := S (S (Z.to_nat CPARSER_MAX_LINE_SIZE)).

(** The switch over [ch_type]: the character to handle further, or the result. *)
Definition input_switch (p : cparser) (ch : Z) (ch_type : cparser_char_t)
    : outcome (cparser * (Z + cparser_result_t)) :=
  match ch_type with
  | CPARSER_CHAR_REGULAR =>
      if (ch_complete (cfg p) =? ch) || (ch_help (cfg p) =? ch) then Ok (p, inl ch)
      else if is_erase (cfg p) ch then
        '(p, rc) ← on_line p cparser_line_delete;
        _ ← assert_ (negb (bool_decide (rc = CPARSER_ERR_INVALID_PARAMS)));
        Ok (p, if bool_decide (rc = CPARSER_ERR_NOT_EXIST) then inr CPARSER_OK else inl ch)
      else if ch =? LF then
        cur ← cparser_line_current (Some (ln p));
        lst ← cparser_line_last (Some (ln p));
        p ← feed_line (Z.to_nat (lst - cur)) p cur;
        Ok (p, inl ch)
      else
        '(p, _) ← on_line p (fun q => cparser_line_insert q ch);
        Ok (p, inl ch)
  | CPARSER_CHAR_UP_ARROW => '(p, rc) ← recall p cparser_line_prev_line; Ok (p, inr rc)
  | CPARSER_CHAR_DOWN_ARROW => '(p, rc) ← recall p cparser_line_next_line; Ok (p, inr rc)
  | CPARSER_CHAR_LEFT_ARROW =>
      '(p, ch) ← on_line p cparser_line_prev_char;
      if ch =? 0 then Ok (pc p BEL, inr CPARSER_OK) else Ok (p, inl ch)
  | CPARSER_CHAR_RIGHT_ARROW =>
      '(p, ch) ← on_line p cparser_line_next_char;
      if ch =? 0 then Ok (pc p BEL, inr CPARSER_OK) else Ok (p, inl ch)
  | CPARSER_CHAR_FIRST => p ← move_all move_fuel p cparser_line_prev_char; Ok (p, inr CPARSER_OK)
  | CPARSER_CHAR_LAST => p ← move_all move_fuel p cparser_line_next_char; Ok (p, inr CPARSER_OK)
  | CPARSER_CHAR_UNKNOWN => Ok (pc p BEL, inr CPARSER_NOT_OK)
  end.

(** What follows the switch. *)
Definition input_special (fuel : nat) (input : cparser -> Z -> outcome res) (p : cparser) (ch : Z)
    : outcome res :=
  if ch =? ch_complete (cfg p) then
    p ← complete_loop glob input fuel p; Ok (p, CPARSER_OK)
  else if ch =? ch_help (cfg p) then '(p, _) ← cparser_help p; Ok (p, CPARSER_OK)
  else if ch =? LF then
    '(p, rc) ← cparser_execute_cmd glue glob input fuel p;
    '(p, _) ← on_line p cparser_line_advance;
    Ok (p, rc)
  else cparser_fsm_input p ch.

Fixpoint cparser_input (fuel : nat) (p : cparser) (ch : Z) (ch_type : cparser_char_t) : outcome res :=
  match fuel with
  | O => Fault OutOfFuel
  | S fuel =>
      '(is_input, _) ← cparser_is_user_input p;
      if (is_input : bool) then user_key p ch ch_type
      else
        '(p, next) ← input_switch p ch ch_type;
        match next with
        | inr rc => Ok (p, rc)
        | inl ch => input_special fuel (fun p ch => cparser_input fuel p ch CPARSER_CHAR_REGULAR) p ch
        end
  end.

(** [cparser_run] on the keys [getch] returns, up to the first one after [cparser_quit]. *)
Fixpoint run_keys (fuel : nat) (p : cparser) (keys : list (Z * cparser_char_t)) : outcome cparser :=
  match keys with
  | [] => Ok p
  | (ch, ty) :: keys =>
      if p_done p then Ok p else '(p, _) ← cparser_input fuel p ch ty; run_keys fuel p keys
  end.

Definition cparser_run (fuel : nat) (p : cparser) (keys : list (Z * cparser_char_t)) : outcome res :=
  p ← print_prompt p;
  p ← run_keys fuel (set_done p false) keys;
  Ok (p, CPARSER_OK).

(** ** Command files *)

Definition FMT_LINE : list Z := [76; 105; 110; 101; 32].               (* "Line " *)
Definition S_PARSE_AT : list Z := [58;32;80;97;114;115;101;32;101;114;114;111;114;46;10].
Definition S_INCOMP_AT : list Z :=
  [58;32;73;110;99;111;109;112;108;101;116;101;32;99;111;109;109;97;110;100;46;10].

(** [%d] *)
Fixpoint decimal (fuel : nat) (n : Z) (acc : list Z) : list Z :=
  match fuel with
  | O => acc
  | S fuel =>
      let acc := (48 + n `mod` 10) :: acc in
      if n <? 10 then acc else decimal fuel (n `div` 10) acc
  end.

Definition cparser_submode_exit (p : cparser) : res :=
  if root_level (ln p) =? 0 then (p, CPARSER_NOT_OK)
  else (set_level p (root_level (ln p) - 1), CPARSER_OK).

(** [for (m = indent; m < last_indent; m++)] *)
Fixpoint leave_modes (k : nat) (p : cparser) : outcome cparser :=
  match k with
  | O => Ok p
  | S k =>
      match cparser_submode_exit p with
      | (p, CPARSER_OK) => p ← cparser_fsm_reset p; leave_modes k p
      | (p, _) => Ok p
      end
  end.

(** The loop over the characters of the file; [inr] when a line failed. *)
Fixpoint load_loop (fuel : nat) (p : cparser) (fd0 : Z) (cs : list Z) (indent last_indent : Z)
    (new_line : bool) (line_num : Z) : outcome (cparser + cparser) :=
  match cs with
  | [] => Ok (inl p)
  | c :: cs =>
      if c =? LF then
        let line_num := line_num + 1 in
        '(p, rc) ← cparser_execute_cmd glue glob
                     (fun p ch => cparser_input fuel p ch CPARSER_CHAR_REGULAR) fuel p;
        match rc with
        | CPARSER_OK => load_loop fuel p fd0 cs 0 last_indent true line_num
        | CPARSER_ERR_PARSE_ERR =>
            Ok (inr (ps (set_fd p fd0) (FMT_LINE ++ decimal 10 line_num [] ++ S_PARSE_AT)))
        | CPARSER_ERR_INCOMP_CMD =>
            Ok (inr (ps (set_fd p fd0) (FMT_LINE ++ decimal 10 line_num [] ++ S_INCOMP_AT)))
        | _ => Fault AssertFailed
        end
      else if c =? 32 then
        let indent := if new_line then indent + 1 else indent in
        '(p, _) ← cparser_fsm_input p c;
        load_loop fuel p fd0 cs indent last_indent new_line line_num
      else
        '(p, last_indent) ←
          (if new_line then
             p ← leave_modes (Z.to_nat (last_indent - indent)) p; Ok (p, indent)
           else Ok (p, last_indent));
        '(p, _) ← cparser_fsm_input p c;
        load_loop fuel p fd0 cs indent last_indent false line_num
  end.

(** [while (parser->root_level)] *)
Definition leave_all (p : cparser) : outcome cparser := leave_modes (Z.to_nat (root_level (ln p))) p.

(** [file] is what the file holds, [None] when it cannot be opened. *)
Definition cparser_load_cmd (fuel : nat) (p : cparser) (file : option (list Z)) : outcome res :=
  let fd0 := fd (cfg p) in
  let p := set_fd p (-1) in
  match file with
  | None => Ok (p, CPARSER_NOT_OK)
  | Some cs =>
      p ← cparser_fsm_reset p;
      r ← load_loop fuel p fd0 cs 0 (-1) true 0;
      match r with
      | inr p => Ok (p, CPARSER_NOT_OK)
      | inl p => p ← leave_all p; Ok (set_fd p fd0, CPARSER_OK)
      end
  end.
End Input.

(** ** Keys of a terminal (cparser_io_unix.c)

    [cs] is what [getchar] returns from now on. *)

Definition isalnum (c : Z) : bool :=
  isdigit c || ((65 <=? c) && (c <=? 90)) || ((97 <=? c) && (c <=? 122)).
Definition ispunct (c : Z) : bool := (33 <=? c) && (c <=? 126) && negb (isalnum c).

Definition ESC : Z := 27.

(** The key, its type, and the characters left; [None] when there are no more characters. *)
Definition cparser_unix_getch (c : cparser_cfg_t) (cs : list Z) : option (Z * cparser_char_t * list Z) :=
  match cs with
  | [] => None
  | ch :: cs =>
      if ch =? ESC then
        match cs with
        | [] => None
        | ch :: cs =>
            if ch =? 91 then
              match cs with
              | [] => None
              | ch :: cs =>
                  Some (ch, (if ch =? 65 then CPARSER_CHAR_UP_ARROW
                             else if ch =? 66 then CPARSER_CHAR_DOWN_ARROW
                             else if ch =? 67 then CPARSER_CHAR_RIGHT_ARROW
                             else if ch =? 68 then CPARSER_CHAR_LEFT_ARROW
                             else CPARSER_CHAR_UNKNOWN), cs)
              end
            else Some (ch, CPARSER_CHAR_UNKNOWN, cs)
        end
      else
        Some (ch, (if ch =? 16 then CPARSER_CHAR_UP_ARROW
                   else if ch =? 14 then CPARSER_CHAR_DOWN_ARROW
                   else if ch =? 1 then CPARSER_CHAR_FIRST
                   else if ch =? 5 then CPARSER_CHAR_LAST
                   else if isalnum ch || (ch =? LF) || ispunct ch || (ch =? 32) ||
                           (ch =? ch_erase c) || (ch =? ch_del c) || (ch =? ch_help c) || (ch =? ch_complete c)
                   then CPARSER_CHAR_REGULAR
                   else CPARSER_CHAR_UNKNOWN), cs)
  end.

(** ** Initialization and modes *)

(** [snprintf(dst, size, "%s", s)] into an array of [size] characters holding [old]. *)
Definition snprintf_s (old s : list Z) : list Z :=
  let k := (length old - 1)%nat in
  let s := take k s in
  s ++ 0 :: drop (S (length s)) old.

Definition cparser_init (cfg0 : cparser_cfg_t) (p : cparser) : outcome res :=
  match cfg_root cfg0 with
  | None => Ok (p, CPARSER_ERR_INVALID_PARAMS)
  | Some _ =>
      if ch_erase cfg0 =? 0 then Ok (p, CPARSER_ERR_INVALID_PARAMS)
      else
        pr ← wr (cfg_prompt cfg0) (CPARSER_MAX_PROMPT - 1) 0;
        let c := Cfg (cfg_root cfg0) (ch_complete cfg0) (ch_erase cfg0) (ch_del cfg0) (ch_help cfg0) pr
                     (fd cfg0) (cfg_flags cfg0) in
        roots ← wr (root p) 0 (cfg_root cfg0);
        s ← c_string (S (length pr)) pr 0;
        p0 ← rd (prompt (ln p)) 0;
        prompts ← wr (prompt (ln p)) 0 (snprintf_s p0 s);
        let l := Parser 0 prompts (is_privileged_mode (ln p)) 0 0
                        (map (fun l => Line 0 0 (replicate (length (buf l)) 0)) (lines (ln p))) (out (ln p)) in
        let p := CParser l c roots (fsm p) (p_done p) (replicate (length (cookies p)) None) (usr p) (cmd p) in
        p ← cparser_fsm_reset p;
        Ok (cparser_input_reset (set_priv p false), CPARSER_OK)
  end.

Definition cparser_quit (p : cparser) : res := (set_done p true, CPARSER_OK).

Definition cparser_submode_enter (p : cparser) (cookie : option nat) (pr : list Z) : outcome res :=
  if root_level (ln p) =? CPARSER_MAX_NESTED_LEVELS - 1 then Ok (p, CPARSER_NOT_OK)
  else
    let p := set_level p (root_level (ln p) + 1) in
    let level := root_level (ln p) in
    children ← cur_children p;
    match children with
    | [] => Fault AssertFailed
    | new_root :: _ =>
        _ ← assert_ (is_type new_root [CPARSER_NODE_ROOT]);
        roots ← wr (root p) level (Some new_root);
        old ← rd (prompt (ln p)) level;
        prompts ← wr (prompt (ln p)) level (snprintf_s old pr);
        cs ← wr (cookies p) level cookie;
        Ok (set_cookies (set_prompts (set_roots p roots) prompts) cs, CPARSER_OK)
    end.

Definition cparser_set_root_context (p : cparser) (context : option nat) : outcome res :=
  cs ← wr (cookies p) 0 context; Ok (set_cookies p cs, CPARSER_OK).

Definition cparser_get_root_context (p : cparser) : outcome (option nat) := rd (cookies p) 0.

Definition cparser_set_privileged_mode (p : cparser) (enable : Z) : res :=
  (set_priv p (negb (enable =? 0)), CPARSER_OK).

Definition cparser_is_in_privileged_mode (p : cparser) : Z := if priv p then 1 else 0.

(** ** User input *)

Definition cparser_user_input (p : cparser) (pr : option (list Z)) (do_echo : bool) (b : option (list Z))
    (size : Z) (cb : option nat) : outcome res :=
  match b with
  | None => Ok (p, CPARSER_ERR_INVALID_PARAMS)
  | Some b =>
      if size =? 0 then Ok (p, CPARSER_ERR_INVALID_PARAMS)
      else
        '(is_input, _) ← cparser_is_user_input p;
        if (is_input : bool) then Ok (p, CPARSER_NOT_OK)
        else
          let p := match pr with Some s => ps p s | None => p end in
          _ ← assert_ (user_buf_count (usr p) =? 0);
          Ok (set_usr p (User (Some b) size (user_buf_count (usr p)) do_echo cb), CPARSER_OK)
  end.

Definition cparser_abort_user_input (input_cb : nat -> cparser -> list Z -> Z -> outcome res) (p : cparser)
    : outcome res :=
  '(is_input, _) ← cparser_is_user_input p;
  if negb is_input then Ok (p, CPARSER_ERR_NOT_EXIST)
  else
    let u := usr p in
    match user_buf u, user_input_cb u with
    | Some b, Some cb =>
        b ← wr b 0 0;
        let p := set_usr p (User (Some b) (user_buf_size u) (user_buf_count u) (user_do_echo u) (Some cb)) in
        '(p, _) ← input_cb cb p b 0;
        p ← print_prompt (cparser_input_reset p);
        Ok (p, CPARSER_OK)
    | _, _ => Fault NullDeref
    end.

(** The command, its result code and whether it was a privileged one. *)
Definition cparser_last_command (p : cparser) : outcome (option (list Z) * cparser_result_t * bool) :=
  let c := cmd p in
  if 0 <=? last_line_idx c then
    l ← rd (lines (ln p)) (last_line_idx c);
    Ok (Some (buf l), last_rc c,
        match last_end_node c with
        | None => false
        | Some n => negb (Z.land (n_flags n) CPARSER_NODE_FLAGS_HIDDEN =? 0)
        end)
  else
    _ ← assert_ (bool_decide (last_rc c = CPARSER_ERR_NOT_EXIST) &&
                 negb (bool_decide (is_Some (last_end_node c))));
    Ok (None, last_rc c, false).

(** ** Walking the tree *)

Section Walk.
Context {A : Type}.
Variables pre post : option (A -> cparser_node_t -> outcome (A * cparser_result_t)).

Definition visit_node (f : option (A -> cparser_node_t -> outcome (A * cparser_result_t))) (a : A)
    (n : cparser_node_t) : outcome (A * cparser_result_t) :=
  match f with None => Ok (a, CPARSER_OK) | Some f => f a n end.

(** The result codes of the children are dropped. *)
Fixpoint cparser_walk_internal (a : A) (node : cparser_node_t) : outcome (A * cparser_result_t) :=
  '(a, rc) ← visit_node pre a node;
  if negb (bool_decide (rc = CPARSER_OK)) then Ok (a, rc)
  else
    a ← (if bool_decide (n_type node = CPARSER_NODE_END) then Ok a
         else
           (fix walk_list (a : A) (ns : list cparser_node_t) : outcome A :=
              match ns with
              | [] => Ok a
              | n :: ns => '(a, _) ← cparser_walk_internal a n; walk_list a ns
              end) a (n_children node));
    visit_node post a node.

Definition cparser_walk (p : cparser) (a : A) : outcome (A * cparser_result_t) :=
  if match pre, post with None, None => true | _, _ => false end then Ok (a, CPARSER_ERR_INVALID_PARAMS)
  else
    r ← rd (root p) (root_level (ln p));
    match r with None => Fault NullDeref | Some r => cparser_walk_internal a r end.
End Walk.

(** ** The help command *)

Record help_stack_t := HelpStack {
  hs_filter : option (list Z);
  hs_tos : Z;
  hs_nodes : list (option cparser_node_t);
}.

Definition help_state : Type := cparser * help_stack_t.

Definition cparser_help_pre_walker (a : help_state) (node : cparser_node_t)
    : outcome (help_state * cparser_result_t) :=
  let '(p, hs) := a in
  ns ← wr (hs_nodes hs) (hs_tos hs) (Some node);
  Ok ((p, HelpStack (hs_filter hs) (hs_tos hs + 1) ns), CPARSER_OK).

(** [strstr(s, sub) != NULL] *)
Fixpoint strstr (s sub : list Z) : bool :=
  prefixb sub s || match s with [] => false | _ :: s => strstr s sub end.

(** Whether one of the nodes on the stack has a keyword with the filter string. *)
Fixpoint filter_hits (filter : list Z) (ns : list (option cparser_node_t)) : outcome bool :=
  match ns with
  | [] => Ok false
  | None :: _ => Fault NullDeref
  | Some n :: ns =>
      if is_type n [CPARSER_NODE_LIST] then
        ks ← param_list n;
        _ ← assert_ (negb (bool_decide (ks = [])));
        if existsb (fun kw => strstr kw filter) ks then Ok true else filter_hits filter ns
      else if is_type n [CPARSER_NODE_KEYWORD] then
        kw ← param_str n;
        if strstr kw filter then Ok true else filter_hits filter ns
      else filter_hits filter ns
  end.

Definition S_BRACE : list Z := [123; 32].                                (* "{ " *)
Definition S_UNBRACE : list Z := [125; 32].                              (* "} " *)

Definition has_flag (n : cparser_node_t) (f : Z) : bool := negb (Z.land (n_flags n) f =? 0).

(** The nodes of the stack, as a command line. *)
Fixpoint print_path (p : cparser) (ns : list (option cparser_node_t)) (num_braces : nat) : outcome cparser :=
  match ns with
  | [] => Ok p
  | None :: _ => Fault NullDeref
  | Some n :: ns =>
      if is_type n [CPARSER_NODE_ROOT; CPARSER_NODE_END] then print_path p ns num_braces
      else
        let start := has_flag n CPARSER_NODE_FLAGS_OPT_START in
        let p := if start then ps p S_BRACE else p in
        let num_braces := if start then S num_braces else num_braces in
        p ← cparser_help_print_node p n false false;
        let p := pc p 32 in
        let p := if has_flag n CPARSER_NODE_FLAGS_OPT_END
                 then Nat.iter num_braces (fun p => ps p S_UNBRACE) p else p in
        print_path p ns num_braces
  end.

Definition cparser_help_post_walker (a : help_state) (node : cparser_node_t)
    : outcome (help_state * cparser_result_t) :=
  let '(p, hs) := a in
  ns ← rd_slice (hs_nodes hs) 0 (hs_tos hs);
  p ← (if is_type node [CPARSER_NODE_END] && negb (has_flag node CPARSER_NODE_FLAGS_OPT_PARTIAL) then
         do_print ← match hs_filter hs with
                    | Some f => hit ← filter_hits f ns; Ok (hit && NODE_USABLE (priv p) node)
                    | None => Ok (NODE_USABLE (priv p) node)
                    end;
         if (do_print : bool) then
           let p := match n_desc node with
                    | Some d => ps (ps p d) [13; 10; 32; 32]
                    | None => ps p [13; 32; 32]
                    end in
           p ← print_path p ns 0;
           Ok (ps p [13; 10; 10])
         else Ok p
       else Ok p);
  Ok ((p, HelpStack (hs_filter hs) (hs_tos hs - 1) (hs_nodes hs)), CPARSER_OK).

Definition cparser_help_cmd (p : cparser) (filter : option (list Z)) : outcome res :=
  '((p, _), rc) ← cparser_walk (Some cparser_help_pre_walker) (Some cparser_help_post_walker) p
                    (p, HelpStack filter 0 (replicate (Z.to_nat (CPARSER_MAX_NUM_TOKENS + 2)) None));
  Ok (p, rc).
