(* ===== verification/CliSession.v ===== *)
(** * CLI parser: the line and the state machine stay together

    The line buffer and the state machine are edited side by side and nothing in
    the code compares them.  A [session] says that they agree: the machine is where
    the text before the cursor takes it.  Every editing key that leaves room keeps the
    session, and [cparser_init] starts one.  What Enter does is in CliEnter. *)

From stdpp Require Import base numbers list list_numbers.
From S2P Require Import Prelude CliLine CliToken CliFsm Cli.

#[local] Open Scope Z_scope.

(** A character that goes into the line. *)
Definition plain (cf : cparser_cfg_t) (c : Z) : Prop :=
  char_ok c /\ is_erase cf c = false /\ c <> ch_complete cf /\ c <> ch_help cf /\ c <> LF.

(** Backspace erases, and the special keys are different ones. *)
Record cfg_ok (cf : cparser_cfg_t) : Prop := {
  cfg_bs : is_erase cf BS = true;
  cfg_special : BS <> ch_complete cf /\ BS <> ch_help cf /\
                is_erase cf (ch_complete cf) = false /\ is_erase cf (ch_help cf) = false /\
                ch_complete cf <> LF /\ ch_help cf <> LF /\ ch_complete cf <> ch_help cf;
  cfg_lf : is_erase cf LF = false;
}.

(** A line the state machine can take. *)
Definition line_ok (cf : cparser_cfg_t) (l : cparser_line_t) : Prop :=
  exists lt rt, holds l lt rt /\ Forall (plain cf) (lt ++ rt) /\ text_ok cf (lt ++ rt).

(** What the parser relies on between keys, the state machine left out. *)
Record settled (p : cparser) (r : cparser_node_t) : Prop := {
  s_quiet : quiet p;
  s_cfg : cfg_ok (cfg p);
  s_root : rd (root p) (root_level (ln p)) = Ok (Some r);
  s_tree : tree_ok max_depth r;
  s_user : user_buf (usr p) = None /\ user_input_cb (usr p) = None /\ user_buf_size (usr p) = 0;
  s_hist : history_ok (ln p);
  s_lines : Forall (line_ok (cfg p)) (lines (ln p));
  s_tokens : tokens_sized (fsm p);
  s_prompt : exists s rest, rd (prompt (ln p)) (root_level (ln p)) = Ok (s ++ 0 :: rest) /\ Forall (fun c => c <> 0) s;
}.

Record session (p : cparser) (r : cparser_node_t) (lt rt : list Z) : Prop := {
  ss_settled : settled p r;
  ss_line : exists l, at_line (ln p) l /\ holds l lt rt;
  ss_plain : Forall (plain (cfg p)) (lt ++ rt);
  ss_text : text_ok (cfg p) (lt ++ rt);
  ss_tracks : tracks p r lt;
}.

(** ** The arrays keep their size *)

Definition sized (a : machine) : Prop :=
  Forall (fun c => Zlen (c_text c) <= CPARSER_MAX_TOKEN_SIZE) (m_closed a) /\
  match m_open a with Some (_, w) => Zlen w <= CPARSER_MAX_TOKEN_SIZE | None => True end.

Lemma feed_sized pv a c : sized a -> sized (feed pv a c).
Proof.
  unfold sized. intros [Hc Ho]. unfold feed, fail. destruct a as [cl cur o g [|bad]]; cbn [m_closed m_cur m_open m_good m_bad] in *; [|done].
  destruct o as [[b w]|], (c =? 32).
  - destruct (best pv w cur) as [[m [|]]|]; cbn; [|done..]. split; [|done]. by apply Forall_cons.
  - destruct (Zlen w <? CPARSER_MAX_TOKEN_SIZE) eqn:E; [|done]. destruct (best _ _ _); cbn; [|done].
    split; [done|]. rewrite Zlen_app. change (Zlen [c]) with 1. zify_bool. lia.
  - done.
  - destruct (best _ _ _); cbn; done.
Qed.

Lemma run_sized pv r t : sized (run pv r t).
Proof.
  induction t as [|c t IH] using rev_ind; [done|]. rewrite run_snoc. by apply feed_sized.
Qed.

Lemma pad_size w : Zlen w <= CPARSER_MAX_TOKEN_SIZE -> Zlen (pad w) = CPARSER_MAX_TOKEN_SIZE.
Proof.
  intros Hw. unfold pad. rewrite Zlen_app. unfold Zlen at 2. rewrite length_replicate. lia.
Qed.

Lemma tracks_sized p r t : tracks p r t -> tokens_sized (fsm p).
Proof.
  intros (nd & rest & -> & Hrest & Hlen). destruct (run_sized (is_privileged_mode (ln p)) r t) as [Hc Ho].
  split; unfold layout; cbn [tokens].
  - rewrite Zlen_app, Zlen_closed, Zlen_cons. lia.
  - apply Forall_app_2; [|apply Forall_cons; split].
    + apply Forall_fmap, Forall_forall. intros c Hin%list_elem_of_In. rewrite <- list_elem_of_In in Hin.
      rewrite elem_of_reverse in Hin. rewrite Forall_forall in Hc. by apply pad_size, Hc.
    + destruct (m_open _) as [[b w]|]; cbn [open_token tbuf]; by apply pad_size.
    + eapply Forall_impl; [exact Hrest|]. intros t' [nd' ->]. by apply pad_size.
Qed.

(** ** What a key may change *)

Lemma line_ok_insert cf ls i l :
  Forall (line_ok cf) ls -> line_ok cf l -> Forall (line_ok cf) (<[i := l]> ls).
Proof. intros H1 H2. by apply Forall_insert. Qed.

Lemma history_with p l s : history_ok p -> Zlen (buf l) = CPARSER_MAX_LINE_SIZE + 1 ->
  history_ok (emit (with_line p l) s).
Proof.
  intros [H1 H2 H3 H4] Hl. split; cbn [emit with_line put_line lines cur_line max_line]; try done.
  - by rewrite Zlen_insert.
  - by apply Forall_insert.
Qed.

(** The parser after its current line became [l'], [s] was printed and the machine moved to [f']. *)
Definition edited_parser (p : cparser) (l' : cparser_line_t) (s : list Z) (f' : fsm_t) : cparser :=
  set_fsm (set_ln p (emit (with_line (ln p) l') s)) f'.

(** While Enter types out what is missing, the line has the text at the cursor and the machine
    has it at the end: the line holds [lt] and [rt], the machine is where [t] takes it. *)
Record entering (p : cparser) (r : cparser_node_t) (lt rt t : list Z) : Prop := {
  en_settled : settled p r;
  en_line : exists l, at_line (ln p) l /\ holds l lt rt;
  en_plain : Forall (plain (cfg p)) (lt ++ rt);
  en_text : text_ok (cfg p) (lt ++ rt);
  en_tracks : tracks p r t;
}.

Lemma session_entering p r lt rt : session p r lt rt <-> entering p r lt rt lt.
Proof. split; intros []; by split. Qed.

Lemma entering_edit p r lt rt t l l' s f' lt' rt' t' :
  entering p r lt rt t -> at_line (ln p) l -> holds l' lt' rt' ->
  Forall (plain (cfg p)) (lt' ++ rt') -> text_ok (cfg p) (lt' ++ rt') ->
  tracks (set_fsm (set_ln p (emit (with_line (ln p) l') s)) f') r t' ->
  entering (edited_parser p l' s f') r lt' rt' t'.
Proof.
  intros [[Hq Hcf Hroot Htree Hu Hh Hl Htok Hpr] _ _ _ _] Hat Hh' Hp Ht Htr.
  split; [split| | | |]; try done.
  - apply history_with; [done|]. apply Hh'.
  - cbn [edited_parser set_fsm set_ln ln emit with_line put_line lines cfg].
    apply line_ok_insert; [done|]. by exists lt', rt'.
  - by apply tracks_sized in Htr.
  - exists l'. split; [|done]. by apply (at_with_line (ln p) l l').
Qed.

Lemma session_edit p r lt rt l l' s f' lt' rt' :
  session p r lt rt -> at_line (ln p) l -> holds l' lt' rt' ->
  Forall (plain (cfg p)) (lt' ++ rt') -> text_ok (cfg p) (lt' ++ rt') ->
  tracks (set_fsm (set_ln p (emit (with_line (ln p) l') s)) f') r lt' ->
  session (edited_parser p l' s f') r lt' rt'.
Proof. rewrite !session_entering. apply entering_edit. Qed.

Section Keys.
Variable glue : nat -> cparser -> outcome res.
Variable input_cb : nat -> cparser -> list Z -> Z -> outcome res.
Variable glob : list Z -> option (list (list Z)).

Abbreviation key := (cparser_input glue input_cb glob).

Lemma no_user_input p r : settled p r -> cparser_is_user_input p = Ok (false, false).
Proof. intros H. destruct (s_user _ _ H) as (E1 & E2 & E3). unfold cparser_is_user_input. by rewrite E1, E2, E3. Qed.

(** A key when no user input is pending. *)
Lemma key_unfold fuel p r ch ty : settled p r ->
  key (S fuel) p ch ty =
    '(p, next) ← input_switch p ch ty;
    match next with
    | inr rc => Ok (p, rc)
    | inl ch => input_special glue glob fuel (fun p ch => key fuel p ch CPARSER_CHAR_REGULAR) p ch
    end.
Proof. intros H. cbn [cparser_input]. rewrite (no_user_input _ _ H). done. Qed.

(** Characters that are not special go to the state machine. *)
Lemma special_plain fuel input p ch :
  ch <> ch_complete (cfg p) -> ch <> ch_help (cfg p) -> ch <> LF ->
  input_special glue glob fuel input p ch = cparser_fsm_input p ch.
Proof.
  intros H1 H2 H3. unfold input_special.
  by rewrite (proj2 (Z.eqb_neq _ _) H1), (proj2 (Z.eqb_neq _ _) H2), (proj2 (Z.eqb_neq _ _) H3).
Qed.

(** What typing leaves alone. *)
Definition kept (p p' : cparser) : Prop :=
  cfg p' = cfg p /\ priv p' = priv p /\ cur_line (ln p') = cur_line (ln p) /\ cmd p' = cmd p.

(** A character is inserted at the cursor and fed to the machine. *)
Lemma type_key fuel p r lt rt t ch :
  entering p r lt rt t -> plain (cfg p) ch -> text_ok (cfg p) (lt ++ ch :: rt) -> text_ok (cfg p) (t ++ [ch]) ->
  exists p', key (S fuel) p ch CPARSER_CHAR_REGULAR = Ok (p', CPARSER_OK) /\
    entering p' r (lt ++ [ch]) rt (t ++ [ch]) /\ kept p p'.
Proof.
  intros Hs (Hc & He & H1 & H2 & H3) Hok Hokt. pose proof Hs as [Hset (l & Hat & Hh) Hp _ Htr].
  rewrite (key_unfold _ _ _ _ _ Hset). cbn [input_switch].
  rewrite (proj2 (Z.eqb_neq (ch_complete (cfg p)) ch)), (proj2 (Z.eqb_neq (ch_help (cfg p)) ch)) by congruence.
  cbn [orb]. rewrite He, (proj2 (Z.eqb_neq _ _) H3).
  assert (Hroom : Zlen lt + Zlen rt < CPARSER_MAX_LINE_SIZE).
  { destruct Hok as (_ & Hlen & _). rewrite Zlen_app, Zlen_cons in Hlen. lia. }
  destruct (insert_spec (ln p) l lt rt ch Hat Hh (proj2 Hc) Hroom) as (l' & Hh' & Ei).
  unfold on_line. rewrite Ei. cbn [mbind outcome_bind].
  rewrite special_plain by done. set (s := ch :: rt ++ _).
  destruct (tracks_char (set_ln p (emit (with_line (ln p) l') s)) r t ch) as (f' & Ef & Hf);
    [apply Hset | apply Hset | exact Htr | exact Hokt|].
  rewrite Ef. eexists. split; [reflexivity|]. split; [|done].
  apply (entering_edit p r lt rt t l l' s f'); try done.
  - rewrite <- app_assoc. apply Forall_app in Hp as [Hp1 Hp2]. apply Forall_app_2; [done|]. by apply Forall_cons.
  - by rewrite <- app_assoc.
Qed.

Lemma insert_key fuel p r lt rt ch :
  session p r lt rt -> plain (cfg p) ch -> text_ok (cfg p) (lt ++ ch :: rt) ->
  exists p', key (S fuel) p ch CPARSER_CHAR_REGULAR = Ok (p', CPARSER_OK) /\ session p' r (lt ++ [ch]) rt.
Proof.
  rewrite session_entering. intros Hs Hp Hok.
  destruct (type_key fuel p r lt rt lt ch Hs Hp Hok) as (p' & E & Hs' & _).
  { apply (text_ok_prefix _ _ rt). by rewrite <- app_assoc. }
  exists p'. by rewrite session_entering.
Qed.

Lemma plain_move cf a c b : Forall (plain cf) ((a ++ [c]) ++ b) <-> Forall (plain cf) (a ++ c :: b).
Proof. by rewrite <- app_assoc. Qed.

Lemma erase_special cf ch : cfg_ok cf -> is_erase cf ch = true ->
  ch <> ch_complete cf /\ ch <> ch_help cf /\ ch <> LF.
Proof. intros [_ (_ & _ & H1 & H2 & _) H3] He. repeat split; intros ->; congruence. Qed.

Lemma erase_key fuel p r lt c rt ch :
  session p r (lt ++ [c]) rt -> is_erase (cfg p) ch = true -> text_ok (cfg p) (lt ++ rt) ->
  exists p', key (S fuel) p ch CPARSER_CHAR_REGULAR = Ok (p', CPARSER_OK) /\ session p' r lt rt.
Proof.
  intros Hs He Hok. pose proof Hs as [Hset (l & Hat & Hh) Hp Htext Htr].
  destruct (erase_special _ _ (s_cfg _ _ Hset) He) as (H1 & H2 & H3).
  rewrite (key_unfold _ _ _ _ _ Hset). cbn [input_switch].
  rewrite (proj2 (Z.eqb_neq (ch_complete (cfg p)) ch)), (proj2 (Z.eqb_neq (ch_help (cfg p)) ch)) by congruence.
  cbn [orb]. rewrite He. destruct (delete_spec (ln p) l lt c rt Hat Hh) as (l' & Hh' & Ei).
  unfold on_line. rewrite Ei. cbn [mbind outcome_bind]. set (s := BS :: _).
  rewrite (bool_decide_eq_false_2 (CPARSER_OK = CPARSER_ERR_INVALID_PARAMS)),
    (bool_decide_eq_false_2 (CPARSER_OK = CPARSER_ERR_NOT_EXIST)) by done.
  cbn [negb assert_ mbind outcome_bind]. rewrite special_plain by done.
  destruct (tracks_erase (set_ln p (emit (with_line (ln p) l') s)) r lt c ch) as (f' & Ef & Hf).
  { apply Hset. } { exact Htr. } { by apply text_ok_prefix in Htext. } { done. }
  rewrite Ef. eexists. split; [reflexivity|].
  apply (session_edit p r (lt ++ [c]) rt l l' s f'); try done.
  rewrite !Forall_app in Hp. apply Forall_app. tauto.
Qed.

(** With nothing to erase the key does nothing. *)
Lemma erase_key_start fuel p r rt ch :
  session p r [] rt -> is_erase (cfg p) ch = true ->
  key (S fuel) p ch CPARSER_CHAR_REGULAR = Ok (p, CPARSER_OK).
Proof.
  intros [Hset (l & Hat & Hh) _ _ _] He.
  destruct (erase_special _ _ (s_cfg _ _ Hset) He) as (H1 & H2 & H3).
  rewrite (key_unfold _ _ _ _ _ Hset). cbn [input_switch].
  rewrite (proj2 (Z.eqb_neq (ch_complete (cfg p)) ch)), (proj2 (Z.eqb_neq (ch_help (cfg p)) ch)) by congruence.
  cbn [orb]. rewrite He. unfold on_line, cparser_line_delete. rewrite (at_line_rd _ _ Hat). cbn [mbind outcome_bind].
  destruct Hh as [_ _ Hcur Hlast _]. rewrite Hcur, Hlast. change (Zlen []) with 0. rewrite (proj2 (Z.leb_le _ _)) by zl.
  cbn [assert_ mbind outcome_bind]. rewrite orb_true_r. cbn [mbind outcome_bind].
  rewrite (bool_decide_eq_false_2 (CPARSER_ERR_NOT_EXIST = CPARSER_ERR_INVALID_PARAMS)),
    (bool_decide_eq_true_2 (CPARSER_ERR_NOT_EXIST = CPARSER_ERR_NOT_EXIST)) by done.
  cbn [negb assert_ mbind outcome_bind].
  by destruct p.
Qed.

(** *** Moving the cursor *)

Lemma left_step p r lt c rt :
  session p r (lt ++ [c]) rt ->
  exists p1 p', on_line p cparser_line_prev_char = Ok (p1, BS) /\ cfg p1 = cfg p /\
    cparser_fsm_input p1 BS = Ok (p', CPARSER_OK) /\ session p' r lt (c :: rt).
Proof.
  intros Hs. pose proof Hs as [Hset (l & Hat & Hh) Hp Htext Htr].
  destruct (prev_char_spec (ln p) l lt c rt Hat Hh) as (l' & Hh' & Ei).
  unfold on_line. rewrite Ei. cbn [mbind outcome_bind].
  destruct (tracks_erase (set_ln p (emit (with_line (ln p) l') [BS])) r lt c BS) as (f' & Ef & Hf).
  { apply Hset. } { exact Htr. } { by apply text_ok_prefix in Htext. } { apply (s_cfg _ _ Hset). }
  exists (set_ln p (emit (with_line (ln p) l') [BS])), (edited_parser p l' [BS] f').
  do 2 (split; [done|]). split; [exact Ef|].
  apply (session_edit p r (lt ++ [c]) rt l l' [BS] f'); try done; by rewrite <- app_assoc in *.
Qed.

Lemma right_step p r lt c rt :
  session p r lt (c :: rt) ->
  exists p1 p', on_line p cparser_line_next_char = Ok (p1, c) /\ cfg p1 = cfg p /\
    cparser_fsm_input p1 c = Ok (p', CPARSER_OK) /\ session p' r (lt ++ [c]) rt.
Proof.
  intros Hs. pose proof Hs as [Hset (l & Hat & Hh) Hp Htext Htr].
  destruct (next_char_spec (ln p) l lt c rt Hat Hh) as (l' & Hh' & Ei).
  unfold on_line. rewrite Ei. cbn [mbind outcome_bind].
  assert (Ht2 : text_ok (cfg p) ((lt ++ [c]) ++ rt)) by (by rewrite <- app_assoc).
  destruct (tracks_char (set_ln p (emit (with_line (ln p) l') [c])) r lt c) as (f' & Ef & Hf).
  { apply Hset. } { apply Hset. } { exact Htr. } { by apply text_ok_prefix in Ht2. }
  exists (set_ln p (emit (with_line (ln p) l') [c])), (edited_parser p l' [c] f').
  do 2 (split; [done|]). split; [exact Ef|].
  apply (session_edit p r lt (c :: rt) l l' [c] f'); try done. by apply plain_move.
Qed.

Lemma left_start p r rt : session p r [] rt -> on_line p cparser_line_prev_char = Ok (p, 0).
Proof.
  intros [_ (l & Hat & Hh) _ _ _]. unfold on_line, cparser_line_prev_char. rewrite (at_line_rd _ _ Hat).
  cbn [mbind outcome_bind]. rewrite (h_current _ _ _ Hh). change (Zlen []) with 0. cbn. by destruct p.
Qed.

Lemma right_end p r lt : session p r lt [] -> on_line p cparser_line_next_char = Ok (p, 0).
Proof.
  intros [_ (l & Hat & Hh) _ _ _]. unfold on_line, cparser_line_next_char. rewrite (at_line_rd _ _ Hat).
  cbn [mbind outcome_bind]. rewrite (h_current _ _ _ Hh), (h_last _ _ _ Hh). change (Zlen []) with 0.
  rewrite (proj2 (Z.eqb_eq _ _)) by lia. cbn. by destruct p.
Qed.

(** Output alone changes nothing. *)
Lemma session_out p r lt rt s : session p r lt rt -> session (ps p s) r lt rt.
Proof.
  intros [[Hq Hcf Hroot Htree Hu [A B C D] Hl Htok Hpr] (l & Hat & Hh) Hp Ht Htr].
  split; [split| | | |]; try done. by exists l.
Qed.

Lemma left_key fuel p r lt c rt ch :
  session p r (lt ++ [c]) rt ->
  exists p', key (S fuel) p ch CPARSER_CHAR_LEFT_ARROW = Ok (p', CPARSER_OK) /\ session p' r lt (c :: rt).
Proof.
  intros Hs. destruct (left_step p r lt c rt Hs) as (p1 & p' & E1 & Ec & E2 & Hs').
  rewrite (key_unfold _ _ _ _ _ (ss_settled _ _ _ _ Hs)). cbn [input_switch]. rewrite E1. cbn.
  destruct (s_cfg _ _ (ss_settled _ _ _ _ Hs)) as [_ (H1 & H2 & _) _].
  change 8 with BS. rewrite special_plain by (rewrite ?Ec; done). by exists p'.
Qed.

Lemma plain_nonzero cf a c b : Forall (plain cf) (a ++ c :: b) -> plain cf c /\ (c =? 0) = false.
Proof.
  rewrite Forall_app, Forall_cons. intros (_ & Hc & _). split; [done|]. destruct Hc as [[_ H] _].
  by apply Z.eqb_neq.
Qed.

Lemma right_key fuel p r lt c rt ch :
  session p r lt (c :: rt) ->
  exists p', key (S fuel) p ch CPARSER_CHAR_RIGHT_ARROW = Ok (p', CPARSER_OK) /\ session p' r (lt ++ [c]) rt.
Proof.
  intros Hs. destruct (right_step p r lt c rt Hs) as (p1 & p' & E1 & Ec & E2 & Hs').
  rewrite (key_unfold _ _ _ _ _ (ss_settled _ _ _ _ Hs)). cbn [input_switch]. rewrite E1.
  destruct (plain_nonzero _ _ _ _ (ss_plain _ _ _ _ Hs)) as [(_ & _ & H1 & H2 & H3) Hz].
  cbn [mbind outcome_bind]. rewrite Hz. cbn [mbind outcome_bind].
  rewrite special_plain by (rewrite ?Ec; done). by exists p'.
Qed.

Lemma first_loop lt : forall fuel p r rt, session p r lt rt -> (length lt < fuel)%nat ->
  exists p', move_all fuel p cparser_line_prev_char = Ok p' /\ session p' r [] (lt ++ rt).
Proof.
  induction lt as [|c lt IH] using rev_ind; intros [|fuel] p r rt Hs Hf; try (cbn in Hf; lia).
  - cbn [move_all]. rewrite (left_start _ _ _ Hs). cbn. by exists p.
  - destruct (left_step p r lt c rt Hs) as (p1 & p2 & E1 & _ & E2 & Hs').
    rewrite length_app in Hf. cbn [length] in Hf.
    destruct (IH fuel p2 r (c :: rt) Hs') as (p' & E & Hs''); [lia|].
    exists p'. cbn [move_all]. rewrite E1. cbn [mbind outcome_bind]. change (BS =? 0) with false. cbv iota.
    rewrite E2. cbn [mbind outcome_bind]. by rewrite <- app_assoc.
Qed.

Lemma last_loop rt : forall fuel p r lt, session p r lt rt -> (length rt < fuel)%nat ->
  exists p', move_all fuel p cparser_line_next_char = Ok p' /\ session p' r (lt ++ rt) [].
Proof.
  induction rt as [|c rt IH]; intros [|fuel] p r lt Hs Hf; try (cbn in Hf; lia).
  - cbn [move_all]. rewrite (right_end _ _ _ Hs). cbn. exists p. by rewrite app_nil_r.
  - destruct (right_step p r lt c rt Hs) as (p1 & p2 & E1 & _ & E2 & Hs'). cbn [length] in Hf.
    destruct (IH fuel p2 r (lt ++ [c]) Hs') as (p' & E & Hs''); [lia|].
    exists p'. cbn [move_all]. rewrite E1. cbn [mbind outcome_bind].
    destruct (plain_nonzero _ _ _ _ (ss_plain _ _ _ _ Hs)) as [_ ->].
    rewrite E2. cbn [mbind outcome_bind]. by rewrite <- app_assoc in Hs''.
Qed.

Lemma session_len p r lt rt : session p r lt rt -> Zlen lt + Zlen rt <= CPARSER_MAX_LINE_SIZE - 1.
Proof. intros H. destruct (ss_text _ _ _ _ H) as (_ & H2 & _). by rewrite Zlen_app in H2. Qed.

(** *** Feeding a stored line *)

Lemma line_char_at p l a b t c u :
  at_line p l -> holds l a b -> a ++ b = t ++ c :: u -> cparser_line_char (Some p) (Zlen t) = Ok c.
Proof.
  intros Hat [[rest Hb] _ _ Hl _] E. unfold cparser_line_char. rewrite (at_line_rd _ _ Hat). cbn [mbind outcome_bind].
  rewrite Hl, <- Zlen_app, E, (proj2 (Z.ltb_lt _ _)) by (rewrite Zlen_app, Zlen_cons; pose proof (Zlen_nonneg u); lia).
  cbn [assert_ mbind outcome_bind]. rewrite Hb, app_assoc, E, <- app_assoc. by apply rd_mid.
Qed.

Lemma feed_line_tracks s : forall p r t u l a b,
  at_line (ln p) l -> holds l a b -> a ++ b = t ++ s ++ u ->
  quiet p -> tree_ok max_depth r -> tracks p r t -> text_ok (cfg p) (t ++ s) ->
  exists f', feed_line (length s) p (Zlen t) = Ok (set_fsm p f') /\ tracks (set_fsm p f') r (t ++ s).
Proof.
  induction s as [|c s IH]; intros p r t u l a b Hat Hh E Hq Hr Ht Hok.
  - exists (fsm p). rewrite app_nil_r. by destruct p.
  - assert (Hok' : text_ok (cfg p) ((t ++ [c]) ++ s)) by (by rewrite <- app_assoc).
    destruct (tracks_char p r t c Hq Hr Ht) as (f1 & E1 & Ht1); [by apply text_ok_prefix in Hok'|].
    destruct (IH (set_fsm p f1) r (t ++ [c]) u l a b) as (f' & E2 & Ht2); try done.
    { by rewrite <- app_assoc. }
    exists f'. rewrite <- app_assoc in Ht2. split; [|exact Ht2].
    cbn [length feed_line]. rewrite (line_char_at (ln p) l a b t c (s ++ u) Hat Hh E). cbn [mbind outcome_bind].
    rewrite E1. cbn [mbind outcome_bind]. rewrite bool_decide_eq_true_2 by done. cbn [assert_ mbind outcome_bind].
    rewrite Zlen_app in E2. exact E2.
Qed.

(** *** The history keys *)

Lemma settled_visit p r cur n lt rt :
  settled p r -> 0 <= cur <= max_line (ln p) -> settled (set_ln p (visit (ln p) cur n lt rt)) r.
Proof.
  intros [Hq Hcf Hroot Htree Hu [A B C D] Hl Htok Hpr] Hc. split; try done.
Qed.

Lemma reset_settled p r : settled p r ->
  exists f', cparser_fsm_reset p = Ok (set_fsm p f') /\ tracks (set_fsm p f') r [] /\ settled (set_fsm p f') r.
Proof.
  intros Hs. destruct (reset_tracks p r (s_root _ _ Hs) (s_tokens _ _ Hs)) as (f' & E & Ht).
  exists f'. split; [done|]. split; [done|]. destruct Hs. split; try done. by apply tracks_sized in Ht.
Qed.

(** A recalled line is fed up to its cursor. *)
Lemma recall_spec p r (op : option cparser_t -> outcome (option cparser_t * cparser_result_t)) cur n l lt rt :
  settled p r -> 0 <= cur <= max_line (ln p) ->
  op (Some (ln p)) = Ok (Some (visit (ln p) cur n lt rt), CPARSER_OK) ->
  lines (ln p) !! Z.to_nat cur = Some l -> holds l lt rt ->
  Forall (plain (cfg p)) (lt ++ rt) -> text_ok (cfg p) (lt ++ rt) ->
  exists p', recall p op = Ok (p', CPARSER_OK) /\ session p' r lt rt /\ ln p' = visit (ln p) cur n lt rt.
Proof.
  intros Hs Hc Eop Hl Hh Hp Htext. pose proof (settled_visit p r cur n lt rt Hs Hc) as Hs1.
  set (p1 := set_ln p (visit (ln p) cur n lt rt)) in *.
  destruct (reset_settled p1 r Hs1) as (f1 & E1 & Ht1 & Hs2). set (p2 := set_fsm p1 f1) in *.
  assert (Hat : at_line (ln p2) l) by (split; [apply Hc | exact Hl]).
  destruct (feed_line_tracks lt p2 r [] rt l lt rt Hat Hh eq_refl) as (f' & E2 & Ht2);
    [apply Hs2 | apply Hs2 | exact Ht1 | by apply (text_ok_prefix _ lt rt)|].
  exists (set_fsm p2 f'). split.
  - unfold recall, on_line. rewrite Eop. cbn [mbind outcome_bind]. fold p1.
    rewrite bool_decide_eq_true_2 by done. cbn [assert_ mbind outcome_bind]. rewrite E1. cbn [mbind outcome_bind].
    fold p2. unfold cparser_line_current. rewrite (at_line_rd _ _ Hat). cbn [mbind outcome_bind].
    rewrite (h_current _ _ _ Hh), (app_nil_l lt) in *. unfold Zlen at 1. rewrite Nat2Z.id.
    change (Zlen []) with 0 in E2. by rewrite E2.
  - split; [|done]. split; try done.
    + destruct Hs2. split; try done. by apply tracks_sized in Ht2.
    + by exists l.
Qed.

Lemma history_line p r cur : settled p r -> 0 <= cur <= max_line (ln p) ->
  exists l lt rt, lines (ln p) !! Z.to_nat cur = Some l /\ holds l lt rt /\
    Forall (plain (cfg p)) (lt ++ rt) /\ text_ok (cfg p) (lt ++ rt).
Proof.
  intros Hs Hc. destruct (s_hist _ _ Hs) as [Hn _ Hm _].
  destruct (lookup_lt_is_Some_2 (lines (ln p)) (Z.to_nat cur)) as [l Hl].
  { unfold Zlen in Hn. lia. }
  pose proof (Forall_lookup_1 _ _ _ _ (s_lines _ _ Hs) Hl) as (lt & rt & H). exists l, lt, rt. tauto.
Qed.

Lemma history_key fuel p r lt0 rt0 ch up :
  session p r lt0 rt0 ->
  exists p' lt rt,
    key (S fuel) p ch (if up : bool then CPARSER_CHAR_UP_ARROW else CPARSER_CHAR_DOWN_ARROW) = Ok (p', CPARSER_OK) /\
    session p' r lt rt /\ cur_line (ln p') = (if up then prev_of else next_of) (ln p) /\
    exists l, lines (ln p) !! Z.to_nat (cur_line (ln p')) = Some l /\ holds l lt rt.
Proof.
  intros [Hset (l0 & Hat0 & Hh0) _ _ _]. pose proof (s_hist _ _ Hset) as Hh. pose proof Hh as [_ Hc Hm _].
  assert (Hcur : 0 <= (if up then prev_of else next_of) (ln p) <= max_line (ln p)).
  { unfold prev_of, next_of. destruct up; case_match; zify_bool; lia. }
  destruct (history_line p r _ Hset Hcur) as (l & lt & rt & Hl & Hhl & Hp & Ht).
  rewrite (key_unfold _ _ _ _ _ Hset).
  assert (exists p', recall p (if up then cparser_line_prev_line else cparser_line_next_line) = Ok (p', CPARSER_OK) /\
            session p' r lt rt /\ ln p' = visit (ln p) ((if up then prev_of else next_of) (ln p)) (last l0) lt rt)
    as (p' & E & Hs' & El).
  { apply (recall_spec p r _ _ (last l0) l); try done.
    destruct up; [by apply (prev_line_spec _ l0 l) | by apply (next_line_spec _ l0 l)]. }
  exists p', lt, rt. split; [destruct up; cbn [input_switch]; by rewrite E|]. split; [done|].
  rewrite El. cbn [visit emit put_cur cur_line]. split; [done|]. by exists l.
Qed.

(** *** Entering a line *)

Lemma print_prompt_spec p r : settled p r -> exists s, print_prompt p = Ok (ps p s).
Proof.
  intros Hs. destruct (s_prompt _ _ Hs) as (s & rest & E & Hn). unfold print_prompt, cparser_print_prompt.
  set (q := if is_privileged_mode (ln p) then printc (ln p) 43 else ln p).
  assert (Hq : exists s0, q = emit (ln p) s0).
  { unfold q. destruct (is_privileged_mode (ln p)); [by exists [43] | exists []; by rewrite emit_nil]. }
  destruct Hq as [s0 ->]. cbn [emit prompt root_level]. rewrite E. cbn [mbind outcome_bind].
  rewrite (prints_spec _ [] s rest) by done. cbn [mbind outcome_bind]. rewrite emit_emit. by eexists.
Qed.

Lemma print_error_spec p r msg : settled p r -> exists s, cparser_print_error p msg = Ok (ps p s).
Proof.
  intros Hs. destruct (s_prompt _ _ Hs) as (s & rest & E & Hn). unfold cparser_print_error.
  cbn [pc set_ln ln printc prompt root_level]. rewrite E. cbn [mbind outcome_bind].
  rewrite (c_string_spec s [] rest) by (done || (rewrite length_app; cbn; lia)). cbn [mbind outcome_bind].
  eexists. unfold ps, pc, set_ln. cbn [ln cfg root fsm p_done cookies usr cmd].
  rewrite !printc_emit, !emit_emit. reflexivity.
Qed.

Lemma settled_out p r s : settled p r -> settled (ps p s) r.
Proof. intros [Hq Hcf Hroot Htree Hu [A B C D] Hl Htok Hpr]. by split. Qed.

Lemma settled_record p r rc : settled p r -> settled (cparser_record_command p rc) r.
Proof. intros [Hq Hcf Hroot Htree Hu Hh Hl Htok Hpr]. by split. Qed.

Lemma settled_fsm p r f t : settled p r -> represents f (run (is_privileged_mode (ln p)) r t) -> settled (set_fsm p f) r.
Proof.
  intros [Hq Hcf Hroot Htree Hu Hh Hl Htok Hpr] Hf. split; try done. by apply (tracks_sized (set_fsm p f) r t).
Qed.

Lemma empty_line_ok cf : line_ok cf (Line 0 0 (replicate 384 0)).
Proof.
  exists [], []. split; [split; try done; by exists (replicate 383 0)|]. split; [done|].
  apply text_ok_short; [done|]. change (Zlen ([] ++ [])) with 0. done.
Qed.

(** The next line is empty, and so is the machine. *)
Lemma advance_session p r : settled p r -> tracks p r [] ->
  exists p', on_line p cparser_line_advance = Ok (p', CPARSER_OK) /\ session p' r [] [] /\ cmd p' = cmd p.
Proof.
  intros Hs Ht. pose proof (s_hist _ _ Hs) as Hh. unfold on_line. rewrite (advance_spec _ Hh). cbn [mbind outcome_bind].
  set (cur := if cur_line (ln p) =? CPARSER_MAX_LINES - 1 then 0 else cur_line (ln p) + 1).
  eexists. split; [reflexivity|]. split; [|done].
  destruct Hs as [Hq Hcf Hroot Htree Hu [A B C D] Hl Htok Hpr].
  assert (Hcur : 0 <= cur < CPARSER_MAX_LINES) by (unfold cur; case_match; zify_bool; lia).
  split; [split| | | |]; try done.
  - split; cbn [set_ln ln put_line put_cur lines cur_line max_line]; [by rewrite Zlen_insert | lia | lia|].
    by apply Forall_insert.
  - cbn [set_ln ln put_line put_cur lines cfg]. apply line_ok_insert; [done|]. apply empty_line_ok.
  - exists (Line 0 0 (replicate 384 0)). split.
    + split; cbn [set_ln ln put_line put_cur lines cur_line]; [apply Hcur|].
      apply list_lookup_insert_eq. unfold Zlen in A. lia.
    + split; try done. by exists (replicate 383 0).
  - apply text_ok_short; [done|]. change (Zlen ([] ++ [])) with 0. done.
Qed.

(** The end of [cparser_execute_cmd]: record, reset, prompt; then the next line. *)
Lemma finish_session p r rc : settled p r ->
  exists p1 p', finish_cmd p rc = Ok (p1, rc) /\ on_line p1 cparser_line_advance = Ok (p', CPARSER_OK) /\
    session p' r [] [] /\ cmd p' = Command (cur_line (ln p)) rc (cur_node (fsm p)).
Proof.
  intros Hs. pose proof (settled_record p r rc Hs) as H1. destruct (reset_settled _ _ H1) as (f' & E & Ht & H2).
  unfold finish_cmd. rewrite E. cbn [mbind outcome_bind]. rewrite (no_user_input _ _ H2). cbn [mbind outcome_bind].
  destruct (print_prompt_spec _ _ H2) as (s & ->). cbn [mbind outcome_bind].
  destruct (advance_session _ r (settled_out _ _ s H2) Ht) as (p' & E2 & Hs' & Ec).
  exists (ps (set_fsm (cparser_record_command p rc) f') s), p'. done.
Qed.

Lemma give_up_session p r rc blank : settled p r ->
  exists p1 p', give_up_cmd p rc blank = Ok (p1, rc) /\ on_line p1 cparser_line_advance = Ok (p', CPARSER_OK) /\
    session p' r [] [] /\ cmd p' = Command (cur_line (ln p)) rc (cur_node (fsm p)).
Proof.
  intros Hs. pose proof (settled_record p r rc Hs) as H1. destruct (reset_settled _ _ H1) as (f' & E & Ht & H2).
  unfold give_up_cmd. rewrite E. cbn [mbind outcome_bind]. set (p2 := set_fsm _ f') in *.
  assert (H3 : exists s0, (if blank then pc p2 LF else p2) = ps p2 s0).
  { destruct blank; [by exists [LF]|]. exists []. unfold ps. rewrite emit_nil. by destruct p2. }
  destruct H3 as [s0 ->]. destruct (print_prompt_spec _ _ (settled_out _ _ s0 H2)) as (s & ->). cbn [mbind outcome_bind].
  destruct (advance_session _ r (settled_out _ _ s (settled_out _ _ s0 H2)) Ht) as (p' & E2 & Hs' & Ec).
  exists (ps (ps p2 s0) s), p'. done.
Qed.

(** The rest of the line goes into the machine, then the command is executed. *)
Lemma enter_unfold fuel p r lt rt :
  session p r lt rt ->
  exists f1, represents f1 (run (is_privileged_mode (ln p)) r (lt ++ rt)) /\ settled (set_fsm p f1) r /\
    key (S fuel) p LF CPARSER_CHAR_REGULAR =
      '(p, rc) ← cparser_execute_cmd glue glob (fun p ch => key fuel p ch CPARSER_CHAR_REGULAR) fuel (set_fsm p f1);
      '(p, _) ← on_line p cparser_line_advance;
      Ok (p, rc).
Proof.
  intros [Hset (l & Hat & Hh) Hp Htext Htr]. destruct (s_cfg _ _ Hset) as [_ (_ & _ & _ & _ & H1 & H2 & _) H3].
  destruct (feed_line_tracks rt p r lt [] l lt rt Hat Hh) as (f1 & E1 & Ht1);
    [by rewrite app_nil_r | apply Hset | apply Hset | done | done|].
  exists f1. split; [exact Ht1|]. split; [by apply (settled_fsm _ _ _ (lt ++ rt))|].
  rewrite (key_unfold _ _ _ _ _ Hset). cbn [input_switch].
  rewrite (proj2 (Z.eqb_neq (ch_complete (cfg p)) LF)), (proj2 (Z.eqb_neq (ch_help (cfg p)) LF)) by done.
  cbn [orb]. rewrite H3. change (LF =? LF) with true. cbv iota.
  unfold cparser_line_current, cparser_line_last. rewrite (at_line_rd _ _ Hat). cbn [mbind outcome_bind].
  rewrite (h_current _ _ _ Hh), (h_last _ _ _ Hh).
  replace (Z.to_nat (Zlen lt + Zlen rt - Zlen lt)) with (length rt) by (unfold Zlen; lia).
  rewrite E1. cbn [mbind outcome_bind]. unfold input_special. cbn [cfg set_fsm].
  rewrite (proj2 (Z.eqb_neq LF (ch_complete (cfg p)))), (proj2 (Z.eqb_neq LF (ch_help (cfg p)))) by congruence.
  reflexivity.
Qed.

Lemma represents_state f a : represents f a -> state f = machine_state a /\ cur_node f = Some (m_cur a) /\
  token_tos f = Zlen (m_closed a).
Proof. by intros (nd & rest & -> & _). Qed.

(** An erroneous line. *)
Lemma enter_error fuel p r lt rt :
  session p r lt rt -> let a := run (is_privileged_mode (ln p)) r (lt ++ rt) in m_bad a <> O ->
  exists p', key (S fuel) p LF CPARSER_CHAR_REGULAR = Ok (p', CPARSER_ERR_PARSE_ERR) /\ session p' r [] [] /\
    cmd p' = Command (cur_line (ln p)) CPARSER_ERR_PARSE_ERR (Some (m_cur a)).
Proof.
  intros Hs a Hb. destruct (enter_unfold fuel p r lt rt Hs) as (f1 & Hf & Hset & ->).
  destruct (represents_state _ _ Hf) as (Est & Ecur & _). fold a in Est, Ecur.
  unfold cparser_execute_cmd. cbn [set_fsm fsm]. rewrite Est. unfold machine_state.
  destruct (m_bad a); [done|]. destruct (print_error_spec _ _ S_PARSE_ERROR Hset) as (s & ->). cbn [mbind outcome_bind].
  destruct (finish_session _ r CPARSER_ERR_PARSE_ERR (settled_out _ _ s Hset)) as (p1 & p' & E1 & E2 & Hs' & Ec).
  rewrite E1. cbn [mbind outcome_bind]. rewrite E2. cbn [mbind outcome_bind]. exists p'. split; [done|]. split; [done|].
  rewrite Ec. cbn [ps set_ln fsm set_fsm ln emit cur_line]. by rewrite Ecur.
Qed.

(** A last word that does not select a node completely. *)
Lemma enter_incomplete fuel p r lt rt b w :
  session p r lt rt -> let a := run (is_privileged_mode (ln p)) r (lt ++ rt) in
  m_bad a = O -> m_open a = Some (b, w) ->
  match best (is_privileged_mode (ln p)) w (m_cur a) with Some (_, true) => False | _ => True end ->
  exists p', key (S fuel) p LF CPARSER_CHAR_REGULAR = Ok (p', CPARSER_ERR_INCOMP_CMD) /\ session p' r [] [] /\
    cmd p' = Command (cur_line (ln p)) CPARSER_ERR_INCOMP_CMD (Some (m_cur a)).
Proof.
  intros Hs a Hb Ho Hbest. destruct (enter_unfold fuel p r lt rt Hs) as (f1 & Hf & Hset & ->).
  destruct (represents_state _ _ Hf) as (Est & Ecur & _). fold a in Est, Ecur.
  unfold cparser_execute_cmd. cbn [set_fsm fsm]. rewrite Est. unfold machine_state. rewrite Hb, Ho.
  destruct Hf as (nd & rest & -> & _). unfold CUR_TOKEN. cbn [layout tokens token_tos]. fold a in Hset |- *. rewrite top_at.
  cbn [mbind outcome_bind]. rewrite Ho. cbn [open_token tbuf token_len layout cur_node].
  pose proof (ss_text _ _ _ _ Hs) as Htext. pose proof (text_ok_chars _ _ Htext) as Hchars.
  destruct (run_word (is_privileged_mode (ln p)) r (lt ++ rt) Hchars) as [Hw|Hw]; [|by fold a in Hw; rewrite Hb in Hw].
  fold a in Hw. rewrite Ho in Hw.
  destruct (run_placed (is_privileged_mode (ln p)) r (lt ++ rt)) as [Hpl _]. fold a in Hpl. rewrite Ho in Hpl.
  destruct (run_tree (is_privileged_mode (ln p)) r (lt ++ rt) max_depth (s_tree _ _ (ss_settled _ _ _ _ Hs))) as (h & Hh & _).
  fold a in Hh.
  destruct (cparser_match_best (priv p) w (replicate (Z.to_nat (CPARSER_MAX_TOKEN_SIZE - Zlen w)) 0) (m_cur a))
    as (m & Em & Hm0 & Hm); [by eapply tree_ok_children | apply Hw | apply Hpl|].
  fold (pad w) in Em. change (priv (set_fsm p _)) with (priv p). rewrite Em. cbn [mbind outcome_bind].
  assert (Hno : (1 <=? m_count m) && m_complete m = false).
  { unfold priv in Hm. destruct (best _ w (m_cur a)) as [[m' [|]]|]; [done| |].
    - destruct Hm as (_ & _ & ->). apply andb_false_r.
    - zify_bool. rewrite (proj2 (Z.leb_gt _ _)) by lia. done. }
  rewrite Hno. destruct (print_error_spec _ _ S_INCOMPLETE Hset) as (s & ->). cbn [mbind outcome_bind].
  destruct (give_up_session _ r CPARSER_ERR_INCOMP_CMD false (settled_out _ _ s Hset)) as (p1 & p' & E1 & E2 & Hs' & Ec).
  rewrite E1. cbn [mbind outcome_bind]. rewrite E2. cbn [mbind outcome_bind]. exists p'. split; [done|]. split; [done|].
  by rewrite Ec.
Qed.

(** A node at which Enter completes nothing: several children, or one that is not a keyword. *)
Definition no_descent (pv : bool) (n : cparser_node_t) : Prop :=
  match n_children n with
  | [] => False
  | [c] => is_type c [CPARSER_NODE_KEYWORD] && NODE_USABLE pv c = false
  | _ => True
  end.

Lemma descend_stays input fuel p n :
  cur_node (fsm p) = Some n -> no_descent (priv p) n -> descend input (S fuel) p = Ok p.
Proof.
  intros E H. cbn [descend]. unfold cur_children. rewrite E. cbn [mbind outcome_bind]. unfold no_descent in H.
  destruct (n_children n) as [|c [|? ?]]; [done|by rewrite H|done].
Qed.

End Keys.

(** ** Properties *)

Inductive edit_key :=
| KInsert (ch : Z) | KErase (ch : Z) | KLeft | KRight | KFirst | KLast | KUp | KDown | KUnknown.

Definition key_code (k : edit_key) : Z * cparser_char_t :=
  match k with
  | KInsert ch | KErase ch => (ch, CPARSER_CHAR_REGULAR)
  | KLeft => (0, CPARSER_CHAR_LEFT_ARROW)
  | KRight => (0, CPARSER_CHAR_RIGHT_ARROW)
  | KFirst => (0, CPARSER_CHAR_FIRST)
  | KLast => (0, CPARSER_CHAR_LAST)
  | KUp => (0, CPARSER_CHAR_UP_ARROW)
  | KDown => (0, CPARSER_CHAR_DOWN_ARROW)
  | KUnknown => (0, CPARSER_CHAR_UNKNOWN)
  end.

(** The text around the cursor after a key; the history keys show another line. *)
Definition key_effect (p : cparser) (lt rt : list Z) (k : edit_key) (lt' rt' : list Z) : Prop :=
  match k with
  | KInsert ch => lt' = lt ++ [ch] /\ rt' = rt
  | KErase _ => lt' = removelast lt /\ rt' = rt
  | KLeft => lt' = removelast lt /\ lt' ++ rt' = lt ++ rt
  | KRight => rt' = drop 1 rt /\ lt' ++ rt' = lt ++ rt
  | KFirst => lt' = [] /\ rt' = lt ++ rt
  | KLast => lt' = lt ++ rt /\ rt' = []
  | KUp => exists l, lines (ln p) !! Z.to_nat (prev_of (ln p)) = Some l /\ holds l lt' rt'
  | KDown => exists l, lines (ln p) !! Z.to_nat (next_of (ln p)) = Some l /\ holds l lt' rt'
  | KUnknown => lt' = lt /\ rt' = rt
  end.

(** The key is of its kind, and the text it leaves is one the machine can take. *)
Definition key_ok (cf : cparser_cfg_t) (lt rt : list Z) (k : edit_key) : Prop :=
  match k with
  | KInsert ch => plain cf ch /\ text_ok cf (lt ++ ch :: rt)
  | KErase ch => is_erase cf ch = true /\ text_ok cf (removelast lt ++ rt)
  | _ => True
  end.

(** C5: an editing key - a character, an erase, the four arrows, the two ends of the line, an
    unknown key - that leaves a text the parser has room for runs without a failed assertion or an
    access out of bounds, does to the line what the key says, and leaves the state machine exactly
    where the text before the cursor takes it.  Insertions and erases inside the line, which the state
    machine sees as if they were at its end, included.  Room ([text_ok], in [key_ok] and in the session)
    means at most 382 characters in the line, no word of more than 255, and plain characters: without
    it the code does write outside an array ([token_of_256_overruns] of CliFaults) or lets the line and
    the machine part ([last_column_desynchronizes]).  The tree has at most 32 levels. *)
Theorem key_keeps_session glue input_cb glob fuel p r lt rt k :
  session p r lt rt -> key_ok (cfg p) lt rt k ->
  exists p' rc lt' rt',
    cparser_input glue input_cb glob (S fuel) p (fst (key_code k)) (snd (key_code k)) = Ok (p', rc) /\
    session p' r lt' rt' /\ key_effect p lt rt k lt' rt'.
Proof.
  intros Hs Hk. pose proof (session_len _ _ _ _ Hs) as Hlen. pose proof (ss_settled _ _ _ _ Hs) as Hset.
  unfold CPARSER_MAX_LINE_SIZE in Hlen. pose proof (Zlen_nonneg lt). pose proof (Zlen_nonneg rt).
  destruct k as [ch|ch| | | | | | |]; cbn [key_code fst snd key_ok key_effect] in *.
  - destruct Hk as [Hp Ht]. destruct (insert_key glue input_cb glob fuel p r lt rt ch Hs Hp Ht) as (p' & E & Hs').
    by exists p', CPARSER_OK, (lt ++ [ch]), rt.
  - destruct Hk as [He Ht]. destruct lt as [|c lt _] using rev_ind.
    + exists p, CPARSER_OK, [], rt. split; [by apply (erase_key_start glue input_cb glob fuel p r rt) | done].
    + rewrite removelast_last in *. destruct (erase_key glue input_cb glob fuel p r lt c rt ch Hs He Ht) as (p' & E & Hs').
      by exists p', CPARSER_OK, lt, rt.
  - destruct lt as [|c lt _] using rev_ind.
    + exists (ps p [BEL]), CPARSER_OK, [], rt. split; [|split; [by apply session_out | done]].
      rewrite (key_unfold _ _ _ _ _ _ _ _ Hset). cbn [input_switch]. by rewrite (left_start _ _ _ Hs).
    + destruct (left_key glue input_cb glob fuel p r lt c rt 0 Hs) as (p' & E & Hs').
      exists p', CPARSER_OK, lt, (c :: rt). rewrite removelast_last, <- app_assoc. done.
  - destruct rt as [|c rt].
    + exists (ps p [BEL]), CPARSER_OK, lt, []. split; [|split; [by apply session_out | done]].
      rewrite (key_unfold _ _ _ _ _ _ _ _ Hset). cbn [input_switch]. by rewrite (right_end _ _ _ Hs).
    + destruct (right_key glue input_cb glob fuel p r lt c rt 0 Hs) as (p' & E & Hs').
      exists p', CPARSER_OK, (lt ++ [c]), rt. rewrite <- app_assoc. done.
  - destruct (first_loop lt move_fuel p r rt Hs) as (p' & E & Hs'); [unfold move_fuel, CPARSER_MAX_LINE_SIZE, Zlen in *; lia|].
    exists p', CPARSER_OK, [], (lt ++ rt). split; [|done].
    rewrite (key_unfold _ _ _ _ _ _ _ _ Hset). cbn [input_switch]. by rewrite E.
  - destruct (last_loop rt move_fuel p r lt Hs) as (p' & E & Hs'); [unfold move_fuel, CPARSER_MAX_LINE_SIZE, Zlen in *; lia|].
    exists p', CPARSER_OK, (lt ++ rt), []. split; [|done].
    rewrite (key_unfold _ _ _ _ _ _ _ _ Hset). cbn [input_switch]. by rewrite E.
  - destruct (history_key glue input_cb glob fuel p r lt rt 0 true Hs) as (p' & lt' & rt' & E & Hs' & Ec & Hl).
    exists p', CPARSER_OK, lt', rt'. rewrite Ec in Hl. done.
  - destruct (history_key glue input_cb glob fuel p r lt rt 0 false Hs) as (p' & lt' & rt' & E & Hs' & Ec & Hl).
    exists p', CPARSER_OK, lt', rt'. rewrite Ec in Hl. done.
  - exists (ps p [BEL]), CPARSER_NOT_OK, lt, rt. split; [|split; [by apply session_out | done]].
    by rewrite (key_unfold _ _ _ _ _ _ _ _ Hset).
Qed.

(** *** Initialization *)

(** The arrays of the structure have the sizes of their declarations. *)
Record allocated (p : cparser) : Prop := {
  al_roots : Zlen (root p) = CPARSER_MAX_NESTED_LEVELS;
  al_prompts : Zlen (prompt (ln p)) = CPARSER_MAX_NESTED_LEVELS;
  al_prompt : Forall (fun s => Zlen s = CPARSER_MAX_PROMPT) (prompt (ln p));
  al_lines : Zlen (lines (ln p)) = CPARSER_MAX_LINES;
  al_line : Forall (fun l => Zlen (buf l) = CPARSER_MAX_LINE_SIZE + 1) (lines (ln p));
  al_tokens : tokens_sized (fsm p);
}.

Lemma c_string_total b : forall k n : nat, (n + k = length b)%nat -> (n < length b)%nat ->
  b !! (length b - 1)%nat = Some 0 ->
  exists s, c_string (S k) b (Z.of_nat n) = Ok s /\ Forall (fun c => c <> 0) s.
Proof.
  induction k as [|k IH]; intros n Hk Hn Hlast; [lia|]. remember (S k) as k' eqn:Ek. cbn [c_string].
  destruct (rd_in_range b (Z.of_nat n)) as [c Ec]; [unfold Zlen; lia|]. rewrite Ec. cbn [mbind outcome_bind].
  destruct (c =? 0) eqn:E0; [by exists []|]. zify_bool.
  apply rd_Ok_iff in Ec as [_ Ec]. rewrite Nat2Z.id in Ec.
  assert (Hne : n <> (length b - 1)%nat) by (intros Heq; rewrite Heq in Ec; congruence).
  destruct (IH (S n)) as (s & Es & Hs); [lia | lia | done|]. subst k'.
  replace (Z.of_nat n + 1) with (Z.of_nat (S n)) by lia. rewrite Es. cbn [mbind outcome_bind].
  exists (c :: s). split; [done|]. by apply Forall_cons.
Qed.

Lemma snprintf_shape old s : Zlen old = CPARSER_MAX_PROMPT -> Forall (fun c => c <> 0) s ->
  exists s' rest, snprintf_s old s = s' ++ 0 :: rest /\ Forall (fun c => c <> 0) s'.
Proof.
  intros _ Hs. unfold snprintf_s. eexists _, _. split; [reflexivity|]. by apply Forall_take.
Qed.

Lemma fresh_lines ls :
  Forall (fun l => Zlen (buf l) = CPARSER_MAX_LINE_SIZE + 1) ls ->
  map (fun l => Line 0 0 (replicate (length (buf l)) 0)) ls = replicate (length ls) (Line 0 0 (replicate 384 0)).
Proof.
  induction 1 as [|l ls Hl Hls IH]; [done|]. cbn [map length replicate]. rewrite IH.
  by replace (length (buf l)) with 384%nat by (unfold Zlen, CPARSER_MAX_LINE_SIZE in Hl; lia).
Qed.

(** C39: [cparser_init] with a usable configuration and tree takes any allocated structure, whatever
    it held, to a session at the root with an empty line; without a root or an erase key it
    refuses and changes nothing. *)
Theorem init_starts_session cf p :
  allocated p -> Zlen (cfg_prompt cf) = CPARSER_MAX_PROMPT -> cfg_ok cf ->
  Z.land (cfg_flags cf) CPARSER_FLAGS_DEBUG = 0 ->
  match cfg_root cf with
  | Some r =>
      tree_ok max_depth r ->
      if ch_erase cf =? 0 then cparser_init cf p = Ok (p, CPARSER_ERR_INVALID_PARAMS)
      else exists p', cparser_init cf p = Ok (p', CPARSER_OK) /\ session p' r [] [] /\ root_level (ln p') = 0
  | None => cparser_init cf p = Ok (p, CPARSER_ERR_INVALID_PARAMS)
  end.
Proof.
  intros [A1 A2 A3 A4 A5 A6] Hpr Hcf Hq. unfold cparser_init.
  destruct (cfg_root cf) as [r|] eqn:Er; [|done]. intros Htree. destruct (ch_erase cf =? 0); [done|].
  unfold CPARSER_MAX_PROMPT, CPARSER_MAX_NESTED_LEVELS in *.
  rewrite wr_in_range by lia. cbn [mbind outcome_bind]. rewrite wr_in_range by lia. cbn [mbind outcome_bind].
  set (pr := <[Z.to_nat (16 - 1) := 0]> (cfg_prompt cf)).
  assert (Hl : length pr = 16%nat) by (unfold pr; rewrite length_insert; unfold Zlen in Hpr; lia).
  destruct (c_string_total pr (length pr) 0) as (s & Es & Hs0); [lia.. | |].
  { rewrite Hl. unfold pr. apply list_lookup_insert_eq. unfold Zlen in Hpr. lia. }
  change (Z.of_nat 0) with 0 in Es. rewrite Es. cbn [mbind outcome_bind].
  destruct (rd_in_range (prompt (ln p)) 0) as [p0 Ep0]; [lia|]. rewrite Ep0. cbn [mbind outcome_bind].
  rewrite wr_in_range by lia. cbn [mbind outcome_bind].
  pose proof (Forall_rd _ _ _ _ A3 Ep0) as Hp0. cbv beta in Hp0.
  destruct (snprintf_shape p0 s Hp0 Hs0) as (s' & rest & Esn & Hs'). rewrite Esn.
  rewrite fresh_lines by done. set (q := CParser _ _ _ _ _ _ _ _).
  assert (Hroot : rd (root q) (root_level (ln q)) = Ok (Some r)).
  { cbn [q root ln root_level]. apply rd_insert_eq. lia. }
  destruct (reset_tracks q r Hroot A6) as (f' & Ef & Ht). rewrite Ef. cbn [mbind outcome_bind].
  eexists. split; [reflexivity|]. split; [|done].
  assert (Hlen : length (lines (ln p)) = 10%nat) by (unfold Zlen, CPARSER_MAX_LINES in A4; lia).
  assert (Htr : tracks (cparser_input_reset (set_priv (set_fsm q f') false)) r []) by exact Ht.
  split; [split| | | |].
  - exact Hq.
  - destruct Hcf. by split.
  - exact Hroot.
  - exact Htree.
  - done.
  - split; cbn [cparser_input_reset set_usr set_priv set_ln ln lines cur_line max_line set_fsm q]; rewrite ?Hlen; try done.
    by apply Forall_replicate.
  - cbn [cparser_input_reset set_usr set_priv set_ln ln lines set_fsm q cfg]. apply Forall_replicate, empty_line_ok.
  - by apply tracks_sized in Htr.
  - exists s', rest. split; [|done].
    cbn [cparser_input_reset set_usr set_priv set_ln ln prompt root_level set_fsm q]. apply (rd_insert_eq (prompt (ln p)) 0). lia.
  - exists (Line 0 0 (replicate 384 0)). split.
    + split; [done|]. cbn [cparser_input_reset set_usr set_priv set_ln ln lines set_fsm q cur_line]. by rewrite Hlen.
    + split; try done. by exists (replicate 383 0).
  - done.
  - apply text_ok_short; [done|]. change (Zlen ([] ++ [])) with 0. done.
  - exact Htr.
Qed.

(** *** A session to start from *)

Definition ex_ready : cparser :=
  set_fsm ex_parser (layout (machine0 ex_root) None (replicate 31 (open_token None None))).

Lemma ex_session : session ex_ready ex_root [] [].
Proof.
  assert (Ht : tracks ex_ready ex_root []).
  { exists None, (replicate 31 (open_token None None)). split; [reflexivity|]. split; [|reflexivity].
    apply Forall_replicate. by exists None. }
  split; [split| | | |]; try done.
  - apply ex_root_ok.
  - split; try done. by_compute.
  - apply Forall_replicate, empty_line_ok.
  - by apply tracks_sized in Ht.
  - exists [62], (replicate 14 0). split; [reflexivity | by_compute].
  - exists ex_line. split; [done|]. split; try done. by exists (replicate 383 0).
  - apply text_ok_short; by_compute.
Qed.

Definition ex_glue (g : nat) (p : cparser) : outcome res := Ok (p, CPARSER_OK).
Definition ex_cb (g : nat) (p : cparser) (b : list Z) (n : Z) : outcome res := Ok (p, CPARSER_OK).
Definition ex_glob (s : list Z) : option (list (list Z)) := None.

Lemma key_keeps_session_witness :
  exists p' rc lt' rt',
    cparser_input ex_glue ex_cb ex_glob 1 ex_ready 115 CPARSER_CHAR_REGULAR = Ok (p', rc) /\
    session p' ex_root lt' rt' /\ lt' = [115] /\ rt' = [].
Proof.
  destruct (key_keeps_session ex_glue ex_cb ex_glob 0 ex_ready ex_root [] [] (KInsert 115) ex_session)
    as (p' & rc & lt' & rt' & E & Hs & H1 & H2).
  { split; [by_compute | apply text_ok_short; by_compute]. }
  exists p', rc, lt', rt'. split; [exact E|]. split; [exact Hs|]. split; [exact H1 | exact H2].
Defined.

Lemma init_starts_session_witness :
  exists p', cparser_init (Cfg (Some ex_root) 9 8 127 63 (62 :: replicate 15 0) 1 0) ex_parser = Ok (p', CPARSER_OK) /\
    session p' ex_root [] [].
Proof.
  assert (Ha : allocated ex_parser) by (split; first [done | by_compute]).
  assert (Hc : cfg_ok (Cfg (Some ex_root) 9 8 127 63 (62 :: replicate 15 0) 1 0)) by (split; by_compute).
  destruct (init_starts_session (Cfg (Some ex_root) 9 8 127 63 (62 :: replicate 15 0) 1 0) ex_parser Ha eq_refl Hc eq_refl ex_root_ok)
    as (p' & E & Hs & _).
  exists p'. split; [exact E | exact Hs].
Defined.
