(* ===== verification/CliEnter.v ===== *)
(** * CLI parser: what Enter does

    Enter first feeds the part of the line after the cursor to the state machine, so
    that the whole line counts.  If the last word is still open and selects a node
    completely it is typed out (an abbreviated keyword, a unique keyword of a list, a
    unique file name) and closed with a blank; then, as long as the node reached has a
    single usable keyword below it, that keyword is typed too.  What Enter types goes
    into the line at the cursor and into the machine at the end.  The first part
    describes this text and shows on the abstract machine of CliFsm that it is
    accepted and that the typing ends; the second part follows the parser. *)

From stdpp Require Import base numbers list list_numbers.
From S2P Require Import Prelude CliLine CliToken CliFsm CliWords Cli CliSession.

#[local] Open Scope Z_scope.

(** ** The text Enter types *)

(** What completes the word [w] that selects [m]. *)
Definition completion (glob : list Z -> option (list (list Z))) (m : cparser_node_t) (w : list Z) : list Z :=
  match n_type m, n_param m with
  | CPARSER_NODE_KEYWORD, PStr kw => drop (length w) kw
  | CPARSER_NODE_LIST, PList ks =>
      match filter (fun kw => prefixb w kw) ks with [kw] => drop (length w) kw | _ => [] end
  | CPARSER_NODE_FILE, _ => match glob w with Some [path] => drop (length w) path | _ => [] end
  | _, _ => []
  end.

(** The keyword Enter goes on with at the node [n]. *)
Definition only_keyword (pv : bool) (n : cparser_node_t) : option (list Z) :=
  match n_children n with
  | [c] =>
      if is_type c [CPARSER_NODE_KEYWORD] && NODE_USABLE pv c
      then match n_param c with PStr kw => Some kw | _ => None end
      else None
  | _ => None
  end.

(** The keywords below the node reached, at most [h] of them. *)
Fixpoint descent (h : nat) (pv : bool) (a : machine) : list Z :=
  match h, only_keyword pv (m_cur a) with
  | S h, Some kw => kw ++ [32] ++ descent h pv (foldl (feed pv) a (kw ++ [32]))
  | _, _ => []
  end.

(** What closes the open word. *)
Definition closing (glob : list Z -> option (list (list Z))) (pv : bool) (a : machine) : list Z :=
  match m_open a with
  | None => []
  | Some (_, w) => match best pv w (m_cur a) with Some (m, _) => completion glob m w ++ [32] | None => [32] end
  end.

Definition enter_text (glob : list Z -> option (list (list Z))) (pv : bool) (a : machine) : list Z :=
  let cs := closing glob pv a in cs ++ descent max_depth pv (foldl (feed pv) a cs).

(** The last word, if it is still open, selects a node completely. *)
Definition selected (pv : bool) (a : machine) : Prop :=
  match m_open a with
  | None => True
  | Some (_, w) => match best pv w (m_cur a) with Some (_, true) => True | _ => False end
  end.

(** A tree as the generator builds it: a keyword is a word, an END node has a glue function, and every
    other node has something below it. *)
Definition word_node (c : cparser_node_t) : Prop :=
  match n_type c, n_param c with
  | CPARSER_NODE_KEYWORD, PStr kw => word_ok kw
  | CPARSER_NODE_KEYWORD, _ => False
  | CPARSER_NODE_LIST, PList ks => Forall word_ok ks
  | CPARSER_NODE_END, PGlue _ => True
  | CPARSER_NODE_END, _ => False
  | _, _ => True
  end.

Fixpoint proper (h : nat) (n : cparser_node_t) : Prop :=
  match h with
  | O => False
  | S h => n_children n <> [] /\
           Forall (fun c => word_node c /\ (n_type c <> CPARSER_NODE_END -> proper h c)) (n_children n)
  end.

(** A file name is completed to one without blanks. *)
Definition blankless (glob : list Z -> option (list (list Z))) : Prop :=
  forall w path, glob w = Some [path] -> Forall (fun c => c <> 32) path.

(** ** The machine accepts it *)

(** What a selected node is. *)
Lemma pick_selects pv s children : forall a,
  match m_match (pick pv s children a) with
  | Some m => (m_match a = Some m /\ m_complete a = m_complete (pick pv s children a)) \/
              (m ∈ children /\ NODE_USABLE pv m = true /\ match_text m s = Some (m_complete (pick pv s children a)))
  | None => True
  end.
Proof.
  induction children as [|child children IH]; intros a; cbn [pick foldl].
  - destruct (m_match a) eqn:E; auto.
  - specialize (IH (if NODE_USABLE pv child then better a child (match_text child s) else a)).
    unfold pick in IH. set (R := foldl _ _ children) in *. clearbody R. destruct (m_match R) as [m|]; [|done].
    destruct IH as [[IH1 IH2]|(IH1 & IH2)]; [|right; split; [by right | done]].
    destruct (NODE_USABLE pv child) eqn:Eu; [|by left]. unfold better in IH1, IH2.
    destruct (match_text child s) as [c|] eqn:Et; [|by left].
    destruct (m_match a) as [m0|]; [destruct (negb _ && _)|]; cbn [m_match m_complete] in IH1, IH2;
      first [by left | injection IH1 as <-; right; split; [by left|]; split; [done|]; congruence].
Qed.

Lemma best_selects pv s n m c :
  best pv s n = Some (m, c) ->
  m ∈ n_children n /\ NODE_USABLE pv m = true /\
  exists b, match_text m s = Some b /\ (c = true -> b = true \/ n_type m = CPARSER_NODE_KEYWORD).
Proof.
  unfold best. pose proof (pick_selects pv s (n_children n) (MatchAcc None false 0)) as H.
  destruct (m_match (pick _ _ _ _)) as [m'|]; [|done]. intros [= <- <-].
  destruct H as [[H _]|(H1 & H2 & H3)]; [done|]. split; [done|]. split; [done|]. eexists. split; [done|].
  intros [Hk|Hc]%orb_prop; [right | by left]. apply andb_prop in Hk as [_ Hk].
  unfold is_type in Hk. apply bool_decide_eq_true in Hk. by apply list_elem_of_singleton in Hk.
Qed.

Lemma pick_complete pv s children : forall a,
  (m_match a <> None /\ m_complete a = true) \/
  Exists (fun n => NODE_USABLE pv n = true /\ match_text n s = Some true) children ->
  m_match (pick pv s children a) <> None /\ m_complete (pick pv s children a) = true.
Proof.
  induction children as [|child children IH]; intros a H; cbn [pick foldl].
  - destruct H as [H|H]; [done | by apply Exists_nil in H].
  - apply (IH (if NODE_USABLE pv child then better a child (match_text child s) else a)).
    rewrite Exists_cons in H. unfold better.
    destruct H as [[H1 H2]|[[Hu Ht]|H]]; [left | left | by right].
    + destruct (NODE_USABLE pv child); [|done]. destruct (match_text child s) as [c|]; [|done].
      destruct (m_match a); [|done]. by rewrite H2.
    + rewrite Hu, Ht. destruct (m_match a); [|done]. by destruct (m_complete a).
Qed.

(** A node that a word matches completely makes the selection complete. *)
Lemma best_complete pv s n m :
  m ∈ n_children n -> NODE_USABLE pv m = true -> match_text m s = Some true ->
  exists m', best pv s n = Some (m', true).
Proof.
  intros Hin Hu Ht. unfold best.
  destruct (pick_complete pv s (n_children n) (MatchAcc None false 0)) as [H1 H2].
  { right. apply Exists_exists. by exists m. }
  destruct (m_match _) as [m'|]; [|done]. exists m'. by rewrite H2, orb_true_r.
Qed.

(** The word the machine is in. *)
Definition in_word (a : machine) (w : list Z) : Prop :=
  m_bad a = O /\ match m_open a with Some (_, w') => w' = w /\ w <> [] | None => w = [] end.

(** A node that matches a word and all that goes before it lets the machine through. *)
Lemma feed_matching pv a w s m :
  in_word a w -> m ∈ n_children (m_cur a) -> NODE_USABLE pv m = true ->
  Forall (fun c => c <> 32) s -> Zlen (w ++ s) <= CPARSER_MAX_TOKEN_SIZE ->
  (forall u v, s = u ++ v -> w ++ u <> [] -> match_text m (w ++ u) <> None) ->
  let a' := foldl (feed pv) a s in
  in_word a' (w ++ s) /\ m_cur a' = m_cur a /\ m_closed a' = m_closed a.
Proof.
  intros Hw Hin Hu. induction s as [|c s IH] using rev_ind; intros Hs Hlen Hm; [by rewrite app_nil_r|].
  cbv zeta. rewrite foldl_app. cbn [foldl]. apply Forall_app in Hs as [Hs Hc]. apply Forall_cons in Hc as [Hc _].
  rewrite !app_assoc in *. rewrite Zlen_app in Hlen. change (Zlen [c]) with 1 in Hlen.
  destruct IH as ([Hb Ho] & Hcur & Hcl); [done | lia | |].
  { intros u v -> Hne. apply (Hm u (v ++ [c])); [by rewrite app_assoc | done]. }
  set (a' := foldl (feed pv) a s) in *.
  assert (Hbest : best pv ((w ++ s) ++ [c]) (m_cur a') <> None).
  { rewrite Hcur. apply best_some, Exists_exists. exists m. split; [done|]. split; [done|].
    rewrite <- app_assoc. apply (Hm (s ++ [c]) []); [by rewrite app_nil_r | by destruct w, s]. }
  unfold feed, in_word. rewrite Hb, (proj2 (Z.eqb_neq _ _) Hc). destruct (m_open a') as [[b w']|].
  - destruct Ho as [-> Hne]. rewrite (proj2 (Z.ltb_lt _ _)) by lia.
    destruct (best pv ((w ++ s) ++ [c]) (m_cur a')); [|done]. cbn. split; [|done]. split; [done|].
    split; [done | by destruct w, s].
  - rewrite Ho in Hbest |- *. cbn [app] in Hbest |- *. destruct (best pv [c] (m_cur a')); [|done]. done.
Qed.

(** The blank that closes it. *)
Lemma feed_blank pv a w m :
  in_word a w -> w <> [] -> best pv w (m_cur a) = Some (m, true) ->
  idle (feed pv a 32) /\ m_cur (feed pv a 32) = m /\ length (m_closed (feed pv a 32)) = S (length (m_closed a)).
Proof.
  intros [Hb Ho] Hne Hbest. unfold feed. rewrite Hb. destruct (m_open a) as [[b w']|]; [|done].
  destruct Ho as [-> _]. cbn [Z.eqb Pos.eqb]. by rewrite Hbest.
Qed.

Lemma prefixb_app u v : prefixb u (u ++ v) = true.
Proof. induction u as [|x u IH]; [done|]. cbn. by rewrite Z.eqb_refl. Qed.

Lemma prefixb_split w : forall kw, prefixb w kw = true -> kw = w ++ drop (length w) kw.
Proof.
  induction w as [|x w IH]; intros kw; [done|]. destruct kw as [|y kw]; [done|]. cbn.
  intros [Hx H]%andb_prop. zify_bool. subst y. f_equal. by apply IH.
Qed.

(** A keyword is matched from its first character to its last. *)
Lemma keyword_prefixes c kw u v :
  n_type c = CPARSER_NODE_KEYWORD -> n_param c = PStr kw -> kw = u ++ v -> match_text c u <> None.
Proof. intros Ht Hp ->. unfold match_text. by rewrite Ht, Hp, prefixb_app. Qed.

Lemma keyword_whole c kw :
  n_type c = CPARSER_NODE_KEYWORD -> n_param c = PStr kw -> match_text c kw = Some true.
Proof.
  intros Ht Hp. unfold match_text. rewrite Ht, Hp. pose proof (prefixb_app kw []) as H.
  rewrite app_nil_r in H. by rewrite H, Z.eqb_refl.
Qed.

Lemma only_keyword_inv pv n kw :
  only_keyword pv n = Some kw ->
  exists c, n_children n = [c] /\ n_type c = CPARSER_NODE_KEYWORD /\ NODE_USABLE pv c = true /\ n_param c = PStr kw.
Proof.
  unfold only_keyword. destruct (n_children n) as [|c [|? ?]]; [done| |done].
  destruct (is_type c _ && _) eqn:E; [|done]. apply andb_prop in E as [Et Eu].
  unfold is_type in Et. apply bool_decide_eq_true, list_elem_of_singleton in Et.
  destruct (n_param c) eqn:Ep; try done. intros [= <-]. by exists c.
Qed.

Lemma proper_child h n c : proper h n -> c ∈ n_children n ->
  word_node c /\ (n_type c <> CPARSER_NODE_END -> proper (pred h) c).
Proof. destruct h as [|h]; [done|]. intros [_ H] Hin. rewrite Forall_forall in H. by apply H. Qed.

(** One keyword of the descent. *)
Lemma descent_step pv a kw h :
  idle a -> proper h (m_cur a) -> only_keyword pv (m_cur a) = Some kw ->
  exists c, n_children (m_cur a) = [c] /\ proper (pred h) c /\
    let a' := foldl (feed pv) a (kw ++ [32]) in
    idle a' /\ m_cur a' = c /\ length (m_closed a') = S (length (m_closed a)).
Proof.
  intros [Ho Hb] Hp Hk. destruct (only_keyword_inv _ _ _ Hk) as (c & Ec & Et & Eu & Ep).
  destruct (proper_child h (m_cur a) c Hp) as [Hw Hpc]; [rewrite Ec; by left|].
  exists c. split; [done|]. split; [apply Hpc; congruence|].
  unfold word_node in Hw. rewrite Et, Ep in Hw. destruct Hw as (Hne & Hsp & Hlen).
  destruct (feed_matching pv a [] kw c) as (Hw' & Hcur & Hcl); try done.
  { split; [done | by rewrite Ho]. } { rewrite Ec. by left. } { cbn [app]. lia. }
  { intros u v E _. cbn [app]. by apply (keyword_prefixes c kw u v). }
  cbv zeta. rewrite foldl_app. cbn [foldl app] in *. set (a' := foldl (feed pv) a kw) in *.
  destruct (best_complete pv kw (m_cur a') c) as (m' & Em); [rewrite Hcur, Ec; by left | done | by apply keyword_whole|].
  destruct (feed_blank pv a' kw m' Hw' Hne Em) as (H1 & H2 & H3). rewrite Hcl in H3.
  split; [done|]. split; [|done]. rewrite H2. apply best_child in Em as [Hin _].
  rewrite Hcur, Ec in Hin. by apply list_elem_of_singleton in Hin.
Qed.

(** The descent ends at a node where Enter completes nothing. *)
Lemma descent_ends pv h : forall H a,
  (h <= H)%nat -> idle a -> proper h (m_cur a) ->
  let a' := foldl (feed pv) a (descent H pv a) in
  idle a' /\ no_descent pv (m_cur a') /\ (exists h', proper h' (m_cur a')) /\
  (length (m_closed a) <= length (m_closed a'))%nat.
Proof.
  induction h as [|h IH]; intros H a Hle Hi Hp; [done|]. destruct H as [|H]; [lia|]. cbn [descent].
  destruct (only_keyword pv (m_cur a)) as [kw|] eqn:Ek.
  - destruct (descent_step pv a kw (S h) Hi Hp Ek) as (c & _ & Hpc & Hi' & Hc' & Hl).
    cbv zeta. rewrite (app_assoc kw [32]), foldl_app. set (a1 := foldl (feed pv) a (kw ++ [32])) in *.
    destruct (IH H a1) as (H1 & H2 & H3 & H4); [lia | done | by rewrite Hc'|].
    split; [done|]. split; [done|]. split; [done|]. lia.
  - cbn [foldl]. split; [done|]. split; [|split; [by exists (S h) | lia]].
    unfold no_descent. unfold only_keyword in Ek. destruct Hp as [Hne Hf].
    destruct (n_children (m_cur a)) as [|c [|? ?]]; [done| |done].
    destruct (is_type c _ && _) eqn:E; [|done]. apply Forall_cons in Hf as [[Hw _] _].
    apply andb_prop in E as [Et _]. unfold is_type in Et. apply bool_decide_eq_true, list_elem_of_singleton in Et.
    unfold word_node in Hw. rewrite Et in Hw. by destruct (n_param c).
Qed.

(** A unique keyword of a list stays the unique one as it is typed out. *)
Lemma list_unique ks w kw u v :
  filter (fun kw => prefixb w kw) ks = [kw] -> kw = w ++ u ++ v ->
  filter (fun kw => prefixb (w ++ u) kw) ks = [kw].
Proof.
  intros Hf Hk.
  rewrite <- (list_filter_filter_l (fun kw => prefixb (w ++ u) kw) (fun kw => prefixb w kw)), Hf.
  - rewrite filter_cons_True by (apply Is_true_true; rewrite Hk, app_assoc; apply prefixb_app). done.
  - intros k. rewrite !Is_true_true. intros H. apply prefixb_split in H. rewrite H, <- app_assoc. apply prefixb_app.
Qed.

(** The node a word selects matches the word on the way to its completion, and completely at the end. *)
Lemma completion_matches glob m w b :
  blankless glob -> word_node m -> match_text m w = Some b -> b = true \/ n_type m = CPARSER_NODE_KEYWORD ->
  let cs := completion glob m w in
  Forall (fun c => c <> 32) cs /\ (forall u v, cs = u ++ v -> match_text m (w ++ u) <> None) /\
  match_text m (w ++ cs) = Some true.
Proof.
  intros Hg Hw Hm Hb. unfold completion.
  assert (Hkw : forall kw, word_ok kw -> prefixb w kw = true ->
            Forall (fun c => c <> 32) (drop (length w) kw) /\ kw = w ++ drop (length w) kw).
  { intros kw (_ & Hs & _) Hp. split; [by apply Forall_drop | by apply prefixb_split]. }
  assert (Hnone : b = true -> Forall (fun c : Z => c <> 32) [] /\
            (forall u v, [] = u ++ v -> match_text m (w ++ u) <> None) /\ match_text m (w ++ []) = Some true).
  { intros ->. rewrite app_nil_r. split; [done|]. split; [|done]. intros u v E. symmetry in E.
    apply app_eq_nil in E as [-> _]. by rewrite app_nil_r, Hm. }
  destruct (n_type m) eqn:Et; try (apply Hnone; by destruct Hb).
  - unfold word_node in Hw. rewrite Et in Hw. destruct (n_param m) as [kw| |] eqn:Ep; try done.
    assert (Hp : prefixb w kw = true) by (unfold match_text in Hm; rewrite Et, Ep in Hm; by destruct (prefixb w kw)).
    destruct (Hkw kw Hw Hp) as [Hs Hk]. split; [done|]. split; [|rewrite <- Hk; by apply keyword_whole].
    intros u v E. apply (keyword_prefixes m kw (w ++ u) v Et Ep). by rewrite Hk, E, app_assoc.
  - assert (Hf : forall s, match_text m s = Some true) by (intros s; unfold match_text; by rewrite Et).
    split; [|split; [intros u v _; by rewrite Hf | apply Hf]].
    destruct (glob w) as [[|path [|? ?]]|] eqn:Eg; try done; by apply Forall_drop, (Hg w).
  - unfold word_node in Hw. rewrite Et in Hw.
    destruct (n_param m) as [|ks|] eqn:Ep; try (apply Hnone; by destruct Hb).
    assert (Hmt : forall s, match_text m s = list_text ks s) by (intros s; unfold match_text; by rewrite Et, Ep).
    destruct Hb as [->|Hb]; [|done]. rewrite Hmt in Hm. unfold list_text in Hm.
    destruct (filter (fun kw => prefixb w kw) ks) as [|kw [|? ?]] eqn:Ef; try done.
    assert (Hin : kw ∈ filter (fun kw => prefixb w kw) ks) by (rewrite Ef; by left).
    apply list_elem_of_filter in Hin as [Hp Hin]. apply Is_true_true in Hp. rewrite Forall_forall in Hw.
    destruct (Hkw kw (Hw kw Hin) Hp) as [Hs Hk]. split; [done|].
    assert (Hu : forall u v, drop (length w) kw = u ++ v -> filter (fun kw => prefixb (w ++ u) kw) ks = [kw]).
    { intros u v E. apply (list_unique ks w kw u v Ef). by rewrite Hk, E at 1. }
    split; [intros u v E; rewrite Hmt; unfold list_text; by rewrite (Hu u v E)|].
    rewrite Hmt. unfold list_text. by rewrite (Hu _ [] ltac:(by rewrite app_nil_r)).
Qed.

(** The open word is typed out and closed. *)
Lemma closing_ends glob pv a h :
  blankless glob -> m_bad a = O -> placed a -> selected pv a -> proper h (m_cur a) ->
  (forall b w m, m_open a = Some (b, w) -> best pv w (m_cur a) = Some (m, true) ->
     Zlen (w ++ completion glob m w) <= CPARSER_MAX_TOKEN_SIZE) ->
  let a' := foldl (feed pv) a (closing glob pv a) in
  idle a' /\ exists h', (h' <= h)%nat /\ proper h' (m_cur a').
Proof.
  intros Hg Hb [Hpl _] Hsel Hp Hlen. unfold closing. unfold selected in Hsel.
  destruct (m_open a) as [[b w]|] eqn:Eo; [|cbn [foldl]; split; [done | by exists h]].
  destruct (best pv w (m_cur a)) as [[m [|]]|] eqn:Em; try done.
  destruct (best_selects _ _ _ _ _ Em) as (Hin & Hu & bb & Hm & Hbb).
  destruct (completion_matches glob m w bb Hg (proj1 (proper_child _ _ _ Hp Hin)) Hm (Hbb eq_refl)) as (Hs & Hpre & Hall).
  destruct (feed_matching pv a w (completion glob m w) m) as (Hw & Hcur & _); try done.
  { split; [done|]. rewrite Eo. split; [done | apply Hpl]. } { by apply (Hlen b). } { intros u v E _. by apply (Hpre u v). }
  cbv zeta. rewrite foldl_app. cbn [foldl]. set (a1 := foldl (feed pv) a (completion glob m w)) in *.
  destruct (best_complete pv (w ++ completion glob m w) (m_cur a1) m) as (m' & Em'); [by rewrite Hcur | done | done|].
  destruct (feed_blank pv a1 _ m' Hw) as (Hi & Hc & _); [destruct Hpl as [Hne _]; by destruct w | done|].
  split; [done|]. exists (pred h). split; [lia|]. rewrite Hc. apply best_child in Em' as [Hin' He'].
  rewrite Hcur in Hin'. by apply (proper_child h (m_cur a)).
Qed.

(** Everything Enter types is accepted, and it stops at a node where nothing is left to type. *)
Lemma enter_text_ends glob pv a h :
  blankless glob -> m_bad a = O -> placed a -> selected pv a -> proper h (m_cur a) -> (h <= max_depth)%nat ->
  (forall b w m, m_open a = Some (b, w) -> best pv w (m_cur a) = Some (m, true) ->
     Zlen (w ++ completion glob m w) <= CPARSER_MAX_TOKEN_SIZE) ->
  let a' := foldl (feed pv) a (enter_text glob pv a) in
  idle a' /\ no_descent pv (m_cur a') /\ exists h', proper h' (m_cur a').
Proof.
  intros Hg Hb Hpl Hsel Hp Hh Hlen. destruct (closing_ends glob pv a h Hg Hb Hpl Hsel Hp Hlen) as (Hi & h' & Hh' & Hp').
  unfold enter_text. cbv zeta. rewrite foldl_app.
  destruct (descent_ends pv h' max_depth _ ltac:(lia) Hi Hp') as (H1 & H2 & H3 & _). done.
Qed.

Lemma run_proper pv r t h : proper h r ->
  exists h', proper h' (m_cur (run pv r t)) /\ (h' + length (m_closed (run pv r t)) = h)%nat.
Proof.
  intros Hr. induction t as [|c t IH] using rev_ind; [exists h; split; [done | cbn; lia]|].
  rewrite run_snoc. destruct IH as (h' & Ht & Hl). revert Ht Hl.
  destruct (run pv r t) as [cl cur o g [|bad]]; unfold feed, fail;
    cbn [m_closed m_cur m_open m_good m_bad]; intros Ht Hl; [|by exists h'].
  destruct o as [[b w]|], (c =? 32).
  - destruct (best pv w cur) as [[m [|]]|] eqn:Eb; cbn [m_closed m_cur]; [|by exists h'..].
    apply best_child in Eb as [Hin He]. exists (pred h'). split; [by apply (proper_child h' cur)|].
    cbn [length]. destruct h'; [done | cbn; lia].
  - destruct (_ <? _); [|by exists h']. destruct (best _ _ _); by exists h'.
  - by exists h'.
  - destruct (best _ _ _); by exists h'.
Qed.

Lemma last_run_app t s : Forall (fun c => c <> 32) s -> last_run (t ++ s) = last_run t + Zlen s.
Proof.
  induction s as [|c s IH] using rev_ind; [rewrite app_nil_r; change (Zlen []) with 0; lia|].
  intros [Hs Hc]%Forall_app. apply Forall_cons in Hc as [Hc _]. specialize (IH Hs).
  rewrite app_assoc. unfold last_run at 1. rewrite foldl_app. cbn [foldl]. fold (last_run (t ++ s)).
  rewrite (proj2 (Z.eqb_neq _ _) Hc), IH, Zlen_app. change (Zlen [c]) with 1. lia.
Qed.

(** ** The parser types it *)

(** There is room for [s] in the line, at the cursor between [lt] and [rt], and in the machine, after [t]. *)
Definition room (cf : cparser_cfg_t) (lt rt t s : list Z) : Prop :=
  Forall (plain cf) s /\ text_ok cf (t ++ s) /\ forall u v, s = u ++ v -> text_ok cf (lt ++ u ++ rt).

Lemma enter_room_app cf lt rt t s1 s2 :
  room cf lt rt t (s1 ++ s2) -> room cf lt rt t s1 /\ room cf (lt ++ s1) rt (t ++ s1) s2.
Proof.
  intros (Hp & Ht & Hr). apply Forall_app in Hp as [Hp1 Hp2]. rewrite app_assoc in Ht. split.
  - split; [done|]. split; [by apply text_ok_prefix in Ht|]. intros u v ->. apply (Hr u (v ++ s2)). by rewrite app_assoc.
  - split; [done|]. split; [done|]. intros u v ->. rewrite <- app_assoc, (app_assoc s1).
    apply (Hr (s1 ++ u) v). by rewrite app_assoc.
Qed.

(** A short line has room. *)
Lemma room_short cf lt rt s :
  Forall (plain cf) (lt ++ rt) -> Forall (plain cf) s -> Zlen (lt ++ rt) + Zlen s <= CPARSER_MAX_TOKEN_SIZE - 1 ->
  room cf lt rt (lt ++ rt) s.
Proof.
  assert (Hpl : forall l, Forall (plain cf) l -> Forall (fun x => char_ok x /\ is_erase cf x = false) l).
  { intros l H. eapply Forall_impl; [exact H|]. by intros x (? & ? & _). }
  intros Hp Hs Hl. split; [done|]. split; [apply text_ok_short; [by apply Hpl, Forall_app_2 | by rewrite Zlen_app]|].
  intros u v ->. apply Forall_app in Hs as [Hu _]. apply Forall_app in Hp as [H1 H2].
  apply text_ok_short; [by apply Hpl, Forall_app_2; [|apply Forall_app_2]|].
  rewrite !Zlen_app in *. pose proof (Zlen_nonneg v). lia.
Qed.

Lemma parser_kept_trans p1 p2 p3 : kept p1 p2 -> kept p2 p3 -> kept p1 p3.
Proof. intros (? & ? & ? & ?) (? & ? & ? & ?). repeat split; congruence. Qed.

(** The matches of a list: the comparison goes the other way round here. *)
Lemma strncmp_kw s : forall kw rest,
  Forall char_ok s -> Forall char_ok kw ->
  exists r, strncmp (length s) (cstr kw) (s ++ rest) = Ok r /\ (r =? 0) = prefixb s kw.
Proof.
  assert (Hu : forall x y, -128 <= x < 128 -> -128 <= y < 128 -> x <> y -> u8 x - u8 y <> 0).
  { intros x y Hx Hy Hne. unfold u8. Z.to_euclidean_division_equations. lia. }
  induction s as [|x s IH]; intros kw rest Hs Hk; [by exists 0|].
  apply Forall_cons in Hs as [[Hx Hx0] Hs]. unfold cstr. destruct kw as [|y kw]; cbn [length app strncmp prefixb].
  - rewrite (proj2 (Z.eqb_neq 0 x)) by done. cbn [negb]. eexists. split; [done|]. apply Z.eqb_neq. apply Hu; lia.
  - apply Forall_cons in Hk as [[Hy Hy0] Hk]. rewrite (Z.eqb_sym x y). destruct (y =? x) eqn:E; cbn [negb andb].
    + rewrite (proj2 (Z.eqb_neq _ _) Hy0). apply (IH kw rest Hs Hk).
    + eexists. split; [done|]. apply Z.eqb_neq. zify_bool. by apply Hu.
Qed.

Lemma list_common_unique w rest ks :
  Forall char_ok w -> Forall (Forall char_ok) ks ->
  (filter (fun kw => prefixb w kw) ks = [] -> forall acc, list_common (w ++ rest) (Zlen w) ks acc = Ok acc) /\
  (forall kw, filter (fun kw => prefixb w kw) ks = [kw] ->
     list_common (w ++ rest) (Zlen w) ks None = Ok (Some (kw, Zlen kw))).
Proof.
  intros Hw Hks. induction Hks as [|k ks Hk Hks [IH1 IH2]]; [by split|].
  destruct (strncmp_kw w k rest Hw Hk) as (r & Er & Hr). cbn [list_common].
  replace (Z.to_nat (Zlen w)) with (length w) by (unfold Zlen; lia). rewrite Er. cbn [mbind outcome_bind].
  rewrite Hr, filter_cons. destruct (prefixb w k) eqn:Ep; cbn [negb mbind outcome_bind].
  - rewrite decide_True by done. split; [done|]. intros kw [= -> E]. by apply IH1.
  - rewrite decide_False by (by intros []). split; [intros E acc; by apply IH1 | intros kw E; by apply IH2].
Qed.

Lemma pad_string w : Zlen w <= CPARSER_MAX_TOKEN_SIZE - 1 -> exists rest, pad w = w ++ 0 :: rest.
Proof.
  intros Hl. unfold pad.
  destruct (Z.to_nat (CPARSER_MAX_TOKEN_SIZE - Zlen w)) as [|k] eqn:E; [pose proof (Zlen_nonneg w); lia|].
  by exists (replicate k 0).
Qed.

Section Enter.
Variable glue : nat -> cparser -> outcome res.
Variable input_cb : nat -> cparser -> list Z -> Z -> outcome res.
Variable glob : list Z -> option (list (list Z)).

Abbreviation key := (cparser_input glue input_cb glob).
Abbreviation typing fuel := (fun p ch => key (S fuel) p ch CPARSER_CHAR_REGULAR).

Lemma input_all_app input s1 : forall p s2,
  input_all input p (s1 ++ s2) = p ← input_all input p s1; input_all input p s2.
Proof.
  induction s1 as [|c s1 IH]; intros p s2; [done|]. cbn [app input_all].
  destruct (input p c) as [[p1 rc]|]; [|done]. cbn [mbind outcome_bind].
  destruct (assert_ _); [|done]. cbn [mbind outcome_bind]. apply IH.
Qed.

Lemma input_all_types fuel r rt s : forall p lt t,
  entering p r lt rt t -> room (cfg p) lt rt t s ->
  exists p', input_all (typing fuel) p s = Ok p' /\ entering p' r (lt ++ s) rt (t ++ s) /\ kept p p'.
Proof.
  induction s as [|c s IH]; intros p lt t He Hr.
  - exists p. by rewrite !app_nil_r.
  - change (c :: s) with ([c] ++ s) in Hr. apply enter_room_app in Hr as [(Hp & Ht & Hl) Hr].
    apply Forall_cons in Hp as [Hp _].
    destruct (type_key glue input_cb glob fuel p r lt rt t c He Hp) as (p1 & E1 & He1 & Hk1);
      [by apply (Hl [c] []) | done|].
    destruct (IH p1 (lt ++ [c]) (t ++ [c]) He1) as (p' & E & He' & Hk); [by rewrite (proj1 Hk1)|].
    exists p'. rewrite <- !app_assoc in He'. split; [|split; [exact He' | by eapply parser_kept_trans]].
    cbn [input_all]. rewrite E1. cbn [mbind outcome_bind]. rewrite bool_decide_eq_true_2 by done. exact E.
Qed.

(** The completion functions type the completion. *)
Lemma complete_token_text input p m w bb b nd :
  node_ok m -> word_node m -> Forall char_ok w -> w <> [] -> Zlen w <= CPARSER_MAX_TOKEN_SIZE - 1 ->
  match_text m w = Some bb -> bb = true \/ n_type m = CPARSER_NODE_KEYWORD ->
  complete_token glob input p (Some m) (open_token (Some (b, w)) nd) =
    input_all input p (completion glob m w ++ [32]).
Proof.
  intros Hn Hwn Hw Hne Hl Hm Hb. rewrite input_all_app. unfold complete_token, completion.
  cbn [open_token tbuf token_len].
  assert (Hz : (Zlen w =? 0) = false) by (apply Z.eqb_neq; destruct w; [done|]; zl).
  assert (Hthen : forall s (rc : cparser_result_t), (q ← ('(q, _) ← (q ← input_all input p s; Ok (q, rc)); Ok q); input_all input q [32]) =
                               (q ← input_all input p s; input_all input q [32])).
  { intros s rc. by destruct (input_all input p s). }
  destruct (n_type m) eqn:Et; cbn [cparser_complete_fn_tbl]; try done.
  - unfold node_ok in Hn. rewrite Et in Hn. destruct (n_param m) as [kw| |] eqn:Ep; try done.
    assert (Hp : prefixb w kw = true) by (unfold match_text in Hm; rewrite Et, Ep in Hm; by destruct (prefixb w kw)).
    apply prefixb_length in Hp.
    unfold cparser_complete_keyword, is_type. rewrite bool_decide_eq_true_2 by (rewrite Et; by left).
    cbn [assert_ mbind outcome_bind]. unfold param_str. rewrite Ep. cbn [mbind outcome_bind].
    unfold rest_of. rewrite bool_decide_eq_true_2 by (unfold Zlen; lia). cbn [mbind outcome_bind].
    replace (Z.to_nat (Zlen w)) with (length w) by (unfold Zlen; lia). apply Hthen.
  - unfold cparser_complete_file, is_type. rewrite bool_decide_eq_true_2 by (rewrite Et; by left). rewrite Hz.
    cbn [andb negb assert_ mbind outcome_bind].
    destruct (pad_string w Hl) as (rest & ->).
    rewrite (c_string_spec w [] rest) by
      (first [eapply Forall_impl; [exact Hw|]; by intros c [_ ?] | rewrite length_app; cbn; lia]).
    cbn [mbind outcome_bind]. replace (Z.to_nat (Zlen w)) with (length w) by (unfold Zlen; lia).
    by destruct (glob w) as [[|path [|? ?]]|].
  - unfold word_node, node_ok in *. rewrite Et in Hn, Hwn. destruct (n_param m) as [|ks|] eqn:Ep; try done.
    destruct Hn as [_ Hks]. destruct Hb as [->|Hb]; [|done].
    unfold match_text in Hm. rewrite Et, Ep in Hm. unfold list_text in Hm.
    unfold cparser_complete_list, is_type. rewrite bool_decide_eq_true_2 by (rewrite Et; by left). rewrite Hz.
    cbn [andb negb assert_ mbind outcome_bind]. unfold param_list. rewrite Ep. cbn [mbind outcome_bind].
    destruct (filter (fun kw => prefixb w kw) ks) as [|kw [|? ?]] eqn:Ef; try done.
    unfold pad. rewrite (proj2 (list_common_unique w _ ks Hw Hks) kw Ef). cbn [mbind outcome_bind].
    assert (Hin : kw ∈ filter (fun kw => prefixb w kw) ks) by (rewrite Ef; by left).
    apply list_elem_of_filter in Hin as [Hp _]. apply Is_true_true, prefixb_length in Hp.
    rewrite (proj2 (Z.ltb_lt 0 _)) by (unfold Zlen; destruct w; [done|]; cbn in Hp; lia).
    replace (Z.to_nat (Zlen kw - Zlen w)) with (length (drop (length w) kw)) by (rewrite length_drop; unfold Zlen; lia).
    replace (Z.to_nat (Zlen w)) with (length w) by (unfold Zlen; lia). rewrite firstn_all. apply Hthen.
Qed.

Lemma tracks_idle p r t :
  tracks p r t -> let a := run (priv p) r t in
  cur_children p = Ok (n_children (m_cur a)) /\
  exists nd, CUR_TOKEN (fsm p) = Ok (open_token (m_open a) nd) /\ token_tos (fsm p) = Zlen (m_closed a) /\
    state (fsm p) = machine_state a /\ cur_node (fsm p) = Some (m_cur a).
Proof.
  intros (nd & rest & E & _). unfold cur_children, CUR_TOKEN. rewrite E. fold (priv p).
  cbn [layout cur_node tokens token_tos state]. rewrite top_at. split; [done|]. by exists nd.
Qed.

Lemma run_text_app pv r t s : run pv r (t ++ s) = foldl (feed pv) (run pv r t) s.
Proof. unfold run. by rewrite foldl_app. Qed.

Lemma descend_types fuel r rt h : forall H F p lt t,
  (h <= H)%nat -> (h <= F)%nat ->
  entering p r lt rt t -> let a := run (priv p) r t in
  idle a -> proper h (m_cur a) -> room (cfg p) lt rt t (descent H (priv p) a) ->
  exists p', descend (typing fuel) F p = Ok p' /\
    entering p' r (lt ++ descent H (priv p) a) rt (t ++ descent H (priv p) a) /\ kept p p'.
Proof.
  induction h as [|h IH]; intros H F p lt t HH HF He a Hi Hp Hr; [done|].
  destruct H as [|H]; [lia|]. destruct F as [|F]; [lia|].
  destruct (tracks_idle p r t (en_tracks _ _ _ _ _ He)) as (Ec & nd & Et & _). fold a in Ec, Et.
  remember (descent (S H) (priv p) a) as ds eqn:Eds. cbn [descent] in Eds.
  destruct (only_keyword (priv p) (m_cur a)) as [kw|] eqn:Ek.
  - destruct (descent_step (priv p) a kw (S h) Hi Hp Ek) as (c & _ & Hpc & Hi' & Hc' & _).
    rewrite (app_assoc kw [32]) in Eds. rewrite Eds in Hr. apply enter_room_app in Hr as [Hr1 Hr2].
    destruct (input_all_types fuel r rt (kw ++ [32]) p lt t He Hr1) as (p1 & E1 & He1 & Hk1).
    pose proof Hk1 as (Hcfg & Hpv & _).
    destruct (IH H F p1 (lt ++ kw ++ [32]) (t ++ kw ++ [32])) as (p' & E & He' & Hk');
      [lia | lia | done | by rewrite Hpv, run_text_app | rewrite Hpv, run_text_app; fold a; by rewrite Hc' | by rewrite Hcfg, Hpv, run_text_app|].
    exists p'. rewrite Hpv, run_text_app in He'. fold a in He'. rewrite <- !(app_assoc _ (kw ++ [32])), <- Eds in He'.
    split; [|split; [exact He' | by eapply parser_kept_trans]].
    cbn [descend]. rewrite Ec. cbn [mbind outcome_bind].
    destruct (only_keyword_inv _ _ _ Ek) as (c' & -> & Ety & Eu & Ep).
    assert (Eis : is_type c' [CPARSER_NODE_KEYWORD] = true) by (apply bool_decide_eq_true_2; rewrite Ety; by left).
    rewrite Eis, Eu. cbn [andb]. rewrite Et. cbn [mbind outcome_bind].
    unfold cparser_complete_keyword. rewrite Eis. cbn [assert_ mbind outcome_bind]. unfold param_str. rewrite Ep.
    cbn [mbind outcome_bind]. rewrite (proj1 Hi). cbn [open_token tbuf token_len]. unfold rest_of.
    rewrite bool_decide_eq_true_2 by (pose proof (Zlen_nonneg kw); lia). cbn [mbind outcome_bind].
    change (drop (Z.to_nat 0) kw) with kw. rewrite input_all_app in E1.
    destruct (input_all (typing fuel) p kw) as [p0|]; [|done]. cbn [mbind outcome_bind] in E1 |- *.
    rewrite E1. exact E.
  - subst ds. exists p. rewrite !app_nil_r. split; [|done]. apply (descend_stays _ F p (m_cur a)).
    + destruct (tracks_idle p r t (en_tracks _ _ _ _ _ He)) as (_ & ? & _ & _ & _ & ->). done.
    + pose proof (descent_ends (priv p) (S h) (S H) a HH Hi Hp) as (_ & Hn & _).
      cbn [descent] in Hn. by rewrite Ek in Hn.
Qed.

(** The last word has room to be typed out. *)
Lemma closing_room cf pv r t cs b w :
  text_ok cf (t ++ cs) -> let a := run pv r t in
  m_bad a = O -> m_open a = Some (b, w) -> Forall (fun c => c <> 32) cs -> Zlen (w ++ cs) <= CPARSER_MAX_TOKEN_SIZE - 1.
Proof.
  intros Ht a Hb Ho Hs. pose proof (text_ok_chars _ _ (text_ok_prefix _ _ _ Ht)) as Hc.
  destruct (run_word pv r t Hc) as [Hw|Hw]; [|done]. fold a in Hw. rewrite Ho in Hw. destruct Hw as [_ Hw].
  destruct Ht as (_ & _ & Hrun). specialize (Hrun (t ++ cs) [] (eq_sym (app_nil_r _))).
  rewrite last_run_app in Hrun by done. rewrite Zlen_app. lia.
Qed.

(** What a selected last word is: the node it selects, and the length of the word typed out. *)
Lemma selected_word p r lt rt t b w h :
  entering p r lt rt t -> let a := run (priv p) r t in
  m_bad a = O -> m_open a = Some (b, w) -> selected (priv p) a -> proper h (m_cur a) -> blankless glob ->
  room (cfg p) lt rt t (closing glob (priv p) a) ->
  exists m bb, best (priv p) w (m_cur a) = Some (m, true) /\ closing glob (priv p) a = completion glob m w ++ [32] /\
    node_ok m /\ word_node m /\ Forall char_ok w /\ w <> [] /\ Zlen (w ++ completion glob m w) <= CPARSER_MAX_TOKEN_SIZE - 1 /\
    match_text m w = Some bb /\ (bb = true \/ n_type m = CPARSER_NODE_KEYWORD).
Proof.
  intros He a Hb Ho Hsel Hp Hg Hr. unfold selected in Hsel. unfold closing in Hr |- *. rewrite Ho in Hsel, Hr |- *.
  destruct (best (priv p) w (m_cur a)) as [[m [|]]|] eqn:Em; try done.
  destruct (best_selects _ _ _ _ _ Em) as (Hin & _ & bb & Hm & Hbb). exists m, bb.
  destruct (proper_child _ _ _ Hp Hin) as [Hwn _].
  destruct (completion_matches glob m w bb Hg Hwn Hm (Hbb eq_refl)) as (Hs & _).
  apply enter_room_app in Hr as [(_ & Htext & _) _]. pose proof (text_ok_chars _ _ (text_ok_prefix _ _ _ Htext)) as Hc.
  destruct (run_word (priv p) r t Hc) as [Hw|Hw]; [|done]. fold a in Hw. rewrite Ho in Hw.
  destruct (run_placed (priv p) r t) as [Hpl _]. fold a in Hpl. rewrite Ho in Hpl.
  destruct (run_tree (priv p) r t max_depth (s_tree _ _ (en_settled _ _ _ _ _ He))) as (hh & Htree & _). fold a in Htree.
  apply tree_ok_children in Htree. rewrite Forall_forall in Htree.
  split; [done|]. split; [done|]. split; [by apply Htree|]. split; [done|]. split; [apply Hw|]. split; [apply Hpl|].
  split; [by apply (closing_room (cfg p) (priv p) r t _ b w Htext)|]. split; [done|]. by apply Hbb.
Qed.

(** The rest of [execute_node] once the descent has ended. *)
Definition execute_here (p : cparser) : outcome res :=
  children ← cur_children p;
  match find_end p children with
  | Some child =>
      match n_param child with
      | PGlue g =>
          let f := fsm p in
          let p := pc (set_fsm p (set_node f (Some child) (token_tos f))) LF in
          '(p, rc) ← glue g p;
          finish_cmd p rc
      | _ => Fault NullDeref
      end
  | None =>
      if token_tos (fsm p) =? 0 then give_up_cmd p CPARSER_OK true
      else p ← cparser_print_error p S_INCOMPLETE; give_up_cmd p CPARSER_ERR_INCOMP_CMD false
  end.

(** Executing a line types [enter_text] and goes on at the node it leads to. *)
Lemma execute_types fuel F p r lt rt t :
  (max_depth <= F)%nat -> entering p r lt rt t -> let a := run (priv p) r t in
  m_bad a = O -> selected (priv p) a -> proper max_depth r -> blankless glob ->
  let typed := enter_text glob (priv p) a in
  room (cfg p) lt rt t typed ->
  exists p1, entering p1 r (lt ++ typed) rt (t ++ typed) /\ kept p p1 /\
    cparser_execute_cmd glue glob (typing fuel) F p = execute_here p1.
Proof.
  intros HF He a Hb Hsel Hp Hg typed Hr. destruct (run_proper (priv p) r t max_depth Hp) as (h & Hph & Hh). fold a in Hph, Hh.
  unfold typed, enter_text in Hr |- *. cbv zeta in Hr |- *. set (cs := closing glob (priv p) a) in *.
  apply enter_room_app in Hr as [Hr1 Hr2].
  destruct (input_all_types fuel r rt cs p lt t He Hr1) as (p0 & E0 & He0 & Hk0). pose proof Hk0 as (Hcfg & Hpv & _).
  destruct (closing_ends glob (priv p) a h Hg Hb (run_placed _ _ _) Hsel Hph) as (Hi & h' & Hh' & Hp').
  { intros b w m Ho Em. destruct (selected_word p r lt rt t b w h He Hb Ho Hsel Hph Hg Hr1) as (m' & bb & Em' & _ & _ & _ & _ & _ & Hl & _).
    fold a in Em'. rewrite Em in Em'. injection Em' as <-. lia. }
  fold cs in Hi, Hp'.
  destruct (descend_types fuel r rt h' max_depth F p0 (lt ++ cs) (t ++ cs)) as (p1 & E1 & He1 & Hk1);
    [lia | lia | done | by rewrite Hpv, run_text_app | by rewrite Hpv, run_text_app | by rewrite Hcfg, Hpv, run_text_app|].
  rewrite Hpv, run_text_app in He1. fold a in He1. rewrite <- !(app_assoc _ cs) in He1.
  exists p1. split; [exact He1|]. split; [by eapply parser_kept_trans|].
  destruct (tracks_idle p r t (en_tracks _ _ _ _ _ He)) as (_ & nd & Et & _ & Est & Ecur). fold a in Et, Est, Ecur.
  unfold cparser_execute_cmd. rewrite Est. unfold machine_state. rewrite Hb.
  destruct (m_open a) as [[b w]|] eqn:Ho.
  - destruct (selected_word p r lt rt t b w h He Hb Ho Hsel Hph Hg Hr1)
      as (m & bb & Em & Ecs & Hn & Hwn & Hw & Hne & Hl & Hm & Hbb). fold a cs in Em, Ecs.
    rewrite Et. cbn [mbind outcome_bind open_token tbuf token_len]. rewrite Ecur.
    destruct (run_tree (priv p) r t max_depth (s_tree _ _ (en_settled _ _ _ _ _ He))) as (hh & Htree & _). fold a in Htree.
    destruct (cparser_match_best (priv p) w (replicate (Z.to_nat (CPARSER_MAX_TOKEN_SIZE - Zlen w)) 0) (m_cur a))
      as (mm & Emm & Hm0 & Hmm); [by eapply tree_ok_children | done | done|].
    fold (pad w) in Emm. rewrite Emm. cbn [mbind outcome_bind]. rewrite Em in Hmm. destruct Hmm as (Hc & Hmm & ->).
    zify_bool. rewrite (proj2 (Z.leb_le 1 _)) by lia. cbn [andb]. rewrite Hmm.
    change (Token b (Zlen w) (pad w) None nd) with (open_token (Some (b, w)) nd).
    rewrite (complete_token_text (typing fuel) p m w bb b nd Hn Hwn Hw Hne) by (done || (rewrite Zlen_app in Hl; pose proof (Zlen_nonneg (completion glob m w)); lia)).
    rewrite <- Ecs, E0. cbn [mbind outcome_bind]. unfold execute_node. by rewrite E1.
  - assert (Ecs : cs = []) by (unfold cs, closing; by rewrite Ho). rewrite Ecs in E0. injection E0 as <-.
    unfold execute_node. by rewrite E1.
Qed.

(** Then the command is executed, and the parser moves on to the next line. *)
Lemma enter_types fuel p r lt rt :
  session p r lt rt -> let a := run (priv p) r (lt ++ rt) in
  m_bad a = O -> selected (priv p) a -> proper max_depth r -> blankless glob ->
  let typed := enter_text glob (priv p) a in
  room (cfg p) lt rt (lt ++ rt) typed ->
  exists p1, entering p1 r (lt ++ typed) rt ((lt ++ rt) ++ typed) /\ kept p p1 /\
    key (S (S (max_depth + fuel))) p LF CPARSER_CHAR_REGULAR =
      '(p, rc) ← execute_here p1; '(p, _) ← on_line p cparser_line_advance; Ok (p, rc).
Proof.
  intros Hs a Hb Hsel Hp Hg typed Hr.
  destruct (enter_unfold glue input_cb glob (S (max_depth + fuel)) p r lt rt Hs) as (f1 & Hf & Hset & ->).
  destruct Hs as [_ Hline Hpl Htx _].
  destruct (execute_types (max_depth + fuel) (S (max_depth + fuel)) (set_fsm p f1) r lt rt (lt ++ rt)) as (p1 & He1 & Hk1 & E1);
    [lia | by split | done..|].
  exists p1. split; [exact He1|]. split; [exact Hk1|]. by rewrite E1.
Qed.

(** The END node's glue function runs, or the line is blank or incomplete. *)
Lemma execute_here_spec p r lt rt t :
  entering p r lt rt t -> let a := run (priv p) r t in proper max_depth r ->
  let tail := '(p, rc) ← execute_here p; '(p, _) ← on_line p cparser_line_advance; Ok (p, rc) in
  match find_end p (n_children (m_cur a)) with
  | None =>
      let rc := if bool_decide (m_closed a = []) then CPARSER_OK else CPARSER_ERR_INCOMP_CMD in
      exists p', tail = Ok (p', rc) /\ session p' r [] [] /\ cmd p' = Command (cur_line (ln p)) rc (Some (m_cur a))
  | Some child =>
      exists g, n_param child = PGlue g /\
        forall p3 rc r',
          glue g (pc (set_fsm p (set_node (fsm p) (Some child) (token_tos (fsm p)))) LF) = Ok (p3, rc) ->
          settled p3 r' ->
          exists p', tail = Ok (p', rc) /\ session p' r' [] [] /\
            cmd p' = Command (cur_line (ln p3)) rc (cur_node (fsm p3))
  end.
Proof.
  intros He a Hp tail. unfold tail, execute_here. clear tail.
  destruct (tracks_idle p r t (en_tracks _ _ _ _ _ He)) as (Ec & _ & _ & Etos & _ & Ecur). fold a in Ec, Etos, Ecur.
  rewrite Ec. cbn [mbind outcome_bind]. destruct (find_end p (n_children (m_cur a))) as [child|] eqn:Ef.
  - destruct (run_proper (priv p) r t max_depth Hp) as (h & Hh & _). fold a in Hh.
    unfold find_end in Ef. apply List.find_some in Ef as [Hin Ht]. apply list_elem_of_In in Hin.
    apply andb_prop in Ht as [Ht _]. apply bool_decide_eq_true, list_elem_of_singleton in Ht.
    destruct (proper_child _ _ _ Hh Hin) as [Hw _]. unfold word_node in Hw. rewrite Ht in Hw.
    destruct (n_param child) as [| |g]; try done. exists g. split; [done|]. intros p3 rc r' Eg Hset. cbv zeta. rewrite Eg.
    cbn [mbind outcome_bind]. destruct (finish_session p3 r' rc Hset) as (p1 & p' & E1 & E2 & Hs' & Ecmd).
    rewrite E1. cbn [mbind outcome_bind]. rewrite E2. by exists p'.
  - pose proof (en_settled _ _ _ _ _ He) as Hset. cbv zeta. rewrite Etos. case_bool_decide as Hcl.
    + rewrite Hcl. change (Zlen [] =? 0) with true. cbv iota.
      destruct (give_up_session _ r CPARSER_OK true Hset) as (p1 & p' & E1 & E2 & Hs' & Ecmd).
      rewrite E1. cbn [mbind outcome_bind]. rewrite E2. exists p'. by rewrite Ecmd, Ecur.
    + rewrite (proj2 (Z.eqb_neq _ 0)) by (destruct (m_closed a); [done|]; rewrite Zlen_cons; pose proof (Zlen_nonneg l); lia).
      destruct (print_error_spec _ _ S_INCOMPLETE Hset) as (s & ->). cbn [mbind outcome_bind].
      destruct (give_up_session _ r CPARSER_ERR_INCOMP_CMD false (settled_out _ _ s Hset)) as (p1 & p' & E1 & E2 & Hs' & Ecmd).
      rewrite E1. cbn [mbind outcome_bind]. rewrite E2. exists p'. rewrite Ecmd.
      cbn [ps set_ln fsm ln emit cur_line]. by rewrite Ecur.
Qed.
End Enter.

Lemma enter_settles glob pv cf r lt rt :
  proper max_depth r -> blankless glob -> let a := run pv r (lt ++ rt) in
  m_bad a = O -> selected pv a -> let typed := enter_text glob pv a in
  room cf lt rt (lt ++ rt) typed ->
  let a' := run pv r ((lt ++ rt) ++ typed) in idle a' /\ no_descent pv (m_cur a').
Proof.
  intros Hp Hg a Hb Hsel typed Hr. destruct (run_proper pv r (lt ++ rt) max_depth Hp) as (h & Hph & Hh). fold a in Hph, Hh.
  cbv zeta. rewrite run_text_app. fold a. unfold typed, enter_text in Hr. cbv zeta in Hr. apply enter_room_app in Hr as [Hr _].
  destruct (enter_text_ends glob pv a h Hg Hb (run_placed _ _ _) Hsel Hph) as (H1 & H2 & _); [lia| |done].
  intros b w m Ho Em. unfold closing in Hr. rewrite Ho, Em in Hr. apply enter_room_app in Hr as [(_ & Ht & _) _].
  destruct (best_selects _ _ _ _ _ Em) as (Hin & _ & bb & Hm & Hbb).
  destruct (completion_matches glob m w bb Hg (proj1 (proper_child _ _ _ Hph Hin)) Hm (Hbb eq_refl)) as (Hs & _).
  pose proof (closing_room cf pv r (lt ++ rt) _ b w Ht Hb Ho Hs). lia.
Qed.

(** C8: what Enter does, in all cases.  The part of the line after the cursor goes into the state
    machine first, so the whole line counts.  An erroneous line gives a parse error; a last word that
    is still open and selects no node completely gives an incomplete command.  Otherwise Enter types out
    the last word (an abbreviated keyword, the only keyword of a list that fits, the only file that fits)
    with a blank, and then every keyword that is the single thing below the node reached; the typing
    ends, at a node where nothing more is to be typed, and the machine has accepted all of it.  If the
    node has an END below it, its glue function is called at that END node with the words on
    the token stack; if not, the line is incomplete, or was blank.  Each time the result is recorded
    with the line and the node it belongs to, and the parser is ready on a fresh empty line.  Assumed: a
    tree of words in which every node but END has children ([proper], at most 32 levels); room in the
    line and the machine for what is typed ([room]); glob answers with a file name without blanks;
    the glue function returns a settled parser. *)
Theorem enter_outcomes glue input_cb glob fuel p r lt rt :
  session p r lt rt -> proper max_depth r -> blankless glob ->
  let a := run (priv p) r (lt ++ rt) in
  let enter := cparser_input glue input_cb glob (S (S (max_depth + fuel))) p LF CPARSER_CHAR_REGULAR in
  let done_with rc n := exists p', enter = Ok (p', rc) /\ session p' r [] [] /\
                          cmd p' = Command (cur_line (ln p)) rc (Some n) in
  (m_bad a <> O -> done_with CPARSER_ERR_PARSE_ERR (m_cur a)) /\
  (m_bad a = O -> ~ selected (priv p) a -> done_with CPARSER_ERR_INCOMP_CMD (m_cur a)) /\
  (m_bad a = O -> selected (priv p) a ->
     let typed := enter_text glob (priv p) a in
     let a' := run (priv p) r ((lt ++ rt) ++ typed) in
     room (cfg p) lt rt (lt ++ rt) typed ->
     idle a' /\ no_descent (priv p) (m_cur a') /\
     match find_end p (n_children (m_cur a')) with
     | None => done_with (if bool_decide (m_closed a' = []) then CPARSER_OK else CPARSER_ERR_INCOMP_CMD) (m_cur a')
     | Some child =>
         exists g p1, n_param child = PGlue g /\
           entering p1 r (lt ++ typed) rt ((lt ++ rt) ++ typed) /\ kept p p1 /\
           forall p3 rc r',
             glue g (pc (set_fsm p1 (set_node (fsm p1) (Some child) (token_tos (fsm p1)))) LF) = Ok (p3, rc) ->
             settled p3 r' ->
             exists p', enter = Ok (p', rc) /\ session p' r' [] [] /\
               cmd p' = Command (cur_line (ln p3)) rc (cur_node (fsm p3))
     end).
Proof.
  intros Hs Hp Hg a enter done_with. split; [|split].
  - intros Hb. by apply enter_error.
  - intros Hb Hn. unfold selected in Hn. destruct (m_open a) as [[b w]|] eqn:Eo; [|done].
    apply (enter_incomplete glue input_cb glob (S (max_depth + fuel)) p r lt rt b w); try done.
    change (is_privileged_mode (ln p)) with (priv p). fold a. by destruct (best (priv p) w (m_cur a)) as [[? [|]]|]; [destruct Hn|..].
  - intros Hb Hsel typed a' Hr. pose proof (enter_settles glob (priv p) (cfg p) r lt rt Hp Hg Hb Hsel Hr) as [Hi Hnd].
    split; [exact Hi|]. split; [exact Hnd|].
    destruct (enter_types glue input_cb glob fuel p r lt rt Hs Hb Hsel Hp Hg Hr) as (p1 & He1 & Hk1 & E).
    pose proof (execute_here_spec glue p1 r _ _ _ He1 Hp) as Hx. cbv zeta in Hx. rewrite <- E in Hx.
    pose proof Hk1 as (_ & Hpv & Hcl & _). unfold find_end in Hx |- *. rewrite Hpv, Hcl in Hx.
    fold a in Hx. fold typed in Hx. fold a' in Hx.
    destruct (find _ (n_children (m_cur a'))) as [child|] eqn:Ef; [|exact Hx].
    destruct Hx as (g & Eg & Hx). by exists g, p1.
Qed.

(** ** A line entered *)

(** The parser of CliFsm's example with the tree [r], at an empty line. *)
Definition with_root (r : cparser_node_t) : cparser :=
  set_fsm (set_roots ex_parser (Some r :: replicate 3 None))
          (layout (machine0 r) None (replicate 31 (open_token None None))).

Lemma with_root_session r : tree_ok max_depth r -> session (with_root r) r [] [].
Proof.
  intros Hr. assert (Ht : tracks (with_root r) r []).
  { exists None, (replicate 31 (open_token None None)). split; [reflexivity|]. split; [|reflexivity].
    apply Forall_replicate. by exists None. }
  split; [split| | | |]; try done.
  - split; try done. by_compute.
  - apply Forall_replicate, empty_line_ok.
  - by apply tracks_sized in Ht.
  - exists [62], (replicate 14 0). split; [reflexivity | by_compute].
  - exists ex_line. split; [done|]. split; try done. by exists (replicate 383 0).
  - apply text_ok_short; by_compute.
Qed.

(** "go home", or "stop". *)
Definition ex_home : cparser_node_t := Node CPARSER_NODE_KEYWORD 0 (PStr [104;111;109;101]) None [ex_end].
Definition ex_go : cparser_node_t := Node CPARSER_NODE_KEYWORD 0 (PStr [103;111]) None [ex_home].
Definition ex_walk : cparser_node_t := Node CPARSER_NODE_ROOT 0 (PStr []) None [ex_go; ex_stop].

Lemma ex_walk_ok : tree_ok max_depth ex_walk.
Proof.
  change max_depth with 32%nat.
  repeat first [progress cbn [tree_ok node_ok n_type n_param n_children ex_walk ex_go ex_home ex_stop ex_end]
               | done | by_compute | apply List.Forall_nil | apply List.Forall_cons | split | intros _].
Qed.

Lemma ex_walk_proper : proper max_depth ex_walk.
Proof.
  change max_depth with 32%nat.
  repeat first [progress cbn [proper word_node n_type n_param n_children ex_walk ex_go ex_home ex_stop ex_end]
               | done | by_compute | apply List.Forall_nil | apply List.Forall_cons | split | intros _].
Qed.

Lemma settled_at_end p r nd : settled p r -> settled (pc (set_fsm p (set_node (fsm p) nd (token_tos (fsm p)))) LF) r.
Proof. intros [Hq Hcf Hroot Htree Hu [A B C D] Hl [T1 T2] Hpr]. split; try done. Qed.

(** "g" and Enter: "o home " is typed, and the command is executed. *)
Lemma enter_outcomes_witness :
  enter_text ex_glob false (run false ex_walk [103]) = [111;32;104;111;109;101;32] /\
  exists p0 p',
    cparser_input ex_glue ex_cb ex_glob 1 (with_root ex_walk) 103 CPARSER_CHAR_REGULAR = Ok (p0, CPARSER_OK) /\
    cparser_input ex_glue ex_cb ex_glob (S (S (max_depth + 0))) p0 LF CPARSER_CHAR_REGULAR = Ok (p', CPARSER_OK) /\
    session p' ex_walk [] [] /\ cmd p' = Command 0 CPARSER_OK (Some ex_end).
Proof.
  split; [reflexivity|].
  destruct (type_key ex_glue ex_cb ex_glob 0 (with_root ex_walk) ex_walk [] [] [] 103) as (p0 & E0 & Hs & Hk).
  { apply session_entering, with_root_session, ex_walk_ok. } { by_compute. }
  { apply text_ok_short; by_compute. } { apply text_ok_short; by_compute. }
  change ([] ++ [103]) with [103] in Hs. apply session_entering in Hs. pose proof Hk as (Hcfg & Hpv & Hcl & _).
  change (priv (with_root ex_walk)) with false in Hpv. change (cur_line (ln (with_root ex_walk))) with 0 in Hcl.
  assert (Hg : blankless ex_glob) by done.
  destruct (enter_outcomes ex_glue ex_cb ex_glob 0 p0 ex_walk [103] [] Hs ex_walk_proper Hg) as (_ & _ & H).
  rewrite Hpv in H. specialize (H eq_refl I). destruct H as (_ & _ & H).
  { rewrite Hcfg. apply (room_short _ [103] []); by_compute. }
  assert (Ef : find_end p0 (n_children (m_cur (run false ex_walk (([103] ++ []) ++
                 enter_text ex_glob false (run false ex_walk ([103] ++ [])))))) = Some ex_end)
    by (unfold find_end; rewrite Hpv; reflexivity).
  rewrite Ef in H. destruct H as (g & p1 & _ & He & (_ & _ & Hcl' & _) & H).
  destruct (H _ CPARSER_OK ex_walk eq_refl) as (p' & E & Hs' & Ec).
  { apply settled_at_end, (en_settled _ _ _ _ _ He). }
  exists p0, p'. split; [exact E0|]. split; [exact E|]. split; [exact Hs'|]. rewrite Ec.
  cbn [pc set_ln set_fsm ln printc cur_line fsm cur_node set_node]. by rewrite Hcl', Hcl.
Defined.
