(* ===== verification/CliFaults.v ===== *)
(** * CLI parser: inputs the code does not handle

    Executions of the model that end in a failed assertion, an access out of
    bounds, or a state that later keys do not expect.  Each is a concrete run of
    the parser of CliFsm's example tree, or a statement about one call. *)

From stdpp Require Import base numbers list list_numbers.
From S2P Require Import Prelude CliLine CliToken CliFsm Cli CliSession CliEnter.

#[local] Open Scope Z_scope.

Definition press (p : outcome cparser) (k : Z * cparser_char_t) : outcome cparser :=
  p ← p; '(p, _) ← cparser_input ex_glue ex_cb ex_glob 50 p (fst k) (snd k); Ok p.

Definition type_text (s : list Z) : list (Z * cparser_char_t) := (fun c => (c, CPARSER_CHAR_REGULAR)) <$> s.

Definition press_all (p : cparser) (ks : list (Z * cparser_char_t)) : outcome cparser := foldl press (Ok p) ks.

Definition line_text (o : outcome cparser) (n : nat) : option (list Z) :=
  match o with
  | Ok p => match lines (ln p) !! n with
            | Some l => Some (take (Z.to_nat (last l)) (buf l))
            | None => None
            end
  | Fault _ => None
  end.

(** "stop" with the cursor after the "s", then Enter: the command is executed, and the blank that
    closes its last word is inserted at the cursor, so the history keeps "s top". *)
Lemma enter_inside_a_line :
  line_text (press_all ex_ready (type_text [115;116;111;112] ++ replicate 3 (0, CPARSER_CHAR_LEFT_ARROW) ++ [(LF, CPARSER_CHAR_REGULAR)])) 0
  = Some [115; 32; 116; 111; 112].
Proof. vm_compute. reflexivity. Qed.

(** A string of 256 characters fills the token's buffer; the blank after it would write the
    terminating NUL beyond it. *)
Definition ex_string : cparser_node_t :=
  Node CPARSER_NODE_ROOT 0 (PStr []) None [Node CPARSER_NODE_STRING 0 (PStr [60; 83; 62]) None [ex_end]].

Lemma token_of_256_overruns :
  press_all (with_root ex_string) (type_text (replicate 256 97 ++ [32])) = Fault OutOfBounds.
Proof. vm_compute. reflexivity. Qed.

Definition fsm_pos (o : outcome cparser) : option Z :=
  match o with Ok p => Some (current_pos (fsm p)) | Fault _ => None end.

(** The line takes 383 characters, the state machine 382: the last one is in the line only, and
    erasing it takes a character from the machine that is still in the line. *)
Lemma last_column_desynchronizes :
  let keys := type_text (replicate 200 97 ++ [32] ++ replicate 182 97) in
  let p := press_all (with_root ex_string) keys in
  let p' := press_all (with_root ex_string) (keys ++ type_text [8]) in
  (option_map Zlen (line_text p 0), fsm_pos p) = (Some 383, Some 382) /\
  (option_map Zlen (line_text p' 0), fsm_pos p') = (Some 382, Some 381).
Proof. vm_compute. split; reflexivity. Qed.

(** A hidden keyword that is the only child is typed out by the completion key for a user who is
    not privileged, although the state machine does not accept it. *)
Definition ex_hidden : cparser_node_t :=
  Node CPARSER_NODE_ROOT 0 (PStr []) None [Node CPARSER_NODE_KEYWORD CPARSER_NODE_FLAGS_HIDDEN (PStr [115; 117]) None [ex_end]].

Lemma completion_shows_hidden_keyword :
  let o := press_all (with_root ex_hidden) (type_text [9]) in
  line_text o 0 = Some [115; 117; 32] /\
  match o with Ok p => state (fsm p) = CPARSER_STATE_ERROR | Fault _ => False end.
Proof. vm_compute. split; reflexivity. Qed.

(** The completion key on an incomplete address that is longer than the node's parameter string reads
    beyond that string. *)
Definition ex_mac : cparser_node_t :=
  Node CPARSER_NODE_ROOT 0 (PStr []) None [Node CPARSER_NODE_MACADDR 0 (PStr [60; 77; 62]) None [ex_end]].

Lemma completion_reads_past_parameter :
  press_all (with_root ex_mac) (type_text [49; 58; 50; 58; 51; 9]) = Fault OutOfBounds.
Proof. vm_compute. reflexivity. Qed.

(** A command file that cannot be opened leaves the output descriptor at -1: nothing is printed any
    more. *)
Lemma load_missing_file_mutes fuel p :
  cparser_load_cmd ex_glue ex_cb ex_glob fuel p None = Ok (set_fd p (-1), CPARSER_NOT_OK).
Proof. done. Qed.

(** A command of a file whose action reports an error other than the parser's own stops the
    program. *)
Lemma load_failing_command_asserts :
  cparser_load_cmd (fun _ p => Ok (p, CPARSER_NOT_OK)) ex_cb ex_glob 50 ex_ready (Some [115; 116; 111; 112; 10])
  = Fault AssertFailed.
Proof. vm_compute. reflexivity. Qed.

(** [cparser_last_command] before the first command: [cparser_init] does not set what it reads. *)
Lemma init_keeps_last_command cf p p' rc :
  cparser_init cf p = Ok (p', rc) -> cmd p' = cmd p.
Proof.
  unfold cparser_init. destruct (cfg_root cf) as [r|]; [|by intros [= <- _]].
  destruct (ch_erase cf =? 0); [by intros [= <- _]|].
  destruct (wr (cfg_prompt cf) _ 0); [|done]. cbn [mbind outcome_bind].
  destruct (wr (root p) 0 _); [|done]. cbn [mbind outcome_bind].
  destruct (c_string _ _ _); [|done]. cbn [mbind outcome_bind].
  destruct (rd (prompt (ln p)) 0); [|done]. cbn [mbind outcome_bind].
  destruct (wr (prompt (ln p)) 0 _); [|done]. cbn [mbind outcome_bind].
  unfold cparser_fsm_reset. destruct (rd _ _); [|done]. cbn [mbind outcome_bind]. by intros [= <- _].
Qed.

(** A walker function cannot stop the walk: the result of a child is dropped. *)
Lemma walk_ignores_children :
  let stop (a : list (list Z)) (n : cparser_node_t) : outcome (list (list Z) * cparser_result_t) :=
    match n_type n, n_param n with
    | CPARSER_NODE_KEYWORD, PStr s => Ok (a ++ [s], CPARSER_NOT_OK)
    | _, _ => Ok (a, CPARSER_OK)
    end in
  cparser_walk_internal (Some stop) None [] ex_root = Ok ([[115;104;111;119]; [115;116;111;112]], CPARSER_OK).
Proof. vm_compute. reflexivity. Qed.

(** Two optional groups one after the other: the second is closed with two braces. *)
Definition ex_opt (name : Z) (children : list cparser_node_t) : cparser_node_t :=
  Node CPARSER_NODE_KEYWORD (CPARSER_NODE_FLAGS_OPT_START + CPARSER_NODE_FLAGS_OPT_END) (PStr [name]) None children.

Lemma help_closes_a_brace_twice :
  match print_path ex_ready [Some (ex_opt 97 []); Some (ex_opt 98 [])] 0 with
  | Ok p => out (ln p) = [123;32;97;32;125;32] ++ [123;32;98;32;125;32;125;32]
  | Fault _ => False
  end.
Proof. vm_compute. reflexivity. Qed.
