(* ===== verification/Hash.v ===== *)
(** * String and address hashes

    GeneralHashFunctions_C/GeneralHashFunctions.c (the eleven string hashes) and
    hash/mnq_5_hash.c (the bucket hashes of IPv4 addresses).

    A string is a list of [char] values (-128 .. 127); [*str] is promoted to
    [int] and then converted to [unsigned int], so only its value modulo 2^32
    matters.  Every [unsigned int] operation wraps. *)

From stdpp Require Import base numbers list.
From S2P Require Import Prelude.

#[local] Open Scope Z_scope.

(** [hash << k] on [unsigned int]. *)
Definition shl32 (h k : Z) : Z := u32 (Z.shiftl h k).

(** [~x] on [unsigned int]. *)
Definition not32 (x : Z) : Z := Z.lxor x 0xFFFFFFFF.

(** The loop of every function: [for(i = 0; i < len; str++, i++)], with the
    state the body updates. *)
Fixpoint hash_loop {S : Type} (body : Z -> Z -> S -> S) (n : nat) (str : list Z) (i : Z) (s : S)
    : outcome S :=
  match n with
  | O => Ok s
  | Datatypes.S n =>
      c ← rd str i;
      hash_loop body n str (i + 1) (body i c s)
  end.

(** ** GeneralHashFunctions.c *)

Definition RSHash (str : list Z) (len : Z) : outcome Z :=
  let b := 378551 in
  '(hash, _) ← hash_loop (fun _ c '(hash, a) => (u32 (hash * a + c), u32 (a * b)))
                 (Z.to_nat len) str 0 (0, 63689);
  Ok hash.

Definition JSHash (str : list Z) (len : Z) : outcome Z :=
  hash_loop (fun _ c hash => Z.lxor hash (u32 (shl32 hash 5 + c + Z.shiftr hash 2)))
    (Z.to_nat len) str 0 1315423911.

Definition PJWHash (str : list Z) (len : Z) : outcome Z :=
  let BitsInUnsignedInt := 32 in
  let ThreeQuarters := (BitsInUnsignedInt * 3) `div` 4 in
  let OneEighth := BitsInUnsignedInt `div` 8 in
  let HighBits := shl32 0xFFFFFFFF (BitsInUnsignedInt - OneEighth) in
  hash_loop (fun _ c hash =>
      let hash := u32 (shl32 hash OneEighth + c) in
      let test := Z.land hash HighBits in
      if negb (test =? 0)
      then Z.land (Z.lxor hash (Z.shiftr test ThreeQuarters)) (not32 HighBits)
      else hash)
    (Z.to_nat len) str 0 0.

Definition ELFHash (str : list Z) (len : Z) : outcome Z :=
  hash_loop (fun _ c hash =>
      let hash := u32 (shl32 hash 4 + c) in
      let x := Z.land hash 0xF0000000 in
      let hash := if negb (x =? 0) then Z.lxor hash (Z.shiftr x 24) else hash in
      Z.land hash (not32 x))
    (Z.to_nat len) str 0 0.

Definition BKDRHash (str : list Z) (len : Z) : outcome Z :=
  let seed := 131 in
  hash_loop (fun _ c hash => u32 (u32 (hash * seed) + c)) (Z.to_nat len) str 0 0.

Definition SDBMHash (str : list Z) (len : Z) : outcome Z :=
  hash_loop (fun _ c hash => u32 (c + shl32 hash 6 + shl32 hash 16 - hash)) (Z.to_nat len) str 0 0.

Definition DJBHash (str : list Z) (len : Z) : outcome Z :=
  hash_loop (fun _ c hash => u32 (u32 (shl32 hash 5 + hash) + c)) (Z.to_nat len) str 0 5381.

Definition DEKHash (str : list Z) (len : Z) : outcome Z :=
  hash_loop (fun _ c hash => Z.lxor (Z.lxor (shl32 hash 5) (Z.shiftr hash 27)) (u32 c))
    (Z.to_nat len) str 0 len.

Definition BPHash (str : list Z) (len : Z) : outcome Z :=
  hash_loop (fun _ c hash => Z.lxor (shl32 hash 7) (u32 c)) (Z.to_nat len) str 0 0.

Definition FNVHash (str : list Z) (len : Z) : outcome Z :=
  let fnv_prime := 0x811C9DC5 in
  hash_loop (fun _ c hash => Z.lxor (u32 (hash * fnv_prime)) (u32 c)) (Z.to_nat len) str 0 0.

Definition APHash (str : list Z) (len : Z) : outcome Z :=
  hash_loop (fun i c hash =>
      Z.lxor hash
        (if Z.land i 1 =? 0
         then Z.lxor (shl32 hash 7) (u32 (c * Z.shiftr hash 3))
         else not32 (u32 (shl32 hash 11 + Z.lxor (u32 c) (Z.shiftr hash 5)))))
    (Z.to_nat len) str 0 0xAAAAAAAA.

(** ** mnq_5_hash.c *)

Definition hash_sip (sip : Z) : Z :=
  let ht := Z.lxor sip 0 in
  let ht_h16 := u16 (Z.shiftr (Z.land ht 0xFFFF0000) 16) in
  let ht_l16 := u16 (Z.land ht 0x0000FFFF) in
  let ht16 := u16 (Z.lxor ht_l16 ht_h16) in
  let ht16_h4 := u16 (Z.land ht16 0xF000) in
  let ht16_m4 := u16 (Z.shiftl (Z.land ht16 0x0F00) 4) in
  let ht4 := u16 (Z.lxor ht16_h4 ht16_m4) in
  let ht_l8 := u16 (Z.land ht16 0xFF) in
  let ht12 := u16 (Z.lor ht_l8 ht4) in
  Z.land (Z.shiftr ht12 2) 0x03FF.

(** [>>] binds tighter than [&]: the mask of the high half is 0xFFFF0000 >> 16. *)
Definition hash_sip_dip (sip dip : Z) : Z :=
  let ht := u16 (Z.lxor dip sip) in
  let ht_l16 := u16 (Z.land ht (Z.shiftr 0xFFFF0000 16)) in
  let ht_h16 := u16 (Z.land ht 0xFFFF) in
  let ht16 := u16 (Z.lxor ht_l16 ht_h16) in
  let ht16_h4 := u16 (Z.land ht16 0xF000) in
  let ht16_m4 := u16 (Z.land ht16 0x0F00) in
  let ht4 := u16 (Z.lxor ht16_h4 ht16_m4) in
  let ht_l8 := u8 (Z.land ht16 0xFF) in
  let ht12 := u16 (Z.lor ht_l8 (Z.shiftl ht4 8)) in
  u16 (Z.shiftr ht12 2).

(** ** The loop as a fold *)

Lemma hash_loop_ext {S} (f g : Z -> Z -> S -> S) n str i s :
  (forall i c s, f i c s = g i c s) -> hash_loop f n str i s = hash_loop g n str i s.
Proof.
  intros E. revert i s. induction n as [|n IH]; intros i s; [done|]. simpl.
  destruct (rd str i); simpl; [|done]. by rewrite E, IH.
Qed.

Lemma hash_loop_fold {S} (body : Z -> S -> S) n str i s :
  0 <= i -> i + Z.of_nat n <= Zlen str ->
  hash_loop (fun _ => body) n str i s = Ok (foldl (fun s c => body c s) s (slice str i (Z.of_nat n))).
Proof.
  revert i s. induction n as [|n IH]; intros i s Hi Hl.
  - by rewrite slice_0.
  - cbn [hash_loop]. destruct (rd_in_range str i) as [c Hc]; [lia|].
    rewrite Hc, bind_Ok_l, IH by lia. rewrite (slice_cons _ i _ c) by (done || lia).
    replace (Z.of_nat (Datatypes.S n) - 1) with (Z.of_nat n) by lia. done.
Qed.

Lemma hash_fold {S} (body : Z -> S -> S) str s :
  hash_loop (fun _ => body) (Z.to_nat (Zlen str)) str 0 s = Ok (foldl (fun s c => body c s) s str).
Proof.
  pose proof (Zlen_nonneg str). rewrite hash_loop_fold by lia.
  by rewrite Z2Nat.id, slice_all.
Qed.

(** ** Multiplicative hashes

    The value of the string in base [r], most significant character first. *)

Definition horner (r : Z) (h : Z) (str : list Z) : Z := foldl (fun h c => h * r + c) h str.

Lemma u32_mod z : u32 z = z `mod` 4294967296.
Proof. done. Qed.

Lemma fold_horner r (body : Z -> Z -> Z) str h g :
  (forall c h, body c h = u32 (h * r + c)) ->
  h `mod` 4294967296 = g `mod` 4294967296 ->
  foldl (fun h c => body c h) h str `mod` 4294967296 = horner r g str `mod` 4294967296.
Proof.
  intros Hb. revert h g. induction str as [|c str IH]; intros h g E; [done|]. simpl.
  apply IH. rewrite Hb, u32_mod, Z.mod_mod by done.
  rewrite <- Z.add_mod_idemp_l, <- Z.mul_mod_idemp_l, E by done.
  by rewrite Z.mul_mod_idemp_l, Z.add_mod_idemp_l by done.
Qed.

Lemma fold_horner_u32 r (body : Z -> Z -> Z) str h :
  (forall c h, body c h = u32 (h * r + c)) -> is_u32 h ->
  foldl (fun h c => body c h) h str = u32 (horner r h str).
Proof.
  intros Hb Hh. rewrite u32_mod, <- (fold_horner r body str h h Hb eq_refl).
  symmetry. apply Z.mod_small.
  assert (H : forall str h, is_u32 h -> is_u32 (foldl (fun h c => body c h) h str)).
  { clear -Hb. induction str as [|c str IH]; intros h Hh; [done|]. simpl. apply IH.
    rewrite Hb. apply u32_range. }
  by apply H.
Qed.

Lemma u32_idemp_add_l a b : u32 (u32 a + b) = u32 (a + b).
Proof. unfold u32. by rewrite Z.add_mod_idemp_l. Qed.

Lemma bkdr_body c h : u32 (u32 (h * 131) + c) = u32 (h * 131 + c).
Proof. apply u32_idemp_add_l. Qed.

Lemma djb_body c h : u32 (u32 (shl32 h 5 + h) + c) = u32 (h * 33 + c).
Proof.
  rewrite u32_idemp_add_l. unfold shl32. rewrite <- Z.add_assoc, u32_idemp_add_l.
  f_equal. rewrite Z.shiftl_mul_pow2 by done. change (2 ^ 5) with 32. lia.
Qed.

Lemma sdbm_body c h : u32 (c + shl32 h 6 + shl32 h 16 - h) = u32 (h * 65599 + c).
Proof.
  unfold shl32. replace (c + u32 (Z.shiftl h 6) + u32 (Z.shiftl h 16) - h)
    with (u32 (Z.shiftl h 6) + (u32 (Z.shiftl h 16) + (c - h))) by lia.
  rewrite u32_idemp_add_l. replace (Z.shiftl h 6 + (u32 (Z.shiftl h 16) + (c - h)))
    with (u32 (Z.shiftl h 16) + (Z.shiftl h 6 + (c - h))) by lia.
  rewrite u32_idemp_add_l. f_equal. rewrite !Z.shiftl_mul_pow2 by done.
  change (2 ^ 16) with 65536. change (2 ^ 6) with 64. lia.
Qed.

(** ** The two spellings of the PJW step *)

Lemma u32_bits z i : 0 <= i -> Z.testbit (u32 z) i = (Z.testbit z i && (i <? 32))%bool.
Proof.
  intros Hi. unfold u32. change 4294967296 with (2 ^ 32).
  destruct (i <? 32) eqn:G; zify_bool.
  - rewrite Z.mod_pow2_bits_low by lia. by rewrite andb_true_r.
  - rewrite Z.mod_pow2_bits_high by lia. by rewrite andb_false_r.
Qed.

Lemma u16_bits z i : 0 <= i -> Z.testbit (u16 z) i = (Z.testbit z i && (i <? 16))%bool.
Proof.
  intros Hi. unfold u16. change 65536 with (2 ^ 16).
  destruct (i <? 16) eqn:G; zify_bool.
  - rewrite Z.mod_pow2_bits_low by lia. by rewrite andb_true_r.
  - rewrite Z.mod_pow2_bits_high by lia. by rewrite andb_false_r.
Qed.

(** Bit [i] of the mask 0xF0000000. *)
Lemma high_bits i : 0 <= i -> Z.testbit 0xF0000000 i = ((28 <=? i) && (i <? 32))%bool.
Proof.
  intros Hi. change 0xF0000000 with (Z.shiftl (Z.ones 4) 28). rewrite Z.shiftl_spec by done.
  destruct (28 <=? i) eqn:G; zify_bool.
  - rewrite Z.testbit_ones by lia. destruct (i <? 32) eqn:G2; zify_bool; simpl;
      [rewrite (proj2 (Z.leb_le _ _)), (proj2 (Z.ltb_lt _ _)) by lia; done
      |rewrite (proj2 (Z.ltb_ge _ _)) by lia; apply andb_false_r].
  - apply Z.testbit_neg_r. lia.
Qed.

Lemma ones32_bits i : 0 <= i -> Z.testbit 0xFFFFFFFF i = (i <? 32).
Proof.
  intros Hi. change 0xFFFFFFFF with (Z.ones 32). rewrite Z.testbit_ones by lia.
  by rewrite (proj2 (Z.leb_le 0 i)).
Qed.

Lemma pjw_step h :
  is_u32 h ->
  let x := Z.land h 0xF0000000 in
  (if negb (x =? 0)
   then Z.land (Z.lxor h (Z.shiftr x 24)) (not32 0xF0000000) else h) =
  Z.land (if negb (x =? 0) then Z.lxor h (Z.shiftr x 24) else h) (not32 x).
Proof.
  intros Hh x. assert (Hhi : forall i, 32 <= i -> Z.testbit h i = false).
  { intros i Hi. apply (testbit_high h 32); [exact Hh | lia]. }
  destruct (x =? 0) eqn:G; cbn [negb]; apply Z.bits_inj'; intros i Hi; unfold not32.
  - zify_bool. rewrite Z.land_spec, Z.lxor_spec, G, Z.testbit_0_l, ones32_bits by done.
    destruct (i <? 32) eqn:G2; zify_bool; [by rewrite andb_true_r|]. by rewrite Hhi by lia.
  - rewrite !Z.land_spec, !Z.lxor_spec, !Z.shiftr_spec by lia. subst x.
    rewrite !Z.land_spec, !high_bits, !ones32_bits by lia.
    destruct (decide (32 <= i)) as [H32|H32].
    { rewrite !(Hhi i), !(Hhi (i + 24)) by lia. done. }
    rewrite (proj2 (Z.ltb_lt i 32)) by lia.
    destruct (28 <=? i) eqn:G2; zify_bool; simpl.
    + rewrite (Hhi (i + 24)) by lia. simpl. by destruct (Z.testbit h i).
    + by rewrite andb_false_r.
Qed.

(** ** Properties *)

(** the three multiplicative hashes are what their shifts stand for: the
    string read as a number in base 131, 65599 or 33, modulo 2^32. *)
Lemma multiplicative_hashes str :
  BKDRHash str (Zlen str) = Ok (u32 (horner 131 0 str)) /\
  SDBMHash str (Zlen str) = Ok (u32 (horner 65599 0 str)) /\
  DJBHash str (Zlen str) = Ok (u32 (horner 33 5381 str)).
Proof.
  unfold BKDRHash, SDBMHash, DJBHash.
  rewrite (hash_fold (fun c hash => u32 (u32 (hash * 131) + c))).
  rewrite (hash_fold (fun c hash => u32 (c + shl32 hash 6 + shl32 hash 16 - hash))).
  rewrite (hash_fold (fun c hash => u32 (u32 (shl32 hash 5 + hash) + c))).
  rewrite (fold_horner_u32 131 _ str 0 bkdr_body), (fold_horner_u32 65599 _ str 0 sdbm_body),
    (fold_horner_u32 33 _ str 5381 djb_body) by (unfold is_u32; lia).
  done.
Qed.

(** [PJWHash] and [ELFHash] are the same function: clearing all of the four
    high bits or only those that are set is the same. *)
Lemma PJWHash_is_ELFHash str len : PJWHash str len = ELFHash str len.
Proof.
  unfold PJWHash, ELFHash.
  change (shl32 0xFFFFFFFF (32 - 32 `div` 8)) with 0xF0000000.
  change ((32 * 3) `div` 4) with 24. change (32 `div` 8) with 4.
  apply hash_loop_ext. intros _ c h. by rewrite <- pjw_step by apply u32_range.
Qed.

(** The shift step is linear, and five shifts by seven empty the word. *)
Lemma bp_fold_linear str h :
  foldl (fun h c => Z.lxor (shl32 h 7) (u32 c)) h str =
  Z.lxor (Nat.iter (length str) (fun h => shl32 h 7) h)
         (foldl (fun h c => Z.lxor (shl32 h 7) (u32 c)) 0 str).
Proof.
  assert (Hlin : forall a b, shl32 (Z.lxor a b) 7 = Z.lxor (shl32 a 7) (shl32 b 7)).
  { intros a b. apply Z.bits_inj'. intros i Hi. unfold shl32. rewrite Z.lxor_spec, !u32_bits by done.
    rewrite !Z.shiftl_spec, Z.lxor_spec by done. destruct (i <? 32); by rewrite ?andb_true_r, ?andb_false_r. }
  revert h. induction str as [|c str IH] using rev_ind; intros h.
  - simpl. by rewrite Z.lxor_0_r.
  - rewrite !foldl_app, length_app, Nat.add_comm. simpl. rewrite IH at 1.
    by rewrite Hlin, Z.lxor_assoc.
Qed.

Lemma bp_five_shifts h : Nat.iter 5 (fun h => shl32 h 7) h = 0.
Proof.
  assert (E : forall h, shl32 h 7 = u32 (h * 128)).
  { intros a. unfold shl32. by rewrite Z.shiftl_mul_pow2. }
  assert (M : forall a k, u32 (u32 a * k) = u32 (a * k)).
  { intros a k. unfold u32. by rewrite Z.mul_mod_idemp_l. }
  simpl. rewrite !E. repeat (rewrite M || rewrite <- Z.mul_assoc).
  replace (h * _) with (h * 8 * 4294967296) by lia.
  by apply Z.mod_mul.
Qed.

(** [BPHash] looks only at the last five characters: strings that end in the
    same five have the same hash, whatever comes before. *)
Lemma BPHash_last_five a b l :
  length l = 5%nat -> BPHash (a ++ l) (Zlen (a ++ l)) = BPHash (b ++ l) (Zlen (b ++ l)).
Proof.
  intros Hl. unfold BPHash.
  rewrite !(hash_fold (fun c hash => Z.lxor (shl32 hash 7) (u32 c))).
  rewrite !foldl_app, (bp_fold_linear l (foldl _ 0 a)), (bp_fold_linear l (foldl _ 0 b)).
  by rewrite Hl, !bp_five_shifts.
Qed.

Lemma BPHash_last_five_witness :
  BPHash ([65; 66; 67] ++ [1; 2; 3; 4; 5]) (Zlen ([65; 66; 67] ++ [1; 2; 3; 4; 5])) =
  BPHash ([] ++ [1; 2; 3; 4; 5]) (Zlen ([] ++ [1; 2; 3; 4; 5])).
Proof. apply BPHash_last_five. reflexivity. Defined.

(** The address hashes lose their input.  [hash_sip] masks away the nibble it
    folded from the high bits, so that only 64 of its 1024 buckets are ever used;
    [hash_sip_dip] xors a value with itself and is constantly zero. *)
Lemma address_hashes_degenerate sip dip :
  0 <= hash_sip sip < 64 /\ hash_sip_dip sip dip = 0.
Proof.
  split.
  - apply (bound_of_bits _ 6); [done|].
    intros i Hi. unfold hash_sip. rewrite Z.land_spec.
    destruct (decide (10 <= i)) as [H10|H10].
    { rewrite (testbit_high 0x03FF 10 i) by lia. apply andb_false_r. }
    assert (Hcase : i = 6 \/ i = 7 \/ i = 8 \/ i = 9) by lia.
    rewrite Z.shiftr_spec by lia. rewrite u16_bits, Z.lor_spec, !u16_bits, Z.lxor_spec, !u16_bits by lia.
    rewrite !Z.land_spec, Z.shiftl_spec, Z.land_spec by lia.
    destruct Hcase as [->|[->|[->| ->]]]; simpl; by rewrite ?andb_false_r.
  - unfold hash_sip_dip. change (Z.shiftr 0xFFFF0000 16) with 0xFFFF.
    rewrite Z.lxor_nilpotent. done.
Qed.
