(* ===== verification/Increase.v ===== *)
(** * Byte order and multi-word increments (byte_value_increase/byte_value_increase.c)

    [host2network_byte_order] swaps the bytes of every element of an array in
    place (on a little-endian host); the two [..._increase_by_step] functions add
    a 16-bit step to a number kept as an array of 16-bit words, least significant
    word first ([host]) or last ([network]). *)

From stdpp Require Import base numbers list.
From S2P Require Import Prelude.

#[local] Open Scope Z_scope.

(** ** Byte order *)

(** [htons] and [htonl] on a little-endian host. *)
Definition htons (w : Z) : Z := Z.lor (Z.shiftl (Z.land w 0xFF) 8) (Z.shiftr w 8).
Definition htonl (w : Z) : Z :=
  Z.lor (Z.shiftl (htons (Z.land w 0xFFFF)) 16) (htons (Z.shiftr w 16)).

(** A [unsigned short] and an [unsigned int] in little-endian memory. *)
Definition load16 (mem : list Z) (p : Z) : outcome Z :=
  b0 ← rd mem p; b1 ← rd mem (p + 1); Ok (b0 + b1 * 256).
Definition load32 (mem : list Z) (p : Z) : outcome Z :=
  lo ← load16 mem p; hi ← load16 mem (p + 2); Ok (lo + hi * 65536).
Definition store16 (mem : list Z) (p w : Z) : outcome (list Z) :=
  mem ← wr mem p (w `mod` 256); wr mem (p + 1) ((w `div` 256) `mod` 256).
Definition store32 (mem : list Z) (p w : Z) : outcome (list Z) :=
  mem ← store16 mem p (w `mod` 65536); store16 mem (p + 2) (w `div` 65536).

Fixpoint swap_loop2 (n : nat) (mem : list Z) (ch2 : Z) : outcome (list Z) :=
  match n with
  | O => Ok mem
  | S n => w ← load16 mem ch2; mem ← store16 mem ch2 (htons w); swap_loop2 n mem (ch2 + 2)
  end.

Fixpoint swap_loop4 (n : nat) (mem : list Z) (ch4 : Z) : outcome (list Z) :=
  match n with
  | O => Ok mem
  | S n => w ← load32 mem ch4; mem ← store32 mem ch4 (htonl w); swap_loop4 n mem (ch4 + 4)
  end.

(** [data] is [None] for a null pointer. *)
Definition host2network_byte_order (data : option (list Z)) (width length : Z)
    : outcome (option (list Z) * Z) :=
  match data with
  | None => Ok (None, -1)
  | Some mem =>
      if width <? 2 then Ok (data, -2)
      else if length <? 2 then Ok (data, -3)
      else if width =? 2 then
        mem ← swap_loop2 (Z.to_nat (length `quot` width)) mem 0; Ok (Some mem, 0)
      else if width =? 4 then
        mem ← swap_loop4 (Z.to_nat (length `quot` width)) mem 0; Ok (Some mem, 0)
      else Ok (data, -4)
  end.

(** ** Increments *)

(** [*current += over_flow; over_flow = *current < over_flow;] for [n] words, the
    pointer moving by [dir]. *)
Fixpoint carry_loop (n : nat) (ws : list Z) (current dir over_flow : Z) : outcome (list Z) :=
  match n with
  | O => Ok ws
  | S n =>
      w ← rd ws current;
      let w := u16 (w + over_flow) in
      ws ← wr ws current w;
      carry_loop n ws (current + dir) dir (if w <? over_flow then 1 else 0)
  end.

(** [length / sizeof(unsigned short int)], kept in an [unsigned short]. *)
Definition word_count (length : Z) : Z := u16 (length `div` 2).

Definition network_byte_order_increase_by_step (ws : list Z) (length step : Z) : outcome (list Z * Z) :=
  let loop := word_count length in
  let last := Z.max (loop - 1) 0 in
  w ← rd ws last;
  let w := u16 (w + step) in
  ws ← wr ws last w;
  let over_flow := if w <? step then 1 else 0 in
  ws ← carry_loop (Z.to_nat (loop - 1)) ws (last - 1) (-1) over_flow;
  Ok (ws, 0).

Definition host_byte_order_increase_by_step (ws : list Z) (length step : Z) : outcome (list Z * Z) :=
  let loop := word_count length in
  w ← rd ws 0;
  let w := u16 (w + step) in
  ws ← wr ws 0 w;
  let over_flow := if w <? step then 1 else 0 in
  ws ← carry_loop (Z.to_nat (loop - 1)) ws 1 1 over_flow;
  Ok (ws, 0).

(** ** Numbers as words *)

Definition words_ok (ws : list Z) : Prop := Forall is_u16 ws.
#[global] Instance words_ok_dec ws : Decision (words_ok ws).
Proof. unfold words_ok. apply _. Defined.

(** Least significant word first. *)
Fixpoint value_le (ws : list Z) : Z :=
  match ws with
  | [] => 0
  | w :: ws => w + 65536 * value_le ws
  end.
Definition value_be (ws : list Z) : Z := value_le (reverse ws).

(** Adding a small number with the carry the code computes. *)
Fixpoint add_le (ws : list Z) (k : Z) : list Z :=
  match ws with
  | [] => []
  | w :: ws => u16 (w + k) :: add_le ws (if u16 (w + k) <? k then 1 else 0)
  end.

Lemma add_carry w k :
  is_u16 w -> is_u16 k -> w + k = u16 (w + k) + 65536 * (if u16 (w + k) <? k then 1 else 0).
Proof.
  intros Hw Hk. unfold is_u16 in *. unfold u16.
  destruct (decide (w + k < 65536)).
  - rewrite Z.mod_small by lia. destruct (w + k <? k) eqn:G; zify_bool; lia.
  - replace (w + k) with (w + k - 65536 + 1 * 65536) at 2 by lia.
    replace ((w + k) `mod` 65536) with (w + k - 65536)
      by (symmetry; rewrite <- (Z.mod_unique (w + k) 65536 1 (w + k - 65536)); lia).
    rewrite Z_mod_plus_full, Z.mod_small by lia.
    destruct (w + k - 65536 <? k) eqn:G; zify_bool; lia.
Qed.

Lemma add_le_length ws k : length (add_le ws k) = length ws.
Proof. revert k. induction ws; intros k; simpl; [done|]. by f_equal. Qed.

Lemma add_le_value ws k :
  words_ok ws -> is_u16 k ->
  words_ok (add_le ws k) /\
  value_le (add_le ws k) = (value_le ws + k) `mod` (65536 ^ Z.of_nat (length ws)).
Proof.
  intros Hws. revert k. induction Hws as [|w ws Hw Hws IH]; intros k Hk.
  - simpl. split; [apply Forall_nil_2|]. by rewrite Z.mod_1_r.
  - simpl. set (c := if u16 (w + k) <? k then 1 else 0).
    destruct (IH c) as [Hok Hv]; [subst c; unfold is_u16; zify_bool; destruct (_ <? _); lia|].
    split; [by apply Forall_cons; split; [apply u16_range|]|].
    rewrite Hv. pose proof (add_carry w k Hw Hk) as Ec. fold c in Ec.
    set (B := 65536 ^ Z.of_nat (length ws)).
    replace (65536 ^ Z.of_nat (S (length ws))) with (65536 * B)
      by (subst B; rewrite Nat2Z.inj_succ, Z.pow_succ_r; lia).
    assert (HB : 0 < B) by (apply Z.pow_pos_nonneg; lia).
    replace (w + 65536 * value_le ws + k) with (u16 (w + k) + 65536 * (value_le ws + c)) by lia.
    rewrite Z.rem_mul_r by lia.
    pose proof (u16_range (w + k)) as Hu. unfold is_u16 in Hu.
    replace ((u16 (w + k) + 65536 * (value_le ws + c)) `mod` 65536) with (u16 (w + k)).
    2: { rewrite (Z.mul_comm 65536), Z_mod_plus_full, Z.mod_small; lia. }
    f_equal. f_equal. f_equal. rewrite (Z.mul_comm 65536), Z.div_add, Z.div_small; lia.
Qed.

(** ** The loops *)

Lemma slice_insert_lt {A} (b : list A) i j n x :
  0 <= i < j -> slice (<[Z.to_nat i := x]> b) j n = slice b j n.
Proof. intros Hi. unfold slice. rewrite drop_insert_lt by lia. done. Qed.

Lemma slice_insert_ge {A} (b : list A) i j n x :
  0 <= j -> 0 <= n -> j + n <= i -> slice (<[Z.to_nat i := x]> b) j n = slice b j n.
Proof.
  intros Hj Hn Hi. unfold slice. rewrite drop_insert_ge by lia. apply take_insert_ge. lia.
Qed.

Lemma splice_snoc {A} (b : list A) i (xs : list A) x :
  0 <= i -> i + Zlen xs < Zlen b ->
  splice (<[Z.to_nat (i + Zlen xs) := x]> b) i xs = splice b i (xs ++ [x]).
Proof.
  intros Hi Hl. unfold splice, Zlen in *. rewrite take_insert_ge by lia.
  rewrite drop_insert_ge by lia. rewrite length_app. simpl. rewrite <- app_assoc. do 2 f_equal.
  replace (Z.to_nat (i + Z.of_nat (length xs)) - (Z.to_nat i + length xs))%nat with O by lia.
  rewrite Nat.add_assoc, <- (drop_drop b 1).
  destruct (drop (Z.to_nat i + length xs) b) as [|y l] eqn:E; [|done].
  apply (f_equal length) in E. rewrite length_drop in E. simpl in E. lia.
Qed.

Lemma slice_snoc {A} (b : list A) i n x :
  0 <= i -> 0 <= n -> rd b (i + n) = Ok x -> slice b i (n + 1) = slice b i n ++ [x].
Proof.
  intros Hi Hn [Hp Hx]%rd_Ok_iff. unfold slice.
  replace (Z.to_nat (n + 1)) with (S (Z.to_nat n)) by lia.
  apply take_S_r. rewrite lookup_drop. rewrite <- Hx. f_equal. lia.
Qed.

Lemma carry_loop_up n ws p c :
  0 <= p -> p + Z.of_nat n <= Zlen ws ->
  carry_loop n ws p 1 c = Ok (splice ws p (add_le (slice ws p (Z.of_nat n)) c)).
Proof.
  revert ws p c. induction n as [|n IH]; intros ws p c Hp Hl.
  - rewrite slice_0 by done. simpl. by rewrite splice_nil.
  - cbn [carry_loop]. destruct (rd_in_range ws p) as [w Hw]; [lia|]. rewrite Hw, bind_Ok_l.
    rewrite wr_in_range, bind_Ok_l by lia. rewrite IH by (rewrite ?Zlen_insert; lia).
    rewrite slice_insert_lt by lia. rewrite (slice_cons _ p _ w) by (done || lia).
    replace (Z.of_nat (S n) - 1) with (Z.of_nat n) by lia. cbn [add_le].
    rewrite splice_cons; [done | lia |].
    unfold Zlen at 1. rewrite add_le_length. fold (Zlen (slice ws (p + 1) (Z.of_nat n))).
    rewrite slice_length; lia.
Qed.

Lemma carry_loop_down n ws p c :
  0 <= p - Z.of_nat n + 1 -> p < Zlen ws ->
  carry_loop n ws p (-1) c =
    Ok (splice ws (p - Z.of_nat n + 1)
          (reverse (add_le (reverse (slice ws (p - Z.of_nat n + 1) (Z.of_nat n))) c))).
Proof.
  revert ws p c. induction n as [|n IH]; intros ws p c Hp Hl.
  - rewrite slice_0 by done. change (reverse (add_le (reverse []) c)) with (@nil Z).
    by rewrite splice_nil.
  - cbn [carry_loop]. destruct (rd_in_range ws p) as [w Hw]; [lia|]. rewrite Hw, bind_Ok_l.
    rewrite wr_in_range, bind_Ok_l by lia. rewrite IH by (rewrite ?Zlen_insert; lia).
    replace (p + -1 - Z.of_nat n + 1) with (p - Z.of_nat n) by lia.
    replace (p - Z.of_nat (S n) + 1) with (p - Z.of_nat n) by lia.
    rewrite slice_insert_ge by lia.
    replace (Z.of_nat (S n)) with (Z.of_nat n + 1) by lia.
    rewrite (slice_snoc _ _ _ w); [|lia|lia|by replace (p - Z.of_nat n + Z.of_nat n) with p by lia].
    rewrite reverse_snoc. cbn [add_le]. rewrite reverse_cons.
    match goal with |- Ok (splice _ _ ?xs) = _ => assert (Hxs : Zlen xs = Z.of_nat n) end.
    { unfold Zlen. rewrite length_reverse, add_le_length, length_reverse.
      fold (Zlen (slice ws (p - Z.of_nat n) (Z.of_nat n))). rewrite slice_length; lia. }
    rewrite <- splice_snoc by lia. rewrite Hxs.
    by replace (p - Z.of_nat n + Z.of_nat n) with p by lia.
Qed.

Lemma host_as_carry ws length step :
  1 <= word_count length ->
  host_byte_order_increase_by_step ws length step =
    (ws ← carry_loop (Z.to_nat (word_count length)) ws 0 1 step; Ok (ws, 0)).
Proof.
  intros Hl. unfold host_byte_order_increase_by_step.
  replace (Z.to_nat (word_count length)) with (S (Z.to_nat (word_count length - 1))) by lia.
  cbn [carry_loop]. destruct (rd ws 0) as [w|]; [|done]. cbn [mbind outcome_bind].
  by destruct (wr ws 0 (u16 (w + step))).
Qed.

Lemma network_as_carry ws length step :
  1 <= word_count length ->
  network_byte_order_increase_by_step ws length step =
    (ws ← carry_loop (Z.to_nat (word_count length)) ws (word_count length - 1) (-1) step; Ok (ws, 0)).
Proof.
  intros Hl. unfold network_byte_order_increase_by_step. rewrite Z.max_l by lia.
  replace (Z.to_nat (word_count length)) with (S (Z.to_nat (word_count length - 1))) by lia.
  cbn [carry_loop]. destruct (rd ws _) as [w|]; [|done]. cbn [mbind outcome_bind].
  by destruct (wr ws _ (u16 (w + step))).
Qed.

Lemma word_count_even n : 0 <= n < 65536 -> word_count (2 * n) = n.
Proof.
  intros Hn. unfold word_count. rewrite Z.mul_comm, Z.div_mul by done. by apply u16_small.
Qed.

Lemma splice_all {A} (b xs : list A) : Zlen xs = Zlen b -> splice b 0 xs = xs.
Proof.
  intros Hl. unfold splice, Zlen in *. change (Z.to_nat 0) with O. simpl.
  rewrite drop_ge by lia. apply app_nil_r.
Qed.

(** ** Swapped bytes *)

Fixpoint swap2 (mem : list Z) : list Z :=
  match mem with
  | a :: b :: l => b :: a :: swap2 l
  | l => l
  end.

Fixpoint swap4 (mem : list Z) : list Z :=
  match mem with
  | a :: b :: c :: d :: l => d :: c :: b :: a :: swap4 l
  | l => l
  end.

Lemma rd_app_r {A} (l1 l2 : list A) k : rd (l1 ++ l2) (Zlen l1 + Z.of_nat k) = rd l2 (Z.of_nat k).
Proof.
  unfold rd, Zlen. rewrite !bool_decide_true by lia.
  replace (Z.to_nat (Z.of_nat (length l1) + Z.of_nat k)) with (length l1 + k)%nat by lia.
  rewrite lookup_app_r by lia. replace (length l1 + k - length l1)%nat with k by lia.
  by rewrite Nat2Z.id.
Qed.

Lemma wr_app_r {A} (l1 l2 : list A) k x :
  (k < length l2)%nat -> wr (l1 ++ l2) (Zlen l1 + Z.of_nat k) x = Ok (l1 ++ <[k := x]> l2).
Proof.
  intros Hk. unfold wr, Zlen. rewrite length_app, bool_decide_true by lia.
  replace (Z.to_nat (Z.of_nat (length l1) + Z.of_nat k)) with (length l1 + k)%nat by lia.
  by rewrite insert_app_r.
Qed.

Lemma store16_app_r l1 a b l w :
  store16 (l1 ++ a :: b :: l) (Zlen l1) w =
    Ok (l1 ++ (w `mod` 256) :: ((w `div` 256) `mod` 256) :: l).
Proof.
  unfold store16. pose proof (wr_app_r l1 (a :: b :: l) 0 (w `mod` 256)) as H.
  rewrite Z.add_0_r in H. rewrite H, bind_Ok_l by (simpl; lia).
  change 1 with (Z.of_nat 1). by rewrite wr_app_r by (simpl; lia).
Qed.

Lemma load16_app_r l1 a b l : load16 (l1 ++ a :: b :: l) (Zlen l1) = Ok (a + b * 256).
Proof.
  unfold load16. pose proof (rd_app_r l1 (a :: b :: l) 0) as H. rewrite Z.add_0_r in H. rewrite H.
  change 1 with (Z.of_nat 1). by rewrite rd_app_r.
Qed.

Lemma htons_bytes a b : is_u8 a -> is_u8 b -> htons (a + b * 256) = b + a * 256.
Proof.
  intros Ha Hb. unfold htons, is_u8 in *. change 0xFF with (Z.ones 8). rewrite Z.land_ones by done.
  change (2 ^ 8) with 256. rewrite shiftr_8, Z_mod_plus_full, Z.mod_small, Z.div_add, Z.div_small by lia.
  rewrite (lor_shiftl_add _ _ 8) by (change (2 ^ 8) with 256; lia). change (2 ^ 8) with 256. lia.
Qed.

Lemma mod_div_bytes a b : is_u8 a -> is_u8 b ->
  (a + b * 256) `mod` 256 = a /\ ((a + b * 256) `div` 256) `mod` 256 = b.
Proof.
  intros Ha Hb. unfold is_u8 in *. rewrite Z_mod_plus_full, Z.mod_small, Z.div_add, Z.div_small by lia.
  split; [done|]. apply Z.mod_small. lia.
Qed.

Lemma swap_loop2_spec n l1 l :
  length l = (2 * n)%nat -> bytes_ok l ->
  swap_loop2 n (l1 ++ l) (Zlen l1) = Ok (l1 ++ swap2 l).
Proof.
  revert l1 l. induction n as [|n IH]; intros l1 l Hl Hb.
  - by destruct l.
  - destruct l as [|a [|b l]]; simpl in Hl; [lia..|]. unfold bytes_ok in Hb.
    rewrite !Forall_cons in Hb. destruct Hb as (Ha & Hb & Hok).
    cbn [swap_loop2]. rewrite load16_app_r, bind_Ok_l, htons_bytes by done.
    rewrite store16_app_r, bind_Ok_l. destruct (mod_div_bytes b a Hb Ha) as [-> ->].
    replace (Zlen l1 + 2) with (Zlen (l1 ++ [b; a])) by (rewrite Zlen_app; done).
    replace (l1 ++ b :: a :: l) with ((l1 ++ [b; a]) ++ l) by (by rewrite <- app_assoc).
    rewrite IH by (done || lia). by rewrite <- app_assoc.
Qed.

Lemma htonl_shorts x y :
  is_u16 x -> is_u16 y -> htonl (x + y * 65536) = htons y + htons x * 65536.
Proof.
  intros Hx Hy. unfold htonl, is_u16 in *. change 0xFFFF with (Z.ones 16).
  rewrite Z.land_ones, Z.shiftr_div_pow2 by done. change (2 ^ 16) with 65536.
  rewrite Z_mod_plus_full, Z.mod_small, Z.div_add, Z.div_small, Z.add_0_l by lia.
  assert (Hs : forall w, 0 <= w < 65536 -> 0 <= htons w < 65536).
  { intros w Hw. unfold htons. apply (lor_bound _ _ 16); [done| |].
    - change 0xFF with (Z.ones 8). rewrite Z.land_ones by done. rewrite Z.shiftl_mul_pow2 by done.
      pose proof (Z.mod_pos_bound w (2 ^ 8) ltac:(done)). change (2 ^ 8) with 256 in *.
      change (2 ^ 16) with 65536. lia.
    - rewrite shiftr_8. change (2 ^ 16) with 65536. split; [apply Z.div_pos; lia|].
      apply Z.div_lt_upper_bound; lia. }
  rewrite (lor_shiftl_add _ _ 16) by (done || (change (2 ^ 16) with 65536; by apply Hs)).
  change (2 ^ 16) with 65536. lia.
Qed.

Lemma swap_loop4_spec n l1 l :
  length l = (4 * n)%nat -> bytes_ok l ->
  swap_loop4 n (l1 ++ l) (Zlen l1) = Ok (l1 ++ swap4 l).
Proof.
  revert l1 l. induction n as [|n IH]; intros l1 l Hl Hok.
  - by destruct l.
  - destruct l as [|a [|b [|c [|d l]]]]; simpl in Hl; [lia..|]. unfold bytes_ok in Hok.
    rewrite !Forall_cons in Hok. destruct Hok as (Ha & Hb & Hc & Hd & Hok).
    assert (Hab : is_u16 (a + b * 256)) by (unfold is_u8, is_u16 in *; lia).
    assert (Hcd : is_u16 (c + d * 256)) by (unfold is_u8, is_u16 in *; lia).
    cbn [swap_loop4]. unfold load32. rewrite load16_app_r, bind_Ok_l.
    replace (l1 ++ a :: b :: c :: d :: l) with ((l1 ++ [a; b]) ++ c :: d :: l)
      by (by rewrite <- app_assoc).
    replace (Zlen l1 + 2) with (Zlen (l1 ++ [a; b])) by (rewrite Zlen_app; done).
    rewrite load16_app_r, !bind_Ok_l.
    rewrite htonl_shorts, !htons_bytes by done.
    unfold store32. rewrite <- app_assoc. change ([a; b] ++ c :: d :: l) with (a :: b :: c :: d :: l).
    rewrite Z_mod_plus_full, Z.mod_small, Z.div_add, Z.div_small, Z.add_0_l
      by (unfold is_u8 in *; lia).
    rewrite store16_app_r, bind_Ok_l. destruct (mod_div_bytes d c Hd Hc) as [-> ->].
    replace (l1 ++ d :: c :: c :: d :: l) with ((l1 ++ [d; c]) ++ c :: d :: l)
      by (by rewrite <- app_assoc).
    replace (Zlen l1 + 2) with (Zlen (l1 ++ [d; c])) by (rewrite Zlen_app; done).
    rewrite store16_app_r, bind_Ok_l. destruct (mod_div_bytes b a Hb Ha) as [-> ->].
    replace (Zlen l1 + 4) with (Zlen ((l1 ++ [d; c]) ++ [b; a]))
      by (rewrite !Zlen_app; change (Zlen [_; _]) with 2; lia).
    replace ((l1 ++ [d; c]) ++ b :: a :: l) with (((l1 ++ [d; c]) ++ [b; a]) ++ l)
      by (by rewrite <- !app_assoc).
    rewrite IH by (done || lia). by rewrite <- !app_assoc.
Qed.

(** ** Properties *)

(** both increments add: the number kept in the array becomes the old one plus
    the step, modulo the size of the array, carries included. *)
Lemma increase_by_step_adds ws step :
  words_ok ws -> 1 <= Zlen ws < 65536 -> is_u16 step ->
  (exists ws', host_byte_order_increase_by_step ws (2 * Zlen ws) step = Ok (ws', 0) /\
     words_ok ws' /\ value_le ws' = (value_le ws + step) `mod` 65536 ^ Zlen ws) /\
  (exists ws', network_byte_order_increase_by_step ws (2 * Zlen ws) step = Ok (ws', 0) /\
     words_ok ws' /\ value_be ws' = (value_be ws + step) `mod` 65536 ^ Zlen ws).
Proof.
  intros Hws Hl Hk. pose proof (word_count_even (Zlen ws) ltac:(lia)) as Hc. split.
  - rewrite host_as_carry by lia. rewrite Hc, carry_loop_up by lia. rewrite Z2Nat.id by lia.
    rewrite slice_all by done. rewrite splice_all by (unfold Zlen; by rewrite add_le_length).
    destruct (add_le_value ws step Hws Hk) as [Hok Hv].
    eexists. split; [reflexivity|]. by split.
  - rewrite network_as_carry by lia. rewrite Hc, carry_loop_down by lia. rewrite Z2Nat.id by lia.
    replace (Zlen ws - 1 - Zlen ws + 1) with 0 by lia. rewrite slice_all by done.
    rewrite splice_all by (unfold Zlen; by rewrite length_reverse, add_le_length, length_reverse).
    destruct (add_le_value (reverse ws) step) as [Hok Hv]; [by apply Forall_reverse | done |].
    eexists. split; [reflexivity|]. split; [by apply Forall_reverse|].
    unfold value_be. rewrite reverse_involutive, Hv, length_reverse. done.
Qed.

Lemma increase_by_step_adds_witness :
  exists ws', network_byte_order_increase_by_step [0x1234; 0xFFFF; 0xFFF0] 6 0x20 = Ok (ws', 0) /\
    value_be ws' = 0x123500000010.
Proof.
  destruct (increase_by_step_adds [0x1234; 0xFFFF; 0xFFF0] 0x20) as [_ (ws' & H1 & _ & H2)];
    [by_compute.. |].
  exists ws'. split; [exact H1|]. rewrite H2. reflexivity.
Defined.

(** [host2network_byte_order] reverses the bytes of every 2- or 4-byte element
    of the array and touches nothing else; other widths, short arrays and null
    pointers are reported with their own error codes. *)
Lemma host2network_reverses mem width :
  bytes_ok mem -> 2 <= Zlen mem -> (width | Zlen mem) ->
  host2network_byte_order (Some mem) width (Zlen mem) =
    if width =? 2 then Ok (Some (swap2 mem), 0)
    else if width =? 4 then Ok (Some (swap4 mem), 0)
    else if width <? 2 then Ok (Some mem, -2)
    else Ok (Some mem, -4).
Proof.
  intros Hb Hl [k Hk]. unfold host2network_byte_order.
  destruct (width =? 2) eqn:E2; zify_bool; [subst width|destruct (width =? 4) eqn:E4; zify_bool].
  - simpl. rewrite (proj2 (Z.ltb_ge _ _)) by lia.
    rewrite Z.quot_div_nonneg, Hk, Z.div_mul by lia.
    pose proof (swap_loop2_spec (Z.to_nat k) [] mem) as H. change (Zlen []) with 0 in H.
    change ([] ++ mem) with mem in H. rewrite H; [done | | done].
    unfold Zlen in *. lia.
  - subst width. simpl. rewrite (proj2 (Z.ltb_ge _ _)) by lia.
    rewrite Z.quot_div_nonneg, Hk, Z.div_mul by lia.
    pose proof (swap_loop4_spec (Z.to_nat k) [] mem) as H. change (Zlen []) with 0 in H.
    change ([] ++ mem) with mem in H. rewrite H; [done | | done]. unfold Zlen in *. lia.
  - destruct (width <? 2); [done|]. by rewrite (proj2 (Z.ltb_ge _ _)) by lia.
Qed.

Lemma host2network_reverses_witness :
  host2network_byte_order (Some [1; 2; 3; 4; 5; 6; 7; 8]) 4 8 = Ok (Some [4; 3; 2; 1; 8; 7; 6; 5], 0).
Proof.
  apply (host2network_reverses [1; 2; 3; 4; 5; 6; 7; 8] 4); [by_compute | by_compute | by exists 2].
Defined.
