(* ===== verification/RbTree.v ===== *)
(** * Red-black trees in memory (data_struct/btree/rbtree.c)

    The nodes live in a heap, a finite map from addresses; [NULL] is [None] and
    reading through it, or through a freed address, is a fault.  [malloc] is an
    argument: the address it returns.  Loops run on fuel; the theorems of
    RbInsert.v show how much is enough. *)

From stdpp Require Import base numbers list gmap.
From S2P Require Import Prelude.

#[local] Open Scope Z_scope.

Inductive color_t := RED | BLACK.
#[global] Instance color_t_eq_dec : EqDecision color_t.
Proof. solve_decision. Defined.

Abbreviation ptr := (option positive).

Record rb_node_t := Node {
  left : ptr;
  right : ptr;
  parent : ptr;
  key : Z;
  data : Z;
  color : color_t;
}.

Abbreviation heap := (gmap positive rb_node_t).

Definition set_left (p : ptr) (n : rb_node_t) : rb_node_t :=
  Node p (right n) (parent n) (key n) (data n) (color n).
Definition set_right (p : ptr) (n : rb_node_t) : rb_node_t :=
  Node (left n) p (parent n) (key n) (data n) (color n).
Definition set_parent (p : ptr) (n : rb_node_t) : rb_node_t :=
  Node (left n) (right n) p (key n) (data n) (color n).
Definition set_color (c : color_t) (n : rb_node_t) : rb_node_t :=
  Node (left n) (right n) (parent n) (key n) (data n) c.

(** [*p] and an assignment to a field of [*p]. *)
Definition ld (h : heap) (p : ptr) : outcome rb_node_t :=
  match p with
  | None => Fault NullDeref
  | Some a => match h !! a with Some n => Ok n | None => Fault NullDeref end
  end.

Definition upd (h : heap) (p : ptr) (f : rb_node_t -> rb_node_t) : outcome heap :=
  match p with
  | None => Fault NullDeref
  | Some a => match h !! a with Some n => Ok (<[a := f n]> h) | None => Fault NullDeref end
  end.

(** [!p || p->color == BLACK] *)
Definition black_or_null (h : heap) (p : ptr) : outcome bool :=
  match p with
  | None => Ok true
  | Some _ => n ← ld h p; Ok (bool_decide (color n = BLACK))
  end.

(** ** Rotations *)

Definition rb_rotate_left (h : heap) (node root : ptr) : outcome (heap * ptr) :=
  n ← ld h node;
  let right_ := right n in
  r ← ld h right_;
  h ← upd h node (set_right (left r));
  h ← (if left r is Some _ then
         r ← ld h right_;
         upd h (left r) (set_parent node)
       else Ok h);
  h ← upd h right_ (set_left node);
  n ← ld h node;
  h ← upd h right_ (set_parent (parent n));
  '(h, root) ←
    (if parent n is Some _ then
       p ← ld h (parent n);
       h ← (if decide (node = right p)
            then upd h (parent n) (set_right right_)
            else upd h (parent n) (set_left right_));
       Ok (h, root)
     else Ok (h, right_));
  h ← upd h node (set_parent right_);
  Ok (h, root).

Definition rb_rotate_right (h : heap) (node root : ptr) : outcome (heap * ptr) :=
  n ← ld h node;
  let left_ := left n in
  l ← ld h left_;
  h ← upd h node (set_left (right l));
  h ← (if right l is Some _ then
         l ← ld h left_;
         upd h (right l) (set_parent node)
       else Ok h);
  h ← upd h left_ (set_right node);
  n ← ld h node;
  h ← upd h left_ (set_parent (parent n));
  '(h, root) ←
    (if parent n is Some _ then
       p ← ld h (parent n);
       h ← (if decide (node = right p)
            then upd h (parent n) (set_right left_)
            else upd h (parent n) (set_left left_));
       Ok (h, root)
     else Ok (h, left_));
  h ← upd h node (set_parent left_);
  Ok (h, root).

(** ** Insertion *)

(** [uncle && uncle->color == RED] *)
Definition is_red (h : heap) (p : ptr) : outcome bool :=
  match p with
  | None => Ok false
  | Some _ => n ← ld h p; Ok (bool_decide (color n = RED))
  end.

(** The [while] loop of [rb_insert_rebalance]. *)
Fixpoint rb_insert_rebalance_loop (fuel : nat) (h : heap) (node root : ptr) : outcome (heap * ptr) :=
  match fuel with
  | O => Fault OutOfFuel
  | S fuel =>
      n ← ld h node;
      let parent_ := parent n in
      b ← is_red h parent_;
      if negb b then Ok (h, root)
      else
        p ← ld h parent_;
        let gparent := parent p in
        g ← ld h gparent;
        if decide (parent_ = left g) then
          let uncle := right g in
          b ← is_red h uncle;
          if (b : bool) then
            h ← upd h uncle (set_color BLACK);
            h ← upd h parent_ (set_color BLACK);
            h ← upd h gparent (set_color RED);
            rb_insert_rebalance_loop fuel h gparent root
          else
            p ← ld h parent_;
            '(h, root, parent_, node) ←
              (if decide (right p = node) then
                 '(h, root) ← rb_rotate_left h parent_ root;
                 Ok (h, root, node, parent_)
               else Ok (h, root, parent_, node));
            h ← upd h parent_ (set_color BLACK);
            h ← upd h gparent (set_color RED);
            '(h, root) ← rb_rotate_right h gparent root;
            rb_insert_rebalance_loop fuel h node root
        else
          let uncle := left g in
          b ← is_red h uncle;
          if (b : bool) then
            h ← upd h uncle (set_color BLACK);
            h ← upd h parent_ (set_color BLACK);
            h ← upd h gparent (set_color RED);
            rb_insert_rebalance_loop fuel h gparent root
          else
            p ← ld h parent_;
            '(h, root, parent_, node) ←
              (if decide (left p = node) then
                 '(h, root) ← rb_rotate_right h parent_ root;
                 Ok (h, root, node, parent_)
               else Ok (h, root, parent_, node));
            h ← upd h parent_ (set_color BLACK);
            h ← upd h gparent (set_color RED);
            '(h, root) ← rb_rotate_left h gparent root;
            rb_insert_rebalance_loop fuel h node root
  end.

Definition rb_insert_rebalance (fuel : nat) (h : heap) (node root : ptr) : outcome (heap * ptr) :=
  '(h, root) ← rb_insert_rebalance_loop fuel h node root;
  h ← upd h root (set_color BLACK);
  Ok (h, root).

(** ** Search *)

(** The node found, or [None] and the last node visited ([*save]).  [ret] is an
    [int]: the difference of two keys wraps. *)
Fixpoint rb_search_loop (fuel : nat) (h : heap) (key_ : Z) (node parent_ : ptr)
    : outcome (ptr * ptr) :=
  match node with
  | None => Ok (None, parent_)
  | Some _ =>
      match fuel with
      | O => Fault OutOfFuel
      | S fuel =>
          n ← ld h node;
          let ret := s32 (key n - key_) in
          if 0 <? ret then rb_search_loop fuel h key_ (left n) node
          else if ret <? 0 then rb_search_loop fuel h key_ (right n) node
          else Ok (node, parent_)
      end
  end.

Definition rb_search_auxiliary (fuel : nat) (h : heap) (key_ : Z) (root : ptr) : outcome (ptr * ptr) :=
  rb_search_loop fuel h key_ root None.

Definition rb_search (fuel : nat) (h : heap) (key_ : Z) (root : ptr) : outcome ptr :=
  '(node, _) ← rb_search_auxiliary fuel h key_ root;
  Ok node.

(** [new] is the address [malloc] returns; the fields it does not set are
    indeterminate, [rb_insert] sets them. *)
Definition rb_new_node (h : heap) (new : positive) (key_ data_ : Z) (junk : rb_node_t)
    : heap * ptr :=
  (<[new := Node (left junk) (right junk) (parent junk) key_ data_ (color junk)]> h, Some new).

Definition rb_insert (fuel : nat) (h : heap) (new : positive) (junk : rb_node_t)
    (key_ data_ : Z) (root : ptr) : outcome (heap * ptr) :=
  '(found, parent_) ← rb_search_auxiliary fuel h key_ root;
  if found is Some _ then Ok (h, root)
  else
    let '(h, node) := rb_new_node h new key_ data_ junk in
    h ← upd h node (set_parent parent_);
    h ← upd h node (set_right None);
    h ← upd h node (set_left None);
    h ← upd h node (set_color RED);
    '(h, root) ←
      (if parent_ is Some _ then
         p ← ld h parent_;
         h ← (if key_ <? key p then upd h parent_ (set_left node)
              else upd h parent_ (set_right node));
         Ok (h, root)
       else Ok (h, node));
    rb_insert_rebalance fuel h node root.

(** ** Deletion *)

(** The [while] loop of [rb_erase_rebalance]; returns the [node] it ends with. *)
Fixpoint rb_erase_rebalance_loop (fuel : nat) (h : heap) (node parent_ root : ptr)
    : outcome (heap * ptr * ptr) :=
  match fuel with
  | O => Fault OutOfFuel
  | S fuel =>
      b ← black_or_null h node;
      if negb (b && bool_decide (node <> root)) then Ok (h, node, root)
      else
        p ← ld h parent_;
        if decide (left p = node) then
          let other := right p in
          o ← ld h other;
          '(h, root, other) ←
            (if decide (color o = RED) then
               h ← upd h other (set_color BLACK);
               h ← upd h parent_ (set_color RED);
               '(h, root) ← rb_rotate_left h parent_ root;
               p ← ld h parent_;
               Ok (h, root, right p)
             else Ok (h, root, other));
          o ← ld h other;
          bl ← black_or_null h (left o);
          br ← (if (bl : bool) then black_or_null h (right o) else Ok false);
          if (bl && br)%bool then
            h ← upd h other (set_color RED);
            n ← ld h parent_;
            rb_erase_rebalance_loop fuel h parent_ (parent n) root
          else
            br ← black_or_null h (right o);
            '(h, root, other) ←
              (if (br : bool) then
                 h ← (if left o is Some _ then upd h (left o) (set_color BLACK) else Ok h);
                 h ← upd h other (set_color RED);
                 '(h, root) ← rb_rotate_right h other root;
                 p ← ld h parent_;
                 Ok (h, root, right p)
               else Ok (h, root, other));
            p ← ld h parent_;
            h ← upd h other (set_color (color p));
            h ← upd h parent_ (set_color BLACK);
            o ← ld h other;
            h ← (if right o is Some _ then upd h (right o) (set_color BLACK) else Ok h);
            '(h, root) ← rb_rotate_left h parent_ root;
            Ok (h, root, root)
        else
          let other := left p in
          o ← ld h other;
          '(h, root, other) ←
            (if decide (color o = RED) then
               h ← upd h other (set_color BLACK);
               h ← upd h parent_ (set_color RED);
               '(h, root) ← rb_rotate_right h parent_ root;
               p ← ld h parent_;
               Ok (h, root, left p)
             else Ok (h, root, other));
          o ← ld h other;
          bl ← black_or_null h (left o);
          br ← (if (bl : bool) then black_or_null h (right o) else Ok false);
          if (bl && br)%bool then
            h ← upd h other (set_color RED);
            n ← ld h parent_;
            rb_erase_rebalance_loop fuel h parent_ (parent n) root
          else
            bl ← black_or_null h (left o);
            '(h, root, other) ←
              (if (bl : bool) then
                 h ← (if right o is Some _ then upd h (right o) (set_color BLACK) else Ok h);
                 h ← upd h other (set_color RED);
                 '(h, root) ← rb_rotate_left h other root;
                 p ← ld h parent_;
                 Ok (h, root, left p)
               else Ok (h, root, other));
            p ← ld h parent_;
            h ← upd h other (set_color (color p));
            h ← upd h parent_ (set_color BLACK);
            o ← ld h other;
            h ← (if left o is Some _ then upd h (left o) (set_color BLACK) else Ok h);
            '(h, root) ← rb_rotate_right h parent_ root;
            Ok (h, root, root)
  end.

Definition rb_erase_rebalance (fuel : nat) (h : heap) (node parent_ root : ptr)
    : outcome (heap * ptr) :=
  '(h, node, root) ← rb_erase_rebalance_loop fuel h node parent_ root;
  h ← (if node is Some _ then upd h node (set_color BLACK) else Ok h);
  Ok (h, root).

(** [while ((left=node->left) != NULL) node = left;] *)
Fixpoint leftmost (fuel : nat) (h : heap) (node : ptr) : outcome ptr :=
  match fuel with
  | O => Fault OutOfFuel
  | S fuel =>
      n ← ld h node;
      if left n is Some _ then leftmost fuel h (left n) else Ok node
  end.

(** Make [to] the child of [p] that [from] is; the root when [p] is null. *)
Definition replace_child (h : heap) (p from to root : ptr) : outcome (heap * ptr) :=
  match p with
  | Some _ =>
      n ← ld h p;
      h ← (if decide (left n = from) then upd h p (set_left to) else upd h p (set_right to));
      Ok (h, root)
  | None => Ok (h, to)
  end.

(** Put [child], the only child [node] can have, in the place of [node] below [parent_]. *)
Definition unlink (h : heap) (parent_ node child root : ptr) : outcome (heap * ptr) :=
  h ← (if child is Some _ then upd h child (set_parent parent_) else Ok h);
  replace_child h parent_ node child root.

(** [node] takes over the place, the colour and the children of [old]. *)
Definition take_place (h : heap) (node old root : ptr) : outcome (heap * ptr) :=
  o ← ld h old;
  h ← upd h node (set_parent (parent o));
  h ← upd h node (set_color (color o));
  h ← upd h node (set_right (right o));
  h ← upd h node (set_left (left o));
  '(h, root) ← replace_child h (parent o) old node root;
  o ← ld h old;
  h ← upd h (left o) (set_parent node);
  o ← ld h old;
  h ← (if right o is Some _ then upd h (right o) (set_parent node) else Ok h);
  Ok (h, root).

(** The result of the [printf] for an absent key is not kept. *)
Definition rb_erase (fuel : nat) (h : heap) (key_ : Z) (root : ptr) : outcome (heap * ptr) :=
  node ← rb_search fuel h key_ root;
  match node with
  | None => Ok (h, root)
  | Some old_addr =>
      let old := node in
      n ← ld h node;
      '(h, root, child, parent_, color_) ←
        (if bool_decide (left n <> None) && bool_decide (right n <> None) then
           node ← leftmost fuel h (right n);
           n ← ld h node;
           let child := right n in
           let parent_ := parent n in
           let color_ := color n in
           '(h, root) ← unlink h parent_ node child root;
           n ← ld h node;
           let parent_ := if decide (parent n = old) then node else parent_ in
           '(h, root) ← take_place h node old root;
           Ok (h, root, child, parent_, color_)
         else
           let child := if bool_decide (left n = None) then right n else left n in
           let parent_ := parent n in
           let color_ := color n in
           '(h, root) ← unlink h parent_ node child root;
           Ok (h, root, child, parent_, color_));
      let h := delete old_addr h in
      if decide (color_ = BLACK) then rb_erase_rebalance fuel h child parent_ root
      else Ok (h, root)
  end.

(** ** Trees

    A tree with the addresses of its nodes, and the heap that represents it. *)

Inductive tree :=
| Leaf
| T (a : positive) (c : color_t) (l : tree) (k d : Z) (r : tree).

Definition tptr (t : tree) : ptr := match t with Leaf => None | T a _ _ _ _ _ => Some a end.

Fixpoint repr (h : heap) (par : ptr) (t : tree) : Prop :=
  match t with
  | Leaf => True
  | T a c l k d r =>
      h !! a = Some (Node (tptr l) (tptr r) par k d c) /\
      repr h (Some a) l /\ repr h (Some a) r
  end.

Fixpoint addrs (t : tree) : list positive :=
  match t with
  | Leaf => []
  | T a _ l _ _ r => a :: addrs l ++ addrs r
  end.

(** The pairs in key order. *)
Fixpoint elements (t : tree) : list (Z * Z) :=
  match t with
  | Leaf => []
  | T _ _ l k d r => elements l ++ (k, d) :: elements r
  end.

(** Scenarios: keys inserted in a given order, then erased in another. *)
Definition insert_all (ks : list Z) : outcome (heap * ptr) :=
  foldl (fun st k => '(h, root) ← st;
           rb_insert 40 h (Pos.of_nat (S (Z.to_nat k))) (Node None None None 0 0 RED) k (k * 10) root)
        (Ok (∅, None)) ks.
Definition erase_all (ks : list Z) (st : outcome (heap * ptr)) : outcome (heap * ptr) :=
  foldl (fun st k => '(h, root) ← st; rb_erase 40 h k root) st ks.

(** Read a tree back from the heap. *)
Fixpoint read_tree (fuel : nat) (h : heap) (p : ptr) : option tree :=
  match fuel, p with
  | _, None => Some Leaf
  | O, _ => None
  | S fuel, Some a =>
      n ← h !! a;
      l ← read_tree fuel h (left n);
      r ← read_tree fuel h (right n);
      Some (T a (color n) l (key n) (data n) r)
  end.
