(* ===== verification/RbZipper.v ===== *)
(** * Red-black trees: the heap as a zipper (data_struct/btree/rbtree.c)

    The heap represents a tree (with its parent pointers); a node and its way to
    the root is a zipper.  The rotations and the recolourings of the C code are
    shown to be steps on the zipper; the red-black invariants and the order are
    stated for trees and for contexts. *)

From stdpp Require Import base numbers list gmap sorting.
From S2P Require Import Prelude RbTree.

#[local] Open Scope Z_scope.

(** ** Zippers *)

Inductive frame :=
| FL (a : positive) (c : color_t) (k d : Z) (r : tree)   (* the hole is the left child *)
| FR (a : positive) (c : color_t) (l : tree) (k d : Z).

Definition faddr (f : frame) : positive := match f with FL a _ _ _ _ => a | FR a _ _ _ _ => a end.
Definition fcolor (f : frame) : color_t := match f with FL _ c _ _ _ => c | FR _ c _ _ _ => c end.
Definition fkey (f : frame) : Z := match f with FL _ _ k _ _ => k | FR _ _ _ k _ => k end.

Abbreviation ctx := (list frame).

Definition cptr (K : ctx) : ptr := match K with [] => None | f :: _ => Some (faddr f) end.

Definition plug1 (f : frame) (t : tree) : tree :=
  match f with FL a c k d r => T a c t k d r | FR a c l k d => T a c l k d t end.
Fixpoint plug (K : ctx) (t : tree) : tree :=
  match K with [] => t | f :: K => plug K (plug1 f t) end.

Fixpoint repr_ctx (h : heap) (K : ctx) (q : ptr) : Prop :=
  match K with
  | [] => True
  | FL a c k d r :: K =>
      h !! a = Some (Node q (tptr r) (cptr K) k d c) /\ repr h (Some a) r /\ repr_ctx h K (Some a)
  | FR a c l k d :: K =>
      h !! a = Some (Node (tptr l) q (cptr K) k d c) /\ repr h (Some a) l /\ repr_ctx h K (Some a)
  end.

Definition fsib (f : frame) : tree := match f with FL _ _ _ _ r => r | FR _ _ l _ _ => l end.
Fixpoint caddrs (K : ctx) : list positive :=
  match K with [] => [] | f :: K => faddr f :: addrs (fsib f) ++ caddrs K end.

Definition valid (h : heap) (K : ctx) (t : tree) : Prop :=
  repr_ctx h K (tptr t) /\ repr h (cptr K) t /\ NoDup (caddrs K ++ addrs t).

Lemma tptr_plug1 f t : tptr (plug1 f t) = Some (faddr f).
Proof. by destruct f. Qed.

Lemma repr_plug h K t : repr h None (plug K t) <-> repr_ctx h K (tptr t) /\ repr h (cptr K) t.
Proof.
  revert t. induction K as [|f K IH]; intros t; simpl; [tauto|].
  rewrite IH, tptr_plug1. destruct f; simpl; tauto.
Qed.

Lemma addrs_plug K t : addrs (plug K t) ≡ₚ caddrs K ++ addrs t.
Proof.
  revert t. induction K as [|f K IH]; intros t; [done|]. simpl. rewrite IH.
  destruct f; simpl; solve_Permutation.
Qed.

Lemma valid_plug h K t :
  valid h K t <-> repr h None (plug K t) /\ NoDup (addrs (plug K t)).
Proof. unfold valid. rewrite repr_plug, addrs_plug. tauto. Qed.

(** Moving up and down in a zipper does not change what is represented. *)
Lemma valid_up h f K t : valid h (f :: K) t <-> valid h K (plug1 f t).
Proof. by rewrite !valid_plug. Qed.

(** ** Framing *)

Lemma repr_insert h par t a n : a ∉ addrs t -> repr (<[a := n]> h) par t <-> repr h par t.
Proof.
  revert par. induction t as [|b c l IHl k d r IHr]; intros par Ha; simpl in *; [done|].
  rewrite not_elem_of_cons, not_elem_of_app in Ha. destruct Ha as (Hb & Hl & Hr).
  rewrite lookup_insert_ne by congruence. by rewrite IHl, IHr.
Qed.

Lemma repr_ctx_insert h K q a n :
  a ∉ caddrs K -> repr_ctx (<[a := n]> h) K q <-> repr_ctx h K q.
Proof.
  revert q. induction K as [|f K IH]; intros q Ha; simpl in *; [done|].
  rewrite not_elem_of_cons, not_elem_of_app in Ha. destruct Ha as (Hb & Hl & Hr).
  destruct f; simpl in *; rewrite lookup_insert_ne by congruence; rewrite IH, repr_insert by done; done.
Qed.

Lemma upd_Some h a f n : h !! a = Some n -> upd h (Some a) f = Ok (<[a := f n]> h).
Proof. intros E. simpl. by rewrite E. Qed.

Lemma ld_Some h a n : h !! a = Some n -> ld h (Some a) = Ok n.
Proof. intros E. simpl. by rewrite E. Qed.

(** Split what is known about a represented zipper. *)
Ltac split_valid :=
  repeat match goal with
  | H : valid _ _ _ |- _ => unfold valid in H
  | H : _ /\ _ |- _ => destruct H
  | H : repr_ctx _ (_ :: _) _ |- _ => simpl in H
  | H : repr _ _ (T _ _ _ _ _ _) |- _ => simpl in H
  end.

(** Run straight-line code on a heap whose cells are known. *)
Ltac run_step :=
  first [ erewrite ld_Some by (by simplify_map_eq)
        | erewrite upd_Some by (by simplify_map_eq) ];
  cbn [mbind outcome_bind left right parent key data color set_left set_right set_parent set_color].

(** Two addresses are different because they are two of a list without duplicates. *)
Ltac nodup_split :=
  repeat match goal with
  | H : NoDup (_ :: _) |- _ => apply NoDup_cons in H as [? ?]
  | H : NoDup (_ ++ _) |- _ => apply NoDup_app in H as (? & ? & ?)
  | H : _ ∉ _ :: _ |- _ => apply not_elem_of_cons in H as [? ?]
  | H : _ ∉ _ ++ _ |- _ => apply not_elem_of_app in H as [? ?]
  end.

(** A fact that [nodup_split] leaves alone. *)
Definition keep (P : Prop) : Prop := P.

Ltac mem :=
  rewrite ?elem_of_app, ?elem_of_cons, ?elem_of_app, ?elem_of_cons, ?elem_of_app;
  first [tauto | left; reflexivity | right; left; reflexivity].

(** A cell is outside a subtree or a context. *)
Ltac not_in :=
  first [ assumption
        | lazymatch goal with |- ?p ∉ _ =>
            intros ?;
            match goal with H : forall x, x ∈ _ -> x ∉ _ |- _ => apply (H p); mem end
          end ].

Lemma tptr_in t a : tptr t = Some a -> a ∈ addrs t.
Proof. destruct t; simpl; [done|]. intros [= ->]. by left. Qed.

Lemma tptr_ne t a : a ∉ addrs t -> Some a <> tptr t.
Proof. intros Ha E. apply Ha, tptr_in. done. Qed.

(** The root's address depends only on the address at the hole. *)
Lemma tptr_plug K t t' : tptr t = tptr t' -> tptr (plug K t) = tptr (plug K t').
Proof.
  destruct K as [|f K]; [done|]. intros _. simpl.
  revert f t t'. induction K as [|g K IH]; intros f t t'; simpl; [by rewrite !tptr_plug1|]. apply IH.
Qed.

(** Prove that the heap represents a zipper again. *)
Ltac revalid Hnd :=
  split; [|split]; simpl;
  [ repeat split; try (by simplify_map_eq); rewrite ?repr_insert, ?repr_ctx_insert by not_in; done
  | repeat split; try (by simplify_map_eq); rewrite ?repr_insert by not_in; done
  | refine (proj1 (NoDup_Permutation_proper _ _ _) Hnd); simpl; solve_Permutation ].

Ltac decide_ptr :=
  match goal with
  | |- context [decide (Some ?x = tptr ?t)] => rewrite (decide_False (P := Some x = tptr t)) by (apply tptr_ne; not_in)
  | |- context [decide (?x = ?x)] => rewrite (decide_True (P := x = x)) by done
  | |- context [decide (Some ?x = Some ?y)] => rewrite (decide_False (P := Some x = Some y)) by congruence
  end; cbn [mbind outcome_bind].

(** A rotation, by the shape of what hangs below and above it. *)
Ltac rotate_proof K b op :=
  intros Hv;
  match type of Hv with valid _ _ ?t => assert (Hnd : keep (NoDup (caddrs K ++ addrs t))) by apply Hv end;
  destruct K as [|[pa pc pk pd pr|pa pc pl pk pd] K]; destruct b as [|z cz zl zk zd zr];
    split_valid; simpl in *; nodup_split; unfold op; repeat (run_step || decide_ptr);
    (eexists; split; [do 2 f_equal; by (reflexivity || apply tptr_plug)
     | match goal with Hnd : keep _ |- _ => revalid Hnd end]).

Lemma rotate_left_spec h K x cx a kx dx y cy b ky dy c :
  valid h K (T x cx a kx dx (T y cy b ky dy c)) ->
  exists h', rb_rotate_left h (Some x) (tptr (plug K (T x cx a kx dx (T y cy b ky dy c)))) =
    Ok (h', tptr (plug K (T y cy (T x cx a kx dx b) ky dy c))) /\
    valid h' K (T y cy (T x cx a kx dx b) ky dy c).
Proof. rotate_proof K b rb_rotate_left. Qed.

Lemma rotate_right_spec h K x cx a kx dx y cy b ky dy c :
  valid h K (T y cy (T x cx a kx dx b) ky dy c) ->
  exists h', rb_rotate_right h (Some y) (tptr (plug K (T y cy (T x cx a kx dx b) ky dy c))) =
    Ok (h', tptr (plug K (T x cx a kx dx (T y cy b ky dy c)))) /\
    valid h' K (T x cx a kx dx (T y cy b ky dy c)).
Proof. rotate_proof K b rb_rotate_right. Qed.

(** ** Operations at the focus *)

Lemma valid_refocus h K t K' t' : plug K t = plug K' t' -> valid h K t -> valid h K' t'.
Proof. rewrite !valid_plug. by intros ->. Qed.

Lemma focus_ld h K a c l k d r :
  valid h K (T a c l k d r) -> h !! a = Some (Node (tptr l) (tptr r) (cptr K) k d c).
Proof. intros (_ & Hr & _). apply Hr. Qed.

Lemma focus_color h K a c c' l k d r :
  valid h K (T a c l k d r) ->
  exists h', upd h (Some a) (set_color c') = Ok h' /\ valid h' K (T a c' l k d r).
Proof.
  intros Hv. assert (Hnd : keep (NoDup (caddrs K ++ addrs (T a c l k d r)))) by apply Hv.
  split_valid. cbn [addrs tptr] in *. nodup_split. run_step. eexists. split; [reflexivity|].
  split; [|split]; simpl; [rewrite repr_ctx_insert by not_in; done | | exact Hnd].
  repeat split; [by simplify_map_eq | rewrite repr_insert by not_in; done..].
Qed.

Definition tcolor (t : tree) : color_t := match t with Leaf => BLACK | T _ c _ _ _ _ => c end.
Definition blacken (t : tree) : tree :=
  match t with Leaf => Leaf | T a _ l k d r => T a BLACK l k d r end.

Lemma focus_is_red h K t : valid h K t -> is_red h (tptr t) = Ok (bool_decide (tcolor t = RED)).
Proof.
  destruct t as [|a c l k d r]; intros Hv; [done|]. unfold is_red. cbn [tptr].
  rewrite (ld_Some _ _ _ (focus_ld _ _ _ _ _ _ _ _ Hv)). done.
Qed.

(** ** The red-black invariants

    [rbt c n t]: root colour [c], black height [n], no red node with a red child. *)

Inductive rbt : color_t -> nat -> tree -> Prop :=
| rbt_leaf : rbt BLACK 0 Leaf
| rbt_red a l k d r n : rbt BLACK n l -> rbt BLACK n r -> rbt RED n (T a RED l k d r)
| rbt_black a l k d r n cl cr :
    rbt cl n l -> rbt cr n r -> rbt BLACK (S n) (T a BLACK l k d r).

(** [rbc c n K]: the context takes a tree of black height [n]; [c] is the colour
    above the hole.  A red frame is never the root. *)
Inductive rbc : color_t -> nat -> ctx -> Prop :=
| rbc_nil n : rbc BLACK n []
| rbc_red f K n : fcolor f = RED -> rbt BLACK n (fsib f) -> rbc BLACK n K -> K <> [] -> rbc RED n (f :: K)
| rbc_black f K n cs c :
    fcolor f = BLACK -> rbt cs n (fsib f) -> rbc c (S n) K -> rbc BLACK n (f :: K).

Lemma rbt_color c n t : rbt c n t -> tcolor t = c.
Proof. by inversion 1. Qed.

Lemma rbt_blacken c n t : rbt c n t -> exists m, rbt BLACK m (blacken t).
Proof. inversion 1; subst; simpl; eexists; by econstructor. Qed.

Lemma rbt_plug1 f n c t :
  rbt c n t ->
  (fcolor f = BLACK -> forall cs, rbt cs n (fsib f) -> rbt BLACK (S n) (plug1 f t)) /\
  (fcolor f = RED -> c = BLACK -> rbt BLACK n (fsib f) -> rbt RED n (plug1 f t)).
Proof.
  intros Ht. destruct f; simpl; split; intros ->; [|intros ->| |intros ->]; intros; by econstructor.
Qed.

(** A tree that fits plugged in. *)
Lemma rbt_plug K c n ck t :
  rbc ck n K -> rbt c n t -> (ck = RED -> c = BLACK) -> exists c' m, rbt c' m (plug K t).
Proof.
  intros Hk. revert c t. induction Hk as [n|f K n Hf Hs Hk IH Hne|f K n cs c' Hf Hs Hk IH];
    intros c t Ht Hc.
  - by exists c, n.
  - simpl. eapply IH; [|done]. by apply (proj2 (rbt_plug1 f n c t Ht)); auto.
  - simpl. eapply IH; [|done]. by eapply (proj1 (rbt_plug1 f n c t Ht)).
Qed.

(** ** Order *)

Fixpoint cleft (K : ctx) : list (Z * Z) :=
  match K with
  | [] => []
  | FL _ _ _ _ _ :: K => cleft K
  | FR _ _ l k d :: K => cleft K ++ elements l ++ [(k, d)]
  end.
Fixpoint cright (K : ctx) : list (Z * Z) :=
  match K with
  | [] => []
  | FL _ _ k d r :: K => (k, d) :: elements r ++ cright K
  | FR _ _ _ _ _ :: K => cright K
  end.

Lemma elements_plug K t : elements (plug K t) = cleft K ++ elements t ++ cright K.
Proof.
  revert t. induction K as [|[a c k d r|a c l k d] K IH]; intros t; simpl.
  - by rewrite app_nil_r.
  - rewrite IH. simpl. by rewrite <- app_assoc.
  - rewrite IH. simpl. by rewrite <- !app_assoc.
Qed.

Lemma elements_blacken t : elements (blacken t) = elements t.
Proof. by destruct t. Qed.
