(* ===== verification/RbInsert.v ===== *)
(** * Red-black trees: search and insertion (data_struct/btree/rbtree.c)

    [rb_search] and [rb_insert] refine lookup and insert-if-absent in a finite
    map, keep the red-black invariants, and a search takes at most
    2 log2 (n + 1) steps. *)

From stdpp Require Import base numbers list gmap sorting.
From S2P Require Import Prelude RbTree RbZipper.

#[local] Open Scope Z_scope.

(** ** Rebalancing *)

(** What the loop leaves behind. *)
Definition rebalanced (h' : heap) (t0 t' : tree) : Prop :=
  valid h' [] t' /\ addrs t' ≡ₚ addrs t0 /\ elements t' = elements t0 /\ exists c m, rbt c m t'.

Lemma sibling_ne h f a c u k d K t :
  valid h (f :: FR a c u k d :: K) t -> Some (faddr f) <> tptr u.
Proof.
  intros (_ & _ & Hnd). simpl in Hnd. nodup_split. apply tptr_ne. not_in.
Qed.

(** The loop stops when there is no red parent. *)
Lemma rebalance_stop fuel h K t c n ck :
  valid h K t -> t <> Leaf -> rbt c n t -> rbc ck n K -> ck = BLACK ->
  exists h' t', rb_insert_rebalance_loop (S fuel) h (tptr t) (tptr (plug K t)) = Ok (h', tptr t') /\
                rebalanced h' (plug K t) t'.
Proof.
  intros Hv Ht Hr Hk ->. destruct t as [|a ct l k d r]; [done|].
  exists h, (plug K (T a ct l k d r)). split.
  - cbn [rb_insert_rebalance_loop tptr].
    rewrite (ld_Some _ _ _ (focus_ld _ _ _ _ _ _ _ _ Hv)). cbn [mbind outcome_bind parent].
    destruct K as [|f K]; [done|].
    pose proof (focus_is_red h K (plug1 f (T a ct l k d r)) (proj1 (valid_up _ _ _ _) Hv)) as E.
    rewrite tptr_plug1 in E. cbn [cptr]. rewrite E. cbn [mbind outcome_bind].
    inversion Hk; subst. by destruct f; simpl in *; subst.
  - split; [|split; [done|split; [done|]]].
    + by apply (valid_refocus _ K (T a ct l k d r)).
    + by eapply rbt_plug.
Qed.

Definition fblack (f : frame) : frame :=
  match f with FL a _ k d r => FL a BLACK k d r | FR a _ l k d => FR a BLACK l k d end.

(** Read the cells the loop body looks at. *)
Ltac cells Hv :=
  let H1 := fresh "Hn" in let H2 := fresh "Hp" in let H3 := fresh "Hg" in
  pose proof (focus_ld _ _ _ _ _ _ _ _ Hv) as H1;
  pose proof (focus_ld _ _ _ _ _ _ _ _ (proj1 (valid_up _ _ _ _) Hv)) as H2;
  pose proof (focus_ld _ _ _ _ _ _ _ _
                (proj1 (valid_up _ _ _ _) (proj1 (valid_up _ _ _ _) Hv))) as H3;
  cbn [cptr faddr tptr plug1] in H1, H2, H3.

(** Uncle red: recolour and go on at the grandparent. *)
Lemma rebalance_uncle_red fuel h f g K a l k d r root :
  valid h (f :: g :: K) (T a RED l k d r) -> fcolor f = RED -> tcolor (fsib g) = RED ->
  exists h' t',
    rb_insert_rebalance_loop (S fuel) h (Some a) root =
      rb_insert_rebalance_loop fuel h' (Some (faddr g)) root /\
    valid h' K t' /\
    t' = match g with
         | FL ga _ gk gd u => T ga RED (plug1 (fblack f) (T a RED l k d r)) gk gd (blacken u)
         | FR ga _ u gk gd => T ga RED (blacken u) gk gd (plug1 (fblack f) (T a RED l k d r))
         end.
Proof.
  intros Hv Hf Hu. set (t := T a RED l k d r) in *.
  destruct (fsib g) as [|ua uc ul uk ud ur] eqn:Eu; [done|]. simpl in Hu. subst uc.
  (* the three recolourings *)
  assert (Hvu : exists f', valid h (f' :: K) (T ua RED ul uk ud ur) /\
            f' = match g with
                 | FL ga gc gk gd _ => FR ga gc (plug1 f t) gk gd
                 | FR ga gc _ gk gd => FL ga gc gk gd (plug1 f t)
                 end).
  { eexists. split; [|reflexivity]. apply (valid_refocus _ (f :: g :: K) t); [|done].
    destruct g; simpl in Eu; subst; done. }
  destruct Hvu as (f' & Hvu & Ef').
  destruct (focus_color h (f' :: K) ua RED BLACK ul uk ud ur Hvu) as (h1 & E1 & V1).
  assert (V1' : valid h1 (match g with
                  | FL ga gc gk gd _ => FL ga gc gk gd (T ua BLACK ul uk ud ur)
                  | FR ga gc _ gk gd => FR ga gc (T ua BLACK ul uk ud ur) gk gd end :: K) (plug1 f t)).
  { eapply valid_refocus; [|exact V1]. subst f'. by destruct g. }
  assert (Hpf : plug1 f t = match f with FL pa _ pk pd s => T pa RED t pk pd s
                                      | FR pa _ s pk pd => T pa RED s pk pd t end)
    by (destruct f; simpl in *; by subst).
  assert (E2 : exists h2, upd h1 (Some (faddr f)) (set_color BLACK) = Ok h2 /\
            valid h2 (match g with
                  | FL ga gc gk gd _ => FL ga gc gk gd (T ua BLACK ul uk ud ur)
                  | FR ga gc _ gk gd => FR ga gc (T ua BLACK ul uk ud ur) gk gd end :: K)
                  (plug1 (fblack f) t)).
  { rewrite Hpf in V1'. destruct f; simpl in *; by apply (focus_color _ _ _ RED). }
  destruct E2 as (h2 & E2 & V2).
  assert (E3 : exists h3, upd h2 (Some (faddr g)) (set_color RED) = Ok h3 /\
            valid h3 K (match g with
                        | FL ga _ gk gd _ => T ga RED (plug1 (fblack f) t) gk gd (T ua BLACK ul uk ud ur)
                        | FR ga _ _ gk gd => T ga RED (T ua BLACK ul uk ud ur) gk gd (plug1 (fblack f) t)
                        end)).
  { apply (proj1 (valid_up _ _ _ _)) in V2. destruct g; simpl in *; by eapply focus_color. }
  destruct E3 as (h3 & E3 & V3). exists h3. eexists. split; [|split; [exact V3|]].
  - cbn [rb_insert_rebalance_loop]. rewrite (ld_Some _ _ _ (focus_ld _ _ _ _ _ _ _ _ Hv)).
    cbn [mbind outcome_bind parent cptr].
    pose proof (focus_is_red h (g :: K) (plug1 f t) (proj1 (valid_up _ _ _ _) Hv)) as Er.
    rewrite tptr_plug1 in Er. rewrite Er. cbn [mbind outcome_bind].
    rewrite bool_decide_true by (rewrite Hpf; by destruct f). cbn [negb].
    pose proof (proj1 (valid_up _ _ _ _) Hv) as Hvp. rewrite Hpf in Hvp.
    assert (Lp : exists p, ld h (Some (faddr f)) = Ok p /\ parent p = Some (faddr g)).
    { destruct f; (eexists; split; [apply ld_Some; by eapply focus_ld | done]). }
    destruct Lp as (p & -> & Pp). cbn [mbind outcome_bind]. rewrite Pp.
    pose proof (proj1 (valid_up _ _ _ _) (proj1 (valid_up _ _ _ _) Hv)) as Hvg.
    pose proof (focus_is_red h _ _ Hvu) as Eu2. cbn [tptr tcolor] in Eu2.
    destruct g as [ga gc gk gd u|ga gc u gk gd]; simpl in Eu; subst u; cbn [faddr plug1] in *.
    + rewrite (ld_Some _ _ _ (focus_ld _ _ _ _ _ _ _ _ Hvg)). cbn [mbind outcome_bind left right].
      rewrite tptr_plug1, decide_True by done. cbn [tptr]. rewrite Eu2. cbn [mbind outcome_bind].
      rewrite bool_decide_true by done. rewrite E1. cbn [mbind outcome_bind]. rewrite E2.
      cbn [mbind outcome_bind]. rewrite E3. done.
    + rewrite (ld_Some _ _ _ (focus_ld _ _ _ _ _ _ _ _ Hvg)). cbn [mbind outcome_bind left right].
      rewrite decide_False by (by eapply sibling_ne). cbn [tptr]. rewrite Eu2. cbn [mbind outcome_bind].
      rewrite bool_decide_true by done. rewrite E1. cbn [mbind outcome_bind]. rewrite E2.
      cbn [mbind outcome_bind]. rewrite E3. done.
  - destruct g; simpl in Eu; by subst.
Qed.

(** Parent black, grandparent red, rotate the grandparent away. *)
Lemma tail_right h K p pc pl pk pd pr ga gc gk gd u :
  valid h (FL ga gc gk gd u :: K) (T p pc pl pk pd pr) ->
  exists h1 h2 h',
    upd h (Some p) (set_color BLACK) = Ok h1 /\ upd h1 (Some ga) (set_color RED) = Ok h2 /\
    rb_rotate_right h2 (Some ga) (tptr (plug (FL ga gc gk gd u :: K) (T p pc pl pk pd pr))) =
      Ok (h', tptr (plug K (T p BLACK pl pk pd (T ga RED pr gk gd u)))) /\
    valid h' K (T p BLACK pl pk pd (T ga RED pr gk gd u)).
Proof.
  intros Hv. destruct (focus_color _ _ _ _ BLACK _ _ _ _ Hv) as (h1 & E1 & V1).
  apply (proj1 (valid_up _ _ _ _)) in V1. cbn [plug1] in V1.
  destruct (focus_color _ _ _ _ RED _ _ _ _ V1) as (h2 & E2 & V2).
  destruct (rotate_right_spec _ _ _ _ _ _ _ _ _ _ _ _ _ V2) as (h' & E3 & V3).
  exists h1, h2, h'. split; [done|]. split; [done|]. split; [|done]. rewrite <- E3.
  f_equal. simpl. by apply tptr_plug.
Qed.

Lemma tail_left h K p pc pl pk pd pr ga gc gk gd u :
  valid h (FR ga gc u gk gd :: K) (T p pc pl pk pd pr) ->
  exists h1 h2 h',
    upd h (Some p) (set_color BLACK) = Ok h1 /\ upd h1 (Some ga) (set_color RED) = Ok h2 /\
    rb_rotate_left h2 (Some ga) (tptr (plug (FR ga gc u gk gd :: K) (T p pc pl pk pd pr))) =
      Ok (h', tptr (plug K (T p BLACK (T ga RED u gk gd pl) pk pd pr))) /\
    valid h' K (T p BLACK (T ga RED u gk gd pl) pk pd pr).
Proof.
  intros Hv. destruct (focus_color _ _ _ _ BLACK _ _ _ _ Hv) as (h1 & E1 & V1).
  apply (proj1 (valid_up _ _ _ _)) in V1. cbn [plug1] in V1.
  destruct (focus_color _ _ _ _ RED _ _ _ _ V1) as (h2 & E2 & V2).
  destruct (rotate_left_spec _ _ _ _ _ _ _ _ _ _ _ _ _ V2) as (h' & E3 & V3).
  exists h1, h2, h'. split; [done|]. split; [done|]. split; [|done]. rewrite <- E3.
  f_equal. simpl. by apply tptr_plug.
Qed.

(** What the rotations make of parent, grandparent and node. *)
Definition rotated (f g : frame) (a : positive) (l : tree) (k d : Z) (r : tree) : frame * tree :=
  match g, f with
  | FL ga _ gk gd u, FL pa _ pk pd s =>
      (FL pa BLACK pk pd (T ga RED s gk gd u), T a RED l k d r)
  | FL ga _ gk gd u, FR pa _ s pk pd =>
      (FL a BLACK k d (T ga RED r gk gd u), T pa RED s pk pd l)
  | FR ga _ u gk gd, FR pa _ s pk pd =>
      (FR pa BLACK (T ga RED u gk gd s) pk pd, T a RED l k d r)
  | FR ga _ u gk gd, FL pa _ pk pd s =>
      (FR a BLACK (T ga RED u gk gd l) k d, T pa RED r pk pd s)
  end.

Lemma child_ne h f K t a : valid h (f :: K) t -> tptr t = Some a -> tptr (fsib f) <> Some a.
Proof.
  intros (_ & _ & Hnd) Ht E. apply tptr_in in Ht, E. simpl in Hnd. nodup_split.
  match goal with H : forall x, x ∈ _ -> x ∉ addrs t |- _ => apply (H a) end; [|done].
  rewrite elem_of_app. by left.
Qed.

(** The part of the loop body before the uncle's colour is known. *)
Lemma rebalance_head fuel h f g K a l k d r root :
  valid h (f :: g :: K) (T a RED l k d r) -> fcolor f = RED -> tcolor (fsib g) = BLACK ->
  rb_insert_rebalance_loop (S fuel) h (Some a) root =
    match g with
    | FL _ _ _ _ _ =>
        '(h, root, parent_, node) ←
          (if f is FR _ _ _ _ _ then
             '(h, root) ← rb_rotate_left h (Some (faddr f)) root;
             Ok (h, root, Some a, Some (faddr f))
           else Ok (h, root, Some (faddr f), Some a));
        h ← upd h parent_ (set_color BLACK);
        h ← upd h (Some (faddr g)) (set_color RED);
        '(h, root) ← rb_rotate_right h (Some (faddr g)) root;
        rb_insert_rebalance_loop fuel h node root
    | FR _ _ _ _ _ =>
        '(h, root, parent_, node) ←
          (if f is FL _ _ _ _ _ then
             '(h, root) ← rb_rotate_right h (Some (faddr f)) root;
             Ok (h, root, Some a, Some (faddr f))
           else Ok (h, root, Some (faddr f), Some a));
        h ← upd h parent_ (set_color BLACK);
        h ← upd h (Some (faddr g)) (set_color RED);
        '(h, root) ← rb_rotate_left h (Some (faddr g)) root;
        rb_insert_rebalance_loop fuel h node root
    end.
Proof.
  intros Hv Hf Hu. pose proof (child_ne h f (g :: K) _ a Hv eq_refl) as Hne.
  assert (Hvu : exists f', valid h (f' :: K) (fsib g)).
  { exists (match g with FL ga gc gk gd _ => FR ga gc (plug1 f (T a RED l k d r)) gk gd
                       | FR ga gc _ gk gd => FL ga gc gk gd (plug1 f (T a RED l k d r)) end).
    apply (valid_refocus _ (f :: g :: K) (T a RED l k d r)); [by destruct g | done]. }
  destruct Hvu as [f' Hvu]. pose proof (focus_is_red h _ _ Hvu) as Eu.
  rewrite bool_decide_false in Eu by (by rewrite Hu).
  pose proof (sibling_ne h f) as Hsib.
  pose proof (focus_is_red h (g :: K) _ (proj1 (valid_up _ _ _ _) Hv)) as Er.
  rewrite tptr_plug1, bool_decide_true in Er by (by destruct f).
  cbn [rb_insert_rebalance_loop].
  destruct f as [pa pc pk pd s|pa pc s pk pd], g as [ga gc gk gd u|ga gc u gk gd]; cells Hv;
    simpl in Hne, Hf; subst pc; cbn [faddr fsib] in *;
    rewrite (ld_Some _ _ _ Hn); cbn [mbind outcome_bind parent]; rewrite Er;
    cbn [mbind outcome_bind negb]; rewrite (ld_Some _ _ _ Hp); cbn [mbind outcome_bind parent];
    rewrite (ld_Some _ _ _ Hg); cbn [mbind outcome_bind left right].
  - rewrite decide_True by done. rewrite Eu. cbn [mbind outcome_bind]. by rewrite decide_False.
  - rewrite decide_False by (by eapply Hsib). rewrite Eu. cbn [mbind outcome_bind].
    by rewrite decide_True.
  - rewrite decide_True by done. rewrite Eu. cbn [mbind outcome_bind]. by rewrite decide_True.
  - rewrite decide_False by (by eapply Hsib). rewrite Eu. cbn [mbind outcome_bind].
    by rewrite decide_False.
Qed.

(** Uncle black: one or two rotations, and the next turn stops. *)
Lemma rebalance_uncle_black fuel h f g K a l k d r :
  valid h (f :: g :: K) (T a RED l k d r) -> fcolor f = RED -> tcolor (fsib g) = BLACK ->
  let '(f2, t2) := rotated f g a l k d r in
  exists h',
    rb_insert_rebalance_loop (S fuel) h (Some a) (tptr (plug (f :: g :: K) (T a RED l k d r))) =
      rb_insert_rebalance_loop fuel h' (tptr t2) (tptr (plug (f2 :: K) t2)) /\
    valid h' (f2 :: K) t2.
Proof.
  intros Hv Hf Hu. rewrite (rebalance_head _ _ _ _ _ _ _ _ _ _ _ Hv Hf Hu).
  destruct f as [pa pc pk pd s|pa pc s pk pd], g as [ga gc gk gd u|ga gc u gk gd];
    simpl in Hf; subst pc; cbn [rotated faddr].
  - apply (proj1 (valid_up _ _ _ _)) in Hv. cbn [plug1] in Hv. cbn [mbind outcome_bind].
    destruct (tail_right _ _ _ _ _ _ _ _ _ _ _ _ _ Hv) as (h1 & h2 & h3 & E1 & E2 & E3 & V3).
    rewrite E1. cbn [mbind outcome_bind]. rewrite E2. cbn [mbind outcome_bind plug plug1] in E3 |- *.
    rewrite E3. cbn [mbind outcome_bind]. exists h3. split; [done|].
    by apply (proj2 (valid_up _ _ _ _)).
  - apply (proj1 (valid_up _ _ _ _)) in Hv. cbn [plug1] in Hv.
    destruct (rotate_right_spec _ _ _ _ _ _ _ _ _ _ _ _ _ Hv) as (h0 & E0 & V0).
    cbn [plug plug1] in E0 |- *. rewrite E0. cbn [mbind outcome_bind].
    destruct (tail_left _ _ _ _ _ _ _ _ _ _ _ _ _ V0) as (h1 & h2 & h3 & E1 & E2 & E3 & V3).
    rewrite E1. cbn [mbind outcome_bind]. rewrite E2. cbn [mbind outcome_bind plug plug1] in E3 |- *.
    rewrite E3. cbn [mbind outcome_bind]. exists h3. split; [done|].
    by apply (proj2 (valid_up _ _ _ _)).
  - apply (proj1 (valid_up _ _ _ _)) in Hv. cbn [plug1] in Hv.
    destruct (rotate_left_spec _ _ _ _ _ _ _ _ _ _ _ _ _ Hv) as (h0 & E0 & V0).
    cbn [plug plug1] in E0 |- *. rewrite E0. cbn [mbind outcome_bind].
    destruct (tail_right _ _ _ _ _ _ _ _ _ _ _ _ _ V0) as (h1 & h2 & h3 & E1 & E2 & E3 & V3).
    rewrite E1. cbn [mbind outcome_bind]. rewrite E2. cbn [mbind outcome_bind plug plug1] in E3 |- *.
    rewrite E3. cbn [mbind outcome_bind]. exists h3. split; [done|].
    by apply (proj2 (valid_up _ _ _ _)).
  - apply (proj1 (valid_up _ _ _ _)) in Hv. cbn [plug1] in Hv. cbn [mbind outcome_bind].
    destruct (tail_left _ _ _ _ _ _ _ _ _ _ _ _ _ Hv) as (h1 & h2 & h3 & E1 & E2 & E3 & V3).
    rewrite E1. cbn [mbind outcome_bind]. rewrite E2. cbn [mbind outcome_bind plug plug1] in E3 |- *.
    rewrite E3. cbn [mbind outcome_bind]. exists h3. split; [done|].
    by apply (proj2 (valid_up _ _ _ _)).
Qed.

(** ** The whole loop *)

Lemma rotated_ok f g a l k d r n :
  fcolor f = RED -> fcolor g = BLACK -> rbt BLACK n l -> rbt BLACK n r ->
  rbt BLACK n (fsib f) -> rbt BLACK n (fsib g) ->
  let '(f2, t2) := rotated f g a l k d r in
  fcolor f2 = BLACK /\ (exists cs, rbt cs n (fsib f2)) /\ rbt RED n t2 /\ t2 <> Leaf /\
  elements (plug1 f2 t2) = elements (plug1 g (plug1 f (T a RED l k d r))) /\
  addrs (plug1 f2 t2) ≡ₚ addrs (plug1 g (plug1 f (T a RED l k d r))).
Proof.
  intros Hf Hg Hl Hr Hsf Hsg.
  destruct f as [pa pc pk pd s|pa pc s pk pd], g as [ga gc gk gd u|ga gc u gk gd]; simpl in *;
    (split; [done|]); (split; [eexists; by econstructor|]); (split; [by econstructor|]);
    (split; [done|]); split; try solve_Permutation.
  all: rewrite <- ?app_assoc; simpl; rewrite <- ?app_assoc; done.
Qed.

Lemma addrs_blacken t : addrs (blacken t) = addrs t.
Proof. by destruct t. Qed.

Lemma elements_plug_ext K t t' : elements t = elements t' -> elements (plug K t) = elements (plug K t').
Proof. intros E. by rewrite !elements_plug, E. Qed.

Lemma addrs_plug_ext K t t' : addrs t ≡ₚ addrs t' -> addrs (plug K t) ≡ₚ addrs (plug K t').
Proof. intros E. by rewrite !addrs_plug, E. Qed.

Lemma rebalance_loop fuel K : forall h a l k d r n ck,
  (length K + 2 <= fuel)%nat ->
  valid h K (T a RED l k d r) -> rbt RED n (T a RED l k d r) -> rbc ck n K ->
  exists h' t',
    rb_insert_rebalance_loop fuel h (Some a) (tptr (plug K (T a RED l k d r))) = Ok (h', tptr t') /\
    rebalanced h' (plug K (T a RED l k d r)) t'.
Proof.
  revert K. induction (lt_wf fuel) as [fuel _ IH]. intros K h a l k d r n ck Hfuel Hv Hr Hk.
  destruct fuel as [|fuel]; [lia|].
  destruct ck; [|by apply (rebalance_stop fuel h K (T a RED l k d r) RED n BLACK)].
  inversion Hk as [|f K1 n' Hf Hsf Hk1 Hne|]; subst. destruct K1 as [|g K1]; [done|].
  inversion Hk1 as [| |g' K1' n' cs ck1 Hg Hsg Hk2]; subst.
  inversion Hr as [|? ? ? ? ? ? Hl Hrr|]; subst. simpl in Hfuel.
  destruct cs.
  - destruct (rebalance_uncle_red fuel h f g K1 a l k d r
                (tptr (plug (f :: g :: K1) (T a RED l k d r))) Hv Hf (rbt_color _ _ _ Hsg))
      as (h' & t' & E & V & Et').
    rewrite E.
    assert (Ht' : exists l' k' d' r', t' = T (faddr g) RED l' k' d' r').
    { subst t'. destruct g; do 4 eexists; done. }
    destruct Ht' as (l' & k' & d' & r' & Ht').
    assert (Hb : rbt BLACK (S n) (plug1 (fblack f) (T a RED l k d r))).
    { destruct f; simpl in *; by econstructor. }
    assert (Hub : rbt BLACK (S n) (blacken (fsib g))) by (inversion Hsg; subst; simpl; by econstructor).
    assert (Hrt : rbt RED (S n) t') by (subst t'; destruct g; simpl in *; by econstructor).
    assert (Hel : elements t' = elements (plug1 g (plug1 f (T a RED l k d r)))).
    { rewrite Et'. destruct f, g; simpl; by rewrite elements_blacken. }
    assert (Had : addrs t' ≡ₚ addrs (plug1 g (plug1 f (T a RED l k d r)))).
    { rewrite Et'. destruct f, g; simpl; by rewrite addrs_blacken. }
    rewrite Ht' in V, Hrt.
    destruct (IH fuel ltac:(lia) K1 h' (faddr g) l' k' d' r' (S n) ck1) as (h2 & t2 & E2 & (V2 & A2 & L2 & R2));
      try done; [lia|].
    exists h2, t2. split.
    + rewrite <- E2. f_equal. simpl. apply tptr_plug. by rewrite tptr_plug1.
    + split; [done|]. split; [|split; [|done]].
      * rewrite A2. simpl. apply addrs_plug_ext. by rewrite <- Ht'.
      * rewrite L2. simpl. apply elements_plug_ext. by rewrite <- Ht'.
  - pose proof (rotated_ok f g a l k d r n Hf Hg Hl Hrr Hsf Hsg) as Hrot.
    pose proof (rebalance_uncle_black fuel h f g K1 a l k d r Hv Hf (rbt_color _ _ _ Hsg)) as Hstep.
    destruct (rotated f g a l k d r) as [f2 t2].
    destruct Hrot as (Hf2 & [cs Hs2] & Ht2 & Hne2 & El & Ad). destruct Hstep as (h' & E & V). rewrite E.
    destruct fuel as [|fuel]; [lia|].
    destruct (rebalance_stop fuel h' (f2 :: K1) t2 RED n BLACK) as (h3 & t3 & E3 & (V3 & A3 & L3 & R3));
      try done; [by econstructor|].
    exists h3, t3. split; [done|]. split; [done|]. split; [|split; [|done]].
    + rewrite A3. simpl. by apply addrs_plug_ext.
    + rewrite L3. simpl. by apply elements_plug_ext.
Qed.

(** ** Order and search *)

Definition klt (p q : Z * Z) : Prop := fst p < fst q.
Definition sorted (l : list (Z * Z)) : Prop := StronglySorted klt l.

(** Keys whose differences do not overflow an [int]. *)
Definition key_ok (k : Z) : Prop := - 2 ^ 30 <= k < 2 ^ 30.

Lemma s32_diff k k' : key_ok k -> key_ok k' -> s32 (k - k') = k - k'.
Proof.
  unfold key_ok, s32. change (2 ^ 30) with 1073741824. intros H1 H2.
  rewrite Z.mod_small by lia. lia.
Qed.

Fixpoint height (t : tree) : nat :=
  match t with Leaf => O | T _ _ l _ _ r => S (Nat.max (height l) (height r)) end.

(** The hole of [K] is where [k] belongs. *)
Definition located (k : Z) (K : ctx) : Prop :=
  Forall (fun p => fst p < k) (cleft K) /\ Forall (fun p => k < fst p) (cright K).

Lemma sorted_node l k d r :
  sorted (l ++ (k, d) :: r) ->
  Forall (fun p => fst p < k) l /\ Forall (fun p => k < fst p) r.
Proof.
  intros Hs. apply StronglySorted_app in Hs as (Hlr & _ & Hr). split.
  - apply Forall_forall. intros p Hp. apply (Hlr p (k, d) Hp). by left.
  - inversion Hr; subst. done.
Qed.

(** The node with the key, or the place where it belongs. *)
Lemma search_zipper fuel : forall h key_ t K,
  valid h K t -> (height t <= fuel)%nat -> sorted (elements t) ->
  Forall (fun p => key_ok (fst p)) (elements t) -> key_ok key_ -> located key_ K ->
  exists K' t',
    rb_search_loop fuel h key_ (tptr t) (cptr K) = Ok (tptr t', cptr K') /\
    plug K t = plug K' t' /\ located key_ K' /\ (length K' <= length K + height t)%nat /\
    match t' with Leaf => True | T _ _ _ k _ _ => k = key_ end.
Proof.
  induction fuel as [|fuel IH]; intros h key_ t K Hv Hh Hs Hk Hkey [Hl Hr].
  { destruct t; [|simpl in Hh; lia]. exists K, Leaf. simpl. repeat split; try done. lia. }
  destruct t as [|a c l k d r].
  { exists K, Leaf. simpl. repeat split; try done. lia. }
  pose proof (focus_ld _ _ _ _ _ _ _ _ Hv) as Hld. simpl elements in Hs, Hk. simpl in Hh.
  destruct (sorted_node _ _ _ _ Hs) as [Hsl Hsr].
  apply Forall_app in Hk as [Hkl [Hkk Hkr]%Forall_cons]. simpl in Hkk.
  apply StronglySorted_app in Hs as (_ & Hs1 & Hs2). inversion Hs2; subst.
  cbn [rb_search_loop tptr]. rewrite (ld_Some _ _ _ Hld). cbn [mbind outcome_bind key left right].
  rewrite s32_diff by done.
  destruct (0 <? k - key_) eqn:G1; zify_bool; [|destruct (k - key_ <? 0) eqn:G2; zify_bool].
  - destruct (IH h key_ l (FL a c k d r :: K)) as (K' & t' & E & Ep & Hloc & Hlen & Hm); try done.
    + by apply (proj2 (valid_up _ (FL a c k d r) _ _)).
    + lia.
    + split; [done|]. simpl. constructor; [simpl; lia|]. apply Forall_app. split; [|done].
      eapply Forall_impl; [exact Hsr|]. simpl. intros; lia.
    + exists K', t'. split; [done|]. split; [done|]. split; [done|]. split; [simpl in *; lia | done].
  - destruct (IH h key_ r (FR a c l k d :: K)) as (K' & t' & E & Ep & Hloc & Hlen & Hm); try done.
    + by apply (proj2 (valid_up _ (FR a c l k d) _ _)).
    + lia.
    + split; [|done]. simpl. apply Forall_app. split; [done|]. apply Forall_app. split.
      * eapply Forall_impl; [exact Hsl|]. simpl. intros; lia.
      * constructor; [simpl; lia | done].
    + exists K', t'. split; [done|]. split; [done|]. split; [done|]. split; [simpl in *; lia | done].
  - exists K, (T a c l k d r). split; [done|]. split; [done|]. split; [done|]. split; [lia|]. lia.
Qed.

(** ** The abstract map *)

Definition as_map (t : tree) : gmap Z Z := list_to_map (elements t).

(** What a heap and a root pointer represent. *)
Record rb_tree (h : heap) (root : ptr) (t : tree) : Prop := {
  rbt_valid : valid h [] t;
  rbt_root : root = tptr t;
  rbt_sorted : sorted (elements t);
  rbt_keys : Forall (fun p => key_ok (fst p)) (elements t);
  rbt_inv : exists n, rbt BLACK n t;
}.

Lemma sorted_nodup l : sorted l -> NoDup (l.*1).
Proof.
  induction 1 as [|p l Hl IH Hp]; simpl; [constructor|]. constructor; [|done].
  rewrite list_elem_of_fmap. intros (q & E & Hq). rewrite Forall_forall in Hp.
  specialize (Hp q Hq). unfold klt in Hp. lia.
Qed.

Lemma located_absent k K : located k K -> as_map (plug K Leaf) !! k = None.
Proof.
  intros [Hl Hr]. apply not_elem_of_list_to_map. rewrite elements_plug. simpl.
  rewrite list_elem_of_fmap. intros (p & -> & Hp). apply elem_of_app in Hp as [Hp|Hp].
  - rewrite Forall_forall in Hl. specialize (Hl p Hp). lia.
  - rewrite Forall_forall in Hr. specialize (Hr p Hp). lia.
Qed.

Lemma found_present K a c l k d r :
  sorted (elements (plug K (T a c l k d r))) -> as_map (plug K (T a c l k d r)) !! k = Some d.
Proof.
  intros Hs. apply elem_of_list_to_map; [by apply sorted_nodup|].
  rewrite elements_plug. simpl. rewrite !elem_of_app, elem_of_cons. tauto.
Qed.

(** Inserting at the located hole. *)
Lemma insert_located k d K t :
  located k K -> sorted (elements (plug K Leaf)) ->
  elements t = cleft K ++ (k, d) :: cright K ->
  sorted (elements t) /\ as_map t = <[k := d]> (as_map (plug K Leaf)).
Proof.
  intros [Hl Hr] Hs Et. rewrite elements_plug in Hs. simpl in Hs.
  pose proof Hs as Hs0. apply StronglySorted_app in Hs as (Hlr & Hsl & Hsr). split.
  - rewrite Et. apply StronglySorted_app_2; [|done|].
    + intros x1 x2 H1 [->|H2]%elem_of_cons; [|by apply Hlr].
      rewrite Forall_forall in Hl. by apply Hl.
    + constructor; [done|]. eapply Forall_impl; [exact Hr|]. done.
  - unfold as_map. rewrite Et, elements_plug. simpl.
    rewrite !list_to_map_app. simpl. rewrite <- insert_union_r; [done|].
    apply not_elem_of_list_to_map. rewrite list_elem_of_fmap. intros (p & -> & Hp).
    rewrite Forall_forall in Hl. specialize (Hl p Hp). lia.
Qed.

(** ** Insertion *)

Lemma rbt_unplug K t n :
  rbt BLACK n (plug K t) ->
  exists c m ck, rbt c m t /\ rbc ck m K /\ (ck = RED -> c = BLACK) /\ (K = [] -> c = BLACK).
Proof.
  revert t. induction K as [|f K IH]; intros t Ht.
  - exists BLACK, n, BLACK. by repeat constructor.
  - destruct (IH (plug1 f t) Ht) as (c & m & ck & Hr & Hk & Hck & Hroot).
    destruct f as [a cf k d r|a cf l k d]; simpl in Hr; inversion Hr; subst.
    + destruct ck; [by specialize (Hck eq_refl)|].
      exists BLACK, m, RED. split; [done|]. split; [|done]. constructor; try done.
      intros ->. by specialize (Hroot eq_refl).
    + eexists _, _, BLACK. split; [done|]. split; [|done]. by econstructor.
    + destruct ck; [by specialize (Hck eq_refl)|].
      exists BLACK, m, RED. split; [done|]. split; [|done]. constructor; try done.
      intros ->. by specialize (Hroot eq_refl).
    + eexists _, _, BLACK. split; [done|]. split; [|done]. by econstructor.
Qed.

Lemma repr_dom h par t a : repr h par t -> a ∈ addrs t -> is_Some (h !! a).
Proof.
  revert par. induction t as [|b c l IHl k d r IHr]; intros par Hr Ha; simpl in *.
  - by apply elem_of_nil in Ha.
  - destruct Hr as (Hb & Hl & Hr). apply elem_of_cons in Ha as [->|Ha]; [by eexists|].
    apply elem_of_app in Ha as [Ha|Ha]; eauto.
Qed.

(** Linking the new node below the last node visited. *)
Lemma link_new h K new junk key_ data_ root :
  valid h K Leaf -> h !! new = None -> located key_ K ->
  root = tptr (plug K Leaf) ->
  exists h2,
    (let '(h, node) := rb_new_node h new key_ data_ junk in
     h ← upd h node (set_parent (cptr K));
     h ← upd h node (set_right None);
     h ← upd h node (set_left None);
     h ← upd h node (set_color RED);
     '(h, root) ←
       (if cptr K is Some _ then
          p ← ld h (cptr K);
          h ← (if key_ <? key p then upd h (cptr K) (set_left node)
               else upd h (cptr K) (set_right node));
          Ok (h, root)
        else Ok (h, node));
     Ok (h, root)) = Ok (h2, tptr (plug K (T new RED Leaf key_ data_ Leaf))) /\
    valid h2 K (T new RED Leaf key_ data_ Leaf).
Proof.
  intros Hv Hnew Hloc ->.
  assert (Hni : new ∉ addrs (plug K Leaf)).
  { intros Hin. apply valid_plug in Hv as [Hr _].
    destruct (repr_dom _ _ _ _ Hr Hin) as [n Hn]. congruence. }
  rewrite addrs_plug in Hni. simpl in Hni. rewrite app_nil_r in Hni.
  assert (Hnd : keep (NoDup (caddrs K ++ [new]))).
  { apply NoDup_app. split; [|split; [|apply NoDup_singleton]].
    - destruct Hv as (_ & _ & Hnd). simpl in Hnd. by rewrite app_nil_r in Hnd.
    - intros x Hx ->%list_elem_of_singleton. done. }
  destruct Hv as (Hc & _ & Hnd0). simpl in Hnd0. rewrite app_nil_r in Hnd0. cbn [rb_new_node].
  do 4 (erewrite upd_Some by (by simplify_map_eq); cbn [mbind outcome_bind]).
  destruct K as [|[a c k d r|a c l k d] K]; cbn [cptr faddr].
  - eexists. split; [reflexivity|]. split; [done|]. split; [|done]. simpl. by simplify_map_eq.
  - simpl in Hc, Hni, Hnd0. destruct Hc as (Ha & Hr & HK). nodup_split.
    destruct Hloc as [_ [Hk _]%Forall_cons]. simpl in Hk.
    erewrite ld_Some by (by simplify_map_eq). cbn [mbind outcome_bind key].
    rewrite (proj2 (Z.ltb_lt _ _)) by done. erewrite upd_Some by (by simplify_map_eq).
    cbn [mbind outcome_bind]. eexists. split; [do 2 f_equal; by apply (tptr_plug K)|].
    revalid Hnd.
  - simpl in Hc, Hni, Hnd0. destruct Hc as (Ha & Hr & HK). nodup_split.
    destruct Hloc as [Hk _]. simpl in Hk. apply Forall_app in Hk as [_ [_ [Hk _]%Forall_cons]%Forall_app].
    simpl in Hk. erewrite ld_Some by (by simplify_map_eq). cbn [mbind outcome_bind key].
    rewrite (proj2 (Z.ltb_ge _ _)) by lia. erewrite upd_Some by (by simplify_map_eq).
    cbn [mbind outcome_bind]. eexists. split; [do 2 f_equal; by apply (tptr_plug K)|].
    revalid Hnd.
Qed.

(** ** Balance *)

Definition size (t : tree) : nat := length (elements t).

Lemma size_node a c l k d r : size (T a c l k d r) = S (size l + size r).
Proof. unfold size. simpl. rewrite length_app. simpl. lia. Qed.

Lemma rbt_height c n t :
  rbt c n t -> (height t <= 2 * n + (if decide (c = RED) then 1 else 0))%nat.
Proof.
  induction 1 as [|a l k d r n Hl IHl Hr IHr|a l k d r n cl cr Hl IHl Hr IHr]; simpl in *; [lia..|].
  destruct (decide (cl = RED)), (decide (cr = RED)); lia.
Qed.

Lemma rbt_size c n t : rbt c n t -> (2 ^ n <= size t + 1)%nat.
Proof.
  induction 1; rewrite ?size_node; simpl; [done|lia|]. simpl in *. lia.
Qed.

Lemma rb_tree_height h root t : rb_tree h root t -> (height t <= 2 * Nat.log2 (size t + 1))%nat.
Proof.
  intros [_ _ _ _ [n Hn]]. pose proof (rbt_height _ _ _ Hn) as Hh. simpl in Hh.
  pose proof (rbt_size _ _ _ Hn) as Hs. apply Nat.log2_le_mono in Hs.
  rewrite Nat.log2_pow2 in Hs by lia. lia.
Qed.

(** ** The operations on a represented tree *)

Lemma rb_search_map h root t key_ fuel :
  rb_tree h root t -> key_ok key_ -> (height t <= fuel)%nat ->
  exists p, rb_search fuel h key_ root = Ok p /\
    match as_map t !! key_ with
    | Some d => exists a n, p = Some a /\ h !! a = Some n /\ key n = key_ /\ data n = d
    | None => p = None
    end.
Proof.
  intros [Hv -> Hs Hks _] Hk Hf.
  destruct (search_zipper fuel h key_ t []) as (K & t' & E & Ep & Hloc & _ & Hm); try done.
  unfold rb_search, rb_search_auxiliary. cbn [cptr] in E. rewrite E. cbn [mbind outcome_bind].
  exists (tptr t'). split; [done|]. simpl in Ep. subst t. destruct t' as [|a c l k d r].
  - by rewrite located_absent.
  - subst k. rewrite found_present by done.
    exists a, (Node (tptr l) (tptr r) (cptr K) key_ d c). repeat split; try done.
    apply focus_ld. by apply (valid_refocus _ [] (plug K (T a c l key_ d r))).
Qed.

Lemma rb_insert_map h root t new junk key_ data_ fuel :
  rb_tree h root t -> h !! new = None -> key_ok key_ -> (height t + 3 <= fuel)%nat ->
  exists h' t',
    rb_insert fuel h new junk key_ data_ root = Ok (h', tptr t') /\ rb_tree h' (tptr t') t' /\
    as_map t' = if as_map t !! key_ is Some _ then as_map t else <[key_ := data_]> (as_map t).
Proof.
  intros [Hv -> Hs Hks [n Hn]] Hnew Hk Hf.
  destruct (search_zipper fuel h key_ t []) as (K & t' & E & Ep & Hloc & Hlen & Hm); try done; [lia|].
  unfold rb_insert, rb_search_auxiliary. cbn [cptr] in E. rewrite E. cbn [mbind outcome_bind].
  simpl in Ep. subst t. destruct t' as [|a c l k d r].
  2: { subst k. exists h, (plug K (T a c l key_ d r)). split; [done|]. split; [split; eauto|].
       by rewrite found_present. }
  cbn [tptr]. rewrite located_absent by done.
  assert (HvK : valid h K Leaf) by (by apply (valid_refocus _ [] (plug K Leaf))).
  destruct (link_new h K new junk key_ data_ _ HvK Hnew Hloc eq_refl) as (h2 & Elink & V2).
  destruct (rbt_unplug K Leaf n Hn) as (c & m & ck & Hl & HK & _). inversion Hl; subst.
  destruct (rebalance_loop fuel K h2 new Leaf key_ data_ Leaf 0 ck) as (h3 & t3 & E3 & V3 & A3 & L3 & c3 & m3 & R3);
    try done; [simpl in *; lia | by repeat constructor |].
  assert (Hel : elements t3 = cleft K ++ (key_, data_) :: cright K) by (by rewrite L3, elements_plug).
  destruct t3 as [|a3 ct3 l3 k3 d3 r3]; [by destruct (cleft K)|].
  destruct (focus_color h3 [] a3 ct3 BLACK l3 k3 d3 r3 V3) as (h4 & E4 & V4).
  destruct (rbt_blacken _ _ _ R3) as [m4 R4].
  exists h4, (T a3 BLACK l3 k3 d3 r3).
  destruct (insert_located key_ data_ K (T a3 BLACK l3 k3 d3 r3) Hloc Hs Hel) as [Hs' Hm'].
  split; [|split; [|done]].
  - revert Elink. cbn [rb_new_node]. unfold rb_insert_rebalance.
    repeat match goal with
    | |- context [mbind _ (upd ?h ?p ?f)] => destruct (upd h p f); [|done]; cbn [mbind outcome_bind]
    end.
    destruct (if cptr K is Some _ then _ else _) as [[h5 root5]|]; [|done]. cbn [mbind outcome_bind].
    intros [= -> ->]. rewrite E3. cbn [mbind outcome_bind tptr]. by rewrite E4.
  - split; try done; [|by exists m4].
    change (elements (T a3 BLACK l3 k3 d3 r3)) with (elements (T a3 ct3 l3 k3 d3 r3)). rewrite Hel.
    rewrite elements_plug in Hks. simpl in Hks. apply Forall_app in Hks as [Hk1 Hk2].
    apply Forall_app. split; [done|]. by constructor.
Qed.

(** ** Properties *)

(** C36: [rb_search] looks the key up: in a heap that represents a red-black tree it
    returns the node that holds the key with the key's data, or [NULL] when the
    key is absent, after at most 2 log2 (n + 1) turns of its loop.  Keys are within
    2^30 of 0 ([key_ok]). *)
Theorem rb_search_lookup h root t key_ fuel :
  rb_tree h root t -> key_ok key_ -> (2 * Nat.log2 (size t + 1) <= fuel)%nat ->
  exists p, rb_search fuel h key_ root = Ok p /\
    match as_map t !! key_ with
    | Some d => exists a n, p = Some a /\ h !! a = Some n /\ key n = key_ /\ data n = d
    | None => p = None
    end.
Proof. intros Ht Hk Hf. apply rb_search_map; [done..|]. pose proof (rb_tree_height _ _ _ Ht). lia. Qed.

(** C3: [rb_insert] refines insertion into a finite map: a new key is added with its
    data, a key that is there keeps its old data, every other binding is
    unchanged, and the result is a red-black search tree again (ordered, no red
    node with a red child, equal black heights, black root, consistent parent
    pointers).  It always returns: in
    2 log2 (n + 1) + 3 turns of each of its loops.  Keys are within 2^30 of 0 ([key_ok]). *)
Theorem rb_insert_refines h root t new junk key_ data_ fuel :
  rb_tree h root t -> h !! new = None -> key_ok key_ -> (2 * Nat.log2 (size t + 1) + 3 <= fuel)%nat ->
  exists h' t',
    rb_insert fuel h new junk key_ data_ root = Ok (h', tptr t') /\ rb_tree h' (tptr t') t' /\
    as_map t' = if as_map t !! key_ is Some _ then as_map t else <[key_ := data_]> (as_map t).
Proof.
  intros Ht Hn Hk Hf. apply rb_insert_map; [done..|]. pose proof (rb_tree_height _ _ _ Ht). lia.
Qed.

(** ** Concrete trees *)

Definition three : tree :=
  T 6 BLACK (T 3 RED Leaf 2 20 Leaf) 5 50 (T 9 RED Leaf 8 80 Leaf).
Definition three_heap : heap :=
  {[ 6%positive := Node (Some 3%positive) (Some 9%positive) None 5 50 BLACK;
     3%positive := Node None None (Some 6%positive) 2 20 RED;
     9%positive := Node None None (Some 6%positive) 8 80 RED ]}.

(** The heap the operation itself builds. *)
Lemma three_built : insert_all [5; 2; 8] = Ok (three_heap, Some 6%positive).
Proof. by vm_compute. Qed.

Lemma three_rb : rb_tree three_heap (Some 6%positive) three.
Proof.
  split; [split; [done|split; [by vm_compute|]] | done | | | ].
  - by_compute.
  - repeat constructor.
  - repeat constructor; unfold key_ok; simpl; lia.
  - exists 1%nat. by repeat econstructor.
Qed.

(** A key that is there and one that is not. *)
Lemma rb_search_lookup_witness :
  (exists p, rb_search 4 three_heap 8 (Some 6%positive) = Ok p /\
     exists a n, p = Some a /\ three_heap !! a = Some n /\ key n = 8 /\ data n = 80) /\
  (exists p, rb_search 4 three_heap 3 (Some 6%positive) = Ok p /\ p = None).
Proof.
  split.
  - apply (rb_search_lookup _ _ three 8 4 three_rb); [unfold key_ok; lia | by vm_compute; lia].
  - apply (rb_search_lookup _ _ three 3 4 three_rb); [unfold key_ok; lia | by vm_compute; lia].
Defined.

(** A fourth key: its uncle is red, the parents are recoloured. *)
Lemma rb_insert_refines_witness :
  exists h' t',
    rb_insert 7 three_heap 7 (Node None None None 0 0 RED) 3 33 (Some 6%positive) = Ok (h', tptr t') /\
    rb_tree h' (tptr t') t' /\ as_map t' = <[3 := 33]> (as_map three).
Proof.
  apply (rb_insert_refines _ _ three 7 _ 3 33 7 three_rb);
    [by vm_compute | unfold key_ok; lia | by vm_compute; lia].
Defined.

(** Outside [key_ok] the difference of two keys wraps: [rb_insert] searches 2^31 - 1
    to the left of -2 but links it to the right, over the subtree that held 0, and
    neither key is found afterwards. *)
Definition far_keys : outcome (heap * ptr) :=
  foldl (fun st '(a, k) => '(h, root) ← st;
           rb_insert 40 h a (Node None None None 0 0 RED) k 7 root)
        (Ok (∅, None)) [(1%positive, -2); (2%positive, 0); (3%positive, 2147483647)].

Lemma far_keys_are_lost :
  ('(h, root) ← far_keys; x ← rb_search 40 h 2147483647 root; y ← rb_search 40 h 0 root; Ok (x, y))
  = Ok (None, None).
Proof. by vm_compute. Qed.

(** Erasing from a tree of seven keys in three orders keeps exactly the other keys. *)
Definition erase_scenario (ins del : list Z) : outcome (option (list (Z * Z))) :=
  '(h, root) ← erase_all del (insert_all ins); Ok (elements <$> read_tree 9 h root).

Lemma erase_scenarios :
  erase_scenario [4; 2; 6; 1; 3; 5; 7] [4; 6; 1] = Ok (Some [(2, 20); (3, 30); (5, 50); (7, 70)]) /\
  erase_scenario [7; 6; 5; 4; 3; 2; 1] [1; 2; 3; 4; 5] = Ok (Some [(6, 60); (7, 70)]) /\
  erase_scenario [1; 2; 3; 4; 5; 6; 7] [1; 2; 3; 4; 5; 6; 7] = Ok (Some []).
Proof. by vm_compute. Qed.
