(* ===== verification/RbErase.v ===== *)
(** * Red-black trees: deletion (data_struct/btree/rbtree.c)

    [rb_erase] refines deletion from a finite map and keeps the red-black
    invariants.  A hole whose subtree is one black node short is carried up the
    zipper by [rb_erase_rebalance]; the unlinking of a node, with its successor
    moved into its place, is a step on the zipper. *)

From stdpp Require Import base numbers list gmap sorting.
From S2P Require Import Prelude RbTree RbZipper RbInsert.

#[local] Open Scope Z_scope.

(** ** Fitting a tree in a context *)

(** [rbt_plug] with the colour of the root. *)
Lemma rbt_plug_black K c n ck t :
  rbc ck n K -> rbt c n t -> (ck = RED -> c = BLACK) -> (K = [] -> c = BLACK) ->
  exists m, rbt BLACK m (plug K t).
Proof.
  intros Hk. revert c t. induction Hk as [n|f K n Hf Hs Hk IH Hne|f K n cs c' Hf Hs Hk IH];
    intros c t Ht Hc Hroot; simpl.
  - exists n. by rewrite <- (Hroot eq_refl).
  - eapply IH; [by apply (proj2 (rbt_plug1 f n c t Ht)); auto | done | done].
  - eapply IH; [by eapply (proj1 (rbt_plug1 f n c t Ht)) | done | done].
Qed.

Lemma focus_black_or_null h K t :
  valid h K t -> black_or_null h (tptr t) = Ok (bool_decide (tcolor t = BLACK)).
Proof.
  destruct t as [|a c l k d r]; intros Hv; [done|]. unfold black_or_null. cbn [tptr].
  by rewrite (ld_Some _ _ _ (focus_ld _ _ _ _ _ _ _ _ Hv)).
Qed.

Lemma children_black_or_null h K a c l k d r :
  valid h K (T a c l k d r) ->
  black_or_null h (tptr l) = Ok (bool_decide (tcolor l = BLACK)) /\
  black_or_null h (tptr r) = Ok (bool_decide (tcolor r = BLACK)).
Proof.
  intros Hv. split.
  - apply (focus_black_or_null h (FL a c k d r :: K)). by apply valid_up.
  - apply (focus_black_or_null h (FR a c l k d :: K)). by apply valid_up.
Qed.

(** The root of a proper context is not the tree at the hole. *)
Lemma hole_not_root h f K t : valid h (f :: K) t -> tptr t <> tptr (plug (f :: K) t).
Proof.
  intros (_ & _ & Hnd) E.
  assert (Hin : exists a, tptr (plug (f :: K) t) = Some a /\ a ∈ caddrs (f :: K)).
  { clear. revert f t. induction K as [|g K IH]; intros f t.
    - exists (faddr f). simpl. rewrite tptr_plug1. split; [done|]. by left.
    - destruct (IH g (plug1 f t)) as (a & Ea & Ha). exists a. split; [done|].
      change (a ∈ faddr f :: addrs (fsib f) ++ caddrs (g :: K)).
      rewrite elem_of_cons, elem_of_app. tauto. }
  destruct Hin as (a & Ea & Ha). rewrite Ea in E. apply tptr_in in E.
  apply NoDup_app in Hnd as (_ & Hd & _). by apply (Hd a).
Qed.

(** The same tree seen from another node. *)
Ltac refocus H K' t' :=
  match type of H with valid ?h ?K ?t => apply (valid_refocus h K t K' t' eq_refl) in H end.

(** ** Recolouring around the hole *)

(** What rebalancing leaves: the same pairs in a red-black tree. *)
Definition erased (h' : heap) (t0 t' : tree) : Prop :=
  valid h' [] t' /\ elements t' = elements t0 /\ exists m, rbt BLACK m t'.

(** The loop stops at a red node, which the final assignment blackens. *)
Lemma erase_stop_red fuel h K t m ck :
  valid h K t -> tcolor t = RED -> rbt BLACK m (blacken t) -> rbc ck m K ->
  exists h' t', rb_erase_rebalance (S fuel) h (tptr t) (cptr K) (tptr (plug K t)) = Ok (h', tptr t') /\
                erased h' (plug K t) t'.
Proof.
  intros Hv Hc Hr Hk. destruct t as [|a c l k d r]; [done|]. simpl in Hc. subst c.
  destruct (focus_color h K a RED BLACK l k d r Hv) as (h' & E & V).
  exists h', (plug K (T a BLACK l k d r)). split.
  - unfold rb_erase_rebalance. cbn [rb_erase_rebalance_loop].
    rewrite (focus_black_or_null _ _ _ Hv). cbn [mbind outcome_bind tcolor].
    rewrite bool_decide_false by done. cbn [andb negb mbind outcome_bind tptr]. rewrite E.
    cbn [mbind outcome_bind]. do 2 f_equal. by apply tptr_plug.
  - split; [by apply (valid_refocus h' K (T a BLACK l k d r))|]. split; [by apply elements_plug_ext|].
    by eapply rbt_plug_black.
Qed.

(** ... and at the root. *)
Lemma erase_stop_root fuel h t n :
  valid h [] t -> rbt BLACK n t ->
  exists h' t', rb_erase_rebalance (S fuel) h (tptr t) None (tptr t) = Ok (h', tptr t') /\
                erased h' t t'.
Proof.
  intros Hv Hr. unfold rb_erase_rebalance. cbn [rb_erase_rebalance_loop].
  rewrite (focus_black_or_null _ _ _ Hv). cbn [mbind outcome_bind].
  rewrite (bool_decide_false (tptr t <> tptr t)) by tauto. rewrite andb_false_r.
  cbn [negb mbind outcome_bind]. destruct t as [|a c l k d r]; cbn [tptr].
  - exists h, Leaf. split; [done|]. split; [done|]. split; [done|]. by exists n.
  - assert (c = BLACK) as -> by (by inversion Hr).
    destruct (focus_color h [] a BLACK BLACK l k d r Hv) as (h' & E & V). rewrite E.
    exists h', (T a BLACK l k d r). split; [done|]. split; [done|]. split; [done|]. by exists n.
Qed.

(** ** The last rotation *)

(** The assignments after the sibling's far child is known to be red. *)
Definition last_left (h : heap) (parent_ other root : ptr) : outcome (heap * ptr * ptr) :=
  p ← ld h parent_;
  h ← upd h other (set_color (color p));
  h ← upd h parent_ (set_color BLACK);
  o ← ld h other;
  h ← (if right o is Some _ then upd h (right o) (set_color BLACK) else Ok h);
  '(h, root) ← rb_rotate_left h parent_ root;
  Ok (h, root, root).

Definition last_right (h : heap) (parent_ other root : ptr) : outcome (heap * ptr * ptr) :=
  p ← ld h parent_;
  h ← upd h other (set_color (color p));
  h ← upd h parent_ (set_color BLACK);
  o ← ld h other;
  h ← (if left o is Some _ then upd h (left o) (set_color BLACK) else Ok h);
  '(h, root) ← rb_rotate_right h parent_ root;
  Ok (h, root, root).

(** Read the node at the focus; recolour it. *)
Ltac load V :=
  rewrite (ld_Some _ _ _ (focus_ld _ _ _ _ _ _ _ _ V));
  cbn [mbind outcome_bind left right parent color tptr].

Ltac recolor V c :=
  let h' := fresh "h" in let E := fresh "E" in let V' := fresh "V" in
  destruct (focus_color _ _ _ _ c _ _ _ _ V) as (h' & E & V');
  rewrite E; clear E V; rename V' into V; cbn [mbind outcome_bind].

Ltac up V := apply (proj1 (valid_up _ _ _ _)) in V; cbn [plug1] in V.

(** Rotate at the focus, which recolourings have changed since the root was taken. *)
Ltac rotate V spec :=
  let h' := fresh "h" in let E := fresh "E" in let V' := fresh "V" in
  destruct (spec _ _ _ _ _ _ _ _ _ _ _ _ _ V) as (h' & E & V');
  match type of E with
  | _ _ _ ?root = _ =>
      match goal with |- context [_ _ _ (tptr (plug ?K ?t))] =>
        replace (tptr (plug K t)) with root by (by apply tptr_plug) end
  end;
  rewrite E; clear E V; rename V' into V; cbn [mbind outcome_bind].

Lemma last_left_spec h K pa pc pk pd t oa oc ol ok od ra rc rl rk rd rr :
  let s := T oa oc ol ok od (T ra rc rl rk rd rr) in
  let t' := T oa pc (T pa BLACK t pk pd ol) ok od (T ra BLACK rl rk rd rr) in
  valid h K (T pa pc t pk pd s) ->
  exists h', last_left h (Some pa) (Some oa) (tptr (plug K (T pa pc t pk pd s))) =
               Ok (h', tptr (plug K t'), tptr (plug K t')) /\ valid h' K t'.
Proof.
  intros s t' Hv. unfold last_left. load Hv.
  refocus Hv (FR pa pc t pk pd :: K) s. recolor Hv pc. up Hv. recolor Hv BLACK.
  refocus Hv (FR pa BLACK t pk pd :: K) (T oa pc ol ok od (T ra rc rl rk rd rr)). load Hv.
  refocus Hv (FR oa pc ol ok od :: FR pa BLACK t pk pd :: K) (T ra rc rl rk rd rr). recolor Hv BLACK.
  do 2 up Hv. rotate Hv rotate_left_spec. by eexists.
Qed.

Lemma last_right_spec h K pa pc pk pd t oa oc ol ok od ra rc rl rk rd rr :
  let s := T oa oc (T ra rc rl rk rd rr) ok od ol in
  let t' := T oa pc (T ra BLACK rl rk rd rr) ok od (T pa BLACK ol pk pd t) in
  valid h K (T pa pc s pk pd t) ->
  exists h', last_right h (Some pa) (Some oa) (tptr (plug K (T pa pc s pk pd t))) =
               Ok (h', tptr (plug K t'), tptr (plug K t')) /\ valid h' K t'.
Proof.
  intros s t' Hv. unfold last_right. load Hv.
  refocus Hv (FL pa pc pk pd t :: K) s. recolor Hv pc. up Hv. recolor Hv BLACK.
  refocus Hv (FL pa BLACK pk pd t :: K) (T oa pc (T ra rc rl rk rd rr) ok od ol). load Hv.
  refocus Hv (FL oa pc ok od ol :: FL pa BLACK pk pd t :: K) (T ra rc rl rk rd rr). recolor Hv BLACK.
  do 2 up Hv. rotate Hv rotate_right_spec. by eexists.
Qed.

(** ** One turn with a black sibling *)

(** The loop body once the sibling is black. *)
Definition rest_left (fuel : nat) (h : heap) (parent_ other root : ptr) : outcome (heap * ptr * ptr) :=
  o ← ld h other;
  bl ← black_or_null h (left o);
  br ← (if (bl : bool) then black_or_null h (right o) else Ok false);
  if (bl && br)%bool then
    h ← upd h other (set_color RED);
    n ← ld h parent_;
    rb_erase_rebalance_loop fuel h parent_ (parent n) root
  else
    br ← black_or_null h (right o);
    '(h, root, other) ←
      (if (br : bool) then
         h ← (if left o is Some _ then upd h (left o) (set_color BLACK) else Ok h);
         h ← upd h other (set_color RED);
         '(h, root) ← rb_rotate_right h other root;
         p ← ld h parent_;
         Ok (h, root, right p)
       else Ok (h, root, other));
    last_left h parent_ other root.

Definition rest_right (fuel : nat) (h : heap) (parent_ other root : ptr) : outcome (heap * ptr * ptr) :=
  o ← ld h other;
  bl ← black_or_null h (left o);
  br ← (if (bl : bool) then black_or_null h (right o) else Ok false);
  if (bl && br)%bool then
    h ← upd h other (set_color RED);
    n ← ld h parent_;
    rb_erase_rebalance_loop fuel h parent_ (parent n) root
  else
    bl ← black_or_null h (left o);
    '(h, root, other) ←
      (if (bl : bool) then
         h ← (if right o is Some _ then upd h (right o) (set_color BLACK) else Ok h);
         h ← upd h other (set_color RED);
         '(h, root) ← rb_rotate_left h other root;
         p ← ld h parent_;
         Ok (h, root, left p)
       else Ok (h, root, other));
    last_right h parent_ other root.

(** Both nephews black: the sibling becomes red and the parent is next. *)
Lemma rest_left_up fuel h K pa pc t pk pd oa oc ol ok od or_ root :
  valid h K (T pa pc t pk pd (T oa oc ol ok od or_)) -> tcolor ol = BLACK -> tcolor or_ = BLACK ->
  exists h', rest_left fuel h (Some pa) (Some oa) root =
               rb_erase_rebalance_loop fuel h' (Some pa) (cptr K) root /\
             valid h' K (T pa pc t pk pd (T oa RED ol ok od or_)).
Proof.
  intros Hv Hl Hr. unfold rest_left. set (s := T oa oc ol ok od or_) in *.
  refocus Hv (FR pa pc t pk pd :: K) s. load Hv.
  destruct (children_black_or_null _ _ _ _ _ _ _ _ Hv) as [-> ->]. rewrite Hl, Hr. cbn [mbind outcome_bind]. rewrite !bool_decide_true by done.
  cbn [mbind outcome_bind andb]. recolor Hv RED. up Hv. load Hv. by eexists.
Qed.

Lemma rest_right_up fuel h K pa pc t pk pd oa oc ol ok od or_ root :
  valid h K (T pa pc (T oa oc ol ok od or_) pk pd t) -> tcolor ol = BLACK -> tcolor or_ = BLACK ->
  exists h', rest_right fuel h (Some pa) (Some oa) root =
               rb_erase_rebalance_loop fuel h' (Some pa) (cptr K) root /\
             valid h' K (T pa pc (T oa RED ol ok od or_) pk pd t).
Proof.
  intros Hv Hl Hr. unfold rest_right. set (s := T oa oc ol ok od or_) in *.
  refocus Hv (FL pa pc pk pd t :: K) s. load Hv.
  destruct (children_black_or_null _ _ _ _ _ _ _ _ Hv) as [-> ->]. rewrite Hl, Hr. cbn [mbind outcome_bind]. rewrite !bool_decide_true by done.
  cbn [mbind outcome_bind andb]. recolor Hv RED. up Hv. load Hv. by eexists.
Qed.

(** A red nephew: one or two rotations end the loop. *)
Lemma rest_left_end fuel h K pa pc t pk pd oa ol ok od or_ n :
  let t0 := T pa pc t pk pd (T oa BLACK ol ok od or_) in
  valid h K t0 -> rbt BLACK n t -> rbt BLACK (S n) (T oa BLACK ol ok od or_) ->
  ~ (tcolor ol = BLACK /\ tcolor or_ = BLACK) ->
  exists h' t', rest_left fuel h (Some pa) (Some oa) (tptr (plug K t0)) =
                  Ok (h', tptr (plug K t'), tptr (plug K t')) /\
    valid h' K t' /\ elements t' = elements t0 /\
    rbt pc (if decide (pc = BLACK) then S (S n) else S n) t'.
Proof.
  intros t0 Hv Ht Hs Hred. unfold rest_left.
  refocus Hv (FR pa pc t pk pd :: K) (T oa BLACK ol ok od or_). load Hv.
  destruct (children_black_or_null _ _ _ _ _ _ _ _ Hv) as [-> ->]. cbn [mbind outcome_bind].
  inversion Hs as [| |? ? ? ? ? ? cl cr Hl Hr]; subst.
  rewrite (rbt_color _ _ _ Hl), (rbt_color _ _ _ Hr) in *.
  destruct cr; cbn [mbind outcome_bind].
  - replace (if bool_decide (cl = BLACK) then _ else _) with (@Ok bool false) by (by case_bool_decide).
    cbn [mbind outcome_bind]. rewrite andb_false_r. rewrite bool_decide_false by done. cbn [mbind outcome_bind].
    inversion Hr as [|ra rl rk rd rr ? Hrl Hrr|]; subst. up Hv.
    destruct (last_left_spec _ _ _ _ _ _ _ _ _ _ _ _ _ _ _ _ _ _ Hv) as (h' & E & V).
    exists h'. eexists. split; [exact E|]. split; [exact V|]. split.
    + simpl. by rewrite <- app_assoc.
    + destruct pc; simpl; repeat (econstructor; try done).
  - destruct cl; [|tauto]. rewrite (bool_decide_false (RED = BLACK)), bool_decide_true by done.
    cbn [mbind outcome_bind andb].
    inversion Hl as [|la ll lk ld_ lr ? Hll Hlr|]; subst. cbn [tptr].
    refocus Hv (FL oa BLACK ok od or_ :: FR pa pc t pk pd :: K) (T la RED ll lk ld_ lr).
    recolor Hv BLACK. up Hv. recolor Hv RED.
    change (tptr (plug K t0)) with (tptr (plug (FR pa pc t pk pd :: K) (T oa BLACK (T la RED ll lk ld_ lr) ok od or_))).
    rotate Hv rotate_right_spec. up Hv. load Hv.
    destruct (last_left_spec _ _ _ _ _ _ _ _ _ _ _ _ _ _ _ _ _ _ Hv) as (h' & E & V).
    exists h'. eexists. split; [exact E|]. split; [exact V|]. split.
    + simpl. rewrite <- !app_assoc. simpl. by rewrite <- ?app_assoc.
    + destruct pc; simpl; repeat (econstructor; try done).
Qed.

Lemma rest_right_end fuel h K pa pc t pk pd oa ol ok od or_ n :
  let t0 := T pa pc (T oa BLACK ol ok od or_) pk pd t in
  valid h K t0 -> rbt BLACK n t -> rbt BLACK (S n) (T oa BLACK ol ok od or_) ->
  ~ (tcolor ol = BLACK /\ tcolor or_ = BLACK) ->
  exists h' t', rest_right fuel h (Some pa) (Some oa) (tptr (plug K t0)) =
                  Ok (h', tptr (plug K t'), tptr (plug K t')) /\
    valid h' K t' /\ elements t' = elements t0 /\
    rbt pc (if decide (pc = BLACK) then S (S n) else S n) t'.
Proof.
  intros t0 Hv Ht Hs Hred. unfold rest_right.
  refocus Hv (FL pa pc pk pd t :: K) (T oa BLACK ol ok od or_). load Hv.
  destruct (children_black_or_null _ _ _ _ _ _ _ _ Hv) as [-> ->]. cbn [mbind outcome_bind].
  inversion Hs as [| |? ? ? ? ? ? cl cr Hl Hr]; subst.
  rewrite (rbt_color _ _ _ Hl), (rbt_color _ _ _ Hr) in *.
  destruct cl; cbn [mbind outcome_bind].
  - rewrite (bool_decide_false (RED = BLACK)) by done. cbn [mbind outcome_bind andb].
    inversion Hl as [|ra rl rk rd rr ? Hrl Hrr|]; subst. up Hv.
    destruct (last_right_spec _ _ _ _ _ _ _ _ _ _ _ _ _ _ _ _ _ _ Hv) as (h' & E & V).
    exists h'. eexists. split; [exact E|]. split; [exact V|]. split.
    + simpl. rewrite <- !app_assoc. simpl. by rewrite <- ?app_assoc.
    + destruct pc; simpl; repeat (econstructor; try done).
  - destruct cr; [|tauto]. rewrite bool_decide_true, (bool_decide_false (RED = BLACK)) by done.
    cbn [mbind outcome_bind andb].
    inversion Hr as [|la ll lk ld_ lr ? Hll Hlr|]; subst. cbn [tptr].
    refocus Hv (FR oa BLACK ol ok od :: FL pa pc pk pd t :: K) (T la RED ll lk ld_ lr).
    recolor Hv BLACK. up Hv. recolor Hv RED.
    change (tptr (plug K t0)) with (tptr (plug (FL pa pc pk pd t :: K) (T oa BLACK ol ok od (T la RED ll lk ld_ lr)))).
    rotate Hv rotate_left_spec. up Hv. load Hv.
    destruct (last_right_spec _ _ _ _ _ _ _ _ _ _ _ _ _ _ _ _ _ _ Hv) as (h' & E & V).
    exists h'. eexists. split; [exact E|]. split; [exact V|]. split.
    + simpl. rewrite <- !app_assoc. simpl. rewrite <- ?app_assoc. simpl. by rewrite <- ?app_assoc.
    + destruct pc; simpl; repeat (econstructor; try done).
Qed.

(** ** The whole loop *)

(** What follows the loop: the node it ends with is blackened. *)
Definition finish (m : outcome (heap * ptr * ptr)) : outcome (heap * ptr) :=
  '(h, node, root) ← m;
  h ← (if node is Some _ then upd h node (set_color BLACK) else Ok h);
  Ok (h, root).

(** The loop repairs every tree at the hole of [K] that is one black node short. *)
Definition settles (fuel : nat) (K : ctx) : Prop := forall h t n ck,
  valid h K t -> rbt BLACK n t -> rbc ck (S n) K ->
  exists h' t', rb_erase_rebalance fuel h (tptr t) (cptr K) (tptr (plug K t)) = Ok (h', tptr t') /\
                erased h' (plug K t) t'.

(** [K] takes a tree whose root has colour [c] and whose children have black height [S n]. *)
Definition room (c : color_t) (n : nat) (K : ctx) : Prop :=
  match c with
  | RED => rbc BLACK (S n) K /\ K <> []
  | BLACK => exists ck, rbc ck (S (S n)) K
  end.

Lemma rbc_above ck n f K :
  rbc ck (S n) (f :: K) ->
  room (fcolor f) n K /\ exists cs, rbt cs (S n) (fsib f) /\ (fcolor f = RED -> cs = BLACK).
Proof.
  inversion 1 as [|? ? ? Hf Hs Hk Hne|? ? ? cs c Hf Hs Hk]; subst; rewrite Hf; simpl.
  - split; [done|]. by exists BLACK.
  - split; [by exists c|]. by exists cs.
Qed.

(** The parent is the next node. *)
Lemma after_up fuel h K a c l k d r n :
  (c = BLACK -> settles (S fuel) K) -> room c n K ->
  valid h K (T a c l k d r) -> rbt BLACK (S n) (T a BLACK l k d r) ->
  exists h' t', finish (rb_erase_rebalance_loop (S fuel) h (Some a) (cptr K) (tptr (plug K (T a c l k d r))))
                  = Ok (h', tptr t') /\ erased h' (plug K (T a c l k d r)) t'.
Proof.
  intros IH Hroom Hv Hr. destruct c.
  - destruct Hroom as [Hk _]. by apply (erase_stop_red fuel h K (T a RED l k d r) (S n) BLACK).
  - destruct Hroom as [ck Hk]. by apply (IH eq_refl h (T a BLACK l k d r) (S n) ck).
Qed.

(** The loop was left with the root as its node. *)
Lemma after_end h K c n t t0 :
  valid h K t -> elements t = elements t0 -> t <> Leaf ->
  rbt c (if decide (c = BLACK) then S (S n) else S n) t -> room c n K ->
  exists h' t', finish (Ok (h, tptr (plug K t), tptr (plug K t))) = Ok (h', tptr t') /\
                erased h' (plug K t0) t'.
Proof.
  intros Hv He Hne Hr Hroom.
  assert (Hb : exists m, rbt BLACK m (plug K t)).
  { destruct c; simpl in *.
    - destruct Hroom as [Hk HK]. by eapply rbt_plug_black.
    - destruct Hroom as [ck Hk]. by eapply rbt_plug_black. }
  destruct Hb as [m Hb]. apply (valid_refocus h K t [] (plug K t) eq_refl) in Hv.
  apply (elements_plug_ext K) in He. unfold finish. cbn [mbind outcome_bind].
  destruct (plug K t) as [|a c' l k d r] eqn:Ep.
  - exfalso. revert Ep. clear -Hne. revert t Hne. induction K as [|f K IH]; [done|]. intros t _. simpl.
    apply IH. by destruct f.
  - assert (c' = BLACK) as -> by (by inversion Hb).
    destruct (focus_color h [] a BLACK BLACK l k d r Hv) as (h' & E & V). cbn [tptr]. rewrite E.
    exists h', (T a BLACK l k d r). split; [done|]. split; [done|]. split; [done|]. by exists m.
Qed.

(** A turn with a black sibling, by the two lemmas on the loop body. *)
Ltac turn_proof rest_up rest_end :=
  intros IH Hroom Hv Ht Hs; inversion Hs as [| |oa ol ok od or_ ? cl cr Hl Hr]; subst; cbn [tptr];
  destruct (decide (tcolor ol = BLACK /\ tcolor or_ = BLACK)) as [[Cl Cr]|Hred];
  [ let fuel := match goal with |- context [finish (_ ?fuel _ _ _ _)] => fuel end in
    let root := match goal with |- context [finish (_ _ _ _ _ ?root)] => root end in
    destruct (rest_up fuel _ _ _ _ _ _ _ _ _ _ _ _ _ root Hv Cl Cr) as (h1 & -> & V);
    rewrite (rbt_color _ _ _ Hl) in Cl; rewrite (rbt_color _ _ _ Hr) in Cr; subst;
    destruct (after_up _ _ _ _ _ _ _ _ _ _ IH Hroom V) as (h2 & t2 & E & F);
    [ repeat (econstructor; try done)
    | exists h2, t2; split; [rewrite <- E; do 2 f_equal; by apply tptr_plug|];
      destruct F as (F1 & F2 & F3); split; [done|]; split; [|done];
      rewrite F2; by apply elements_plug_ext ]
  | let fuel := match goal with |- context [finish (_ ?fuel _ _ _ _)] => fuel end in
    destruct (rest_end fuel _ _ _ _ _ _ _ _ _ _ _ _ _ Hv Ht Hs Hred) as (h1 & t1 & -> & V & El & R);
    eapply after_end; [exact V | done | by destruct t1; inversion R | done | done] ].

Lemma turn_left fuel h K pa pc pk pd s t n :
  (pc = BLACK -> settles (S fuel) K) -> room pc n K ->
  valid h K (T pa pc t pk pd s) -> rbt BLACK n t -> rbt BLACK (S n) s ->
  exists h' t', finish (rest_left (S fuel) h (Some pa) (tptr s) (tptr (plug K (T pa pc t pk pd s))))
                  = Ok (h', tptr t') /\ erased h' (plug K (T pa pc t pk pd s)) t'.
Proof. turn_proof rest_left_up rest_left_end. Qed.

Lemma turn_right fuel h K pa pc pk pd s t n :
  (pc = BLACK -> settles (S fuel) K) -> room pc n K ->
  valid h K (T pa pc s pk pd t) -> rbt BLACK n t -> rbt BLACK (S n) s ->
  exists h' t', finish (rest_right (S fuel) h (Some pa) (tptr s) (tptr (plug K (T pa pc s pk pd t))))
                  = Ok (h', tptr t') /\ erased h' (plug K (T pa pc s pk pd t)) t'.
Proof. turn_proof rest_right_up rest_right_end. Qed.

(** The loop body at a black node that is not the root, up to the sibling's colour. *)
Lemma loop_at_left fuel h K pa pc pk pd s t n root :
  valid h (FL pa pc pk pd s :: K) t -> rbt BLACK n t ->
  root = tptr (plug (FL pa pc pk pd s :: K) t) ->
  rb_erase_rebalance_loop (S fuel) h (tptr t) (Some pa) root =
    (o ← ld h (tptr s);
     '(h, root, other) ←
       (if decide (color o = RED) then
          h ← upd h (tptr s) (set_color BLACK);
          h ← upd h (Some pa) (set_color RED);
          '(h, root) ← rb_rotate_left h (Some pa) root;
          p ← ld h (Some pa);
          Ok (h, root, right p)
        else Ok (h, root, tptr s));
     rest_left fuel h (Some pa) other root).
Proof.
  intros Hv Ht ->. pose proof (hole_not_root _ _ _ _ Hv) as Hnr. cbn [rb_erase_rebalance_loop].
  rewrite (focus_black_or_null _ _ _ Hv), (rbt_color _ _ _ Ht), (bool_decide_true (BLACK = BLACK)) by done.
  cbn [mbind outcome_bind]. rewrite bool_decide_true by done. cbn [andb negb].
  up Hv. load Hv. by rewrite decide_True.
Qed.

Lemma loop_at_right fuel h K pa pc pk pd s t n root :
  valid h (FR pa pc s pk pd :: K) t -> rbt BLACK n t -> s <> Leaf ->
  root = tptr (plug (FR pa pc s pk pd :: K) t) ->
  rb_erase_rebalance_loop (S fuel) h (tptr t) (Some pa) root =
    (o ← ld h (tptr s);
     '(h, root, other) ←
       (if decide (color o = RED) then
          h ← upd h (tptr s) (set_color BLACK);
          h ← upd h (Some pa) (set_color RED);
          '(h, root) ← rb_rotate_right h (Some pa) root;
          p ← ld h (Some pa);
          Ok (h, root, left p)
        else Ok (h, root, tptr s));
     rest_right fuel h (Some pa) other root).
Proof.
  intros Hv Ht Hs ->. pose proof (hole_not_root _ _ _ _ Hv) as Hnr. cbn [rb_erase_rebalance_loop].
  rewrite (focus_black_or_null _ _ _ Hv), (rbt_color _ _ _ Ht), (bool_decide_true (BLACK = BLACK)) by done.
  cbn [mbind outcome_bind]. rewrite bool_decide_true by done. cbn [andb negb].
  assert (Hne : tptr s <> tptr t).
  { destruct s as [|a c l k d r]; [done|]. intros E. by apply (child_ne h _ _ _ a Hv). }
  up Hv. load Hv. by rewrite decide_False.
Qed.

(** A red sibling is rotated above the parent first. *)
Lemma settle_left fuel h K pa pc pk pd s t n ck :
  settles (S fuel) K -> valid h (FL pa pc pk pd s :: K) t -> rbt BLACK n t ->
  rbc ck (S n) (FL pa pc pk pd s :: K) ->
  exists h' t', rb_erase_rebalance (S (S fuel)) h (tptr t) (Some pa) (tptr (plug (FL pa pc pk pd s :: K) t))
                  = Ok (h', tptr t') /\ erased h' (plug (FL pa pc pk pd s :: K) t) t'.
Proof.
  intros IH Hv Ht Hk. apply rbc_above in Hk as (Hroom & cs & Hs & Hcs). cbn [fcolor fsib] in *.
  unfold rb_erase_rebalance. fold (finish (rb_erase_rebalance_loop (S (S fuel)) h (tptr t) (Some pa) (tptr (plug (FL pa pc pk pd s :: K) t)))).
  rewrite (loop_at_left _ _ _ _ _ _ _ _ _ _ _ Hv Ht eq_refl). up Hv. cbn [plug plug1].
  inversion Hs as [|oa ol ok od or_ ? Hl Hr|oa ol ok od or_ ? cl cr Hl Hr]; subst; cbn [tptr].
  - destruct pc; [by specialize (Hcs eq_refl)|]. destruct Hroom as [ck' Hk].
    refocus Hv (FR pa BLACK t pk pd :: K) (T oa RED ol ok od or_). load Hv.
    rewrite decide_True by done. recolor Hv BLACK. up Hv. recolor Hv RED. rotate Hv rotate_left_spec.
    refocus Hv (FL oa BLACK ok od or_ :: K) (T pa RED t pk pd ol). load Hv.
    assert (Hroom : room RED n (FL oa BLACK ok od or_ :: K)) by (split; [by econstructor | done]).
    destruct (turn_left fuel _ _ _ RED _ _ _ _ n ltac:(discriminate) Hroom Hv Ht Hl)
      as (h' & t' & E & V & El & R).
    exists h', t'. split; [done|]. split; [done|]. split; [|done]. rewrite El.
    cbn [plug plug1]. apply elements_plug_ext. simpl. by rewrite <- app_assoc.
  - refocus Hv (FR pa pc t pk pd :: K) (T oa BLACK ol ok od or_). load Hv.
    rewrite decide_False by done. cbn [mbind outcome_bind]. up Hv.
    by apply (turn_left fuel _ _ _ _ _ _ (T oa BLACK ol ok od or_) t n (fun _ => IH)).
Qed.

Lemma settle_right fuel h K pa pc pk pd s t n ck :
  settles (S fuel) K -> valid h (FR pa pc s pk pd :: K) t -> rbt BLACK n t ->
  rbc ck (S n) (FR pa pc s pk pd :: K) ->
  exists h' t', rb_erase_rebalance (S (S fuel)) h (tptr t) (Some pa) (tptr (plug (FR pa pc s pk pd :: K) t))
                  = Ok (h', tptr t') /\ erased h' (plug (FR pa pc s pk pd :: K) t) t'.
Proof.
  intros IH Hv Ht Hk. apply rbc_above in Hk as (Hroom & cs & Hs & Hcs). cbn [fcolor fsib] in *.
  unfold rb_erase_rebalance. fold (finish (rb_erase_rebalance_loop (S (S fuel)) h (tptr t) (Some pa) (tptr (plug (FR pa pc s pk pd :: K) t)))).
  assert (Hne : s <> Leaf) by (intros ->; inversion Hs).
  rewrite (loop_at_right _ _ _ _ _ _ _ _ _ _ _ Hv Ht Hne eq_refl). up Hv. cbn [plug plug1].
  inversion Hs as [|oa ol ok od or_ ? Hl Hr|oa ol ok od or_ ? cl cr Hl Hr]; subst; cbn [tptr].
  - destruct pc; [by specialize (Hcs eq_refl)|]. destruct Hroom as [ck' Hk].
    refocus Hv (FL pa BLACK pk pd t :: K) (T oa RED ol ok od or_). load Hv.
    rewrite decide_True by done. recolor Hv BLACK. up Hv. recolor Hv RED. rotate Hv rotate_right_spec.
    refocus Hv (FR oa BLACK ol ok od :: K) (T pa RED or_ pk pd t). load Hv.
    assert (Hroom : room RED n (FR oa BLACK ol ok od :: K)) by (split; [by econstructor | done]).
    destruct (turn_right fuel _ _ _ RED _ _ _ _ n ltac:(discriminate) Hroom Hv Ht Hr)
      as (h' & t' & E & V & El & R).
    exists h', t'. split; [done|]. split; [done|]. split; [|done]. rewrite El.
    cbn [plug plug1]. apply elements_plug_ext. simpl. by rewrite <- app_assoc.
  - refocus Hv (FL pa pc pk pd t :: K) (T oa BLACK ol ok od or_). load Hv.
    rewrite decide_False by done. cbn [mbind outcome_bind]. up Hv.
    by apply (turn_right fuel _ _ _ _ _ _ (T oa BLACK ol ok od or_) t n (fun _ => IH)).
Qed.

Lemma settle fuel K : (length K + 2 <= fuel)%nat -> settles fuel K.
Proof.
  revert fuel. induction K as [|f K IH]; intros fuel Hfuel h t n ck Hv Ht Hk.
  - destruct fuel as [|fuel]; [simpl in Hfuel; lia|]. by apply (erase_stop_root fuel h t n).
  - simpl in Hfuel. destruct fuel as [|[|fuel]]; [lia..|]. specialize (IH (S fuel) ltac:(lia)).
    destruct f; [by eapply settle_left | by eapply settle_right].
Qed.

(** A tree that is short of one black node, whatever its colour. *)
Lemma erase_rebalance_ok fuel h K t c n ck :
  (length K + 2 <= fuel)%nat -> valid h K t -> rbt c n t -> rbc ck (S n) K ->
  exists h' t', rb_erase_rebalance fuel h (tptr t) (cptr K) (tptr (plug K t)) = Ok (h', tptr t') /\
                erased h' (plug K t) t'.
Proof.
  intros Hfuel Hv Ht Hk. destruct c; [|by eapply settle].
  destruct fuel as [|fuel]; [lia|]. eapply erase_stop_red; try done; [by eapply rbt_color|].
  inversion Ht; subst. by econstructor.
Qed.

(** ** Unlinking a node *)

Lemma repr_delete h par t a : a ∉ addrs t -> repr (delete a h) par t <-> repr h par t.
Proof.
  revert par. induction t as [|b c l IHl k d r IHr]; intros par Ha; simpl in *; [done|].
  rewrite not_elem_of_cons, not_elem_of_app in Ha. destruct Ha as (Hb & Hl & Hr).
  rewrite lookup_delete_ne by congruence. by rewrite IHl, IHr.
Qed.

Lemma repr_ctx_delete h K q a : a ∉ caddrs K -> repr_ctx (delete a h) K q <-> repr_ctx h K q.
Proof.
  revert q. induction K as [|f K IH]; intros q Ha; simpl in *; [done|].
  rewrite not_elem_of_cons, not_elem_of_app in Ha. destruct Ha as (Hb & Hl & Hr).
  destruct f; simpl in *; rewrite lookup_delete_ne by congruence; rewrite IH, repr_delete by done; done.
Qed.

(** [free] of a node that is not in the tree. *)
Lemma valid_delete h K t a : a ∉ caddrs K ++ addrs t -> valid h K t -> valid (delete a h) K t.
Proof.
  intros [Hk Ht]%not_elem_of_app (H1 & H2 & H3). split; [|split; [|done]].
  - by rewrite repr_ctx_delete.
  - by rewrite repr_delete.
Qed.

(** [decide_ptr] with the pointer on the other side. *)
Ltac other_ptr :=
  match goal with
  | |- context [decide (tptr ?t = Some ?x)] =>
      rewrite (decide_False (P := tptr t = Some x)) by (apply not_eq_sym, tptr_ne; not_in)
  end; cbn [mbind outcome_bind].

(** A node with at most one child, replaced by that child. *)
Lemma unlink_spec h K a c l k d r t' :
  valid h K (T a c l k d r) -> (l = Leaf /\ t' = r \/ r = Leaf /\ t' = l) ->
  exists h1,
    unlink h (cptr K) (Some a) (tptr t') (tptr (plug K (T a c l k d r))) =
      Ok (h1, tptr (plug K t')) /\
    valid h1 K t' /\ h1 !! a = h !! a /\ a ∉ caddrs K ++ addrs t'.
Proof.
  intros Hv Hc.
  assert (Hnd : keep (NoDup (caddrs K ++ addrs t')) /\ a ∉ caddrs K ++ addrs t').
  { destruct Hv as (_ & _ & Hnd). cut (NoDup (a :: caddrs K ++ addrs t')).
    { intros H. apply NoDup_cons in H. tauto. }
    refine (proj1 (NoDup_Permutation_proper _ _ _) Hnd).
    destruct Hc as [[-> ->]|[-> ->]]; simpl; rewrite ?app_nil_r; solve_Permutation. }
  destruct Hnd as [Hnd Ha].
  assert (Hr : repr h (Some a) t') by (destruct Hv as (_ & (_ & ? & ?) & _), Hc as [[-> ->]|[-> ->]]; done).
  assert (Hk : repr_ctx h K (Some a)) by (destruct Hv as (? & _); done).
  clear Hv Hc. pose proof Ha as [Hak Hat]%not_elem_of_app. pose proof Hnd as Hnd'. unfold keep in Hnd'.
  assert (Ha' : keep (a ∉ caddrs K ++ addrs t')) by done.
  destruct K as [|[pa pc pk pd pr|pa pc pl pk pd] K]; destruct t' as [|z cz zl zk zd zr];
    simpl in Hr, Hk, Hnd', Hak, Hat; split_valid; nodup_split; unfold unlink, replace_child; cbn [cptr faddr tptr];
    cbn [mbind outcome_bind]; repeat (run_step || decide_ptr || other_ptr);
    (eexists; split; [do 2 f_equal; cbn [plug plug1]; by (reflexivity || apply tptr_plug)|]);
    (split; [revalid Hnd | split; [by simplify_map_eq | exact Ha']]).
Qed.

(** The node [na], already unlinked, takes the place of [a]. *)
Lemma take_place_spec h K a c l k d r na nn :
  valid h K (T a c l k d r) -> l <> Leaf -> h !! na = Some nn ->
  na ∉ caddrs K ++ addrs (T a c l k d r) ->
  let t' := T na c l (key nn) (data nn) r in
  exists h', take_place h (Some na) (Some a) (tptr (plug K (T a c l k d r))) = Ok (h', tptr (plug K t')) /\
    valid h' K t' /\ a ∉ caddrs K ++ addrs t'.
Proof.
  intros Hv Hl Hn Hna t'.
  assert (Hnd : NoDup (a :: caddrs K ++ addrs t')).
  { destruct Hv as (_ & _ & Hnd). cut (NoDup (na :: caddrs K ++ addrs (T a c l k d r))).
    { intros H. refine (proj1 (NoDup_Permutation_proper _ _ _) H). simpl. solve_Permutation. }
    by constructor. }
  apply NoDup_cons in Hnd as [Ha Hnd]. assert (Ha' : keep (a ∉ caddrs K ++ addrs t')) by done.
  assert (Hnd' : keep (NoDup (caddrs K ++ addrs t'))) by done. subst t'.
  destruct l as [|z cz zl zk zd zr]; [done|]. clear Hl. destruct nn as [nl nr np nk nd nc].
  destruct K as [|[pa pc pk pd pr|pa pc pl pk pd] K]; destruct r as [|y cy yl yk yd yr];
    simpl in Hna, Ha, Hnd; split_valid; simpl in *; nodup_split; unfold take_place, replace_child;
    repeat (run_step || decide_ptr || other_ptr);
    (eexists; split; [do 2 f_equal; cbn [plug plug1]; by (reflexivity || apply tptr_plug)|]);
    (split; [revalid Hnd' | exact Ha']).
Qed.

Lemma plug_app K1 K2 t : plug (K1 ++ K2) t = plug K2 (plug K1 t).
Proof. revert t. induction K1 as [|f K1 IH]; intros t; [done|]. apply IH. Qed.

Lemma cleft_app K1 K2 : cleft (K1 ++ K2) = cleft K2 ++ cleft K1.
Proof.
  induction K1 as [|[] K1 IH]; simpl; [by rewrite app_nil_r | done |]. rewrite IH. by rewrite <- app_assoc.
Qed.

(** The successor is the leftmost node of the right subtree. *)
Lemma leftmost_zipper fuel : forall h K t,
  valid h K t -> t <> Leaf -> (height t <= fuel)%nat ->
  exists K2 na nc nk nd nr,
    t = plug K2 (T na nc Leaf nk nd nr) /\ leftmost fuel h (tptr t) = Ok (Some na) /\
    cleft K2 = [] /\ (length K2 < height t)%nat.
Proof.
  induction fuel as [|fuel IH]; intros h K t Hv Ht Hh; (destruct t as [|a c l k d r]; [done|]); simpl in Hh; [lia|].
  cbn [leftmost tptr]. load Hv. destruct l as [|la lc ll lk ld_ lr].
  - exists [], a, c, k, d, r. simpl. repeat split; try done. lia.
  - set (l := T la lc ll lk ld_ lr) in *. refocus Hv (FL a c k d r :: K) l.
    destruct (IH h _ l Hv ltac:(done) ltac:(lia)) as (K2 & na & nc & nk & nd & nr & El & E & Hc & Hlen).
    exists (K2 ++ [FL a c k d r]), na, nc, nk, nd, nr. rewrite plug_app, cleft_app, <- El. simpl.
    rewrite length_app, Hc. simpl. repeat split; try done. simpl in Hlen. lia.
Qed.

(** ** The red-black invariants of what is left *)

(** Another node in a frame, of the same colour and with the same sibling. *)
Lemma rbc_rename ck m K2 K a c l k d na nk nd :
  rbc ck m (K2 ++ FR a c l k d :: K) -> rbc ck m (K2 ++ FR na c l nk nd :: K).
Proof.
  revert ck m. induction K2 as [|f K2 IH]; intros ck m H; simpl in *.
  - inversion H; subst; econstructor; simpl in *; done.
  - inversion H as [|? ? ? Hf Hs Hk Hne|? ? ? cs c' Hf Hs Hk]; subst; econstructor; try done; eauto.
    by destruct K2.
Qed.

(** Removing a black node leaves its child one black node short; removing a red
    one leaves a red-black tree. *)
Lemma unlink_rb K K' a c l k d r t' n :
  rbt BLACK n (plug K (T a c l k d r)) -> (l = Leaf /\ t' = r \/ r = Leaf /\ t' = l) ->
  (forall ck m, rbc ck m K -> rbc ck m K') -> (K' = [] -> K = []) ->
  match c with
  | BLACK => exists c' m ck, rbt c' m t' /\ rbc ck (S m) K'
  | RED => exists m, rbt BLACK m (plug K' t')
  end.
Proof.
  intros Hr Hc HK Hnil. apply rbt_unplug in Hr as (ct & m & ck & Ht & Hk & Hck & Hroot).
  inversion Ht as [|? ? ? ? ? ? Hl Hr|? ? ? ? ? m' cl cr Hl Hr]; subst.
  - destruct ck; [by specialize (Hck eq_refl)|].
    destruct Hc as [[-> ->]|[-> ->]]; by eapply rbt_plug_black; [apply HK | | |].
  - destruct Hc as [[-> ->]|[-> ->]]; do 3 eexists; by split; [|apply HK].
Qed.

(** ** Order *)

Lemma erase_elements k d A B t' :
  sorted (A ++ (k, d) :: B) -> elements t' = A ++ B ->
  sorted (elements t') /\ as_map t' = delete k (list_to_map (A ++ (k, d) :: B)).
Proof.
  intros Hs He. destruct (sorted_node _ _ _ _ Hs) as [HA HB]. split.
  - rewrite He. apply StronglySorted_app in Hs as (Hlr & Hsl & Hsr). inversion Hsr; subst.
    apply StronglySorted_app_2; [|done|done]. intros x1 x2 Hx1 Hx2. apply Hlr; [done|]. by right.
  - unfold as_map. rewrite He, !list_to_map_app. simpl.
    rewrite delete_union, delete_insert_eq.
    rewrite !delete_id; [done| |].
    + apply not_elem_of_list_to_map. rewrite list_elem_of_fmap. intros (p & -> & Hp).
      rewrite Forall_forall in HB. specialize (HB p Hp). lia.
    + apply not_elem_of_list_to_map. rewrite list_elem_of_fmap. intros (p & -> & Hp).
      rewrite Forall_forall in HA. specialize (HA p Hp). lia.
Qed.

(** ** Removal of the node that was found *)

(** What [rb_erase] does between the search and the rebalancing. *)
Definition remove (fuel : nat) (h : heap) (node root : ptr) : outcome (heap * ptr * ptr * ptr * color_t) :=
  let old := node in
  n ← ld h node;
  if bool_decide (left n <> None) && bool_decide (right n <> None) then
    node ← leftmost fuel h (right n);
    n ← ld h node;
    let child := right n in
    let parent_ := parent n in
    let color_ := color n in
    '(h, root) ← unlink h parent_ node child root;
    n ← ld h node;
    let parent_ := if decide (parent n = old) then node else parent_ in
    '(h, root) ← take_place h node old root;
    Ok (h, root, child, parent_, color_)
  else
    let child := if bool_decide (left n = None) then right n else left n in
    let parent_ := parent n in
    let color_ := color n in
    '(h, root) ← unlink h parent_ node child root;
    Ok (h, root, child, parent_, color_).

(** The hole it leaves: the pairs without the removed one, and one black node
    less below the hole when a black node was unlinked. *)
Definition removed (h' : heap) (K : ctx) (t : tree) (c : color_t) (els : list (Z * Z)) : Prop :=
  valid h' K t /\ elements (plug K t) = els /\
  match c with
  | BLACK => exists c' m ck, rbt c' m t /\ rbc ck (S m) K
  | RED => exists m, rbt BLACK m (plug K t)
  end.

(** A node with at most one child. *)
Lemma remove_one fuel h K a c l k d r n :
  valid h K (T a c l k d r) -> rbt BLACK n (plug K (T a c l k d r)) -> l = Leaf \/ r = Leaf ->
  exists h1 t',
    remove fuel h (Some a) (tptr (plug K (T a c l k d r))) = Ok (h1, tptr (plug K t'), tptr t', cptr K, c) /\
    removed (delete a h1) K t' c (cleft K ++ (elements l ++ elements r) ++ cright K).
Proof.
  intros Hv Hr Hlr. unfold remove. load Hv.
  assert (Hc : exists t', (l = Leaf /\ t' = r \/ r = Leaf /\ t' = l) /\
            (if bool_decide (tptr l = None) then tptr r else tptr l) = tptr t' /\
            (bool_decide (tptr l <> None) && bool_decide (tptr r <> None) = false)).
  { destruct l as [|]; [exists r; split; [by left | done]|]. destruct Hlr as [?| ->]; [done|].
    eexists (T _ _ _ _ _ _). split; [by right|]. split; [done|]. by rewrite andb_false_r. }
  destruct Hc as (t' & Hc & -> & ->).
  destruct (unlink_spec h K a c l k d r t' Hv Hc) as (h1 & E & V & _ & Ha). cbn [cptr]. rewrite E.
  cbn [mbind outcome_bind]. exists h1, t'. split; [done|]. split; [by apply valid_delete|]. split.
  - rewrite elements_plug. destruct Hc as [[-> ->]|[-> ->]]; simpl; by rewrite ?app_nil_r.
  - by eapply (unlink_rb K K a c l k d r t' n).
Qed.

(** The address above the hole, before and after the successor has moved up. *)
Lemma successor_parent h K2 K a c l k d na nk nd t :
  valid h (K2 ++ FR a c l k d :: K) t ->
  (if decide (cptr (K2 ++ FR a c l k d :: K) = Some a) then Some na else cptr (K2 ++ FR a c l k d :: K)) =
  cptr (K2 ++ FR na c l nk nd :: K).
Proof.
  intros (_ & _ & Hnd). destruct K2 as [|f K2]; simpl; [by rewrite decide_True|].
  rewrite decide_False; [done|]. intros [= E]. simpl in Hnd. rewrite E in Hnd.
  apply NoDup_cons in Hnd as [Hni _]. apply Hni. rewrite !elem_of_app. left. right.
  clear. induction K2 as [|g K2 IH]; simpl; [by left|]. right. rewrite elem_of_app. by right.
Qed.

(** A node with two children: its successor takes its place. *)
Lemma remove_two fuel h K a c l k d r n :
  valid h K (T a c l k d r) -> rbt BLACK n (plug K (T a c l k d r)) -> l <> Leaf -> r <> Leaf ->
  (height r <= fuel)%nat ->
  exists h1 K' t' c',
    remove fuel h (Some a) (tptr (plug K (T a c l k d r))) = Ok (h1, tptr (plug K' t'), tptr t', cptr K', c') /\
    removed (delete a h1) K' t' c' (cleft K ++ (elements l ++ elements r) ++ cright K) /\
    (length K' <= length K + height r)%nat.
Proof.
  intros Hv Hr Hl Hrr Hf. unfold remove. load Hv. cbn [cptr].
  rewrite !bool_decide_true by (by destruct l, r). cbn [andb]. pose proof Hv as Hv0.
  refocus Hv0 (FR a c l k d :: K) r.
  destruct (leftmost_zipper fuel h _ r Hv0 Hrr Hf) as (K2 & na & nc & nk & nd & nr & -> & -> & Hcl & Hlen).
  cbn [mbind outcome_bind]. set (K1 := K2 ++ FR a c l k d :: K).
  assert (Hv1 : valid h K1 (T na nc Leaf nk nd nr)).
  { eapply valid_refocus; [|exact Hv]. subst K1. by rewrite plug_app. }
  pose proof (focus_ld _ _ _ _ _ _ _ _ Hv1) as Hna. load Hv1.
  destruct (unlink_spec h K1 na nc Leaf nk nd nr nr Hv1 ltac:(by left)) as (h1 & E1 & V1 & L1 & A1).
  assert (Ep : forall t, plug K1 t = plug K (T a c l k d (plug K2 t))) by (intros; subst K1; by rewrite plug_app).
  rewrite !Ep in E1. rewrite E1. cbn [mbind outcome_bind].
  rewrite (ld_Some _ _ _ (eq_trans L1 Hna)). cbn [mbind outcome_bind parent].
  rewrite <- addrs_plug, Ep, addrs_plug in A1. pose proof V1 as V2.
  apply (valid_refocus _ _ _ K (T a c l k d (plug K2 nr)) (Ep nr)) in V1.
  destruct (take_place_spec h1 K a c l k d _ na _ V1 Hl (eq_trans L1 Hna) A1) as (h2 & -> & V3 & A3).
  cbn [mbind outcome_bind key data] in V3, A3 |- *. subst K1.
  rewrite (successor_parent h1 _ _ _ _ _ _ _ na nk nd nr V2).
  set (K' := K2 ++ FR na c l nk nd :: K).
  assert (Ep' : plug K (T na c l nk nd (plug K2 nr)) = plug K' nr) by (subst K'; by rewrite plug_app).
  exists h2, K', nr, nc. split; [by rewrite <- Ep'|]. split; [split; [|split]|].
  - eapply valid_refocus; [exact Ep'|]. by apply valid_delete.
  - rewrite <- Ep', !elements_plug. simpl. rewrite !elements_plug, Hcl. simpl. by rewrite <- !app_assoc.
  - eapply (unlink_rb (K2 ++ FR a c l k d :: K) K' na nc Leaf nk nd nr nr n).
    + by rewrite plug_app.
    + by left.
    + intros ck m. apply rbc_rename.
    + by destruct K2.
  - subst K'. rewrite length_app. simpl. lia.
Qed.

Lemma remove_ok fuel h K a c l k d r n :
  valid h K (T a c l k d r) -> rbt BLACK n (plug K (T a c l k d r)) -> (height r <= fuel)%nat ->
  exists h1 K' t' c',
    remove fuel h (Some a) (tptr (plug K (T a c l k d r))) = Ok (h1, tptr (plug K' t'), tptr t', cptr K', c') /\
    removed (delete a h1) K' t' c' (cleft K ++ (elements l ++ elements r) ++ cright K) /\
    (length K' <= length K + height r)%nat.
Proof.
  intros Hv Hr Hf. assert (Hlr : (l = Leaf \/ r = Leaf) \/ ~ (l = Leaf \/ r = Leaf))
    by (destruct l; [tauto|]; destruct r; [tauto|]; right; by intros [|]).
  destruct Hlr as [Hlr|Hlr].
  - destruct (remove_one fuel h K a c l k d r n Hv Hr Hlr) as (h1 & t' & E & H).
    exists h1, K, t', c. split; [done|]. split; [done|]. lia.
  - by apply (remove_two fuel h K a c l k d r n); tauto.
Qed.

Lemma height_plug K t : (length K + height t <= height (plug K t))%nat.
Proof.
  revert t. induction K as [|f K IH]; intros t; simpl; [lia|]. specialize (IH (plug1 f t)).
  destruct f; simpl in *; lia.
Qed.

(** [rb_erase] on a represented tree. *)
Lemma rb_erase_map h root t key_ fuel :
  rb_tree h root t -> key_ok key_ -> (height t + 3 <= fuel)%nat ->
  exists h' t',
    rb_erase fuel h key_ root = Ok (h', tptr t') /\ rb_tree h' (tptr t') t' /\
    as_map t' = delete key_ (as_map t).
Proof.
  intros [Hv -> Hs Hks [n Hn]] Hk Hf.
  destruct (search_zipper fuel h key_ t []) as (K & t1 & E & Ep & Hloc & Hlen & Hm); try done; [lia|].
  unfold rb_erase, rb_search, rb_search_auxiliary. cbn [cptr] in E. rewrite E. cbn [mbind outcome_bind].
  simpl in Ep. subst t. destruct t1 as [|a c l k d r]; cbn [tptr].
  { exists h, (plug K Leaf). split; [done|]. split; [split; eauto|].
    by rewrite delete_id by (by apply located_absent). }
  subst k. apply (valid_refocus h [] _ K (T a c l key_ d r) eq_refl) in Hv.
  destruct (remove_ok fuel h K a c l key_ d r n Hv Hn) as (h1 & K' & t' & c' & Erem & (V & El & R) & Hlen').
  { pose proof (height_plug K (T a c l key_ d r)). simpl in *. lia. }
  unfold remove in Erem. rewrite (ld_Some _ _ _ (focus_ld _ _ _ _ _ _ _ _ Hv)) in Erem |- *.
  cbn [mbind outcome_bind] in Erem |- *. rewrite Erem. cbn [mbind outcome_bind].
  assert (Hfin : exists h' t2, (if decide (c' = BLACK) then rb_erase_rebalance fuel (delete a h1) (tptr t') (cptr K') (tptr (plug K' t'))
                     else Ok (delete a h1, tptr (plug K' t'))) = Ok (h', tptr t2) /\ erased h' (plug K' t') t2).
  { destruct c'; cbn [decide].
    - exists (delete a h1), (plug K' t'). split; [done|]. by split; [apply (valid_refocus _ K' t')|].
    - destruct R as (c2 & m & ck & Rt & RK). eapply erase_rebalance_ok; try done.
      pose proof (height_plug K (T a c l key_ d r)). simpl in *. lia. }
  destruct Hfin as (h' & t2 & -> & V2 & El2 & R2). exists h', t2. split; [done|].
  rewrite El in El2. rewrite elements_plug in Hs, Hks. simpl in Hs, Hks.
  rewrite <- !app_assoc in Hs, Hks. simpl in Hs, Hks. rewrite app_assoc in Hs.
  destruct (erase_elements key_ d (cleft K ++ elements l) (elements r ++ cright K) t2 Hs) as [Hs' Hm'].
  { rewrite El2. by rewrite <- !app_assoc. }
  split.
  - split; try done. rewrite El2. rewrite !Forall_app, Forall_cons, !Forall_app in Hks. rewrite !Forall_app. tauto.
  - rewrite Hm'. unfold as_map. rewrite elements_plug. simpl. by rewrite <- !app_assoc.
Qed.

(** ** Properties *)

(** C4: [rb_erase] refines deletion from a finite map: the binding of the key is gone
    (nothing changes when there was none), every other binding is kept, and the
    result is a red-black search tree again.  It never reads the node it has
    freed, never dereferences a null pointer, and always returns, in
    2 log2 (n + 1) + 3 turns of each of its loops.  Keys are within 2^30 of 0 ([key_ok]). *)
Theorem rb_erase_refines h root t key_ fuel :
  rb_tree h root t -> key_ok key_ -> (2 * Nat.log2 (size t + 1) + 3 <= fuel)%nat ->
  exists h' t',
    rb_erase fuel h key_ root = Ok (h', tptr t') /\ rb_tree h' (tptr t') t' /\
    as_map t' = delete key_ (as_map t).
Proof. intros Ht Hk Hf. apply rb_erase_map; [done..|]. pose proof (rb_tree_height _ _ _ Ht). lia. Qed.

(** ** Concrete trees *)

(** The tree that inserting 4, 2, 6, 1, 3, 5, 7 builds. *)
Definition seven : tree :=
  T 5 BLACK (T 3 BLACK (T 2 RED Leaf 1 10 Leaf) 2 20 (T 4 RED Leaf 3 30 Leaf)) 4 40
            (T 7 BLACK (T 6 RED Leaf 5 50 Leaf) 6 60 (T 8 RED Leaf 7 70 Leaf)).
Definition seven_heap : heap := match insert_all [4; 2; 6; 1; 3; 5; 7] with Ok (h, _) => h | Fault _ => ∅ end.

Lemma seven_rb : rb_tree seven_heap (Some 5%positive) seven.
Proof.
  split; [split; [done|split; [by vm_compute|]] | done | | | ].
  - by_compute.
  - repeat (constructor; try (unfold klt; simpl; lia)).
  - repeat constructor; unfold key_ok; simpl; lia.
  - exists 2%nat. by repeat econstructor.
Qed.

(** Erasing the root, whose successor 5 moves up, and an absent key. *)
Lemma rb_erase_refines_witness :
  (exists h' t', rb_erase 9 seven_heap 4 (Some 5%positive) = Ok (h', tptr t') /\
     rb_tree h' (tptr t') t' /\ as_map t' = delete 4 (as_map seven)) /\
  (exists h' t', rb_erase 9 seven_heap 9 (Some 5%positive) = Ok (h', tptr t') /\
     rb_tree h' (tptr t') t' /\ as_map t' = delete 9 (as_map seven)).
Proof.
  split; apply (rb_erase_refines _ _ seven _ 9 seven_rb); first [unfold key_ok; lia | by vm_compute; lia].
Defined.
