(* ===== verification/RbMain.v ===== *)
(** * Red-black trees: the test program (main of data_struct/btree/rbtree.c)

    Nine thousand random keys are inserted and searched, every tenth is erased.
    [rand] is the list of its results, [malloc] a function of the heap. *)

From stdpp Require Import base numbers list gmap.
From S2P Require Import Prelude RbTree RbZipper RbInsert RbErase.

#[local] Open Scope Z_scope.

(** The lines [main] prints: the number of the turn and the key. *)
Inductive main_line :=
| insert_success (i key_ : Z)
| insert_error (i key_ : Z)
| search_success (i key_ : Z)
| search_error (i key_ : Z)
| erase_success (i key_ : Z)
| erase_error (i key_ : Z).

#[global] Instance main_line_eq_dec : EqDecision main_line.
Proof. solve_decision. Defined.

Definition count : Z := 9000.

Section Main.
Context (malloc : heap -> positive) (junk : rb_node_t) (fuel : nat).

(** The loop from turn [i] on; the exit status, 255 for [exit(-1)]. *)
Fixpoint main_loop (rands : list Z) (i : Z) (h : heap) (root : ptr) (out : list main_line)
    : outcome (list main_line * Z) :=
  match rands with
  | [] => Ok (out, 0)
  | rand :: rands =>
      let key_ := Z.rem rand count in
      '(h, root) ← rb_insert fuel h (malloc h) junk key_ i root;
      match root with
      | None => Ok (out ++ [insert_error i key_], 255)
      | Some _ =>
          node ← rb_search fuel h key_ root;
          match node with
          | None => Ok (out ++ [insert_success i key_; search_error i key_], 255)
          | Some _ =>
              let out := out ++ [insert_success i key_; search_success i key_] in
              if decide (Z.rem i 10 = 0) then
                '(h, root) ← rb_erase fuel h key_ root;
                let out := out ++ [if root is Some _ then erase_success i key_ else erase_error i key_] in
                main_loop rands (i + 1) h root out
              else main_loop rands (i + 1) h root out
          end
      end
  end.

(** [for (i = 1; i < count; ++i)] takes [count - 1] results of [rand]. *)
Definition main_ (rands : list Z) : outcome (list main_line * Z) := main_loop rands 1 ∅ None [].

(** ** What the program should print, on a finite map *)

Fixpoint expected (rands : list Z) (i : Z) (m : gmap Z Z) : list main_line :=
  match rands with
  | [] => []
  | rand :: rands =>
      let key_ := rand `mod` count in
      let m := if m !! key_ is Some _ then m else <[key_ := i]> m in
      insert_success i key_ :: search_success i key_ ::
      (if decide (i `mod` 10 = 0) then
         let m := delete key_ m in
         (if decide (m = ∅) then erase_error i key_ else erase_success i key_) :: expected rands (i + 1) m
       else expected rands (i + 1) m)
  end.

Hypothesis malloc_fresh : forall h, h !! malloc h = None.

Hypothesis enough_fuel : (29 <= fuel)%nat.

Lemma size_as_map h root t : rb_tree h root t -> base.size (as_map t) = size t.
Proof. intros Ht. apply map_size_list_to_map, sorted_nodup, Ht. Qed.

(** The tree is empty exactly when the map is. *)
Lemma as_map_empty h root t : rb_tree h root t -> as_map t = ∅ <-> tptr t = None.
Proof.
  intros Ht. destruct t as [|a c l k d r]; [done|]. split; [|done]. intros E.
  pose proof (size_as_map _ _ _ Ht) as Hs. rewrite E, map_size_empty, size_node in Hs. done.
Qed.

(** With fewer than [count] keys the fuel is enough. *)
Lemma height_bound h root t :
  rb_tree h root t -> Z.of_nat (base.size (as_map t)) < count -> (height t + 3 <= fuel)%nat.
Proof.
  intros Ht Hs. pose proof (rb_tree_height _ _ _ Ht) as Hh. rewrite (size_as_map _ _ _ Ht) in Hs.
  assert (Hl : (Nat.log2 (size t + 1) < 14)%nat); [|lia].
  apply Nat.log2_lt_pow2; [lia|]. apply Nat2Z.inj_lt. rewrite Nat2Z.inj_pow.
  change (Z.of_nat 2 ^ Z.of_nat 14) with 16384. unfold count in Hs. lia.
Qed.

Lemma main_loop_prints rands : forall i h t out,
  Forall (fun x => 0 <= x) rands -> 1 <= i -> i + Zlen rands <= count ->
  rb_tree h (tptr t) t -> Z.of_nat (base.size (as_map t)) < i ->
  main_loop rands i h (tptr t) out = Ok (out ++ expected rands i (as_map t), 0).
Proof.
  induction rands as [|rand rands IH]; intros i h t out Hr Hi Hc Ht Hs.
  { by rewrite app_nil_r. }
  apply Forall_cons in Hr as [Hr0 Hr]. unfold Zlen in *. simpl length in Hc.
  cbn [main_loop expected]. rewrite (Z.rem_mod_nonneg rand), (Z.rem_mod_nonneg i) by (unfold count; lia).
  set (key_ := rand `mod` count). assert (Hk : 0 <= key_ < count) by (apply Z.mod_pos_bound; done).
  assert (Hk' : key_ok key_) by (unfold key_ok, count in *; lia).
  destruct (rb_insert_map h (tptr t) t (malloc h) junk key_ i fuel Ht (malloc_fresh h) Hk')
    as (h1 & t1 & -> & Ht1 & Hm1); [eapply height_bound; [done|lia]|]. cbn [mbind outcome_bind].
  set (m1 := if as_map t !! key_ is Some _ then as_map t else <[key_:=i]> (as_map t)) in *.
  assert (Hin : exists d, m1 !! key_ = Some d).
  { subst m1. destruct (as_map t !! key_) eqn:E; [by eexists|]. exists i. by simplify_map_eq. }
  destruct Hin as [d Hin].
  assert (Hs1 : Z.of_nat (base.size m1) < i + 1).
  { subst m1. destruct (as_map t !! key_) eqn:E; [lia|]. rewrite map_size_insert_None by done. lia. }
  pose proof (height_bound _ _ _ Ht1 ltac:(rewrite Hm1; lia)) as Hf1.
  assert (Hne : exists a, tptr t1 = Some a).
  { destruct (tptr t1) eqn:E; [by eexists|]. apply (as_map_empty _ _ _ Ht1) in E. rewrite Hm1 in E.
    by rewrite E, lookup_empty in Hin. }
  destruct Hne as [a Ea]. rewrite Ea.
  destruct (rb_search_map h1 (tptr t1) t1 key_ fuel Ht1 Hk') as (p & Ep & Hp); [lia|].
  rewrite Ea in Ep. rewrite Ep. cbn [mbind outcome_bind]. rewrite Hm1, Hin in Hp.
  destruct Hp as (b & _ & -> & _).
  destruct (decide (i `mod` 10 = 0)) as [H10|H10].
  - destruct (rb_erase_map h1 (tptr t1) t1 key_ fuel Ht1 Hk') as (h2 & t2 & E2 & Ht2 & Hm2); [lia|].
    rewrite Ea in E2. rewrite E2. cbn [mbind outcome_bind].
    rewrite (IH (i + 1) h2 t2) by (done || lia || (rewrite Hm2, Hm1, map_size_delete, Hin; lia)).
    rewrite Hm2, Hm1, <- !app_assoc. do 4 f_equal. simpl.
    f_equal. rewrite <- Hm1, <- Hm2. pose proof (as_map_empty _ _ _ Ht2) as He.
    destruct (tptr t2), (decide (as_map t2 = ∅)) as [E|E]; try done; [by apply He in E | by destruct E; apply He].
  - rewrite <- Ea. rewrite (IH (i + 1) h1 t1) by (done || lia || (rewrite Hm1; lia)).
    by rewrite Hm1, <- app_assoc.
Qed.

(** The test program succeeds: whatever [rand] returns, no insertion and no search
    ever fails, no null or freed pointer is used, the program returns 0, and its
    output is the one computed on a finite map; an erasure is reported as an error
    exactly when it empties the tree. *)
Lemma main_prints rands :
  Forall (fun x => 0 <= x) rands -> Zlen rands = count - 1 ->
  main_ rands = Ok (expected rands 1 ∅, 0).
Proof.
  intros Hr Hl. unfold main_. apply (main_loop_prints rands 1 ∅ Leaf []); try done; [lia|].
  split; try done; [split; [done|split; [done|constructor]] | constructor | by exists 0%nat; constructor].
Qed.
End Main.

(** ** A concrete allocator *)

(** The first free address above all used ones. *)
Definition bump (h : heap) : positive := fresh (dom h : gset positive).

Lemma bump_fresh h : h !! bump h = None.
Proof.
  apply (not_elem_of_dom (D := gset positive)). unfold bump.
  exact (is_fresh (dom h : gset positive)).
Qed.

Definition blank : rb_node_t := Node None None None 0 0 RED.

(** A whole run: keys in an arithmetic progression. *)
Lemma main_prints_witness :
  let rands := (fun k => k * 7919 + 13) <$> seqZ 0 8999 in
  main_ bump blank 29 rands = Ok (expected rands 1 ∅, 0).
Proof.
  intros rands. apply main_prints; [apply bump_fresh | lia | |].
  - apply Forall_forall. intros x (k & -> & Hk)%list_elem_of_fmap. apply elem_of_seqZ in Hk. lia.
  - unfold Zlen, rands. by rewrite length_fmap, length_seqZ.
Defined.

(** Ten equal keys: nine of the insertions change nothing, the erasure empties the
    tree and is called an error. *)
Lemma erasing_the_last_key_is_an_error :
  main_ bump blank 29 (replicate 10 5) =
  Ok (concat ((fun i => [insert_success i 5; search_success i 5]) <$> seqZ 1 10) ++ [erase_error 10 5], 0).
Proof. by vm_compute. Qed.
