(* ===== verification/ListLoop.v ===== *)
(** * Cycles in linked lists (data_struct/linked_list/loop.c and loop2.c)

    Both methods, the counted walks of [has_loop] and the two speeds of
    [has_loop2], are shown to return and to decide whether following [next] from
    the head ever ends.  The two files hold the same two functions; only the lists
    their [main] builds differ. *)

From stdpp Require Import base numbers list gmap finite.
From S2P Require Import Prelude.

#[local] Open Scope Z_scope.

Abbreviation nptr := (option positive).

(** The member [val] is never read. *)
Record node := mk_node { val : Z; next : nptr }.
Abbreviation nheap := (gmap positive node).

Definition get_next (h : nheap) (p : nptr) : outcome nptr :=
  match p with
  | None => Fault NullDeref
  | Some a => match h !! a with Some n => Ok (next n) | None => Fault NullDeref end
  end.

Definition set_next (h : nheap) (p q : nptr) : outcome nheap :=
  match p with
  | None => Fault NullDeref
  | Some a => match h !! a with
              | Some n => Ok (<[a := mk_node (val n) q]> h)
              | None => Fault NullDeref
              end
  end.

(** ** Method 1 *)

(** What the inner loop of [has_loop] ends with. *)
Inductive inner_exit := Return1 | Broke | Ended.

(** The inner [while (cur2)]; [pos1] and [pos2] are [int]s. *)
Fixpoint inner_loop (fuel : nat) (h : nheap) (cur1 cur2 : nptr) (pos1 pos2 : Z) : outcome inner_exit :=
  match cur2 with
  | None => Ok Ended
  | Some _ =>
      match fuel with
      | O => Fault OutOfFuel
      | S fuel =>
          let pos2 := s32 (pos2 + 1) in
          if decide (cur2 = cur1) then
            if decide (pos1 = pos2) then Ok Broke else Ok Return1
          else
            cur2 ← get_next h cur2;
            inner_loop fuel h cur1 cur2 pos1 pos2
      end
  end.

(** The outer [while (cur1)]; every run of the inner loop has its own fuel. *)
Fixpoint outer_loop (fuel inner : nat) (h : nheap) (head cur1 : nptr) (pos1 : Z) : outcome Z :=
  match cur1 with
  | None => Ok 0
  | Some _ =>
      match fuel with
      | O => Fault OutOfFuel
      | S fuel =>
          let pos1 := s32 (pos1 + 1) in
          e ← inner_loop inner h cur1 head pos1 0;
          match e with
          | Return1 => Ok 1
          | Broke | Ended =>
              cur1 ← get_next h cur1;
              outer_loop fuel inner h head cur1 pos1
          end
      end
  end.

Definition has_loop (fuel : nat) (h : nheap) (head : nptr) : outcome Z :=
  outer_loop fuel fuel h head head 0.

(** ** Method 2 *)

Fixpoint two_speeds (fuel : nat) (h : nheap) (p q : nptr) : outcome Z :=
  if bool_decide (p <> None) && bool_decide (q <> None) then
    match fuel with
    | O => Fault OutOfFuel
    | S fuel =>
        p ← get_next h p;
        q ← get_next h q;
        q ← (if q is Some _ then get_next h q else Ok q);
        if bool_decide (p <> None) && bool_decide (p = q) then Ok 1
        else two_speeds fuel h p q
    end
  else Ok 0.

Definition has_loop2 (fuel : nat) (h : nheap) (head : nptr) : outcome Z := two_speeds fuel h head head.

(** ** The programs *)

(** [arr[i - 1]->next = arr[i]] for every neighbouring pair. *)
Fixpoint link_all (h : nheap) (arr : list positive) : outcome nheap :=
  match arr with
  | a :: ((b :: _) as rest) => h ← set_next h (Some a) (Some b); link_all h rest
  | _ => Ok h
  end.

(** [main] of loop.c: eight nodes, the seventh linked back to the first. *)
Definition loop_main (fuel : nat) (arr : list positive) (h : nheap) : outcome (Z * Z) :=
  h ← link_all h arr;
  last_ ← rd arr 7;
  h ← set_next h (Some last_) None;
  seventh ← rd arr 6;
  first ← rd arr 0;
  h ← set_next h (Some seventh) (Some first);
  r1 ← has_loop fuel h (Some first);
  r2 ← has_loop2 fuel h (Some first);
  Ok (r1, r2).

(** [main] of loop2.c: ten nodes in a line. *)
Definition loop2_main (fuel : nat) (arr : list positive) (h : nheap) : outcome (Z * Z) :=
  h ← link_all h arr;
  last_ ← rd arr 9;
  h ← set_next h (Some last_) None;
  first ← rd arr 0;
  r1 ← has_loop fuel h (Some first);
  r2 ← has_loop2 fuel h (Some first);
  Ok (r1, r2).

(** Some addresses with indeterminate contents. *)
Definition addresses (n : nat) : list positive := Pos.of_nat <$> seq 1 n.
Definition garbage (n : nat) : nheap := list_to_map ((fun a => (a, mk_node 0 None)) <$> addresses n).

Lemma mains_run :
  loop_main 9 (addresses 8) (garbage 8) = Ok (1, 1) /\ loop2_main 11 (addresses 10) (garbage 10) = Ok (0, 0).
Proof. by vm_compute. Qed.

(** ** Following [next] *)

(** The [k]-th node from [p]; [NULL] once the list has ended. *)
Definition step (h : nheap) (p : nptr) : nptr := a ← p; n ← h !! a; next n.
Definition node_at (h : nheap) (p : nptr) (k : nat) : nptr := Nat.iter k (step h) p.

(** Every pointer in the heap leads to a node. *)
Definition in_heap (h : nheap) (p : nptr) : Prop := match p with Some a => is_Some (h !! a) | None => True end.
Definition closed (h : nheap) : Prop := map_Forall (fun _ n => in_heap h (next n)) h.

#[global] Instance in_heap_dec h p : Decision (in_heap h p).
Proof. destruct p; apply _. Defined.
#[global] Instance closed_dec h : Decision (closed h).
Proof. unfold closed. apply _. Defined.

(** The list never ends. *)
Definition cyclic (h : nheap) (head : nptr) : Prop := forall k, node_at h head k <> None.

Section Walk.
Context (h : nheap) (Hclosed : closed h).

Lemma node_at_S p k : node_at h p (S k) = step h (node_at h p k).
Proof. done. Qed.

Lemma node_at_add p i k : node_at h p (i + k) = node_at h (node_at h p k) i.
Proof. unfold node_at. by rewrite Nat.iter_add. Qed.

Lemma node_at_None k : node_at h None k = None.
Proof. induction k as [|k IH]; [done|]. by rewrite node_at_S, IH. Qed.

Lemma node_at_ended p k i : node_at h p k = None -> (k <= i)%nat -> node_at h p i = None.
Proof.
  intros E Hi. replace i with ((i - k) + k)%nat by lia. rewrite node_at_add, E. apply node_at_None.
Qed.

Lemma step_in_heap p : in_heap h p -> in_heap h (step h p).
Proof.
  destruct p as [a|]; [|done]. intros [n Hn]. unfold step. simpl. rewrite Hn. simpl.
  by apply (Hclosed a).
Qed.

Lemma node_at_in_heap p k : in_heap h p -> in_heap h (node_at h p k).
Proof. intros Hp. induction k as [|k IH]; [done|]. by apply step_in_heap. Qed.

(** [cur = cur->next] in a closed heap. *)
Lemma get_next_step p : in_heap h p -> p <> None -> get_next h p = Ok (step h p).
Proof. destruct p as [a|]; [|done]. intros [n Hn] _. simpl. by rewrite Hn. Qed.

(** A node met twice means a cycle. *)
Lemma repeat_cyclic p i j :
  (i < j)%nat -> node_at h p i = node_at h p j -> node_at h p i <> None -> cyclic h p.
Proof.
  intros Hij E Hne.
  assert (Hrep : forall m, node_at h p (i + m * (j - i)) = node_at h p i).
  { induction m as [|m IH]; [by rewrite Nat.add_0_r|].
    replace (i + S m * (j - i))%nat with ((j - i) + (i + m * (j - i)))%nat by lia.
    rewrite node_at_add, IH, <- node_at_add. replace (j - i + i)%nat with j by lia. done. }
  intros k Hk. apply Hne. rewrite <- (Hrep k). apply (node_at_ended p k); [done|].
  destruct (j - i)%nat eqn:Ed; [lia|]. nia.
Qed.

(** Among the first [size h + 1] nodes of a list that is longer one occurs twice. *)
Lemma long_repeat p :
  in_heap h p -> node_at h p (size h) <> None ->
  exists i j, (i < j <= size h)%nat /\ node_at h p i = node_at h p j.
Proof.
  intros Hp Hc.
  assert (Hf : forall k, (k <= size h)%nat -> exists a, node_at h p k = Some a /\ a ∈ dom h).
  { intros k Hk. pose proof (node_at_in_heap p k Hp) as Hin.
    destruct (node_at h p k) as [a|] eqn:E; [|by destruct Hc; apply (node_at_ended p k)].
    exists a. split; [done|]. by apply elem_of_dom. }
  set (l := (fun k => default 1%positive (node_at h p k)) <$> seq 0 (S (size h))).
  destruct (list_pigeonhole l (elements (dom h))) as (i & j & a & Hij & Hi & Hj).
  - intros a (k & -> & Hk)%list_elem_of_fmap. apply elem_of_seq in Hk.
    destruct (Hf k ltac:(lia)) as (a & -> & Ha). by apply elem_of_elements.
  - unfold l. rewrite length_fmap, length_seq.
    change (length (elements (dom h))) with (size (dom h : gset positive)). rewrite size_dom. lia.
  - unfold l in Hi, Hj. rewrite list_lookup_fmap in Hi, Hj.
    apply fmap_Some in Hi as (i' & Hi & ->), Hj as (j' & Hj & Ej).
    apply lookup_seq in Hi as [-> ?], Hj as [-> ?]. simpl in Ej.
    exists i, j. split; [lia|]. destruct (Hf i ltac:(lia)) as (x & Ex & _), (Hf j ltac:(lia)) as (y & Ey & _).
    rewrite Ex, Ey in *. simpl in Ej. congruence.
Qed.

(** ** Method 2 *)

(** After [k] turns the pointers are at nodes [k] and [2 k]. *)
Lemma two_speeds_turn p k fuel :
  in_heap h p -> node_at h p k <> None -> node_at h p (2 * k) <> None ->
  two_speeds (S fuel) h (node_at h p k) (node_at h p (2 * k)) =
    if bool_decide (node_at h p (S k) <> None) && bool_decide (node_at h p (S k) = node_at h p (2 * S k))
    then Ok 1 else two_speeds fuel h (node_at h p (S k)) (node_at h p (2 * S k)).
Proof.
  intros Hp Hk H2k. cbn [two_speeds]. rewrite !bool_decide_true by done. cbn [andb].
  pose proof (node_at_in_heap p k Hp). pose proof (node_at_in_heap p (2 * k) Hp).
  rewrite !get_next_step by done. cbn [mbind outcome_bind]. rewrite <- !node_at_S.
  replace (2 * S k)%nat with (S (S (2 * k))) by lia.
  destruct (node_at h p (S (2 * k))) as [a|] eqn:E.
  - rewrite <- E. rewrite get_next_step; [by cbn [mbind outcome_bind]| |by rewrite E].
    by apply node_at_in_heap.
  - cbn [mbind outcome_bind]. by rewrite (node_at_S p (S (2 * k))), E.
Qed.

Lemma two_speeds_stops p k fuel :
  node_at h p (2 * k) = None ->
  two_speeds fuel h (node_at h p k) (node_at h p (2 * k)) = Ok 0.
Proof. intros ->. destruct fuel; simpl; by rewrite andb_false_r. Qed.

(** In an endless list the pointers meet at some turn [m]. *)
Lemma two_speeds_meet p m fuel k :
  in_heap h p -> cyclic h p -> (k < m)%nat -> node_at h p m = node_at h p (2 * m) -> (m - k <= fuel)%nat ->
  two_speeds fuel h (node_at h p k) (node_at h p (2 * k)) = Ok 1.
Proof.
  intros Hp Hc Hk Hm Hf. revert k Hk Hf. induction fuel as [|fuel IH]; intros k Hk Hf; [lia|].
  rewrite two_speeds_turn by (done || apply Hc). destruct (bool_decide _ && _) eqn:E; [done|].
  destruct (decide (S k = m)) as [Em|Hne].
  - subst m. rewrite (bool_decide_true _ (Hc (S k))), bool_decide_true in E by done. done.
  - apply IH; lia.
Qed.

(** In a list that ends the fast pointer reaches the end. *)
Lemma two_speeds_end p e fuel k :
  in_heap h p -> node_at h p e = None -> (e - k <= fuel)%nat ->
  two_speeds fuel h (node_at h p k) (node_at h p (2 * k)) = Ok 0.
Proof.
  intros Hp He. revert k. induction fuel as [|fuel IH]; intros k Hf.
  - apply two_speeds_stops, (node_at_ended p e); [done|lia].
  - destruct (node_at h p (2 * k)) as [a|] eqn:E2; [|rewrite <- E2; by apply two_speeds_stops].
    rewrite <- E2. assert (Hk : node_at h p k <> None).
    { intros E. by rewrite (node_at_ended p k (2 * k) E ltac:(lia)) in E2. }
    rewrite two_speeds_turn by (done || by rewrite E2).
    destruct (bool_decide _ && _) eqn:E; [|apply IH; lia]. exfalso.
    apply andb_true_iff in E as [Hne%bool_decide_eq_true E%bool_decide_eq_true].
    by apply (repeat_cyclic p (S k) (2 * S k) ltac:(lia) E Hne e).
Qed.

(** The meeting point: a multiple of the period, past the first repeated node. *)
Lemma meeting_point p :
  in_heap h p -> cyclic h p ->
  exists m, (0 < m <= size h)%nat /\ node_at h p m = node_at h p (2 * m).
Proof.
  intros Hp Hc. destruct (long_repeat p Hp (Hc _)) as (i & j & Hij & E).
  set (d := (j - i)%nat). assert (Hd : (0 < d)%nat) by lia.
  assert (Hper : forall k r, (i <= k)%nat -> node_at h p (r * d + k) = node_at h p k).
  { intros k r Hk. induction r as [|r IH]; [done|].
    replace (S r * d + k)%nat with ((k + r * d - i) + j)%nat by (unfold d; nia).
    rewrite node_at_add, <- E, <- node_at_add, <- IH. f_equal. unfold d. nia. }
  exists (S (i / d) * d)%nat. pose proof (Nat.div_mod_eq i d) as Hdiv.
  pose proof (Nat.mod_upper_bound i d ltac:(lia)) as Hmod. split; [unfold d in *; nia|].
  replace (2 * (S (i / d) * d))%nat with (S (i / d) * d + S (i / d) * d)%nat by lia.
  rewrite Hper; [done|nia].
Qed.

(** ** Method 1 *)

(** No node before [i] is repeated by it. *)
Definition not_seen (p : nptr) (i : nat) : Prop := forall m, (m < i)%nat -> node_at h p m <> node_at h p i.

#[local] Instance not_seen_dec p i : Decision (not_seen p i).
Proof.
  unfold not_seen. destruct (decide (Forall (fun m => node_at h p m <> node_at h p i) (seq 0 i))) as [H|H].
  - left. intros m Hm. rewrite Forall_forall in H. apply H, elem_of_seq. lia.
  - right. intros H'. apply H, Forall_forall. intros m Hm%elem_of_seq. apply H'. lia.
Defined.

(** The inner loop finds the first occurrence of node [i]. *)
Lemma inner_loop_finds p i fuel k :
  in_heap h p -> (i <= size h)%nat -> Z.of_nat (size h) < 2 ^ 31 - 1 -> node_at h p i <> None ->
  (k <= i < fuel + k)%nat -> (forall m, (m < k)%nat -> node_at h p m <> node_at h p i) ->
  inner_loop fuel h (node_at h p i) (node_at h p k) (Z.of_nat (S i)) (Z.of_nat k) =
    Ok (if decide (not_seen p i) then Broke else Return1).
Proof.
  intros Hp Hi Hsz Hne. revert k. induction fuel as [|fuel IH]; intros k Hk Hnew; [lia|].
  assert (Hkn : node_at h p k <> None).
  { intros E. apply Hne, (node_at_ended p k i E). lia. }
  cbn [inner_loop]. destruct (node_at h p k) as [a|] eqn:Ek; [|done]. rewrite <- Ek in *.
  assert (Hpos : s32 (Z.of_nat k + 1) = Z.of_nat (S k)).
  { unfold s32. change (2 ^ 31 - 1) with 2147483647 in Hsz. rewrite Z.mod_small by lia. lia. }
  rewrite Hpos. destruct (decide (node_at h p k = node_at h p i)) as [E|E].
  - destruct (decide (Z.of_nat (S i) = Z.of_nat (S k))) as [Eki|Eki].
    + assert (k = i) as -> by lia. rewrite decide_True; [done|]. exact Hnew.
    + rewrite decide_False; [done|]. intros Hn. apply (Hn k); [lia|done].
  - rewrite get_next_step by (done || by apply node_at_in_heap). cbn [mbind outcome_bind].
    rewrite <- node_at_S. apply IH.
    + split; [|lia]. destruct (decide (k = i)) as [->|]; [done|lia].
    + intros m Hm. destruct (decide (m = k)) as [->|]; [done|]. apply Hnew. lia.
Qed.

(** One turn of the outer loop. *)
Lemma outer_loop_turn p i fuel inner :
  in_heap h p -> (i <= size h)%nat -> Z.of_nat (size h) < 2 ^ 31 - 1 -> node_at h p i <> None -> (i < inner)%nat ->
  outer_loop (S fuel) inner h p (node_at h p i) (Z.of_nat i) =
    if decide (not_seen p i) then outer_loop fuel inner h p (node_at h p (S i)) (Z.of_nat (S i)) else Ok 1.
Proof.
  intros Hp Hi Hsz Hne Hin. cbn [outer_loop]. destruct (node_at h p i) as [a|] eqn:Ei; [|done].
  rewrite <- Ei in *.
  assert (Hpos : s32 (Z.of_nat i + 1) = Z.of_nat (S i)).
  { unfold s32. change (2 ^ 31 - 1) with 2147483647 in Hsz. rewrite Z.mod_small by lia. lia. }
  rewrite Hpos.
  assert (E : inner_loop inner h (node_at h p i) p (Z.of_nat (S i)) 0 =
              Ok (if decide (not_seen p i) then Broke else Return1))
    by (apply (inner_loop_finds p i inner 0); done || lia).
  rewrite E. cbn [mbind outcome_bind].
  destruct (decide (not_seen p i)); [|done].
  by rewrite get_next_step by (done || by apply node_at_in_heap).
Qed.

(** The outer loop returns 1 at the first repeated node. *)
Lemma outer_loop_cyclic p j fuel inner i :
  in_heap h p -> cyclic h p -> Z.of_nat (size h) < 2 ^ 31 - 1 -> (j <= size h)%nat -> ~ not_seen p j ->
  (i <= j < fuel + i)%nat -> (j < inner)%nat ->
  outer_loop fuel inner h p (node_at h p i) (Z.of_nat i) = Ok 1.
Proof.
  intros Hp Hc Hsz Hj Hrep Hi Hin. revert i Hi. induction fuel as [|fuel IH]; intros i Hi; [lia|].
  rewrite outer_loop_turn by (done || lia || apply Hc).
  destruct (decide (not_seen p i)) as [Hn|]; [|done]. apply IH. split; [|lia].
  destruct (decide (i = j)) as [->|]; [done|lia].
Qed.

(** In a list that ends no node is repeated. *)
Lemma outer_loop_ends p e fuel inner i :
  in_heap h p -> Z.of_nat (size h) < 2 ^ 31 - 1 -> (e <= size h)%nat -> node_at h p e = None ->
  (e <= fuel + i)%nat -> (e <= inner)%nat ->
  outer_loop fuel inner h p (node_at h p i) (Z.of_nat i) = Ok 0.
Proof.
  intros Hp Hsz He Hend. revert i. induction fuel as [|fuel IH]; intros i Hi Hin.
  { rewrite (node_at_ended p e i) by (done || lia). done. }
  destruct (node_at h p i) as [a|] eqn:Ei; [|done]. rewrite <- Ei.
  assert (Hie : (i < e)%nat).
  { destruct (decide (i < e)%nat); [done|]. by rewrite (node_at_ended p e i) in Ei by (done || lia). }
  rewrite outer_loop_turn by (done || lia || by rewrite Ei).
  rewrite decide_True; [by apply IH; lia|]. intros m Hm E.
  by apply (repeat_cyclic p m i Hm E ltac:(by rewrite E, Ei) e).
Qed.

(** A list ends within the heap's size or never. *)
Lemma ends_or_cyclic p : in_heap h p -> node_at h p (size h) = None \/ cyclic h p.
Proof.
  intros Hp. destruct (decide (node_at h p (size h) = None)) as [E|E]; [by left|]. right.
  destruct (long_repeat p Hp E) as (i & j & Hij & Eij). apply (repeat_cyclic p i j); [lia|done|].
  intros Ei. apply E, (node_at_ended p i); [done|lia].
Qed.

(** ** Both methods *)

Lemma has_loop2_decides p fuel :
  in_heap h p -> (size h <= fuel)%nat ->
  (cyclic h p /\ has_loop2 fuel h p = Ok 1) \/
  (node_at h p (size h) = None /\ has_loop2 fuel h p = Ok 0).
Proof.
  intros Hp Hf. destruct (ends_or_cyclic p Hp) as [He|Hc].
  - right. split; [done|]. by apply (two_speeds_end p (size h) fuel 0); [..|lia].
  - left. split; [done|]. destruct (meeting_point p Hp Hc) as (m & Hm & E).
    apply (two_speeds_meet p m fuel 0); done || lia.
Qed.

Lemma has_loop_decides p fuel :
  in_heap h p -> Z.of_nat (size h) < 2 ^ 31 - 1 -> (size h < fuel)%nat ->
  (cyclic h p /\ has_loop fuel h p = Ok 1) \/
  (node_at h p (size h) = None /\ has_loop fuel h p = Ok 0).
Proof.
  intros Hp Hsz Hf. destruct (ends_or_cyclic p Hp) as [He|Hc].
  - right. split; [done|]. by apply (outer_loop_ends p (size h) fuel fuel 0); [..|lia|lia].
  - left. split; [done|]. destruct (long_repeat p Hp (Hc _)) as (i & j & Hij & E).
    apply (outer_loop_cyclic p j fuel fuel 0); try (done || lia). intros Hn. apply (Hn i); [lia|done].
Qed.
End Walk.

(** C34: Both methods return, for every list in memory, with the right answer: at most as
    many turns as there are nodes and one more, for every starting pointer in a heap whose
    pointers all lead to nodes, and the result is 1 when following [next] never
    ends and 0 when it ends, which it then does within the number of nodes.  No null
    or dangling pointer is followed on the way. *)
Theorem loop_detection_decides h p fuel :
  closed h -> in_heap h p -> Z.of_nat (size h) < 2 ^ 31 - 1 -> (size h < fuel)%nat ->
  (cyclic h p /\ has_loop fuel h p = Ok 1 /\ has_loop2 fuel h p = Ok 1) \/
  (node_at h p (size h) = None /\ has_loop fuel h p = Ok 0 /\ has_loop2 fuel h p = Ok 0).
Proof.
  intros Hcl Hp Hsz Hf.
  destruct (has_loop_decides h Hcl p fuel Hp Hsz Hf) as [[H1 H2]|[H1 H2]],
    (has_loop2_decides h Hcl p fuel Hp ltac:(lia)) as [[H3 H4]|[H3 H4]].
  - by left.
  - by destruct (H1 (size h)).
  - by destruct (H3 (size h)).
  - by right.
Qed.

(** The list of loop.c: seven nodes in a circle and one outside. *)
Definition circle : nheap :=
  list_to_map ((fun i => (Pos.of_nat i, mk_node 0 (Some (Pos.of_nat (if decide (i = 7)%nat then 1 else S i)))))
                 <$> seq 1 7) ∪ {[ 8%positive := mk_node 0 None ]}.

Lemma loop_detection_decides_witness :
  (cyclic circle (Some 1%positive) /\ has_loop 9 circle (Some 1%positive) = Ok 1 /\
     has_loop2 9 circle (Some 1%positive) = Ok 1) \/
  (node_at circle (Some 1%positive) (size circle) = None /\ has_loop 9 circle (Some 1%positive) = Ok 0 /\
     has_loop2 9 circle (Some 1%positive) = Ok 0).
Proof.
  apply loop_detection_decides; [by_compute | by_compute | by vm_compute | by vm_compute; lia].
Defined.
