(* ===== verification/LinkedList.v ===== *)
(** * Singly linked lists (data_struct/linked_list/list.c)

    The list is a chain of nodes in a heap.  [malloc] is an argument that may
    return [NULL]; [scanf] takes the numbers of a script and leaves its variable
    alone at the end of it.  Of what is printed only the elements are kept. *)

From stdpp Require Import base numbers list gmap.
From S2P Require Import Prelude.

#[local] Open Scope Z_scope.

Abbreviation nptr := (option positive).

Record Node := mkNode { element : Z; next : nptr }.
Abbreviation nheap := (gmap positive Node).

Definition ldn (h : nheap) (p : nptr) : outcome Node :=
  match p with
  | None => Fault NullDeref
  | Some a => match h !! a with Some n => Ok n | None => Fault NullDeref end
  end.

Definition updn (h : nheap) (p : nptr) (f : Node -> Node) : outcome nheap :=
  match p with
  | None => Fault NullDeref
  | Some a => match h !! a with Some n => Ok (<[a := f n]> h) | None => Fault NullDeref end
  end.

Definition set_element (x : Z) (n : Node) : Node := mkNode x (next n).
Definition set_node_next (q : nptr) (n : Node) : Node := mkNode (element n) q.

(** ** Construction and destruction *)

Definition initList : nptr := None.

Section Alloc.
Context (malloc : nheap -> option positive).

(** A node that [malloc] returned, cleared by [memset]. *)
Definition new_node (h : nheap) : option (nheap * positive) :=
  a ← malloc h; Some (<[a := mkNode 0 None]> h, a).

(** [scanf("%d", &p->element)] *)
Definition scan_element (h : nheap) (a : positive) (input : list Z) : nheap * list Z :=
  match input with
  | [] => (h, [])
  | x :: input => (<[a := mkNode x None]> h, input)
  end.

(** The [while] loop; [None] when the program exits because memory is short. *)
Fixpoint creat_loop (fuel : nat) (h : nheap) (pHead : nptr) (p1 p2 : positive) (input : list Z)
    : outcome (option (nheap * nptr)) :=
  match fuel with
  | O => Fault OutOfFuel
  | S fuel =>
      n1 ← ldn h (Some p1);
      if bool_decide (0 < element n1) then
        '(h, pHead) ←
          (match pHead with
           | None => Ok (h, Some p1)
           | Some _ => h ← updn h (Some p2) (set_node_next (Some p1)); Ok (h, pHead)
           end);
        let p2 := p1 in
        match new_node h with
        | None => Ok None
        | Some (h, p1) =>
            let '(h, input) := scan_element h p1 input in
            h ← updn h (Some p1) (set_node_next None);
            creat_loop fuel h pHead p1 p2 input
        end
      else Ok (Some (h, pHead))
  end.

Definition creatList (fuel : nat) (h : nheap) (pHead : nptr) (input : list Z)
    : outcome (option (nheap * nptr)) :=
  match new_node h with
  | None => Ok None
  | Some (h, p1) =>
      let '(h, input) := scan_element h p1 input in
      h ← updn h (Some p1) (set_node_next None);
      creat_loop fuel h pHead p1 p1 input
  end.

(** The result of [malloc] is not checked before [memset]. *)
Definition insertHeadList (h : nheap) (pNode : nptr) (insertElem : Z) : outcome (nheap * nptr) :=
  match malloc h with
  | None => Fault NullDeref
  | Some a =>
      let h := <[a := mkNode 0 None]> h in
      h ← updn h (Some a) (set_element insertElem);
      h ← updn h (Some a) (set_node_next pNode);
      Ok (h, Some a)
  end.

(** [while (pHead->next != NULL) pHead = pHead->next;] *)
Fixpoint last_node (fuel : nat) (h : nheap) (pHead : nptr) : outcome nptr :=
  match fuel with
  | O => Fault OutOfFuel
  | S fuel =>
      n ← ldn h pHead;
      if next n is Some _ then last_node fuel h (next n) else Ok pHead
  end.

Definition insertLastList (fuel : nat) (h : nheap) (pNode : nptr) (insertElem : Z) : outcome (nheap * nptr) :=
  match malloc h with
  | None => Fault NullDeref
  | Some a =>
      let h := <[a := mkNode 0 None]> h in
      h ← updn h (Some a) (set_element insertElem);
      pHead ← last_node fuel h pNode;
      h ← updn h pHead (set_node_next (Some a));
      Ok (h, pNode)
  end.
End Alloc.

(** [while (pHead->next != NULL) { ... free(pHead); pHead = pNext; }] *)
Fixpoint clear_loop (fuel : nat) (h : nheap) (pHead : positive) : outcome nheap :=
  match fuel with
  | O => Fault OutOfFuel
  | S fuel =>
      n ← ldn h (Some pHead);
      match next n with
      | None => Ok h
      | Some pNext => clear_loop fuel (delete pHead h) pNext
      end
  end.

Definition clearList (fuel : nat) (h : nheap) (pHead : nptr) : outcome nheap :=
  match pHead with
  | None => Ok h
  | Some a => clear_loop fuel h a
  end.

(** ** Observers *)

(** The elements that are printed. *)
Fixpoint printList (fuel : nat) (h : nheap) (pHead : nptr) : outcome (list Z) :=
  match pHead with
  | None => Ok []
  | Some _ =>
      match fuel with
      | O => Fault OutOfFuel
      | S fuel => n ← ldn h pHead; out ← printList fuel h (next n); Ok (element n :: out)
      end
  end.

Fixpoint size_loop (fuel : nat) (h : nheap) (pHead : nptr) (size_ : Z) : outcome Z :=
  match pHead with
  | None => Ok size_
  | Some _ =>
      match fuel with
      | O => Fault OutOfFuel
      | S fuel => n ← ldn h pHead; size_loop fuel h (next n) (s32 (size_ + 1))
      end
  end.

Definition sizeList (fuel : nat) (h : nheap) (pHead : nptr) : outcome Z := size_loop fuel h pHead 0.

Definition isEmptyList (pHead : nptr) : Z := if pHead is None then 1 else 0.

(** The loop that [getElement] and [modifyElem] share: the node it stops at and [i]. *)
Fixpoint seek_loop (fuel : nat) (h : nheap) (pHead : nptr) (i pos : Z) : outcome (nptr * Z) :=
  match pHead with
  | None => Ok (None, i)
  | Some _ =>
      match fuel with
      | O => Fault OutOfFuel
      | S fuel =>
          let i := s32 (i + 1) in
          if decide (i = pos) then Ok (pHead, i)
          else n ← ldn h pHead; seek_loop fuel h (next n) i pos
      end
  end.

Definition getElement (fuel : nat) (h : nheap) (pHead : nptr) (pos : Z) : outcome Z :=
  if bool_decide (pos < 1) then Ok 0
  else
    match pHead with
    | None => Ok 0
    | Some _ =>
        '(pHead, i) ← seek_loop fuel h pHead 0 pos;
        if bool_decide (i < pos) then Ok 0
        else n ← ldn h pHead; Ok (element n)
    end.

(** [while ((pHead->element != x) && (NULL != pHead->next)) pHead = pHead->next;] *)
Fixpoint find_loop (fuel : nat) (h : nheap) (pHead : nptr) (x : Z) : outcome nptr :=
  match fuel with
  | O => Fault OutOfFuel
  | S fuel =>
      n ← ldn h pHead;
      if bool_decide (element n <> x) && bool_decide (next n <> None)
      then find_loop fuel h (next n) x
      else Ok pHead
  end.

(** The node whose element's address is returned. *)
Definition getElemAddr (fuel : nat) (h : nheap) (pHead : nptr) (x : Z) : outcome nptr :=
  match pHead with
  | None => Ok None
  | Some _ =>
      if bool_decide (x < 0) then Ok None
      else
        pHead ← find_loop fuel h pHead x;
        n ← ldn h pHead;
        if bool_decide (element n <> x) && bool_decide (pHead <> None) then Ok None
        else Ok pHead
  end.

Definition modifyElem (fuel : nat) (h : nheap) (pNode : nptr) (pos x : Z) : outcome (nheap * Z) :=
  if bool_decide (pos < 1) then Ok (h, 0)
  else
    '(pHead, i) ← seek_loop fuel h pNode 0 pos;
    if bool_decide (i < pos) then Ok (h, 0)
    else h ← updn h pHead (set_element x); Ok (h, 1).

(** ** The program *)

(** [main]: the lists printed, the results of the observers, the heap at the end. *)
Record report := Report {
  printed : list (list Z);
  size_seen : Z;
  empty_seen : Z;
  third : Z;
  modified : Z;
  left_over : nheap;
}.

Definition list_main (malloc : nheap -> option positive) (fuel : nat) (input : list Z)
    : outcome (option report) :=
  let pList := initList in
  s0 ← printList fuel ∅ pList;
  r ← creatList malloc fuel ∅ pList input;
  match r with
  | None => Ok None
  | Some (h, pList) =>
      s1 ← printList fuel h pList;
      n ← sizeList fuel h pList;
      s2 ← printList fuel h pList;
      let e := isEmptyList pList in
      posElem ← getElement fuel h pList 3;
      s3 ← printList fuel h pList;
      _ ← getElemAddr fuel h pList 5;
      '(h, m) ← modifyElem fuel h pList 4 1;
      s4 ← printList fuel h pList;
      '(h, pList) ← insertHeadList malloc h pList 5;
      s5 ← printList fuel h pList;
      '(h, pList) ← insertLastList malloc fuel h pList 10;
      s6 ← printList fuel h pList;
      h ← clearList fuel h pList;
      Ok (Some (Report [s0; s1; s2; s3; s4; s5; s6] n e posElem m h))
  end.

(** ** Chains *)

(** The nodes from [p] on, with their addresses. *)
Fixpoint chain (h : nheap) (p : nptr) (l : list (positive * Z)) : Prop :=
  match l with
  | [] => p = None
  | (a, x) :: l => p = Some a /\ exists q, h !! a = Some (mkNode x q) /\ chain h q l
  end.

(** A list in memory. *)
Definition list_at (h : nheap) (p : nptr) (l : list (positive * Z)) : Prop := chain h p l /\ NoDup l.*1.

Lemma chain_insert h p l a n : a ∉ l.*1 -> chain (<[a := n]> h) p l <-> chain h p l.
Proof.
  revert p. induction l as [|[b x] l IH]; intros p Ha; [done|].
  rewrite fmap_cons, not_elem_of_cons in Ha. destruct Ha as [Hab Ha]. simpl in *.
  setoid_rewrite IH; [|done]. by rewrite lookup_insert_ne by congruence.
Qed.

Lemma chain_delete h p l a : a ∉ l.*1 -> chain (delete a h) p l <-> chain h p l.
Proof.
  revert p. induction l as [|[b x] l IH]; intros p Ha; [done|].
  rewrite fmap_cons, not_elem_of_cons in Ha. destruct Ha as [Hab Ha]. simpl in *.
  setoid_rewrite IH; [|done]. by rewrite lookup_delete_ne by congruence.
Qed.

Lemma chain_dom h p l a : chain h p l -> a ∈ l.*1 -> is_Some (h !! a).
Proof.
  revert p. induction l as [|[b x] l IH]; intros p; simpl; [by intros _ ?%elem_of_nil|].
  intros (_ & q & Hb & Hc) [->|Ha]%elem_of_cons; [by eexists | by apply (IH q)].
Qed.

(** A fresh address is in no chain. *)
Lemma chain_fresh h p l a : chain h p l -> h !! a = None -> a ∉ l.*1.
Proof. intros Hc Ha Hin. destruct (chain_dom _ _ _ _ Hc Hin). congruence. Qed.

(** ** Observers *)

Lemma printList_chain fuel h p l : chain h p l -> (length l <= fuel)%nat -> printList fuel h p = Ok l.*2.
Proof.
  revert p l. induction fuel as [|fuel IH]; intros p [|[a x] l]; simpl; try (intros ->; done || lia); [lia|].
  intros (-> & q & Ha & Hc) Hl. simpl. rewrite Ha. cbn [mbind outcome_bind next element].
  by rewrite (IH q l) by (done || lia).
Qed.

Lemma s32_small z : 0 <= z < 2 ^ 31 -> s32 z = z.
Proof. intros H. unfold s32. change (2 ^ 31) with 2147483648 in H. rewrite Z.mod_small; lia. Qed.

Lemma size_loop_chain fuel h p l n :
  chain h p l -> (length l <= fuel)%nat -> 0 <= n -> n + Zlen l < 2 ^ 31 ->
  size_loop fuel h p n = Ok (n + Zlen l).
Proof.
  unfold Zlen. revert p l n. induction fuel as [|fuel IH]; intros p [|[a x] l] n; simpl;
    try (intros -> ? ? ?; simpl; f_equal; lia); [lia|].
  intros (-> & q & Ha & Hc) Hl Hn Hb. simpl. rewrite Ha. cbn [mbind outcome_bind next].
  rewrite s32_small by lia. rewrite (IH q l) by (done || lia). f_equal. lia.
Qed.

Lemma seek_loop_chain fuel h p l i pos :
  chain h p l -> (length l <= fuel)%nat -> 0 <= i < pos -> i + Zlen l < 2 ^ 31 ->
  seek_loop fuel h p i pos =
    Ok (match l !! Z.to_nat (pos - i - 1) with
        | Some (a, _) => (Some a, pos)
        | None => (None, i + Zlen l)
        end).
Proof.
  unfold Zlen. revert p l i. induction fuel as [|fuel IH]; intros p [|[a x] l] i; simpl length;
    try (intros -> ? ? ?; simpl; do 2 f_equal; lia); [lia|].
  intros (-> & q & Ha & Hc) Hl Hi Hb. simpl. rewrite s32_small by lia.
  destruct (decide (i + 1 = pos)) as [<-|Hne].
  - replace (Z.to_nat (i + 1 - i - 1)) with 0%nat by lia. done.
  - rewrite Ha. cbn [mbind outcome_bind next]. rewrite (IH q l) by (done || lia).
    replace (Z.to_nat (pos - i - 1)) with (S (Z.to_nat (pos - (i + 1) - 1))) by lia. simpl.
    destruct (l !! _) as [[b y]|]; [done|]. do 2 f_equal. lia.
Qed.

Lemma chain_lookup h p l i a x : chain h p l -> l !! i = Some (a, x) -> exists q, h !! a = Some (mkNode x q).
Proof.
  revert p i. induction l as [|[b y] l IH]; intros p i; [done|]. intros (_ & q & Hb & Hc).
  destruct i as [|i]; simpl; [|by apply (IH q)]. intros [= -> ->]. by eexists.
Qed.

(** The element at position [pos], counted from 1; 0 when there is none. *)
Definition element_at (xs : list Z) (pos : Z) : Z :=
  if bool_decide (pos < 1) then 0 else default 0 (xs !! Z.to_nat (pos - 1)).

Lemma getElement_chain fuel h p l pos :
  chain h p l -> (length l <= fuel)%nat -> Zlen l < 2 ^ 31 ->
  getElement fuel h p pos = Ok (element_at l.*2 pos).
Proof.
  intros Hc Hf Hl. unfold getElement, element_at. case_bool_decide as Hpos; [done|].
  rewrite list_lookup_fmap. destruct p as [a|].
  - rewrite (seek_loop_chain fuel h (Some a) l 0 pos) by (done || lia).
    replace (pos - 0 - 1) with (pos - 1) by lia. cbn [mbind outcome_bind].
    destruct (l !! Z.to_nat (pos - 1)) as [[b x]|] eqn:E.
    + rewrite bool_decide_false by lia. destruct (chain_lookup _ _ _ _ _ _ Hc E) as [q Hb]. simpl. by rewrite Hb.
    + apply lookup_ge_None in E. rewrite bool_decide_true; [done|]. unfold Zlen. lia.
  - destruct l as [|[b x] l]; [done|]. by destruct Hc.
Qed.

(** The first node that holds [x]. *)
Fixpoint first_with (x : Z) (l : list (positive * Z)) : nptr :=
  match l with
  | [] => None
  | (a, y) :: l => if decide (y = x) then Some a else first_with x l
  end.

(** The loop stops at the first node with [x], or else at the last node. *)
Lemma find_loop_chain fuel h p l x :
  chain h p l -> l <> [] -> (length l <= fuel)%nat ->
  exists a y q, find_loop fuel h p x = Ok (Some a) /\ h !! a = Some (mkNode y q) /\
                first_with x l = if decide (y = x) then Some a else None.
Proof.
  revert p l. induction fuel as [|fuel IH]; intros p [|[a y] l] Hc Hne Hf; simpl in Hf; try done; [lia|].
  destruct Hc as (-> & q & Ha & Hc). cbn [find_loop]. simpl ldn. rewrite Ha. cbn [mbind outcome_bind element next].
  simpl first_with. destruct (decide (y = x)) as [->|Hyx].
  - rewrite bool_decide_false by tauto. exists a, x, q. by rewrite decide_True.
  - rewrite bool_decide_true by done. destruct l as [|[b z] l].
    + simpl in Hc. subst q. exists a, y, None. by rewrite decide_False.
    + assert (q <> None) by (by destruct Hc as [-> _]). rewrite bool_decide_true by done. cbn [andb].
      destruct (IH q ((b, z) :: l)) as (a' & y' & q' & E & Ha' & Hfw); [done..|simpl in *; lia|].
      by exists a', y', q'.
Qed.

Lemma getElemAddr_chain fuel h p l x :
  chain h p l -> (length l <= fuel)%nat ->
  getElemAddr fuel h p x = Ok (if decide (x < 0) then None else first_with x l).
Proof.
  intros Hc Hf. unfold getElemAddr. destruct l as [|e l].
  { simpl in Hc. subst p. by destruct (decide (x < 0)). }
  destruct p as [a|]; [|by destruct e, Hc].
  case_bool_decide as Hx; [by rewrite decide_True|]. rewrite (decide_False (P := x < 0)) by done.
  destruct (find_loop_chain fuel h (Some a) (e :: l) x Hc ltac:(done) Hf) as (b & y & q & -> & Hb & ->).
  cbn [mbind outcome_bind]. simpl ldn. rewrite Hb. cbn [mbind outcome_bind element].
  destruct (decide (y = x)) as [->|Hy]; [by rewrite bool_decide_false by tauto|]. by rewrite !bool_decide_true.
Qed.

(** ** Updates *)

(** Overwriting the element of the [i]-th node. *)
Lemma chain_update h p l i a y x q :
  chain h p l -> NoDup l.*1 -> l !! i = Some (a, y) -> h !! a = Some (mkNode y q) ->
  chain (<[a := mkNode x q]> h) p (<[i := (a, x)]> l).
Proof.
  revert p i. induction l as [|[b z] l IH]; intros p i; [done|]. intros (-> & r & Hb & Hc) Hnd Hi Ha.
  rewrite fmap_cons in Hnd. apply NoDup_cons in Hnd as [Hni Hnd]. destruct i as [|i]; simpl in *.
  - injection Hi as -> ->. split; [done|]. exists q. rewrite Ha in Hb. injection Hb as ->.
    split; [by simplify_map_eq|]. by apply chain_insert.
  - split; [done|]. exists r. split; [|by apply IH].
    rewrite lookup_insert_ne; [done|]. intros ->. apply Hni. apply list_elem_of_fmap.
    exists (b, y). split; [done|]. by eapply list_elem_of_lookup_2.
Qed.

Lemma modifyElem_chain fuel h p l pos x :
  list_at h p l -> (length l <= fuel)%nat -> Zlen l < 2 ^ 31 ->
  if bool_decide (1 <= pos <= Zlen l)
  then exists a y h', l !! Z.to_nat (pos - 1) = Some (a, y) /\ modifyElem fuel h p pos x = Ok (h', 1) /\
         list_at h' p (<[Z.to_nat (pos - 1) := (a, x)]> l) /\ dom h' = dom h
  else modifyElem fuel h p pos x = Ok (h, 0).
Proof.
  intros [Hc Hnd] Hf Hl. unfold modifyElem. case_bool_decide as Hpos.
  - rewrite bool_decide_false by lia. rewrite (seek_loop_chain fuel h p l 0 pos) by (done || lia).
    replace (pos - 0 - 1) with (pos - 1) by lia. cbn [mbind outcome_bind].
    destruct (l !! Z.to_nat (pos - 1)) as [[a y]|] eqn:E;
      [|apply lookup_ge_None in E; unfold Zlen in Hpos; lia].
    rewrite bool_decide_false by lia. destruct (chain_lookup _ _ _ _ _ _ Hc E) as [q Ha]. simpl updn. rewrite Ha.
    cbn [mbind outcome_bind]. exists a, y. eexists. split; [done|]. split; [done|]. split; [split|].
    + by eapply chain_update.
    + rewrite list_fmap_insert. simpl. rewrite list_insert_id; [done|]. by rewrite list_lookup_fmap, E.
    + apply dom_insert_lookup_L. by eexists.
  - destruct (bool_decide (pos < 1)) eqn:E1; [done|]. zify_bool; [done|].
    rewrite (seek_loop_chain fuel h p l 0 pos) by (done || lia). cbn [mbind outcome_bind].
    rewrite lookup_ge_None_2 by (unfold Zlen in *; lia). by rewrite bool_decide_true by lia.
Qed.

Lemma last_node_chain fuel h p l b y :
  chain h p l -> last l = Some (b, y) -> (length l <= fuel)%nat ->
  last_node fuel h p = Ok (Some b) /\ h !! b = Some (mkNode y None).
Proof.
  revert p l. induction fuel as [|fuel IH]; intros p [|[a x] l] Hc Hl Hf; simpl in Hf; try done; [lia|].
  destruct Hc as (-> & q & Ha & Hc). cbn [last_node]. simpl ldn. rewrite Ha. cbn [mbind outcome_bind next].
  destruct l as [|[c z] l].
  - simpl in Hc, Hl. subst q. by injection Hl as -> ->.
  - assert (Hq : q = Some c) by (by destruct Hc as [-> _]). rewrite Hq in *. apply (IH _ ((c, z) :: l)); [done| |simpl in *; lia].
    by rewrite last_cons_cons in Hl.
Qed.

(** Linking a node that is in no list behind the last one. *)
Lemma chain_snoc h p l b y a x :
  chain h p l -> NoDup l.*1 -> last l = Some (b, y) -> a ∉ l.*1 -> h !! a = Some (mkNode x None) ->
  chain (<[b := mkNode y (Some a)]> h) p (l ++ [(a, x)]).
Proof.
  revert p. induction l as [|[c z] l IH]; intros p; [done|]. intros (-> & q & Hc & Hl) Hnd Hlast Hni Ha.
  rewrite fmap_cons in Hnd, Hni. apply NoDup_cons in Hnd as [Hc' Hnd]. apply not_elem_of_cons in Hni as [Hac Hni].
  simpl in Hac. destruct l as [|[d w] l].
  - simpl in Hlast, Hl. injection Hlast as -> ->. subst q. simpl. split; [done|].
    exists (Some a). split; [by simplify_map_eq|]. split; [done|]. exists None. by simplify_map_eq.
  - rewrite last_cons_cons in Hlast. split; [done|]. exists q. split; [|by apply IH].
    rewrite lookup_insert_ne; [done|]. intros ->. apply Hc'. simpl.
    apply last_Some_elem_of in Hlast. apply (list_elem_of_fmap_2 fst) in Hlast. done.
Qed.

Lemma clear_loop_chain fuel h a l b y :
  chain h (Some a) l -> NoDup l.*1 -> last l = Some (b, y) -> (length l <= fuel)%nat ->
  exists h', clear_loop fuel h a = Ok h' /\ dom h' = (dom h ∖ list_to_set l.*1) ∪ {[ b ]}.
Proof.
  revert h a l. induction fuel as [|fuel IH]; intros h a [|[c x] l] Hch Hnd Hl Hf; simpl in Hf; try done; [lia|].
  destruct Hch as ([= ->] & q & Ha & Hch). cbn [clear_loop]. simpl ldn. rewrite Ha. cbn [mbind outcome_bind next].
  rewrite fmap_cons in Hnd. apply NoDup_cons in Hnd as [Hc Hnd]. simpl in Hc.
  assert (Hd : c ∈ dom h) by (apply elem_of_dom; by eexists).
  destruct l as [|[d w] l].
  - simpl in Hch, Hl. subst q. injection Hl as -> ->. exists h. split; [done|]. simpl. clear - Hd. apply set_eq. intros z.
    destruct (decide (z = b)) as [->|]; set_solver.
  - assert (Hq : q = Some d) by (by destruct Hch as [-> _]). rewrite Hq in *. rewrite last_cons_cons in Hl.
    destruct (IH (delete c h) d ((d, w) :: l)) as (h' & E & Edom); [by apply chain_delete|done|done|simpl in *; lia|].
    exists h'. split; [done|]. rewrite Edom, dom_delete_L. simpl. clear. set_solver.
Qed.

Section Allocating.
Context (malloc : nheap -> option positive).

(** [malloc] returns an address that is not in use. *)
Hypothesis malloc_fresh : forall h a, malloc h = Some a -> h !! a = None.

Lemma insertHeadList_chain h p l x a :
  list_at h p l -> malloc h = Some a ->
  exists h', insertHeadList malloc h p x = Ok (h', Some a) /\ list_at h' (Some a) ((a, x) :: l) /\
             dom h' = {[ a ]} ∪ dom h.
Proof.
  intros [Hc Hnd] Hm. pose proof (chain_fresh _ _ _ _ Hc (malloc_fresh _ _ Hm)) as Hni.
  unfold insertHeadList. rewrite Hm. simpl. rewrite lookup_insert_eq. cbn [mbind outcome_bind].
  rewrite lookup_insert_eq. cbn [mbind outcome_bind]. eexists. split; [done|]. rewrite !insert_insert_eq. split; [split|].
  - simpl. split; [done|]. exists p. split; [by simplify_map_eq|]. by apply chain_insert.
  - rewrite fmap_cons. by constructor.
  - by rewrite dom_insert_L.
Qed.

Lemma insertLastList_chain fuel h p l x a :
  list_at h p l -> l <> [] -> malloc h = Some a -> (length l <= fuel)%nat ->
  exists h', insertLastList malloc fuel h p x = Ok (h', p) /\ list_at h' p (l ++ [(a, x)]) /\
             dom h' = {[ a ]} ∪ dom h.
Proof.
  intros [Hc Hnd] Hne Hm Hf. pose proof (chain_fresh _ _ _ _ Hc (malloc_fresh _ _ Hm)) as Hni.
  unfold insertLastList. rewrite Hm. simpl updn. rewrite lookup_insert_eq. cbn [mbind outcome_bind].
  rewrite insert_insert_eq. change (set_element x (mkNode 0 None)) with (mkNode x None).
  destruct (last l) as [[b y]|] eqn:El; [|by apply last_None in El].
  apply (chain_insert h p l a (mkNode x None) Hni) in Hc.
  destruct (last_node_chain fuel _ p l b y Hc El Hf) as [-> Hb]. cbn [mbind outcome_bind]. simpl updn. rewrite Hb.
  cbn [mbind outcome_bind]. eexists. split; [done|]. split; [split|].
  - apply chain_snoc; try done. by simplify_map_eq.
  - rewrite fmap_app. apply NoDup_app. split; [done|]. split; [|apply NoDup_singleton].
    intros z Hz ->%list_elem_of_singleton. done.
  - rewrite dom_insert_lookup_L by (by eexists). by rewrite dom_insert_L.
Qed.

(** On an empty list the loop reads through the null pointer. *)
Lemma insertLastList_empty fuel h x a :
  malloc h = Some a -> insertLastList malloc (S fuel) h None x = Fault NullDeref.
Proof.
  intros Hm. unfold insertLastList. rewrite Hm. simpl updn. by rewrite lookup_insert_eq.
Qed.

(** *** Reading a list *)

Hypothesis malloc_succeeds : forall h, malloc h <> None.

(** The numbers before the first that is not positive. *)
Fixpoint positives (input : list Z) : list Z :=
  match input with
  | x :: input => if bool_decide (0 < x) then x :: positives input else []
  | [] => []
  end.

(** The nodes of a heap: a list and one more, the node that is being read. *)
Definition list_and_spare (h : nheap) (p : nptr) (l : list (positive * Z)) (s : positive) (e : Z) : Prop :=
  list_at h p l /\ h !! s = Some (mkNode e None) /\ s ∉ l.*1 /\ dom h = (list_to_set l.*1) ∪ {[ s ]}.

(** A turn makes the spare node the last of the list. *)
Lemma link_spare h pHead l p1 p2 e :
  list_and_spare h pHead l p1 e -> (forall b y, last l = Some (b, y) -> b = p2) ->
  exists h', (match pHead with
              | None => Ok (h, Some p1)
              | Some _ => h ← updn h (Some p2) (set_node_next (Some p1)); Ok (h, pHead)
              end) = Ok (h', match l with [] => Some p1 | _ => pHead end) /\
    list_at h' (match l with [] => Some p1 | _ => pHead end) (l ++ [(p1, e)]) /\
    dom h' = list_to_set (l ++ [(p1, e)]).*1.
Proof.
  intros ([Hc Hnd] & Hs & Hni & Hdom) Hp2.
  assert (Hnd' : NoDup (l ++ [(p1, e)]).*1).
  { rewrite fmap_app. apply NoDup_app. split; [done|]. split; [|apply NoDup_singleton].
    intros z Hz ->%list_elem_of_singleton. done. }
  assert (Hd' : list_to_set (l ++ [(p1, e)]).*1 = (dom h : gset positive)).
  { rewrite Hdom, fmap_app, list_to_set_app_L. simpl. clear. set_solver. }
  destruct l as [|[a x] l].
  - simpl in Hc. subst pHead. exists h. split; [done|]. split; [split; [|done]|done].
    simpl. split; [done|]. by exists None.
  - destruct pHead as [a'|]; [|by destruct Hc].
    destruct (last ((a, x) :: l)) as [[b y]|] eqn:El; [|by apply last_None in El].
    assert (b = p2) as -> by (by eapply Hp2).
    destruct (last_node_chain (length ((a, x) :: l)) h _ _ p2 y Hc El (Nat.le_refl _)) as [_ Hb].
    simpl updn. rewrite Hb. cbn [mbind outcome_bind]. eexists. split; [done|]. split; [split; [|done]|].
    + by apply chain_snoc.
    + rewrite dom_insert_lookup_L by (by eexists). done.
Qed.

(** The next node, read from the input. *)
Lemma read_spare h input :
  exists h1 a h2, new_node malloc h = Some (h1, a) /\
    (let '(h, input) := scan_element h1 a input in
     h ← updn h (Some a) (set_node_next None); Ok (h, input)) = Ok (h2, tail input) /\
    h2 = <[a := mkNode (default 0 (head input)) None]> h /\ h !! a = None.
Proof.
  destruct (malloc h) as [a|] eqn:Hm; [|by destruct (malloc_succeeds h)].
  unfold new_node. rewrite Hm. exists (<[a := mkNode 0 None]> h), a. eexists. split; [done|].
  split; [|split; [reflexivity|by apply malloc_fresh]].
  destruct input as [|x input]; simpl; rewrite lookup_insert_eq; cbn [mbind outcome_bind];
    rewrite !insert_insert_eq; done.
Qed.

Lemma creat_loop_chain fuel : forall h pHead l p1 p2 e input,
  list_and_spare h pHead l p1 e -> (forall b y, last l = Some (b, y) -> b = p2) ->
  (length (positives (e :: input)) < fuel)%nat ->
  exists h' p' l' s z, creat_loop malloc fuel h pHead p1 p2 input = Ok (Some (h', p')) /\
    list_and_spare h' p' (l ++ l') s z /\ l'.*2 = positives (e :: input).
Proof.
  induction fuel as [|fuel IH]; intros h pHead l p1 p2 e input Hsp Hp2 Hf; [lia|].
  pose proof Hsp as (_ & Hs & _). cbn [creat_loop]. simpl ldn. rewrite Hs. cbn [mbind outcome_bind element].
  cbn [positives] in Hf |- *. case_bool_decide as He.
  - destruct (link_spare h pHead l p1 p2 e Hsp Hp2) as (h1 & -> & [Hc1 Hnd1] & Hd1). cbn [mbind outcome_bind].
    destruct (read_spare h1 input) as (h2 & a & h3 & -> & Esc & Eh3 & Ha).
    destruct (scan_element h2 a input) as [h4 input'].
    destruct (updn h4 (Some a) (set_node_next None)) as [h5|] eqn:E5; [|done]. cbn [mbind outcome_bind] in Esc |- *.
    injection Esc as -> ->. pose proof (chain_fresh _ _ _ _ Hc1 Ha) as Hni. set (l1 := l ++ [(p1, e)]) in *.
    destruct (IH h3 (match l with [] => Some p1 | _ => pHead end) l1 a p1 (default 0 (head input)) (tail input))
      as (h' & p' & l' & s & z & E & Hsp' & Hl').
    + subst h3. split; [split; [by apply chain_insert|done]|]. split; [by simplify_map_eq|].
      split; [done|]. rewrite dom_insert_L, Hd1. by apply union_comm_L.
    + intros b y. unfold l1. rewrite last_snoc. by intros [= -> _].
    + destruct input as [|x input]; simpl in *; lia.
    + exists h', p', ((p1, e) :: l'), s, z. split; [done|]. split.
      * unfold l1 in Hsp'. by rewrite <- app_assoc in Hsp'.
      * rewrite fmap_cons, Hl'. by destruct input.
  - exists h, pHead, [], p1, e. rewrite app_nil_r. done.
Qed.

Lemma creatList_chain fuel input :
  (length (positives input) < fuel)%nat ->
  exists h p l s z, creatList malloc fuel ∅ None input = Ok (Some (h, p)) /\
    list_and_spare h p l s z /\ l.*2 = positives input.
Proof.
  intros Hf. unfold creatList. destruct (read_spare ∅ input) as (h2 & a & h3 & -> & Esc & Eh3 & _).
  destruct (scan_element h2 a input) as [h4 input'].
  destruct (updn h4 (Some a) (set_node_next None)) as [h5|] eqn:E5; [|done]. cbn [mbind outcome_bind] in Esc |- *.
  injection Esc as -> ->.
  destruct (creat_loop_chain fuel h3 None [] a a (default 0 (head input)) (tail input))
    as (h' & p' & l' & s & z & E & Hsp' & Hl').
  - subst h3. split; [split; [done|constructor]|]. split; [by simplify_map_eq|]. split; [apply not_elem_of_nil|].
    rewrite dom_insert_L, dom_empty_L. by apply union_comm_L.
  - done.
  - by destruct input.
  - exists h', p', l', s, z. split; [done|]. split; [done|]. rewrite Hl'. by destruct input.
Qed.

(** *** The whole program *)

(** The element at position 4 becomes 1. *)
Definition with_fourth (xs : list Z) : list Z := <[3%nat := 1]> xs.

Lemma modify_fourth fuel h p l :
  list_at h p l -> (length l <= fuel)%nat -> Zlen l < 2 ^ 31 ->
  exists h' l', modifyElem fuel h p 4 1 = Ok (h', if bool_decide (4 <= Zlen l) then 1 else 0) /\
    list_at h' p l' /\ l'.*2 = with_fourth l.*2 /\ l'.*1 = l.*1 /\ dom h' = dom h.
Proof.
  intros Hl Hf Hb. pose proof (modifyElem_chain fuel h p l 4 1 Hl Hf Hb) as H. unfold with_fourth.
  destruct (decide (4 <= Zlen l)) as [H4|H4].
  - rewrite bool_decide_true in H |- * by lia. destruct H as (a & y & h' & Hi & E & Hl' & Hd).
    change (Z.to_nat (4 - 1)) with 3%nat in *. exists h', (<[3%nat:=(a, 1)]> l).
    rewrite !list_fmap_insert. repeat split; try done; [apply Hl'..|]. simpl.
    apply list_insert_id. by rewrite list_lookup_fmap, Hi.
  - rewrite bool_decide_false in H |- * by lia. exists h, l. repeat split; try done; [apply Hl..|].
    rewrite list_insert_ge; [done|]. rewrite length_fmap. unfold Zlen in H4. lia.
Qed.

(** The domains of the heaps of [list_main], one after the other. *)
Lemma leak (h h1 h2 h3 h4 : nheap) (ls : list positive) s a b :
  dom h = list_to_set ls ∪ {[ s ]} -> dom h1 = dom h -> dom h2 = {[ a ]} ∪ dom h1 ->
  dom h3 = {[ b ]} ∪ dom h2 -> dom h4 = (dom h3 ∖ list_to_set (a :: ls ++ [b])) ∪ {[ b ]} ->
  s ∉ ls -> a ∉ dom h1 -> b ∉ dom h2 -> dom h4 = {[ s; b ]} /\ s <> b.
Proof.
  intros E E1 E2 E3 E4 Hs Ha Hb. rewrite E1, E in *. rewrite E2 in *. rewrite E3 in E4. rewrite E4.
  split; [|set_solver]. apply set_eq. intros x. set_unfold. destruct (decide (x = b)); naive_solver.
Qed.

(** The program of list.c shows the list it should: the numbers read up to the first
    that is not positive, their count, the third of them (0 when there are fewer),
    the list with its fourth element set to 1, with 5 in front and with 10 at the
    end.  No null or freed pointer is used, whatever is read; at the end two nodes
    are still allocated: the one for the last number read and the last of the list,
    which [clearList] does not free. *)
Lemma list_main_shows fuel input :
  (length (positives input) + 3 <= fuel)%nat -> Zlen (positives input) < 2 ^ 31 ->
  let xs := positives input in
  exists r s b, list_main malloc fuel input = Ok (Some r) /\
    printed r = [[]; xs; xs; xs; with_fourth xs; 5 :: with_fourth xs; 5 :: with_fourth xs ++ [10]] /\
    size_seen r = Zlen xs /\ empty_seen r = (if bool_decide (xs = []) then 1 else 0) /\
    third r = default 0 (xs !! 2%nat) /\ modified r = (if bool_decide (4 <= Zlen xs) then 1 else 0) /\
    dom (left_over r) = {[ s; b ]} /\ s <> b.
Proof.
  intros Hf Hlen xs. unfold list_main.
  rewrite (printList_chain fuel ∅ initList []) by (done || (simpl; lia)). cbn [mbind outcome_bind].
  destruct (creatList_chain fuel input ltac:(lia)) as (h & p & l & s & z & E & Hsp & Hxs).
  unfold initList. rewrite E. cbn [mbind outcome_bind]. fold xs in Hxs.
  destruct Hsp as (Hl & Hs & Hni & Hdom). pose proof Hl as [Hc Hnd].
  assert (Ell : length l = length xs) by (by rewrite <- Hxs, length_fmap).
  assert (Elz : Zlen l = Zlen xs) by (unfold Zlen; by rewrite Ell). fold xs in Hf, Hlen.
  rewrite (printList_chain fuel h p l Hc), Hxs by lia. cbn [mbind outcome_bind].
  unfold sizeList. rewrite (size_loop_chain fuel h p l 0 Hc) by lia. cbn [mbind outcome_bind].
  rewrite (getElement_chain fuel h p l 3 Hc) by lia. cbn [mbind outcome_bind].
  rewrite (getElemAddr_chain fuel h p l 5 Hc) by lia. cbn [mbind outcome_bind].
  destruct (modify_fourth fuel h p l Hl ltac:(lia) ltac:(lia)) as (h1 & l1 & -> & Hl1 & Ev1 & Ea1 & Ed1).
  rewrite Hxs in Ev1. cbn [mbind outcome_bind]. pose proof Hl1 as [Hc1 _].
  assert (Ell1 : length l1 = length l) by (rewrite <- (length_fmap fst l1), Ea1; apply length_fmap).
  rewrite (printList_chain fuel h1 p l1 Hc1) by lia. cbn [mbind outcome_bind].
  destruct (malloc h1) as [a|] eqn:Hm1; [|by destruct (malloc_succeeds h1)].
  destruct (insertHeadList_chain h1 p l1 5 a Hl1 Hm1) as (h2 & -> & Hl2 & Ed2). cbn [mbind outcome_bind].
  pose proof Hl2 as [Hc2 _]. rewrite (printList_chain fuel h2 _ _ Hc2) by (simpl; lia). cbn [mbind outcome_bind].
  destruct (malloc h2) as [b|] eqn:Hm2; [|by destruct (malloc_succeeds h2)].
  destruct (insertLastList_chain fuel h2 _ _ 10 b Hl2 ltac:(done) Hm2 ltac:(simpl; lia)) as (h3 & -> & Hl3 & Ed3).
  cbn [mbind outcome_bind]. destruct Hl3 as [Hc3 Hnd3].
  rewrite (printList_chain fuel h3 _ _ Hc3) by (rewrite length_app; simpl; lia). cbn [mbind outcome_bind clearList].
  destruct (clear_loop_chain fuel h3 a _ b 10 Hc3 Hnd3) as (h4 & -> & Ed4);
    [by rewrite last_snoc | rewrite length_app; simpl; lia|].
  cbn [mbind outcome_bind]. eexists _, s, b. split; [reflexivity|]. cbn [printed size_seen empty_seen third modified left_over].
  rewrite Elz, Hxs, fmap_app, fmap_cons, Ev1. split; [done|]. split; [lia|].
  split; [|split; [done|split; [done|]]].
  - rewrite <- Hxs. destruct l as [|[c x] l]; [by rewrite Hc|]. by destruct Hc as [-> _].
  - apply (leak h h1 h2 h3 h4 l.*1 s a b Hdom Ed1 Ed2 Ed3).
    + by rewrite Ed4, fmap_app, fmap_cons, Ea1.
    + done.
    + by apply not_elem_of_dom, malloc_fresh.
    + by apply not_elem_of_dom, malloc_fresh.
Qed.
End Allocating.

(** ** Runs *)

Definition bump (h : nheap) : option positive := Some (fresh (dom h : gset positive)).

Lemma list_main_shows_witness :
  let xs := [7; 2; 9; 4] in
  exists r s b, list_main bump 7 [7; 2; 9; 4; 0; 8] = Ok (Some r) /\
    printed r = [[]; xs; xs; xs; [7; 2; 9; 1]; [5; 7; 2; 9; 1]; [5; 7; 2; 9; 1; 10]] /\
    size_seen r = 4 /\ empty_seen r = 0 /\ third r = 9 /\ modified r = 1 /\
    dom (left_over r) = {[ s; b ]} /\ s <> b.
Proof.
  apply (list_main_shows bump) with (fuel := 7%nat) (input := [7; 2; 9; 4; 0; 8]).
  - intros h a [= <-]. apply (not_elem_of_dom (D := gset positive)). exact (is_fresh (dom h : gset positive)).
  - done.
  - simpl. lia.
  - done.
Defined.

(** Reading into a list that is not empty: the first new node is linked to itself
    and the list stays as it was, though the program goes on as if it had grown. *)
Definition one : nheap := {[ 1%positive := mkNode 3 None ]}.

Lemma creatList_does_not_append :
  (r ← creatList bump 9 one (Some 1%positive) [6; 5; 0];
   match r with
   | Some (h, p) => out ← printList 9 h p; Ok (out, p)
   | None => Ok ([], None)
   end) = Ok ([3], Some 1%positive).
Proof. by vm_compute. Qed.

(** Zero ends the input as a negative number does. *)
Lemma zero_ends_the_input : positives [4; 0; 6] = [4] /\ positives [4; -1; 6] = [4].
Proof. done. Qed.
