(* ===== verification/SeqList.v ===== *)
(** * Sequential lists (data_struct/linear_list/sequence_list.c)

    A structure with an array of a hundred elements.  A pointer to it is [None] or
    the structure; a pointer to an element [None] or the element.  The header
    leaves _COMPARE_SIMPLE_ undefined, so elements are compared with [memcmp] and
    copied with [memcpy]. *)

From stdpp Require Import base numbers list.
From S2P Require Import Prelude.

#[local] Open Scope Z_scope.

Definition SEQUENCE_LIST_MAX_SIZE : Z := 100.

Record SqList := mkSq { data : list Z; length_ : Z; maxsize : Z }.

#[global] Instance SqList_eq_dec : EqDecision SqList.
Proof. solve_decision. Defined.

Definition zeroed : SqList := mkSq (replicate (Z.to_nat SEQUENCE_LIST_MAX_SIZE) 0) 0 0.

(** The operations return the structure after the call and the result. *)
Definition List_Init (L : option SqList) : option SqList * Z :=
  match L with None => (None, -1) | Some _ => (Some zeroed, 0) end.

Definition List_Length (L : option SqList) : Z := match L with None => -1 | Some l => length_ l end.

(** [for (i = 0; i < List->length; i++) if (memcmp(&List->data[i], et, ...)) return i;] *)
Fixpoint locate_loop (n : nat) (l : SqList) (et : option Z) (i : Z) : outcome Z :=
  match n with
  | O => Ok (-2)
  | S n =>
      x ← rd (data l) i;
      match et with
      | None => Fault NullDeref
      | Some e => if decide (x <> e) then Ok i else locate_loop n l et (i + 1)
      end
  end.

Definition List_LocateElem (L : option SqList) (et : option Z) : outcome Z :=
  match L with
  | None => Ok (-1)
  | Some l => locate_loop (Z.to_nat (length_ l)) l et 0
  end.

(** [et] is the pointer to the variable that receives the element's address, here its index. *)
Definition List_GetElem (L : option SqList) (subscript : Z) (et : bool) : option Z * Z :=
  match L with
  | None => (None, -1)
  | Some l =>
      if bool_decide (subscript < 0) || negb et then (None, -1)
      else if bool_decide (maxsize l - 1 < subscript) then (None, -2)
      else (Some subscript, 0)
  end.

(** [for (i = List->length; i > subscript; i++)] *)
Fixpoint shift_loop (fuel : nat) (d : list Z) (subscript i : Z) : outcome (list Z) :=
  match fuel with
  | O => Fault OutOfFuel
  | S fuel =>
      if bool_decide (subscript < i) then
        x ← rd d (i - 1);
        d ← wr d i x;
        x ← rd d (i - 1);
        d ← wr d i x;
        shift_loop fuel d subscript (i + 1)
      else Ok d
  end.

Definition List_Insert (fuel : nat) (L : option SqList) (subscript : Z) (et : option Z)
    : outcome (option SqList * Z) :=
  match L with
  | None => Ok (None, -1)
  | Some l =>
      if bool_decide (subscript < 0) then Ok (L, -1)
      else if bool_decide (length_ l < subscript) then Ok (L, -2)
      else
        d ← shift_loop fuel (data l) subscript (length_ l);
        match et with
        | None => Fault NullDeref
        | Some e =>
            d ← wr d subscript e;
            Ok (Some (mkSq d (s32 (length_ l + 1)) (maxsize l)), 0)
        end
  end.

(** Deletion and reversal do nothing. *)
Definition List_Delete (L : option SqList) (subscript : Z) (et : option Z) : option SqList * Z :=
  match L with None => (None, -1) | Some _ => (L, 0) end.

Definition List_Reverse (L : option SqList) : option SqList * Z :=
  match L with None => (None, -1) | Some _ => (L, 0) end.

Definition List_IsEmpty (L : option SqList) : Z := match L with None => -1 | Some l => length_ l end.

Definition List_IsFull (L : option SqList) : Z :=
  match L with None => -1 | Some l => if decide (length_ l = maxsize l) then 1 else 0 end.

Definition List_Destroy (L : option SqList) : option SqList * Z :=
  match L with None => (None, -1) | Some _ => (Some zeroed, 0) end.

(** [printc] of common.c prints the bytes of an object; an [int] has four, the lowest first. *)
Definition int_bytes (x : Z) : list Z :=
  (fun i => (x / 256 ^ i) `mod` 256) <$> [0; 1; 2; 3].

Definition printc_ (buf : list Z) : list Z := (fun b => Z.land b 255) <$> buf.

Fixpoint print_loop (n : nat) (l : SqList) (i : Z) : outcome (list (Z * list Z)) :=
  match n with
  | O => Ok []
  | S n => x ← rd (data l) i; out ← print_loop n l (i + 1); Ok ((i, printc_ (int_bytes x)) :: out)
  end.

(** The lines printed, each with its number. *)
Definition List_Print (L : option SqList) : outcome (list (Z * list Z) * Z) :=
  match L with
  | None => Ok ([], -1)
  | Some l => out ← print_loop (Z.to_nat (length_ l)) l 0; Ok (out, 0)
  end.

(** [main] of test_sequence_list.c: the two lengths it prints and the list. *)
Definition test_main (indeterminate : SqList) : outcome (Z * Z * list (Z * list Z)) :=
  let '(L, _) := List_Init (Some indeterminate) in
  let n0 := List_Length L in
  '(L, _) ← List_Insert 200 L 0 (Some 1);
  '(L, _) ← List_Insert 200 L 1 (Some 2);
  '(L, _) ← List_Insert 200 L 2 (Some 3);
  '(out, _) ← List_Print L;
  Ok (n0, List_Length L, out).

Lemma test_main_runs junk :
  test_main junk = Ok (0, 3, [(0, [1; 0; 0; 0]); (1, [2; 0; 0; 0]); (2, [3; 0; 0; 0])]).
Proof. by vm_compute. Qed.

(** ** Insertion *)

(** A list in use: the array has its size, the length is within it. *)
Definition sq_ok (l : SqList) : Prop :=
  Zlen (data l) = SEQUENCE_LIST_MAX_SIZE /\ 0 <= length_ l <= SEQUENCE_LIST_MAX_SIZE.

(** The elements of the list. *)
Definition contents (l : SqList) : list Z := take (Z.to_nat (length_ l)) (data l).

(** Once entered the loop only ends outside the array. *)
Lemma shift_loop_leaves fuel d subscript i :
  0 <= subscript < i -> i <= Zlen d -> Zlen d - i < Z.of_nat fuel ->
  shift_loop fuel d subscript i = Fault OutOfBounds.
Proof.
  revert d i. induction fuel as [|fuel IH]; intros d i Hs Hi Hf; [lia|].
  cbn [shift_loop]. rewrite bool_decide_true by lia.
  assert (Hrd : forall d' : list Z, Zlen d' = Zlen d -> exists x, rd d' (i - 1) = Ok x).
  { intros d' Hd'. unfold rd. rewrite bool_decide_true by lia.
    destruct (d' !! Z.to_nat (i - 1)) as [x|] eqn:E; [by exists x|].
    apply lookup_ge_None in E. unfold Zlen in *. lia. }
  destruct (Hrd d eq_refl) as [x ->]. cbn [mbind outcome_bind]. unfold wr.
  destruct (decide (i = Zlen d)) as [Hend|Hend].
  - by rewrite bool_decide_false by lia.
  - rewrite bool_decide_true by lia. cbn [mbind outcome_bind].
    assert (Hlen : forall y, Zlen (<[Z.to_nat i:=y]> d) = Zlen d) by (intros; unfold Zlen; by rewrite length_insert).
    destruct (Hrd _ (Hlen x)) as [y ->]. cbn [mbind outcome_bind]. rewrite Hlen.
    rewrite bool_decide_true by lia. cbn [mbind outcome_bind]. rewrite list_insert_insert_eq. apply IH; [lia|..]; rewrite Hlen; lia.
Qed.

(** What [List_Insert] does, on every branch: a null list or a negative place
    gives -1, a place past the end -2, and nothing changes; at the end of a list
    that is not full the element is appended; any other insertion, in front of an
    element or into a full list, leaves the array, because the loop that should
    move the elements up counts away from the place instead of towards it. *)
Lemma List_Insert_branches L subscript e fuel :
  match L with Some l => sq_ok l | None => True end -> 101 <= Z.of_nat fuel ->
  match L with
  | None => List_Insert fuel L subscript (Some e) = Ok (None, -1)
  | Some l =>
      if decide (subscript < 0) then List_Insert fuel L subscript (Some e) = Ok (L, -1)
      else if decide (length_ l < subscript) then List_Insert fuel L subscript (Some e) = Ok (L, -2)
      else if decide (subscript = length_ l /\ length_ l < SEQUENCE_LIST_MAX_SIZE) then
        exists l', List_Insert fuel L subscript (Some e) = Ok (Some l', 0) /\ sq_ok l' /\
                   contents l' = contents l ++ [e] /\ maxsize l' = maxsize l
      else List_Insert fuel L subscript (Some e) = Fault OutOfBounds
  end.
Proof.
  intros Hok Hf. destruct L as [l|]; [|done]. destruct Hok as [Hd Hl]. unfold SEQUENCE_LIST_MAX_SIZE in *.
  unfold List_Insert. destruct (decide (subscript < 0)) as [H0|H0]; [by rewrite bool_decide_true|].
  rewrite (bool_decide_false (subscript < 0)) by done.
  destruct (decide (length_ l < subscript)) as [H1|H1]; [by rewrite bool_decide_true|].
  rewrite bool_decide_false by done. destruct (decide _) as [[-> H2]|H2].
  - destruct fuel as [|fuel]; [lia|]. cbn [shift_loop]. rewrite bool_decide_false by lia. cbn [mbind outcome_bind].
    unfold wr. rewrite bool_decide_true by lia. cbn [mbind outcome_bind]. eexists. split; [done|].
    assert (Es : s32 (length_ l + 1) = length_ l + 1) by (unfold s32; rewrite Z.mod_small by lia; lia).
    split; [|split; [|done]].
    + split; simpl; [unfold Zlen; by rewrite length_insert|]. rewrite Es. unfold SEQUENCE_LIST_MAX_SIZE. lia.
    + unfold contents. simpl. rewrite Es. replace (Z.to_nat (length_ l + 1)) with (S (Z.to_nat (length_ l))) by lia.
      assert (Hlt : (Z.to_nat (length_ l) < length (data l))%nat) by (unfold Zlen in Hd; lia).
      rewrite (take_S_r _ _ e) by (by apply list_lookup_insert_eq). f_equal. by apply take_insert_ge.
  - destruct (decide (subscript = length_ l)) as [->|Hne].
    + destruct fuel as [|fuel]; [lia|]. cbn [shift_loop]. rewrite bool_decide_false by lia. cbn [mbind outcome_bind].
      unfold wr. by rewrite bool_decide_false by lia.
    + by rewrite shift_loop_leaves by lia.
Qed.

(** A list of two elements. *)
Definition pair_list : SqList := mkSq ([4; 9] ++ replicate 98 0) 2 0.

(** Appending works, inserting in front does not. *)
Lemma List_Insert_branches_witness :
  (exists l', List_Insert 101 (Some pair_list) 2 (Some 5) = Ok (Some l', 0) /\ sq_ok l' /\
     contents l' = contents pair_list ++ [5] /\ maxsize l' = 0) /\
  List_Insert 101 (Some pair_list) 1 (Some 5) = Fault OutOfBounds.
Proof.
  assert (Hok : sq_ok pair_list) by (split; [done | vm_compute; split; discriminate]). split.
  - by apply (List_Insert_branches (Some pair_list) 2 5 101 Hok).
  - by apply (List_Insert_branches (Some pair_list) 1 5 101 Hok).
Defined.

(** ** What the other operations return *)

(** [List_LocateElem] finds the first element that is different. *)
Lemma locate_finds_a_different_element :
  List_LocateElem (Some pair_list) (Some 4) = Ok 1 /\ List_LocateElem (Some pair_list) (Some 9) = Ok 0.
Proof. by vm_compute. Qed.

(** [List_Init] leaves [maxsize] zero: the empty list is full, and no element can be got. *)
Lemma initialised_list_is_full i :
  0 <= i -> List_IsFull (Some zeroed) = 1 /\ snd (List_GetElem (Some zeroed) i true) = -2.
Proof.
  intros Hi. split; [done|]. unfold List_GetElem. simpl. rewrite bool_decide_false by lia. simpl. by rewrite bool_decide_true by lia.
Qed.

(** [List_IsEmpty] is true of the lists that are not empty. *)
Lemma isempty_is_length : List_IsEmpty (Some zeroed) = 0 /\ List_IsEmpty (Some pair_list) = 2.
Proof. done. Qed.
