(* ===== verification/Telnet.v ===== *)
(** * The telnet client (src/src/telnet_client)

    Three state machines, given as tables of transitions: the bytes from the socket
    (ttfsm.c), the keys (sofsm.c) and option subnegotiations (subfsm.c).  [fsminit]
    turns each table into an array indexed by state and character; [ttwrite] and
    [sowrite] run the machines.  All static variables are one record, the actions
    are functions on it in a monad of state, exit and faults.

    The environment is the record [env]: which system calls succeed, the terminal
    type and its capabilities, what a shell leaves in the terminal. *)

From stdpp Require Import base numbers list list_numbers strings.
From S2P Require Import Prelude.

#[local] Open Scope Z_scope.

(** ** Constants (telnet.h, tnfsm.h) *)

Definition TCSB : Z := 250.
Definition TCSE : Z := 240.
Definition TCNOP : Z := 241.
Definition TCDM : Z := 242.
Definition TCIP : Z := 244.
Definition TCAO : Z := 245.
Definition TCEC : Z := 247.
Definition TCEL : Z := 248.
Definition TCWILL : Z := 251.
Definition TCWONT : Z := 252.
Definition TCDO : Z := 253.
Definition TCDONT : Z := 254.
Definition TCIAC : Z := 255.

Definition TOTXBINARY : Z := 0.
Definition TOECHO : Z := 1.
Definition TONOGA : Z := 3.
Definition TOTERMTYPE : Z := 24.

Definition VPLF : Z := 10.
Definition VPCR : Z := 13.
Definition VPBEL : Z := 7.
Definition VPBS : Z := 8.
Definition VPHT : Z := 9.
Definition VPVT : Z := 11.
Definition VPFF : Z := 12.

Definition KCESCAPE : Z := 29.
Definition KCDCON : Z := 46.
Definition KCSUSP : Z := 26.
Definition KCSCRIPT : Z := 115.
Definition KCUNSCRIPT : Z := 117.
Definition KCSTATUS : Z := 20.
Definition KCNL : Z := 10.

Definition TT_IS : Z := 0.
Definition TT_SEND : Z := 1.

Definition TSDATA : Z := 0.
Definition TSIAC : Z := 1.
Definition TSWOPT : Z := 2.
Definition TSDOPT : Z := 3.
Definition TSSUBNEG : Z := 4.
Definition TSSUBIAC : Z := 5.
Definition NTSTATES : Z := 6.

Definition KSREMOTE : Z := 0.
Definition KSLOCAL : Z := 1.
Definition KSCOLLECT : Z := 2.
Definition NKSTATES : Z := 3.

Definition SS_START : Z := 0.
Definition SS_TERMTYPE : Z := 1.
Definition SS_END : Z := 2.
Definition NSSTATES : Z := 3.

Definition FSINVALID : Z := 255.
Definition TINVALID : Z := 255.
Definition NCHRS : Z := 256.
Definition TCANY : Z := 257.
Definition KCANY : Z := 257.

(** The functions that occur in the tables. *)
Inductive action :=
| a_no_op | a_ttputc | a_tcdm | a_recopt | a_subopt | a_subend
| a_do_echo | a_do_noga | a_do_txbinary | a_do_notsup
| a_will_termtype | a_will_txbinary | a_will_notsup
| a_subtermtype
| a_soputc | a_scrinit | a_unscript | a_dcon | a_suspend | a_status | a_sonotsup | a_scrwrap | a_scrgetc
| a_tnabort.

#[global] Instance action_eq_dec : EqDecision action.
Proof. solve_decision. Defined.

Record fsm_trans := Trans { ft_state : Z; ft_char : Z; ft_next : Z; ft_action : action }.

#[global] Instance fsm_trans_eq_dec : EqDecision fsm_trans.
Proof. solve_decision. Defined.

(** ** The tables *)

Definition ttstab : list fsm_trans :=
  [ Trans TSDATA TCIAC TSIAC a_no_op;
    Trans TSDATA TCANY TSDATA a_ttputc;
    Trans TSIAC TCIAC TSDATA a_ttputc;
    Trans TSIAC TCSB TSSUBNEG a_no_op;
    Trans TSIAC TCNOP TSDATA a_no_op;
    Trans TSIAC TCDM TSDATA a_tcdm;
    Trans TSIAC TCWILL TSWOPT a_recopt;
    Trans TSIAC TCWONT TSWOPT a_recopt;
    Trans TSIAC TCDO TSDOPT a_recopt;
    Trans TSIAC TCDONT TSDOPT a_recopt;
    Trans TSIAC TCANY TSDATA a_no_op;
    Trans TSSUBNEG TCIAC TSSUBIAC a_no_op;
    Trans TSSUBNEG TCANY TSSUBNEG a_subopt;
    Trans TSSUBIAC TCSE TSDATA a_subend;
    Trans TSSUBIAC TCANY TSSUBNEG a_subopt;
    Trans TSWOPT TOECHO TSDATA a_do_echo;
    Trans TSWOPT TONOGA TSDATA a_do_noga;
    Trans TSWOPT TOTXBINARY TSDATA a_do_txbinary;
    Trans TSWOPT TCANY TSDATA a_do_notsup;
    Trans TSDOPT TOTERMTYPE TSDATA a_will_termtype;
    Trans TSDOPT TOTXBINARY TSDATA a_will_txbinary;
    Trans TSDOPT TCANY TSDATA a_will_notsup;
    Trans FSINVALID TCANY FSINVALID a_tnabort ].

Definition sostab : list fsm_trans :=
  [ Trans KSREMOTE KCESCAPE KSLOCAL a_no_op;
    Trans KSREMOTE KCANY KSREMOTE a_soputc;
    Trans KSLOCAL KCSCRIPT KSCOLLECT a_scrinit;
    Trans KSLOCAL KCUNSCRIPT KSREMOTE a_unscript;
    Trans KSLOCAL KCESCAPE KSREMOTE a_soputc;
    Trans KSLOCAL KCDCON KSREMOTE a_dcon;
    Trans KSLOCAL KCSUSP KSREMOTE a_suspend;
    Trans KSLOCAL KCSTATUS KSREMOTE a_status;
    Trans KSLOCAL KCANY KSREMOTE a_sonotsup;
    Trans KSCOLLECT KCNL KSREMOTE a_scrwrap;
    Trans KSCOLLECT KCANY KSCOLLECT a_scrgetc;
    Trans FSINVALID KCANY FSINVALID a_tnabort ].

Definition substab : list fsm_trans :=
  [ Trans SS_START TOTERMTYPE SS_TERMTYPE a_no_op;
    Trans SS_START TCANY SS_END a_no_op;
    Trans SS_TERMTYPE TT_SEND SS_END a_subtermtype;
    Trans SS_TERMTYPE TCANY SS_END a_no_op;
    Trans SS_END TCANY SS_END a_no_op;
    Trans FSINVALID TCANY FSINVALID a_tnabort ].

(** ** Building the arrays (fsminit.c) *)

Abbreviation table := (list (list Z)).

(** [if (fsm[sn][cn] == TINVALID) fsm[sn][cn] = ti;] *)
Definition fill (ti sn cn : Z) (fsm : table) : outcome table :=
  x ← rd2 fsm sn cn;
  if decide (x = TINVALID) then wr2 fsm sn cn (u8 ti) else Ok fsm.

(** The loop over the transitions, from index [ti] on; the index it ends with. *)
Fixpoint enter_all (ttab : list fsm_trans) (ti : Z) (fsm : table) : outcome (table * Z) :=
  match ttab with
  | [] => Fault OutOfBounds
  | pt :: ttab =>
      if decide (ft_state pt = FSINVALID) then Ok (fsm, ti)
      else
        fsm ← (if decide (ft_char pt = TCANY)
               then for_ (Z.to_nat NCHRS) 0 (fun cn => fill ti (ft_state pt) cn) fsm
               else wr2 fsm (ft_state pt) (ft_char pt) (u8 ti));
        enter_all ttab (ti + 1) fsm
  end.

Definition fsminit (fsm : table) (ttab : list fsm_trans) (nstates : Z) : outcome table :=
  fsm ← for_ (Z.to_nat NCHRS) 0 (fun cn => for_ (Z.to_nat nstates) 0 (fun ti fsm => wr2 fsm ti cn TINVALID)) fsm;
  '(fsm, ti) ← enter_all ttab 0 fsm;
  for_ (Z.to_nat NCHRS) 0 (fun cn => for_ (Z.to_nat nstates) 0 (fun sn => fill ti sn cn)) fsm.

(** ** The environment *)

(** The terminal modes that the client looks at or changes. *)
Record termios := Termios {
  ECHO : bool; ICANON : bool;
  VMIN : Z; VTIME : Z; VINTR : Z; VQUIT : Z; VSUSP : Z; VERASE : Z; VKILL : Z; VDISCARD : Z;
}.

#[global] Instance termios_eq_dec : EqDecision termios.
Proof. solve_decision. Defined.

(** [sys n]: the [n]-th system call succeeds.  [termcap c]: the capability [c] of the
    terminal, when TERM is set and has an entry with it.  [resumed]: the terminal
    modes when a suspended client is continued.  [strerror_open]: why a script file
    cannot be opened. *)
Record env := Env {
  sys : nat -> bool;
  getenv_TERM : option (list Z);
  termcap : string -> option (list Z);
  resumed : termios -> termios;
  host : list Z;
  local_port : Z;
  remote_port : Z;
  strerror_open : list Z;
}.

(** ** The state *)

Record fsms := Fsms {
  ttfsm : table; sofsm : table; subfsm : table;
  ttstate : Z; sostate : Z; substate : Z;
}.

(** The options; [noga] and [savec] are static variables of functions. *)
Record options := Options {
  option_cmd : Z;
  doecho : bool; noga : bool; rcvbinary : bool; sndbinary : bool; termtype : bool;
  term : option (list Z);
}.

(** [tty0] and [ttyf] are the modes of standard input and of the stream [tfp]. *)
Record ttys := Ttys {
  tty0 : termios; ttyf : termios;
  oldtty : termios; tntty : termios;
  savec : Z * Z;
  t_flushc : Z; t_intrc : Z; t_quitc : Z; sg_erase : Z; sg_kill : Z;
}.

(** The script file: the bytes written to it when it is open. *)
Record scripts := Scripts { scrfp : option (list Z); scrname : list Z; scrindex : Z }.

(** What was written to the socket [sfp], to [tfp] and to standard output. *)
Record streams := Streams { to_sock : list Z; to_tty : list Z; to_stdout : list Z }.

(** [last_char] is static in [ttputc], [bp] in [tcout]; [ncalls] counts system calls. *)
Record tn := Tn {
  m_fsms : fsms; m_opts : options; m_ttys : ttys; m_script : scripts; m_io : streams;
  synching : Z; last_char : Z; bp : Z; ncalls : nat;
}.

Definition set_fsms (s : tn) x := Tn x (m_opts s) (m_ttys s) (m_script s) (m_io s) (synching s) (last_char s) (bp s) (ncalls s).
Definition set_opts (s : tn) x := Tn (m_fsms s) x (m_ttys s) (m_script s) (m_io s) (synching s) (last_char s) (bp s) (ncalls s).
Definition set_ttys (s : tn) x := Tn (m_fsms s) (m_opts s) x (m_script s) (m_io s) (synching s) (last_char s) (bp s) (ncalls s).
Definition set_script (s : tn) x := Tn (m_fsms s) (m_opts s) (m_ttys s) x (m_io s) (synching s) (last_char s) (bp s) (ncalls s).
Definition set_io (s : tn) x := Tn (m_fsms s) (m_opts s) (m_ttys s) (m_script s) x (synching s) (last_char s) (bp s) (ncalls s).
Definition set_synching (s : tn) x := Tn (m_fsms s) (m_opts s) (m_ttys s) (m_script s) (m_io s) x (last_char s) (bp s) (ncalls s).
Definition set_last_char (s : tn) x := Tn (m_fsms s) (m_opts s) (m_ttys s) (m_script s) (m_io s) (synching s) x (bp s) (ncalls s).
Definition set_bp (s : tn) x := Tn (m_fsms s) (m_opts s) (m_ttys s) (m_script s) (m_io s) (synching s) (last_char s) x (ncalls s).
Definition set_ncalls (s : tn) x := Tn (m_fsms s) (m_opts s) (m_ttys s) (m_script s) (m_io s) (synching s) (last_char s) (bp s) x.

Definition set_ttstate (f : fsms) x := Fsms (ttfsm f) (sofsm f) (subfsm f) x (sostate f) (substate f).
Definition set_sostate (f : fsms) x := Fsms (ttfsm f) (sofsm f) (subfsm f) (ttstate f) x (substate f).
Definition set_substate (f : fsms) x := Fsms (ttfsm f) (sofsm f) (subfsm f) (ttstate f) (sostate f) x.

Definition set_option_cmd (o : options) x := Options x (doecho o) (noga o) (rcvbinary o) (sndbinary o) (termtype o) (term o).
Definition set_doecho (o : options) x := Options (option_cmd o) x (noga o) (rcvbinary o) (sndbinary o) (termtype o) (term o).
Definition set_noga (o : options) x := Options (option_cmd o) (doecho o) x (rcvbinary o) (sndbinary o) (termtype o) (term o).
Definition set_rcvbinary (o : options) x := Options (option_cmd o) (doecho o) (noga o) x (sndbinary o) (termtype o) (term o).
Definition set_sndbinary (o : options) x := Options (option_cmd o) (doecho o) (noga o) (rcvbinary o) x (termtype o) (term o).
Definition set_termtype (o : options) x := Options (option_cmd o) (doecho o) (noga o) (rcvbinary o) (sndbinary o) x (term o).
Definition set_term (o : options) x := Options (option_cmd o) (doecho o) (noga o) (rcvbinary o) (sndbinary o) (termtype o) x.

Definition set_tty0 (t : ttys) x := Ttys x (ttyf t) (oldtty t) (tntty t) (savec t) (t_flushc t) (t_intrc t) (t_quitc t) (sg_erase t) (sg_kill t).
Definition set_ttyf (t : ttys) x := Ttys (tty0 t) x (oldtty t) (tntty t) (savec t) (t_flushc t) (t_intrc t) (t_quitc t) (sg_erase t) (sg_kill t).
Definition set_oldtty (t : ttys) x := Ttys (tty0 t) (ttyf t) x (tntty t) (savec t) (t_flushc t) (t_intrc t) (t_quitc t) (sg_erase t) (sg_kill t).
Definition set_tntty (t : ttys) x := Ttys (tty0 t) (ttyf t) (oldtty t) x (savec t) (t_flushc t) (t_intrc t) (t_quitc t) (sg_erase t) (sg_kill t).
Definition set_savec (t : ttys) x := Ttys (tty0 t) (ttyf t) (oldtty t) (tntty t) x (t_flushc t) (t_intrc t) (t_quitc t) (sg_erase t) (sg_kill t).

(** [_POSIX_VDISABLE] *)
Definition VDISABLE : Z := 0.

(** ** State, exit and faults *)

(** Why the program ends. *)
Inductive ending :=
| Disconnected                (* exit(0) *)
| CallFailed                  (* errexit or cerrexit after a failed call *)
| BrokenPipe                  (* SIGPIPE *)
| Aborted.                    (* tnabort *)

#[global] Instance ending_eq_dec : EqDecision ending.
Proof. solve_decision. Defined.

Definition act (A : Type) : Type := tn -> outcome (tn * (A + ending)).

#[global] Instance act_ret : MRet act := fun A a s => Ok (s, inl a).
#[global] Instance act_bind : MBind act := fun A B k m s =>
  match m s with
  | Ok (s, inl a) => k a s
  | Ok (s, inr e) => Ok (s, inr e)
  | Fault f => Fault f
  end.

Definition get : act tn := fun s => Ok (s, inl s).
Definition modify (f : tn -> tn) : act unit := fun s => Ok (f s, inl tt).
Definition lift {A} (m : outcome A) : act A := fun s => match m with Ok a => Ok (s, inl a) | Fault f => Fault f end.
Definition exit_ {A} (e : ending) : act A := fun s => Ok (s, inr e).

Section Client.
Context (E : env).

(** The result of the next system call. *)
Definition call : act bool := fun s => Ok (set_ncalls s (S (ncalls s)), inl (sys E (ncalls s))).

(** [putc(c, sfp)], and output to [tfp] that is not scripted. *)
Definition putc_sock (c : Z) : act unit := modify (fun s =>
  set_io s (Streams (to_sock (m_io s) ++ [u8 c]) (to_tty (m_io s)) (to_stdout (m_io s)))).
Definition puts_sock (cs : list Z) : act unit := modify (fun s =>
  set_io s (Streams (to_sock (m_io s) ++ cs) (to_tty (m_io s)) (to_stdout (m_io s)))).
Definition puts_tty (cs : list Z) : act unit := modify (fun s =>
  set_io s (Streams (to_sock (m_io s)) (to_tty (m_io s) ++ cs) (to_stdout (m_io s)))).
Definition puts_stdout (cs : list Z) : act unit := modify (fun s =>
  set_io s (Streams (to_sock (m_io s)) (to_tty (m_io s)) (to_stdout (m_io s) ++ cs))).

(** ** Output to the terminal (xput.c, tcout.c, ttputc.c) *)

Definition script_puts (cs : list Z) : act unit := modify (fun s =>
  match scrfp (m_script s) with
  | Some w => set_script s (Scripts (Some (w ++ cs)) (scrname (m_script s)) (scrindex (m_script s)))
  | None => s
  end).

Definition xputc (ch : Z) : act unit := _ ← script_puts [u8 ch]; puts_tty [u8 ch].
Definition xfputs (cs : list Z) : act unit := _ ← script_puts cs; puts_tty cs.

Definition TBUFSIZE : Z := 2048.

(** [tgetstr] stores the capability and its NUL at [bp] and moves [bp] behind them. *)
Definition tcout (cap : string) : act bool :=
  s ← get;
  match termcap E cap with
  | None => mret false
  | Some sv =>
      if bool_decide (bp s + Zlen sv + 1 <= TBUFSIZE) then
        _ ← modify (fun s => set_bp s (bp s + Zlen sv + 1));
        _ ← xfputs sv;
        mret true
      else lift (Fault OutOfBounds)
  end.

(** The actions return an [int]. *)
Definition no_op (c : Z) : act Z := mret 0.

Definition ttputc (c : Z) : act Z :=
  s ← get;
  if rcvbinary (m_opts s) then _ ← xputc c; mret 0
  else if bool_decide (synching s <> 0) then mret 0
  else if (bool_decide (last_char s = VPCR) && bool_decide (c = VPLF))
          || (bool_decide (last_char s = VPLF) && bool_decide (c = VPCR)) then
    _ ← xputc VPLF;
    _ ← modify (fun s => set_last_char s 0);
    mret 0
  else
    _ ← (if decide (last_char s = VPCR) then tcout "cr"
         else if decide (last_char s = VPLF) then tcout "do"
         else mret false);
    _ ← (if bool_decide (32 <= c) && bool_decide (c < TCIAC) then xputc c
         else
           tc ← (if decide (c = VPLF) then mret true
                 else if decide (c = VPCR) then mret true
                 else if decide (c = VPBEL) then tcout "bl"
                 else if decide (c = VPBS) then tcout "bc"
                 else if decide (c = VPHT) then tcout "ta"
                 else if decide (c = VPVT) then tcout "do"
                 else if decide (c = VPFF) then tcout "cl"
                 else mret true);
           if tc : bool then mret tt else xputc c);
    _ ← modify (fun s => set_last_char s c);
    mret 0.

(** ** Synchronisation (sync.c) *)

Definition tcdm (c : Z) : act Z :=
  s ← get;
  _ ← (if decide (0 < synching s) then modify (fun s => set_synching s (s8 (synching s - 1))) else mret tt);
  mret 0.

(** The handler of SIGURG. *)
Definition rcvurg (s : tn) : tn := set_synching s (s8 (synching s + 1)).

(** ** Option negotiation *)

Definition recopt (c : Z) : act Z :=
  _ ← modify (fun s => set_opts s (set_option_cmd (m_opts s) (u8 c)));
  mret 0.

(** IAC, a command and an option, to the socket. *)
Definition reply (cmd c : Z) : act unit :=
  _ ← putc_sock TCIAC;
  _ ← putc_sock cmd;
  putc_sock c.

Definition do_echo (c : Z) : act Z :=
  s ← get;
  let o := m_opts s in
  if doecho o && bool_decide (option_cmd o = TCWILL) then mret 0
  else if negb (doecho o) && bool_decide (option_cmd o = TCWONT) then mret 0
  else
    ok ← call;
    ok ← (if ok : bool then
            let t := m_ttys s in
            let tio := ttyf t in
            let '(tio, savec') :=
              (if decide (option_cmd o = TCWILL)
               then (Termios false false 1 0 (VINTR tio) (VQUIT tio) (VSUSP tio) (VERASE tio) (VKILL tio) (VDISCARD tio),
                     (s8 (VMIN tio), s8 (VTIME tio)))
               else (Termios true true (u8 (fst (savec t))) (u8 (snd (savec t)))
                             (VINTR tio) (VQUIT tio) (VSUSP tio) (VERASE tio) (VKILL tio) (VDISCARD tio),
                     savec t)) in
            _ ← modify (fun s => set_ttys s (set_savec (m_ttys s) savec'));
            ok ← call;
            _ ← (if ok : bool then modify (fun s => set_ttys s (set_ttyf (m_ttys s) tio)) else mret tt);
            mret ok
          else mret false);
    _ ← (if ok : bool then modify (fun s => set_opts s (set_doecho (m_opts s) (negb (doecho (m_opts s))))) else mret tt);
    s ← get;
    _ ← reply (if doecho (m_opts s) then TCDO else TCDONT) c;
    mret 0.

Definition do_noga (c : Z) : act Z :=
  s ← get;
  let o := m_opts s in
  if noga o && bool_decide (option_cmd o = TCWILL) then mret 0
  else if negb (noga o) && bool_decide (option_cmd o = TCWONT) then mret 0
  else
    _ ← modify (fun s => set_opts s (set_noga (m_opts s) (negb (noga (m_opts s)))));
    s ← get;
    _ ← reply (if noga (m_opts s) then TCDO else TCDONT) c;
    mret 0.

Definition do_notsup (c : Z) : act Z := _ ← reply TCDONT c; mret 0.

Definition do_txbinary (c : Z) : act Z :=
  s ← get;
  let o := m_opts s in
  if rcvbinary o && bool_decide (option_cmd o = TCWILL) then mret 0
  else if negb (rcvbinary o) && bool_decide (option_cmd o = TCWONT) then mret 0
  else
    _ ← modify (fun s => set_opts s (set_rcvbinary (m_opts s) (negb (rcvbinary (m_opts s)))));
    s ← get;
    _ ← reply (if rcvbinary (m_opts s) then TCDO else TCDONT) c;
    mret 0.

Definition will_notsup (c : Z) : act Z := _ ← reply TCWONT c; mret 0.

Definition will_txbinary (c : Z) : act Z :=
  s ← get;
  let o := m_opts s in
  if sndbinary o && bool_decide (option_cmd o = TCDO) then mret 0
  else if negb (sndbinary o) && bool_decide (option_cmd o = TCDONT) then mret 0
  else
    _ ← modify (fun s => set_opts s (set_sndbinary (m_opts s) (negb (sndbinary (m_opts s)))));
    s ← get;
    _ ← reply (if sndbinary (m_opts s) then TCWILL else TCWONT) c;
    mret 0.

Definition will_termtype (c : Z) : act Z :=
  s ← get;
  let o := m_opts s in
  if termtype o && bool_decide (option_cmd o = TCDO) then mret 0
  else if negb (termtype o) && bool_decide (option_cmd o = TCDONT) then mret 0
  else
    _ ← modify (fun s => set_opts s (set_termtype (m_opts s) (negb (termtype (m_opts s)))));
    s ← get;
    _ ← (if termtype (m_opts s) && bool_decide (term (m_opts s) = None) then
           match getenv_TERM E with
           | Some name => modify (fun s => set_opts s (set_term (m_opts s) (Some name)))
           | None => modify (fun s => set_opts s (set_termtype (m_opts s) (negb (termtype (m_opts s)))))
           end
         else mret tt);
    s ← get;
    _ ← reply (if termtype (m_opts s) then TCWILL else TCWONT) c;
    if termtype (m_opts s) then
      _ ← modify (fun s => set_opts s (set_option_cmd (m_opts s) TCWILL));
      _ ← do_txbinary TOTXBINARY;
      _ ← modify (fun s => set_opts s (set_option_cmd (m_opts s) TCDO));
      _ ← will_txbinary TOTXBINARY;
      mret 0
    else mret 0.

(** ** Option subnegotiation *)

(** [fputs] of a null pointer is undefined. *)
Definition subtermtype (c : Z) : act Z :=
  s ← get;
  _ ← putc_sock TCIAC;
  _ ← putc_sock TCSB;
  _ ← putc_sock TOTERMTYPE;
  _ ← putc_sock TT_IS;
  _ ← (match term (m_opts s) with Some name => puts_sock name | None => lift (Fault NullDeref) end);
  _ ← putc_sock TCIAC;
  _ ← putc_sock TCSE;
  mret 0.

Definition subend (c : Z) : act Z :=
  _ ← modify (fun s => set_fsms s (set_substate (m_fsms s) SS_START));
  mret 0.

(** ** Keys (soputc.c and the escape commands) *)

Definition soputc (c : Z) : act Z :=
  s ← get;
  if sndbinary (m_opts s) then
    _ ← (if decide (c = TCIAC) then putc_sock TCIAC else mret tt);
    _ ← putc_sock c;
    mret 0
  else
    let c := Z.land c 127 in
    let t := m_ttys s in
    _ ← (if bool_decide (c = t_intrc t) || bool_decide (c = t_quitc t) then _ ← putc_sock TCIAC; putc_sock TCIP
         else if decide (c = sg_erase t) then _ ← putc_sock TCIAC; putc_sock TCEC
         else if decide (c = sg_kill t) then _ ← putc_sock TCIAC; putc_sock TCEL
         else if decide (c = t_flushc t) then _ ← putc_sock TCIAC; putc_sock TCAO
         else putc_sock c);
    mret 0.

Definition sonotsup (c : Z) : act Z :=
  _ ← puts_tty ([10] ++ text "unsupported escape: " ++ [u8 c] ++ text "." ++ [10]);
  _ ← puts_tty (text "s  - turn on scripting" ++ [9; 9]);
  _ ← puts_tty (text "u  - turn off scripting" ++ [10]);
  _ ← puts_tty (text ".  - disconnect" ++ [9; 9; 9]);
  _ ← puts_tty (text "^Z - suspend" ++ [10]);
  _ ← puts_tty (text "^T - print status" ++ [10]);
  mret 0.

Definition dcon (c : Z) : act Z :=
  _ ← puts_tty (text "disconnecting." ++ [10]);
  ok ← call;
  _ ← (if ok : bool then modify (fun s => set_ttys s (set_tty0 (m_ttys s) (oldtty (m_ttys s)))) else mret tt);
  exit_ Disconnected.

(** [tcgetattr(0, ...)] and [tcsetattr(0, ...)] that end the program when they fail. *)
Definition get_tty0 : act termios :=
  ok ← call;
  s ← get;
  if ok : bool then mret (tty0 (m_ttys s)) else exit_ CallFailed.

Definition put_tty0 (t : termios) : act unit :=
  ok ← call;
  if ok : bool then modify (fun s => set_ttys s (set_tty0 (m_ttys s) t)) else exit_ CallFailed.

(** The file name so far, as a C string. *)
Fixpoint cstring (l : list Z) : list Z :=
  match l with
  | [] => []
  | c :: l => if decide (c = 0) then [] else u8 c :: cstring l
  end.
Definition name_of (sc : scripts) : list Z := cstring (scrname sc).

Definition scrinit (c : Z) : act Z :=
  s ← get;
  if negb (doecho (m_opts s)) then
    _ ← puts_tty ([10] ++ text "scripting requires remote ECHO." ++ [10]);
    mret (-1)
  else if bool_decide (scrfp (m_script s) <> None) then
    _ ← puts_tty ([10] ++ text "already scripting to " ++ [34] ++ name_of (m_script s) ++ [34; 46; 10]);
    mret (-1)
  else
    _ ← modify (fun s => set_script s (Scripts (scrfp (m_script s)) (scrname (m_script s)) 0));
    t ← get_tty0;
    _ ← modify (fun s => set_ttys s (set_tntty (m_ttys s) t));
    s ← get;
    let o := oldtty (m_ttys s) in
    _ ← put_tty0 (Termios (ECHO o) (ICANON o) (VMIN o) (VTIME o) VDISABLE VDISABLE VDISABLE
                          (VERASE o) (VKILL o) (VDISCARD o));
    _ ← puts_tty ([10] ++ text "script file: ");
    mret 0.

Definition SFBUFSZ : Z := 2048.

Definition scrgetc (c : Z) : act Z :=
  s ← get;
  let sc := m_script s in
  name ← lift (wr (scrname sc) (scrindex sc) (s8 c));
  _ ← modify (fun s => set_script s (Scripts (scrfp (m_script s)) name (scrindex sc + 1)));
  if decide (SFBUFSZ <= scrindex sc + 1) then
    _ ← puts_tty ([10] ++ text "name too long" ++ [10]);
    s ← get;
    _ ← put_tty0 (oldtty (m_ttys s));
    mret (-1)
  else mret 0.

Definition scrwrap (c : Z) : act Z :=
  s ← get;
  let sc := m_script s in
  _ ← (if decide (scrindex sc <> 0) then
         name ← lift (wr (scrname sc) (scrindex sc) 0);
         _ ← modify (fun s => set_script s (Scripts (scrfp (m_script s)) name 0));
         opened ← call;
         if opened : bool then
           stream ← call;
           modify (fun s => set_script s (Scripts (if stream : bool then Some [] else None)
                                                  (scrname (m_script s)) (scrindex (m_script s))))
         else
           s ← get;
           puts_tty ([10] ++ text "can't write " ++ [34] ++ name_of (m_script s) ++ [34] ++ text ": " ++ strerror_open E ++ [10])
       else mret tt);
  s ← get;
  _ ← put_tty0 (tntty (m_ttys s));
  mret 0.

Definition unscript (c : Z) : act Z :=
  s ← get;
  match scrfp (m_script s) with
  | None => _ ← puts_tty ([10] ++ text "Not scripting." ++ [10]); mret 0
  | Some w =>
      ok ← call;
      _ ← (if ok : bool then puts_tty ([10; 34] ++ name_of (m_script s) ++ [34] ++ text ": " ++ dec (Zlen w) ++ text " bytes." ++ [10])
           else mret tt);
      _ ← modify (fun s => set_script s (Scripts None (scrname (m_script s)) (scrindex (m_script s))));
      mret 0
  end.

Definition suspend (c : Z) : act Z :=
  t ← get_tty0;
  _ ← modify (fun s => set_ttys s (set_tntty (m_ttys s) t));
  s ← get;
  _ ← put_tty0 (oldtty (m_ttys s));
  _ ← modify (fun s => set_ttys s (set_tty0 (m_ttys s) (resumed E (tty0 (m_ttys s)))));
  t ← get_tty0;
  _ ← modify (fun s => set_ttys s (set_oldtty (m_ttys s) t));
  s ← get;
  _ ← put_tty0 (tntty (m_ttys s));
  mret 0.

(** One line of this goes to standard output instead of [tfp]. *)
Definition status (c : Z) : act Z :=
  _ ← puts_tty ([10] ++ text "connected to " ++ [34] ++ host E ++ [34; 32]);
  ok ← call;
  _ ← (if ok : bool then puts_tty (text "local port " ++ dec (local_port E) ++ [32]) else mret tt);
  ok ← call;
  _ ← (if ok : bool then puts_tty (text "remote port " ++ dec (remote_port E) ++ [32]) else mret tt);
  _ ← puts_tty [10];
  s ← get;
  let o := m_opts s in
  _ ← (if doecho o || sndbinary o || rcvbinary o then
         _ ← puts_stdout (text "options in effect: ");
         _ ← (if doecho o then puts_tty (text "remote_echo ") else mret tt);
         _ ← (if sndbinary o then puts_tty (text "send_binary ") else mret tt);
         _ ← (if rcvbinary o then puts_tty (text "receive_binary ") else mret tt);
         puts_tty [10]
       else mret tt);
  _ ← (match scrfp (m_script s) with
       | Some _ => puts_tty (text "scripting to file " ++ [34] ++ name_of (m_script s) ++ [34; 10])
       | None => mret tt
       end);
  mret 0.

Definition tnabort (c : Z) : act Z := exit_ Aborted.

(** ** Running the machines *)

(** A call through [ft_action], for every action but [subopt]. *)
Definition run_simple (a : action) (c : Z) : act Z :=
  match a with
  | a_no_op => no_op c
  | a_ttputc => ttputc c
  | a_tcdm => tcdm c
  | a_recopt => recopt c
  | a_subopt => lift (Fault OutOfFuel)
  | a_subend => subend c
  | a_do_echo => do_echo c
  | a_do_noga => do_noga c
  | a_do_txbinary => do_txbinary c
  | a_do_notsup => do_notsup c
  | a_will_termtype => will_termtype c
  | a_will_txbinary => will_txbinary c
  | a_will_notsup => will_notsup c
  | a_subtermtype => subtermtype c
  | a_soputc => soputc c
  | a_scrinit => scrinit c
  | a_unscript => unscript c
  | a_dcon => dcon c
  | a_suspend => suspend c
  | a_status => status c
  | a_sonotsup => sonotsup c
  | a_scrwrap => scrwrap c
  | a_scrgetc => scrgetc c
  | a_tnabort => tnabort c
  end.

(** [substab] does not contain [subopt] itself. *)
Definition subopt (c : Z) : act Z :=
  s ← get;
  ti ← lift (rd2 (subfsm (m_fsms s)) (substate (m_fsms s)) c);
  pt ← lift (rd substab ti);
  _ ← run_simple (ft_action pt) c;
  _ ← modify (fun s => set_fsms s (set_substate (m_fsms s) (ft_next pt)));
  mret 0.

Definition run_action (a : action) (c : Z) : act Z :=
  match a with a_subopt => subopt c | _ => run_simple a c end.

(** The body of the loop of [ttwrite]. *)
Definition tt_byte (c : Z) : act unit :=
  s ← get;
  ti ← lift (rd2 (ttfsm (m_fsms s)) (ttstate (m_fsms s)) c);
  pt ← lift (rd ttstab ti);
  _ ← run_action (ft_action pt) c;
  modify (fun s => set_fsms s (set_ttstate (m_fsms s) (ft_next pt))).

Fixpoint ttwrite (buf : list Z) : act unit :=
  match buf with
  | [] => mret tt
  | c :: buf => _ ← tt_byte c; ttwrite buf
  end.

(** The body of the loop of [sowrite]. *)
Definition so_byte (c : Z) : act unit :=
  s ← get;
  ki ← lift (rd2 (sofsm (m_fsms s)) (sostate (m_fsms s)) c);
  pt ← lift (rd sostab ki);
  rc ← run_action (ft_action pt) c;
  modify (fun s => set_fsms s (set_sostate (m_fsms s) (if decide (rc < 0) then KSREMOTE else ft_next pt))).

Fixpoint sowrite (buf : list Z) : act unit :=
  match buf with
  | [] => mret tt
  | c :: buf => _ ← so_byte c; sowrite buf
  end.

(** ** Start and main loop (ttysetup.c, fsmbuild.c, telnet.c) *)

Definition ttysetup : act unit :=
  t ← get_tty0;
  _ ← modify (fun s => set_ttys s
        (Ttys (tty0 (m_ttys s)) (ttyf (m_ttys s)) t
              (Termios (ECHO t) (ICANON t) (VMIN t) (VTIME t) VDISABLE VDISABLE VDISABLE (VERASE t) (VKILL t) (VDISCARD t))
              (savec (m_ttys s)) (s8 (VDISCARD t)) (s8 (VINTR t)) (s8 (VQUIT t)) (s8 (VERASE t)) (s8 (VKILL t))));
  s ← get;
  put_tty0 (tntty (m_ttys s)).

Definition fsmbuild : act unit :=
  s ← get;
  let f := m_fsms s in
  tt' ← lift (fsminit (ttfsm f) ttstab NTSTATES);
  so' ← lift (fsminit (sofsm f) sostab NKSTATES);
  sub' ← lift (fsminit (subfsm f) substab NSSTATES);
  modify (fun s => set_fsms s (Fsms tt' so' sub' TSDATA KSREMOTE SS_START)).

(** What a [read] returns; what a turn of the loop finds. *)
Inductive read_result := Data (bytes : list Z) | Eof | ReadError.

Inductive turn :=
| Urgent                                               (* select is interrupted by SIGURG *)
| SelectFails
| Ready (socket keyboard : option read_result).

(** [cerrexit] restores the terminal and exits. *)
Definition cerrexit {A} : act A :=
  ok ← call;
  _ ← (if ok : bool then modify (fun s => set_ttys s (set_tty0 (m_ttys s) (oldtty (m_ttys s)))) else mret tt);
  exit_ CallFailed.

(** *** Streams that may be null

    [telnet] does not look at what [fopen] and [fdopen] return: [tfp] and [sfp] say whether there is a
    stream.  A character for a stream that is not there is a null pointer, and so is the
    [fileno( tfp )] of the first system call of [do_echo].  (The flush of a null stream flushes all others.) *)

Definition null_used (sfp tfp : bool) (a : action) (s s' : tn) : bool :=
  (negb sfp && negb (bool_decide (to_sock (m_io s') = to_sock (m_io s)))) ||
  (negb tfp && ((bool_decide (a = a_do_echo) && negb (bool_decide (ncalls s' = ncalls s)))
                || negb (bool_decide (to_tty (m_io s') = to_tty (m_io s))))).

Definition on_streams {A} (sfp tfp : bool) (a : action) (m : act A) : act A := fun s =>
  match m s with
  | Ok (s', r) => if null_used sfp tfp a s s' then Fault NullDeref else Ok (s', r)
  | Fault f => Fault f
  end.

(** The action that the byte [c] leads to. *)
Definition action_at (fsm : table) (ttab : list fsm_trans) (st c : Z) : outcome action :=
  ti ← rd2 fsm st c;
  pt ← rd ttab ti;
  Ok (ft_action pt).

(** [ttwrite(sfp, tfp, buf, cc)] and [sowrite(sfp, tfp, buf, cc)]. *)
Fixpoint ttwrite_on (sfp tfp : bool) (buf : list Z) : act unit :=
  match buf with
  | [] => mret tt
  | c :: buf =>
      s ← get;
      a ← lift (action_at (ttfsm (m_fsms s)) ttstab (ttstate (m_fsms s)) c);
      _ ← on_streams sfp tfp a (tt_byte c);
      ttwrite_on sfp tfp buf
  end.

Fixpoint sowrite_on (sfp tfp : bool) (buf : list Z) : act unit :=
  match buf with
  | [] => mret tt
  | c :: buf =>
      s ← get;
      a ← lift (action_at (sofsm (m_fsms s)) sostab (sostate (m_fsms s)) c);
      _ ← on_streams sfp tfp a (so_byte c);
      sowrite_on sfp tfp buf
  end.

(** [fflush(sfp)] at the end of a turn that began with [sent] bytes written: after [shutdown] the kernel refuses
    what is still to be sent, with a signal. *)
Definition fflush (shut : bool) (sent : list Z) : act unit :=
  s ← get;
  if shut && negb (bool_decide (to_sock (m_io s) = sent)) then exit_ BrokenPipe else mret tt.

(** The loop; [shut] when the socket has been shut down for writing; [true] when the connection was closed, the
    bytes also written to [wfd].  A signal that arrives while a buffer is handled is this buffer coming in
    two turns, with the interrupt between them. *)
Fixpoint telnet_loop (sfp tfp : bool) (turns : list turn) (shut : bool) (raw : list Z) : act (bool * list Z) :=
  match turns with
  | [] => mret (false, raw)
  | Urgent :: turns => _ ← modify rcvurg; telnet_loop sfp tfp turns shut raw
  | SelectFails :: turns => cerrexit
  | Ready socket keyboard :: turns =>
      s0 ← get;
      '(closed, raw) ←
        (match socket with
         | None => mret (false, raw)
         | Some ReadError => cerrexit
         | Some Eof => s ← get; _ ← put_tty0 (oldtty (m_ttys s)); mret (true, raw)
         | Some (Data buf) => _ ← ttwrite_on sfp tfp buf; mret (false, raw ++ buf)
         end);
      if closed : bool then mret (true, raw)
      else
        shut ← (match keyboard with
                | None => mret shut
                | Some ReadError => cerrexit
                | Some Eof => ok ← call; mret (shut || ok)
                | Some (Data buf) => _ ← sowrite_on sfp tfp buf; mret shut
                end);
        _ ← fflush shut (to_sock (m_io s0));
        telnet_loop sfp tfp turns shut raw
  end.

(** [fopen] is the first system call, [fdopen] the fourth. *)
Definition telnet (turns : list turn) : act (bool * list Z) :=
  outfp ← call;
  _ ← ttysetup;
  _ ← fsmbuild;
  sfp ← call;
  telnet_loop sfp outfp turns false [].

(** ** The variant that logs in by itself (telnet_local.c) *)

(** The first [length bs] bytes of the read buffer replaced. *)
Definition into_buf (bs buf : list Z) : list Z := bs ++ drop (length bs) buf.

Definition prompt : list Z := [13; 10] ++ text "Password:".

(** [buf] is the read buffer, which keeps what is not overwritten.  Standard input
    wakes the loop up but is not read. *)
Fixpoint local_loop (sfp : bool) (turns : list turn) (buf : list Z) : act (list Z) :=
  match turns with
  | [] => mret buf
  | Urgent :: turns => _ ← modify rcvurg; local_loop sfp turns buf
  | SelectFails :: turns => cerrexit
  | Ready socket _ :: turns =>
      '(password, buf) ←
        (match socket with
         | None => mret (false, buf)
         | Some ReadError => cerrexit
         | Some Eof =>
             _ ← puts_stdout ([10] ++ text "connection closed." ++ [10]);
             s ← get;
             _ ← put_tty0 (oldtty (m_ttys s));
             exit_ Disconnected
         | Some (Data bs) =>
             _ ← ttwrite_on sfp true bs;
             mret (bool_decide (take 11 (into_buf bs buf) = prompt), into_buf bs buf)
         end);
      buf ← (if password : bool then
               let b1 := text "chanct-code" ++ [13] in
               let b2 := text "dir" ++ [13] in
               let b3 := text "quit" ++ [13] in
               _ ← sowrite_on sfp true b1;
               _ ← sowrite_on sfp true b2;
               _ ← sowrite_on sfp true b3;
               mret (into_buf b3 (into_buf b2 (into_buf b1 buf)))
             else mret buf);
      local_loop sfp turns buf
  end.

(** The terminal is standard output here; [buf] is not initialised; [fdopen] is the third system call. *)
Definition telnet_local (turns : list turn) (buf : list Z) : act (list Z) :=
  _ ← ttysetup;
  _ ← fsmbuild;
  sfp ← call;
  local_loop sfp turns buf.
End Client.

(** ** The static variables, before [telnet] is called *)

Definition no_termios : termios := Termios false false 0 0 0 0 0 0 0 0.

Definition cleared (n : Z) : table := replicate (Z.to_nat n) (replicate (Z.to_nat NCHRS) 0).

Definition initial (t : termios) : tn :=
  Tn (Fsms (cleared NTSTATES) (cleared NKSTATES) (cleared NSSTATES) 0 0 0)
     (Options 0 false false false false false None)
     (Ttys t t no_termios no_termios (0, 0) 0 0 0 0 0)
     (Scripts None (replicate (Z.to_nat SFBUFSZ) 0) 0)
     (Streams [] [] []) 0 0 0 0.
