(* ===== verification/TelnetFsm.v ===== *)
(** * The telnet client: its state machines (fsminit.c and the tables)

    [fsminit] is shown to build, from any table of transitions, the array that gives
    for every state and character the transition that applies; the three tables of
    the client are complete and stay among their states.  What a byte or a key does
    is then a function of the tables, without the arrays. *)

From stdpp Require Import base numbers list list_numbers.
From S2P Require Import Prelude Telnet.

#[local] Open Scope Z_scope.

(** ** The transition that applies *)

(** The index of the last, or first, transition with a property, counted from [i]. *)
Fixpoint last_index (P : fsm_trans -> bool) (l : list fsm_trans) (i : Z) : option Z :=
  match l with
  | [] => None
  | t :: l => match last_index P l (i + 1) with Some j => Some j | None => if P t then Some i else None end
  end.

Fixpoint first_index (P : fsm_trans -> bool) (l : list fsm_trans) (i : Z) : option Z :=
  match l with
  | [] => None
  | t :: l => if P t then Some i else first_index P l (i + 1)
  end.

Definition exact (s c : Z) (t : fsm_trans) : bool := bool_decide (ft_state t = s) && bool_decide (ft_char t = c).
Definition any (s : Z) (t : fsm_trans) : bool := bool_decide (ft_state t = s) && bool_decide (ft_char t = TCANY).

(** The last transition for the character itself, else the first for any character,
    else the entry behind the table. *)
Definition transition (l : list fsm_trans) (s c : Z) : Z :=
  match last_index (exact s c) l 0 with
  | Some i => i
  | None => default (Zlen l) (first_index (any s) l 0)
  end.

(** ** Arrays *)

(** An array of [n] rows that holds the values [g]. *)
Definition holds (fsm : table) (n : Z) (g : Z -> Z -> Z) : Prop :=
  Zlen fsm = n /\ forall s c, 0 <= s < n -> 0 <= c < NCHRS -> rd2 fsm s c = Ok (g s c).

Definition dims (fsm : table) (n : Z) : Prop := dims2 fsm n NCHRS.

#[global] Instance dims_dec fsm n : Decision (dims fsm n).
Proof. unfold dims, dims2. apply _. Defined.

Lemma wr2_holds fsm n g s c v :
  dims fsm n -> holds fsm n g -> 0 <= s < n -> 0 <= c < NCHRS ->
  exists fsm', wr2 fsm s c v = Ok fsm' /\ dims fsm' n /\ holds fsm' n (upd2 g s c v).
Proof.
  intros Hd [_ Hg] Hs Hc. destruct (wr2_ok fsm n NCHRS g s c v Hd Hg Hs Hc) as (fsm' & E & Hd' & Hg').
  exists fsm'. split; [done|]. split; [done|]. split; [apply Hd'|done].
Qed.

(** Some values are in the array. *)
Lemma dims_holds fsm n : dims fsm n -> exists g, holds fsm n g.
Proof.
  intros [Hn Hrows]. exists (fun s c => match rd2 fsm s c with Ok v => v | Fault _ => 0 end). split; [done|].
  intros s c Hs Hc. destruct (rd_in_range fsm s ltac:(lia)) as [row Er]. unfold rd2. rewrite Er.
  cbn [mbind outcome_bind]. pose proof (Forall_rd _ _ _ _ Hrows Er) as Hr.
  cbn beta in Hr. destruct (rd_in_range row c ltac:(lia)) as [v ->]. done.
Qed.

(** The array is [g], exactly. *)
Definition is_table (fsm : table) (n : Z) (g : Z -> Z -> Z) : Prop := dims fsm n /\ holds fsm n g.

Lemma holds_ext fsm n g g' :
  (forall s c, 0 <= s < n -> 0 <= c < NCHRS -> g s c = g' s c) -> holds fsm n g -> holds fsm n g'.
Proof. intros He [Hn Hg]. split; [done|]. intros s c Hs Hc. by rewrite <- He, Hg. Qed.

(** ** The three loops *)

Lemma clear_loop_ok fsm n :
  dims fsm n -> 0 <= n ->
  exists fsm', for_ (Z.to_nat NCHRS) 0 (fun cn => for_ (Z.to_nat n) 0 (fun ti fsm => wr2 fsm ti cn TINVALID)) fsm
               = Ok fsm' /\ is_table fsm' n (fun _ _ => TINVALID).
Proof.
  intros Hd Hn.
  destruct (for_inv (fun k fsm => dims fsm n /\ exists g, holds fsm n g /\
              forall s c, 0 <= s < n -> 0 <= c < k -> g s c = TINVALID)
            (fun cn => for_ (Z.to_nat n) 0 (fun ti fsm => wr2 fsm ti cn TINVALID)) (Z.to_nat NCHRS) 0 fsm)
    as (fsm' & E & Hd' & g & Hg & Hall).
  - intros cn st Hcn (Hdst & g & Hg & Hall). unfold NCHRS in Hcn.
    destruct (for_inv (fun k fsm => dims fsm n /\ exists g, holds fsm n g /\
                (forall s c, 0 <= s < n -> 0 <= c < cn -> g s c = TINVALID) /\
                (forall s, 0 <= s < k -> g s cn = TINVALID))
              (fun ti fsm => wr2 fsm ti cn TINVALID) (Z.to_nat n) 0 st) as (st' & E & Hd' & g' & Hg' & Ha & Hb).
    + intros ti st2 Hti (Hd2 & g2 & Hg2 & Ha & Hb).
      destruct (wr2_holds st2 n g2 ti cn TINVALID Hd2 Hg2) as (st3 & E3 & Hd3 & Hg3);
        [lia | unfold NCHRS; lia |].
      exists st3. split; [done|]. split; [done|]. exists (upd2 g2 ti cn TINVALID). split; [done|].
      unfold upd2. split.
      * intros s c Hs Hc. rewrite decide_False by lia. by apply Ha.
      * intros s Hs. destruct (decide _) as [|Hne]; [done|]. apply Hb. lia.
    + split; [done|]. exists g. split; [done|]. split; [done|]. intros; lia.
    + exists st'. split; [done|]. split; [done|]. exists g'. split; [done|].
      intros s c Hs Hc. destruct (decide (c = cn)) as [->|]; [apply Hb; lia | apply Ha; lia].
  - split; [done|]. destruct (dims_holds _ _ Hd) as [g Hg]. exists g. split; [done|]. intros; lia.
  - exists fsm'. split; [done|]. split; [done|]. eapply holds_ext; [|exact Hg].
    intros s c Hs Hc. apply Hall; [done|]. unfold NCHRS in *. lia.
Qed.

(** [fill] on the values. *)
Definition filled (ti v : Z) : Z := if decide (v = TINVALID) then ti else v.

Lemma fill_ok fsm n g ti s c :
  is_table fsm n g -> 0 <= s < n -> 0 <= c < NCHRS -> 0 <= ti < 256 ->
  exists fsm', fill ti s c fsm = Ok fsm' /\ is_table fsm' n (upd2 g s c (filled ti (g s c))).
Proof.
  intros [Hd Hg] Hs Hc Hti. unfold fill. rewrite (proj2 Hg s c Hs Hc). cbn [mbind outcome_bind].
  unfold filled. destruct (decide (g s c = TINVALID)) as [E|E].
  - rewrite u8_small by done. destruct (wr2_holds fsm n g s c ti Hd Hg Hs Hc) as (fsm' & Ew & Hd' & Hg').
    by exists fsm'.
  - exists fsm. split; [done|]. split; [done|]. eapply holds_ext; [|exact Hg]. intros s' c' _ _. unfold upd2.
    destruct (decide _) as [[-> ->]|]; done.
Qed.

Lemma fill_row_ok fsm n g ti s :
  is_table fsm n g -> 0 <= s < n -> 0 <= ti < 256 ->
  exists fsm', for_ (Z.to_nat NCHRS) 0 (fun cn => fill ti s cn) fsm = Ok fsm' /\
               is_table fsm' n (fun s' c' => if decide (s' = s) then filled ti (g s' c') else g s' c').
Proof.
  intros Ht Hs Hti.
  destruct (for_inv (fun k fsm => is_table fsm n (fun s' c' =>
              if decide (s' = s /\ c' < k) then filled ti (g s' c') else g s' c'))
            (fun cn => fill ti s cn) (Z.to_nat NCHRS) 0 fsm) as (fsm' & E & Hd & Hg).
  - intros cn st Hcn Hst. unfold NCHRS in Hcn.
    destruct (fill_ok st n _ ti s cn Hst Hs ltac:(unfold NCHRS; lia) Hti) as (st' & E & Hd & Hg).
    exists st'. split; [done|]. split; [done|]. eapply holds_ext; [|exact Hg]. intros s' c' _ _. cbn beta. unfold upd2.
    rewrite (decide_False (P := s = s /\ cn < cn)) by lia.
    destruct (decide (s' = s /\ c' = cn)) as [[-> ->]|Hne].
    + by rewrite decide_True by lia.
    + destruct (decide (s' = s /\ c' < cn)) as [Hlt|Hlt].
      * by rewrite decide_True by lia.
      * by rewrite decide_False by lia.
  - destruct Ht as [Hd Hg]. split; [done|]. eapply holds_ext; [|exact Hg]. intros s' c' _ Hc'. cbn beta.
    by rewrite decide_False by lia.
  - exists fsm'. split; [done|]. split; [done|]. eapply holds_ext; [|exact Hg]. intros s' c' _ Hc'. cbn beta.
    unfold NCHRS in Hc'. destruct (decide (s' = s)) as [->|].
    + rewrite decide_True; [done|]. split; [done|]. unfold NCHRS. lia.
    + by rewrite decide_False by tauto.
Qed.

Lemma fill_column_ok fsm n g ti c :
  is_table fsm n g -> 0 <= n -> 0 <= c < NCHRS -> 0 <= ti < 256 ->
  exists fsm', for_ (Z.to_nat n) 0 (fun sn => fill ti sn c) fsm = Ok fsm' /\
               is_table fsm' n (fun s' c' => if decide (c' = c) then filled ti (g s' c') else g s' c').
Proof.
  intros Ht Hn Hc Hti.
  destruct (for_inv (fun k fsm => is_table fsm n (fun s' c' =>
              if decide (c' = c /\ s' < k) then filled ti (g s' c') else g s' c'))
            (fun sn => fill ti sn c) (Z.to_nat n) 0 fsm) as (fsm' & E & Hd & Hg).
  - intros sn st Hsn Hst. destruct (fill_ok st n _ ti sn c Hst ltac:(lia) Hc Hti) as (st' & E & Hd & Hg).
    exists st'. split; [done|]. split; [done|]. eapply holds_ext; [|exact Hg]. intros s' c' _ _. cbn beta. unfold upd2.
    rewrite (decide_False (P := c = c /\ sn < sn)) by lia.
    destruct (decide (s' = sn /\ c' = c)) as [[-> ->]|Hne].
    + by rewrite decide_True by lia.
    + destruct (decide (c' = c /\ s' < sn)) as [Hlt|Hlt].
      * by rewrite decide_True by lia.
      * by rewrite decide_False by lia.
  - destruct Ht as [Hd Hg]. split; [done|]. eapply holds_ext; [|exact Hg]. intros s' c' Hs' _. cbn beta.
    by rewrite decide_False by lia.
  - exists fsm'. split; [done|]. split; [done|]. eapply holds_ext; [|exact Hg]. intros s' c' Hs' _. cbn beta.
    destruct (decide (c' = c)) as [->|].
    + by rewrite decide_True by lia.
    + by rewrite decide_False by tauto.
Qed.

Lemma fill_all_ok fsm n g ti :
  is_table fsm n g -> 0 <= n -> 0 <= ti < 256 ->
  exists fsm', for_ (Z.to_nat NCHRS) 0 (fun cn => for_ (Z.to_nat n) 0 (fun sn => fill ti sn cn)) fsm = Ok fsm' /\
               is_table fsm' n (fun s c => filled ti (g s c)).
Proof.
  intros Ht Hn Hti.
  destruct (for_inv (fun k fsm => is_table fsm n (fun s' c' => if decide (c' < k) then filled ti (g s' c') else g s' c'))
            (fun cn => for_ (Z.to_nat n) 0 (fun sn => fill ti sn cn)) (Z.to_nat NCHRS) 0 fsm) as (fsm' & E & Hd & Hg).
  - intros cn st Hcn Hst. unfold NCHRS in Hcn.
    destruct (fill_column_ok st n _ ti cn Hst Hn ltac:(unfold NCHRS; lia) Hti) as (st' & E & Hd & Hg).
    exists st'. split; [done|]. split; [done|]. eapply holds_ext; [|exact Hg]. intros s' c' _ _. cbn beta.
    destruct (decide (c' = cn)) as [->|Hne].
    + rewrite (decide_False (P := cn < cn)) by lia. by rewrite decide_True by lia.
    + destruct (decide (c' < cn)) as [Hlt|Hlt]; [by rewrite decide_True by lia | by rewrite decide_False by lia].
  - destruct Ht as [Hd Hg]. split; [done|]. eapply holds_ext; [|exact Hg]. intros s' c' _ Hc'. cbn beta.
    by rewrite decide_False by lia.
  - exists fsm'. split; [done|]. split; [done|]. eapply holds_ext; [|exact Hg]. intros s' c' _ Hc'. cbn beta.
    rewrite decide_True; [done|]. unfold NCHRS in *. lia.
Qed.

(** ** The transitions *)

(** A table that ends with its marker, and whose transitions fit the array. *)
Definition trans_ok (n : Z) (t : fsm_trans) : Prop :=
  0 <= ft_state t < n /\ ft_state t <> FSINVALID /\ (0 <= ft_char t < NCHRS \/ ft_char t = TCANY).

#[global] Instance trans_ok_dec n t : Decision (trans_ok n t).
Proof. unfold trans_ok. apply _. Defined.

(** What one transition does to a value of the array. *)
Definition entered (ti : Z) (t : fsm_trans) (g : Z -> Z -> Z) : Z -> Z -> Z := fun s c =>
  if exact s c t then ti else if any s t then filled ti (g s c) else g s c.

Lemma enter_all_ok l mark n : forall ti fsm g,
  Forall (trans_ok n) l -> ft_state mark = FSINVALID -> 0 <= ti -> ti + Zlen l < 256 -> is_table fsm n g ->
  exists fsm' g', enter_all (l ++ [mark]) ti fsm = Ok (fsm', ti + Zlen l) /\ is_table fsm' n g' /\
    forall s c, 0 <= s < n -> 0 <= c < NCHRS ->
      g' s c = match last_index (exact s c) l ti with
               | Some i => i
               | None => if decide (g s c = TINVALID) then default TINVALID (first_index (any s) l ti) else g s c
               end.
Proof.
  induction l as [|t l IH]; intros ti fsm g Hl Hm Hti Hlen Ht.
  - exists fsm, g. simpl. rewrite decide_True by done. rewrite Z.add_0_r. split; [done|]. split; [done|].
    intros s c _ _. by destruct (decide _).
  - apply Forall_cons in Hl as [(Hst & Hne & Hch) Hl]. rewrite Zlen_cons in Hlen. pose proof (Zlen_nonneg l).
    cbn [app enter_all]. rewrite decide_False by done.
    assert (Hone : exists fsm1, (if decide (ft_char t = TCANY)
                     then for_ (Z.to_nat NCHRS) 0 (fun cn => fill ti (ft_state t) cn) fsm
                     else wr2 fsm (ft_state t) (ft_char t) (u8 ti)) = Ok fsm1 /\ is_table fsm1 n (entered ti t g)).
    { destruct (decide (ft_char t = TCANY)) as [Ea|Ea].
      - destruct (fill_row_ok fsm n g ti (ft_state t) Ht Hst ltac:(lia)) as (fsm1 & E1 & Hd1 & Hg1).
        exists fsm1. split; [done|]. split; [done|]. eapply holds_ext; [|exact Hg1].
        intros s c _ Hc. unfold entered, exact, any. cbn beta. rewrite Ea.
        rewrite (bool_decide_false (TCANY = c)) by (unfold TCANY, NCHRS in *; lia). rewrite andb_false_r.
        rewrite (bool_decide_true (TCANY = TCANY)), andb_true_r by done.
        destruct (decide (s = ft_state t)) as [->|Hs]; [by rewrite bool_decide_true|].
        by rewrite bool_decide_false by congruence.
      - destruct Ht as [Hd Hg]. destruct Hch as [Hch|]; [|done]. rewrite u8_small by (unfold is_u8; lia).
        destruct (wr2_holds fsm n g (ft_state t) (ft_char t) ti Hd Hg Hst Hch) as (fsm1 & E1 & Hd1 & Hg1).
        exists fsm1. split; [done|]. split; [done|]. eapply holds_ext; [|exact Hg1].
        intros s c _ Hc. unfold entered, exact, any, upd2. rewrite (bool_decide_false (ft_char t = TCANY)) by done.
        rewrite andb_false_r. destruct (decide (s = ft_state t /\ c = ft_char t)) as [[-> ->]|Hs].
        + by rewrite !bool_decide_true.
        + destruct (bool_decide (ft_state t = s)) eqn:E2; [|done]. apply bool_decide_eq_true in E2. simpl.
          rewrite bool_decide_false; [done|]. intros E3. by apply Hs. }
    destruct Hone as (fsm1 & -> & Ht1). cbn [mbind outcome_bind].
    destruct (IH (ti + 1) fsm1 (entered ti t g) Hl Hm ltac:(lia) ltac:(lia) Ht1) as (fsm' & g' & E & Ht' & Hg').
    exists fsm', g'. split; [rewrite E, Zlen_cons; do 2 f_equal; lia|]. split; [done|].
    intros s c Hs Hc. rewrite (Hg' s c Hs Hc). cbn [last_index first_index].
    destruct (last_index (exact s c) l (ti + 1)) as [j|]; [done|]. unfold entered, filled.
    destruct (exact s c t) eqn:Ex.
    + rewrite decide_False; [done|]. unfold TINVALID. lia.
    + destruct (any s t) eqn:Ea; [|done]. destruct (decide (g s c = TINVALID)) as [Eg|Eg].
      * rewrite decide_False; [done|]. unfold TINVALID. lia.
      * by rewrite decide_False.
Qed.

Lemma first_index_ge P l i j : first_index P l i = Some j -> i <= j < i + Zlen l.
Proof.
  revert i. induction l as [|t l IH]; intros i; simpl; [done|]. rewrite Zlen_cons. pose proof (Zlen_nonneg l).
  destruct (P t); [intros [= ->]; lia|]. intros H'%IH. lia.
Qed.

Lemma last_index_ge P l i j : last_index P l i = Some j -> i <= j < i + Zlen l.
Proof.
  revert i. induction l as [|t l IH]; intros i; simpl; [done|]. rewrite Zlen_cons. pose proof (Zlen_nonneg l).
  destruct (last_index P l (i + 1)) eqn:E; [intros [= ->]; specialize (IH _ E); lia|].
  destruct (P t); [intros [= ->]; lia|done].
Qed.

(** The transition an index stands for. *)
Lemma rd_tail {A} (t : A) l i j t' : i + 1 <= j -> rd l (j - (i + 1)) = Ok t' -> rd (t :: l) (j - i) = Ok t'.
Proof.
  intros Hj Et. apply rd_Ok_iff in Et as [_ Et]. apply rd_Ok_iff. split; [lia|].
  by replace (Z.to_nat (j - i)) with (S (Z.to_nat (j - (i + 1)))) by lia.
Qed.

Lemma first_index_rd P l : forall i j, first_index P l i = Some j -> exists t, rd l (j - i) = Ok t /\ P t = true.
Proof.
  induction l as [|t l IH]; intros i j; simpl; [done|]. destruct (P t) eqn:Ep.
  - intros [= ->]. exists t. by rewrite Z.sub_diag.
  - intros H. pose proof (first_index_ge _ _ _ _ H). destruct (IH _ _ H) as (t' & Et & Hp). exists t'.
    split; [apply rd_tail; [lia|done]|done].
Qed.

Lemma last_index_rd P l : forall i j, last_index P l i = Some j -> exists t, rd l (j - i) = Ok t /\ P t = true.
Proof.
  induction l as [|t l IH]; intros i j; simpl; [done|]. destruct (last_index P l (i + 1)) as [k|] eqn:Ek.
  - intros [= ->]. pose proof (last_index_ge _ _ _ _ Ek). destruct (IH _ _ Ek) as (t' & Et & Hp). exists t'.
    split; [apply rd_tail; [lia|done]|done].
  - destruct (P t) eqn:Ep; [|done]. intros [= ->]. exists t. by rewrite Z.sub_diag.
Qed.

(** The transitions that apply in a state are its own. *)
Lemma transition_state l s c t : rd l (transition l s c) = Ok t -> ft_state t = s.
Proof.
  unfold transition. destruct (last_index (exact s c) l 0) as [j|] eqn:Ej.
  - destruct (last_index_rd _ _ _ _ Ej) as (t' & Et & Hp). rewrite Z.sub_0_r in Et. rewrite Et. intros [= <-].
    unfold exact in Hp. by apply andb_prop in Hp as [->%bool_decide_eq_true _].
  - destruct (first_index (any s) l 0) as [j|] eqn:Ef; simpl.
    + destruct (first_index_rd _ _ _ _ Ef) as (t' & Et & Hp). rewrite Z.sub_0_r in Et. rewrite Et. intros [= <-].
      unfold any in Hp. by apply andb_prop in Hp as [->%bool_decide_eq_true _].
    + intros Et. apply rd_Ok_iff in Et as [_ Et]. apply lookup_lt_Some in Et. unfold Zlen in Et. lia.
Qed.

Lemma fsminit_table fsm l mark n :
  dims fsm n -> 0 <= n -> Forall (trans_ok n) l -> ft_state mark = FSINVALID -> Zlen l < TINVALID ->
  exists fsm', fsminit fsm (l ++ [mark]) n = Ok fsm' /\ dims fsm' n /\
    forall s c, 0 <= s < n -> 0 <= c < NCHRS -> rd2 fsm' s c = Ok (transition l s c).
Proof.
  intros Hd Hn Hl Hm Hlen. unfold TINVALID in Hlen. pose proof (Zlen_nonneg l). unfold fsminit.
  destruct (clear_loop_ok fsm n Hd Hn) as (f1 & -> & H1). cbn [mbind outcome_bind].
  destruct (enter_all_ok l mark n 0 f1 _ Hl Hm ltac:(lia) ltac:(lia) H1) as (f2 & g2 & -> & H2 & Hg2).
  cbn [mbind outcome_bind]. rewrite Z.add_0_l.
  destruct (fill_all_ok f2 n g2 (Zlen l) H2 Hn ltac:(lia)) as (f3 & -> & [Hd3 [_ Hg3]]).
  exists f3. split; [done|]. split; [done|]. intros s c Hs Hc. rewrite Hg3 by done. f_equal.
  rewrite Hg2 by done. rewrite decide_True by done. unfold transition, filled.
  destruct (last_index (exact s c) l 0) as [i|] eqn:Ei.
  - apply last_index_ge in Ei. rewrite decide_False; [done|]. unfold TINVALID. lia.
  - destruct (first_index (any s) l 0) as [i|] eqn:Ef; simpl; [|done].
    apply first_index_ge in Ef. rewrite decide_False; [done|]. unfold TINVALID. lia.
Qed.

(** ** The three tables of the client *)

Definition marker : fsm_trans := Trans FSINVALID TCANY FSINVALID a_tnabort.
Definition tt_trans : list fsm_trans := take 22 ttstab.
Definition so_trans : list fsm_trans := take 11 sostab.
Definition sub_trans : list fsm_trans := take 5 substab.

(** Every state has a transition for every byte, and it leads to a state again. *)
Definition complete_b (l : list fsm_trans) (n : Z) : bool :=
  forallb (fun s => forallb (fun c =>
    match rd l (transition l s c) with
    | Ok t => bool_decide (0 <= ft_next t < n /\ ft_action t <> a_tnabort)
    | Fault _ => false
    end) (seqZ 0 256)) (seqZ 0 n).

Lemma complete_b_ok l n : complete_b l n = true ->
  forall s c, 0 <= s < n -> 0 <= c < 256 ->
  exists t, rd l (transition l s c) = Ok t /\ 0 <= ft_next t < n /\ ft_action t <> a_tnabort.
Proof.
  unfold complete_b. intros H s c Hs Hc. rewrite forallb_forall in H.
  specialize (H s). rewrite <- list_elem_of_In in H. specialize (H ltac:(apply elem_of_seqZ; lia)).
  rewrite forallb_forall in H. specialize (H c). rewrite <- list_elem_of_In in H.
  specialize (H ltac:(apply elem_of_seqZ; lia)).
  destruct (rd l (transition l s c)) as [t|]; [|done]. apply bool_decide_eq_true in H. by exists t.
Qed.

Lemma tt_complete : complete_b tt_trans NTSTATES = true. Proof. by vm_compute. Qed.
Lemma so_complete : complete_b so_trans NKSTATES = true. Proof. by vm_compute. Qed.
Lemma sub_complete : complete_b sub_trans NSSTATES = true. Proof. by vm_compute. Qed.

(** The array of a table holds its transitions. *)
Definition array_of (fsm : table) (l : list fsm_trans) (n : Z) : Prop :=
  forall s c, 0 <= s < n -> 0 <= c < NCHRS -> rd2 fsm s c = Ok (transition l s c).

(** Looking a byte up in a built array. *)
Lemma lookup_byte fsm l n s c rest :
  array_of fsm l n -> complete_b l n = true -> 0 <= s < n -> is_u8 c ->
  exists ti t, rd2 fsm s c = Ok ti /\ ti = transition l s c /\ rd (l ++ rest) ti = Ok t /\ rd l ti = Ok t /\
               0 <= ft_next t < n /\ ft_action t <> a_tnabort.
Proof.
  intros Ha Hc Hs Hu. destruct (complete_b_ok l n Hc s c Hs Hu) as (t & Et & Hn & Hab).
  exists (transition l s c), t. split; [by apply Ha|]. split; [done|]. split; [|done].
  apply rd_Ok_iff in Et as [H0 El]. apply rd_Ok_iff. split; [done|].
  by apply lookup_app_l_Some.
Qed.

(** The machines in use. *)
Definition built (f : fsms) : Prop :=
  array_of (ttfsm f) tt_trans NTSTATES /\ array_of (sofsm f) so_trans NKSTATES /\
  array_of (subfsm f) sub_trans NSSTATES.

(** Room for the machines. *)
Definition roomy (f : fsms) : Prop :=
  dims (ttfsm f) NTSTATES /\ dims (sofsm f) NKSTATES /\ dims (subfsm f) NSSTATES.

Lemma client_tables :
  ttstab = tt_trans ++ [marker] /\ sostab = so_trans ++ [marker] /\ substab = sub_trans ++ [marker] /\
  Forall (trans_ok NTSTATES) tt_trans /\ Forall (trans_ok NKSTATES) so_trans /\ Forall (trans_ok NSSTATES) sub_trans.
Proof. split; [done|]. split; [done|]. split; [done|]. split; [|split]; by_compute. Qed.

Lemma fsmbuild_ok s :
  roomy (m_fsms s) ->
  exists f, fsmbuild s = Ok (set_fsms s f, inl tt) /\ built f /\
            ttstate f = TSDATA /\ sostate f = KSREMOTE /\ substate f = SS_START.
Proof.
  intros (H1 & H2 & H3). destruct client_tables as (E1 & E2 & E3 & F1 & F2 & F3).
  destruct (fsminit_table _ tt_trans marker _ H1) as (a & Ea & _ & Ha); try done.
  destruct (fsminit_table _ so_trans marker _ H2) as (b & Eb & _ & Hb); try done.
  destruct (fsminit_table _ sub_trans marker _ H3) as (c & Ec & _ & Hc); try done.
  rewrite <- E1 in Ea. rewrite <- E2 in Eb. rewrite <- E3 in Ec.
  unfold fsmbuild, mbind, act_bind, get, lift, modify. cbn iota beta. rewrite Ea. cbn iota beta. rewrite Eb.
  cbn iota beta. rewrite Ec. by eexists.
Qed.

(** ** Properties *)

(** [fsminit] builds the right array from any table of transitions: whatever the
    array held before, afterwards it holds for every state and character the index
    of the transition that applies, the one for the character itself before the one
    for any character wherever they stand in the table, and the entry behind the
    table where there is none.  It never leaves the array. *)
Lemma fsminit_builds fsm l mark n :
  dims fsm n -> 0 <= n -> Forall (trans_ok n) l -> ft_state mark = FSINVALID -> Zlen l < TINVALID ->
  exists fsm', fsminit fsm (l ++ [mark]) n = Ok fsm' /\ dims fsm' n /\
    forall s c, 0 <= s < n -> 0 <= c < NCHRS -> rd2 fsm' s c = Ok (transition l s c).
Proof. apply fsminit_table. Qed.

(** The table of the socket's bytes, into an array of junk. *)
Lemma fsminit_builds_witness :
  exists fsm', fsminit (replicate 6 (replicate 256 77)) ttstab NTSTATES = Ok fsm' /\ dims fsm' NTSTATES /\
    forall s c, 0 <= s < NTSTATES -> 0 <= c < NCHRS -> rd2 fsm' s c = Ok (transition tt_trans s c).
Proof.
  apply (fsminit_builds (replicate 6 (replicate 256 77)) tt_trans marker NTSTATES);
    [by_compute | done | by_compute | done | done].
Defined.
