(* ===== verification/TelnetSafe.v ===== *)
(** * The telnet client: safety

    Whatever the server sends and whatever is typed, in whatever order, the client
    stays inside its arrays, its machines stay in their states and never reach
    [tnabort], but for three things that can go wrong: a terminal whose capabilities
    fill the buffer of [tcout], a request for the terminal type before the client has
    one, and a stream that could not be opened. *)

From stdpp Require Import base numbers list list_numbers strings.
From S2P Require Import Prelude Telnet TelnetFsm.

#[local] Open Scope Z_scope.

(** ** What an action may do *)

(** [m] run from [s] returns with [Q], or ends the program in an orderly way, or, if
    [N], dereferences a null pointer. *)
Definition wp {A} (N : Prop) (m : act A) (Q : A -> tn -> Prop) (s : tn) : Prop :=
  match m s with
  | Ok (s', inl a) => Q a s'
  | Ok (_, inr e) => e <> Aborted
  | Fault f => f = NullDeref /\ N
  end.

Section Rules.
Context (N : Prop).

Lemma wp_mono {A} (m : act A) (Q Q' : A -> tn -> Prop) s :
  wp N m Q s -> (forall a s', Q a s' -> Q' a s') -> wp N m Q' s.
Proof. unfold wp. destruct (m s) as [[s' [a|e]]|]; auto. Qed.

Lemma wp_ret {A} (a : A) (Q : A -> tn -> Prop) s : Q a s -> wp N (mret a) Q s.
Proof. done. Qed.

Lemma wp_bind {A B} (m : act A) (k : A -> act B) (Q : B -> tn -> Prop) s :
  wp N m (fun a s' => wp N (k a) Q s') s -> wp N (m ≫= k) Q s.
Proof. unfold wp, mbind, act_bind. by destruct (m s) as [[s' [a|e]]|]. Qed.

Lemma wp_get (Q : tn -> tn -> Prop) s : Q s s -> wp N get Q s.
Proof. done. Qed.

Lemma wp_modify f (Q : unit -> tn -> Prop) s : Q tt (f s) -> wp N (modify f) Q s.
Proof. done. Qed.

Lemma wp_lift {A} (m : outcome A) a (Q : A -> tn -> Prop) s : m = Ok a -> Q a s -> wp N (lift m) Q s.
Proof. unfold wp, lift. by intros ->. Qed.

Lemma wp_exit {A} e (Q : A -> tn -> Prop) s : e <> Aborted -> wp N (exit_ e) Q s.
Proof. done. Qed.

Lemma wp_call E (Q : bool -> tn -> Prop) s :
  Q (sys E (ncalls s)) (set_ncalls s (S (ncalls s))) -> wp N (call E) Q s.
Proof. done. Qed.
End Rules.

(** One step of the code; the cases of its guards. *)
Ltac wp_step :=
  match goal with
  | |- wp _ (_ ≫= _) _ _ => apply wp_bind
  | |- wp _ (mret _) _ _ => apply wp_ret
  | |- wp _ get _ _ => apply wp_get
  | |- wp _ (modify _) _ _ => apply wp_modify
  | |- wp _ (putc_sock _) _ _ => apply wp_modify
  | |- wp _ (puts_sock _) _ _ => apply wp_modify
  | |- wp _ (puts_tty _) _ _ => apply wp_modify
  | |- wp _ (puts_stdout _) _ _ => apply wp_modify
  | |- wp _ (exit_ _) _ _ => by apply wp_exit
  | |- wp _ (call _) _ _ => apply wp_call
  | |- wp _ (reply _ _) _ _ => unfold reply
  | |- wp _ (xputc _) _ _ => unfold xputc, script_puts
  | |- wp _ (xfputs _) _ _ => unfold xfputs, script_puts
  | |- wp _ (get_tty0 _) _ _ => unfold get_tty0
  | |- wp _ (put_tty0 _ _) _ _ => unfold put_tty0
  | |- wp _ (if ?b then _ else _) _ _ => destruct b eqn:?
  | |- wp _ (match ?x with Some _ => _ | None => _ end) _ _ => destruct x eqn:?
  | |- wp _ (let '(_, _) := ?x in _) _ _ => destruct x eqn:?
  end; cbv beta.

(** ** The invariant *)

Definition fsm_inv (f : fsms) : Prop :=
  built f /\ 0 <= ttstate f < NTSTATES /\ 0 <= sostate f < NKSTATES /\ 0 <= substate f < NSSTATES.

Definition script_inv (sc : scripts) : Prop :=
  Zlen (scrname sc) = SFBUFSZ /\ 0 <= scrindex sc <= SFBUFSZ.

(** In a subnegotiation. *)
Definition negotiating (st : Z) : Prop := st = TSSUBNEG \/ st = TSSUBIAC.

#[global] Instance negotiating_dec st : Decision (negotiating st).
Proof. unfold negotiating. apply _. Defined.

(** At most [b] bytes of capabilities are used; [N] in a subnegotiation. *)
Definition inv (N : Prop) (b : Z) (s : tn) : Prop :=
  fsm_inv (m_fsms s) /\ script_inv (m_script s) /\ bp s <= b /\ (negotiating (ttstate (m_fsms s)) -> N).

(** While a file name is collected there is room for another character. *)
Definition collecting (s : tn) : Prop := sostate (m_fsms s) = KSCOLLECT -> scrindex (m_script s) < SFBUFSZ.

(** The machines for the socket and the keys are where they were. *)
Definition same_states (s s' : tn) : Prop :=
  ttstate (m_fsms s') = ttstate (m_fsms s) /\ sostate (m_fsms s') = sostate (m_fsms s) /\
  scrindex (m_script s') = scrindex (m_script s).

Lemma inv_weaken N b b' s : inv N b s -> b <= b' -> inv N b' s.
Proof. intros (H1 & H2 & H3 & H4) Hb. split; [done|]. split; [done|]. split; [lia|done]. Qed.

(** Writing to the script file changes its contents only. *)
Lemma script_puts_inv N b cs s :
  inv N b s -> forall s', script_puts cs s = Ok (s', inl tt) -> inv N b s' /\ same_states s s'.
Proof.
  intros (H1 & H2 & H3 & H4) s'. unfold script_puts, modify. intros [= <-].
  destruct (scrfp (m_script s)); done.
Qed.

Lemma wp_script_puts N N' b cs s s0 :
  inv N b s -> same_states s0 s -> wp N' (script_puts cs) (fun _ s' => inv N b s' /\ same_states s0 s') s.
Proof.
  intros Hi (H1 & H2 & H3). unfold wp. destruct (script_puts cs s) as [[s' [[]|e]]|] eqn:E; try done.
  destruct (script_puts_inv N b cs s Hi s' E) as [Hi' (G1 & G2 & G3)].
  split; [done|]. unfold same_states. by rewrite G1, G2, G3.
Qed.

(** Output to the terminal, scripted or not. *)
Lemma wp_xfputs N N' b cs s s0 :
  inv N b s -> same_states s0 s -> wp N' (xfputs cs) (fun _ s' => inv N b s' /\ same_states s0 s') s.
Proof.
  intros Hi Hs. unfold xfputs. apply wp_bind. eapply wp_mono; [by apply wp_script_puts|].
  intros [] s1 [Hi1 Hs1]. by apply wp_modify.
Qed.

Lemma wp_xputc N N' b c s s0 :
  inv N b s -> same_states s0 s -> wp N' (xputc c) (fun _ s' => inv N b s' /\ same_states s0 s') s.
Proof. apply (wp_xfputs N N' b [u8 c]). Qed.

Section Actions.
Context (E : env) (M : Z).

(** The capabilities of the terminal, with their NULs, have at most [M] bytes. *)
Hypothesis caps_short : forall c sv, termcap E c = Some sv -> Zlen sv + 1 <= M.
Hypothesis M_nonneg : 0 <= M.

Context (N : Prop).

Lemma wp_tcout b cap s s0 :
  inv N b s -> same_states s0 s -> b + M <= TBUFSIZE ->
  wp N (tcout E cap) (fun _ s' => inv N (b + M) s' /\ same_states s0 s') s.
Proof.
  intros Hi Hs Hb. unfold tcout. apply wp_bind, wp_get. destruct (termcap E cap) as [sv|] eqn:Ec.
  - apply caps_short in Ec. destruct Hi as (H1 & H2 & H3 & H4). rewrite bool_decide_true by lia.
    apply wp_bind, wp_modify, wp_bind.
    eapply wp_mono; [apply (wp_xfputs N N (b + M)); [|exact Hs]|].
    + split; [done|]. split; [done|]. split; [simpl; lia|done].
    + intros ? s1 H. by apply wp_ret.
  - apply wp_ret. split; [|done]. eapply inv_weaken; [done|lia].
Qed.

Lemma wp_ttputc b c s :
  inv N b s -> b + 2 * M <= TBUFSIZE ->
  wp N (ttputc E c) (fun rc s' => inv N (b + 2 * M) s' /\ same_states s s') s.
Proof.
  intros Hi Hb. assert (Hs : same_states s s) by done.
  assert (Hw : forall b' s', inv N b' s' -> b' <= b + 2 * M -> inv N (b + 2 * M) s') by (intros; by eapply inv_weaken).
  unfold ttputc. apply wp_bind, wp_get. destruct (rcvbinary (m_opts s)).
  { apply wp_bind. eapply wp_mono; [by apply (wp_xputc N N b)|]. intros ? s1 [Hi1 Hs1]. apply wp_ret. eauto with lia. }
  destruct (bool_decide (synching s <> 0)). { apply wp_ret. eauto with lia. }
  destruct (_ || _).
  { apply wp_bind. eapply wp_mono; [by apply (wp_xputc N N b)|]. intros ? s1 [Hi1 Hs1]. apply wp_bind, wp_modify, wp_ret.
    split; [eapply Hw; [exact Hi1|lia]|exact Hs1]. }
  apply wp_bind. eapply (wp_mono _ _ (fun _ s' => inv N (b + M) s' /\ same_states s s')).
  { destruct (decide _); [by apply wp_tcout; [..|lia]|]. destruct (decide _); [by apply wp_tcout; [..|lia]|].
    apply wp_ret. split; [eapply inv_weaken; [done|lia]|done]. }
  intros ? s1 [Hi1 Hs1]. apply wp_bind.
  eapply (wp_mono _ _ (fun _ s' => inv N (b + M + M) s' /\ same_states s s')).
  { destruct (_ && _).
    - eapply wp_mono; [by apply (wp_xputc N N (b + M))|]. intros ? s2 [Hi2 Hs2]. split; [eapply inv_weaken; [done|lia]|done].
    - apply wp_bind. eapply (wp_mono _ _ (fun _ s' => inv N (b + M + M) s' /\ same_states s s')).
      + assert (Hret : wp N (mret true) (fun (_ : bool) s' => inv N (b + M + M) s' /\ same_states s s') s1).
        { apply wp_ret. split; [eapply inv_weaken; [done|lia]|done]. }
        repeat (destruct (decide _); [first [exact Hret | by apply wp_tcout; [..|lia]]|]). exact Hret.
      + intros [] s2 [Hi2 Hs2]; [by apply wp_ret|]. by apply wp_xputc. }
  intros ? s2 [Hi2 Hs2]. apply wp_bind, wp_modify, wp_ret. split; [|exact Hs2].
  eapply (inv_weaken N (b + M + M)); [exact Hi2|lia].
Qed.

(** An action that leaves the machines and the script file's name alone. *)
Definition quiet (m : Z -> act Z) : Prop := forall b c s,
  inv N b s -> wp N (m c) (fun rc s' => inv N b s' /\ same_states s s') s.

Ltac quiet_proof f :=
  intros b c s Hi; unfold f; repeat wp_step; split; first [exact Hi | done].

Lemma quiet_no_op : quiet no_op. Proof. quiet_proof no_op. Qed.
Lemma quiet_tcdm : quiet tcdm. Proof. quiet_proof tcdm. Qed.
Lemma quiet_recopt : quiet recopt. Proof. quiet_proof recopt. Qed.
Lemma quiet_do_echo : quiet (do_echo E). Proof. quiet_proof do_echo. Qed.
Lemma quiet_do_noga : quiet do_noga. Proof. quiet_proof do_noga. Qed.
Lemma quiet_do_notsup : quiet do_notsup. Proof. quiet_proof do_notsup. Qed.
Lemma quiet_do_txbinary : quiet do_txbinary. Proof. quiet_proof do_txbinary. Qed.
Lemma quiet_will_notsup : quiet will_notsup. Proof. quiet_proof will_notsup. Qed.
Lemma quiet_will_txbinary : quiet will_txbinary. Proof. quiet_proof will_txbinary. Qed.
Lemma quiet_soputc : quiet soputc. Proof. quiet_proof soputc. Qed.
Lemma quiet_sonotsup : quiet sonotsup. Proof. quiet_proof sonotsup. Qed.
Lemma quiet_dcon : quiet (dcon E). Proof. quiet_proof dcon. Qed.
Lemma quiet_unscript : quiet (unscript E). Proof. quiet_proof unscript. Qed.
Lemma quiet_suspend : quiet (suspend E). Proof. quiet_proof suspend. Qed.

(** The branches of [status] come together again after each line. *)
Definition harmless {A} (m : act A) : Prop := forall b s0 s,
  inv N b s -> same_states s0 s -> wp N m (fun _ s' => inv N b s' /\ same_states s0 s') s.

Lemma harmless_bind {A B} (m : act A) (k : A -> act B) : harmless m -> (forall a, harmless (k a)) -> harmless (m ≫= k).
Proof.
  intros Hm Hk b s0 s Hi Hs. apply wp_bind. eapply wp_mono; [by apply Hm|]. intros a s' [Hi' Hs']. by apply Hk.
Qed.
Lemma harmless_ret {A} (a : A) : harmless (mret a). Proof. done. Qed.
Lemma harmless_get : harmless get. Proof. done. Qed.
Lemma harmless_tty cs : harmless (puts_tty cs). Proof. done. Qed.
Lemma harmless_stdout cs : harmless (puts_stdout cs). Proof. done. Qed.
Lemma harmless_call : harmless (call E). Proof. done. Qed.

Lemma quiet_status : quiet (status E).
Proof.
  intros b c s Hi. enough (H : harmless (status E c)) by by apply H. unfold status.
  repeat first [ apply harmless_tty | apply harmless_stdout | apply harmless_call | apply harmless_get | apply harmless_ret
               | apply harmless_bind; [|intros ?]
               | match goal with
                 | |- harmless (if ?b then _ else _) => destruct b
                 | |- harmless (match ?x with Some _ => _ | None => _ end) => destruct x
                 end ].
Qed.

Lemma quiet_will_termtype : quiet (will_termtype E).
Proof.
  intros b c s Hi. unfold will_termtype. apply wp_bind, wp_get. cbv zeta.
  destruct (_ && _); [by apply wp_ret|]. destruct (_ && _); [by apply wp_ret|].
  apply wp_bind, wp_modify, wp_bind, wp_get, wp_bind.
  eapply (wp_mono _ _ (fun _ s' => inv N b s' /\ same_states s s')).
  { destruct (_ && _); [|by apply wp_ret]. by destruct (getenv_TERM E); apply wp_modify. }
  intros ? s1 [Hi1 Hs1]. apply wp_bind, wp_get, wp_bind. unfold reply. do 3 (try apply wp_bind; apply wp_modify).
  destruct (termtype _); [|by apply wp_ret]. apply wp_bind, wp_modify, wp_bind.
  eapply wp_mono; [by apply quiet_do_txbinary|]. intros ? s2 [Hi2 Hs2]. apply wp_bind, wp_modify, wp_bind.
  eapply wp_mono; [by apply quiet_will_txbinary|]. intros ? s3 [Hi3 Hs3]. apply wp_ret. split; [done|].
  destruct Hs1 as (A1 & A2 & A3), Hs2 as (B1 & B2 & B3), Hs3 as (C1 & C2 & C3). simpl in *.
  split; [congruence|]. split; congruence.
Qed.

Lemma quiet_subtermtype : N -> quiet subtermtype.
Proof.
  intros HN b c s Hi. unfold subtermtype. apply wp_bind, wp_get. do 4 apply wp_bind, wp_modify. apply wp_bind.
  destruct (term (m_opts s)) eqn:Et.
  - apply wp_modify. do 2 apply wp_bind, wp_modify. by apply wp_ret.
  - done.
Qed.

Lemma quiet_subend : quiet subend.
Proof. intros b c s (([Hb1 Hb2] & H1 & H2 & H3) & H). unfold subend. by apply wp_bind, wp_modify, wp_ret. Qed.

(** The actions of [substab]. *)
Lemma sub_actions t : t ∈ sub_trans -> ft_action t = a_no_op \/ ft_action t = a_subtermtype.
Proof. unfold sub_trans. simpl. rewrite !elem_of_cons, elem_of_nil. intros H.
  repeat destruct H as [->|H]; try done; simpl; auto.
Qed.

Lemma quiet_subopt b c s :
  is_u8 c -> inv N b s -> negotiating (ttstate (m_fsms s)) -> wp N (subopt E c) (fun rc s' => inv N b s' /\ same_states s s') s.
Proof.
  intros Hc Hi Hng. pose proof Hi as (((_ & _ & Hb) & _ & _ & Hsub) & _ & _ & HN). unfold subopt. apply wp_bind, wp_get.
  destruct (lookup_byte _ sub_trans _ _ c [marker] Hb sub_complete Hsub Hc) as (ti & t & E1 & _ & E2 & E3 & Hn & _).
  apply wp_bind. eapply wp_lift; [exact E1|]. apply wp_bind. eapply wp_lift; [exact E2|]. apply wp_bind.
  eapply (wp_mono _ _ (fun _ s' => inv N b s' /\ same_states s s')).
  { apply rd_Ok_iff in E3 as [_ E3]. apply list_elem_of_lookup_2 in E3.
    destruct (sub_actions t E3) as [-> | ->]; [by apply quiet_no_op | by apply quiet_subtermtype; [apply HN|]]. }
  intros ? s1 [((Hb1 & H1 & H2 & _) & H3) Hs1]. by apply wp_bind, wp_modify, wp_ret.
Qed.

(** ** Bytes from the socket *)

(** The actions of [ttstab] besides [ttputc] and [subopt]. *)
Definition socket_action (a : action) : bool :=
  match a with
  | a_no_op | a_tcdm | a_recopt | a_subend | a_do_echo | a_do_noga | a_do_txbinary | a_do_notsup
  | a_will_termtype | a_will_txbinary | a_will_notsup => true
  | _ => false
  end.

Lemma quiet_socket_action a : socket_action a = true -> quiet (run_action E a).
Proof.
  pose proof quiet_no_op. pose proof quiet_tcdm. pose proof quiet_recopt. pose proof quiet_subend.
  pose proof quiet_do_echo. pose proof quiet_do_noga. pose proof quiet_do_txbinary. pose proof quiet_do_notsup.
  pose proof quiet_will_termtype. pose proof quiet_will_txbinary. pose proof quiet_will_notsup.
  by destruct a.
Qed.

Lemma tt_actions t : t ∈ tt_trans ->
  ft_action t = a_ttputc \/ ft_action t = a_subopt \/ socket_action (ft_action t) = true.
Proof.
  unfold tt_trans. simpl. rewrite !elem_of_cons, elem_of_nil. intros H.
  repeat destruct H as [->|H]; try done; simpl; auto.
Qed.

(** [subopt] is called in a subnegotiation, and only SB begins one. *)
Definition into_negotiation_b : bool :=
  forallb (fun st => forallb (fun c =>
    match rd tt_trans (transition tt_trans st c) with
    | Ok t => bool_decide ((ft_action t = a_subopt -> negotiating st) /\
                           (negotiating (ft_next t) -> negotiating st \/ c = TCSB))
    | Fault _ => false
    end) (seqZ 0 256)) (seqZ 0 NTSTATES).

Lemma into_negotiation st c t :
  0 <= st < NTSTATES -> is_u8 c -> rd tt_trans (transition tt_trans st c) = Ok t ->
  (ft_action t = a_subopt -> negotiating st) /\ (negotiating (ft_next t) -> negotiating st \/ c = TCSB).
Proof.
  intros Hs Hc Et. assert (H : into_negotiation_b = true) by by vm_compute. unfold into_negotiation_b in H.
  rewrite forallb_forall in H. specialize (H st). rewrite <- list_elem_of_In in H.
  specialize (H ltac:(apply elem_of_seqZ; lia)). rewrite forallb_forall in H. specialize (H c).
  rewrite <- list_elem_of_In in H. specialize (H ltac:(apply elem_of_seqZ; unfold is_u8 in Hc; lia)).
  rewrite Et in H. by apply bool_decide_eq_true in H.
Qed.

(** A byte leaves the machine for the keys where it was. *)
Lemma wp_tt_byte b c s :
  is_u8 c -> (c = TCSB -> N) -> inv N b s -> collecting s -> b + 2 * M <= TBUFSIZE ->
  wp N (tt_byte E c) (fun _ s' => inv N (b + 2 * M) s' /\ collecting s') s.
Proof.
  intros Hc HSB Hi Hcol Hb. pose proof Hi as (((Hbt & _ & _) & Htt & _) & _ & _ & HN).
  unfold tt_byte. apply wp_bind, wp_get.
  destruct (lookup_byte _ tt_trans _ _ c [marker] Hbt tt_complete Htt Hc) as (ti & t & E1 & Eti & E2 & E3 & Hn & _).
  destruct (into_negotiation (ttstate (m_fsms s)) c t Htt Hc) as [Hsub Hnext]; [by rewrite <- Eti|].
  apply wp_bind. eapply wp_lift; [exact E1|]. apply wp_bind. eapply wp_lift; [exact E2|]. apply wp_bind.
  eapply (wp_mono _ _ (fun _ s' => inv N (b + 2 * M) s' /\ same_states s s')).
  { apply rd_Ok_iff in E3 as [_ E3]. apply list_elem_of_lookup_2 in E3.
    assert (Hi' : inv N (b + 2 * M) s) by (eapply inv_weaken; [done|lia]).
    destruct (tt_actions t E3) as [-> | [Ea | Ha]].
    - by apply wp_ttputc.
    - rewrite Ea. apply quiet_subopt; auto.
    - by apply quiet_socket_action. }
  intros ? s1 [((Hb1 & _ & H2 & H3) & H4 & H5 & _) (_ & Hso & Hix)]. apply wp_modify. split.
  { split; [done|]. split; [done|]. split; [done|]. simpl. intros [?|?]%Hnext; auto. }
  unfold collecting in *. simpl. rewrite Hso, Hix. done.
Qed.

(** Streams that may be null. *)
Lemma wp_on_streams {A} sfp tfp a (m : act A) (Q : A -> tn -> Prop) s :
  (sfp = false -> N) -> (tfp = false -> N) -> wp N m Q s -> wp N (on_streams sfp tfp a m) Q s.
Proof.
  intros Hs Ht. unfold wp, on_streams. destruct (m s) as [[s' r]|f]; [|done].
  destruct (null_used sfp tfp a s s') eqn:Eu; [|done]. intros _. split; [done|].
  unfold null_used in Eu. destruct sfp; [|auto]. destruct tfp; [done|auto].
Qed.

(** The action of a byte is found. *)
Lemma wp_action_at fsm l ttab n st c (Q : action -> tn -> Prop) s :
  array_of fsm l n -> complete_b l n = true -> 0 <= st < n -> is_u8 c -> ttab = l ++ [marker] ->
  (forall a, Q a s) -> wp N (lift (action_at fsm ttab st c)) Q s.
Proof.
  intros Ha Hl Hst Hc -> HQ. destruct (lookup_byte fsm l n st c [marker] Ha Hl Hst Hc) as (ti & t & E1 & _ & E2 & _).
  eapply wp_lift; [|apply HQ]. unfold action_at. rewrite E1. cbn [mbind outcome_bind]. by rewrite E2.
Qed.

Lemma wp_ttwrite_on sfp tfp buf : (sfp = false -> N) -> (tfp = false -> N) -> (TCSB ∈ buf -> N) -> forall b s,
  Forall is_u8 buf -> inv N b s -> collecting s -> b + 2 * M * Zlen buf <= TBUFSIZE ->
  wp N (ttwrite_on E sfp tfp buf) (fun _ s' => inv N (b + 2 * M * Zlen buf) s' /\ collecting s') s.
Proof.
  intros Hsf Htf. induction buf as [|c buf IH]; intros HSB b s Hu Hi Hc Hb.
  - apply wp_ret. split; [eapply inv_weaken; [done|]|done]. change (Zlen []) with 0. lia.
  - apply Forall_cons in Hu as [Hcu Hu]. rewrite Zlen_cons in *. pose proof (Zlen_nonneg buf).
    rewrite elem_of_cons in HSB. pose proof Hi as (((Hbt & _ & _) & Htt & _) & _).
    simpl. apply wp_bind, wp_get, wp_bind. eapply wp_action_at; [exact Hbt|apply tt_complete|done..|]. intros a.
    apply wp_bind, wp_on_streams; [done..|].
    eapply wp_mono; [apply (wp_tt_byte b); auto; nia|]. intros ? s1 [Hi1 Hc1].
    replace (b + 2 * M * (Zlen buf + 1)) with ((b + 2 * M) + 2 * M * Zlen buf) in * by lia. apply IH; auto.
Qed.

(** ** Keys *)

(** The actions on the name of the script file keep the invariant; those that collect
    it leave room for another character when they succeed. *)
Lemma key_scrinit b c s :
  inv N b s -> wp N (scrinit E c) (fun rc s' => inv N b s' /\ (0 <= rc -> scrindex (m_script s') < SFBUFSZ)) s.
Proof.
  intros (H1 & [H2 H3] & H4). unfold scrinit. repeat wp_step; (split; [|simpl; unfold SFBUFSZ; lia]); done.
Qed.

Lemma key_scrgetc b c s :
  inv N b s -> scrindex (m_script s) < SFBUFSZ ->
  wp N (scrgetc E c) (fun rc s' => inv N b s' /\ (0 <= rc -> scrindex (m_script s') < SFBUFSZ)) s.
Proof.
  intros (H1 & [H2 H3] & H4) Hr. unfold scrgetc. apply wp_bind, wp_get, wp_bind.
  eapply wp_lift; [apply wr_in_range; lia|].
  assert (Hi : inv N b (set_script s (Scripts (scrfp (m_script s))
                 (<[Z.to_nat (scrindex (m_script s)):=s8 c]> (scrname (m_script s))) (scrindex (m_script s) + 1)))).
  { split; [done|]. split; [|done]. split; simpl; [by rewrite Zlen_insert | lia]. }
  apply wp_bind, wp_modify. destruct (decide _) as [Hl|Hl].
  - repeat wp_step. split; [exact Hi|lia].
  - apply wp_ret. split; [exact Hi|]. intros _. simpl. lia.
Qed.

Lemma key_scrwrap b c s :
  inv N b s -> scrindex (m_script s) < SFBUFSZ -> wp N (scrwrap E c) (fun rc s' => inv N b s') s.
Proof.
  intros Hi Hr. pose proof Hi as (H1 & [H2 H3] & H4). unfold scrwrap. apply wp_bind, wp_get, wp_bind.
  eapply (wp_mono _ _ (fun _ s' => inv N b s')).
  - destruct (decide _); [|by apply wp_ret]. apply wp_bind. eapply wp_lift; [apply wr_in_range; lia|].
    assert (Hi' : inv N b (set_script s (Scripts (scrfp (m_script s))
                   (<[Z.to_nat (scrindex (m_script s)):=0]> (scrname (m_script s))) 0))).
    { split; [done|]. split; [|done]. split; simpl; [by rewrite Zlen_insert | unfold SFBUFSZ; lia]. }
    apply wp_bind, wp_modify, wp_bind, wp_call. destruct (sys E _).
    + by apply wp_bind, wp_call, wp_modify.
    + apply wp_bind, wp_get. by apply wp_modify.
  - intros ? s1 Hi1. by repeat wp_step.
Qed.

(** The actions of [sostab] that do not concern the file name. *)
Definition key_action (a : action) : bool :=
  match a with a_no_op | a_soputc | a_unscript | a_dcon | a_suspend | a_status | a_sonotsup => true | _ => false end.

Lemma quiet_key_action a : key_action a = true -> quiet (run_action E a).
Proof.
  pose proof quiet_no_op. pose proof quiet_soputc. pose proof quiet_unscript. pose proof quiet_dcon.
  pose proof quiet_suspend. pose proof quiet_status. pose proof quiet_sonotsup. by destruct a.
Qed.

(** What each transition of the keys needs. *)
Lemma so_actions t : t ∈ so_trans ->
  (key_action (ft_action t) = true /\ ft_next t <> KSCOLLECT) \/
  t = Trans KSLOCAL KCSCRIPT KSCOLLECT a_scrinit \/
  t = Trans KSCOLLECT KCNL KSREMOTE a_scrwrap \/
  t = Trans KSCOLLECT KCANY KSCOLLECT a_scrgetc.
Proof.
  unfold so_trans. simpl. rewrite !elem_of_cons, elem_of_nil. intros H.
  repeat destruct H as [->|H]; try done; simpl; auto.
Qed.


Lemma wp_so_byte b c s :
  is_u8 c -> inv N b s -> collecting s -> wp N (so_byte E c) (fun _ s' => inv N b s' /\ collecting s') s.
Proof.
  intros Hc Hi Hcol. pose proof Hi as (((_ & Hbs & _) & _ & Hso & _) & _). unfold so_byte. apply wp_bind, wp_get.
  destruct (lookup_byte _ so_trans _ _ c [marker] Hbs so_complete Hso Hc) as (ti & t & E1 & Eti & E2 & E3 & Hn & _).
  apply wp_bind. eapply wp_lift; [exact E1|]. apply wp_bind. eapply wp_lift; [exact E2|]. apply wp_bind.
  eapply (wp_mono _ _ (fun rc s' => inv N b s' /\ (ft_next t = KSCOLLECT -> 0 <= rc -> scrindex (m_script s') < SFBUFSZ))).
  { pose proof E3 as Est. rewrite Eti in Est. apply transition_state in Est.
    apply rd_Ok_iff in E3 as [_ E3]. apply list_elem_of_lookup_2 in E3.
    destruct (so_actions t E3) as [[Ha Hnc] | [-> | [-> | ->]]].
    - eapply wp_mono; [by apply quiet_key_action|]. intros rc s' [Hi' _]. done.
    - eapply wp_mono; [by apply key_scrinit|]. intros rc s' [Hi' Hr]. done.
    - eapply wp_mono; [apply key_scrwrap; [done|]; by apply Hcol|]. intros rc s' Hi'. done.
    - eapply wp_mono; [apply key_scrgetc; [done|]; by apply Hcol|]. intros rc s' [Hi' Hr]. done. }
  intros rc s1 [((Hb1 & Htt & _ & H3) & H4) Hr]. apply wp_modify. split.
  - split; [|done]. split; [done|]. split; [done|]. split; [|done]. simpl. destruct (decide _); [done|exact Hn].
  - unfold collecting. simpl. destruct (decide _); [done|]. intros Hk. apply Hr; [done|lia].
Qed.

Lemma wp_sowrite_on sfp tfp buf : (sfp = false -> N) -> (tfp = false -> N) -> forall b s,
  Forall is_u8 buf -> inv N b s -> collecting s ->
  wp N (sowrite_on E sfp tfp buf) (fun _ s' => inv N b s' /\ collecting s') s.
Proof.
  intros Hsf Htf. induction buf as [|c buf IH]; intros b s Hu Hi Hc; [by apply wp_ret|].
  apply Forall_cons in Hu as [Hcu Hu]. pose proof Hi as (((_ & Hbs & _) & _ & Hso & _) & _).
  simpl. apply wp_bind, wp_get, wp_bind. eapply wp_action_at; [exact Hbs|apply so_complete|done..|]. intros a.
  apply wp_bind, wp_on_streams; [done..|]. eapply wp_mono; [by apply (wp_so_byte b)|].
  intros ? s1 [Hi1 Hc1]. by apply IH.
Qed.

(** ** The loop *)

Definition bytes_of (r : option read_result) : list Z := match r with Some (Data buf) => buf | _ => [] end.

(** The bytes that the server sends in some turns. *)
Fixpoint received (turns : list turn) : list Z :=
  match turns with
  | [] => []
  | Ready socket _ :: turns => bytes_of socket ++ received turns
  | _ :: turns => received turns
  end.

(** What is read consists of bytes. *)
Definition turn_ok (t : turn) : Prop :=
  match t with
  | Ready socket keyboard => Forall is_u8 (bytes_of socket) /\ Forall is_u8 (bytes_of keyboard)
  | _ => True
  end.

Lemma wp_cerrexit {A} (Q : A -> tn -> Prop) s : wp N (cerrexit E) Q s.
Proof. unfold cerrexit. by repeat wp_step. Qed.

(** A flush after [shutdown] may end the program. *)
Lemma wp_fflush shut sent (Q : unit -> tn -> Prop) s : Q tt s -> wp N (fflush shut sent) Q s.
Proof. intros HQ. unfold fflush. by repeat wp_step. Qed.

Lemma wp_telnet_loop sfp tfp turns : (sfp = false -> N) -> (tfp = false -> N) -> (TCSB ∈ received turns -> N) ->
  forall shut raw b s,
  Forall turn_ok turns -> inv N b s -> collecting s -> b + 2 * M * Zlen (received turns) <= TBUFSIZE ->
  wp N (telnet_loop E sfp tfp turns shut raw)
       (fun _ s' => inv N (b + 2 * M * Zlen (received turns)) s' /\ collecting s') s.
Proof.
  intros Hsf Htf. induction turns as [|t turns IH]; intros HSB shut raw b s Hok Hi Hc Hb.
  { apply wp_ret. split; [eapply inv_weaken; [done|simpl; unfold Zlen; simpl; lia]|done]. }
  apply Forall_cons in Hok as [Ht Hok]. pose proof (Zlen_nonneg (received turns)).
  destruct t as [| |socket keyboard].
  - simpl. apply wp_bind, wp_modify. by apply IH.
  - apply wp_cerrexit.
  - destruct Ht as [Hs Hk]. cbn [telnet_loop received] in *. rewrite Zlen_app, elem_of_app in *.
    apply wp_bind, wp_get, wp_bind.
    set (n := Zlen (bytes_of socket)) in *. assert (Hn : 0 <= n) by (unfold n, Zlen; lia).
    assert (Hr : 0 <= 2 * M * Zlen (received turns)) by nia.
    assert (Hbn : b + 2 * M * n <= TBUFSIZE) by nia.
    eapply (wp_mono _ _ (fun _ s' => inv N (b + 2 * M * n) s' /\ collecting s')).
    { assert (Hw : inv N (b + 2 * M * n) s) by (eapply inv_weaken; [done|nia]).
      destruct socket as [[buf| |]|]; simpl in *.
      - apply wp_bind. eapply wp_mono; [apply (wp_ttwrite_on sfp tfp buf Hsf Htf ltac:(auto) b); auto|].
        intros ? s1 H1. by apply wp_ret.
      - apply wp_bind, wp_get, wp_bind. by repeat wp_step.
      - apply wp_cerrexit.
      - by apply wp_ret. }
    intros [closed raw'] s1 [Hi1 Hc1]. destruct closed.
    { apply wp_ret. split; [eapply inv_weaken; [done|nia]|done]. }
    apply wp_bind. eapply (wp_mono _ _ (fun _ s' => inv N (b + 2 * M * n) s' /\ collecting s')).
    { destruct keyboard as [[buf| |]|]; simpl in *.
      - apply wp_bind. eapply wp_mono; [by apply wp_sowrite_on|]. intros ? s2 H2. by apply wp_ret.
      - by apply wp_bind, wp_call, wp_ret.
      - apply wp_cerrexit.
      - by apply wp_ret. }
    intros ? s2 [Hi2 Hc2]. apply wp_bind, wp_fflush.
    replace (b + 2 * M * (n + Zlen (received turns))) with ((b + 2 * M * n) + 2 * M * Zlen (received turns)) in * by lia.
    apply IH; auto.
Qed.

(** The variant types for itself. *)
Lemma wp_local_loop sfp turns : (sfp = false -> N) -> (TCSB ∈ received turns -> N) -> forall buf b s,
  Forall turn_ok turns -> inv N b s -> collecting s -> b + 2 * M * Zlen (received turns) <= TBUFSIZE ->
  wp N (local_loop E sfp turns buf) (fun _ s' => inv N (b + 2 * M * Zlen (received turns)) s' /\ collecting s') s.
Proof.
  intros Hsf. induction turns as [|t turns IH]; intros HSB buf b s Hok Hi Hc Hb.
  { apply wp_ret. split; [eapply inv_weaken; [done|simpl; unfold Zlen; simpl; lia]|done]. }
  apply Forall_cons in Hok as [Ht Hok]. pose proof (Zlen_nonneg (received turns)).
  destruct t as [| |socket keyboard].
  - simpl. apply wp_bind, wp_modify. by apply IH.
  - apply wp_cerrexit.
  - destruct Ht as [Hs Hk]. cbn [local_loop received] in *. rewrite Zlen_app, elem_of_app in *. apply wp_bind.
    set (n := Zlen (bytes_of socket)) in *. assert (Hn : 0 <= n) by (unfold n, Zlen; lia).
    assert (Hr : 0 <= 2 * M * Zlen (received turns)) by nia.
    assert (Hbn : b + 2 * M * n <= TBUFSIZE) by nia.
    eapply (wp_mono _ _ (fun _ s' => inv N (b + 2 * M * n) s' /\ collecting s')).
    { assert (Hw : inv N (b + 2 * M * n) s) by (eapply inv_weaken; [done|nia]).
      destruct socket as [[bs| |]|]; simpl in *.
      - apply wp_bind. eapply wp_mono; [apply (wp_ttwrite_on sfp true bs Hsf ltac:(done) ltac:(auto) b); auto|].
        intros ? s1 H1. by apply wp_ret.
      - by repeat wp_step.
      - apply wp_cerrexit.
      - by apply wp_ret. }
    intros [password buf'] s1 [Hi1 Hc1]. apply wp_bind.
    eapply (wp_mono _ _ (fun _ s' => inv N (b + 2 * M * n) s' /\ collecting s')).
    { destruct password; [|by apply wp_ret]. cbv zeta.
      do 3 (apply wp_bind; eapply wp_mono; [apply wp_sowrite_on; [done|done|by_compute|done..]|]; intros ? ? []).
      by apply wp_ret. }
    intros ? s2 [Hi2 Hc2].
    replace (b + 2 * M * (n + Zlen (received turns))) with ((b + 2 * M * n) + 2 * M * Zlen (received turns)) in * by lia.
    apply IH; auto.
Qed.

(** The setup makes two calls. *)
Lemma wp_ttysetup s :
  wp N (ttysetup E) (fun _ s' => m_fsms s' = m_fsms s /\ m_script s' = m_script s /\ bp s' = bp s /\
                                 ncalls s' = S (S (ncalls s))) s.
Proof. unfold ttysetup. repeat wp_step; done. Qed.

(** Untouched static variables but for the calls made. *)
Definition fresh (k : nat) (s : tn) : Prop :=
  roomy (m_fsms s) /\ script_inv (m_script s) /\ scrindex (m_script s) = 0 /\ bp s = 0 /\ ncalls s = k.

(** From the start, for any loop that keeps the invariant. *)
Lemma wp_started {A} k (loop : act A) s :
  fresh k s ->
  (forall s, inv N 0 s -> collecting s -> ncalls s = S (S k) ->
             wp N loop (fun _ s' => inv N TBUFSIZE s' /\ collecting s') s) ->
  wp N (_ ← ttysetup E; _ ← fsmbuild; loop) (fun _ s' => inv N TBUFSIZE s' /\ collecting s') s.
Proof.
  intros (Hr & Hsc & Hix & Hbp & Hk) Hloop. apply wp_bind. eapply wp_mono; [apply wp_ttysetup|].
  intros ? s1 (Ef & Es & Ebp & En). apply wp_bind.
  destruct (fsmbuild_ok s1) as (f & Efb & Hf & E1 & E2 & E3); [by rewrite Ef|].
  unfold wp at 1. rewrite Efb. apply Hloop.
  - split; [unfold fsm_inv; simpl; rewrite E1, E2, E3; done|]. split; [by simpl; rewrite Es|].
    split; [simpl; rewrite Ebp, Hbp; done|]. simpl. rewrite E1. by intros [|].
  - unfold collecting. simpl. rewrite Es, Hix. done.
  - simpl. by rewrite En, Hk.
Qed.
End Actions.

Lemma initial_fresh t : fresh 0 (initial t).
Proof. split; [split; [|split]; by_compute|]. by_compute. Qed.

(** How a run may end; a null pointer only with [N]. *)
Definition safe_end {A} (N : Prop) (r : outcome (tn * (A + ending))) : Prop :=
  match r with
  | Ok (s, inl _) => fsm_inv (m_fsms s) /\ script_inv (m_script s) /\ collecting s /\ bp s <= TBUFSIZE
  | Ok (_, inr e) => e <> Aborted
  | Fault f => f = NullDeref /\ N
  end.

Lemma wp_safe_end {A} N (m : act A) s :
  wp N m (fun _ s' => inv N TBUFSIZE s' /\ collecting s') s -> safe_end N (m s).
Proof.
  unfold wp, safe_end. destruct (m s) as [[s' [r|e]]|f]; [|done|done]. intros [(H1 & H2 & H3 & _) Hc]. done.
Qed.

(** ** Properties *)

(** C28: When the client may fail.  For every sequence of interrupts, of bytes from
    the socket and of keys, ends of input and failing reads among them, and whichever
    system calls fail: if the terminal's capabilities have at most [M] bytes each, and
    the server sends so few bytes that two of them per byte fit the buffer they are
    expanded into (2048 bytes, never emptied; [capabilities_overflow] is what happens
    beyond), then the client and its variant that logs in by itself only end by
    disconnecting, after a failed call or with SIGPIPE after the end of the input: the
    machines never abort and stay in their states, and the accesses stay inside the
    arrays, the name of the script file included.  The one fault left is a null
    pointer, and it takes the failure of [fopen] (the first system call; the variant has
    none) or of [fdopen] (the fourth, in the variant the third), which the code does not
    look at, or a server that sends the byte SB, to ask for a terminal type that has no
    name yet. *)
Theorem telnet_safe E M t turns buf :
  (forall c sv, termcap E c = Some sv -> Zlen sv + 1 <= M) -> 0 <= M ->
  Forall turn_ok turns -> 2 * M * Zlen (received turns) <= TBUFSIZE ->
  safe_end (sys E 0 = false \/ sys E 3 = false \/ TCSB ∈ received turns) (telnet E turns (initial t)) /\
  safe_end (sys E 2 = false \/ TCSB ∈ received turns) (telnet_local E turns buf (initial t)).
Proof.
  intros HM HM0 Hok Hb. destruct (initial_fresh t) as (F1 & F2 & F3 & F4 & F5). split; apply wp_safe_end.
  - apply wp_bind, wp_call. apply (wp_started E _ 1); [done|]. intros s Hi Hc Hk. apply wp_bind, wp_call. rewrite Hk.
    eapply wp_mono; [apply (wp_telnet_loop E M HM HM0 _ (sys E 3) (sys E 0) turns); [by auto..|exact Hi|exact Hc|exact Hb]|].
    intros ? s2 [Hi2 Hc2]. split; [eapply inv_weaken; [done|lia]|done].
  - apply (wp_started E _ 0); [done|]. intros s Hi Hc Hk. apply wp_bind, wp_call. rewrite Hk.
    eapply wp_mono; [apply (wp_local_loop E M HM HM0 _ (sys E 2) turns); [by auto..|exact Hi|exact Hc|exact Hb]|].
    intros ? s2 [Hi2 Hc2]. split; [eapply inv_weaken; [done|lia]|done].
Qed.

(** A terminal whose backspace is three bytes long; a session in which data, an
    interrupt, a name for a script file and a disconnection occur. *)
Definition some_env : env :=
  Env (fun _ => true) None (fun c => if decide (c = "bc"%string) then Some [27; 91; 68] else None) (fun t => t) [] 0 23 [].

Definition some_turns : list turn :=
  [ Ready (Some (Data [104; 105; 8; TCIAC; TCWILL; TOECHO])) None;
    Urgent;
    Ready (Some (Data [120; TCIAC; TCDM; 121])) (Some (Data [97; KCESCAPE; KCSCRIPT; 102; KCNL]));
    Ready (Some (Data [122])) (Some (Data [KCESCAPE; KCUNSCRIPT]));
    Ready None (Some (Data [98])) ].

Lemma telnet_safe_witness :
  safe_end (sys some_env 0 = false \/ sys some_env 3 = false \/ TCSB ∈ received some_turns)
           (telnet some_env some_turns (initial no_termios)) /\
  safe_end (sys some_env 2 = false \/ TCSB ∈ received some_turns)
           (telnet_local some_env some_turns [] (initial no_termios)).
Proof.
  apply (telnet_safe some_env 4 no_termios some_turns []); [|done| |by_compute].
  - intros c sv. simpl. destruct (decide _); [|done]. intros [= <-]. done.
  - unfold some_turns. repeat constructor; by_compute.
Defined.

(** What that session sends and shows: the data between the interrupt and the data
    mark is dropped. *)
Example some_session :
  match telnet some_env some_turns (initial no_termios) with
  | Ok (s, inl _) =>
      to_sock (m_io s) = [TCIAC; TCDO; TOECHO; 97; 98] /\
      to_tty (m_io s) = [104; 105; 27; 91; 68; 121] ++ [10] ++ text "script file: " ++ [122] ++
                        [10; 34; 102; 34] ++ text ": 1 bytes." ++ [10]
  | _ => False
  end.
Proof. by vm_compute. Qed.

(** A server that asks for the terminal type before it has been offered. *)
Example null_terminal :
  telnet some_env [Ready (Some (Data [TCIAC; TCSB; TOTERMTYPE; TT_SEND])) None] (initial no_termios) = Fault NullDeref.
Proof. by vm_compute. Qed.

(** The output file, or the stream for the socket, cannot be opened: nothing happens until the first
    character for it. *)
Definition failing_call (k : nat) : env :=
  Env (fun n => negb (bool_decide (n = k))) None (fun _ => None) (fun t => t) [] 0 23 [].

Example null_streams :
  telnet (failing_call 0) [Ready (Some (Data [104])) None] (initial no_termios) = Fault NullDeref /\
  telnet (failing_call 3) [Ready None (Some (Data [104]))] (initial no_termios) = Fault NullDeref /\
  match telnet (failing_call 3) [Ready (Some (Data [104])) None] (initial no_termios) with
  | Ok (s, inl _) => to_tty (m_io s) = [104]
  | _ => False
  end.
Proof. by vm_compute. Qed.

(** A key after the end of the input. *)
Example sent_after_shutdown :
  match telnet some_env [Ready None (Some Eof); Ready None (Some (Data [104]))] (initial no_termios) with
  | Ok (_, inr e) => e = BrokenPipe
  | _ => False
  end.
Proof. by vm_compute. Qed.

(** A server that sends 513 backspaces. *)
Example capabilities_overflow :
  telnet some_env [Ready (Some (Data (replicate (Z.to_nat 513) VPBS))) None] (initial no_termios) = Fault OutOfBounds.
Proof. by vm_compute. Qed.

(** The variant answers a password prompt. *)
Example logs_in :
  match telnet_local some_env [Ready (Some (Data (prompt ++ [32]))) None] [] (initial no_termios) with
  | Ok (s, inl _) => to_sock (m_io s) = text "chanct-code" ++ [13] ++ text "dir" ++ [13] ++ text "quit" ++ [13]
  | _ => False
  end.
Proof. by vm_compute. Qed.
