(* ===== verification/TelnetStream.v ===== *)
(** * The telnet client: its streams

    What the machines do to whole streams: option negotiation as a specification on
    the agreed options, and binary data from the keys of one client to the terminal
    of another. *)

From stdpp Require Import base numbers list list_numbers strings.
From S2P Require Import Prelude Telnet TelnetFsm.

#[local] Open Scope Z_scope.

(** ** Steps of the machines, by their tables *)

Definition trans_of (l : list fsm_trans) (st c : Z) : fsm_trans :=
  match rd l (transition l st c) with Ok t => t | Fault _ => marker end.

Lemma lookup_trans fsm l n st c :
  array_of fsm l n -> complete_b l n = true -> 0 <= st < n -> is_u8 c ->
  exists ti, rd2 fsm st c = Ok ti /\ rd (l ++ [marker]) ti = Ok (trans_of l st c).
Proof.
  intros Ha Hc Hs Hu. destruct (lookup_byte fsm l n st c [marker] Ha Hc Hs Hu) as (ti & t & E1 & E0 & E2 & E3 & _).
  exists ti. split; [done|]. unfold trans_of. by rewrite <- E0, E3.
Qed.

Section Steps.
Context (E : env).

(** A byte from the socket, in the state [st]. *)
Lemma tt_byte_eq c s st :
  built (m_fsms s) -> ttstate (m_fsms s) = st -> 0 <= st < NTSTATES -> is_u8 c ->
  tt_byte E c s = (_ ← run_action E (ft_action (trans_of tt_trans st c)) c;
                   modify (fun s => set_fsms s (set_ttstate (m_fsms s) (ft_next (trans_of tt_trans st c))))) s.
Proof.
  intros (Hb & _) <- Hs Hc. destruct (lookup_trans _ _ _ _ c Hb tt_complete Hs Hc) as (ti & E1 & E2).
  destruct client_tables as (Ett & _). rewrite <- Ett in E2.
  unfold tt_byte, mbind at 1 2 3, act_bind, get, lift. rewrite E1. cbn iota beta. by rewrite E2.
Qed.

(** A key, in the state [st]. *)
Lemma so_byte_eq c s st :
  built (m_fsms s) -> sostate (m_fsms s) = st -> 0 <= st < NKSTATES -> is_u8 c ->
  so_byte E c s = (rc ← run_action E (ft_action (trans_of so_trans st c)) c;
                   modify (fun s => set_fsms s (set_sostate (m_fsms s)
                     (if decide (rc < 0) then KSREMOTE else ft_next (trans_of so_trans st c))))) s.
Proof.
  intros (_ & Hb & _) <- Hs Hc. destruct (lookup_trans _ _ _ _ c Hb so_complete Hs Hc) as (ti & E1 & E2).
  destruct client_tables as (_ & Eso & _). rewrite <- Eso in E2.
  unfold so_byte, mbind at 1 2 3, act_bind, get, lift. rewrite E1. cbn iota beta. by rewrite E2.
Qed.

Lemma ttwrite_cons c buf s s1 : tt_byte E c s = Ok (s1, inl tt) -> ttwrite E (c :: buf) s = ttwrite E buf s1.
Proof. intros H. simpl. unfold mbind, act_bind. by rewrite H. Qed.

Lemma sowrite_cons c buf s s1 : so_byte E c s = Ok (s1, inl tt) -> sowrite E (c :: buf) s = sowrite E buf s1.
Proof. intros H. simpl. unfold mbind, act_bind. by rewrite H. Qed.
End Steps.

(** A fact about every byte, by computation. *)
Lemma all_bytes (P : Z -> bool) : forallb P (seqZ 0 256) = true -> forall c, is_u8 c -> P c = true.
Proof.
  rewrite forallb_forall. intros H c Hc. apply H. rewrite <- list_elem_of_In. apply elem_of_seqZ. unfold is_u8 in Hc. lia.
Qed.

(** ** Binary data *)

(** How data is typed: the escape key twice for the escape key. *)
Fixpoint typed (bs : list Z) : list Z :=
  match bs with
  | [] => []
  | c :: bs => (if decide (c = KCESCAPE) then [c; c] else [c]) ++ typed bs
  end.

(** How it travels: IAC twice for the byte that is IAC. *)
Fixpoint wire (bs : list Z) : list Z :=
  match bs with
  | [] => []
  | c :: bs => (if decide (c = TCIAC) then [c; c] else [c]) ++ wire bs
  end.

Lemma remote_trans c : is_u8 c -> c <> KCESCAPE -> trans_of so_trans KSREMOTE c = Trans KSREMOTE KCANY KSREMOTE a_soputc.
Proof.
  intros Hc Hne.
  pose proof (all_bytes (fun c => bool_decide (c = KCESCAPE) ||
    bool_decide (trans_of so_trans KSREMOTE c = Trans KSREMOTE KCANY KSREMOTE a_soputc)) ltac:(by vm_compute) c Hc) as H.
  cbv beta in H. rewrite bool_decide_false in H by done. by apply bool_decide_eq_true in H.
Qed.

Lemma data_trans c : is_u8 c -> c <> TCIAC -> trans_of tt_trans TSDATA c = Trans TSDATA TCANY TSDATA a_ttputc.
Proof.
  intros Hc Hne.
  pose proof (all_bytes (fun c => bool_decide (c = TCIAC) ||
    bool_decide (trans_of tt_trans TSDATA c = Trans TSDATA TCANY TSDATA a_ttputc)) ltac:(by vm_compute) c Hc) as H.
  cbv beta in H. rewrite bool_decide_false in H by done. by apply bool_decide_eq_true in H.
Qed.

(** A client that sends, and one that receives, binary data. *)
Definition sending (s : tn) : Prop :=
  built (m_fsms s) /\ sostate (m_fsms s) = KSREMOTE /\ sndbinary (m_opts s) = true.
Definition receiving (s : tn) : Prop :=
  built (m_fsms s) /\ ttstate (m_fsms s) = TSDATA /\ rcvbinary (m_opts s) = true.

(** What [soputc] sends of a byte. *)
Lemma soputc_binary c s :
  sndbinary (m_opts s) = true -> is_u8 c ->
  exists s', soputc c s = Ok (s', inl 0) /\ m_fsms s' = m_fsms s /\ m_opts s' = m_opts s /\
             to_sock (m_io s') = to_sock (m_io s) ++ (if decide (c = TCIAC) then [c; c] else [c]).
Proof.
  intros Hb Hc. unfold soputc, mbind, act_bind, get. rewrite Hb.
  destruct (decide (c = TCIAC)) as [->|Hne]; eexists; (split; [reflexivity|]); (split; [done|]); (split; [done|]); simpl.
  - by rewrite <- app_assoc.
  - by rewrite u8_small.
Qed.

Lemma type_one E c rest s :
  sending s -> is_u8 c ->
  exists s', sowrite E ((if decide (c = KCESCAPE) then [c; c] else [c]) ++ rest) s = sowrite E rest s' /\ sending s' /\
             to_sock (m_io s') = to_sock (m_io s) ++ (if decide (c = TCIAC) then [c; c] else [c]).
Proof.
  intros (Hb & Hst & Hsnd) Hc. destruct (decide (c = KCESCAPE)) as [->|Hne].
  - set (s1 := set_fsms s (set_sostate (m_fsms s) KSLOCAL)).
    destruct (soputc_binary KCESCAPE s1 Hsnd Hc) as (s2 & E2 & Ef & Eo & Es).
    exists (set_fsms s2 (set_sostate (m_fsms s2) KSREMOTE)). split; [|split].
    + cbn [app]. rewrite (sowrite_cons E _ _ s s1); [|by rewrite (so_byte_eq E _ _ KSREMOTE)].
      apply sowrite_cons. rewrite (so_byte_eq E _ _ KSLOCAL) by done.
      replace (trans_of so_trans KSLOCAL KCESCAPE) with (Trans KSLOCAL KCESCAPE KSREMOTE a_soputc) by by vm_compute.
      unfold mbind, act_bind. cbn [run_action ft_action run_simple]. by rewrite E2.
    + unfold sending. simpl. rewrite Ef, Eo. done.
    + exact Es.
  - destruct (soputc_binary c s Hsnd Hc) as (s2 & E2 & Ef & Eo & Es).
    exists (set_fsms s2 (set_sostate (m_fsms s2) KSREMOTE)). split; [|split].
    + cbn [app]. apply sowrite_cons. rewrite (so_byte_eq E _ _ KSREMOTE) by done. rewrite remote_trans by done.
      unfold mbind, act_bind. cbn [run_action ft_action run_simple]. by rewrite E2.
    + unfold sending. simpl. rewrite Ef, Eo. done.
    + exact Es.
Qed.

Lemma sowrite_binary E bs : forall s,
  sending s -> Forall is_u8 bs ->
  exists s', sowrite E (typed bs) s = Ok (s', inl tt) /\ sending s' /\ to_sock (m_io s') = to_sock (m_io s) ++ wire bs.
Proof.
  induction bs as [|c bs IH]; intros s Hs Hu.
  - exists s. split; [done|]. split; [done|]. by rewrite app_nil_r.
  - apply Forall_cons in Hu as [Hc Hu]. destruct (type_one E c (typed bs) s Hs Hc) as (s1 & E1 & Hs1 & Es1).
    destruct (IH s1 Hs1 Hu) as (s2 & E2 & Hs2 & Es2). exists s2. split; [|split; [done|]].
    + cbn [typed]. by rewrite E1, E2.
    + cbn [wire]. by rewrite Es2, Es1, <- app_assoc.
Qed.

(** The script file with more bytes written. *)
Definition scripted (s : tn) : option (list Z) := scrfp (m_script s).

Lemma ttputc_binary E c s :
  rcvbinary (m_opts s) = true -> is_u8 c ->
  exists s', ttputc E c s = Ok (s', inl 0) /\ m_fsms s' = m_fsms s /\ m_opts s' = m_opts s /\
             to_tty (m_io s') = to_tty (m_io s) ++ [c] /\ scripted s' = (fun w => w ++ [c]) <$> scripted s.
Proof.
  intros Hb Hc. unfold ttputc, mbind, act_bind, get. rewrite Hb. unfold xputc, script_puts, puts_tty, modify, scripted.
  cbv [mbind act_bind]. rewrite u8_small by done.
  destruct (scrfp (m_script s)) eqn:Ew; eexists; (split; [reflexivity|]); simpl; rewrite ?Ew; done.
Qed.

Lemma receive_one E c rest s :
  receiving s -> is_u8 c ->
  exists s', ttwrite E ((if decide (c = TCIAC) then [c; c] else [c]) ++ rest) s = ttwrite E rest s' /\ receiving s' /\
             to_tty (m_io s') = to_tty (m_io s) ++ [c] /\ scripted s' = (fun w => w ++ [c]) <$> scripted s.
Proof.
  intros (Hb & Hst & Hrcv) Hc. destruct (decide (c = TCIAC)) as [->|Hne].
  - set (s1 := set_fsms s (set_ttstate (m_fsms s) TSIAC)).
    destruct (ttputc_binary E TCIAC s1 Hrcv Hc) as (s2 & E2 & Ef & Eo & Es & Esc).
    exists (set_fsms s2 (set_ttstate (m_fsms s2) TSDATA)). split; [|split; [|done]].
    + cbn [app]. rewrite (ttwrite_cons E _ _ s s1); [|by rewrite (tt_byte_eq E _ _ TSDATA)].
      apply ttwrite_cons. rewrite (tt_byte_eq E _ _ TSIAC) by done.
      replace (trans_of tt_trans TSIAC TCIAC) with (Trans TSIAC TCIAC TSDATA a_ttputc) by by vm_compute.
      unfold mbind, act_bind. cbn [run_action ft_action run_simple]. by rewrite E2.
    + unfold receiving. simpl. rewrite Ef, Eo. done.
  - destruct (ttputc_binary E c s Hrcv Hc) as (s2 & E2 & Ef & Eo & Es & Esc).
    exists (set_fsms s2 (set_ttstate (m_fsms s2) TSDATA)). split; [|split; [|done]].
    + cbn [app]. apply ttwrite_cons. rewrite (tt_byte_eq E _ _ TSDATA) by done. rewrite data_trans by done.
      unfold mbind, act_bind. cbn [run_action ft_action run_simple]. by rewrite E2.
    + unfold receiving. simpl. rewrite Ef, Eo. done.
Qed.

Lemma ttwrite_binary E bs : forall s,
  receiving s -> Forall is_u8 bs ->
  exists s', ttwrite E (wire bs) s = Ok (s', inl tt) /\ receiving s' /\
             to_tty (m_io s') = to_tty (m_io s) ++ bs /\ scripted s' = (fun w => w ++ bs) <$> scripted s.
Proof.
  induction bs as [|c bs IH]; intros s Hs Hu.
  - exists s. split; [done|]. split; [done|]. rewrite app_nil_r. split; [done|].
    destruct (scripted s); simpl; [by rewrite app_nil_r|done].
  - apply Forall_cons in Hu as [Hc Hu]. destruct (receive_one E c (wire bs) s Hs Hc) as (s1 & E1 & Hs1 & Es1 & Ec1).
    destruct (IH s1 Hs1 Hu) as (s2 & E2 & Hs2 & Es2 & Ec2). exists s2. split; [|split; [done|split]].
    + cbn [wire]. by rewrite E1, E2.
    + by rewrite Es2, Es1, <- app_assoc.
    + rewrite Ec2, Ec1. destruct (scripted s); simpl; [by rewrite <- app_assoc|done].
Qed.

(** ** Option negotiation *)

(** The options the two sides agree on: the remote end echoes, suppresses go-ahead,
    sends binary data; the client sends binary data and its terminal type. *)
Record agreed := Agreed { r_echo : bool; r_noga : bool; r_binary : bool; l_binary : bool; l_termtype : bool; l_name : option (list Z) }.

#[global] Instance agreed_eq_dec : EqDecision agreed.
Proof. solve_decision. Defined.

Definition view (o : options) : agreed :=
  Agreed (doecho o) (noga o) (rcvbinary o) (sndbinary o) (termtype o) (term o).

(** An answer is due when an option changes, and says what it is now. *)
Definition answer (old new : bool) (yes no opt : Z) : list Z :=
  if decide (old = new) then [] else [TCIAC; if new then yes else no; opt].

(** What the other side offers or refuses to do ([want]). *)
Definition on_will (ok : bool) (a : agreed) (want : bool) (opt : Z) : agreed * list Z :=
  let '(Agreed e g rb lb lt nm) := a in
  if decide (opt = TOECHO) then
    (Agreed (if ok then want else e) g rb lb lt nm,
     if decide (e = want) then [] else [TCIAC; if (if ok then want else e) then TCDO else TCDONT; opt])
  else if decide (opt = TONOGA) then (Agreed e want rb lb lt nm, answer g want TCDO TCDONT opt)
  else if decide (opt = TOTXBINARY) then (Agreed e g want lb lt nm, answer rb want TCDO TCDONT opt)
  else (a, [TCIAC; TCDONT; opt]).

(** What the other side asks the client to do or not to do.  A terminal type is sent
    in binary, so with the one the client offers the other. *)
Definition on_do (env_name : option (list Z)) (a : agreed) (want : bool) (opt : Z) : agreed * list Z :=
  let '(Agreed e g rb lb lt nm) := a in
  if decide (opt = TOTXBINARY) then (Agreed e g rb want lt nm, answer lb want TCWILL TCWONT opt)
  else if decide (opt = TOTERMTYPE) then
    if decide (lt = want) then (a, [])
    else if want then
      match (match nm with Some name => Some name | None => env_name end) with
      | Some name => (Agreed e g true true true (Some name),
                      [TCIAC; TCWILL; opt] ++ answer rb true TCDO TCDONT TOTXBINARY ++ answer lb true TCWILL TCWONT TOTXBINARY)
      | None => (a, [TCIAC; TCWONT; opt])
      end
    else (Agreed e g rb lb false nm, [TCIAC; TCWONT; opt])
  else (a, [TCIAC; TCWONT; opt]).

(** A command of the other side.  [ok]: the terminal can be switched. *)
Definition negotiate (E : env) (ok : bool) (a : agreed) (cmd opt : Z) : agreed * list Z :=
  if decide (cmd = TCWILL) then on_will ok a true opt
  else if decide (cmd = TCWONT) then on_will ok a false opt
  else on_do (getenv_TERM E) a (bool_decide (cmd = TCDO)) opt.

(** An action implements a change of the options and what it sends. *)
Definition acts (m : act Z) (s : tn) (r : agreed * list Z) : Prop :=
  exists s' rc, m s = Ok (s', inl rc) /\ built (m_fsms s') /\ view (m_opts s') = r.1 /\
                to_sock (m_io s') = to_sock (m_io s) ++ r.2.

Section Negotiation.
Context (E : env).

(** The state taken apart, and the run of an action on it. *)
Ltac run_option :=
  eexists _, _; split; [reflexivity|]; split; [done|]; split; [done|]; simpl;
  rewrite ?u8_small by done; rewrite <- ?app_assoc, ?app_nil_r; done.

Lemma do_noga_acts s (want : bool) :
  built (m_fsms s) -> option_cmd (m_opts s) = (if want then TCWILL else TCWONT) ->
  acts (do_noga TONOGA) s (on_will true (view (m_opts s)) want TONOGA).
Proof.
  intros Hb Ho. destruct s as [f [oc e g rb lb lt nm] t sc io sy la b n]. simpl in *. subst oc.
  unfold do_noga, on_will. destruct want, g; run_option.
Qed.

Lemma do_txbinary_acts ok s (want : bool) :
  built (m_fsms s) -> option_cmd (m_opts s) = (if want then TCWILL else TCWONT) ->
  acts (do_txbinary TOTXBINARY) s (on_will ok (view (m_opts s)) want TOTXBINARY).
Proof.
  intros Hb Ho. destruct s as [f [oc e g rb lb lt nm] t sc io sy la b n]. simpl in *. subst oc.
  unfold do_txbinary, on_will. destruct want, rb; run_option.
Qed.

Lemma do_echo_acts s (want : bool) :
  built (m_fsms s) -> option_cmd (m_opts s) = (if want then TCWILL else TCWONT) ->
  acts (do_echo E TOECHO) s (on_will (sys E (ncalls s) && sys E (S (ncalls s))) (view (m_opts s)) want TOECHO).
Proof.
  intros Hb Ho. destruct s as [f [oc e g rb lb lt nm] t sc io sy la b n]. simpl in *. subst oc.
  unfold acts. destruct want, e; lazy -[sys u8 s8 app built];
    (destruct (sys E n); [destruct (sys E (S n))|]); lazy -[sys u8 s8 app built]; run_option.
Qed.

Lemma will_txbinary_acts nm s (want : bool) :
  built (m_fsms s) -> option_cmd (m_opts s) = (if want then TCDO else TCDONT) ->
  acts (will_txbinary TOTXBINARY) s (on_do nm (view (m_opts s)) want TOTXBINARY).
Proof.
  intros Hb Ho. destruct s as [f [oc e g rb lb lt nm'] t sc io sy la b n]. simpl in *. subst oc.
  unfold will_txbinary, on_do. destruct want, lb; run_option.
Qed.

Lemma will_termtype_acts s (want : bool) :
  built (m_fsms s) -> option_cmd (m_opts s) = (if want then TCDO else TCDONT) ->
  acts (will_termtype E TOTERMTYPE) s (on_do (getenv_TERM E) (view (m_opts s)) want TOTERMTYPE).
Proof.
  intros Hb Ho. destruct s as [f [oc e g rb lb lt nm] t sc io sy la b n]. simpl in *. subst oc.
  unfold acts. destruct want, lt; try (lazy -[getenv_TERM u8 app built]; by run_option).
  destruct nm as [name|]; [|destruct (getenv_TERM E) as [name|] eqn:En].
  - destruct rb, lb; lazy -[getenv_TERM u8 app built]; run_option.
  - destruct rb, lb; lazy -[getenv_TERM u8 app built]; rewrite En; lazy -[u8 app built]; run_option.
  - lazy -[getenv_TERM u8 app built]; rewrite En; lazy -[u8 app built]; run_option.
Qed.

Lemma do_notsup_acts c ok s (want : bool) :
  built (m_fsms s) -> is_u8 c -> c <> TOECHO -> c <> TONOGA -> c <> TOTXBINARY ->
  acts (do_notsup c) s (on_will ok (view (m_opts s)) want c).
Proof.
  intros Hb Hc H1 H2 H3. unfold on_will, do_notsup. destruct (view (m_opts s)) eqn:Ev.
  rewrite !decide_False by done. eexists _, _. split; [reflexivity|]. split; [done|]. split; [exact Ev|].
  simpl. rewrite !u8_small by done. by rewrite <- !app_assoc.
Qed.

Lemma will_notsup_acts c nm s (want : bool) :
  built (m_fsms s) -> is_u8 c -> c <> TOTXBINARY -> c <> TOTERMTYPE ->
  acts (will_notsup c) s (on_do nm (view (m_opts s)) want c).
Proof.
  intros Hb Hc H1 H2. unfold on_do, will_notsup. destruct (view (m_opts s)) eqn:Ev.
  rewrite !decide_False by done. eexists _, _. split; [reflexivity|]. split; [done|]. split; [exact Ev|].
  simpl. rewrite !u8_small by done. by rewrite <- !app_assoc.
Qed.

(** The transitions for the commands and for every option. *)
Definition wopt_action (opt : Z) : action :=
  if decide (opt = TOECHO) then a_do_echo else if decide (opt = TONOGA) then a_do_noga
  else if decide (opt = TOTXBINARY) then a_do_txbinary else a_do_notsup.
Definition dopt_action (opt : Z) : action :=
  if decide (opt = TOTERMTYPE) then a_will_termtype else if decide (opt = TOTXBINARY) then a_will_txbinary
  else a_will_notsup.

Lemma option_trans opt : is_u8 opt ->
  (ft_action (trans_of tt_trans TSWOPT opt) = wopt_action opt /\ ft_next (trans_of tt_trans TSWOPT opt) = TSDATA) /\
  (ft_action (trans_of tt_trans TSDOPT opt) = dopt_action opt /\ ft_next (trans_of tt_trans TSDOPT opt) = TSDATA).
Proof.
  intros Ho.
  pose proof (all_bytes (fun opt => bool_decide (
    (ft_action (trans_of tt_trans TSWOPT opt) = wopt_action opt /\ ft_next (trans_of tt_trans TSWOPT opt) = TSDATA) /\
    (ft_action (trans_of tt_trans TSDOPT opt) = dopt_action opt /\ ft_next (trans_of tt_trans TSDOPT opt) = TSDATA)))
    ltac:(by vm_compute) opt Ho) as H. by apply bool_decide_eq_true in H.
Qed.

Lemma will_option_acts opt s (want : bool) :
  built (m_fsms s) -> is_u8 opt -> option_cmd (m_opts s) = (if want then TCWILL else TCWONT) ->
  acts (run_action E (wopt_action opt) opt) s
       (on_will (sys E (ncalls s) && sys E (S (ncalls s))) (view (m_opts s)) want opt).
Proof.
  intros Hb Ho Hc. unfold wopt_action. destruct (decide (opt = TOECHO)) as [->|H1]; [by apply do_echo_acts|].
  destruct (decide (opt = TONOGA)) as [->|H2]; [by apply do_noga_acts|].
  destruct (decide (opt = TOTXBINARY)) as [->|H3]; [by apply do_txbinary_acts|]. by apply do_notsup_acts.
Qed.

Lemma do_option_acts opt s (want : bool) :
  built (m_fsms s) -> is_u8 opt -> option_cmd (m_opts s) = (if want then TCDO else TCDONT) ->
  acts (run_action E (dopt_action opt) opt) s (on_do (getenv_TERM E) (view (m_opts s)) want opt).
Proof.
  intros Hb Ho Hc. unfold dopt_action. destruct (decide (opt = TOTERMTYPE)) as [->|H1]; [by apply will_termtype_acts|].
  destruct (decide (opt = TOTXBINARY)) as [->|H2]; [by apply will_txbinary_acts|]. by apply will_notsup_acts.
Qed.

(** The state in which the option's byte is read. *)
Definition commanded (s : tn) (st cmd : Z) : tn :=
  set_fsms (set_opts s (set_option_cmd (m_opts s) cmd)) (set_ttstate (m_fsms s) st).

Lemma command_read cmd st rest s :
  built (m_fsms s) -> ttstate (m_fsms s) = TSDATA -> is_u8 cmd ->
  ft_action (trans_of tt_trans TSIAC cmd) = a_recopt -> ft_next (trans_of tt_trans TSIAC cmd) = st ->
  ttwrite E (TCIAC :: cmd :: rest) s = ttwrite E rest (commanded s st cmd).
Proof.
  intros Hb Hst Hc Ha Hn. rewrite (ttwrite_cons E _ _ s (set_fsms s (set_ttstate (m_fsms s) TSIAC)));
    [|by rewrite (tt_byte_eq E _ _ TSDATA)].
  apply ttwrite_cons. rewrite (tt_byte_eq E _ _ TSIAC) by done. rewrite Ha, Hn. simpl.
  unfold recopt, mbind, act_bind, modify, mret, act_ret. by rewrite u8_small.
Qed.

(** The option's byte, once its action is known. *)
Lemma option_read opt st s r :
  built (m_fsms s) -> ttstate (m_fsms s) = st -> 0 <= st < NTSTATES -> is_u8 opt ->
  ft_next (trans_of tt_trans st opt) = TSDATA ->
  acts (run_action E (ft_action (trans_of tt_trans st opt)) opt) s r ->
  exists s', ttwrite E [opt] s = Ok (s', inl tt) /\ built (m_fsms s') /\ ttstate (m_fsms s') = TSDATA /\
             view (m_opts s') = r.1 /\ to_sock (m_io s') = to_sock (m_io s) ++ r.2.
Proof.
  intros Hb Hst Hr Ho Hn (s1 & rc & E1 & Hb1 & Hv & Hs).
  exists (set_fsms s1 (set_ttstate (m_fsms s1) TSDATA)). split; [|done].
  rewrite (ttwrite_cons E _ _ s (set_fsms s1 (set_ttstate (m_fsms s1) TSDATA))); [done|].
  rewrite (tt_byte_eq E _ _ st) by done. rewrite Hn. unfold mbind, act_bind, modify. by rewrite E1.
Qed.
End Negotiation.

(** ** Properties *)

(** C30: Binary data survives the way from the keys of one client to the terminal of
    another: whatever bytes are typed, with the escape key typed twice, the sending
    client transmits them so that the receiving client writes exactly these bytes to
    its terminal, and to its script file if it has one.  This includes the byte that
    is IAC, and any later typing starts from the same states. *)
Theorem binary_roundtrip E E' bs s r :
  sending s -> receiving r -> Forall is_u8 bs ->
  exists s' sent r',
    sowrite E (typed bs) s = Ok (s', inl tt) /\ to_sock (m_io s') = to_sock (m_io s) ++ sent /\ sending s' /\
    ttwrite E' sent r = Ok (r', inl tt) /\ to_tty (m_io r') = to_tty (m_io r) ++ bs /\
    scripted r' = (fun w => w ++ bs) <$> scripted r /\ receiving r'.
Proof.
  intros Hs Hr Hu. destruct (sowrite_binary E bs s Hs Hu) as (s' & E1 & Hs' & Es).
  destruct (ttwrite_binary E' bs r Hr Hu) as (r' & E2 & Hr' & Et & Esc).
  exists s', (wire bs), r'. done.
Qed.

(** Two clients, one with the typed bytes 0, the escape key, IAC and 13, the other
    writing a script. *)
Definition ready (snd rcv : bool) (w : option (list Z)) : tn :=
  let s := initial no_termios in
  match fsmbuild s with
  | Ok (s, _) => set_script (set_opts s (Options 0 false false rcv snd false None)) (Scripts w (replicate (Z.to_nat SFBUFSZ) 0) 0)
  | Fault _ => s
  end.

Lemma ready_built snd rcv w :
  built (m_fsms (ready snd rcv w)) /\ ttstate (m_fsms (ready snd rcv w)) = TSDATA /\
  sostate (m_fsms (ready snd rcv w)) = KSREMOTE /\ m_opts (ready snd rcv w) = Options 0 false false rcv snd false None /\
  scripted (ready snd rcv w) = w.
Proof.
  unfold ready. destruct (fsmbuild_ok (initial no_termios)) as (f & -> & Hf & E1 & E2 & E3); [|done].
  unfold roomy. split; [|split]; by_compute.
Qed.

Definition quiet_env : env :=
  Env (fun _ => true) (Some (text "vt100")) (fun _ => None) (fun t => t) [] 0 23 [].

Lemma binary_roundtrip_witness :
  exists s' sent r',
    sowrite quiet_env [0; 29; 29; 255; 13] (ready true false None) = Ok (s', inl tt) /\
    to_sock (m_io s') = to_sock (m_io (ready true false None)) ++ sent /\ sending s' /\
    ttwrite quiet_env sent (ready false true (Some [])) = Ok (r', inl tt) /\
    to_tty (m_io r') = to_tty (m_io (ready false true (Some []))) ++ [0; 29; 255; 13] /\
    scripted r' = (fun w => w ++ [0; 29; 255; 13]) <$> scripted (ready false true (Some [])) /\ receiving r'.
Proof.
  assert (Hu : Forall is_u8 [0; 29; 255; 13]) by by_compute.
  destruct (ready_built true false None) as (H1 & _ & H3 & H4 & _). revert H1 H3 H4.
  destruct (ready_built false true (Some [])) as (G1 & G2 & _ & G4 & _). revert G1 G2 G4.
  generalize (ready true false None), (ready false true (Some [])). intros s r G1 G2 G4 H1 H3 H4.
  apply (binary_roundtrip quiet_env quiet_env [0; 29; 255; 13] s r); [| |exact Hu].
  - split; [exact H1|]. split; [exact H3|]. by rewrite H4.
  - split; [exact G1|]. split; [exact G2|]. by rewrite G4.
Defined.

(** C29: Option negotiation implements its specification.  Wherever it stands in the
    data, a command WILL, WONT, DO or DONT with any option changes the agreed options
    and is answered as [negotiate] says: an answer is sent when a supported option
    changes and only then, it says what the option is now (for ECHO what the terminal
    allows, for the terminal type what TERM allows), agreeing on the terminal type
    agrees on binary data in both directions, and everything else is refused. *)
Theorem option_negotiation E s cmd opt :
  built (m_fsms s) -> ttstate (m_fsms s) = TSDATA -> cmd ∈ [TCWILL; TCWONT; TCDO; TCDONT] -> is_u8 opt ->
  let r := negotiate E (sys E (ncalls s) && sys E (S (ncalls s))) (view (m_opts s)) cmd opt in
  exists s', ttwrite E [TCIAC; cmd; opt] s = Ok (s', inl tt) /\ built (m_fsms s') /\ ttstate (m_fsms s') = TSDATA /\
             view (m_opts s') = r.1 /\ to_sock (m_io s') = to_sock (m_io s) ++ r.2.
Proof.
  intros Hb Hst Hcmd Ho. destruct (option_trans opt Ho) as [[Ha Hn] [Ha' Hn']]. unfold negotiate.
  rewrite !elem_of_cons, elem_of_nil in Hcmd. destruct Hcmd as [-> | [-> | [-> | [-> | []]]]].
  - rewrite (command_read E _ TSWOPT) by done. apply (option_read E opt TSWOPT (commanded s TSWOPT TCWILL)); try done.
    rewrite Ha. by apply (will_option_acts E opt (commanded s TSWOPT TCWILL) true).
  - rewrite (command_read E _ TSWOPT) by done. apply (option_read E opt TSWOPT (commanded s TSWOPT TCWONT)); try done.
    rewrite Ha. by apply (will_option_acts E opt (commanded s TSWOPT TCWONT) false).
  - rewrite (command_read E _ TSDOPT) by done. apply (option_read E opt TSDOPT (commanded s TSDOPT TCDO)); try done.
    rewrite Ha'. by apply (do_option_acts E opt (commanded s TSDOPT TCDO) true).
  - rewrite (command_read E _ TSDOPT) by done. apply (option_read E opt TSDOPT (commanded s TSDOPT TCDONT)); try done.
    rewrite Ha'. by apply (do_option_acts E opt (commanded s TSDOPT TCDONT) false).
Qed.

(** A request for the terminal type, by a server that a client has just reached. *)
Lemma option_negotiation_witness :
  let s := ready false false None in
  let r := (Agreed false false true true true (Some (text "vt100")),
            [TCIAC; TCWILL; TOTERMTYPE; TCIAC; TCDO; TOTXBINARY; TCIAC; TCWILL; TOTXBINARY]) in
  exists s', ttwrite quiet_env [TCIAC; TCDO; TOTERMTYPE] s = Ok (s', inl tt) /\ built (m_fsms s') /\
             ttstate (m_fsms s') = TSDATA /\ view (m_opts s') = r.1 /\ to_sock (m_io s') = to_sock (m_io s) ++ r.2.
Proof.
  assert (Hcmd : TCDO ∈ [TCWILL; TCWONT; TCDO; TCDONT]) by by_compute.
  assert (Hopt : is_u8 TOTERMTYPE) by by_compute.
  destruct (ready_built false false None) as (H1 & H2 & _ & H4 & _). revert H1 H2 H4.
  generalize (ready false false None). intros s H1 H2 H4.
  pose proof (option_negotiation quiet_env s TCDO TOTERMTYPE H1 H2 Hcmd Hopt) as H. rewrite H4 in H. exact H.
Defined.

(** Answers end a negotiation about a supported option: the same command again is
    answered with silence. *)
Lemma negotiate_settles E a cmd opt :
  opt ∈ [TONOGA; TOTXBINARY] -> cmd ∈ [TCWILL; TCWONT] \/ (cmd ∈ [TCDO; TCDONT] /\ opt = TOTXBINARY) ->
  negotiate E true (negotiate E true a cmd opt).1 cmd opt = ((negotiate E true a cmd opt).1, []).
Proof.
  rewrite !elem_of_cons, !elem_of_nil. destruct a as [e g rb lb lt nm].
  intros [-> | [-> | []]] [[-> | [-> | []]] | [[-> | [-> | []]] Hopt]]; try done.
Qed.

(** About another option it does not end when both sides are this client: a refusal
    is refused in turn. *)
Lemma refusals_refused E a opt :
  opt ∉ [TOECHO; TONOGA; TOTXBINARY; TOTERMTYPE] ->
  negotiate E true a TCDONT opt = (a, [TCIAC; TCWONT; opt]) /\ negotiate E true a TCWONT opt = (a, [TCIAC; TCDONT; opt]).
Proof.
  rewrite !not_elem_of_cons. intros (H1 & H2 & H3 & H4 & _). unfold negotiate, on_do, on_will. destruct a.
  rewrite !decide_False by done. simpl. by rewrite !decide_False by done.
Qed.
