(* ===== verification/TimeHeap.v ===== *)
(** * The time heap

    src/src/Linux High Perfermance Server Program/codes/11/11-6time_heap.h: timers in
    a binary heap, an array of pointers ordered by the time they expire.  Timers live
    in a memory of their own, because a timer is deleted lazily through its pointer;
    calling a call-back is recorded.  The heap is shown to be a priority queue, and
    [tick] to run exactly the timers that are due, earliest first. *)

From stdpp Require Import base numbers list list_numbers gmap sorting.
From S2P Require Import Prelude.

#[local] Open Scope Z_scope.

(** ** Timers and the heap *)

(** [cb_func] is null after [del_timer]; a call-back is known by a number. *)
Record heap_timer := Heap_timer { expire : Z; cb_func : option Z; user_data : Z }.

Abbreviation ptr := (option positive).

(** [calls]: the call-backs run so far, with their argument. *)
Record time_heap := Time_heap {
  mem : gmap positive heap_timer;
  array : list ptr;
  capacity : Z;
  cur_size : Z;
  calls : list (Z * Z);
}.

Definition set_mem (s : time_heap) x := Time_heap x (array s) (capacity s) (cur_size s) (calls s).
Definition set_array (s : time_heap) x := Time_heap (mem s) x (capacity s) (cur_size s) (calls s).
Definition set_cur_size (s : time_heap) x := Time_heap (mem s) (array s) (capacity s) x (calls s).
Definition add_call (s : time_heap) x := Time_heap (mem s) (array s) (capacity s) (cur_size s) (calls s ++ [x]).

(** [p->...]; a freed timer is gone from the memory. *)
Definition deref (s : time_heap) (p : ptr) : outcome heap_timer :=
  match p with
  | None => Fault NullDeref
  | Some p => match mem s !! p with Some t => Ok t | None => Fault NullDeref end
  end.

Definition expire_at (s : time_heap) (i : Z) : outcome Z :=
  p ← rd (array s) i;
  t ← deref s p;
  Ok (expire t).

(** [delete p]; deleting a null pointer does nothing. *)
Definition delete_ (s : time_heap) (p : ptr) : outcome time_heap :=
  match p with
  | None => Ok s
  | Some q => _ ← deref s p; Ok (set_mem s (base.delete q (mem s)))
  end.

Definition empty_ (s : time_heap) : bool := bool_decide (cur_size s = 0).

(** ** percolate_down *)

(** The loop; the array and the hole it ends with.  [cur_size] turns are enough. *)
Fixpoint percolate_loop (fuel : nat) (s : time_heap) (temp : ptr) (hole : Z) : outcome (time_heap * Z) :=
  match fuel with
  | O => Fault OutOfFuel
  | S fuel =>
      if bool_decide (hole * 2 + 1 <= cur_size s - 1) then
        let child := hole * 2 + 1 in
        child ← (if bool_decide (child < cur_size s - 1) then
                   right ← expire_at s (child + 1);
                   left ← expire_at s child;
                   Ok (if bool_decide (right < left) then child + 1 else child)
                 else Ok child);
        e ← expire_at s child;
        t ← deref s temp;
        if bool_decide (e < expire t) then
          p ← rd (array s) child;
          a ← wr (array s) hole p;
          percolate_loop fuel (set_array s a) temp child
        else Ok (s, hole)
      else Ok (s, hole)
  end.

Definition percolate_down (s : time_heap) (hole : Z) : outcome time_heap :=
  temp ← rd (array s) hole;
  '(s, hole) ← percolate_loop (S (Z.to_nat (cur_size s))) s temp hole;
  a ← wr (array s) hole temp;
  Ok (set_array s a).

(** ** Constructors; [None] is the exception *)

(** [new heap_timer*[n]] throws for a negative size; then every entry is set to null. *)
Definition new_array (n : Z) : option (list ptr) :=
  if bool_decide (0 <= n) then Some (replicate (Z.to_nat n) None) else None.

Definition time_heap_cap (m : gmap positive heap_timer) (cap : Z) : option time_heap :=
  a ← new_array cap;
  Some (Time_heap m a cap 0 []).

(** [for (i = 0; i < n; ++i) dst[i] = src[i];], from [i] on. *)
Fixpoint copy_loop (n : nat) (i : Z) (src dst : list ptr) : outcome (list ptr) :=
  match n with
  | O => Ok dst
  | S n => p ← rd src i; dst ← wr dst i p; copy_loop n (i + 1) src dst
  end.

(** [for (i = ...; i >= 0; --i) percolate_down(i);], for [n] values of [i]. *)
Fixpoint heapify_loop (n : nat) (s : time_heap) : outcome time_heap :=
  match n with
  | O => Ok s
  | S n => s ← percolate_down s (Z.of_nat n); heapify_loop n s
  end.

Definition time_heap_init (m : gmap positive heap_timer) (init_array : list ptr) (size capacity : Z)
  : outcome (option time_heap) :=
  if bool_decide (capacity < size) then Ok None
  else
    match new_array capacity with
    | None => Ok None
    | Some a =>
        if bool_decide (size <> 0) then
          a ← copy_loop (Z.to_nat size) 0 init_array a;
          s ← heapify_loop (Z.to_nat ((size - 1) `quot` 2 + 1)) (Time_heap m a capacity size []);
          Ok (Some s)
        else Ok (Some (Time_heap m a capacity size []))
    end.

(** ** Operations *)

Definition resize (s : time_heap) : outcome (option time_heap) :=
  match new_array (s32 (2 * capacity s)) with
  | None => Ok None
  | Some temp =>
      temp ← copy_loop (Z.to_nat (cur_size s)) 0 (array s) temp;
      Ok (Some (Time_heap (mem s) temp (s32 (2 * capacity s)) (cur_size s) (calls s)))
  end.

(** The loop of [add_timer], for a timer that expires at [e]; the halving hole needs
    at most [hole] turns. *)
Fixpoint percolate_up (fuel : nat) (s : time_heap) (e : Z) (hole : Z) : outcome (time_heap * Z) :=
  match fuel with
  | O => Fault OutOfFuel
  | S fuel =>
      if bool_decide (0 < hole) then
        let parent := (hole - 1) `quot` 2 in
        p ← expire_at s parent;
        if bool_decide (p <= e) then Ok (s, hole)
        else
          q ← rd (array s) parent;
          a ← wr (array s) hole q;
          percolate_up fuel (set_array s a) e parent
      else Ok (s, hole)
  end.

(** [None] is the exception of [resize]. *)
Definition add_timer (s : time_heap) (timer : ptr) : outcome (option time_heap) :=
  match timer with
  | None => Ok (Some s)
  | Some _ =>
      grown ← (if bool_decide (capacity s <= cur_size s) then resize s else Ok (Some s));
      match grown with
      | None => Ok None
      | Some s =>
          let hole := cur_size s in
          t ← deref s timer;
          '(s, hole) ← percolate_up (S (Z.to_nat hole)) (set_cur_size s (cur_size s + 1)) (expire t) hole;
          a ← wr (array s) hole timer;
          Ok (Some (set_array s a))
      end
  end.

Definition del_timer (s : time_heap) (timer : ptr) : outcome time_heap :=
  match timer with
  | None => Ok s
  | Some p => t ← deref s timer; Ok (set_mem s (<[p := Heap_timer (expire t) None (user_data t)]> (mem s)))
  end.

Definition top (s : time_heap) : outcome ptr := if empty_ s then Ok None else rd (array s) 0.

Definition pop_timer (s : time_heap) : outcome time_heap :=
  if empty_ s then Ok s
  else
    p ← rd (array s) 0;
    match p with
    | None => Ok s
    | Some _ =>
        s ← delete_ s p;
        let s := set_cur_size s (cur_size s - 1) in
        q ← rd (array s) (cur_size s);
        a ← wr (array s) 0 q;
        percolate_down (set_array s a) 0
    end.

(** [time(NULL)] is [cur]; each turn pops a timer. *)
Fixpoint tick_loop (fuel : nat) (s : time_heap) (cur : Z) (tmp : ptr) : outcome time_heap :=
  match fuel with
  | O => Fault OutOfFuel
  | S fuel =>
      if empty_ s then Ok s
      else
        match tmp with
        | None => Ok s
        | Some _ =>
            t ← deref s tmp;
            if bool_decide (cur < expire t) then Ok s
            else
              p ← rd (array s) 0;
              t ← deref s p;
              let s := match cb_func t with Some f => add_call s (f, user_data t) | None => s end in
              s ← pop_timer s;
              tmp ← rd (array s) 0;
              tick_loop fuel s cur tmp
        end
  end.

Definition tick (s : time_heap) (cur : Z) : outcome time_heap :=
  tmp ← rd (array s) 0;
  tick_loop (S (Z.to_nat (cur_size s))) s cur tmp.

(** The destructor frees the timers, then the array. *)
Fixpoint destroy_loop (n : nat) (i : Z) (s : time_heap) : outcome time_heap :=
  match n with
  | O => Ok s
  | S n => p ← rd (array s) i; s ← delete_ s p; destroy_loop n (i + 1) s
  end.

Definition destroy (s : time_heap) : outcome time_heap := destroy_loop (Z.to_nat (cur_size s)) 0 s.

(** ** Heap order *)

(** The timers in the heap, in the order of the array, are a list [b] of pointers. *)
Definition key (m : gmap positive heap_timer) (p : positive) : Z :=
  match m !! p with Some t => expire t | None => 0 end.

Definition kat (m : gmap positive heap_timer) (b : list positive) (i : Z) : Z :=
  match b !! Z.to_nat i with Some p => key m p | None => 0 end.

Definition par (i : Z) : Z := (i - 1) `quot` 2.

(** Every node at or below the index [lo] is at most its children. *)
Definition heap_from (m : gmap positive heap_timer) (lo : Z) (b : list positive) : Prop :=
  forall i, 0 < i < Zlen b -> lo <= par i -> kat m b (par i) <= kat m b i.

(** The same, but for the node in the hole and its parent, or its children. *)
Definition up_inv (m : gmap positive heap_timer) (b : list positive) (h : Z) : Prop :=
  (forall i, 0 < i < Zlen b -> i <> h -> kat m b (par i) <= kat m b i) /\
  (forall c, 0 < c < Zlen b -> par c = h -> 0 < h -> kat m b (par h) <= kat m b c).

Definition down_inv (m : gmap positive heap_timer) (lo : Z) (b : list positive) (h : Z) : Prop :=
  (forall i, 0 < i < Zlen b -> lo <= par i -> par i <> h -> kat m b (par i) <= kat m b i) /\
  (forall c, 0 < c < Zlen b -> par c = h -> 0 < h -> lo <= par h -> kat m b (par h) <= kat m b c).

Lemma par_spec i : 0 < i -> 0 <= par i < i /\ (i = 2 * par i + 1 \/ i = 2 * par i + 2).
Proof. intros Hi. unfold par. rewrite Z.quot_div_nonneg by lia. pose proof (Z.div_mod (i - 1) 2). pose proof (Z.mod_pos_bound (i - 1) 2). lia. Qed.

(** Two entries exchanged. *)
Definition swap (b : list positive) (i j : Z) (x y : positive) : list positive :=
  <[Z.to_nat i := y]> (<[Z.to_nat j := x]> b).

Section Swap.
Context (m : gmap positive heap_timer) (b : list positive) (i j : Z) (x y : positive).
Hypothesis Hi : 0 <= i < Zlen b.
Hypothesis Hj : 0 <= j < Zlen b.
Hypothesis Hij : i <> j.
Hypothesis Hx : b !! Z.to_nat i = Some x.
Hypothesis Hy : b !! Z.to_nat j = Some y.

Lemma swap_len : Zlen (swap b i j x y) = Zlen b.
Proof. unfold swap, Zlen. by rewrite !length_insert. Qed.

Lemma swap_lookup l : 0 <= l ->
  swap b i j x y !! Z.to_nat l = if decide (l = i) then Some y else if decide (l = j) then Some x else b !! Z.to_nat l.
Proof.
  intros Hl. unfold swap, Zlen in *. destruct (decide (l = i)) as [->|Hli].
  - rewrite list_lookup_insert_eq; [done|]. rewrite length_insert. lia.
  - rewrite list_lookup_insert_ne by lia. destruct (decide (l = j)) as [->|Hlj].
    + rewrite list_lookup_insert_eq; [done|lia].
    + by rewrite list_lookup_insert_ne by lia.
Qed.

Lemma swap_kat l : 0 <= l ->
  kat m (swap b i j x y) l = if decide (l = i) then kat m b j else if decide (l = j) then kat m b i else kat m b l.
Proof.
  intros Hl. unfold kat. rewrite swap_lookup by done. rewrite Hx, Hy. repeat destruct (decide _); done.
Qed.

Lemma swap_perm : swap b i j x y ≡ₚ b.
Proof.
  apply Permutation_inj. split; [unfold swap; by rewrite !length_insert|].
  exists (fun l => if decide (l = Z.to_nat i) then Z.to_nat j else if decide (l = Z.to_nat j) then Z.to_nat i else l).
  split.
  - intros u v. repeat destruct (decide _); lia.
  - intros l. pose proof (swap_lookup (Z.of_nat l) ltac:(lia)) as E. rewrite Nat2Z.id in E. rewrite E.
    destruct (decide (Z.of_nat l = i)), (decide (l = Z.to_nat i)); try lia; [done|].
    destruct (decide (Z.of_nat l = j)), (decide (l = Z.to_nat j)); try lia; done.
Qed.
End Swap.

Ltac kats := rewrite !swap_kat by (done || lia); repeat (destruct (decide _); try lia).

Section Order.
Context (m : gmap positive heap_timer).

Lemma up_done b h :
  up_inv m b h -> h = 0 \/ kat m b (par h) <= kat m b h -> heap_from m 0 b.
Proof.
  intros [H1 H2] Hh i Hi _. destruct (decide (i = h)) as [->|]; [|by apply H1]. destruct Hh; [lia|done].
Qed.

Lemma up_step b h x y :
  up_inv m b h -> 0 < h < Zlen b -> b !! Z.to_nat h = Some x -> b !! Z.to_nat (par h) = Some y ->
  kat m b h < kat m b (par h) -> up_inv m (swap b h (par h) x y) (par h).
Proof.
  intros [H1 H2] Hh Hx Hy Hlt. pose proof (par_spec h ltac:(lia)) as [Hp _].
  split; rewrite swap_len.
  - intros i Hi Hne. pose proof (par_spec i ltac:(lia)) as [Hpi _]. rewrite !swap_kat by (done || lia).
    destruct (decide (i = h)) as [->|Hih].
    + rewrite (decide_False (P := par h = h)), (decide_True (P := par h = par h)) by lia. lia.
    + rewrite (decide_False (P := i = par h)) by done. destruct (decide (par i = h)) as [Ep|Ep].
      * apply H2; lia.
      * destruct (decide (par i = par h)) as [Eq|Eq]; [|apply H1; lia].
        specialize (H1 i Hi Hih). rewrite Eq in H1. lia.
  - intros c Hc Hpc Hq. pose proof (par_spec (par h) Hq) as [Hpp _]. rewrite !swap_kat by (done || lia).
    rewrite (decide_False (P := par (par h) = h)), (decide_False (P := par (par h) = par h)) by lia.
    pose proof (H1 (par h) ltac:(lia) ltac:(lia)) as Hq1.
    destruct (decide (c = h)) as [->|Hch]; [done|].
    pose proof (par_spec c ltac:(lia)) as [Hpc' _]. rewrite (decide_False (P := c = par h)) by lia.
    specialize (H1 c Hc Hch). rewrite Hpc in H1. lia.
Qed.

Lemma down_done lo b h :
  down_inv m lo b h -> (forall c, 0 < c < Zlen b -> par c = h -> kat m b h <= kat m b c) -> heap_from m lo b.
Proof.
  intros [H1 H2] Hh i Hi Hlo. destruct (decide (par i = h)) as [E|]; [|by apply H1]. rewrite E. by apply Hh.
Qed.

Lemma down_step lo b h c x y :
  down_inv m lo b h -> 0 <= lo <= h -> 0 < c < Zlen b -> par c = h ->
  b !! Z.to_nat h = Some x -> b !! Z.to_nat c = Some y ->
  (forall c', 0 < c' < Zlen b -> par c' = h -> kat m b c <= kat m b c') ->
  kat m b c < kat m b h -> down_inv m lo (swap b h c x y) c.
Proof.
  intros [H1 H2] Hlo Hc Hpc Hx Hy Hmin Hlt. pose proof (par_spec c ltac:(lia)) as [Hp _].
  split; rewrite swap_len.
  - intros i Hi Hloi Hne. pose proof (par_spec i ltac:(lia)) as [Hpi _]. rewrite !swap_kat by (done || lia).
    rewrite (decide_False (P := par i = c)) by done. destruct (decide (i = h)) as [->|Hih].
    + rewrite (decide_False (P := par h = h)) by lia. apply H2; [done..|lia|done].
    + destruct (decide (i = c)) as [->|Hic].
      * rewrite (decide_True (P := par c = h)) by done. lia.
      * destruct (decide (par i = h)) as [E|E]; [by apply Hmin|]. by apply H1.
  - intros d Hd Hpd Hc0 Hloc. pose proof (par_spec d ltac:(lia)) as [Hpd' _]. rewrite !swap_kat by (done || lia).
    rewrite (decide_True (P := par c = h)) by done.
    rewrite (decide_False (P := d = h)), (decide_False (P := d = c)) by lia.
    rewrite <- Hpd. apply H1; lia.
Qed.
End Order.

(** ** The array with a hole *)

(** The entries [b] are at the front of the array, all of them or all but one, [x]
    being put into the hole at [h] later. *)
Definition filled (a : list ptr) (b : list positive) : Prop :=
  forall i, 0 <= i < Zlen b -> rd a i = Ok (b !! Z.to_nat i).

Definition virt (a : list ptr) (h : Z) (x : positive) (b : list positive) : Prop :=
  0 <= h < Zlen b /\ Zlen b <= Zlen a /\ b !! Z.to_nat h = Some x /\
  forall i, 0 <= i < Zlen b -> i <> h -> rd a i = Ok (b !! Z.to_nat i).

Lemma virt_fill a h x b :
  virt a h x b -> exists a', wr a h (Some x) = Ok a' /\ filled a' b /\ Zlen a' = Zlen a.
Proof.
  intros (Hh & Hl & Hx & Hr). rewrite wr_in_range by lia. eexists. split; [done|]. split; [|by rewrite Zlen_insert].
  intros i Hi. destruct (decide (i = h)) as [->|Hne].
  - rewrite rd_insert_eq by lia. by rewrite Hx.
  - rewrite rd_insert_ne by lia. by apply Hr.
Qed.

Lemma virt_step a h x b j y :
  virt a h x b -> 0 <= j < Zlen b -> j <> h -> b !! Z.to_nat j = Some y ->
  exists a', wr a h (Some y) = Ok a' /\ virt a' j x (swap b h j x y) /\ Zlen a' = Zlen a.
Proof.
  intros (Hh & Hl & Hx & Hr) Hj Hne Hy. rewrite wr_in_range by lia. eexists. split; [done|].
  rewrite Zlen_insert. split; [|done]. split; [by rewrite swap_len|]. split; [rewrite swap_len, Zlen_insert; lia|].
  split.
  - rewrite swap_lookup by lia. by rewrite decide_False, decide_True by done.
  - rewrite swap_len. intros i Hi Hij. rewrite swap_lookup by lia. destruct (decide (i = h)) as [->|Hih].
    + by rewrite rd_insert_eq by lia.
    + rewrite decide_False by done. rewrite rd_insert_ne by lia. by apply Hr.
Qed.

Lemma filled_virt a b h x :
  filled a b -> 0 <= h < Zlen b -> Zlen b <= Zlen a -> b !! Z.to_nat h = Some x -> virt a h x b.
Proof. intros Hf Hh Hl Hx. split; [done|]. split; [done|]. split; [done|]. intros i Hi _. by apply Hf. Qed.

Definition members (m : gmap positive heap_timer) (b : list positive) : Prop := Forall (fun p => is_Some (m !! p)) b.

Lemma lookup_in_range (b : list positive) i : 0 <= i < Zlen b -> exists p, b !! Z.to_nat i = Some p.
Proof. intros Hi. apply lookup_lt_is_Some_2. unfold Zlen in Hi. lia. Qed.

Lemma members_lookup m b i p : members m b -> b !! i = Some p -> exists t, m !! p = Some t /\ key m p = expire t.
Proof.
  intros Hm Hp. unfold members in Hm. rewrite Forall_lookup in Hm. destruct (Hm _ _ Hp) as [t Ht].
  exists t. unfold key. by rewrite Ht.
Qed.

Lemma expire_at_ok s b i :
  members (mem s) b -> 0 <= i < Zlen b -> rd (array s) i = Ok (b !! Z.to_nat i) ->
  expire_at s i = Ok (kat (mem s) b i).
Proof.
  intros Hm Hi Hr. destruct (lookup_in_range b i Hi) as [p Hp]. unfold expire_at, kat. rewrite Hr, Hp.
  destruct (members_lookup _ _ _ _ Hm Hp) as (t & Ht & Hk). cbn [mbind outcome_bind deref]. rewrite Ht, Hk. done.
Qed.

Lemma members_perm m b b' : b ≡ₚ b' -> members m b -> members m b'.
Proof. unfold members. by intros <-. Qed.

(** ** The two loops *)

Lemma percolate_up_ok fuel : forall s b x h,
  virt (array s) h x b -> members (mem s) b -> up_inv (mem s) b h -> h < Z.of_nat fuel ->
  exists a h' b', percolate_up fuel s (key (mem s) x) h = Ok (set_array s a, h') /\ virt a h' x b' /\
                  Zlen a = Zlen (array s) /\ b' ≡ₚ b /\ heap_from (mem s) 0 b'.
Proof.
  induction fuel as [|fuel IH]; intros s b x h Hv Hm Hinv Hf.
  { destruct Hv as [Hh _]. lia. }
  pose proof Hv as (Hh & Hl & Hx & Hr). cbn [percolate_up]. destruct (bool_decide_reflect (0 < h)) as [H0|H0].
  2:{ exists (array s), h, b. split; [by destruct s|]. split; [done|]. split; [done|]. split; [done|].
      eapply up_done; [done|]. left. lia. }
  fold (par h). pose proof (par_spec h H0) as [Hp _].
  assert (Hrp : rd (array s) (par h) = Ok (b !! Z.to_nat (par h))) by (apply Hr; lia).
  rewrite (expire_at_ok s b (par h) Hm ltac:(lia) Hrp). cbn [mbind outcome_bind].
  assert (Hkx : kat (mem s) b h = key (mem s) x) by (unfold kat; by rewrite Hx).
  destruct (bool_decide_reflect (kat (mem s) b (par h) <= key (mem s) x)) as [Hle|Hgt].
  { exists (array s), h, b. split; [by destruct s|]. split; [done|]. split; [done|]. split; [done|].
    eapply up_done; [done|]. right. by rewrite Hkx. }
  rewrite Hrp. destruct (lookup_in_range b (par h) ltac:(lia)) as [y Hy]. rewrite Hy. cbn [mbind outcome_bind].
  destruct (virt_step _ _ _ _ (par h) y Hv ltac:(lia) ltac:(lia) Hy) as (a1 & -> & Hv1 & Hl1). cbn [mbind outcome_bind].
  pose proof (swap_perm b h (par h) x y Hh ltac:(lia) ltac:(lia) Hx Hy) as Hperm.
  destruct (IH (set_array s a1) (swap b h (par h) x y) x (par h)) as (a' & h' & b' & E & Hv' & Hl' & Hp' & Hheap);
    [exact Hv1 | eapply members_perm; [symmetry; exact Hperm|done] | | lia | ].
  { simpl. apply up_step; [done | lia | done | done | lia]. }
  exists a', h', b'. simpl in *. split; [exact E|]. split; [done|]. split; [congruence|]. split; [by rewrite Hp'|done].
Qed.

(** The smaller child. *)
Lemma heap_pick_child s b h :
  members (mem s) b -> cur_size s = Zlen b -> 0 <= h -> h * 2 + 1 <= Zlen b - 1 ->
  (forall i, h < i < Zlen b -> rd (array s) i = Ok (b !! Z.to_nat i)) ->
  exists c, (if bool_decide (h * 2 + 1 < cur_size s - 1) then
               right ← expire_at s (h * 2 + 1 + 1);
               left ← expire_at s (h * 2 + 1);
               Ok (if bool_decide (right < left) then h * 2 + 1 + 1 else h * 2 + 1)
             else Ok (h * 2 + 1)) = Ok c /\
            h < c < Zlen b /\ par c = h /\
            forall c', 0 < c' < Zlen b -> par c' = h -> kat (mem s) b c <= kat (mem s) b c'.
Proof.
  intros Hm Hs Hh Hc Hr. rewrite Hs. pose proof (par_spec (h * 2 + 1) ltac:(lia)) as [_ Hp1].
  pose proof (par_spec (h * 2 + 1 + 1) ltac:(lia)) as [_ Hp2].
  destruct (bool_decide_reflect (h * 2 + 1 < Zlen b - 1)) as [H2|H2].
  - rewrite !(expire_at_ok s b) by (done || lia || (apply Hr; lia)). cbn [mbind outcome_bind].
    destruct (bool_decide_reflect (kat (mem s) b (h * 2 + 1 + 1) < kat (mem s) b (h * 2 + 1))) as [Hlt|Hlt];
      eexists; (split; [done|]); (split; [lia|]); (split; [lia|]); intros c' Hc' Hpc'; pose proof (par_spec c' ltac:(lia)) as [_ H];
      (assert (c' = h * 2 + 1 \/ c' = h * 2 + 1 + 1) as [-> | ->] by lia); lia.
  - eexists. split; [done|]. split; [lia|]. split; [lia|]. intros c' Hc' Hpc'. pose proof (par_spec c' ltac:(lia)) as [_ H].
    assert (c' = h * 2 + 1) as -> by lia. lia.
Qed.

Lemma percolate_loop_ok fuel : forall s b x h lo,
  virt (array s) h x b -> members (mem s) b -> cur_size s = Zlen b -> down_inv (mem s) lo b h -> 0 <= lo <= h ->
  Zlen b - h <= Z.of_nat fuel ->
  exists a h' b', percolate_loop fuel s (Some x) h = Ok (set_array s a, h') /\ virt a h' x b' /\
                  Zlen a = Zlen (array s) /\ b' ≡ₚ b /\ heap_from (mem s) lo b'.
Proof.
  induction fuel as [|fuel IH]; intros s b x h lo Hv Hm Hs Hinv Hlo Hf.
  { destruct Hv as [Hh _]. lia. }
  pose proof Hv as (Hh & Hl & Hx & Hr). cbn [percolate_loop].
  assert (Hkx : kat (mem s) b h = key (mem s) x) by (unfold kat; by rewrite Hx).
  destruct (bool_decide_reflect (h * 2 + 1 <= cur_size s - 1)) as [H0|H0].
  2:{ exists (array s), h, b. split; [by destruct s|]. split; [done|]. split; [done|]. split; [done|].
      eapply down_done; [done|]. intros c Hc Hpc. pose proof (par_spec c ltac:(lia)). lia. }
  cbv zeta. destruct (heap_pick_child s b h Hm Hs ltac:(lia) ltac:(lia) ltac:(intros; apply Hr; lia)) as (c & -> & Hc & Hpc & Hmin).
  cbn [mbind outcome_bind]. assert (Hrc : rd (array s) c = Ok (b !! Z.to_nat c)) by (apply Hr; lia).
  rewrite (expire_at_ok s b c Hm ltac:(lia) Hrc). cbn [mbind outcome_bind].
  destruct (members_lookup _ _ _ _ Hm Hx) as (t & Ht & Hkt). unfold deref. rewrite Ht. cbn [mbind outcome_bind].
  destruct (bool_decide_reflect (kat (mem s) b c < expire t)) as [Hlt|Hge].
  2:{ exists (array s), h, b. split; [by destruct s|]. split; [done|]. split; [done|]. split; [done|].
      eapply down_done; [done|]. intros c' Hc' Hpc'. specialize (Hmin c' Hc' Hpc'). lia. }
  destruct (lookup_in_range b c ltac:(lia)) as [y Hy]. rewrite Hrc, Hy. cbn [mbind outcome_bind].
  destruct (virt_step _ _ _ _ c y Hv ltac:(lia) ltac:(lia) Hy) as (a1 & -> & Hv1 & Hl1). cbn [mbind outcome_bind].
  pose proof (swap_perm b h c x y Hh ltac:(lia) ltac:(lia) Hx Hy) as Hperm.
  destruct (IH (set_array s a1) (swap b h c x y) x c lo) as (a' & h' & b' & E & Hv' & Hl' & Hp' & Hheap);
    [exact Hv1 | eapply members_perm; [symmetry; exact Hperm|done] | by rewrite swap_len | | lia | rewrite swap_len; lia | ].
  { simpl. apply down_step; try done; lia. }
  exists a', h', b'. simpl in *. split; [exact E|]. split; [done|]. split; [congruence|]. split; [by rewrite Hp'|done].
Qed.

(** ** Representation *)

(** The heap holds the timers [b]. *)
Definition rep (s : time_heap) (b : list positive) : Prop :=
  filled (array s) b /\ cur_size s = Zlen b /\ Zlen (array s) = capacity s /\ Zlen b <= capacity s /\
  members (mem s) b /\ NoDup b.

Definition heap_ok (s : time_heap) (b : list positive) : Prop := rep s b /\ heap_from (mem s) 0 b.

Lemma percolate_down_ok s b h :
  rep s b -> heap_from (mem s) (h + 1) b -> 0 <= h < Zlen b ->
  exists a b', percolate_down s h = Ok (set_array s a) /\ rep (set_array s a) b' /\ b' ≡ₚ b /\ heap_from (mem s) h b'.
Proof.
  intros (Hf & Hs & Hcap & Hle & Hm & Hnd) Hheap Hh. unfold percolate_down.
  destruct (lookup_in_range b h Hh) as [x Hx]. rewrite (Hf h Hh), Hx. cbn [mbind outcome_bind].
  assert (Hv : virt (array s) h x b) by (apply filled_virt; auto; lia).
  destruct (percolate_loop_ok (S (Z.to_nat (cur_size s))) s b x h h) as (a & h' & b' & E & Hv' & Hl & Hp & Hheap');
    [done | done | done | | lia | lia | ].
  { split; [intros i Hi Hlo Hne; apply Hheap; lia|]. intros c Hc Hpc H0 Hlo. pose proof (par_spec h H0). lia. }
  rewrite E. cbn [mbind outcome_bind]. destruct (virt_fill _ _ _ _ Hv') as (a' & Ea & Hf' & Hl').
  cbn [array set_array]. rewrite Ea. cbn [mbind outcome_bind]. exists a', b'. split; [done|].
  assert (Hlen : Zlen b' = Zlen b) by (unfold Zlen; by rewrite Hp).
  split; [|done]. split; [done|]. split; [simpl; lia|]. split; [simpl; congruence|]. split; [simpl; lia|].
  split; [simpl; by eapply members_perm|]. by rewrite Hp.
Qed.

(** The first timer expires first. *)
Lemma heap_min m b i : heap_from m 0 b -> 0 <= i < Zlen b -> kat m b 0 <= kat m b i.
Proof.
  intros Hh. induction i as [i IH] using (well_founded_induction (Z.lt_wf 0)). intros Hi.
  destruct (decide (i = 0)) as [->|H0]; [lia|]. pose proof (par_spec i ltac:(lia)) as [Hp _].
  specialize (IH (par i) ltac:(lia) ltac:(lia)). specialize (Hh i ltac:(lia) ltac:(lia)). lia.
Qed.

Lemma heap_head_min m x b p : heap_from m 0 (x :: b) -> p ∈ x :: b -> key m x <= key m p.
Proof.
  intros Hh Hp. apply list_elem_of_lookup in Hp as [i Hi]. pose proof (lookup_lt_Some _ _ _ Hi) as Hl.
  pose proof (heap_min m (x :: b) (Z.of_nat i) Hh ltac:(unfold Zlen; lia)) as H. unfold kat in H.
  rewrite Nat2Z.id, Hi in H. exact H.
Qed.

(** The order depends on the keys of the timers in the heap only. *)
Lemma heap_from_ext m m' lo b :
  (forall p, p ∈ b -> key m p = key m' p) -> heap_from m lo b -> heap_from m' lo b.
Proof.
  intros He Hh i Hi Hlo. pose proof (par_spec i ltac:(lia)) as [Hp _].
  assert (Hk : forall j, 0 <= j < Zlen b -> kat m' b j = kat m b j).
  { intros j Hj. destruct (lookup_in_range b j Hj) as [p Hpj]. unfold kat. rewrite Hpj. symmetry. apply He.
    by eapply list_elem_of_lookup_2. }
  rewrite !Hk by lia. by apply Hh.
Qed.

(** ** Building a heap *)

Lemma heapify_loop_ok n : forall s b,
  rep s b -> heap_from (mem s) (Z.of_nat n) b -> Z.of_nat n <= Zlen b ->
  exists a b', heapify_loop n s = Ok (set_array s a) /\ heap_ok (set_array s a) b' /\ b' ≡ₚ b.
Proof.
  induction n as [|n IH]; intros s b Hrep Hheap Hn.
  { exists (array s), b. split; [by destruct s|]. by destruct s. }
  cbn [heapify_loop].
  destruct (percolate_down_ok s b (Z.of_nat n)) as (a & b1 & -> & Hrep1 & Hp1 & Hheap1); [done | | lia | ].
  { by replace (Z.of_nat n + 1) with (Z.of_nat (S n)) by lia. }
  cbn [mbind outcome_bind]. assert (Hlen : Zlen b1 = Zlen b) by (unfold Zlen; by rewrite Hp1).
  destruct (IH (set_array s a) b1 Hrep1 Hheap1 ltac:(lia)) as (a' & b' & E & Hok & Hp').
  exists a', b'. split; [exact E|]. split; [exact Hok|]. by rewrite Hp'.
Qed.

Lemma copy_loop_ok b : forall n i src dst,
  filled src b -> (forall j, 0 <= j < i -> rd dst j = Ok (b !! Z.to_nat j)) ->
  0 <= i -> i + Z.of_nat n = Zlen b -> Zlen b <= Zlen dst ->
  exists dst', copy_loop n i src dst = Ok dst' /\ filled dst' b /\ Zlen dst' = Zlen dst.
Proof.
  induction n as [|n IH]; intros i src dst Hs Hd Hi Hn Hl.
  { exists dst. split; [done|]. split; [|done]. intros j Hj. apply Hd. lia. }
  cbn [copy_loop]. rewrite (Hs i ltac:(lia)). cbn [mbind outcome_bind]. rewrite wr_in_range by lia.
  cbn [mbind outcome_bind].
  destruct (IH (i + 1) src (<[Z.to_nat i:=b !! Z.to_nat i]> dst)) as (dst' & E & Hf & Hl');
    [done | | lia | lia | by rewrite Zlen_insert | ].
  - intros j Hj. destruct (decide (j = i)) as [->|Hne]; [by rewrite rd_insert_eq by lia|].
    rewrite rd_insert_ne by lia. apply Hd. lia.
  - exists dst'. split; [done|]. split; [done|]. by rewrite Hl', Zlen_insert.
Qed.

Lemma new_array_ok n : 0 <= n -> exists a, new_array n = Some a /\ Zlen a = n.
Proof.
  intros Hn. unfold new_array. rewrite bool_decide_true by done. eexists. split; [done|].
  unfold Zlen. rewrite length_replicate. lia.
Qed.

Lemma heap_init_ok m b init cap :
  filled init b -> members m b -> NoDup b -> Zlen b <= cap ->
  exists s b', time_heap_init m init (Zlen b) cap = Ok (Some s) /\ heap_ok s b' /\ b' ≡ₚ b /\
               mem s = m /\ calls s = [] /\ capacity s = cap.
Proof.
  intros Hf Hm Hnd Hcap. pose proof (Zlen_nonneg b). unfold time_heap_init. rewrite bool_decide_false by lia.
  destruct (new_array_ok cap ltac:(lia)) as (a & -> & Ha).
  destruct (bool_decide_reflect (Zlen b <> 0)) as [H0|H0].
  - destruct (copy_loop_ok b (Z.to_nat (Zlen b)) 0 init a) as (a1 & -> & Hf1 & Hl1); [done | lia | lia | lia | lia | ].
    cbn [mbind outcome_bind]. rewrite Z.quot_div_nonneg by lia. pose proof (Z.div_mod (Zlen b - 1) 2). pose proof (Z.mod_pos_bound (Zlen b - 1) 2).
    destruct (heapify_loop_ok (Z.to_nat ((Zlen b - 1) `div` 2 + 1)) (Time_heap m a1 cap (Zlen b) []) b)
      as (a2 & b' & -> & Hok & Hp); [ | | lia | ].
    + split; [done|]. simpl. split; [done|]. split; [lia|]. done.
    + intros i Hi Hlo. pose proof (par_spec i ltac:(lia)). lia.
    + cbn [mbind outcome_bind]. eexists _, b'. split; [done|]. done.
  - assert (b = []) as -> by (destruct b; [done|]; rewrite Zlen_cons in H0; pose proof (Zlen_nonneg b); lia).
    eexists _, []. split; [done|]. split; [|done]. split.
    + split; [intros i; cbv [Zlen length]; lia|]. simpl. split; [done|]. split; [done|]. done.
    + intros i. cbv [Zlen length]. lia.
Qed.

(** ** Adding a timer *)

(** There is room for another timer, or the array can be doubled. *)
Definition can_grow (s : time_heap) : Prop := cur_size s < capacity s \/ (0 < capacity s /\ 2 * capacity s < 2 ^ 31).

Lemma make_room s b :
  rep s b -> can_grow s ->
  exists s', (if bool_decide (capacity s <= cur_size s) then resize s else Ok (Some s)) = Ok (Some s') /\
             rep s' b /\ mem s' = mem s /\ calls s' = calls s /\ cur_size s' < capacity s'.
Proof.
  intros (Hf & Hs & Hcap & Hle & Hm & Hnd) Hg. destruct (bool_decide_reflect (capacity s <= cur_size s)) as [Hfull|Hroom].
  - destruct Hg as [|[H0 H31]]; [lia|]. unfold resize.
    assert (Hs32 : s32 (2 * capacity s) = 2 * capacity s) by (unfold s32; rewrite Z.mod_small; change (2 ^ 31) with 2147483648 in *; lia). rewrite Hs32.
    destruct (new_array_ok (2 * capacity s) ltac:(lia)) as (t & -> & Ht).
    destruct (copy_loop_ok b (Z.to_nat (cur_size s)) 0 (array s) t) as (t' & -> & Hf' & Hl'); [done | lia | lia | lia | lia | ].
    cbn [mbind outcome_bind]. eexists. split; [done|]. split; [|split; [done|split; [done|simpl; lia]]].
    split; [done|]. simpl. split; [done|]. split; [lia|]. split; [lia|done].
  - exists s. split; [done|]. split; [done|]. split; [done|]. split; [done|lia].
Qed.

Lemma add_timer_ok s b p t :
  heap_ok s b -> can_grow s -> mem s !! p = Some t -> p ∉ b ->
  exists s' b', add_timer s (Some p) = Ok (Some s') /\ heap_ok s' b' /\ b' ≡ₚ p :: b /\
                mem s' = mem s /\ calls s' = calls s.
Proof.
  intros [Hrep Hheap] Hg Ht Hp. unfold add_timer.
  destruct (make_room s b Hrep Hg) as (s1 & -> & (Hf & Hs & Hcap & Hle & Hm & Hnd) & Em & Ec & Hroom).
  cbn [mbind outcome_bind]. rewrite <- Em in *. unfold deref. rewrite Ht. cbn [mbind outcome_bind].
  pose proof (Zlen_nonneg b).
  assert (Hk : expire t = key (mem s1) p) by (unfold key; by rewrite Ht). rewrite Hk.
  set (s2 := set_cur_size s1 (cur_size s1 + 1)).
  assert (Hlast : (b ++ [p]) !! Z.to_nat (cur_size s1) = Some p)
    by (rewrite Hs; unfold Zlen; rewrite Nat2Z.id; by rewrite list_lookup_middle).
  assert (Hlen : Zlen (b ++ [p]) = Zlen b + 1) by (unfold Zlen; rewrite length_app; simpl; lia).
  assert (Hk0 : forall i, 0 <= i < Zlen b -> kat (mem s1) (b ++ [p]) i = kat (mem s1) b i)
    by (intros i Hi; unfold kat; rewrite lookup_app_l; [done|unfold Zlen in Hi; lia]).
  destruct (percolate_up_ok (S (Z.to_nat (cur_size s1))) s2 (b ++ [p]) p (cur_size s1))
    as (a & h & b' & E & Hv & Hl & Hperm & Hheap'); [ | | | lia | ].
  - split; [lia|]. split; [simpl; lia|]. split; [done|]. intros i Hi Hne. simpl. rewrite (Hf i ltac:(lia)).
    f_equal. symmetry. apply lookup_app_l. unfold Zlen in *. lia.
  - apply Forall_app. split; [done|]. apply Forall_singleton. by exists t.
  - split.
    + intros i Hi Hne. pose proof (par_spec i ltac:(lia)). simpl. rewrite !Hk0 by lia. apply Hheap; lia.
    + intros c Hc Hpc H0. pose proof (par_spec c ltac:(lia)). lia.
  - change (mem s2) with (mem s1) in E. rewrite E. cbn [mbind outcome_bind].
    destruct (virt_fill _ _ _ _ Hv) as (a' & Ea & Hf' & Hl'). cbn [array set_array]. rewrite Ea. cbn [mbind outcome_bind].
    assert (Hlb : Zlen b' = Zlen b + 1) by (rewrite <- Hlen; unfold Zlen; by rewrite Hperm).
    assert (Hpb : b' ≡ₚ p :: b) by (rewrite Hperm; by rewrite Permutation_app_comm).
    eexists _, b'. split; [done|]. split; [|done]. split; [|exact Hheap'].
    split; [done|]. simpl in *. split; [lia|]. split; [lia|]. split; [lia|]. split.
    + eapply members_perm; [symmetry; exact Hpb|]. apply Forall_cons. split; [by exists t|done].
    + rewrite Hpb. by apply NoDup_cons.
Qed.

(** ** Removing the first timer *)

Lemma members_delete m x b : members m b -> x ∉ b -> members (base.delete x m) b.
Proof.
  unfold members. rewrite !Forall_forall. intros Hm Hx p Hp. rewrite lookup_delete_ne by (intros ->; done). by apply Hm.
Qed.

Lemma key_delete m x p : p <> x -> key (base.delete x m) p = key m p.
Proof. intros Hne. unfold key. by rewrite lookup_delete_ne. Qed.

(** The array after the last timer has been moved to the front. *)
Lemma move_last a x b0 z :
  filled a (x :: b0 ++ [z]) -> exists a', wr a 0 (Some z) = Ok a' /\ filled a' (z :: b0) /\ Zlen a' = Zlen a.
Proof.
  intros Hf. assert (Hla : Zlen (x :: b0 ++ [z]) <= Zlen a).
  { pose proof (Hf (Zlen (x :: b0)) ltac:(unfold Zlen; simpl; rewrite length_app; simpl; lia)) as H.
    apply rd_range in H. unfold Zlen in *. simpl in *. rewrite length_app. simpl. lia. }
  pose proof (Zlen_nonneg (b0 ++ [z])). rewrite Zlen_cons in Hla.
  rewrite wr_in_range by lia. eexists. split; [done|]. split; [|by rewrite Zlen_insert].
  intros i Hi. destruct (decide (i = 0)) as [->|H0].
  - rewrite rd_insert_eq by lia. done.
  - unfold Zlen in *. simpl in *. rewrite rd_insert_ne by lia.
    rewrite (Hf i) by (unfold Zlen; simpl; rewrite length_app; simpl in *; lia). f_equal.
    destruct (Z.to_nat i) as [|k] eqn:E; [lia|]. simpl. apply lookup_app_l. lia.
Qed.

Lemma heap_move_last m x b0 z : heap_from m 0 (x :: b0 ++ [z]) -> heap_from m 1 (z :: b0).
Proof.
  intros Hh i Hi Hlo. pose proof (par_spec i ltac:(lia)) as [Hp _].
  assert (Hk : forall j, 1 <= j < Zlen (z :: b0) -> kat m (z :: b0) j = kat m (x :: b0 ++ [z]) j).
  { intros j Hj. unfold kat, Zlen in *. simpl in Hj. destruct (Z.to_nat j) as [|k] eqn:E; [lia|]. simpl.
    rewrite lookup_app_l by lia. done. }
  rewrite !Hk by lia. apply Hh; [|lia]. unfold Zlen in *. simpl in *. rewrite length_app. simpl. lia.
Qed.

Lemma pop_timer_ok s x b :
  heap_ok s (x :: b) ->
  exists s' b', pop_timer s = Ok s' /\ heap_ok s' b' /\ b' ≡ₚ b /\ mem s' = base.delete x (mem s) /\
                calls s' = calls s /\ capacity s' = capacity s.
Proof.
  intros [(Hf & Hs & Hcap & Hle & Hm & Hnd) Hheap]. pose proof (Zlen_nonneg b). rewrite Zlen_cons in Hs, Hle.
  unfold pop_timer, empty_. rewrite bool_decide_false by lia.
  rewrite (Hf 0) by (rewrite Zlen_cons; lia). change ((x :: b) !! Z.to_nat 0) with (Some x). cbn [mbind outcome_bind].
  apply Forall_cons in Hm as [[t Ht] Hm]. apply NoDup_cons in Hnd as [Hx Hnd].
  unfold delete_, deref. rewrite Ht. cbn [mbind outcome_bind]. cbv zeta. cbn [array set_mem set_cur_size cur_size mem].
  destruct b as [|z b0 _] using rev_ind.
  - rewrite Hs. change (Zlen [] + 1 - 1) with 0. rewrite (Hf 0) by (cbv; done). change ([x] !! Z.to_nat 0) with (Some x).
    cbn [mbind outcome_bind].
    rewrite wr_in_range by lia. cbn [mbind outcome_bind]. unfold percolate_down. cbn [array set_array].
    rewrite rd_insert_eq by lia. cbn [mbind outcome_bind]. cbn [percolate_loop cur_size set_array set_cur_size set_mem].
    change (bool_decide (0 * 2 + 1 <= 0 - 1)) with false. cbn [mbind outcome_bind array set_array].
    rewrite wr_in_range by (rewrite Zlen_insert; lia). cbn [mbind outcome_bind].
    eexists _, []. split; [done|]. split; [|done]. split; [|intros i; cbv [Zlen length]; lia].
    split; [intros i; cbv [Zlen length]; lia|]. simpl. split; [done|]. split; [by rewrite !Zlen_insert|]. split; [lia|]. split; constructor.
  - assert (Hn : Zlen (b0 ++ [z]) = Zlen b0 + 1) by (unfold Zlen; rewrite length_app; simpl; lia).
    pose proof (Zlen_nonneg b0). rewrite Hs, Hn.
    rewrite (Hf (Zlen b0 + 1 + 1 - 1)) by (rewrite Zlen_cons; lia).
    assert (El : (x :: b0 ++ [z]) !! Z.to_nat (Zlen b0 + 1 + 1 - 1) = Some z).
    { replace (Z.to_nat (Zlen b0 + 1 + 1 - 1)) with (S (length b0)) by (unfold Zlen; lia). simpl. by apply list_lookup_middle. }
    rewrite El. cbn [mbind outcome_bind]. destruct (move_last _ _ _ _ Hf) as (a1 & -> & Hf1 & Hl1).
    cbn [mbind outcome_bind]. apply not_elem_of_app in Hx as [Hx0 Hxz].
    assert (Hxz' : x <> z) by (intros ->; apply Hxz; by apply list_elem_of_singleton).
    assert (Hperm : z :: b0 ≡ₚ b0 ++ [z]) by (by rewrite Permutation_app_comm).
    assert (Hxn : x ∉ z :: b0) by (apply not_elem_of_cons; done).
    set (s1 := set_array (set_cur_size (set_mem s (base.delete x (mem s))) (Zlen b0 + 1 + 1 - 1)) a1).
    destruct (percolate_down_ok s1 (z :: b0) 0) as (a2 & b' & E & Hrep & Hp & Hheap').
    + split; [done|]. simpl. split; [rewrite Zlen_cons; lia|]. split; [lia|]. split; [rewrite Zlen_cons; lia|].
      split; [|by rewrite Hperm]. apply members_delete; [|done]. eapply members_perm; [symmetry; exact Hperm|done].
    + eapply heap_from_ext; [|by eapply heap_move_last]. intros p Hp. symmetry. apply key_delete. by intros ->.
    + rewrite Zlen_cons. lia.
    + rewrite E. eexists _, b'. split; [done|]. split; [split; [exact Hrep|exact Hheap']|].
      split; [by rewrite Hp|]. done.
Qed.

(** ** Running the timers that are due *)

Lemma deref_ok s p t : mem s !! p = Some t -> deref s (Some p) = Ok t.
Proof. intros Ht. unfold deref. by rewrite Ht. Qed.

(** What the call-backs of some timers record. *)
Definition runs (m : gmap positive heap_timer) (ps : list positive) : list (Z * Z) :=
  omap (fun p => t ← m !! p; f ← cb_func t; Some (f, user_data t)) ps.

(** The timers taken out of a memory. *)
Definition without (m : gmap positive heap_timer) (ps : list positive) : gmap positive heap_timer :=
  foldl (fun m p => base.delete p m) m ps.

Lemma lookup_without ps : forall m p, without m ps !! p = if decide (p ∈ ps) then None else m !! p.
Proof.
  induction ps as [|q ps IH]; intros m p; simpl; [done|]. rewrite IH.
  destruct (decide (p ∈ ps)), (decide (p ∈ q :: ps)) as [H|H]; try done; rewrite elem_of_cons in H; try tauto.
  - destruct H as [->|]; [by rewrite lookup_delete_eq|done].
  - rewrite lookup_delete_ne; [done|]. intros ->. tauto.
Qed.

Definition earlier (m : gmap positive heap_timer) (p q : positive) : Prop := key m p <= key m q.

Lemma runs_ext m m' ps : (forall p, p ∈ ps -> m !! p = m' !! p) -> runs m ps = runs m' ps.
Proof.
  induction ps as [|p ps IH]; intros He; [done|]. unfold runs in *. cbn [omap list_omap].
  rewrite (He p) by (apply elem_of_cons; by left).
  rewrite IH by (intros q Hq; apply He; apply elem_of_cons; by right). done.
Qed.

Lemma tick_loop_ok cur fuel : forall s b,
  heap_ok s b -> 0 < capacity s -> Zlen b < Z.of_nat fuel ->
  forall tmp, rd (array s) 0 = Ok tmp ->
  exists s' b' fired, tick_loop fuel s cur tmp = Ok s' /\ heap_ok s' b' /\ b ≡ₚ fired ++ b' /\
    StronglySorted (earlier (mem s)) fired /\ Forall (fun p => key (mem s) p <= cur) fired /\
    Forall (fun p => cur < key (mem s) p) b' /\ mem s' = without (mem s) fired /\
    calls s' = calls s ++ runs (mem s) fired.
Proof.
  induction fuel as [|fuel IH]; intros s b Hok Hcap Hfuel tmp Htmp; [pose proof (Zlen_nonneg b); lia|].
  pose proof Hok as [(Hf & Hs & Hlen & Hle & Hm & Hnd) Hheap]. cbn [tick_loop]. unfold empty_. destruct b as [|x b].
  { rewrite bool_decide_true by done. exists s, [], []. split; [done|]. split; [done|]. split; [done|].
    split; [constructor|]. rewrite app_nil_r. done. }
  pose proof (Zlen_nonneg b). rewrite Zlen_cons in *. rewrite bool_decide_false by lia.
  assert (tmp = Some x) as ->.
  { rewrite (Hf 0) in Htmp by (rewrite Zlen_cons; lia). by injection Htmp. }
  pose proof Hm as Hm'. apply Forall_cons in Hm as [[t Ht] Hm]. apply NoDup_cons in Hnd as [Hx Hnd].
  assert (Hk : expire t = key (mem s) x) by (unfold key; by rewrite Ht).
  rewrite (deref_ok s x t Ht). cbn [mbind outcome_bind]. rewrite Hk.
  destruct (bool_decide_reflect (cur < key (mem s) x)) as [Hlt|Hge].
  { exists s, (x :: b), []. split; [done|]. split; [done|]. split; [done|]. split; [constructor|]. split; [done|].
    split; [|rewrite app_nil_r; done]. apply Forall_forall. intros p Hp. pose proof (heap_head_min _ _ _ _ Hheap Hp). lia. }
  rewrite Htmp. cbn [mbind outcome_bind]. rewrite (deref_ok s x t Ht). cbn [mbind outcome_bind]. cbv zeta.
  set (s1 := match cb_func t with Some f => add_call s (f, user_data t) | None => s end).
  assert (Hs1 : heap_ok s1 (x :: b) /\ mem s1 = mem s /\ capacity s1 = capacity s /\
                calls s1 = calls s ++ runs (mem s) [x]).
  { unfold s1, runs. simpl. rewrite Ht. simpl.
    destruct (cb_func t); simpl; [done|]. by rewrite app_nil_r. }
  destruct Hs1 as (Hok1 & Em1 & Ec1 & El1).
  destruct (pop_timer_ok s1 x b Hok1) as (s2 & b2 & -> & Hok2 & Hp2 & Em2 & El2 & Ec2). cbn [mbind outcome_bind].
  assert (Hl2 : Zlen b2 = Zlen b) by (unfold Zlen; by rewrite Hp2).
  pose proof Hok2 as [(_ & _ & Hlen2 & _) _].
  destruct (rd_in_range (array s2) 0 ltac:(lia)) as [tmp2 Htmp2]. rewrite Htmp2. cbn [mbind outcome_bind].
  destruct (IH s2 b2 Hok2 ltac:(lia) ltac:(lia) tmp2 Htmp2) as (s' & b' & fired & E & Hok' & Hp & Hso & Hdue & Hrest & Em & El).
  rewrite Em1 in Em2.
  assert (Hin : forall p, p ∈ fired ++ b' -> p ∈ b /\ p <> x).
  { intros p Hpin. rewrite <- Hp, Hp2 in Hpin. split; [done|]. by intros ->. }
  assert (Hkey : forall p, p ∈ fired ++ b' -> key (mem s2) p = key (mem s) p).
  { intros p Hpin. rewrite Em2. apply key_delete. by apply Hin. }
  exists s', b', (x :: fired). split; [done|]. split; [done|]. split; [simpl; by rewrite <- Hp, Hp2|].
  assert (Hkf : forall p, p ∈ fired -> key (mem s2) p = key (mem s) p) by (intros; apply Hkey; apply elem_of_app; by left).
  split; [|split; [|split; [|split]]].
  - constructor.
    + clear -Hso Hkf. induction Hso as [|p ps Hps IHs Hall]; [constructor|]. constructor.
      * apply IHs. intros q Hq. apply Hkf. apply elem_of_cons. by right.
      * rewrite Forall_forall in *. intros q Hq. specialize (Hall q Hq). unfold earlier in *.
        rewrite !Hkf in Hall by (rewrite elem_of_cons; auto). done.
    + apply Forall_forall. intros p Hpin. apply (heap_head_min (mem s) x b p Hheap). apply elem_of_cons. right.
      apply Hin. apply elem_of_app. by left.
  - apply Forall_cons. split; [lia|]. rewrite Forall_forall in *. intros p Hpin. rewrite <- Hkf by done. by apply Hdue.
  - rewrite Forall_forall in *. intros p Hpin. rewrite <- Hkey by (apply elem_of_app; by right). by apply Hrest.
  - simpl. by rewrite Em, Em2.
  - rewrite El, El2, El1, <- app_assoc. f_equal. rewrite <- (runs_ext (mem s) (mem s2) fired).
    + unfold runs. cbn [omap list_omap]. destruct (_ ≫= _); done.
    + intros p Hpin. rewrite Em2. symmetry. apply lookup_delete_ne. intros ->.
      destruct (Hin p ltac:(apply elem_of_app; by left)). done.
Qed.

(** ** Properties *)

(** C24: The time heap refines a priority queue.  On a heap that holds the timers [b],
    [add_timer] adds one (growing the array when it is full), [top] is a timer that no
    other one expires before, [pop_timer] removes and frees exactly that one, and the
    heap order holds again afterwards; an empty heap stays as it is. *)
Theorem time_heap_refines s b :
  heap_ok s b ->
  (forall p t, can_grow s -> mem s !! p = Some t -> p ∉ b ->
     exists s' b', add_timer s (Some p) = Ok (Some s') /\ heap_ok s' b' /\ b' ≡ₚ p :: b /\
                   mem s' = mem s /\ calls s' = calls s) /\
  (b = [] -> top s = Ok None /\ pop_timer s = Ok s) /\
  (b <> [] -> exists x s' b', top s = Ok (Some x) /\ (forall p, p ∈ b -> key (mem s) x <= key (mem s) p) /\
     pop_timer s = Ok s' /\ heap_ok s' b' /\ b ≡ₚ x :: b' /\ mem s' = base.delete x (mem s) /\ calls s' = calls s).
Proof.
  intros Hok. split; [|split].
  - intros p t Hg Ht Hp. by eapply add_timer_ok.
  - intros ->. destruct Hok as [(_ & Hs & _) _]. unfold top, pop_timer, empty_. by rewrite bool_decide_true.
  - intros Hne. destruct b as [|x b]; [done|]. destruct (pop_timer_ok s x b Hok) as (s' & b' & E & Hok' & Hp & Hm & Hc & _).
    pose proof Hok as [(Hf & Hs & _) Hheap]. rewrite Zlen_cons in Hs. pose proof (Zlen_nonneg b).
    exists x, s', b'. split; [|split; [|split; [done|split; [done|split; [by rewrite Hp|done]]]]].
    + unfold top, empty_. rewrite bool_decide_false by lia. apply (Hf 0). rewrite Zlen_cons. lia.
    + intros p Hpin. by eapply heap_head_min.
Qed.

(** Three timers, one of them due at the same time as another. *)
Definition timers : gmap positive heap_timer :=
  <[1%positive := Heap_timer 30 (Some 1) 11]> (<[2%positive := Heap_timer 10 (Some 1) 12]>
  (<[3%positive := Heap_timer 20 None 13]> (<[4%positive := Heap_timer 10 (Some 2) 14]> ∅))).

Definition three : list ptr := [Some 1; Some 2; Some 3]%positive.

Lemma three_filled : filled three [1; 2; 3]%positive.
Proof.
  intros i Hi. change (Zlen [1; 2; 3]%positive) with 3 in Hi.
  assert (i = 0 \/ i = 1 \/ i = 2) as [-> | [-> | ->]] by lia; done.
Qed.

Lemma time_heap_refines_witness :
  exists s b, heap_ok s b /\ b ≡ₚ [1; 2; 3]%positive /\
  (exists s' b', add_timer s (Some 4%positive) = Ok (Some s') /\ heap_ok s' b' /\ b' ≡ₚ 4%positive :: b /\
                 mem s' = mem s /\ calls s' = calls s) /\
  (b = [] -> top s = Ok None /\ pop_timer s = Ok s) /\
  (b <> [] -> exists x s' b', top s = Ok (Some x) /\ (forall p, p ∈ b -> key (mem s) x <= key (mem s) p) /\
     pop_timer s = Ok s' /\ heap_ok s' b' /\ b ≡ₚ x :: b' /\ mem s' = base.delete x (mem s) /\ calls s' = calls s).
Proof.
  destruct (heap_init_ok timers [1; 2; 3]%positive three 3 three_filled) as (s & b & E & Hok & Hp & Hm & _);
    [unfold members; by_compute | by_compute | done |].
  exists s, b. split; [exact Hok|]. split; [exact Hp|].
  destruct (time_heap_refines s b Hok) as (Hadd & Hemp & Hpop). split; [|split; [exact Hemp|exact Hpop]].
  apply (Hadd 4%positive (Heap_timer 10 (Some 2) 14)).
  - right. destruct Hok as [(_ & _ & Hc & Hl & _) _].
    vm_compute in E. injection E as <-. split; [done|]. by vm_compute.
  - by rewrite Hm.
  - rewrite Hp. by_compute.
Defined.

(** A heap built from any array of timers runs exactly the timers that are due.  At
    time [cur], [tick] calls the call-backs of the timers that expire at or before
    [cur], each once and in the order in which they expire, skipping those whose timer
    was deleted, frees all of these timers, and leaves a heap of the others, all of
    which expire later.  It returns after one turn for every timer that is due. *)
Lemma tick_runs_due m init b cap cur :
  filled init b -> members m b -> NoDup b -> Zlen b <= cap -> 0 < cap ->
  exists s s' rest fired,
    time_heap_init m init (Zlen b) cap = Ok (Some s) /\ tick s cur = Ok s' /\ heap_ok s' rest /\
    b ≡ₚ fired ++ rest /\ StronglySorted (earlier m) fired /\
    Forall (fun p => key m p <= cur) fired /\ Forall (fun p => cur < key m p) rest /\
    calls s' = runs m fired /\ forall p, mem s' !! p = if decide (p ∈ fired) then None else m !! p.
Proof.
  intros Hf Hm Hnd Hcap H0. destruct (heap_init_ok m b init cap Hf Hm Hnd Hcap) as (s & b1 & E & Hok & Hp & Em & Ec & Hcaps).
  pose proof Hok as [(_ & Hs & Hlen & Hle & _) _]. assert (Hl : Zlen b1 = Zlen b) by (unfold Zlen; by rewrite Hp).
  destruct (rd_in_range (array s) 0 ltac:(lia)) as [tmp Htmp].
  destruct (tick_loop_ok cur (S (Z.to_nat (cur_size s))) s b1 Hok ltac:(lia) ltac:(lia) tmp Htmp)
    as (s' & rest & fired & E' & Hok' & Hp' & Hso & Hdue & Hrest & Em' & El).
  exists s, s', rest, fired. unfold tick. rewrite Htmp. cbn [mbind outcome_bind]. rewrite Em in *.
  split; [done|]. split; [done|]. split; [done|]. split; [by rewrite <- Hp|]. split; [done|]. split; [done|].
  split; [done|]. split; [by rewrite El, Ec|]. intros p. rewrite Em'. apply lookup_without.
Qed.

(** A tick at time 20: timer 2 is run, then timer 3, which was deleted, is dropped. *)
Lemma tick_runs_due_witness :
  exists s s' rest fired,
    time_heap_init timers three 3 3 = Ok (Some s) /\ tick s 20 = Ok s' /\ heap_ok s' rest /\
    [1; 2; 3]%positive ≡ₚ fired ++ rest /\ StronglySorted (earlier timers) fired /\
    Forall (fun p => key timers p <= 20) fired /\ Forall (fun p => 20 < key timers p) rest /\
    calls s' = runs timers fired /\ forall p, mem s' !! p = if decide (p ∈ fired) then None else timers !! p.
Proof.
  apply (tick_runs_due timers three [1; 2; 3]%positive 3 20 three_filled);
    [unfold members; by_compute | by_compute | done | done].
Defined.

Example tick_at_20 :
  match time_heap_init timers three 3 3 with
  | Ok (Some s) => match tick s 20 with Ok s => calls s = [(1, 12)] | _ => False end
  | _ => False
  end.
Proof. by vm_compute. Qed.

(** Timers that expire in the future are all that is left after a tick; a deleted one
    stays in the heap until then. *)
Lemma del_timer_keeps s b p t :
  heap_ok s b -> mem s !! p = Some t ->
  exists s', del_timer s (Some p) = Ok s' /\ heap_ok s' b /\ runs (mem s') [p] = [] /\
             forall q, q <> p -> runs (mem s') [q] = runs (mem s) [q].
Proof.
  intros [(Hf & Hs & Hc & Hl & Hm & Hnd) Hheap] Ht. unfold del_timer. rewrite (deref_ok s p t Ht). cbn [mbind outcome_bind].
  assert (Hk : forall q, key (<[p:=Heap_timer (expire t) None (user_data t)]> (mem s)) q = key (mem s) q).
  { intros q. unfold key. destruct (decide (q = p)) as [->|Hne]; [by rewrite lookup_insert_eq, Ht|].
    by rewrite lookup_insert_ne by done. }
  eexists. split; [done|]. split; [split|split].
  - split; [done|]. split; [done|]. split; [done|]. split; [done|]. split; [|done]. simpl. unfold members in *.
    rewrite Forall_forall in *. intros q Hq. destruct (decide (q = p)) as [->|Hne]; [rewrite lookup_insert_eq; eauto|].
    rewrite lookup_insert_ne by done. by apply Hm.
  - simpl. eapply heap_from_ext; [|exact Hheap]. intros q _. symmetry. apply Hk.
  - unfold runs. simpl. by rewrite lookup_insert_eq.
  - intros q Hq. unfold runs. simpl. by rewrite lookup_insert_ne.
Qed.

(** A heap without capacity cannot grow: doubling it leaves it at 0, and the first
    timer is written outside the array; a tick reads outside it. *)
Example no_capacity :
  match time_heap_cap timers 0 with
  | Some s => add_timer s (Some 1%positive) = Fault OutOfBounds /\ tick s 0 = Fault OutOfBounds
  | None => False
  end.
Proof. by vm_compute. Qed.
