(* ===== verification/DList.v ===== *)
(** * Doubly linked lists

    The timers of the sorted timer list and of the timing wheel are nodes with a
    [prev] and a [next] pointer.  A memory of such nodes; the lists in it as sequences
    of pointers; and the lemma that joins two lists, on which insertion and removal
    rest. *)

From stdpp Require Import base numbers list gmap.
From S2P Require Import Prelude.

Abbreviation ptr := (option positive).

(** A node with its other fields [dat]. *)
Record dnode (A : Type) := DNode { dat : A; prev : ptr; next : ptr }.
Arguments DNode {A} dat prev next.
Arguments dat {A} _.
Arguments prev {A} _.
Arguments next {A} _.

Section DList.
Context {A : Type}.
Implicit Types (m : gmap positive (dnode A)) (l ps : list positive) (p q : positive) (x y : ptr).

(** ** Accesses of the code *)

(** [x->...]; a freed node is gone. *)
Definition get_node m x : outcome (dnode A) :=
  match x with
  | None => Fault NullDeref
  | Some p => match m !! p with Some n => Ok n | None => Fault NullDeref end
  end.

Definition with_next (v : ptr) (n : dnode A) : dnode A := DNode (dat n) (prev n) v.
Definition with_prev (v : ptr) (n : dnode A) : dnode A := DNode (dat n) v (next n).

(** [x->next = v;] and [x->prev = v;] *)
Definition put_next m x v : outcome (gmap positive (dnode A)) :=
  match x with
  | None => Fault NullDeref
  | Some p => _ ← get_node m x; Ok (alter (with_next v) p m)
  end.
Definition put_prev m x v : outcome (gmap positive (dnode A)) :=
  match x with
  | None => Fault NullDeref
  | Some p => _ ← get_node m x; Ok (alter (with_prev v) p m)
  end.

(** [delete x;] *)
Definition free_node m x : outcome (gmap positive (dnode A)) :=
  match x with
  | None => Ok m
  | Some p => _ ← get_node m x; Ok (base.delete p m)
  end.

(** ** Lists *)

Definition headp l : ptr := head l.
Definition lastp (x : ptr) l : ptr := match last l with Some p => Some p | None => x end.

(** The nodes [ps] in a row: [x] points to the first, whose [prev] is [y]; the [next] of
    the last is [z]. *)
Fixpoint dseg m x y ps (z : ptr) : Prop :=
  match ps with
  | [] => x = z
  | p :: ps => x = Some p /\ exists n, m !! p = Some n /\ prev n = y /\ dseg m (next n) (Some p) ps z
  end.

(** A whole list. *)
Definition dlist m ps : Prop := dseg m (headp ps) None ps None /\ NoDup ps.

Lemma lastp_app x l1 l2 : lastp x (l1 ++ l2) = lastp (lastp x l1) l2.
Proof. unfold lastp. rewrite last_app. by destruct (last l2). Qed.

Lemma lastp_cons x p l : lastp x (p :: l) = lastp (Some p) l.
Proof. apply (lastp_app x [p] l). Qed.

Lemma dseg_app m l1 : forall x y l2 z,
  dseg m x y (l1 ++ l2) z <-> exists w, dseg m x y l1 w /\ dseg m w (lastp y l1) l2 z.
Proof.
  induction l1 as [|p l1 IH]; intros x y l2 z; simpl.
  - split; [intros H; by exists x|]. by intros (w & -> & H).
  - rewrite lastp_cons. split.
    + intros (-> & n & Hn & Hp & H). apply IH in H as (w & H1 & H2). exists w. split; [|done]. split; [done|]. by exists n.
    + intros (w & (-> & n & Hn & Hp & H1) & H2). split; [done|]. exists n. split; [done|]. split; [done|]. apply IH. by exists w.
Qed.

Lemma dseg_head m x y l z : dseg m x y l z -> x = match l with [] => z | p :: _ => Some p end.
Proof. destruct l; simpl; [done|by intros [-> _]]. Qed.

(** Only the nodes of the list matter. *)
Lemma dseg_frame m m' l : forall x y z, (forall p, p ∈ l -> m' !! p = m !! p) -> dseg m x y l z -> dseg m' x y l z.
Proof.
  induction l as [|p l IH]; intros x y z Hm; simpl; [done|]. intros (-> & n & Hn & Hp & H). split; [done|]. exists n.
  split; [rewrite Hm; [done|apply elem_of_cons; by left]|]. split; [done|]. apply IH; [|done].
  intros q Hq. apply Hm. apply elem_of_cons. by right.
Qed.

Lemma dseg_in m x y l z p : dseg m x y l z -> p ∈ l -> is_Some (m !! p).
Proof.
  revert x y. induction l as [|q l IH]; intros x y; simpl; [intros _ H; by apply elem_of_nil in H|].
  intros (_ & n & Hn & _ & H) Hp. apply elem_of_cons in Hp as [->|Hp]; [by exists n|]. by eapply IH.
Qed.

(** Changing the first [prev] or the last [next], if there is one. *)
Definition setp m x v := match x with Some p => alter (with_prev v) p m | None => m end.
Definition setn m x v := match x with Some p => alter (with_next v) p m | None => m end.

Lemma dseg_setp m x y l z v : dseg m x y l z -> NoDup l -> dseg (setp m (headp l) v) x v l z.
Proof.
  destruct l as [|p l]; [done|]. simpl. intros (-> & n & Hn & Hp & H) [Hin _]%NoDup_cons. split; [done|].
  exists (with_prev v n). rewrite lookup_alter_eq, Hn. split; [done|]. split; [done|]. simpl.
  eapply dseg_frame; [|exact H]. intros q Hq. apply lookup_alter_ne. by intros ->.
Qed.

Lemma dseg_setn m x y l z v :
  dseg m x y l z -> NoDup l -> dseg (setn m (lastp None l) v) (match l with [] => v | _ => x end) y l v.
Proof.
  destruct l as [|q l _] using rev_ind; [done|]. intros H [_ [Hd _]]%NoDup_app. apply dseg_app in H as (w & H1 & H2).
  simpl in H2. destruct H2 as (-> & n & Hn & Hp & Hnx). rewrite lastp_app. simpl.
  replace (match l ++ [q] with [] => v | _ => x end) with x by (by destruct l).
  apply dseg_app. exists (Some q). split.
  - eapply dseg_frame; [|exact H1]. intros p Hin. apply lookup_alter_ne. intros ->. apply (Hd p Hin). by apply list_elem_of_singleton.
  - split; [done|]. exists (with_next v n). rewrite lookup_alter_eq, Hn. done.
Qed.

(** Two rows are joined by making the last of the one and the first of the other point
    at each other. *)
Lemma dseg_join m l1 l2 x1 y1 z1 x2 y2 z2 :
  dseg m x1 y1 l1 z1 -> dseg m x2 y2 l2 z2 -> NoDup (l1 ++ l2) -> (l2 = [] -> x2 = z2) ->
  dseg (setp (setn m (lastp None l1) x2) (headp l2) (lastp y1 l1)) (match l1 with [] => x2 | _ => x1 end) y1 (l1 ++ l2) z2.
Proof.
  intros H1 H2 [Hn1 [Hd Hn2]]%NoDup_app Hx. apply dseg_app. exists x2. split.
  - assert (H1' := dseg_setn _ _ _ _ _ x2 H1 Hn1). eapply dseg_frame; [|exact H1'].
    intros p Hp. destruct l2 as [|q l2]; [done|]. simpl. apply lookup_alter_ne. intros ->. apply (Hd p Hp).
    apply elem_of_cons. by left.
  - assert (H2' : dseg (setn m (lastp None l1) x2) x2 y2 l2 z2).
    { eapply dseg_frame; [|exact H2]. intros p Hp. unfold lastp. destruct (last l1) as [q|] eqn:El; [|done]. simpl.
      apply lookup_alter_ne. intros ->. apply (Hd p); [|done]. apply last_Some in El as [l' ->].
      apply elem_of_app. right. by apply list_elem_of_singleton. }
    by apply (dseg_setp _ _ _ _ _ (lastp y1 l1) H2').
Qed.

(** ** Changes of links keep the data *)

Definition data m p : option A := dat <$> m !! p.

Lemma data_setp m x v p : data (setp m x v) p = data m p.
Proof.
  unfold data, setp. destruct x as [q|]; [|done]. destruct (decide (p = q)) as [->|Hne].
  - rewrite lookup_alter_eq. by destruct (m !! q).
  - by rewrite lookup_alter_ne.
Qed.

Lemma data_setn m x v p : data (setn m x v) p = data m p.
Proof.
  unfold data, setn. destruct x as [q|]; [|done]. destruct (decide (p = q)) as [->|Hne].
  - rewrite lookup_alter_eq. by destruct (m !! q).
  - by rewrite lookup_alter_ne.
Qed.

Lemma data_some m p : is_Some (data m p) <-> is_Some (m !! p).
Proof. unfold data. destruct (m !! p); simpl; split; intros [? H]; by eauto. Qed.

Lemma get_node_ok m p : is_Some (m !! p) -> exists n, get_node m (Some p) = Ok n /\ m !! p = Some n.
Proof. intros [n Hn]. exists n. simpl. by rewrite Hn. Qed.

Lemma put_next_ok m p v : is_Some (m !! p) -> put_next m (Some p) v = Ok (setn m (Some p) v).
Proof. intros [n Hn]. unfold put_next, get_node. by rewrite Hn. Qed.

Lemma put_prev_ok m p v : is_Some (m !! p) -> put_prev m (Some p) v = Ok (setp m (Some p) v).
Proof. intros [n Hn]. unfold put_prev, get_node. by rewrite Hn. Qed.

Lemma free_node_ok m p : is_Some (m !! p) -> free_node m (Some p) = Ok (base.delete p m).
Proof. intros [n Hn]. unfold free_node, get_node. by rewrite Hn. Qed.

Lemma setn_some m x v p : is_Some (setn m x v !! p) <-> is_Some (m !! p).
Proof. rewrite <- !data_some. by rewrite data_setn. Qed.

Lemma setp_some m x v p : is_Some (setp m x v !! p) <-> is_Some (m !! p).
Proof. rewrite <- !data_some. by rewrite data_setp. Qed.

Lemma setp_setn m x v y w : setp (setn m x v) y w = setn (setp m y w) x v.
Proof.
  destruct x as [p|], y as [q|]; try done. apply map_eq. intros r. simpl.
  rewrite !lookup_alter. repeat case_decide; subst; try done. by destruct (m !! r).
Qed.

Lemma setp_setp m x v y w : x <> y -> setp (setp m x v) y w = setp (setp m y w) x v.
Proof.
  intros Hne. destruct x as [p|], y as [q|]; try done. apply map_eq. intros r. simpl.
  rewrite !lookup_alter. repeat case_decide; subst; done.
Qed.

(** The pieces of a list around one of its nodes. *)
Lemma dlist_around m l1 p l2 :
  dlist m (l1 ++ p :: l2) ->
  dseg m (headp (l1 ++ p :: l2)) None l1 (Some p) /\
  (exists n, m !! p = Some n /\ prev n = lastp None l1 /\ next n = headp l2) /\
  dseg m (headp l2) (Some p) l2 None /\ NoDup (l1 ++ l2) /\ (p ∉ l1 ++ l2).
Proof.
  intros [H Hnd]. apply dseg_app in H as (w & H1 & H2). simpl in H2. destruct H2 as (-> & n & Hn & Hp & H2).
  split; [done|]. pose proof (dseg_head _ _ _ _ _ H2) as Hh. assert (Hnx : next n = headp l2) by (by destruct l2).
  split; [by exists n|]. rewrite <- Hnx. split; [done|]. rewrite <- Permutation_middle in Hnd.
  apply NoDup_cons in Hnd. tauto.
Qed.

(** Taking a node out of a list, and putting one into it. *)
Definition unlinked m l1 l2 := setp (setn m (lastp None l1) (headp l2)) (headp l2) (lastp None l1).

Lemma dlist_unlink m l1 p l2 : dlist m (l1 ++ p :: l2) -> dlist (unlinked m l1 l2) (l1 ++ l2).
Proof.
  intros H. destruct (dlist_around _ _ _ _ H) as (H1 & _ & H2 & Hnd & _). split; [|done].
  pose proof (dseg_join m l1 l2 _ _ _ _ _ _ H1 H2 Hnd ltac:(by intros ->)) as Hj. unfold unlinked.
  by destruct l1.
Qed.

Definition linked_in m l1 p l2 :=
  setp (setn (setp (setn m (lastp None l1) (Some p)) (Some p) (lastp None l1)) (Some p) (headp l2)) (headp l2) (Some p).

Lemma dlist_link m l1 p l2 :
  dlist m (l1 ++ l2) -> is_Some (m !! p) -> (p ∉ l1 ++ l2) -> dlist (linked_in m l1 p l2) (l1 ++ p :: l2).
Proof.
  intros [H Hnd] [n Hn] Hp. apply dseg_app in H as (w & H1 & H2).
  assert (Hnd' : NoDup ((l1 ++ [p]) ++ l2)).
  { rewrite <- app_assoc. simpl. rewrite <- Permutation_middle. by apply NoDup_cons. }
  pose proof Hnd' as [Hnd1 [Hdis _]]%NoDup_app.
  assert (Hw : w = headp l2) by (apply dseg_head in H2; by destruct l2).
  pose proof (dseg_join m l1 [p] (headp (l1 ++ l2)) None w (Some p) (prev n) (next n) H1 ltac:(simpl; eauto) Hnd1 ltac:(done)) as Hj1.
  simpl in Hj1. set (m1 := alter (with_prev (lastp None l1)) p (setn m (lastp None l1) (Some p))) in *.
  assert (H2' : dseg m1 (headp l2) (lastp None l1) l2 None).
  { rewrite <- Hw. eapply dseg_frame; [|exact H2]. intros q Hq. unfold m1.
    assert (q <> p) by (intros ->; apply Hp; apply elem_of_app; by right).
    rewrite lookup_alter_ne by done. unfold lastp. destruct (last l1) as [r|] eqn:El; [|done]. simpl.
    apply lookup_alter_ne. intros ->. apply (Hdis q); [|done]. apply last_Some in El as [l' ->].
    apply elem_of_app. left. apply elem_of_app. right. by apply list_elem_of_singleton. }
  pose proof (dseg_join m1 (l1 ++ [p]) l2 _ _ _ _ _ _ Hj1 H2' Hnd' ltac:(by intros ->)) as Hj2.
  rewrite !lastp_app in Hj2. change (lastp (lastp None l1) [p]) with (Some p) in Hj2. rewrite <- app_assoc in Hj2.
  split; [|by rewrite <- app_assoc in Hnd']. unfold linked_in. simpl in *. destruct l1; exact Hj2.
Qed.

(** ** The data and the nodes of a list *)

(** Only links have changed. *)
Definition same_data (m m' : gmap positive (dnode A)) : Prop := forall q, data m' q = data m q.

Lemma dlist_size (m : gmap positive (dnode A)) ps : dlist m ps -> (length ps <= size m)%nat.
Proof.
  intros [H Hnd]. rewrite <- size_dom. rewrite <- (size_list_to_set (C := gset positive)) by done. apply subseteq_size.
  intros p Hp. apply elem_of_list_to_set in Hp. apply elem_of_dom. by eapply dseg_in.
Qed.

Lemma dlist_in (m : gmap positive (dnode A)) ps p : dlist m ps -> p ∈ ps -> is_Some (m !! p).
Proof. intros [H _]. by apply dseg_in with (1 := H). Qed.

Lemma linked_in_data (m : gmap positive (dnode A)) l1 p l2 : same_data m (linked_in m l1 p l2).
Proof. intros q. unfold linked_in. by rewrite data_setp, data_setn, data_setp, data_setn. Qed.

Lemma unlinked_data (m : gmap positive (dnode A)) l1 l2 : same_data m (unlinked m l1 l2).
Proof. intros q. unfold unlinked. by rewrite data_setp, data_setn. Qed.

Lemma same_data_some m m' q : same_data m m' -> is_Some (m !! q) -> is_Some (m' !! q).
Proof. intros H. rewrite <- !data_some. by rewrite H. Qed.

Lemma setp_same (m : gmap positive (dnode A)) p n v : m !! p = Some n -> prev n = v -> setp m (Some p) v = m.
Proof.
  intros Hn <-. apply map_eq. intros q. simpl. destruct (decide (q = p)) as [->|Hne].
  - rewrite lookup_alter_eq, Hn. by destruct n.
  - by rewrite lookup_alter_ne.
Qed.

Lemma dlist_delete (m : gmap positive (dnode A)) ps p : dlist m ps -> (p ∉ ps) -> dlist (base.delete p m) ps.
Proof.
  intros [H Hnd] Hp. split; [|done]. eapply dseg_frame; [|exact H]. intros q Hq. apply lookup_delete_ne. by intros ->.
Qed.

(** The data after timers have been freed. *)
Definition freed (m m' : gmap positive (dnode A)) (ps : list positive) : Prop :=
  forall q, data m' q = if decide (q ∈ ps) then None else data m q.

Lemma freed_delete m m' p : same_data m m' -> freed m (base.delete p m') [p].
Proof.
  intros Hs q. unfold data. destruct (decide (q ∈ [p])) as [E|E]; rewrite list_elem_of_singleton in E.
  - subst q. by rewrite lookup_delete_eq.
  - rewrite lookup_delete_ne by congruence. apply Hs.
Qed.

Lemma headp_mid (l1 : list positive) p l2 : headp (l1 ++ p :: l2) = Some p -> NoDup (l1 ++ p :: l2) -> l1 = [].
Proof.
  destruct l1 as [|q l1]; [done|]. simpl. intros [= ->] [Hin _]%NoDup_cons. exfalso. apply Hin. apply elem_of_app. right.
  apply elem_of_cons. by left.
Qed.

Lemma lastp_in (l : list positive) : l <> [] -> exists r, lastp None l = Some r /\ last l = Some r /\ r ∈ l.
Proof.
  destruct l as [|r l _] using rev_ind; [done|]. intros _. exists r. rewrite lastp_app, last_snoc. split; [done|].
  split; [done|]. apply elem_of_app. right. by apply list_elem_of_singleton.
Qed.

Lemma get_node_eq (m : gmap positive (dnode A)) p n : m !! p = Some n -> get_node m (Some p) = Ok n.
Proof. intros Hn. simpl. by rewrite Hn. Qed.

(** The data play no part in the links. *)
Lemma dseg_links (m m' : gmap positive (dnode A)) l : forall x y z,
  (forall p, (fun n => (prev n, next n)) <$> m' !! p = (fun n => (prev n, next n)) <$> m !! p) ->
  dseg m x y l z -> dseg m' x y l z.
Proof.
  induction l as [|p l IH]; intros x y z Hm; simpl; [done|]. intros (-> & n & Hn & Hp & H). split; [done|].
  specialize (IH (next n) (Some p) z Hm H). specialize (Hm p). rewrite Hn in Hm. destruct (m' !! p) as [n'|] eqn:En; [|done].
  exists n'. injection Hm as E1 E2. split; [done|]. split; [congruence|]. by rewrite E2.
Qed.

(** What is not in the list stays as it is. *)
Lemma unlinked_other m l1 l2 q : (q ∉ l1 ++ l2) -> unlinked m l1 l2 !! q = m !! q.
Proof.
  intros Hq. unfold unlinked. transitivity (setn m (lastp None l1) (headp l2) !! q).
  - destruct l2 as [|r l2]; [done|]. simpl. apply lookup_alter_ne. intros ->. apply Hq. apply elem_of_app. right.
    apply elem_of_cons. by left.
  - destruct (decide (l1 = [])) as [->|Hne]; [done|]. destruct (lastp_in l1 Hne) as (r & -> & _ & Hr).
    simpl. apply lookup_alter_ne. intros ->. apply Hq. apply elem_of_app. by left.
Qed.

Lemma setp_delete m p x v : x <> Some p -> setp (base.delete p m) x v = base.delete p (setp m x v).
Proof.
  intros Hx. destruct x as [q|]; [|done]. apply map_eq. intros r. simpl. rewrite lookup_alter, !lookup_delete, lookup_alter.
  repeat case_decide; subst; done.
Qed.

Lemma dlist_frame m m' ps : (forall q, q ∈ ps -> m' !! q = m !! q) -> dlist m ps -> dlist m' ps.
Proof. intros Hm [H Hnd]. split; [|done]. by eapply dseg_frame. Qed.

Lemma headp_in l p : headp l = Some p -> p ∈ l.
Proof. destruct l as [|q l]; [done|]. intros [= ->]. apply elem_of_cons. by left. Qed.
End DList.
