(* ===== verification/SortTimer.v ===== *)
(** * The sorted timer list

    src/src/Linux High Perfermance Server Program/codes/11/11-2lst_timer.h: timers in a
    doubly linked list, in the order in which they expire.  Every operation is shown to
    do on the list in memory what the corresponding operation does on a sorted sequence,
    and [tick] to run the timers that are due. *)

From stdpp Require Import base numbers list list_numbers gmap sorting.
From S2P Require Import Prelude DList.

#[local] Open Scope Z_scope.

(** The fields of [util_timer] besides its links; a call-back is known by a number. *)
Record util_timer := Util_timer { expire : Z; cb_func : option Z; user_data : Z }.

Record sort_timer_lst := Lst {
  mem : gmap positive (dnode util_timer);
  head_ : ptr;
  tail_ : ptr;
  calls : list (Z * Z);
}.

Definition set_mem (s : sort_timer_lst) x := Lst x (head_ s) (tail_ s) (calls s).
Definition set_head (s : sort_timer_lst) x := Lst (mem s) x (tail_ s) (calls s).
Definition set_tail (s : sort_timer_lst) x := Lst (mem s) (head_ s) x (calls s).

Definition empty_lst (m : gmap positive (dnode util_timer)) : sort_timer_lst := Lst m None None [].

Definition expire_of (m : gmap positive (dnode util_timer)) (x : ptr) : outcome Z :=
  n ← get_node m x;
  Ok (expire (dat n)).

(** The loop of the private [add_timer] and the test after it; every turn goes to
    another node, so the number of nodes is enough fuel. *)
Fixpoint add_loop (fuel : nat) (s : sort_timer_lst) (timer prev tmp : ptr) : outcome sort_timer_lst :=
  match fuel with
  | O => Fault OutOfFuel
  | S fuel =>
      match tmp with
      | Some _ =>
          e ← expire_of (mem s) timer;
          et ← expire_of (mem s) tmp;
          if bool_decide (e < et) then
            m ← put_next (mem s) prev timer;
            m ← put_next m timer tmp;
            m ← put_prev m tmp timer;
            m ← put_prev m timer prev;
            Ok (set_mem s m)
          else
            n ← get_node (mem s) tmp;
            add_loop fuel s timer tmp (next n)
      | None =>
          m ← put_next (mem s) prev timer;
          m ← put_prev m timer prev;
          m ← put_next m timer None;
          Ok (set_tail (set_mem s m) timer)
      end
  end.

Definition add_after (s : sort_timer_lst) (timer lst_head : ptr) : outcome sort_timer_lst :=
  n ← get_node (mem s) lst_head;
  add_loop (S (size (mem s))) s timer lst_head (next n).

Definition add_timer (s : sort_timer_lst) (timer : ptr) : outcome sort_timer_lst :=
  match timer with
  | None => Ok s
  | Some _ =>
      match head_ s with
      | None => Ok (Lst (mem s) timer timer (calls s))
      | Some _ =>
          e ← expire_of (mem s) timer;
          eh ← expire_of (mem s) (head_ s);
          if bool_decide (e < eh) then
            m ← put_next (mem s) timer (head_ s);
            m ← put_prev m (head_ s) timer;
            Ok (set_head (set_mem s m) timer)
          else add_after s timer (head_ s)
      end
  end.

Definition adjust_timer (s : sort_timer_lst) (timer : ptr) : outcome sort_timer_lst :=
  match timer with
  | None => Ok s
  | Some _ =>
      n ← get_node (mem s) timer;
      stay ← (match next n with
              | None => Ok true
              | Some _ => e ← expire_of (mem s) (next n); Ok (bool_decide (expire (dat n) < e))
              end);
      if stay : bool then Ok s
      else if decide (timer = head_ s) then
        h ← get_node (mem s) (head_ s);
        let s := set_head s (next h) in
        m ← put_prev (mem s) (head_ s) None;
        m ← put_next m timer None;
        add_after (set_mem s m) timer (head_ s)
      else
        m ← put_next (mem s) (prev n) (next n);
        m ← put_prev m (next n) (prev n);
        add_after (set_mem s m) timer (next n)
  end.

Definition del_timer (s : sort_timer_lst) (timer : ptr) : outcome sort_timer_lst :=
  match timer with
  | None => Ok s
  | Some _ =>
      if decide (timer = head_ s /\ timer = tail_ s) then
        m ← free_node (mem s) timer;
        Ok (Lst m None None (calls s))
      else if decide (timer = head_ s) then
        h ← get_node (mem s) (head_ s);
        let s := set_head s (next h) in
        m ← put_prev (mem s) (head_ s) None;
        m ← free_node m timer;
        Ok (set_mem s m)
      else if decide (timer = tail_ s) then
        t ← get_node (mem s) (tail_ s);
        let s := set_tail s (prev t) in
        m ← put_next (mem s) (tail_ s) None;
        m ← free_node m timer;
        Ok (set_mem s m)
      else
        n ← get_node (mem s) timer;
        m ← put_next (mem s) (prev n) (next n);
        m ← put_prev m (next n) (prev n);
        m ← free_node m timer;
        Ok (set_mem s m)
  end.

(** The loop of [tick] at time [cur]; every turn frees a node. *)
Fixpoint tick_loop (fuel : nat) (s : sort_timer_lst) (cur : Z) (tmp : ptr) : outcome sort_timer_lst :=
  match fuel with
  | O => Fault OutOfFuel
  | S fuel =>
      match tmp with
      | None => Ok s
      | Some _ =>
          n ← get_node (mem s) tmp;
          if bool_decide (cur < expire (dat n)) then Ok s
          else
            match cb_func (dat n) with
            | None => Fault NullDeref
            | Some f =>
                let s := Lst (mem s) (next n) (tail_ s) (calls s ++ [(f, user_data (dat n))]) in
                m ← (match head_ s with Some _ => put_prev (mem s) (head_ s) None | None => Ok (mem s) end);
                m ← free_node m tmp;
                tick_loop fuel (set_mem s m) cur (head_ s)
            end
      end
  end.

Definition tick (s : sort_timer_lst) (cur : Z) : outcome sort_timer_lst :=
  match head_ s with
  | None => Ok s
  | Some _ => tick_loop (S (size (mem s))) s cur (head_ s)
  end.

(** The destructor. *)
Fixpoint destroy_loop (fuel : nat) (s : sort_timer_lst) (tmp : ptr) : outcome sort_timer_lst :=
  match fuel with
  | O => Fault OutOfFuel
  | S fuel =>
      match tmp with
      | None => Ok s
      | Some _ =>
          n ← get_node (mem s) tmp;
          m ← free_node (mem s) tmp;
          destroy_loop fuel (set_head (set_mem s m) (next n)) (next n)
      end
  end.

Definition destroy (s : sort_timer_lst) : outcome sort_timer_lst := destroy_loop (S (size (mem s))) s (head_ s).

(** ** Sorted sequences *)

Definition key (m : gmap positive (dnode util_timer)) (p : positive) : Z :=
  match data m p with Some d => expire d | None => 0 end.

Section Sorted.
Context (k : positive -> Z).

(** A timer goes behind those that expire at the same time. *)
Fixpoint ins (p : positive) (ps : list positive) : list positive :=
  match ps with
  | [] => [p]
  | q :: ps => if decide (k p < k q) then p :: q :: ps else q :: ins p ps
  end.

Definition sorted (ps : list positive) : Prop := StronglySorted (fun p q => k p <= k q) ps.

Lemma ins_perm p ps : ins p ps ≡ₚ p :: ps.
Proof. induction ps as [|q ps IH]; simpl; [done|]. destruct (decide _); [done|]. rewrite IH. by constructor. Qed.

Lemma ins_sorted p ps : sorted ps -> sorted (ins p ps).
Proof.
  intros H. induction H as [|q ps Hs IH Hall]; simpl; [repeat constructor|]. destruct (decide (k p < k q)) as [Hlt|Hge].
  - constructor; [by constructor|]. apply Forall_cons. split; [lia|]. eapply Forall_impl; [exact Hall|]. simpl. lia.
  - constructor; [done|]. rewrite (ins_perm p ps). apply Forall_cons. split; [lia|done].
Qed.

(** Behind timers that expire no later nothing changes. *)
Lemma ins_app p l1 l2 : Forall (fun q => k q <= k p) l1 -> ins p (l1 ++ l2) = l1 ++ ins p l2.
Proof. induction 1 as [|q l1 Hq _ IH]; simpl; [done|]. rewrite decide_False by lia. by rewrite IH. Qed.
End Sorted.

Lemma ins_ext k k' p ps : k p = k' p -> (forall q, q ∈ ps -> k q = k' q) -> ins k p ps = ins k' p ps.
Proof.
  intros Hp. induction ps as [|q ps IH]; intros Hq; simpl; [done|].
  rewrite Hp, (Hq q) by (apply elem_of_cons; by left). rewrite IH; [done|]. intros r Hr. apply Hq. apply elem_of_cons. by right.
Qed.

(** ** The list in memory *)

(** The timers of the list are [ps]; its [tail_] means nothing while it is empty. *)
Definition lst_ok (s : sort_timer_lst) (ps : list positive) : Prop :=
  dlist (mem s) ps /\ head_ s = headp ps /\ (ps <> [] -> tail_ s = last ps).

Lemma same_data_key m m' p : same_data m m' -> key m' p = key m p.
Proof. intros H. unfold key. by rewrite H. Qed.

Lemma expire_of_ok m p : is_Some (m !! p) -> expire_of m (Some p) = Ok (key m p).
Proof. intros [n Hn]. unfold expire_of, key, data, get_node. rewrite Hn. done. Qed.

Lemma last_app_cons (l1 : list positive) p l2 : last (l1 ++ p :: l2) = last (p :: l2).
Proof. rewrite last_app. by destruct (last (p :: l2)) eqn:E; [|apply last_None in E]. Qed.

Lemma last_snoc_cons (l1 : list positive) p q l2 : last (l1 ++ p :: q :: l2) = last (l1 ++ q :: l2).
Proof. by rewrite !last_app_cons, last_cons_cons. Qed.

Lemma add_loop_ok p fuel : forall l2 l1 pr s,
  lst_ok s (l1 ++ pr :: l2) -> is_Some (mem s !! p) -> (p ∉ l1 ++ pr :: l2) -> (length l2 < fuel)%nat ->
  exists s', add_loop fuel s (Some p) (Some pr) (headp l2) = Ok s' /\ lst_ok s' (l1 ++ pr :: ins (key (mem s)) p l2) /\
             same_data (mem s) (mem s') /\ calls s' = calls s.
Proof.
  induction fuel as [|fuel IH]; intros l2 l1 pr s Hok Hsp Hp Hf; [lia|]. pose proof Hok as (Hd & Hh & Ht).
  assert (Hpr : is_Some (mem s !! pr)) by (eapply dlist_in; [done|]; apply elem_of_app; right; apply elem_of_cons; by left).
  assert (Hlast : lastp None (l1 ++ [pr]) = Some pr) by (by rewrite lastp_app).
  destruct l2 as [|t l2]; cbn [add_loop headp head].
  - pose proof (dlist_link (mem s) (l1 ++ [pr]) p []) as Hl. rewrite !app_nil_r in Hl. specialize (Hl Hd Hsp Hp).
    pose proof (linked_in_data (mem s) (l1 ++ [pr]) p []) as Hsd. unfold linked_in in Hl, Hsd. rewrite Hlast in Hl, Hsd.
    rewrite put_next_ok by done. cbn [mbind outcome_bind]. rewrite put_prev_ok by (by apply setn_some).
    cbn [mbind outcome_bind]. rewrite put_next_ok by (by apply setp_some, setn_some). cbn [mbind outcome_bind].
    eexists. split; [done|]. split; [|done]. rewrite <- app_assoc in Hl. split; [exact Hl|]. simpl. split.
    + rewrite Hh. by destruct l1.
    + intros _. by rewrite last_app_cons.
  - assert (Hst : is_Some (mem s !! t)).
    { eapply dlist_in; [done|]. apply elem_of_app. right. apply elem_of_cons. right. apply elem_of_cons. by left. }
    rewrite !expire_of_ok by done. cbn [mbind outcome_bind ins]. rewrite bool_decide_decide.
    destruct (decide (key (mem s) p < key (mem s) t)) as [Hlt|Hge].
    + pose proof (dlist_link (mem s) (l1 ++ [pr]) p (t :: l2)) as Hl. rewrite <- !app_assoc in Hl. specialize (Hl Hd Hsp Hp).
      pose proof (linked_in_data (mem s) (l1 ++ [pr]) p (t :: l2)) as Hsd. unfold linked_in in Hl, Hsd.
      rewrite Hlast in Hl, Hsd. cbn [headp head] in Hl, Hsd.
      assert (Htp : t <> p) by (intros ->; apply Hp; apply elem_of_app; right; apply elem_of_cons; right; apply elem_of_cons; by left).
      rewrite put_next_ok by done. cbn [mbind outcome_bind]. rewrite put_next_ok by (by apply setn_some). cbn [mbind outcome_bind].
      rewrite put_prev_ok by (by apply setn_some, setn_some). cbn [mbind outcome_bind].
      rewrite put_prev_ok by (by apply setp_some, setn_some, setn_some). cbn [mbind outcome_bind].
      rewrite (setp_setp _ (Some t)) by congruence. rewrite (setp_setn _ (Some p)). eexists. split; [done|]. split; [|done].
      split; [exact Hl|]. simpl. split; [rewrite Hh; by destruct l1|]. intros _. rewrite Ht by (by destruct l1).
      by rewrite !last_app_cons, !last_cons_cons.
    + destruct (dlist_around (mem s) (l1 ++ [pr]) t l2) as (_ & (n & Hn & _ & Hnx) & _); [by rewrite <- app_assoc|].
      unfold get_node. rewrite Hn. cbn [mbind outcome_bind]. rewrite Hnx.
      destruct (IH l2 (l1 ++ [pr]) t s) as (s' & E & Hok' & Hsd & Hc); [by rewrite <- app_assoc | done | by rewrite <- app_assoc |
        simpl in Hf; lia |]. exists s'. split; [exact E|]. rewrite <- app_assoc in Hok'. done.
Qed.

Lemma add_after_ok p s l1 h l2 :
  lst_ok s (l1 ++ h :: l2) -> is_Some (mem s !! p) -> (p ∉ l1 ++ h :: l2) ->
  exists s', add_after s (Some p) (Some h) = Ok s' /\ lst_ok s' (l1 ++ h :: ins (key (mem s)) p l2) /\
             same_data (mem s) (mem s') /\ calls s' = calls s.
Proof.
  intros Hok Hsp Hp. pose proof Hok as (Hd & _ & _). unfold add_after.
  destruct (dlist_around _ _ _ _ Hd) as (_ & (n & Hn & _ & Hnx) & _). unfold get_node. rewrite Hn. cbn [mbind outcome_bind].
  rewrite Hnx. apply add_loop_ok; try done. apply dlist_size in Hd. rewrite length_app in Hd. simpl in Hd. lia.
Qed.

(** Adding a new timer. *)
Lemma lst_add_timer_ok s ps p n :
  lst_ok s ps -> (p ∉ ps) -> mem s !! p = Some n -> prev n = None -> next n = None ->
  exists s', add_timer s (Some p) = Ok s' /\ lst_ok s' (ins (key (mem s)) p ps) /\
             same_data (mem s) (mem s') /\ calls s' = calls s.
Proof.
  intros Hok Hp Hn Hprev Hnext. pose proof Hok as (Hd & Hh & Ht). unfold add_timer. rewrite Hh.
  assert (Hsp : is_Some (mem s !! p)) by eauto. destruct ps as [|h ps]; cbn [headp head].
  - eexists. split; [done|]. split; [|done]. split; [|done]. split; [|apply NoDup_singleton]. simpl. eauto.
  - assert (Hsh : is_Some (mem s !! h)) by (eapply dlist_in; [done|]; apply elem_of_cons; by left).
    rewrite !expire_of_ok by done. cbn [mbind outcome_bind ins]. rewrite bool_decide_decide.
    destruct (decide (key (mem s) p < key (mem s) h)) as [Hlt|Hge].
    + pose proof (dlist_link (mem s) [] p (h :: ps) Hd Hsp Hp) as Hl. unfold linked_in in Hl. cbn [lastp last setn headp head] in Hl.
      rewrite (setp_same _ _ _ _ Hn Hprev) in Hl.
      rewrite put_next_ok by done. cbn [mbind outcome_bind]. rewrite put_prev_ok by (by apply setn_some).
      cbn [mbind outcome_bind]. eexists. split; [done|]. split; [|split; [|done]].
      * split; [exact Hl|]. simpl. split; [done|]. intros _. by rewrite Ht.
      * intros q. cbn [mem set_mem set_head]. by rewrite data_setp, data_setn.
    + by apply (add_after_ok p s [] h ps).
Qed.

Lemma last_mid (l1 : list positive) p l2 : last (l1 ++ p :: l2) = Some p -> NoDup (l1 ++ p :: l2) -> l2 = [].
Proof.
  destruct l2 as [|q l2 _] using rev_ind; [done|].
  replace (l1 ++ p :: l2 ++ [q]) with ((l1 ++ p :: l2) ++ [q]) by (by rewrite <- app_assoc). rewrite last_snoc.
  intros [= ->] [_ [Hin _]]%NoDup_app. exfalso. apply (Hin p); [|by apply list_elem_of_singleton].
  apply elem_of_app. right. apply elem_of_cons. by left.
Qed.

(** Deleting a timer of the list. *)
Lemma del_timer_ok s l1 p l2 :
  lst_ok s (l1 ++ p :: l2) ->
  exists s', del_timer s (Some p) = Ok s' /\ lst_ok s' (l1 ++ l2) /\ freed (mem s) (mem s') [p] /\ calls s' = calls s.
Proof.
  intros (Hd & Hh & Ht). specialize (Ht ltac:(by destruct l1)). pose proof Hd as [_ Hnd].
  destruct (dlist_around _ _ _ _ Hd) as (_ & (n & Hn & Hprev & Hnext) & _ & _ & Hp).
  pose proof (dlist_unlink _ _ _ _ Hd) as Hu. pose proof (unlinked_data (mem s) l1 l2) as Hud.
  assert (Hsp : is_Some (mem s !! p)) by eauto.
  pose proof (dlist_delete _ _ _ Hu Hp) as Hdel. pose proof (freed_delete _ _ p Hud) as Hfr.
  assert (Hin : forall q, q ∈ l1 ++ l2 -> is_Some (mem s !! q)).
  { intros q Hq. eapply dlist_in; [exact Hd|]. rewrite <- Permutation_middle. apply elem_of_cons. by right. }
  assert (Hfree : free_node (unlinked (mem s) l1 l2) (Some p) = Ok (base.delete p (unlinked (mem s) l1 l2)))
    by (apply free_node_ok; by eapply same_data_some).
  unfold del_timer. rewrite Hh, Ht. destruct (decide (Some p = headp (l1 ++ p :: l2))) as [Eh|Eh].
  - symmetry in Eh. apply headp_mid in Eh as ->; [|done]. destruct l2 as [|q l2].
    + rewrite decide_True by done. cbn in Hdel, Hfr. rewrite free_node_ok by done. cbn [mbind outcome_bind].
      eexists. split; [done|]. split; [|done]. split; [exact Hdel|done].
    + rewrite decide_False.
      2:{ intros [_ El]. symmetry in El. by apply (last_mid [] p (q :: l2)) in El. }
      unfold get_node. cbn [app headp head]. rewrite Hn. cbn [mbind outcome_bind]. cbv zeta.
      cbn [mem head_ set_head]. rewrite Hnext. cbn [headp head].
      rewrite put_prev_ok by (apply Hin; apply elem_of_cons; by left). cbn [mbind outcome_bind].
      change (setp (mem s) (Some q) None) with (unlinked (mem s) [] (q :: l2)). rewrite Hfree. cbn [mbind outcome_bind].
      eexists. split; [done|]. split; [|done]. split; [exact Hdel|]. split; [done|]. intros _. simpl. by rewrite Ht.
  - rewrite decide_False by tauto. destruct l1 as [|h l1]; [done|].
    destruct (lastp_in (h :: l1) ltac:(done)) as (r & Er & Hr & Hrin).
    destruct (decide (Some p = last ((h :: l1) ++ p :: l2))) as [El|El].
    + symmetry in El. pose proof El as El'. apply last_mid in El' as ->; [|done]. unfold get_node. rewrite El, Hn.
      cbn [mbind outcome_bind]. cbv zeta. cbn [mem tail_ set_tail]. rewrite Hprev.
      rewrite Er, put_next_ok by (apply Hin; apply elem_of_app; by left).
      cbn [mbind outcome_bind]. unfold unlinked in Hfree, Hdel, Hfr. cbn [headp head setp] in Hfree, Hdel, Hfr.
      rewrite Er in Hfree, Hdel, Hfr. rewrite Hfree. cbn [mbind outcome_bind].
      eexists. split; [done|]. split; [|done]. split; [exact Hdel|]. rewrite app_nil_r. split; [done|]. intros _. simpl. by rewrite Hr.
    + unfold get_node. rewrite Hn. cbn [mbind outcome_bind]. rewrite Hprev, Hnext. destruct l2 as [|q l2].
      { exfalso. apply El. by rewrite last_app_cons. }
      rewrite Er, put_next_ok by (apply Hin; apply elem_of_app; by left).
      cbn [mbind outcome_bind headp head]. rewrite put_prev_ok
        by (apply setn_some, Hin; apply elem_of_app; right; apply elem_of_cons; by left). cbn [mbind outcome_bind].
      unfold unlinked in Hfree, Hdel, Hfr. cbn [headp head] in Hfree, Hdel, Hfr. rewrite Er in Hfree, Hdel, Hfr. rewrite Hfree.
      cbn [mbind outcome_bind]. eexists. split; [done|]. split; [|done]. split; [exact Hdel|]. split; [done|].
      intros _. simpl. rewrite Ht. change (h :: l1 ++ p :: q :: l2) with ((h :: l1) ++ p :: q :: l2).
      change (h :: l1 ++ q :: l2) with ((h :: l1) ++ q :: l2). by rewrite last_snoc_cons.
Qed.

(** Moving a timer whose time has been put off. *)
Lemma adjust_timer_ok s l1 p l2 :
  lst_ok s (l1 ++ p :: l2) -> Forall (fun q => key (mem s) q <= key (mem s) p) l1 ->
  exists s', adjust_timer s (Some p) = Ok s' /\ lst_ok s' (ins (key (mem s)) p (l1 ++ l2)) /\
             same_data (mem s) (mem s') /\ calls s' = calls s.
Proof.
  intros Hok Hl1. pose proof Hok as (Hd & Hh & Ht). specialize (Ht ltac:(by destruct l1)). pose proof Hd as [_ Hnd].
  destruct (dlist_around _ _ _ _ Hd) as (_ & (n & Hn & Hprev & Hnext) & _ & _ & Hp).
  assert (Hsp : is_Some (mem s !! p)) by eauto. assert (Hk : expire (dat n) = key (mem s) p) by (unfold key, data; by rewrite Hn).
  pose proof (dlist_unlink _ _ _ _ Hd) as Hu. pose proof (unlinked_data (mem s) l1 l2) as Hud.
  assert (Hin : forall q, q ∈ l1 ++ l2 -> is_Some (mem s !! q)).
  { intros q Hq. eapply dlist_in; [exact Hd|]. rewrite <- Permutation_middle. apply elem_of_cons. by right. }
  unfold adjust_timer. rewrite (get_node_eq _ _ _ Hn). cbn [mbind outcome_bind]. rewrite Hnext, Hk, (ins_app _ _ _ _ Hl1).
  destruct l2 as [|q l2]; cbn [headp head].
  { cbn [mbind outcome_bind ins]. by exists s. }
  rewrite expire_of_ok by (apply Hin; apply elem_of_app; right; apply elem_of_cons; by left). cbn [mbind outcome_bind ins].
  rewrite bool_decide_decide. destruct (decide (key (mem s) p < key (mem s) q)) as [Hlt|Hge]; [by exists s|].
  (* the list without the timer, and the timer put behind [q] *)
  assert (Hafter : forall m, dlist m (l1 ++ q :: l2) -> same_data (mem s) m ->
            exists s', add_after (Lst m (headp (l1 ++ q :: l2)) (tail_ s) (calls s)) (Some p) (Some q) = Ok s' /\
              lst_ok s' (l1 ++ q :: ins (key (mem s)) p l2) /\ same_data (mem s) (mem s') /\ calls s' = calls s).
  { intros m Hm Hsd. destruct (add_after_ok p (Lst m (headp (l1 ++ q :: l2)) (tail_ s) (calls s)) l1 q l2) as (s' & E & H1 & H2 & H3).
    - split; [exact Hm|]. split; [done|]. intros _. simpl. rewrite Ht. apply last_snoc_cons.
    - by eapply same_data_some.
    - done.
    - exists s'. split; [done|]. cbn [mem] in H1, H2. split; [|split; [intros r; rewrite H2; apply Hsd|done]].
      rewrite (ins_ext (key (mem s)) (key m)); [done| |]; intros; symmetry; by apply same_data_key. }
  rewrite Hh. destruct (decide (Some p = headp (l1 ++ p :: q :: l2))) as [Eh|Eh].
  - symmetry in Eh. apply headp_mid in Eh as ->; [|done]. cbn [app headp head]. rewrite (get_node_eq _ _ _ Hn). cbn [mbind outcome_bind]. cbv zeta.
    cbn [mem head_ set_head]. rewrite Hnext. cbn [headp head].
    rewrite put_prev_ok by (apply Hin; apply elem_of_cons; by left). cbn [mbind outcome_bind].
    rewrite put_next_ok by (by apply setp_some). cbn [mbind outcome_bind].
    apply (Hafter (setn (setp (mem s) (Some q) None) (Some p) None)).
    + destruct Hu as [Hu _]. split; [|by apply (NoDup_cons_1_2 p)]. eapply dseg_frame; [|exact Hu]. intros r Hr. simpl.
      apply lookup_alter_ne. intros ->. by apply Hp.
    + intros r. by rewrite data_setn, data_setp.
  - destruct l1 as [|h l1]; [done|]. destruct (lastp_in (h :: l1) ltac:(done)) as (r & Er & Hr & Hrin).
    rewrite Hprev, Er. rewrite put_next_ok by (apply Hin; apply elem_of_app; by left). cbn [mbind outcome_bind].
    rewrite put_prev_ok by (apply setn_some, Hin; apply elem_of_app; right; apply elem_of_cons; by left). cbn [mbind outcome_bind].
    unfold unlinked in Hu, Hud. cbn [headp head] in Hu, Hud. rewrite Er in Hu, Hud.
    destruct (Hafter _ Hu Hud) as (s' & E & Hres). exists s'. split; [|exact Hres]. rewrite <- E. unfold set_mem. by rewrite Hh.
Qed.

(** ** Running the timers *)

(** What the call-backs of some timers record, in order. *)
Definition runs (m : gmap positive (dnode util_timer)) (ps : list positive) : list (Z * Z) :=
  omap (fun p => d ← data m p; f ← cb_func d; Some (f, user_data d)) ps.

Definition callable (m : gmap positive (dnode util_timer)) (p : positive) : Prop :=
  exists d f, data m p = Some d /\ cb_func d = Some f.

Lemma lst_runs_ext m m' ps : (forall p, p ∈ ps -> data m p = data m' p) -> runs m ps = runs m' ps.
Proof.
  induction ps as [|p ps IH]; intros He; [done|]. unfold runs in *. cbn [omap list_omap].
  rewrite (He p) by (apply elem_of_cons; by left).
  rewrite IH by (intros q Hq; apply He; apply elem_of_cons; by right). done.
Qed.

(** The timers that are due are a prefix of a sorted list. *)
Fixpoint due (k : positive -> Z) (cur : Z) (ps : list positive) : list positive :=
  match ps with
  | [] => []
  | p :: ps => if decide (k p <= cur) then p :: due k cur ps else []
  end.

Fixpoint later (k : positive -> Z) (cur : Z) (ps : list positive) : list positive :=
  match ps with
  | [] => []
  | p :: ps' => if decide (k p <= cur) then later k cur ps' else ps
  end.

Lemma due_later_ext k k' cur ps : (forall p, p ∈ ps -> k p = k' p) -> due k cur ps = due k' cur ps /\ later k cur ps = later k' cur ps.
Proof.
  induction ps as [|p ps IH]; intros He; simpl; [done|]. rewrite (He p) by (apply elem_of_cons; by left).
  destruct (decide _); [|done]. destruct IH as [-> ->]; [|done]. intros q Hq. apply He. apply elem_of_cons. by right.
Qed.

Lemma due_in k cur ps p : p ∈ due k cur ps -> p ∈ ps.
Proof.
  induction ps as [|q ps IH]; simpl; [done|]. destruct (decide _); [|intros H; by apply elem_of_nil in H].
  rewrite !elem_of_cons. intros [->|H]; [by left|right; by apply IH].
Qed.

Lemma lst_tick_loop_ok cur fuel : forall s ps,
  lst_ok s ps -> (length ps < fuel)%nat -> Forall (callable (mem s)) ps ->
  exists s', tick_loop fuel s cur (headp ps) = Ok s' /\ lst_ok s' (later (key (mem s)) cur ps) /\
             freed (mem s) (mem s') (due (key (mem s)) cur ps) /\
             calls s' = calls s ++ runs (mem s) (due (key (mem s)) cur ps).
Proof.
  induction fuel as [|fuel IH]; intros s ps Hok Hf Hcb; [lia|]. pose proof Hok as (Hd & Hh & Ht).
  destruct ps as [|p ps]; cbn [tick_loop headp head].
  { exists s. simpl. rewrite app_nil_r. done. }
  destruct (dlist_around (mem s) [] p ps Hd) as (_ & (n & Hn & _ & Hnext) & _ & Hnd & Hp).
  apply Forall_cons in Hcb as [(d & f & Hdat & Hcf) Hcb].
  assert (Hk : expire (dat n) = key (mem s) p) by (unfold key, data; by rewrite Hn).
  assert (dat n = d) as Edat by (unfold data in Hdat; rewrite Hn in Hdat; by injection Hdat).
  rewrite (get_node_eq _ _ _ Hn). cbn [mbind outcome_bind due later]. rewrite Hk, bool_decide_decide.
  destruct (decide (cur < key (mem s) p)) as [Hlt|Hge].
  { rewrite !decide_False by lia. exists s. split; [done|]. split; [done|]. split; [done|]. simpl. by rewrite app_nil_r. }
  rewrite !decide_True by lia. rewrite Edat, Hcf. cbv zeta. cbn [mem head_ set_mem]. rewrite Hnext.
  set (m1 := setp (mem s) (headp ps) None).
  assert (Em : match headp ps with Some _ => put_prev (mem s) (headp ps) None | None => Ok (mem s) end = Ok m1).
  { unfold m1. destruct ps as [|q ps]; [done|]. cbn [headp head]. apply put_prev_ok.
    eapply dlist_in; [exact Hd|]. apply elem_of_cons. right. apply elem_of_cons. by left. }
  rewrite Em. cbn [mbind outcome_bind]. assert (Hsd : same_data (mem s) m1) by (intros q; apply data_setp).
  rewrite free_node_ok by (eapply same_data_some; [exact Hsd|]; eauto). cbn [mbind outcome_bind].
  set (s1 := set_mem (Lst (mem s) (headp ps) (tail_ s) (calls s ++ [(f, user_data d)])) (base.delete p m1)).
  assert (Hfr1 : freed (mem s) (base.delete p m1) [p]) by (by apply freed_delete).
  assert (Hdata : forall q, q ∈ ps -> data (mem s1) q = data (mem s) q).
  { intros q Hq. simpl. rewrite (Hfr1 q). rewrite decide_False; [done|]. intros ->%list_elem_of_singleton. by apply Hp. }
  assert (Hkey : forall q, q ∈ ps -> key (mem s1) q = key (mem s) q) by (intros q Hq; unfold key; by rewrite Hdata).
  destruct (IH s1 ps) as (s' & E & Hok' & Hfr & Hc).
  - split; [|split; [done|]].
    + apply dlist_delete; [|done]. apply (dlist_unlink (mem s) [] p ps Hd).
    + intros Hne. simpl. rewrite Ht by done. destruct ps; [done|]. by rewrite last_cons_cons.
  - simpl in Hf. lia.
  - rewrite Forall_forall in *. intros q Hq. destruct (Hcb q Hq) as (d' & f' & H1 & H2). exists d', f'. split; [by rewrite Hdata|done].
  - destruct (due_later_ext (key (mem s1)) (key (mem s)) cur ps Hkey) as [Edue Elat]. rewrite Edue in *. rewrite Elat in *.
    exists s'. split; [exact E|]. split; [done|]. split.
    + intros q. rewrite Hfr. simpl. rewrite (Hfr1 q).
      destruct (decide (q ∈ due (key (mem s)) cur ps)) as [H1|H1], (decide (q ∈ p :: due (key (mem s)) cur ps)) as [H2|H2];
        rewrite ?elem_of_cons in H2; try tauto; destruct (decide (q ∈ [p])) as [H3|H3]; rewrite list_elem_of_singleton in H3; tauto.
    + rewrite Hc. simpl. rewrite <- app_assoc. f_equal. rewrite (lst_runs_ext (mem s1) (mem s)).
      * unfold runs. simpl. rewrite Hdat. simpl. rewrite Hcf. done.
      * intros q Hq. apply Hdata. by eapply due_in.
Qed.

(** ** Putting a timer off *)

(** [timer->expire = e;] *)
Definition put_off (s : sort_timer_lst) (p : positive) (e : Z) : sort_timer_lst :=
  set_mem s (alter (fun n => DNode (Util_timer e (cb_func (dat n)) (user_data (dat n))) (prev n) (next n)) p (mem s)).

Lemma put_off_ok s ps p e : lst_ok s ps -> lst_ok (put_off s p e) ps.
Proof.
  intros ([Hd Hnd] & Hh & Ht). split; [|done]. split; [|done]. eapply dseg_links; [|exact Hd]. intros q. simpl.
  rewrite lookup_alter. case_decide; subst; [|done]. by destruct (mem s !! q).
Qed.

Lemma put_off_key s p e q :
  is_Some (mem s !! p) -> key (mem (put_off s p e)) q = if decide (q = p) then e else key (mem s) q.
Proof.
  intros [n Hn]. unfold key, data. simpl. rewrite lookup_alter. destruct (decide (q = p)) as [->|Hne].
  - rewrite decide_True by done. by rewrite Hn.
  - by rewrite decide_False.
Qed.

(** ** Sorted lists *)

Lemma sorted_app_inv k l1 p l2 :
  sorted k (l1 ++ p :: l2) -> sorted k (l1 ++ l2) /\ Forall (fun q => k q <= k p) l1.
Proof.
  induction l1 as [|q l1 IH]; simpl; [by intros [H _]%StronglySorted_inv|].
  intros [H Hall]%StronglySorted_inv. destruct (IH H) as [H1 H2]. rewrite <- Permutation_middle in Hall.
  apply Forall_cons in Hall as [Hp Hall]. split; [by constructor|by constructor].
Qed.

Lemma sorted_ext k k' ps : (forall p, p ∈ ps -> k p = k' p) -> sorted k ps -> sorted k' ps.
Proof.
  intros He H. induction H as [|q ps Hs IH Hall]; [constructor|]. constructor.
  - apply IH. intros p Hp. apply He. apply elem_of_cons. by right.
  - rewrite Forall_forall in *. intros p Hp. rewrite <- (He q), <- (He p) by (rewrite elem_of_cons; auto). by apply Hall.
Qed.

Lemma due_later k cur ps :
  sorted k ps -> ps = due k cur ps ++ later k cur ps /\ Forall (fun p => k p <= cur) (due k cur ps) /\
                 Forall (fun p => cur < k p) (later k cur ps).
Proof.
  induction 1 as [|p ps Hs (IH1 & IH2 & IH3) Hall]; simpl; [done|]. destruct (decide (k p <= cur)) as [Hle|Hgt].
  - split; [simpl; by f_equal|]. split; [by constructor|done].
  - split; [done|]. split; [done|]. constructor; [lia|]. eapply Forall_impl; [exact Hall|]. simpl. lia.
Qed.

Lemma tick_ok s ps cur :
  lst_ok s ps -> Forall (callable (mem s)) ps ->
  exists s', tick s cur = Ok s' /\ lst_ok s' (later (key (mem s)) cur ps) /\
             freed (mem s) (mem s') (due (key (mem s)) cur ps) /\
             calls s' = calls s ++ runs (mem s) (due (key (mem s)) cur ps).
Proof.
  intros Hok Hcb. pose proof Hok as (Hd & Hh & _). unfold tick. rewrite Hh. destruct ps as [|p ps].
  - exists s. simpl. by rewrite app_nil_r.
  - apply lst_tick_loop_ok; [done| |done]. apply dlist_size in Hd. simpl in *. lia.
Qed.

(** ** Properties *)

(** C23: The timer list refines a sorted sequence of timers.  On a list in memory with the
    timers [ps], in the order in which they expire: adding a new timer puts it behind
    all that expire no later; putting a timer off and adjusting it moves it to its new
    place; deleting one removes it from the list and from memory; and a tick runs the
    call-backs of exactly the timers that are due, in order, and frees them.  The links
    are right again after each operation, and no other timer changes. *)
Theorem timer_list_refines s ps :
  lst_ok s ps -> sorted (key (mem s)) ps ->
  (forall p n, p ∉ ps -> mem s !! p = Some n -> prev n = None -> next n = None ->
     exists s', add_timer s (Some p) = Ok s' /\ lst_ok s' (ins (key (mem s)) p ps) /\
                sorted (key (mem s')) (ins (key (mem s)) p ps) /\ same_data (mem s) (mem s')) /\
  (forall l1 p l2 e, ps = l1 ++ p :: l2 -> key (mem s) p <= e ->
     let s1 := put_off s p e in
     exists s', adjust_timer s1 (Some p) = Ok s' /\ lst_ok s' (ins (key (mem s1)) p (l1 ++ l2)) /\
                sorted (key (mem s')) (ins (key (mem s1)) p (l1 ++ l2)) /\ same_data (mem s1) (mem s')) /\
  (forall l1 p l2, ps = l1 ++ p :: l2 ->
     exists s', del_timer s (Some p) = Ok s' /\ lst_ok s' (l1 ++ l2) /\ freed (mem s) (mem s') [p]) /\
  (forall cur, Forall (callable (mem s)) ps ->
     exists s' fired rest, tick s cur = Ok s' /\ ps = fired ++ rest /\
       Forall (fun p => key (mem s) p <= cur) fired /\ Forall (fun p => cur < key (mem s) p) rest /\
       lst_ok s' rest /\ freed (mem s) (mem s') fired /\ calls s' = calls s ++ runs (mem s) fired).
Proof.
  intros Hok Hso. split; [|split; [|split]].
  - intros p n Hp Hn Hpr Hnx. destruct (lst_add_timer_ok s ps p n Hok Hp Hn Hpr Hnx) as (s' & E & Hok' & Hsd & _).
    exists s'. split; [done|]. split; [done|]. split; [|done]. eapply sorted_ext; [|by apply ins_sorted].
    intros q _. symmetry. by apply same_data_key.
  - intros l1 p l2 e -> He s1. pose proof Hok as (Hd & _). apply sorted_app_inv in Hso as [Hso Hl1].
    destruct (dlist_around _ _ _ _ Hd) as (_ & (n & Hn & _) & _ & _ & Hp).
    assert (Hkey : forall q, q ∈ l1 ++ l2 -> key (mem s1) q = key (mem s) q).
    { intros q Hq. unfold s1. rewrite put_off_key by eauto. rewrite decide_False; [done|]. by intros ->. }
    assert (Hkp : key (mem s1) p = e) by (unfold s1; rewrite put_off_key by eauto; by rewrite decide_True).
    destruct (adjust_timer_ok s1 l1 p l2) as (s' & E & Hok' & Hsd & _); [by apply put_off_ok| |].
    { rewrite Forall_forall in *. intros q Hq. rewrite Hkp, Hkey by (apply elem_of_app; by left). specialize (Hl1 q Hq). lia. }
    exists s'. split; [done|]. split; [done|]. split; [|done].
    eapply sorted_ext; [|apply ins_sorted; eapply sorted_ext; [|exact Hso]].
    + intros q _. symmetry. by apply same_data_key.
    + intros q Hq. symmetry. by apply Hkey.
  - intros l1 p l2 ->. destruct (del_timer_ok s l1 p l2 Hok) as (s' & E & H1 & H2 & _). by exists s'.
  - intros cur Hcb. destruct (tick_ok s ps cur Hok Hcb) as (s' & E & H1 & H2 & H3).
    destruct (due_later (key (mem s)) cur ps Hso) as (G1 & G2 & G3). by eexists s', _, _.
Qed.

(** A list of two timers and a new one. *)
Definition two_timers : sort_timer_lst :=
  Lst (<[1%positive := DNode (Util_timer 10 (Some 7) 1) None (Some 2%positive)]>
      (<[2%positive := DNode (Util_timer 20 (Some 7) 2) (Some 1%positive) None]>
      (<[3%positive := DNode (Util_timer 10 (Some 7) 3) None None]> ∅))) (Some 1%positive) (Some 2%positive) [].

Lemma two_timers_ok : lst_ok two_timers [1; 2]%positive /\ sorted (key (mem two_timers)) [1; 2]%positive.
Proof.
  split.
  - split; [|done]. split; [|by_compute]. simpl. split; [done|]. eexists. split; [done|]. split; [done|]. split; [done|].
    eexists. split; [done|]. done.
  - constructor; [constructor; [constructor|done]|]. constructor; [|done]. by vm_compute.
Qed.

Lemma timer_list_refines_witness :
  (exists s', add_timer two_timers (Some 3%positive) = Ok s' /\
     lst_ok s' (ins (key (mem two_timers)) 3%positive [1; 2]%positive)) /\
  (exists s', adjust_timer (put_off two_timers 1%positive 30) (Some 1%positive) = Ok s' /\
     lst_ok s' (ins (key (mem (put_off two_timers 1%positive 30))) 1%positive [2]%positive)) /\
  (exists s', del_timer two_timers (Some 1%positive) = Ok s' /\ lst_ok s' [2]%positive) /\
  exists s', tick two_timers 15 = Ok s' /\ calls s' = [(7, 1)].
Proof.
  destruct two_timers_ok as [Hok Hso]. destruct (timer_list_refines two_timers [1; 2]%positive Hok Hso) as (H1 & H2 & H3 & H4).
  split; [|split; [|split]].
  - destruct (H1 3%positive (DNode (Util_timer 10 (Some 7) 3) None None)) as (s' & E & Hl & _);
      [by_compute | done | done | done |]. by exists s'.
  - destruct (H2 [] 1%positive [2]%positive 30) as (s' & E & Hl & _); [done | by vm_compute |]. by exists s'.
  - destruct (H3 [] 1%positive [2]%positive eq_refl) as (s' & E & Hl & _). by exists s'.
  - destruct (H4 15) as (s' & fired & rest & E & _); [repeat constructor; by eexists _, _|].
    exists s'. split; [exact E|]. vm_compute in E. by injection E as <-.
Defined.

Example adjusted_order :
  ins (key (mem two_timers)) 3%positive [1; 2]%positive = [1; 3; 2]%positive /\
  ins (key (mem (put_off two_timers 1%positive 30))) 1%positive [2]%positive = [2; 1]%positive.
Proof. by vm_compute. Qed.
