(* ===== verification/TimeWheel.v ===== *)
(** * The timing wheel

    src/src/Linux High Perfermance Server Program/codes/11/11-5tw_timer.h: timers in the
    [N] slots of a wheel that turns by one slot with every tick.  A slot is a doubly
    linked list; a timer that is further away than a turn counts the turns it still has
    to wait.  The wheel is shown to be an agenda, which says of every timer how many
    ticks it has left, and a timer to run on the tick it was set for. *)

From stdpp Require Import base functions numbers list list_numbers gmap sorting.
From S2P Require Import Prelude DList.

#[local] Open Scope Z_scope.

(** The fields of [tw_timer] besides its links; a call-back is known by a number, and a
    new timer has none: the constructor leaves the field as it is. *)
Record tw_timer := Tw_timer { rotation : Z; time_slot : Z; cb_func : option Z; user_data : Z }.

Definition N : Z := 60.
Definition TI : Z := 1.

(** The calls that were made are recorded in order. *)
Record time_wheel := Wheel {
  mem : gmap positive (dnode tw_timer);
  slots : list ptr;
  cur_slot : Z;
  calls : list (Z * Z);
}.

Definition set_mem (w : time_wheel) m := Wheel m (slots w) (cur_slot w) (calls w).
Definition set_slots (w : time_wheel) sl := Wheel (mem w) sl (cur_slot w) (calls w).

(** The constructor, in the memory [m]. *)
Definition new_wheel (m : gmap positive (dnode tw_timer)) (junk : list ptr) : outcome time_wheel :=
  sl ← for_ (Z.to_nat N) 0 (fun i sl => wr sl i None) junk;
  Ok (Wheel m sl 0 []).

(** [new]: an address not in use. *)
Definition new_addr (m : gmap positive (dnode tw_timer)) : positive := fresh (dom m : gset positive).

Definition add_timer (w : time_wheel) (timeout : Z) : outcome (time_wheel * ptr) :=
  if bool_decide (timeout < 0) then Ok (w, None)
  else
    let ticks := if bool_decide (timeout < TI) then 1 else timeout `div` TI in
    let rot := ticks `div` N in
    let ts := (cur_slot w + ticks `mod` N) `mod` N in
    let p := new_addr (mem w) in
    let m := <[p := DNode (Tw_timer rot ts None 0) None None]> (mem w) in
    h ← rd (slots w) ts;
    match h with
    | None =>
        sl ← wr (slots w) ts (Some p);
        Ok (set_slots (set_mem w m) sl, Some p)
    | Some _ =>
        m ← put_next m (Some p) h;
        m ← put_prev m h (Some p);
        sl ← wr (slots w) ts (Some p);
        Ok (set_slots (set_mem w m) sl, Some p)
    end.

(** [if( x ) x->prev = v;] *)
Definition fix_prev (m : gmap positive (dnode tw_timer)) (x v : ptr) : outcome (gmap positive (dnode tw_timer)) :=
  match x with Some _ => put_prev m x v | None => Ok m end.

Definition del_timer (w : time_wheel) (timer : ptr) : outcome time_wheel :=
  match timer with
  | None => Ok w
  | Some _ =>
      n ← get_node (mem w) timer;
      let ts := time_slot (dat n) in
      h ← rd (slots w) ts;
      if decide (timer = h) then
        sl ← wr (slots w) ts (next n);
        m ← fix_prev (mem w) (next n) None;
        m ← free_node m timer;
        Ok (set_slots (set_mem w m) sl)
      else
        m ← put_next (mem w) (prev n) (next n);
        m ← fix_prev m (next n) (prev n);
        m ← free_node m timer;
        Ok (set_mem w m)
  end.

Definition with_dat (f : tw_timer -> tw_timer) (n : dnode tw_timer) : dnode tw_timer := DNode (f (dat n)) (prev n) (next n).
Definition turn (d : tw_timer) : tw_timer := Tw_timer (rotation d - 1) (time_slot d) (cb_func d) (user_data d).

(** The loop of [tick]: every turn goes to another node, so the number of nodes is
    enough fuel. *)
Fixpoint tick_loop (fuel : nat) (w : time_wheel) (tmp : ptr) : outcome time_wheel :=
  match fuel with
  | O => Fault OutOfFuel
  | S fuel =>
      match tmp with
      | None => Ok w
      | Some p =>
          n ← get_node (mem w) tmp;
          if bool_decide (0 < rotation (dat n)) then
            tick_loop fuel (set_mem w (alter (with_dat turn) p (mem w))) (next n)
          else
            match cb_func (dat n) with
            | None => Fault NullDeref
            | Some f =>
                let w := Wheel (mem w) (slots w) (cur_slot w) (calls w ++ [(f, user_data (dat n))]) in
                h ← rd (slots w) (cur_slot w);
                if decide (tmp = h) then
                  sl ← wr (slots w) (cur_slot w) (next n);
                  m ← free_node (mem w) tmp;
                  m ← fix_prev m (next n) None;
                  tick_loop fuel (set_slots (set_mem w m) sl) (next n)
                else
                  m ← put_next (mem w) (prev n) (next n);
                  m ← fix_prev m (next n) (prev n);
                  m ← free_node m tmp;
                  tick_loop fuel (set_mem w m) (next n)
            end
      end
  end.

Definition tick (w : time_wheel) : outcome time_wheel :=
  tmp ← rd (slots w) (cur_slot w);
  w ← tick_loop (S (size (mem w))) w tmp;
  Ok (Wheel (mem w) (slots w) ((cur_slot w + 1) `mod` N) (calls w)).

(** The destructor. *)
Fixpoint destroy_loop (fuel : nat) (i : Z) (w : time_wheel) (tmp : ptr) : outcome time_wheel :=
  match fuel with
  | O => Fault OutOfFuel
  | S fuel =>
      match tmp with
      | None => Ok w
      | Some _ =>
          n ← get_node (mem w) tmp;
          sl ← wr (slots w) i (next n);
          m ← free_node (mem w) tmp;
          tmp ← rd sl i;
          destroy_loop fuel i (set_slots (set_mem w m) sl) tmp
      end
  end.

Definition destroy (w : time_wheel) : outcome time_wheel :=
  for_ (Z.to_nat N) 0 (fun i w => tmp ← rd (slots w) i; destroy_loop (S (size (mem w))) i w tmp) w.

(** ** The lists of the slots *)

(** A timer in slot [i]. *)
Definition placed (m : gmap positive (dnode tw_timer)) (i : Z) (p : positive) : Prop :=
  exists d, data m p = Some d /\ time_slot d = i /\ 0 <= rotation d.

(** The timers of slot [i] are [L i]. *)
Definition slot_ok (w : time_wheel) (i : Z) (l : list positive) : Prop :=
  dlist (mem w) l /\ rd (slots w) i = Ok (headp l) /\ Forall (placed (mem w) i) l.

Definition wheel_ok (w : time_wheel) (L : Z -> list positive) : Prop :=
  Zlen (slots w) = N /\ 0 <= cur_slot w < N /\ forall i, 0 <= i < N -> slot_ok w i (L i).

Lemma wheel_slot w L i : wheel_ok w L -> 0 <= i < N -> slot_ok w i (L i).
Proof. intros (_ & _ & H). apply H. Qed.

(** A timer is in one slot only. *)
Lemma wheel_disjoint w L i j p : wheel_ok w L -> 0 <= i < N -> 0 <= j < N -> p ∈ L i -> p ∈ L j -> i = j.
Proof.
  intros H Hi Hj. destruct (wheel_slot w L i H Hi) as (_ & _ & Fi). destruct (wheel_slot w L j H Hj) as (_ & _ & Fj).
  rewrite Forall_forall in Fi, Fj. intros Pi%Fi Pj%Fj. destruct Pi as (d & E & <- & _), Pj as (d' & E' & <- & _). congruence.
Qed.

(** A change of one slot. *)
Lemma wheel_change w L i l w' :
  wheel_ok w L -> 0 <= i < N -> slots w' = <[Z.to_nat i := headp l]> (slots w) -> 0 <= cur_slot w' < N ->
  dlist (mem w') l -> Forall (placed (mem w') i) l ->
  (forall j q, 0 <= j < N -> j <> i -> q ∈ L j -> mem w' !! q = mem w !! q) ->
  wheel_ok w' (<[i := l]> L).
Proof.
  intros H Hi Hsl Hc Hd Hp Hm. pose proof H as (Hlen & _). split; [by rewrite Hsl, Zlen_insert|]. split; [done|].
  intros j Hj. destruct (decide (i = j)) as [<-|Hne].
  - rewrite fn_lookup_insert. split; [done|]. split; [|done]. rewrite Hsl. apply rd_insert_eq. lia.
  - rewrite fn_lookup_insert_ne by done. destruct (wheel_slot w L j H Hj) as (Hdj & Hsj & Hpj).
    assert (Hmj : forall q, q ∈ L j -> mem w' !! q = mem w !! q) by (intros q; apply Hm; [done|congruence]).
    split; [by apply (dlist_frame (mem w))|]. split; [rewrite Hsl, rd_insert_ne; try lia; done|].
    rewrite Forall_forall in *. intros q Hq. destruct (Hpj q Hq) as (d & E & Hd'). exists d. split; [|done].
    unfold data. by rewrite Hmj.
Qed.

(** ** Taking a timer out of its slot *)

Lemma fix_prev_ok m l v : (forall q, q ∈ l -> is_Some (m !! q)) -> fix_prev m (headp l) v = Ok (setp m (headp l) v).
Proof. intros H. destruct l as [|q l]; [done|]. apply put_prev_ok. apply H. apply elem_of_cons. by left. Qed.

(** What both removals do, when [p] is between [l1] and [l2]: the memory after it, and
    its slot. *)
Definition removed m l1 p l2 : gmap positive (dnode tw_timer) := base.delete p (unlinked m l1 l2).

Section Remove.
Context (m : gmap positive (dnode tw_timer)) (l1 : list positive) (p : positive) (l2 : list positive).
Hypothesis Hd : dlist m (l1 ++ p :: l2).

Lemma remove_node : exists n, m !! p = Some n /\ prev n = lastp None l1 /\ next n = headp l2.
Proof. pose proof (dlist_around _ _ _ _ Hd). tauto. Qed.

Lemma remove_notin : p ∉ l1 ++ l2.
Proof. pose proof (dlist_around _ _ _ _ Hd). tauto. Qed.

Lemma remove_in q : q ∈ l1 ++ l2 -> is_Some (m !! q).
Proof. intros Hq. eapply dlist_in; [exact Hd|]. rewrite <- Permutation_middle. apply elem_of_cons. by right. Qed.

Lemma removed_dlist : dlist (removed m l1 p l2) (l1 ++ l2).
Proof. apply dlist_delete; [by apply (dlist_unlink _ _ p)|apply remove_notin]. Qed.

Lemma removed_freed : freed m (removed m l1 p l2) [p].
Proof. apply freed_delete, unlinked_data. Qed.

Lemma removed_other q : (q ∉ l1 ++ p :: l2) -> removed m l1 p l2 !! q = m !! q.
Proof.
  rewrite <- Permutation_middle, not_elem_of_cons. intros [Hne Hq]. unfold removed. rewrite lookup_delete_ne by congruence.
  by apply unlinked_other.
Qed.

Lemma free_unlinked : free_node (unlinked m l1 l2) (Some p) = Ok (removed m l1 p l2).
Proof.
  apply free_node_ok. destruct remove_node as (n & Hn & _). eapply same_data_some; [apply unlinked_data|]. eauto.
Qed.

(** Unlinking the first timer, before or after it is freed. *)
Lemma unlink_first {B} (k : gmap positive (dnode tw_timer) -> outcome B) :
  l1 = [] ->
  (x ← fix_prev m (headp l2) None; x ← free_node x (Some p); k x) = k (removed m l1 p l2) /\
  (x ← free_node m (Some p); x ← fix_prev x (headp l2) None; k x) = k (removed m l1 p l2).
Proof.
  destruct remove_node as (n & Hn & _). pose proof remove_notin as Hp. pose proof free_unlinked as Hf.
  pose proof remove_in as Hin. intros El1. rewrite El1 in *. split.
  - rewrite fix_prev_ok by exact Hin. cbn [mbind outcome_bind].
    change (setp m (headp l2) None) with (unlinked m [] l2). by rewrite Hf.
  - rewrite free_node_ok by eauto. cbn [mbind outcome_bind].
    rewrite fix_prev_ok.
    + cbn [mbind outcome_bind]. rewrite setp_delete; [done|]. intros E%headp_in. by apply Hp.
    + intros q Hq. rewrite lookup_delete_ne by (by intros ->). by apply Hin.
Qed.

(** Unlinking another one. *)
Lemma unlink_other {B} (k : gmap positive (dnode tw_timer) -> outcome B) :
  l1 <> [] ->
  (x ← put_next m (lastp None l1) (headp l2); x ← fix_prev x (headp l2) (lastp None l1); x ← free_node x (Some p); k x) =
  k (removed m l1 p l2).
Proof.
  intros Hne. destruct (lastp_in l1 Hne) as (r & Er & _ & Hr). pose proof free_unlinked as Hf. unfold unlinked in Hf.
  rewrite Er in *. rewrite put_next_ok by (apply remove_in, elem_of_app; by left). cbn [mbind outcome_bind].
  rewrite fix_prev_ok.
  - cbn [mbind outcome_bind]. by rewrite Hf.
  - intros q Hq. apply setn_some, remove_in, elem_of_app. by right.
Qed.
End Remove.

(** ** A tick *)

(** A timer runs when it has no more turns to wait. *)
Definition runs_now (m : gmap positive (dnode tw_timer)) (p : positive) : bool :=
  match data m p with Some d => bool_decide (rotation d <= 0) | None => false end.

Definition fired m (l : list positive) := filter (fun p => runs_now m p = true) l.
Definition waiting m (l : list positive) := filter (fun p => runs_now m p <> true) l.

(** The call of a timer. *)
Definition call_of (m : gmap positive (dnode tw_timer)) (p : positive) : option (Z * Z) :=
  d ← data m p; f ← cb_func d; Some (f, user_data d).

(** What a tick makes of the data of a timer of its slot. *)
Definition step (d : tw_timer) : option tw_timer := if decide (0 < rotation d) then Some (turn d) else None.

Lemma fired_cons m p l : fired m (p :: l) = if runs_now m p then p :: fired m l else fired m l.
Proof. unfold fired. rewrite filter_cons. by destruct (runs_now m p). Qed.

Lemma waiting_cons m p l : waiting m (p :: l) = if runs_now m p then waiting m l else p :: waiting m l.
Proof. unfold waiting. rewrite filter_cons. by destruct (runs_now m p). Qed.

Lemma slot_ext m m' l :
  (forall q, q ∈ l -> data m' q = data m q) ->
  fired m' l = fired m l /\ waiting m' l = waiting m l /\ omap (call_of m') l = omap (call_of m) l.
Proof.
  induction l as [|p l IH]; intros He; [done|]. destruct IH as (E1 & E2 & E3).
  { intros q Hq. apply He. apply elem_of_cons. by right. }
  rewrite !fired_cons, !waiting_cons. unfold runs_now, call_of in *. cbn [omap list_omap].
  rewrite (He p) by (apply elem_of_cons; by left). by rewrite E1, E2, E3.
Qed.

Lemma data_alter f m p q : data (alter (with_dat f) p m) q = if decide (q = p) then f <$> data m q else data m q.
Proof.
  unfold data. destruct (decide (q = p)) as [->|Hne].
  - rewrite lookup_alter_eq. by destruct (m !! p).
  - by rewrite lookup_alter_ne.
Qed.

Lemma dlist_alter f m p l : dlist m l -> dlist (alter (with_dat f) p m) l.
Proof.
  intros [H Hnd]. split; [|done]. eapply dseg_links; [|exact H]. intros q. rewrite lookup_alter. case_decide; subst; [|done].
  by destruct (m !! q).
Qed.

(** The result of the loop on the slot [kept ++ rest] with [rest] still to come. *)
Definition slot_ticked (w w' : time_wheel) (kept rest : list positive) : Prop :=
  dlist (mem w') (kept ++ waiting (mem w) rest) /\
  slots w' = <[Z.to_nat (cur_slot w) := headp (kept ++ waiting (mem w) rest)]> (slots w) /\
  cur_slot w' = cur_slot w /\
  calls w' = calls w ++ omap (call_of (mem w)) (fired (mem w) rest) /\
  (forall q, data (mem w') q = if decide (q ∈ rest) then data (mem w) q ≫= step else data (mem w) q) /\
  (forall q, q ∉ kept ++ rest -> mem w' !! q = mem w !! q).

Lemma insert_rd {A} (b : list A) i x : rd b i = Ok x -> <[Z.to_nat i := x]> b = b.
Proof. intros [Hi H]%rd_Ok_iff. by apply list_insert_id. Qed.

Lemma slot_ticked_nil w kept : dlist (mem w) kept -> rd (slots w) (cur_slot w) = Ok (headp kept) -> slot_ticked w w kept [].
Proof.
  intros Hd Hs. unfold slot_ticked. change (waiting (mem w) []) with (@nil positive). rewrite !app_nil_r.
  rewrite insert_rd by done. done.
Qed.

(** One turn: the timer waits on, *)
Lemma slot_ticked_wait w w' kept p rest n :
  mem w !! p = Some n -> 0 < rotation (dat n) -> p ∉ rest ->
  slot_ticked (set_mem w (alter (with_dat turn) p (mem w))) w' (kept ++ [p]) rest -> slot_ticked w w' kept (p :: rest).
Proof.
  intros Hn Hr Hp (H1 & H2 & H3 & H4 & H5 & H6). cbn [mem set_mem slots cur_slot calls] in *.
  assert (Hdat : data (mem w) p = Some (dat n)) by (unfold data; by rewrite Hn).
  assert (Hrun : runs_now (mem w) p = false) by (unfold runs_now; rewrite Hdat; by apply bool_decide_eq_false; lia).
  destruct (slot_ext (mem w) (alter (with_dat turn) p (mem w)) rest) as (E1 & E2 & _).
  { intros q Hq. rewrite data_alter, decide_False; [done|]. by intros ->. }
  destruct (slot_ext (mem w) (alter (with_dat turn) p (mem w)) (fired (mem w) rest)) as (_ & _ & E3).
  { intros q Hq. rewrite data_alter, decide_False; [done|]. intros ->. apply list_elem_of_filter in Hq. tauto. }
  rewrite E1, E3 in H4. rewrite E2, <- app_assoc in H1, H2. unfold slot_ticked. rewrite waiting_cons, fired_cons, Hrun.
  do 4 (split; [done|]). split.
  - intros q. rewrite H5, data_alter. destruct (decide (q = p)) as [->|Hne].
    + rewrite decide_False by done. rewrite decide_True by (apply elem_of_cons; by left). rewrite Hdat. simpl. unfold step.
      by rewrite decide_True.
    + destruct (decide (q ∈ rest)) as [Hq|Hq]; [rewrite decide_True|rewrite decide_False]; rewrite ?elem_of_cons; tauto.
  - intros q Hq. rewrite H6 by (rewrite <- app_assoc; exact Hq). apply lookup_alter_ne. intros ->. apply Hq.
    apply elem_of_app. right. apply elem_of_cons. by left.
Qed.

(** or it runs. *)
Lemma slot_ticked_run w w' kept p rest n f :
  dlist (mem w) (kept ++ p :: rest) -> mem w !! p = Some n -> rotation (dat n) <= 0 -> cb_func (dat n) = Some f ->
  slot_ticked (Wheel (removed (mem w) kept p rest) (<[Z.to_nat (cur_slot w) := headp (kept ++ rest)]> (slots w)) (cur_slot w)
                 (calls w ++ [(f, user_data (dat n))])) w' kept rest ->
  slot_ticked w w' kept (p :: rest).
Proof.
  intros Hd Hn Hr Hf (H1 & H2 & H3 & H4 & H5 & H6). cbn [mem slots cur_slot calls] in *.
  assert (Hdat : data (mem w) p = Some (dat n)) by (unfold data; by rewrite Hn).
  assert (Hrun : runs_now (mem w) p = true) by (unfold runs_now; rewrite Hdat; by apply bool_decide_eq_true).
  pose proof (remove_notin _ _ _ _ Hd) as Hp. pose proof (removed_freed (mem w) kept p rest) as Hfr.
  assert (Hp' : p ∉ rest) by (intros ?; apply Hp, elem_of_app; by right).
  assert (Hfr' : forall q, q ∈ rest -> data (removed (mem w) kept p rest) q = data (mem w) q).
  { intros q Hq. rewrite (Hfr q), decide_False; [done|]. intros ->%list_elem_of_singleton. done. }
  destruct (slot_ext (mem w) (removed (mem w) kept p rest) rest Hfr') as (E1 & E2 & _).
  destruct (slot_ext (mem w) (removed (mem w) kept p rest) (fired (mem w) rest)) as (_ & _ & E3).
  { intros q Hq. apply Hfr'. apply list_elem_of_filter in Hq. tauto. }
  rewrite E1, E3 in H4. rewrite E2 in H1, H2. unfold slot_ticked. rewrite waiting_cons, fired_cons, Hrun.
  split; [done|]. split; [by rewrite H2, list_insert_insert_eq|]. split; [done|]. split; [|split].
  - rewrite H4, <- app_assoc. f_equal. cbn [omap list_omap]. unfold call_of at 2. rewrite Hdat. simpl. by rewrite Hf.
  - intros q. rewrite H5, (Hfr q). destruct (decide (q = p)) as [->|Hne].
    + rewrite (decide_False (P := p ∈ rest)) by done. rewrite !decide_True; rewrite ?elem_of_cons; [|by left|by left].
      rewrite Hdat. simpl. unfold step. rewrite decide_False; [done|lia].
    + rewrite (decide_False (P := q ∈ [p])) by (by rewrite list_elem_of_singleton).
      destruct (decide (q ∈ rest)) as [Hq|Hq]; [rewrite decide_True|rewrite decide_False]; rewrite ?elem_of_cons; tauto.
  - intros q Hq. rewrite H6; [by apply removed_other|]. rewrite elem_of_app, elem_of_cons in Hq. rewrite elem_of_app. tauto.
Qed.

Lemma slot_tick_loop_ok fuel : forall rest kept w,
  0 <= cur_slot w < Zlen (slots w) -> dlist (mem w) (kept ++ rest) -> rd (slots w) (cur_slot w) = Ok (headp (kept ++ rest)) ->
  Forall (fun p => is_Some (call_of (mem w) p)) rest -> (length rest < fuel)%nat ->
  exists w', tick_loop fuel w (headp rest) = Ok w' /\ slot_ticked w w' kept rest.
Proof.
  induction fuel as [|fuel IH]; intros rest kept w Hc Hd Hs Hcb Hf; [lia|]. destruct rest as [|p rest].
  { rewrite app_nil_r in *. exists w. split; [done|]. by apply slot_ticked_nil. }
  cbn [tick_loop headp head]. destruct (remove_node _ _ _ _ Hd) as (n & Hn & Hprev & Hnext).
  pose proof (remove_notin _ _ _ _ Hd) as Hp. assert (Hp' : p ∉ rest) by (intros ?; apply Hp, elem_of_app; by right).
  apply Forall_cons in Hcb as [Hcall Hcb]. simpl in Hf. rewrite (get_node_eq _ _ _ Hn). cbn [mbind outcome_bind].
  rewrite Hprev, Hnext, bool_decide_decide. destruct (decide (0 < rotation (dat n))) as [Hr|Hr].
  - destruct (IH rest (kept ++ [p]) (set_mem w (alter (with_dat turn) p (mem w)))) as (w' & E & Ht).
    + done.
    + rewrite <- app_assoc. by apply dlist_alter.
    + rewrite <- app_assoc. done.
    + eapply Forall_impl; [exact Hcb|]. intros q [c Hq]. unfold call_of in *. cbn [mem set_mem]. rewrite data_alter.
      case_decide; [|by exists c]. subst q. destruct (data (mem w) p) as [d|]; [|done]. by exists c.
    + lia.
    + exists w'. split; [exact E|]. by eapply slot_ticked_wait.
  - destruct Hcall as [c Hcall]. unfold call_of, data in Hcall. rewrite Hn in Hcall. cbn in Hcall.
    destruct (cb_func (dat n)) as [f|] eqn:Ef; [|done]. cbv zeta. cbn [slots cur_slot mem calls]. rewrite Hs. cbn [mbind outcome_bind].
    set (w1 := Wheel (removed (mem w) kept p rest) (<[Z.to_nat (cur_slot w) := headp (kept ++ rest)]> (slots w)) (cur_slot w)
                 (calls w ++ [(f, user_data (dat n))])).
    assert (Hgo : exists w', tick_loop fuel w1 (headp rest) = Ok w' /\ slot_ticked w w' kept (p :: rest)).
    { destruct (IH rest kept w1) as (w' & E & Ht).
      - cbn. by rewrite Zlen_insert.
      - by apply removed_dlist.
      - cbn. by apply rd_insert_eq.
      - rewrite Forall_forall in Hcb |- *. intros q Hq. specialize (Hcb q Hq). unfold call_of in *. cbn [mem w1].
        rewrite (removed_freed (mem w) kept p rest q), decide_False; [done|]. by intros ->%list_elem_of_singleton.
      - lia.
      - exists w'. split; [exact E|]. apply (slot_ticked_run w w' kept p rest n f); try done. lia. }
    destruct (decide (kept = [])) as [->|Hne].
    + rewrite decide_True by done. rewrite wr_in_range by done. cbn [mbind outcome_bind].
      destruct (unlink_first (mem w) [] p rest Hd (fun m => tick_loop fuel (set_slots (set_mem (Wheel (mem w) (slots w) (cur_slot w)
        (calls w ++ [(f, user_data (dat n))])) m) (<[Z.to_nat (cur_slot w) := headp rest]> (slots w))) (headp rest)) eq_refl) as [_ E].
      rewrite E. exact Hgo.
    + rewrite decide_False.
      2:{ intros E. symmetry in E. destruct Hd as [_ Hnd]. by apply headp_mid in E. }
      assert (Eh : <[Z.to_nat (cur_slot w) := headp (kept ++ rest)]> (slots w) = slots w).
      { apply insert_rd. rewrite Hs. by destruct kept. }
      unfold w1 in Hgo. rewrite Eh in Hgo.
      rewrite (unlink_other (mem w) kept p rest Hd (fun m => tick_loop fuel (set_mem (Wheel (mem w) (slots w) (cur_slot w)
        (calls w ++ [(f, user_data (dat n))])) m) (headp rest)) Hne). exact Hgo.
Qed.

(** ** The agenda *)

(** The ticks that pass before the one on which the timer runs. *)
Definition ticks_left (w : time_wheel) (p : positive) : option Z :=
  (fun d => rotation d * N + (time_slot d - cur_slot w) `mod` N) <$> data (mem w) p.

Definition on_wheel (L : Z -> list positive) (p : positive) : Prop := exists i, 0 <= i < N /\ p ∈ L i.

Definition agenda (w : time_wheel) (L : Z -> list positive) (ag : gmap positive Z) : Prop :=
  forall p k, ag !! p = Some k <-> on_wheel L p /\ ticks_left w p = Some k.

Definition is_agenda (w : time_wheel) (ag : gmap positive Z) : Prop := exists L, wheel_ok w L /\ agenda w L ag.

Lemma on_wheel_insert L i l p :
  0 <= i < N -> on_wheel (<[i := l]> L) p <-> p ∈ l \/ exists j, 0 <= j < N /\ j <> i /\ p ∈ L j.
Proof.
  intros Hi. split.
  - intros (j & Hj & Hp). destruct (decide (i = j)) as [<-|Hne].
    + rewrite fn_lookup_insert in Hp. by left.
    + rewrite fn_lookup_insert_ne in Hp by done. right. exists j. auto.
  - intros [Hp|(j & Hj & Hne & Hp)].
    + exists i. rewrite fn_lookup_insert. done.
    + exists j. rewrite fn_lookup_insert_ne by congruence. done.
Qed.

Lemma on_wheel_data w L p : wheel_ok w L -> on_wheel L p -> exists d, data (mem w) p = Some d /\ p ∈ L (time_slot d) /\
  0 <= time_slot d < N /\ 0 <= rotation d.
Proof.
  intros H (i & Hi & Hp). destruct (wheel_slot w L i H Hi) as (_ & _ & F). rewrite Forall_forall in F.
  destruct (F p Hp) as (d & E & <- & Hr). by exists d.
Qed.

Lemma on_wheel_agenda w L ag p : wheel_ok w L -> agenda w L ag -> on_wheel L p <-> is_Some (ag !! p).
Proof.
  intros H Hag. split.
  - intros Hp. destruct (on_wheel_data w L p H Hp) as (d & E & _). eexists. apply Hag. split; [done|]. unfold ticks_left. by rewrite E.
  - intros [k Hk]. by apply Hag in Hk as [? _].
Qed.

(** ** Adding a timer *)

Lemma new_addr_fresh m : m !! new_addr m = None.
Proof. apply not_elem_of_dom. exact (is_fresh (dom m : gset positive)). Qed.

Lemma new_linked (m : gmap positive (dnode tw_timer)) l p d :
  dlist m l -> m !! p = None ->
  let m1 := <[p := DNode d None None]> m in
  let m2 := setp (setn m1 (Some p) (headp l)) (headp l) (Some p) in
  dlist m2 (p :: l) /\ (forall q, data m2 q = if decide (q = p) then Some d else data m q) /\
  (forall q, q ∉ p :: l -> m2 !! q = m !! q) /\ (forall q, q ∈ l -> is_Some (m1 !! q)).
Proof.
  intros Hd Hp m1 m2. assert (Hpl : p ∉ l).
  { intros Hin. destruct (dlist_in _ _ _ Hd Hin) as [n Hn]. congruence. }
  assert (Hother : forall q, q <> p -> m1 !! q = m !! q) by (intros q Hq; by apply lookup_insert_ne).
  assert (Hm1 : m1 !! p = Some (DNode d None None)) by apply lookup_insert_eq.
  assert (Hd1 : dlist m1 l) by (eapply dlist_frame; [|exact Hd]; intros q Hq; apply Hother; by intros ->).
  split; [|split; [|split]].
  - pose proof (dlist_link m1 [] p l Hd1 ltac:(eauto) Hpl) as Hl. unfold linked_in in Hl. cbn [lastp last setn] in Hl.
    by rewrite (setp_same _ _ _ None Hm1 eq_refl) in Hl.
  - intros q. unfold m2. rewrite data_setp, data_setn. unfold data. destruct (decide (q = p)) as [->|Hne]; [by rewrite Hm1|].
    by rewrite Hother.
  - intros q [Hne Hq]%not_elem_of_cons. unfold m2. transitivity (setn m1 (Some p) (headp l) !! q).
    + destruct (headp l) as [r|] eqn:Er; [|done]. simpl. apply lookup_alter_ne. intros ->. by apply headp_in in Er.
    + simpl. rewrite lookup_alter_ne by congruence. by apply Hother.
  - intros q Hq. by eapply dlist_in.
Qed.

Lemma ticks_split c k : 0 <= c < N -> 0 <= k -> k `div` N * N + ((c + k `mod` N) `mod` N - c) `mod` N = k.
Proof. unfold N. intros Hc Hk. Z.to_euclidean_division_equations. lia. Qed.

Lemma add_timer_agenda w ag timeout :
  is_agenda w ag -> 0 <= timeout ->
  exists w' p, add_timer w timeout = Ok (w', Some p) /\ ag !! p = None /\ mem w !! p = None /\
    is_agenda w' (<[p := Z.max 1 timeout]> ag) /\ calls w' = calls w /\
    call_of (mem w') p = None /\ forall q, q <> p -> data (mem w') q = data (mem w) q.
Proof.
  intros (L & H & Hag) Ht. pose proof H as (Hlen & Hc & _). unfold add_timer. rewrite bool_decide_false by lia. cbv zeta.
  replace (if bool_decide (timeout < TI) then 1 else timeout `div` TI) with (Z.max 1 timeout)
    by (unfold TI; rewrite Z.div_1_r; case_bool_decide; lia).
  set (k := Z.max 1 timeout). set (ts := (cur_slot w + k `mod` N) `mod` N). set (p := new_addr (mem w)).
  assert (Hts : 0 <= ts < N) by (apply Z.mod_pos_bound; unfold N; lia). destruct (wheel_slot w L ts H Hts) as (Hd & Hs & Hpl).
  assert (Hp : mem w !! p = None) by apply new_addr_fresh.
  set (d := Tw_timer (k `div` N) ts None 0). set (m1 := <[p := DNode d None None]> (mem w)).
  destruct (new_linked (mem w) (L ts) p d Hd Hp) as (Hd2 & Hdat & Hoth & Hin). fold m1 in Hd2, Hdat, Hoth, Hin.
  set (m2 := setp (setn m1 (Some p) (headp (L ts))) (headp (L ts)) (Some p)) in *.
  set (w' := Wheel m2 (<[Z.to_nat ts := Some p]> (slots w)) (cur_slot w) (calls w)).
  assert (Hpout : forall j, 0 <= j < N -> p ∉ L j).
  { intros j Hj Hq. destruct (wheel_slot w L j H Hj) as (Hdj & _). destruct (dlist_in _ _ _ Hdj Hq) as [n Hn]. congruence. }
  exists w', p. split; [|split; [|split; [done|split; [|split; [done|]]]]].
  - rewrite Hs. cbn [mbind outcome_bind]. destruct (L ts) as [|h l] eqn:El; cbn [headp head].
    + rewrite wr_in_range by lia. cbn [mbind outcome_bind]. unfold w', m2, m1, set_slots, set_mem, setp. cbn [headp head setn].
      cbn [mem slots cur_slot calls]. do 3 f_equal. symmetry. apply map_eq. intros q. rewrite lookup_alter.
      case_decide; [|done]. subst q. by rewrite lookup_insert_eq.
    + rewrite put_next_ok by (exists (DNode d None None); apply lookup_insert_eq). cbn [mbind outcome_bind].
      rewrite put_prev_ok by (apply setn_some, Hin; apply elem_of_cons; by left). cbn [mbind outcome_bind].
      rewrite wr_in_range by lia. done.
  - apply eq_None_not_Some. intros Hq. apply (on_wheel_agenda w L ag p H Hag) in Hq as (j & Hj & Hq). by apply (Hpout j).
  - exists (<[ts := p :: L ts]> L). split.
    + apply (wheel_change w L ts (p :: L ts) w' H Hts); [done | done | done | |].
      * apply Forall_cons. split; [exists d; split; [by rewrite Hdat, decide_True|split; [done|]]; apply Z.div_pos; unfold N; lia|].
        rewrite Forall_forall in Hpl |- *. intros q Hq. destruct (Hpl q Hq) as (d' & E & Hd'). exists d'. split; [|done].
        rewrite Hdat, decide_False; [done|]. intros ->. by apply (Hpout ts).
      * intros j q Hj Hne Hq. apply Hoth. rewrite not_elem_of_cons. split; [intros ->; by apply (Hpout j)|].
        intros Hq'. by apply Hne, (wheel_disjoint w L j ts q).
    + intros q k'. rewrite on_wheel_insert, elem_of_cons by done. unfold ticks_left. cbn [mem cur_slot w']. rewrite Hdat.
      destruct (decide (q = p)) as [->|Hne].
      * rewrite lookup_insert_eq. simpl. unfold ts. rewrite ticks_split by lia. split; [intros [= <-]; auto|]. by intros [_ [= <-]].
      * rewrite lookup_insert_ne by congruence. rewrite (Hag q k'). unfold ticks_left. split; intros [Hq E]; (split; [|done]).
        -- destruct Hq as (j & Hj & Hq). destruct (decide (j = ts)) as [->|]; [tauto|]. right. eauto.
        -- destruct Hq as [[Hq|Hq]|(j & Hj & _ & Hq)]; [done|by exists ts|by exists j].
  - split; [unfold call_of; cbn [mem w']; by rewrite Hdat, decide_True|].
    intros q Hne. cbn [mem w']. by rewrite Hdat, decide_False.
Qed.

(** ** Deleting a timer *)

Lemma del_timer_agenda w ag p :
  is_agenda w ag -> is_Some (ag !! p) ->
  exists w', del_timer w (Some p) = Ok w' /\ is_agenda w' (base.delete p ag) /\ freed (mem w) (mem w') [p] /\ calls w' = calls w.
Proof.
  intros (L & H & Hag) Hp. apply (on_wheel_agenda w L ag p H Hag) in Hp. pose proof H as (Hlen & Hc & _).
  destruct (on_wheel_data w L p H Hp) as (d & Edat & Hpin & Hts & _). set (ts := time_slot d) in *.
  destruct (wheel_slot w L ts H Hts) as (Hd & Hs & Hpl). apply list_elem_of_split in Hpin as (l1 & l2 & El). rewrite El in *.
  destruct (remove_node _ _ _ _ Hd) as (n & Hn & Hprev & Hnext). pose proof (remove_notin _ _ _ _ Hd) as Hout.
  assert (En : dat n = d) by (unfold data in Edat; rewrite Hn in Edat; by injection Edat).
  pose proof (removed_freed (mem w) l1 p l2) as Hfr.
  set (w' := Wheel (removed (mem w) l1 p l2) (<[Z.to_nat ts := headp (l1 ++ l2)]> (slots w)) (cur_slot w) (calls w)).
  exists w'. split; [|split; [|done]].
  - unfold del_timer. rewrite (get_node_eq _ _ _ Hn). cbn [mbind outcome_bind]. cbv zeta. rewrite En. fold ts.
    rewrite Hs, Hprev, Hnext. cbn [mbind outcome_bind]. destruct (decide (l1 = [])) as [->|Hne].
    + rewrite decide_True by done. rewrite wr_in_range by lia. cbn [mbind outcome_bind].
      by rewrite (proj1 (unlink_first (mem w) [] p l2 Hd
        (fun m => Ok (set_slots (set_mem w m) (<[Z.to_nat ts := headp l2]> (slots w)))) eq_refl)).
    + rewrite decide_False by (intros E; symmetry in E; destruct Hd as [_ Hnd]; by apply headp_mid in E).
      rewrite (unlink_other (mem w) l1 p l2 Hd (fun m => Ok (set_mem w m)) Hne). unfold w'. rewrite insert_rd; [done|].
      rewrite Hs. by destruct l1.
  - exists (<[ts := l1 ++ l2]> L). split.
    + apply (wheel_change w L ts (l1 ++ l2) w' H Hts); [done | done | by apply removed_dlist | |].
      * rewrite Forall_forall in Hpl |- *. intros q Hq. destruct (Hpl q) as (d' & E & Hd').
        { rewrite <- Permutation_middle. apply elem_of_cons. by right. }
        exists d'. split; [|done]. cbn [mem w']. rewrite (Hfr q), decide_False; [done|]. intros ->%list_elem_of_singleton. done.
      * intros j q Hj Hne Hq. apply removed_other. rewrite <- El. intros Hq'. by apply Hne, (wheel_disjoint w L j ts q).
    + intros q k. rewrite on_wheel_insert by done. unfold ticks_left. cbn [mem cur_slot w']. rewrite (Hfr q).
      destruct (decide (q = p)) as [->|Hne].
      * rewrite lookup_delete_eq. rewrite decide_True by (by apply list_elem_of_singleton). split; [done|]. by intros [_ ?].
      * rewrite lookup_delete_ne by congruence. rewrite decide_False by (by rewrite list_elem_of_singleton).
        rewrite (Hag q k). unfold ticks_left. split; intros [Hq E]; (split; [|done]).
        -- destruct Hq as (j & Hj & Hq). destruct (decide (j = ts)) as [->|]; [|right; eauto]. left.
           rewrite El, <- Permutation_middle, elem_of_cons in Hq. tauto.
        -- destruct Hq as [Hq|(j & Hj & _ & Hq)]; [|by exists j]. exists ts. split; [done|].
           rewrite El, <- Permutation_middle, elem_of_cons. tauto.
Qed.

(** ** A tick of the agenda *)

(** A tick brings every timer that does not run one tick nearer. *)
Definition next_tick (ag : gmap positive Z) : gmap positive Z := Z.pred <$> filter (fun pk => pk.2 <> 0) ag.

Lemma next_tick_Some ag p k : next_tick ag !! p = Some k <-> ag !! p = Some (k + 1) /\ k + 1 <> 0.
Proof.
  unfold next_tick. rewrite lookup_fmap_Some. split.
  - intros (k' & <- & [E Hk]%map_lookup_filter_Some). simpl in Hk. by replace (Z.pred k' + 1) with k' by lia.
  - intros [E Hk]. exists (k + 1). split; [lia|]. apply map_lookup_filter_Some. done.
Qed.

Lemma ticks_other i c r : 0 <= i < N -> 0 <= c < N -> i <> c -> r * N + (i - (c + 1) `mod` N) `mod` N = r * N + (i - c) `mod` N - 1.
Proof. unfold N. intros Hi Hc Hne. Z.to_euclidean_division_equations. lia. Qed.

Lemma ticks_other_pos i c r : 0 <= i < N -> 0 <= c < N -> i <> c -> 0 <= r -> 0 < r * N + (i - c) `mod` N.
Proof. unfold N. intros Hi Hc Hne Hr. Z.to_euclidean_division_equations. lia. Qed.

Lemma ticks_own c r : 0 <= c < N -> (r - 1) * N + (c - (c + 1) `mod` N) `mod` N = r * N - 1.
Proof. unfold N. intros Hc. Z.to_euclidean_division_equations. lia. Qed.

(** What is left of the timers after a tick. *)
Lemma ticks_left_after w L w' p d :
  wheel_ok w L -> slot_ticked w w' [] (L (cur_slot w)) -> on_wheel L p -> data (mem w) p = Some d ->
  let w2 := Wheel (mem w') (slots w') ((cur_slot w' + 1) `mod` N) (calls w') in
  if decide (p ∈ fired (mem w) (L (cur_slot w))) then ticks_left w p = Some 0 /\ data (mem w2) p = None
  else exists k, ticks_left w p = Some (k + 1) /\ k + 1 <> 0 /\ ticks_left w2 p = Some k.
Proof.
  intros H (_ & _ & Hcur & _ & Hdat & _) Hp Hd w2. pose proof H as (_ & Hc & _).
  destruct (on_wheel_data w L p H Hp) as (d' & Ed & Hin & Hts & Hr). assert (d' = d) as -> by congruence.
  unfold ticks_left, w2. cbn [mem cur_slot]. rewrite Hcur, Hdat, Hd. cbn [fmap option_fmap option_map mbind option_bind].
  destruct (decide (time_slot d = cur_slot w)) as [E|E].
  - rewrite <- E in *. rewrite (decide_True (P := p ∈ L (time_slot d))) by done. rewrite Z.sub_diag.
    unfold fired. destruct (decide _) as [Hf|Hf]; rewrite list_elem_of_filter in Hf; unfold runs_now in Hf; rewrite Hd in Hf; rewrite bool_decide_eq_true in Hf.
    + assert (rotation d = 0) as E0 by lia. unfold step. rewrite E0. done.
    + unfold step. rewrite decide_True by (destruct (decide (0 < rotation d)); [done|]; exfalso; apply Hf; split; [lia|done]).
      exists (rotation d * N - 1). rewrite Z.mod_0_l by (unfold N; lia). split; [f_equal; lia|]. split.
      * assert (0 < rotation d) by (destruct (decide (0 < rotation d)); [done|]; exfalso; apply Hf; split; [lia|done]). unfold N. lia.
      * cbn. f_equal. by apply ticks_own.
  - assert (Hno : p ∉ L (cur_slot w)) by (intros Hq; by apply E, (wheel_disjoint w L _ _ p)).
    rewrite decide_False by (unfold fired; rewrite list_elem_of_filter; tauto). rewrite decide_False by done.
    pose proof (ticks_other_pos (time_slot d) (cur_slot w) (rotation d) Hts Hc E Hr).
    exists (rotation d * N + (time_slot d - cur_slot w) `mod` N - 1). split; [f_equal; lia|]. split; [lia|].
    cbn. f_equal. by apply ticks_other.
Qed.

Lemma ticked_wheel w L w' :
  wheel_ok w L -> slot_ticked w w' [] (L (cur_slot w)) ->
  wheel_ok (Wheel (mem w') (slots w') ((cur_slot w' + 1) `mod` N) (calls w')) (<[cur_slot w := waiting (mem w) (L (cur_slot w))]> L).
Proof.
  intros H (H1 & H2 & H3 & _ & H5 & H6). pose proof H as (_ & Hc & _). destruct (wheel_slot w L _ H Hc) as (_ & _ & Hpl).
  apply (wheel_change w L); [done | done | done | apply Z.mod_pos_bound; unfold N; lia | done | |].
  - rewrite Forall_forall in Hpl |- *. intros q [Hr Hq]%list_elem_of_filter. destruct (Hpl q Hq) as (d & E & Hts & Hrot).
    exists (turn d). cbn [mem]. rewrite H5, decide_True by done. unfold runs_now in Hr. rewrite E in Hr. rewrite E.
    assert (0 < rotation d) by (destruct (decide (0 < rotation d)); [done|]; exfalso; apply Hr, bool_decide_eq_true; lia).
    cbn. unfold step. rewrite decide_True by done. split; [done|]. split; [done|]. cbn. lia.
  - intros j q Hj Hne Hq. apply H6. intros Hq'. by apply Hne, (wheel_disjoint w L j (cur_slot w) q).
Qed.

Lemma slot_ticked_call w w' kept rest q :
  slot_ticked w w' kept rest -> (forall p, p ∈ rest -> is_Some (data (mem w) p)) -> q ∉ fired (mem w) rest ->
  call_of (mem w') q = call_of (mem w) q.
Proof.
  intros (_ & _ & _ & _ & H5 & _) Hd Hq. unfold call_of. rewrite H5. destruct (decide (q ∈ rest)) as [Hin|]; [|done].
  destruct (Hd q Hin) as [d E]. rewrite E. cbn. unfold step. unfold fired, runs_now in Hq. rewrite list_elem_of_filter, E, bool_decide_eq_true in Hq.
  rewrite decide_True; [done|]. destruct (decide (0 < rotation d)); [done|]. exfalso. apply Hq. split; [lia|done].
Qed.

(** The timers of an agenda have call-backs. *)
Definition armed (w : time_wheel) (ag : gmap positive Z) : Prop := forall p, is_Some (ag !! p) -> is_Some (call_of (mem w) p).

Lemma tick_agenda w ag :
  is_agenda w ag -> armed w ag ->
  exists w' run, tick w = Ok w' /\ is_agenda w' (next_tick ag) /\
    NoDup run /\ (forall p, p ∈ run <-> ag !! p = Some 0) /\ calls w' = calls w ++ omap (call_of (mem w)) run /\
    (forall p, p ∈ run -> mem w' !! p = None) /\ (forall p, p ∉ run -> call_of (mem w') p = call_of (mem w) p).
Proof.
  intros (L & H & Hag) Harm. pose proof H as (Hlen & Hc & _). destruct (wheel_slot w L _ H Hc) as (Hd & Hs & Hpl).
  pose proof Hd as [_ Hnd]. set (l := L (cur_slot w)) in *. pose proof (dlist_size _ _ Hd) as Hsize.
  assert (Hcb : Forall (fun p => is_Some (call_of (mem w) p)) l).
  { apply Forall_forall. intros p Hp. apply Harm, (on_wheel_agenda w L ag p H Hag). exists (cur_slot w). done. }
  destruct (slot_tick_loop_ok (S (size (mem w))) l [] w ltac:(lia) Hd Hs Hcb ltac:(lia)) as (w1 & E & Ht).
  assert (Hdl : forall p, p ∈ l -> is_Some (data (mem w) p)).
  { intros p Hp. apply data_some. by apply (dlist_in _ _ _ Hd). }
  exists (Wheel (mem w1) (slots w1) ((cur_slot w1 + 1) `mod` N) (calls w1)), (fired (mem w) l).
  pose proof (fun p d => ticks_left_after w L w1 p d H Ht) as Hleft. cbv zeta in Hleft. fold l in Hleft.
  assert (Hfl : forall p, p ∈ fired (mem w) l -> on_wheel L p).
  { intros p [_ Hp]%list_elem_of_filter. exists (cur_slot w). done. }
  split; [|split; [|split; [|split; [|split; [|split]]]]].
  - unfold tick. rewrite Hs. cbn [mbind outcome_bind]. by rewrite E.
  - exists (<[cur_slot w := waiting (mem w) l]> L). split; [by apply ticked_wheel|]. intros p k. rewrite next_tick_Some, (Hag p).
    rewrite on_wheel_insert by done. split.
    + intros [[Hp Hk] Hne]. destruct (on_wheel_data w L p H Hp) as (d & Ed & Hin & Hts & _). specialize (Hleft p d Hp Ed).
      destruct (decide (p ∈ fired (mem w) l)) as [Hf|Hf]; [destruct Hleft; congruence|].
      destruct Hleft as (k' & E1 & _ & E2). assert (k' = k) as -> by (rewrite Hk in E1; injection E1; lia). split; [|done].
      destruct (decide (time_slot d = cur_slot w)) as [Ec|]; [left|right; eauto]. rewrite Ec in Hin.
      apply list_elem_of_filter. split; [|done]. intros Hr. apply Hf. by apply list_elem_of_filter.
    + intros [Hin Hk]. assert (Hp : on_wheel L p).
      { destruct Hin as [[_ Hin]%list_elem_of_filter|(j & Hj & _ & Hin)]; [by exists (cur_slot w)|by exists j]. }
      destruct (on_wheel_data w L p H Hp) as (d & Ed & _). specialize (Hleft p d Hp Ed).
      destruct (decide (p ∈ fired (mem w) l)) as [Hf|Hf].
      { destruct Hleft as [_ E2]. unfold ticks_left in Hk. by rewrite E2 in Hk. }
      destruct Hleft as (k' & E1 & Hne & E2). assert (k' = k) as -> by congruence. done.
  - by apply NoDup_filter.
  - intros p. rewrite (Hag p). split.
    + intros Hf. pose proof (Hfl p Hf) as Hp. split; [done|]. destruct (on_wheel_data w L p H Hp) as (d & Ed & _).
      specialize (Hleft p d Hp Ed). rewrite decide_True in Hleft by done. tauto.
    + intros [Hp E0]. destruct (on_wheel_data w L p H Hp) as (d & Ed & _). specialize (Hleft p d Hp Ed).
      destruct (decide (p ∈ fired (mem w) l)) as [Hf|Hf]; [done|]. destruct Hleft as (k & E1 & Hne & _). congruence.
  - destruct Ht as (_ & _ & _ & Hcalls & _). done.
  - intros p Hf. pose proof (Hfl p Hf) as Hp. destruct (on_wheel_data w L p H Hp) as (d & Ed & _).
    specialize (Hleft p d Hp Ed). rewrite decide_True in Hleft by done. destruct Hleft as [_ E2]. unfold data in E2. cbn [mem] in *.
    by destruct (mem w1 !! p).
  - intros p Hf. cbn [mem]. by apply (slot_ticked_call w w1 [] l p).
Qed.

(** ** Many ticks *)

Fixpoint ticks (n : nat) (w : time_wheel) : outcome time_wheel :=
  match n with
  | O => Ok w
  | S n => w ← tick w; ticks n w
  end.

Lemma ticks_agenda n : forall w ag,
  is_agenda w ag -> armed w ag -> exists w', ticks n w = Ok w' /\ is_agenda w' (Nat.iter n next_tick ag) /\
    armed w' (Nat.iter n next_tick ag) /\
    (forall p, is_Some (Nat.iter n next_tick ag !! p) -> call_of (mem w') p = call_of (mem w) p) /\
    exists cs, calls w' = calls w ++ cs.
Proof.
  induction n as [|n IH]; intros w ag Hag Harm.
  { exists w. do 4 (split; [done|]). exists []. by rewrite app_nil_r. }
  destruct (tick_agenda w ag Hag Harm) as (w1 & run & E & Hag1 & _ & Hrun & Hcalls & _ & Hcall).
  assert (Hkeep : forall p, is_Some (next_tick ag !! p) -> is_Some (ag !! p) /\ call_of (mem w1) p = call_of (mem w) p).
  { intros p [k [Hk Hne]%next_tick_Some]. split; [eauto|]. apply Hcall. rewrite Hrun. congruence. }
  assert (Harm1 : armed w1 (next_tick ag)).
  { intros p Hp. destruct (Hkeep p Hp) as [Hp' ->]. by apply Harm. }
  destruct (IH w1 (next_tick ag) Hag1 Harm1) as (w' & E' & Hag' & Harm' & Hcall' & cs & Hcs).
  assert (Eit : Nat.iter (S n) next_tick ag = Nat.iter n next_tick (next_tick ag)) by apply Nat.iter_succ_r.
  exists w'. rewrite Eit. cbn [ticks]. rewrite E. cbn [mbind outcome_bind]. do 3 (split; [done|]). split.
  - intros p Hp. rewrite Hcall' by done. apply Hkeep. clear -Hp. revert Hp. generalize (next_tick ag). induction n as [|n IH]; [done|].
    intros a. rewrite Nat.iter_succ_r. intros [k [Hk _]%next_tick_Some]%IH. eauto.
  - exists (omap (call_of (mem w)) run ++ cs). by rewrite Hcs, Hcalls, app_assoc.
Qed.

Lemma iter_next_tick n ag p k : Nat.iter n next_tick ag !! p = Some k -> 0 <= k -> ag !! p = Some (k + Z.of_nat n).
Proof.
  revert k. induction n as [|n IH]; intros k; cbn [Nat.iter nat_rect].
  - intros H _. by rewrite Z.add_0_r.
  - intros [H _]%next_tick_Some Hk. apply IH in H; [|lia]. rewrite H. f_equal. lia.
Qed.

Lemma iter_next_tick_Some n ag p k : ag !! p = Some (k + Z.of_nat n) -> 0 <= k -> Nat.iter n next_tick ag !! p = Some k.
Proof.
  revert k. induction n as [|n IH]; intros k H Hk; cbn [Nat.iter nat_rect].
  - by rewrite Z.add_0_r in H.
  - apply next_tick_Some. split; [|lia]. apply IH; [|lia]. rewrite H. f_equal. lia.
Qed.

(** ** The destructor *)

Lemma destroy_loop_ok i fuel : forall ps y w,
  dseg (mem w) (headp ps) y ps None -> NoDup ps -> 0 <= i < Zlen (slots w) -> rd (slots w) i = Ok (headp ps) ->
  (length ps < fuel)%nat ->
  exists w', destroy_loop fuel i w (headp ps) = Ok w' /\ slots w' = <[Z.to_nat i := None]> (slots w) /\
             forall q, mem w' !! q = if decide (q ∈ ps) then None else mem w !! q.
Proof.
  induction fuel as [|fuel IH]; intros ps y w Hd Hnd Hi Hs Hf; [lia|]. destruct ps as [|p ps].
  { exists w. split; [done|]. split; [by rewrite insert_rd|]. intros q. rewrite decide_False; [done|]. apply not_elem_of_nil. }
  cbn [destroy_loop headp head]. destruct Hd as (_ & n & Hn & _ & Hd). apply NoDup_cons in Hnd as [Hp Hnd]. simpl in Hf.
  pose proof (dseg_head _ _ _ _ _ Hd) as Hnx. change (next n = headp ps) in Hnx.
  rewrite (get_node_eq _ _ _ Hn). cbn [mbind outcome_bind]. rewrite wr_in_range by done. cbn [mbind outcome_bind].
  rewrite free_node_ok by eauto. cbn [mbind outcome_bind]. rewrite rd_insert_eq by done. cbn [mbind outcome_bind]. rewrite Hnx in *.
  destruct (IH ps (Some p) (set_slots (set_mem w (base.delete p (mem w))) (<[Z.to_nat i := headp ps]> (slots w))))
    as (w' & E & Hsl & Hm); cbn [mem slots set_slots set_mem] in *.
  - eapply dseg_frame; [|exact Hd]. intros q Hq. apply lookup_delete_ne. by intros ->.
  - done.
  - by rewrite Zlen_insert.
  - by apply rd_insert_eq.
  - lia.
  - exists w'. split; [exact E|]. split; [by rewrite Hsl, list_insert_insert_eq|]. intros q. rewrite Hm. rewrite lookup_delete.
    destruct (decide (q ∈ ps)) as [H1|H1], (decide (q ∈ p :: ps)) as [H2|H2]; rewrite ?elem_of_cons in H2; try tauto.
    + destruct (decide (p = q)); [done|]. destruct H2; [congruence|done].
    + rewrite decide_False; [done|]. intros ->. tauto.
Qed.

Lemma destroy_agenda w ag :
  is_agenda w ag -> exists w', destroy w = Ok w' /\ slots w' = replicate (Z.to_nat N) None /\
    forall p, mem w' !! p = if decide (is_Some (ag !! p)) then None else mem w !! p.
Proof.
  intros (L & H & Hag). pose proof H as (Hlen & _).
  set (P := fun (i : Z) (v : time_wheel) => Zlen (slots v) = N /\
        (forall j, 0 <= j < N -> rd (slots v) j = Ok (if decide (j < i) then None else headp (L j))) /\
        (forall p j, 0 <= j < i -> p ∈ L j -> mem v !! p = None) /\
        (forall p, (forall j, 0 <= j < i -> p ∉ L j) -> mem v !! p = mem w !! p)).
  destruct (for_inv P (fun i w => tmp ← rd (slots w) i; destroy_loop (S (size (mem w))) i w tmp) (Z.to_nat N) 0 w) as (w' & E & HP).
  - intros i v Hi (Hl & Hsl & Hgone & Hsame). destruct (wheel_slot w L i H ltac:(unfold N in *; lia)) as (Hd & _ & _).
    assert (Hother : forall q j, 0 <= j < i -> q ∈ L j -> q ∉ L i).
    { intros q j Hj Hq Hq'. pose proof (wheel_disjoint w L j i q H ltac:(unfold N in *; lia) ltac:(unfold N in *; lia) Hq Hq'). lia. }
    assert (Hdv : dlist (mem v) (L i)).
    { eapply dlist_frame; [|exact Hd]. intros q Hq. apply Hsame. intros j Hj Hq'. by apply (Hother q j). }
    rewrite Hsl by (unfold N in *; lia). rewrite decide_False by lia. cbn [mbind outcome_bind].
    destruct (destroy_loop_ok i (S (size (mem v))) (L i) None v) as (v' & E & Hsl' & Hm).
    + apply Hdv.
    + apply Hdv.
    + rewrite Hl. unfold N in *. lia.
    + rewrite Hsl by (unfold N in *; lia). by rewrite decide_False by lia.
    + apply dlist_size in Hdv. lia.
    + exists v'. split; [exact E|]. split; [by rewrite Hsl', Zlen_insert|]. split; [|split].
      * intros j Hj. rewrite Hsl'. destruct (decide (j = i)) as [->|Hne].
        -- rewrite rd_insert_eq by lia. by rewrite decide_True by lia.
        -- rewrite rd_insert_ne by lia. rewrite Hsl by done.
           destruct (decide (j < i)), (decide (j < i + 1)); try done; lia.
      * intros p j Hj Hp. rewrite Hm. destruct (decide (p ∈ L i)); [done|]. apply (Hgone p j); [|done].
        destruct (decide (j = i)) as [->|]; [done|lia].
      * intros p Hp. rewrite Hm, decide_False by (apply Hp; lia). apply Hsame. intros j Hj. apply Hp. lia.
  - split; [done|]. split; [|split; [intros p j Hj; lia|done]]. intros j Hj. rewrite decide_False by lia. by apply (wheel_slot w L j H).
  - destruct HP as (Hl & Hsl & Hgone & Hsame). exists w'. split; [exact E|]. split.
    + apply list_eq_same_length with (n := Z.to_nat N); [by rewrite length_replicate|unfold Zlen in Hl; lia|].
      intros i x y Hi Hx. rewrite lookup_replicate_2 by done. intros [= <-].
      destruct (proj1 (rd_Ok_iff _ _ _) (Hsl (Z.of_nat i) ltac:(lia))) as [_ Hx']. rewrite Nat2Z.id in Hx'.
      rewrite decide_True in Hx' by (unfold N in *; lia). congruence.
    + intros p. destruct (decide (is_Some (ag !! p))) as [Hp|Hp]; rewrite <- (on_wheel_agenda w L ag p H Hag) in Hp.
      * destruct Hp as (j & Hj & Hp). apply (Hgone p j); [unfold N in *; lia|done].
      * apply Hsame. intros j Hj Hq. apply Hp. exists j. split; [unfold N in *; lia|done].
Qed.

(** ** Setting the call-back *)

(** [timer->cb_func = f; timer->user_data = u;] by the caller of [add_timer]. *)
Definition arm (w : time_wheel) (p : positive) (f u : Z) : time_wheel :=
  set_mem w (alter (with_dat (fun d => Tw_timer (rotation d) (time_slot d) (Some f) u)) p (mem w)).

Lemma arm_agenda w ag p f u : is_agenda w ag -> is_agenda (arm w p f u) ag.
Proof.
  intros (L & (Hl & Hc & H) & Hag). exists L. split.
  - split; [done|]. split; [done|]. intros i Hi. destruct (H i Hi) as (Hd & Hs & Hpl). split; [by apply dlist_alter|]. split; [done|].
    rewrite Forall_forall in Hpl |- *. intros q Hq. destruct (Hpl q Hq) as (d & E & Hd'). unfold placed. cbn [arm mem set_mem].
    rewrite data_alter, E. case_decide; [|by exists d]. by eexists.
  - intros q k. rewrite (Hag q k). unfold ticks_left. cbn [arm mem set_mem cur_slot]. rewrite data_alter.
    case_decide; [|done]. by destruct (data (mem w) q).
Qed.

Lemma arm_call w p f u q :
  is_Some (mem w !! p) -> call_of (mem (arm w p f u)) q = if decide (q = p) then Some (f, u) else call_of (mem w) q.
Proof.
  intros [d E]%data_some. unfold call_of. cbn [arm mem set_mem]. rewrite data_alter. case_decide; [|done]. subst q. by rewrite E.
Qed.

(** ** The new wheel *)

Lemma new_wheel_agenda m junk : Zlen junk = N -> exists w, new_wheel m junk = Ok w /\ mem w = m /\ is_agenda w ∅.
Proof.
  intros Hl. unfold new_wheel.
  destruct (for_inv (fun i sl => Zlen sl = N /\ forall j, 0 <= j < i -> rd sl j = Ok (@None positive)) (fun i sl => wr sl i None) (Z.to_nat N) 0 junk)
    as (sl & E & Hsl & Hnone); [|split; [done|lia]|].
  - intros i sl Hi [Hsl Hnone]. rewrite wr_in_range by (unfold N in *; lia). eexists. split; [done|]. split; [by rewrite Zlen_insert|].
    intros j Hj. destruct (decide (j = i)) as [->|]; [apply rd_insert_eq; unfold N in *; lia|]. rewrite rd_insert_ne by lia. apply Hnone. lia.
  - rewrite E. eexists. split; [done|]. split; [done|]. exists (fun _ => []). split.
    + split; [done|]. split; [unfold N; cbn; lia|]. intros i Hi. split; [split; [done|constructor]|]. split; [|constructor].
      apply Hnone. unfold N in *. lia.
    + intros p k. rewrite lookup_empty. split; [done|]. intros [(i & _ & Hp) _]. by apply not_elem_of_nil in Hp.
Qed.

(** ** Properties *)

(** C21: The timing wheel refines an agenda, a map from timers to the ticks they have left:
    adding a timer with a non-negative timeout enters a new one with that many ticks
    (at least one) and a negative timeout does nothing; deleting a timer takes it off
    the agenda and frees it; a tick runs exactly the timers with no tick left, each
    once, frees them, and brings the others one tick nearer; the destructor frees every
    timer of the agenda and nothing else. *)
Theorem timing_wheel_refines w ag :
  is_agenda w ag ->
  (forall timeout, timeout < 0 -> add_timer w timeout = Ok (w, None)) /\
  (forall timeout, 0 <= timeout ->
     exists w' p, add_timer w timeout = Ok (w', Some p) /\ ag !! p = None /\ is_agenda w' (<[p := Z.max 1 timeout]> ag) /\
       calls w' = calls w /\ forall q, q <> p -> data (mem w') q = data (mem w) q) /\
  (forall p, is_Some (ag !! p) ->
     exists w', del_timer w (Some p) = Ok w' /\ is_agenda w' (base.delete p ag) /\ freed (mem w) (mem w') [p] /\ calls w' = calls w) /\
  (armed w ag ->
     exists w' run, tick w = Ok w' /\ is_agenda w' (next_tick ag) /\ NoDup run /\ (forall p, p ∈ run <-> ag !! p = Some 0) /\
       calls w' = calls w ++ omap (call_of (mem w)) run /\ (forall p, p ∈ run -> mem w' !! p = None)) /\
  (exists w', destroy w = Ok w' /\ forall p, mem w' !! p = if decide (is_Some (ag !! p)) then None else mem w !! p).
Proof.
  intros Hag. split; [|split; [|split; [|split]]].
  - intros timeout Ht. unfold add_timer. by rewrite bool_decide_true.
  - intros timeout Ht. destruct (add_timer_agenda w ag timeout Hag Ht) as (w' & p & E & H1 & _ & H2 & H3 & _ & H4). by exists w', p.
  - intros p Hp. by apply del_timer_agenda.
  - intros Harm. destruct (tick_agenda w ag Hag Harm) as (w' & run & E & H1 & H2 & H3 & H4 & H5 & _). by exists w', run.
  - destruct (destroy_agenda w ag Hag) as (w' & E & _ & Hm). by exists w'.
Qed.

(** A wheel in the middle of its turn with one timer on it. *)
Definition small_wheel : time_wheel :=
  Wheel {[ 7%positive := DNode (Tw_timer 0 58 (Some 1) 70) None None ]} (<[58%nat := Some 7%positive]> (replicate 60 None)) 58 [].

Lemma small_wheel_agenda : is_agenda small_wheel {[ 7%positive := 0 ]} /\ armed small_wheel {[ 7%positive := 0 ]}.
Proof.
  set (L := fun i : Z => if decide (i = 58) then [7%positive] else []).
  assert (HL : forall p i, p ∈ L i <-> i = 58 /\ p = 7%positive).
  { intros p i. unfold L. case_decide; rewrite ?list_elem_of_singleton, ?elem_of_nil; tauto. }
  split.
  - exists L. split.
    + split; [done|]. split; [unfold N; cbn; lia|]. intros i Hi. unfold slot_ok, L. destruct (decide (i = 58)) as [->|Hne].
      * split; [split; [cbn; split; [done|by eexists]|apply NoDup_singleton]|]. split; [done|]. apply Forall_singleton. by eexists.
      * split; [split; [done|constructor]|]. split; [|constructor]. apply rd_Ok_iff. split; [lia|]. cbn [slots small_wheel].
        rewrite list_lookup_insert_ne by lia. apply lookup_replicate_2. unfold N in Hi. lia.
    + intros p k. unfold on_wheel. setoid_rewrite HL. destruct (decide (p = 7%positive)) as [->|Hne].
      * cbn. split; [intros [= <-]|by intros [_ [= <-]]]. split; [|done]. exists 58. split; [unfold N; lia|done].
      * rewrite lookup_singleton_ne by congruence. split; [done|]. intros [(i & _ & _ & ?) _]. done.
  - intros p. destruct (decide (p = 7%positive)) as [->|Hne]; [by eexists|]. rewrite lookup_singleton_ne by congruence. by intros [? ?].
Qed.

Lemma timing_wheel_refines_witness :
  (exists w' p, add_timer small_wheel 125 = Ok (w', Some p) /\ is_agenda w' (<[p := 125]> {[ 7%positive := 0 ]})) /\
  (exists w', del_timer small_wheel (Some 7%positive) = Ok w' /\ mem w' !! 7%positive = None) /\
  (exists w', tick small_wheel = Ok w' /\ calls w' = [(1, 70)] /\ cur_slot w' = 59) /\
  (exists w', destroy small_wheel = Ok w' /\ mem w' !! 7%positive = None).
Proof.
  destruct small_wheel_agenda as [Hag Harm]. destruct (timing_wheel_refines small_wheel _ Hag) as (_ & H1 & H2 & H3 & H4).
  split; [|split; [|split]].
  - destruct (H1 125 ltac:(lia)) as (w' & p & E & _ & Hag' & _). by exists w', p.
  - destruct (H2 7%positive ltac:(by eexists)) as (w' & E & _). exists w'. split; [exact E|]. vm_compute in E. by injection E as <-.
  - destruct (H3 Harm) as (w' & run & E & _). exists w'. split; [exact E|]. vm_compute in E. by injection E as <-.
  - destruct H4 as (w' & E & Hm). exists w'. split; [exact E|]. by rewrite Hm.
Defined.

(** C22: A timer runs on time: of a timer added with a timeout [t] (taken as one when it is
    zero) and given a call-back, [t] ticks later and not before the next tick runs that
    call-back and frees the timer; meanwhile it stays on the wheel, with one tick less
    after each. *)
Theorem timer_on_time w ag timeout f u :
  is_agenda w ag -> armed w ag -> 0 <= timeout ->
  let t := Z.max 1 timeout in
  exists w0 p, add_timer w timeout = Ok (w0, Some p) /\
    (forall n, 0 <= n <= t ->
       exists wn, ticks (Z.to_nat n) (arm w0 p f u) = Ok wn /\ ticks_left wn p = Some (t - n) /\ call_of (mem wn) p = Some (f, u)) /\
    exists w1 w2 cs, ticks (Z.to_nat t) (arm w0 p f u) = Ok w1 /\ tick w1 = Ok w2 /\
      calls w2 = calls w1 ++ cs /\ (f, u) ∈ cs /\ mem w2 !! p = None.
Proof.
  intros Hag Harm Ht t. destruct (add_timer_agenda w ag timeout Hag Ht) as (w0 & p & E & Hfresh & Hnone & Hag0 & _ & _ & Hdat).
  fold t in Hag0. set (ag0 := <[p := t]> ag) in *. assert (Hp0 : ag0 !! p = Some t) by apply lookup_insert_eq.
  assert (Hmem : is_Some (mem w0 !! p)).
  { destruct Hag0 as (L & HL & Hagd). apply Hagd in Hp0 as [Hp _]. apply data_some.
    destruct (on_wheel_data w0 L p HL Hp) as (d & Ed & _). eauto. }
  pose proof (arm_agenda w0 ag0 p f u Hag0) as Hag1. assert (Harm1 : armed (arm w0 p f u) ag0).
  { intros q Hq. rewrite arm_call by done. case_decide; [done|]. unfold call_of. rewrite Hdat by done. apply Harm.
    unfold ag0 in Hq. by rewrite lookup_insert_ne in Hq by congruence. }
  assert (Hn : forall n, 0 <= n <= t -> exists wn, ticks (Z.to_nat n) (arm w0 p f u) = Ok wn /\
     is_agenda wn (Nat.iter (Z.to_nat n) next_tick ag0) /\ armed wn (Nat.iter (Z.to_nat n) next_tick ag0) /\
     Nat.iter (Z.to_nat n) next_tick ag0 !! p = Some (t - n) /\ call_of (mem wn) p = Some (f, u)).
  { intros n Hn. destruct (ticks_agenda (Z.to_nat n) _ _ Hag1 Harm1) as (wn & En & Hagn & Harmn & Hc & _). exists wn.
    assert (Hl : Nat.iter (Z.to_nat n) next_tick ag0 !! p = Some (t - n)) by (apply iter_next_tick_Some; [rewrite Hp0; f_equal|]; lia).
    do 4 (split; [done|]). rewrite Hc by eauto. by rewrite arm_call, decide_True. }
  exists w0, p. split; [done|]. split.
  - intros n Hr. destruct (Hn n Hr) as (wn & En & (L & HL & Hagd) & _ & Hl & Hc). exists wn. split; [done|]. split; [|done].
    by apply Hagd in Hl as [_ Hl].
  - destruct (Hn t ltac:(lia)) as (w1 & E1 & Hag2 & Harm2 & Hl & Hc). rewrite Z.sub_diag in Hl.
    destruct (tick_agenda w1 _ Hag2 Harm2) as (w2 & run & E2 & _ & _ & Hrun & Hcalls & Hfree & _).
    exists w1, w2, (omap (call_of (mem w1)) run). do 3 (split; [done|]). apply Hrun in Hl. split; [|by apply Hfree].
    apply list_elem_of_omap. by exists p.
Qed.

Lemma timer_on_time_witness :
  exists w0 p, add_timer small_wheel 125 = Ok (w0, Some p) /\
    exists w1 w2 cs, ticks 125 (arm w0 p 9 90) = Ok w1 /\ tick w1 = Ok w2 /\ calls w2 = calls w1 ++ cs /\ (9, 90) ∈ cs.
Proof.
  destruct small_wheel_agenda as [Hag Harm].
  destruct (timer_on_time small_wheel _ 125 9 90 Hag Harm ltac:(lia)) as (w0 & p & E & _ & w1 & w2 & cs & H1 & H2 & H3 & H4 & _).
  exists w0, p. split; [exact E|]. by exists w1, w2, cs.
Defined.
