(* ===== verification/HttpParser.v ===== *)
(** * The HTTP request parser

    src/src/Linux High Perfermance Server Program/codes/8/8-3httpparser.cpp: a server
    that reads a request into a buffer, packet by packet, finds its lines, and parses
    each in place, ending the strings it finds by writing NULs into the buffer.  It is
    shown to give the same answer and the same output however the request is cut into
    packets: those of a specification on the stream of bytes. *)

From stdpp Require Import base numbers list list_numbers strings.
From S2P Require Import Prelude CStr.

#[local] Open Scope Z_scope.

(** ** The parser *)

Definition BUFFER_SIZE : Z := 4096.

Inductive CHECK_STATE := CHECK_STATE_REQUESTLINE | CHECK_STATE_HEADER | CHECK_STATE_CONTENT.
Inductive LINE_STATUS := LINE_OK | LINE_BAD | LINE_OPEN.
Inductive HTTP_CODE := NO_REQUEST | GET_REQUEST | BAD_REQUEST | FORBIDDEN_REQUEST | INTERNAL_ERROR | CLOSED_CONNECTION.

#[global] Instance line_status_eq_dec : EqDecision LINE_STATUS.
Proof. solve_decision. Defined.
#[global] Instance http_code_eq_dec : EqDecision HTTP_CODE.
Proof. solve_decision. Defined.

(** The buffer and the variables of [main]; [out] is what was printed. *)
Record parser := Parser {
  buffer : list Z; checked_index : Z; read_index : Z; start_line : Z; checkstate : CHECK_STATE; out : list Z;
}.

Definition set_buffer (p : parser) x := Parser x (checked_index p) (read_index p) (start_line p) (checkstate p) (out p).
Definition set_checked (p : parser) x := Parser (buffer p) x (read_index p) (start_line p) (checkstate p) (out p).
Definition set_read (p : parser) x := Parser (buffer p) (checked_index p) x (start_line p) (checkstate p) (out p).
Definition set_start (p : parser) x := Parser (buffer p) (checked_index p) (read_index p) x (checkstate p) (out p).
Definition set_state (p : parser) x := Parser (buffer p) (checked_index p) (read_index p) (start_line p) x (out p).
Definition printf (p : parser) (s : list Z) :=
  Parser (buffer p) (checked_index p) (read_index p) (start_line p) (checkstate p) (out p ++ s).

(** The loop of [parse_line], which runs [read_index - checked_index] times at most. *)
Fixpoint line_loop (n : nat) (p : parser) : outcome (parser * LINE_STATUS) :=
  match n with
  | O => Ok (p, LINE_OPEN)
  | S n =>
      let ci := checked_index p in
      temp ← rd (buffer p) ci;
      if decide (temp = CR) then
        if decide (ci + 1 = read_index p) then Ok (p, LINE_OPEN)
        else
          next ← rd (buffer p) (ci + 1);
          if decide (next = LF) then
            b ← wr (buffer p) ci 0;
            b ← wr b (ci + 1) 0;
            Ok (set_checked (set_buffer p b) (ci + 2), LINE_OK)
          else Ok (p, LINE_BAD)
      else if decide (temp = LF) then
        ok ← (if bool_decide (1 < ci) then prev ← rd (buffer p) (ci - 1); Ok (bool_decide (prev = CR)) else Ok false);
        if ok : bool then
          b ← wr (buffer p) (ci - 1) 0;
          b ← wr b ci 0;
          Ok (set_checked (set_buffer p b) (ci + 1), LINE_OK)
        else Ok (p, LINE_BAD)
      else line_loop n (set_checked p (ci + 1))
  end.

Definition parse_line (p : parser) : outcome (parser * LINE_STATUS) :=
  line_loop (Z.to_nat (read_index p - checked_index p)) p.

Definition parse_requestline (p : parser) (szTemp : Z) : outcome (parser * HTTP_CODE) :=
  s ← cstr (buffer p) szTemp;
  match find_char is_blank s with
  | None => Ok (p, BAD_REQUEST)
  | Some k =>
      b ← wr (buffer p) (szTemp + k) 0;
      let p := set_buffer p b in
      let szURL := szTemp + k + 1 in
      szMethod ← cstr (buffer p) szTemp;
      if same_nocase szMethod (text "GET") then
        let p := printf p (text "The request method is GET" ++ [LF]) in
        s ← cstr (buffer p) szURL;
        let szURL := szURL + span_blanks s in
        s ← cstr (buffer p) szURL;
        match find_char is_blank s with
        | None => Ok (p, BAD_REQUEST)
        | Some k =>
            b ← wr (buffer p) (szURL + k) 0;
            let p := set_buffer p b in
            let szVersion := szURL + k + 1 in
            s ← cstr (buffer p) szVersion;
            let szVersion := szVersion + span_blanks s in
            s ← cstr (buffer p) szVersion;
            if same_nocase s (text "HTTP/1.1") then
              url ← cstr (buffer p) szURL;
              let szURL' := (if same_nocase_n url (text "http://") 7
                             then k ← find_char (fun c => bool_decide (c = 47)) (drop 7 url); Some (szURL + 7 + k)
                             else Some szURL) in
              match szURL' with
              | None => Ok (p, BAD_REQUEST)
              | Some szURL =>
                  url ← cstr (buffer p) szURL;
                  if bool_decide (head url = Some 47) then
                    Ok (set_state (printf p (text "The request URL is: " ++ url ++ [LF])) CHECK_STATE_HEADER, NO_REQUEST)
                  else Ok (p, BAD_REQUEST)
              end
            else Ok (p, BAD_REQUEST)
        end
      else Ok (p, BAD_REQUEST)
  end.

Definition parse_headers (p : parser) (szTemp : Z) : outcome (parser * HTTP_CODE) :=
  s ← cstr (buffer p) szTemp;
  if bool_decide (s = []) then Ok (p, GET_REQUEST)
  else if same_nocase_n s (text "Host:") 5 then
    s ← cstr (buffer p) (szTemp + 5);
    let szTemp := szTemp + 5 + span_blanks s in
    s ← cstr (buffer p) szTemp;
    Ok (printf p (text "the request host is: " ++ s ++ [LF]), NO_REQUEST)
  else Ok (printf p (text "I can not handle this header" ++ [LF]), NO_REQUEST).

(** Every line takes two bytes or more, so [read_index] turns are enough. *)
Fixpoint content_loop (fuel : nat) (p : parser) : outcome (parser * HTTP_CODE) :=
  match fuel with
  | O => Fault OutOfFuel
  | S fuel =>
      '(p, linestatus) ← parse_line p;
      match linestatus with
      | LINE_OK =>
          let szTemp := start_line p in
          let p := set_start p (checked_index p) in
          match checkstate p with
          | CHECK_STATE_REQUESTLINE =>
              '(p, retcode) ← parse_requestline p szTemp;
              if decide (retcode = BAD_REQUEST) then Ok (p, BAD_REQUEST) else content_loop fuel p
          | CHECK_STATE_HEADER =>
              '(p, retcode) ← parse_headers p szTemp;
              if decide (retcode = BAD_REQUEST) then Ok (p, BAD_REQUEST)
              else if decide (retcode = GET_REQUEST) then Ok (p, GET_REQUEST)
              else content_loop fuel p
          | CHECK_STATE_CONTENT => Ok (p, INTERNAL_ERROR)
          end
      | LINE_OPEN => Ok (p, NO_REQUEST)
      | LINE_BAD => Ok (p, BAD_REQUEST)
      end
  end.

Definition parse_content (p : parser) : outcome (parser * HTTP_CODE) := content_loop (S (Z.to_nat (read_index p))) p.

(** ** The connection *)

(** What [recv] finds: some bytes, the end of the stream, or an error. *)
Inductive recv_event := Packet (bytes : list Z) | Closed | Failed.

(** How the loop of [main] ends; [Waiting] when no more events are given. *)
Inductive ending_ := Sent (answer : list Z) | ReadFailed | RemoteClosed | Waiting.

Definition szret0 : list Z := text "I get a correct result" ++ [LF].
Definition szret1 : list Z := text "Something wrong" ++ [LF].

(** [recv] with no room returns 0, like the end of the stream.  A packet that does not
    fit is cut; what is left of it is not read, since the buffer is full then. *)
Fixpoint serve (net : list recv_event) (p : parser) : outcome (parser * ending_) :=
  if decide (BUFFER_SIZE - read_index p = 0)
  then Ok (printf p (text "remote client has closed the connection" ++ [LF]), RemoteClosed)
  else
    match net with
    | [] => Ok (p, Waiting)
    | Failed :: _ => Ok (printf p (text "reading failed" ++ [LF]), ReadFailed)
    | Closed :: _ | Packet [] :: _ => Ok (printf p (text "remote client has closed the connection" ++ [LF]), RemoteClosed)
    | Packet bytes :: net =>
        let got := take (Z.to_nat (BUFFER_SIZE - read_index p)) bytes in
        b ← wr_slice (buffer p) (read_index p) got;
        '(p, result) ← parse_content (set_read (set_buffer p b) (read_index p + Zlen got));
        match result with
        | NO_REQUEST => serve net p
        | GET_REQUEST => Ok (p, Sent szret0)
        | _ => Ok (p, Sent szret1)
        end
    end.

Definition fresh : parser := Parser (replicate (Z.to_nat BUFFER_SIZE) 0) 0 0 0 CHECK_STATE_REQUESTLINE [].
Definition connection (net : list recv_event) : outcome (parser * ending_) := serve net fresh.

Example get_slash :
  match connection [Packet (text "GET / HTTP/1.1" ++ [CR]); Packet ([LF] ++ text "Host: a" ++ [CR; LF; CR; LF])] with
  | Ok (p, e) => e = Sent szret0 /\ out p = text "The request method is GET" ++ [LF] ++ text "The request URL is: /" ++ [LF] ++
                   text "the request host is: a" ++ [LF]
  | Fault _ => False
  end.
Proof. by vm_compute. Qed.

(** ** The specification of a line *)

Definition method_msg : list Z := text "The request method is GET" ++ [LF].
Definition url_msg (url : list Z) : list Z := text "The request URL is: " ++ url ++ [LF].

(** A request line: the method GET, blanks, a URL that is a path or begins with the
    scheme and contains a path, blanks, the version; what is printed for it. *)
Definition request_spec (s : list Z) : list Z * bool :=
  match find_char is_blank s with
  | None => ([], false)
  | Some k =>
      if same_nocase (take (Z.to_nat k) s) (text "GET") then
        let u := skip_blanks (drop (Z.to_nat (k + 1)) s) in
        match find_char is_blank u with
        | None => (method_msg, false)
        | Some k =>
            let url := take (Z.to_nat k) u in
            if same_nocase (skip_blanks (drop (Z.to_nat (k + 1)) u)) (text "HTTP/1.1") then
              match (if same_nocase_n url (text "http://") 7 then from_slash (drop 7 url) else Some url) with
              | Some url => if bool_decide (head url = Some 47) then (method_msg ++ url_msg url, true) else (method_msg, false)
              | None => (method_msg, false)
              end
            else (method_msg, false)
        end
      else ([], false)
  end.

(** A header line, and whether it is the empty one that ends the request. *)
Definition header_spec (s : list Z) : list Z * bool :=
  if bool_decide (s = []) then ([], true)
  else if same_nocase_n s (text "Host:") 5
  then (text "the request host is: " ++ skip_blanks (drop 5 s) ++ [LF], false)
  else (text "I can not handle this header" ++ [LF], false).

(** What a line does to the parser. *)
Definition line_result (p p' : parser) (n : Z) (o : list Z) : Prop :=
  agree_from n (buffer p) (buffer p') /\ checked_index p' = checked_index p /\ read_index p' = read_index p /\
  start_line p' = start_line p /\ out p' = out p ++ o.

Lemma parse_requestline_ok p i s :
  at_ (buffer p) i s ->
  exists p', parse_requestline p i = Ok (p', if (request_spec s).2 then NO_REQUEST else BAD_REQUEST) /\
             line_result p p' (i + Zlen s) (request_spec s).1 /\
             checkstate p' = if (request_spec s).2 then CHECK_STATE_HEADER else checkstate p.
Proof.
  intros Ha. unfold parse_requestline, request_spec. rewrite (cstr_ok _ _ _ Ha). cbn [mbind outcome_bind].
  assert (Hsame : agree_from (i + Zlen s) (buffer p) (buffer p)) by done.
  destruct (find_char is_blank s) as [k|] eqn:Ek.
  2:{ exists p. split; [done|]. split; [|done]. unfold line_result. rewrite app_nil_r. done. }
  pose proof (find_char_range _ _ _ Ek) as Hk.
  destruct (at_write _ _ _ k Ha Hk) as (b1 & -> & Hm & Hu & Hag1). cbn [mbind outcome_bind]. cbv zeta.
  cbn [buffer set_buffer]. rewrite (cstr_ok _ _ _ Hm). cbn [mbind outcome_bind].
  destruct (same_nocase (take (Z.to_nat k) s) (text "GET")).
  2:{ eexists. split; [done|]. split; [|done]. unfold line_result. simpl. rewrite app_nil_r. done. }
  cbn [buffer set_buffer printf]. rewrite (cstr_ok _ _ _ Hu). cbn [mbind outcome_bind].
  set (r := drop (Z.to_nat (k + 1)) s) in *. pose proof (span_blanks_range r) as Hsp.
  pose proof (at_skip _ _ _ _ Hu Hsp) as Hu'. fold (skip_blanks r) in Hu'. rewrite (cstr_ok _ _ _ Hu'). cbn [mbind outcome_bind].
  set (u := skip_blanks r) in *. set (j := i + k + 1 + span_blanks r) in *.
  destruct (find_char is_blank u) as [k2|] eqn:Ek2.
  2:{ eexists. split; [done|]. split; [|done]. unfold line_result. simpl. done. }
  pose proof (find_char_range _ _ _ Ek2) as Hk2.
  destruct (at_write _ _ _ k2 Hu' Hk2) as (b2 & -> & Hurl & Hv & Hag2). cbn [mbind outcome_bind].
  assert (Hju : j + Zlen u <= i + Zlen s).
  { unfold j, u, skip_blanks, r, Zlen in *. rewrite !length_drop in *. lia. }
  assert (Hag : agree_from (i + Zlen s) (buffer p) b2) by (eapply agree_trans; eauto).
  cbn [buffer set_buffer printf]. rewrite (cstr_ok _ _ _ Hv). cbn [mbind outcome_bind].
  set (v := drop (Z.to_nat (k2 + 1)) u) in *.
  pose proof (at_skip _ _ _ _ Hv (span_blanks_range v)) as Hv'. fold (skip_blanks v) in Hv'.
  rewrite (cstr_ok _ _ _ Hv'). cbn [mbind outcome_bind].
  assert (Hdone : forall (p' : parser), p' = set_buffer (printf (set_buffer p b1) method_msg) b2 ->
            line_result p p' (i + Zlen s) method_msg /\ checkstate p' = checkstate p) by (by intros p' ->).
  destruct (same_nocase (skip_blanks v) (text "HTTP/1.1")); [|eexists; split; [done|]; by apply Hdone].
  rewrite (cstr_ok _ _ _ Hurl). cbn [mbind outcome_bind]. set (url := take (Z.to_nat k2) u) in *.
  destruct (same_nocase_n url (text "http://") 7) eqn:E7.
  - apply same_nocase_n_length in E7. rewrite length_take in E7. change (length (take 7 (text "http://"))) with 7%nat in E7.
    unfold from_slash. fold is_slash. destruct (find_char is_slash (drop 7 url)) as [k3|] eqn:Ek3; cbn [mbind option_bind];
      [|eexists; split; [done|]; by apply Hdone].
    pose proof (find_char_range _ _ _ Ek3) as Hk3. unfold Zlen in Hk3. rewrite length_drop in Hk3.
    pose proof (at_skip _ _ _ (7 + k3) Hurl ltac:(unfold Zlen; lia)) as Hpath.
    replace (j + (7 + k3)) with (j + 7 + k3) in Hpath by lia. rewrite (cstr_ok _ _ _ Hpath). cbn [mbind outcome_bind].
    replace (drop (Z.to_nat (7 + k3)) url) with (drop (Z.to_nat k3) (drop 7 url))
      by (rewrite drop_drop; f_equal; lia).
    destruct (bool_decide (head _ = _)); [|eexists; split; [done|]; by apply Hdone].
    eexists. split; [done|]. split; [|done]. unfold line_result. simpl. rewrite <- app_assoc. done.
  - rewrite (cstr_ok _ _ _ Hurl). cbn [mbind outcome_bind].
    destruct (bool_decide (head url = Some 47)); [|eexists; split; [done|]; by apply Hdone].
    eexists. split; [done|]. split; [|done]. unfold line_result. simpl. rewrite <- app_assoc. done.
Qed.

Lemma parse_headers_ok p i s :
  at_ (buffer p) i s ->
  exists p', parse_headers p i = Ok (p', if (header_spec s).2 then GET_REQUEST else NO_REQUEST) /\
             line_result p p' (i + Zlen s) (header_spec s).1 /\ checkstate p' = checkstate p.
Proof.
  intros Ha. unfold parse_headers, header_spec. rewrite (cstr_ok _ _ _ Ha). cbn [mbind outcome_bind].
  destruct (bool_decide (s = [])).
  { exists p. split; [done|]. split; [|done]. unfold line_result. rewrite app_nil_r. done. }
  destruct (same_nocase_n s (text "Host:") 5) eqn:E5.
  - apply same_nocase_n_length in E5. rewrite length_take in E5. change (length (take 5 (text "Host:"))) with 5%nat in E5.
    pose proof (at_skip _ _ _ 5 Ha ltac:(unfold Zlen; lia)) as H5. change (Z.to_nat 5) with 5%nat in H5.
    rewrite (cstr_ok _ _ _ H5). cbn [mbind outcome_bind]. cbv zeta.
    pose proof (at_skip _ _ _ _ H5 (span_blanks_range _)) as H6. fold (skip_blanks (drop 5 s)) in H6.
    rewrite (cstr_ok _ _ _ H6). cbn [mbind outcome_bind]. by eexists.
  - by eexists.
Qed.

(** ** The specification of a stream *)

(** The first line of some bytes: not complete, wrong (a CR or LF alone), or there. *)
Inductive next := Incomplete | Wrong | Line (content rest : list Z).

Fixpoint next_line (l : list Z) : next :=
  match l with
  | [] => Incomplete
  | c :: l' =>
      if decide (c = CR) then
        match l' with
        | [] => Incomplete
        | d :: l'' => if decide (d = LF) then Line [] l'' else Wrong
        end
      else if decide (c = LF) then Wrong
      else match next_line l' with Line s r => Line (c :: s) r | n => n end
  end.

(** The verdict on a stream and what is printed, from a state on. *)
Fixpoint stream_spec (fuel : nat) (st : CHECK_STATE) (l : list Z) : list Z * HTTP_CODE :=
  match fuel with
  | O => ([], NO_REQUEST)
  | S fuel =>
      match next_line l with
      | Incomplete => ([], NO_REQUEST)
      | Wrong => ([], BAD_REQUEST)
      | Line s rest =>
          match st with
          | CHECK_STATE_REQUESTLINE =>
              let '(o, ok) := request_spec (upto_nul s) in
              if ok : bool then let '(o', c) := stream_spec fuel CHECK_STATE_HEADER rest in (o ++ o', c)
              else (o, BAD_REQUEST)
          | CHECK_STATE_HEADER =>
              let '(o, last) := header_spec (upto_nul s) in
              if last : bool then (o, GET_REQUEST)
              else let '(o', c) := stream_spec fuel CHECK_STATE_HEADER rest in (o ++ o', c)
          | CHECK_STATE_CONTENT => ([], INTERNAL_ERROR)
          end
      end
  end.

(** Every line is shorter than what it is the first line of. *)
Definition verdict (st : CHECK_STATE) (l : list Z) : list Z * HTTP_CODE := stream_spec (S (length l)) st l.

Lemma next_line_app l l' :
  match next_line l with
  | Incomplete => True
  | Wrong => next_line (l ++ l') = Wrong
  | Line s r => next_line (l ++ l') = Line s (r ++ l')
  end.
Proof.
  induction l as [|c l IH]; [done|]. simpl. destruct (decide (c = CR)).
  - destruct l as [|d l]; [done|]. simpl. by destruct (decide (d = LF)).
  - destruct (decide (c = LF)); [done|]. destruct (next_line l) as [| |s r]; [done | by rewrite IH | by rewrite IH].
Qed.

Lemma next_line_split l s r : next_line l = Line s r -> l = s ++ CR :: LF :: r /\ (CR ∉ s) /\ (LF ∉ s).
Proof.
  revert s. induction l as [|c l IH]; intros s; simpl; [done|]. destruct (decide (c = CR)) as [->|Hc].
  - destruct l as [|d l]; [done|]. destruct (decide (d = LF)) as [->|]; [|done]. intros [= <- <-].
    split; [done|]. split; apply not_elem_of_nil.
  - destruct (decide (c = LF)) as [->|Hl]; [done|]. destruct (next_line l) as [| |s' r'] eqn:E; try done.
    intros [= <- <-]. destruct (IH s' eq_refl) as (-> & H1 & H2). split; [done|]. rewrite !not_elem_of_cons. done.
Qed.

Lemma stream_fuel f1 : forall f2 st l, (length l < f1)%nat -> (length l < f2)%nat -> stream_spec f1 st l = stream_spec f2 st l.
Proof.
  induction f1 as [|f1 IH]; intros f2 st l H1 H2; [lia|]. destruct f2 as [|f2]; [lia|]. cbn [stream_spec].
  destruct (next_line l) as [| |s r] eqn:E; [done..|]. apply next_line_split in E as (-> & _).
  rewrite length_app in *. simpl in *. destruct st; [| |done].
  - destruct (request_spec (upto_nul s)) as [o [|]]; [|done]. by rewrite (IH f2) by lia.
  - destruct (header_spec (upto_nul s)) as [o [|]]; [done|]. by rewrite (IH f2) by lia.
Qed.

Lemma verdict_eq st l :
  verdict st l =
    match next_line l with
    | Incomplete => ([], NO_REQUEST)
    | Wrong => ([], BAD_REQUEST)
    | Line s rest =>
        match st with
        | CHECK_STATE_REQUESTLINE =>
            let '(o, ok) := request_spec (upto_nul s) in
            if ok : bool then let '(o', c) := verdict CHECK_STATE_HEADER rest in (o ++ o', c) else (o, BAD_REQUEST)
        | CHECK_STATE_HEADER =>
            let '(o, last) := header_spec (upto_nul s) in
            if last : bool then (o, GET_REQUEST)
            else let '(o', c) := verdict CHECK_STATE_HEADER rest in (o ++ o', c)
        | CHECK_STATE_CONTENT => ([], INTERNAL_ERROR)
        end
    end.
Proof.
  unfold verdict at 1. cbn [stream_spec]. destruct (next_line l) as [| |s r] eqn:E; [done..|].
  apply next_line_split in E as (-> & _). unfold verdict. rewrite length_app. simpl.
  destruct st; [| |done].
  - destruct (request_spec (upto_nul s)) as [o [|]]; [|done]. by rewrite (stream_fuel _ (S (length r))) by lia.
  - destruct (header_spec (upto_nul s)) as [o [|]]; [done|]. by rewrite (stream_fuel _ (S (length r))) by lia.
Qed.

(** ** The parser reads the stream *)

Section Lines.
Context {size : Z}.

(** [tail] is what has been received and not yet parsed; the first bytes of it are
    known to be no end of a line. *)
Definition reading (p : parser) (st : CHECK_STATE) (tail : list Z) : Prop :=
  checkstate p = st /\ 0 <= start_line p /\ read_index p = start_line p + Zlen tail /\ Zlen (buffer p) = size /\
  (exists rest, drop (Z.to_nat (start_line p)) (buffer p) = tail ++ rest) /\
  (exists k, checked_index p = start_line p + Z.of_nat k /\ (k <= length tail)%nat /\
             (CR ∉ take k tail) /\ (LF ∉ take k tail)) /\
  (0 < start_line p -> exists c, rd (buffer p) (start_line p - 1) = Ok c /\ c <> CR).

(** The byte before a position that was looked at is no CR. *)
Lemma before_checked p st s1 s2 :
  reading p st (s1 ++ s2) -> checked_index p = start_line p + Zlen s1 -> (CR ∉ s1) -> 1 < checked_index p ->
  exists c, rd (buffer p) (checked_index p - 1) = Ok c /\ c <> CR.
Proof.
  intros (_ & Hs & _ & _ & (rest & Hd) & _ & Hprev) Hci H1 Hgt. rewrite Hci in *.
  destruct s1 as [|c s1 _] using rev_ind.
  - change (Zlen []) with 0 in *. replace (start_line p + 0 - 1) with (start_line p - 1) by lia. apply Hprev. lia.
  - unfold Zlen in *. rewrite length_app in *. simpl in *. exists c. split.
    + replace (start_line p + Z.of_nat (length s1 + 1) - 1) with (start_line p + Z.of_nat (length s1)) by lia.
      eapply drop_rd; [done|exact Hd|]. rewrite <- !app_assoc. by apply list_lookup_middle.
    + intros ->. apply H1. apply elem_of_app. right. by apply list_elem_of_singleton.
Qed.

(** The line status, once the part of the line that was looked at is [s1]. *)
Lemma line_loop_ok st : forall s2 s1 p,
  reading p st (s1 ++ s2) -> checked_index p = start_line p + Zlen s1 -> (CR ∉ s1) -> (LF ∉ s1) ->
  match next_line s2 with
  | Incomplete => exists k, line_loop (length s2) p = Ok (set_checked p k, LINE_OPEN) /\ reading (set_checked p k) st (s1 ++ s2)
  | Wrong => exists k, line_loop (length s2) p = Ok (set_checked p k, LINE_BAD) /\ reading (set_checked p k) st (s1 ++ s2)
  | Line s r => exists b, line_loop (length s2) p = Ok (set_checked (set_buffer p b) (start_line p + Zlen (s1 ++ s) + 2), LINE_OK) /\
                  length b = length (buffer p) /\ take (Z.to_nat (start_line p)) b = take (Z.to_nat (start_line p)) (buffer p) /\
                  exists rest, drop (Z.to_nat (start_line p)) b = (s1 ++ s) ++ 0 :: 0 :: r ++ rest
  end.
Proof.
  induction s2 as [|c s2 IH]; intros s1 p Hrd Hci H1 H2.
  { exists (checked_index p). split; by destruct p. }
  pose proof Hrd as (Hst & Hs & Hri & Hlen & (rest & Hd) & _ & _). cbn [line_loop length next_line]. cbv zeta.
  assert (Hc : rd (buffer p) (checked_index p) = Ok c).
  { rewrite Hci. eapply drop_rd; [done|exact Hd|]. rewrite <- app_assoc. by apply list_lookup_middle. }
  rewrite Hc. cbn [mbind outcome_bind]. destruct (decide (c = CR)) as [->|Hcr].
  - assert (Hrl : read_index p = checked_index p + 1 + Zlen s2).
    { rewrite Hri, Hci. unfold Zlen. rewrite length_app. simpl. lia. }
    destruct s2 as [|d s2].
    { rewrite (decide_True (P := checked_index p + 1 = read_index p)) by (change (Zlen []) with 0 in Hrl; lia). exists (checked_index p). split; by destruct p. }
    pose proof (Zlen_nonneg s2). rewrite Zlen_cons in Hrl.
    rewrite (decide_False (P := checked_index p + 1 = read_index p)) by lia.
    assert (Hd2 : rd (buffer p) (checked_index p + 1) = Ok d).
    { rewrite Hci. replace (start_line p + Zlen s1 + 1) with (start_line p + Z.of_nat (length s1 + 1)) by (unfold Zlen; lia).
      eapply drop_rd; [done|exact Hd|]. rewrite <- app_assoc. rewrite lookup_app_r by lia.
      by replace (length s1 + 1 - length s1)%nat with 1%nat by lia. }
    rewrite Hd2. cbn [mbind outcome_bind]. destruct (decide (d = LF)) as [->|Hne]; [|exists (checked_index p); split; by destruct p].
    pose proof (rd_range _ _ _ Hd2) as Hb. pose proof (Zlen_nonneg s1). rewrite wr_in_range by lia. cbn [mbind outcome_bind].
    rewrite wr_in_range by (rewrite Zlen_insert; lia). cbn [mbind outcome_bind]. eexists. split; [|split; [|split]].
    + rewrite app_nil_r. do 3 f_equal. lia.
    + by rewrite !length_insert.
    + by rewrite !take_insert_ge by lia.
    + exists rest. rewrite app_nil_r. unfold Zlen in Hci. rewrite !drop_insert_ge by lia. rewrite Hd, <- app_assoc.
      replace (Z.to_nat (checked_index p) - Z.to_nat (start_line p))%nat with (length s1) by lia.
      replace (Z.to_nat (checked_index p + 1) - Z.to_nat (start_line p))%nat with (length s1 + 1)%nat
        by lia.
      rewrite insert_app_r_alt by lia. rewrite insert_app_r_alt by lia.
      replace (length s1 - length s1)%nat with 0%nat by lia. by replace (length s1 + 1 - length s1)%nat with 1%nat by lia.
  - destruct (decide (c = LF)) as [->|Hlf].
    + assert (Hok : (if bool_decide (1 < checked_index p)
                     then prev ← rd (buffer p) (checked_index p - 1); Ok (bool_decide (prev = CR)) else Ok false) = Ok false).
      { destruct (bool_decide_reflect (1 < checked_index p)) as [Hgt|]; [|done].
        destruct (before_checked p st s1 (LF :: s2) Hrd Hci H1 Hgt) as (x & -> & Hx). cbn [mbind outcome_bind].
        by rewrite bool_decide_false. }
      rewrite Hok. cbn [mbind outcome_bind]. exists (checked_index p). split; by destruct p.
    + set (p1 := set_checked p (checked_index p + 1)).
      assert (Hrd1 : reading p1 st ((s1 ++ [c]) ++ s2)).
      { rewrite <- app_assoc. destruct Hrd as (G1 & G2 & G3 & G4 & G5 & _ & G7). unfold reading. simpl.
        do 5 (split; [done|]). split; [|done]. exists (length s1 + 1)%nat. split; [rewrite Hci; unfold Zlen; lia|].
        split; [rewrite length_app; simpl; lia|].
        replace (take (length s1 + 1) (s1 ++ c :: s2)) with (s1 ++ [c]).
        - rewrite !not_elem_of_app, !list_elem_of_singleton. split; split; congruence.
        - rewrite take_app. replace (length s1 + 1 - length s1)%nat with 1%nat by lia.
          rewrite take_ge by lia. done. }
      assert (Hci1 : checked_index p1 = start_line p1 + Zlen (s1 ++ [c]))
        by (simpl; rewrite Hci; unfold Zlen; rewrite length_app; simpl; lia).
      specialize (IH (s1 ++ [c]) p1 Hrd1 Hci1 ltac:(rewrite not_elem_of_app, list_elem_of_singleton; split; congruence)
                    ltac:(rewrite not_elem_of_app, list_elem_of_singleton; split; congruence)).
      destruct (next_line s2) as [| |s r].
      * destruct IH as (k & E & Hrd'). exists k. split; [exact E|]. by rewrite <- app_assoc in Hrd'.
      * destruct IH as (k & E & Hrd'). exists k. split; [exact E|]. by rewrite <- app_assoc in Hrd'.
      * destruct IH as (b & E & Hl & Ht & rest' & Hd'). exists b. rewrite <- !app_assoc in *. simpl in *.
        split; [exact E|]. split; [exact Hl|]. split; [exact Ht|]. exists rest'. by rewrite Hd', <- !app_assoc.
Qed.

Lemma next_line_prefix s1 s2 : (CR ∉ s1) -> (LF ∉ s1) ->
  next_line (s1 ++ s2) = match next_line s2 with Line s r => Line (s1 ++ s) r | n => n end.
Proof.
  induction s1 as [|c s1 IH]; [intros _ _; simpl; by destruct (next_line s2)|]. rewrite !not_elem_of_cons. intros [H1 H2] [H3 H4]. simpl.
  rewrite !decide_False by congruence. rewrite IH by done. by destruct (next_line s2).
Qed.

Lemma parse_line_ok p st tail :
  reading p st tail ->
  match next_line tail with
  | Incomplete => exists k, parse_line p = Ok (set_checked p k, LINE_OPEN) /\ reading (set_checked p k) st tail
  | Wrong => exists k, parse_line p = Ok (set_checked p k, LINE_BAD) /\ reading (set_checked p k) st tail
  | Line s r => exists b, parse_line p = Ok (set_checked (set_buffer p b) (start_line p + Zlen s + 2), LINE_OK) /\
                  length b = length (buffer p) /\ take (Z.to_nat (start_line p)) b = take (Z.to_nat (start_line p)) (buffer p) /\
                  exists rest, drop (Z.to_nat (start_line p)) b = s ++ 0 :: 0 :: r ++ rest
  end.
Proof.
  intros Hrd. pose proof Hrd as (_ & Hs & Hri & _ & _ & (k & Hci & Hk & H1 & H2) & _).
  pose proof (next_line_prefix (take k tail) (drop k tail) H1 H2) as Hn. rewrite (take_drop k tail) in Hn. rewrite Hn. clear Hn.
  rewrite <- (take_drop k tail) in Hrd.
  pose proof (line_loop_ok st (drop k tail) (take k tail) p Hrd) as H. unfold parse_line.
  replace (Z.to_nat (read_index p - checked_index p)) with (length (drop k tail))
    by (rewrite length_drop, Hri, Hci; unfold Zlen; lia).
  rewrite (take_drop k tail) in H. specialize (H ltac:(rewrite Hci; unfold Zlen; rewrite length_take; lia) H1 H2).
  destruct (next_line (drop k tail)); exact H.
Qed.

(** The state after a line has been parsed. *)
Lemma next_reading p st tail s r b rest p' :
  reading p st tail -> next_line tail = Line s r -> length b = length (buffer p) ->
  drop (Z.to_nat (start_line p)) b = s ++ 0 :: 0 :: r ++ rest ->
  line_result (set_start (set_checked (set_buffer p b) (start_line p + Zlen s + 2)) (start_line p + Zlen s + 2)) p'
              (start_line p + Zlen (upto_nul s)) (drop (length (out p)) (out p')) ->
  reading p' (checkstate p') r /\ read_index p' = read_index p.
Proof.
  intros (_ & Hs & Hri & Hlen & _) Hn Hb Hd (Hag & Hci & Hri' & Hst & _). simpl in *.
  apply next_line_split in Hn as (-> & _ & _).
  assert (Hu : Zlen (upto_nul s) <= Zlen s) by (by eapply (upto_nul_at b (start_line p) s)).
  pose proof (Zlen_nonneg s). assert (Hz : Zlen (s ++ CR :: LF :: r) = Zlen s + 2 + Zlen r)
    by (unfold Zlen; rewrite length_app; simpl; lia).
  set (i := start_line p + Zlen s + 2) in *.
  assert (Hdrop : drop (Z.to_nat i) (buffer p') = r ++ rest).
  { rewrite (agree_drop _ _ _ _ Hag) by lia. unfold i, Zlen.
    replace (Z.to_nat (start_line p + Z.of_nat (length s) + 2)) with (Z.to_nat (start_line p) + (length s + 2))%nat by lia.
    rewrite <- drop_drop, Hd. rewrite drop_app_ge by lia. by replace (length s + 2 - length s)%nat with 2%nat by lia. }
  split; [|done]. split; [done|]. rewrite Hst. split; [lia|]. split; [rewrite Hri', Hri, Hz; lia|].
  split; [destruct Hag as [Hl _]; unfold Zlen in *; congruence|]. split; [by exists rest|]. split.
  - exists 0%nat. split; [rewrite Hci; lia|]. split; [lia|]. rewrite take_0. split; apply not_elem_of_nil.
  - intros _. exists 0. split; [|done]. apply rd_Ok_iff. split; [lia|]. destruct Hag as [_ Hag]. rewrite Hag by lia.
    replace (Z.to_nat (i - 1)) with (Z.to_nat (start_line p) + (length s + 1))%nat by (unfold i, Zlen; lia).
    rewrite <- lookup_drop, Hd. rewrite lookup_app_r by lia. by replace (length s + 1 - length s)%nat with 1%nat by lia.
Qed.

(** A packet is added to what has been received. *)
Lemma reading_more p st tail bytes :
  reading p st tail -> read_index p + Zlen bytes <= size ->
  exists b, wr_slice (buffer p) (read_index p) bytes = Ok b /\
            take (Z.to_nat (read_index p)) b = take (Z.to_nat (read_index p)) (buffer p) /\
            reading (set_read (set_buffer p b) (read_index p + Zlen bytes)) st (tail ++ bytes).
Proof.
  intros (Hst & Hs & Hri & Hlen & (rest & Hd) & (k & Hci & Hk & H1 & H2) & Hprev) Hroom.
  pose proof (Zlen_nonneg tail). unfold wr_slice. rewrite bool_decide_true by lia. eexists. split; [done|].
  assert (Hlt : (Z.to_nat (read_index p) <= length (buffer p))%nat) by (unfold Zlen in *; lia).
  split; [unfold splice; by rewrite take_app_length' by (rewrite length_take; lia)|].
  assert (Hsp : length (splice (buffer p) (read_index p) bytes) = length (buffer p))
    by (unfold splice, Zlen in *; rewrite !length_app, length_take, length_drop; lia).
  unfold reading. simpl. split; [done|]. split; [done|]. split; [unfold Zlen in *; rewrite length_app; lia|].
  split; [unfold Zlen in *; congruence|]. split; [|split].
  - exists (drop (Z.to_nat (read_index p) + length bytes) (buffer p)). unfold splice.
    rewrite drop_app_le by (rewrite length_take; lia). 
    replace (Z.to_nat (read_index p)) with (Z.to_nat (start_line p) + length tail)%nat at 1 by (unfold Zlen in *; lia).
    rewrite <- take_drop_commute, Hd, take_app_length. by rewrite <- app_assoc.
  - exists k. split; [done|]. split; [rewrite length_app; lia|]. by rewrite take_app_le.
  - intros H0. destruct (Hprev H0) as (c & Hc & Hne). exists c. split; [|done]. apply rd_Ok_iff in Hc as [_ Hc].
    apply rd_Ok_iff. split; [lia|]. unfold splice. rewrite lookup_app_l by (rewrite length_take; lia).
    rewrite lookup_take_lt by lia. done.
Qed.

End Lines.

Arguments reading size p st tail : clear implicits.

(** The parser has judged [tail] with [c], having printed [o]; when the request is not
    complete, what is still to come is judged with the part that is left. *)
Definition judged (p p' : parser) (st : CHECK_STATE) (tail o : list Z) (c : HTTP_CODE) : Prop :=
  out p' = out p ++ o /\
  if decide (c = NO_REQUEST) then
    exists st' tail', reading BUFFER_SIZE p' st' tail' /\ st' <> CHECK_STATE_CONTENT /\ next_line tail' = Incomplete /\
      read_index p' = read_index p /\
      forall l, verdict st (tail ++ l) = (o ++ (verdict st' (tail' ++ l)).1, (verdict st' (tail' ++ l)).2)
  else forall l, verdict st (tail ++ l) = (o, c).

(** A line that printed [o1] and leaves the rest to the headers. *)
Lemma judged_line p p2 p' st tail r o1 o2 c :
  (forall l, verdict st (tail ++ l) = (o1 ++ (verdict CHECK_STATE_HEADER (r ++ l)).1, (verdict CHECK_STATE_HEADER (r ++ l)).2)) ->
  out p2 = out p ++ o1 -> read_index p2 = read_index p ->
  judged p2 p' CHECK_STATE_HEADER r o2 c -> judged p p' st tail (o1 ++ o2) c.
Proof.
  intros Hv Ho Hri [Ho2 Hrest]. split; [by rewrite Ho2, Ho, <- app_assoc|]. destruct (decide (c = NO_REQUEST)).
  - destruct Hrest as (st' & tail' & Hrd' & Hst' & Hn' & Hri' & Hl). exists st', tail'.
    split; [done|]. split; [done|]. split; [done|]. split; [congruence|]. intros l. rewrite Hv, Hl. simpl.
    by rewrite <- app_assoc.
  - intros l. by rewrite Hv, Hrest.
Qed.

Lemma judged_final p p' st tail o c :
  c <> NO_REQUEST -> out p' = out p ++ o -> (forall l, verdict st (tail ++ l) = (o, c)) -> judged p p' st tail o c.
Proof. intros Hc Ho Hv. split; [done|]. by rewrite decide_False. Qed.

Lemma content_loop_ok fuel : forall p st tail o c,
  reading BUFFER_SIZE p st tail -> st <> CHECK_STATE_CONTENT -> (length tail < fuel)%nat -> verdict st tail = (o, c) ->
  exists p', content_loop fuel p = Ok (p', c) /\ judged p p' st tail o c.
Proof.
  induction fuel as [|fuel IH]; intros p st tail o c Hrd Hst Hfuel Hv; [lia|]. cbn [content_loop].
  pose proof (parse_line_ok p st tail Hrd) as Hline. rewrite verdict_eq in Hv.
  pose proof (next_line_app tail) as Happ. destruct (next_line tail) as [| |s r] eqn:En.
  - injection Hv as <- <-. destruct Hline as (k & -> & Hrd'). cbn [mbind outcome_bind]. eexists. split; [done|].
    split; [by rewrite app_nil_r|]. rewrite decide_True by done. exists st, tail. do 4 (split; [done|]).
    intros l. by destruct (verdict st (tail ++ l)).
  - injection Hv as <- <-. destruct Hline as (k & -> & _). cbn [mbind outcome_bind]. eexists. split; [done|].
    apply judged_final; [done|by rewrite app_nil_r|]. intros l. by rewrite verdict_eq, (Happ l).
  - destruct Hline as (b & -> & Hbl & _ & rest & Hd). cbn [mbind outcome_bind]. cbv zeta.
    set (p1 := set_start _ _). pose proof Hrd as (Hcs & Hs & _).
    destruct (upto_nul_at b (start_line p) s (0 :: r ++ rest) Hs Hd) as [Hat _].
    assert (Hrl : (length r < fuel)%nat)
      by (pose proof (next_line_split _ _ _ En) as (-> & _); rewrite length_app in Hfuel; simpl in Hfuel; lia).
    change (checkstate p1) with (checkstate p). change (start_line (set_checked _ _)) with (start_line p).
    assert (Hcont : forall p2 o1, line_result p1 p2 (start_line p + Zlen (upto_nul s)) o1 -> checkstate p2 = CHECK_STATE_HEADER ->
              (forall l, verdict st (tail ++ l) = (o1 ++ (verdict CHECK_STATE_HEADER (r ++ l)).1, (verdict CHECK_STATE_HEADER (r ++ l)).2)) ->
              forall o2 c2, verdict CHECK_STATE_HEADER r = (o2, c2) ->
              exists p', content_loop fuel p2 = Ok (p', c2) /\ judged p p' st tail (o1 ++ o2) c2).
    { intros p2 o1 (G1 & G2 & G3 & G4 & G5) Hck Hstep o2 c2 Ev.
      destruct (next_reading (size := BUFFER_SIZE) p st tail s r b rest p2) as [Hrd2 Hri2]; try done.
      { do 4 (split; [done|]). simpl in G5 |- *. by rewrite G5, drop_app_length. }
      rewrite Hck in Hrd2. destruct (IH p2 CHECK_STATE_HEADER r o2 c2 Hrd2 ltac:(done) Hrl Ev) as (p' & E & Hj).
      exists p'. split; [done|]. by eapply judged_line. }
    rewrite Hcs. destruct st; [| |done].
    + destruct (parse_requestline_ok p1 (start_line p) (upto_nul s) Hat) as (p2 & -> & Hres & Hck). cbn [mbind outcome_bind].
      destruct (request_spec (upto_nul s)) as [o1 [|]] eqn:Er; cbn [fst snd] in *.
      * rewrite decide_False by done. destruct (verdict CHECK_STATE_HEADER r) as [o2 c2] eqn:Ev. injection Hv as <- <-.
        apply (Hcont p2); try done. intros l. rewrite verdict_eq, (Happ l), Er. by destruct (verdict _ (r ++ l)).
      * injection Hv as <- <-. rewrite decide_True by done. exists p2. split; [done|].
        apply judged_final; [done|apply Hres|]. intros l. by rewrite verdict_eq, (Happ l), Er.
    + destruct (parse_headers_ok p1 (start_line p) (upto_nul s) Hat) as (p2 & -> & Hres & Hck). cbn [mbind outcome_bind].
      destruct (header_spec (upto_nul s)) as [o1 [|]] eqn:Er; cbn [fst snd] in *.
      * injection Hv as <- <-. rewrite decide_False, decide_True by done. exists p2. split; [done|].
        apply judged_final; [done|apply Hres|]. intros l. by rewrite verdict_eq, (Happ l), Er.
      * rewrite !decide_False by done. destruct (verdict CHECK_STATE_HEADER r) as [o2 c2] eqn:Ev. injection Hv as <- <-.
        apply (Hcont p2); try done; [by rewrite Hck|]. intros l. rewrite verdict_eq, (Happ l), Er. by destruct (verdict _ (r ++ l)).
Qed.

(** ** The connection *)

(** What the server sends for a verdict. *)
Definition answer_to (c : HTTP_CODE) : ending_ :=
  match c with NO_REQUEST => Waiting | GET_REQUEST => Sent szret0 | _ => Sent szret1 end.

Lemma http_serve_ok packets : forall p st tail,
  reading BUFFER_SIZE p st tail -> st <> CHECK_STATE_CONTENT -> next_line tail = Incomplete ->
  Forall (fun bs => bs <> []) packets -> read_index p + Zlen (concat packets) < BUFFER_SIZE ->
  exists p', serve (Packet <$> packets) p = Ok (p', answer_to (verdict st (tail ++ concat packets)).2) /\
             out p' = out p ++ (verdict st (tail ++ concat packets)).1.
Proof.
  induction packets as [|bytes packets IH]; intros p st tail Hrd Hst Hn Hne Hroom.
  - cbn [fmap list_fmap serve concat] in *. rewrite decide_False by (unfold Zlen in Hroom; simpl in Hroom; lia).
    exists p. rewrite app_nil_r, verdict_eq, Hn. simpl. by rewrite app_nil_r.
  - apply Forall_cons in Hne as [Hb Hne]. cbn [concat] in Hroom. unfold Zlen in Hroom. rewrite length_app in Hroom.
    cbn [fmap list_fmap serve]. rewrite decide_False by lia. destruct bytes as [|b0 bytes]; [done|].
    set (bs := b0 :: bytes) in *. rewrite take_ge by lia.
    destruct (reading_more p st tail bs Hrd ltac:(unfold Zlen; lia)) as (b & -> & _ & Hrd1). cbn [mbind outcome_bind].
    set (p1 := set_read _ _) in *. destruct (verdict st (tail ++ bs)) as [o c] eqn:Ev. unfold parse_content.
    pose proof Hrd1 as (_ & Hs1 & Hri1 & _).
    destruct (content_loop_ok (S (Z.to_nat (read_index p1))) p1 st (tail ++ bs) o c Hrd1 Hst) as (p2 & -> & Ho & Hj);
      [unfold Zlen in Hri1; lia | done |]. cbn [mbind outcome_bind]. cbn [concat]. rewrite (app_assoc tail bs).
    destruct (decide (c = NO_REQUEST)) as [->|Hc].
    + destruct Hj as (st' & tail' & Hrd' & Hst' & Hn' & Hri' & Hl). rewrite Hl.
      destruct (IH p2 st' tail' Hrd' Hst' Hn' Hne) as (p' & E & Ho').
      { rewrite Hri'. change (read_index p1) with (read_index p + Zlen bs). unfold Zlen. lia. }
      exists p'. split; [exact E|]. rewrite Ho', Ho. simpl. by rewrite app_assoc.
    + rewrite Hj. exists p2. split; [by destruct c|]. exact Ho.
Qed.

Lemma fresh_reading : reading BUFFER_SIZE fresh CHECK_STATE_REQUESTLINE [].
Proof.
  assert (Hl : Zlen (buffer fresh) = BUFFER_SIZE) by by vm_compute.
  unfold reading. do 3 (split; [done|]). split; [exact Hl|]. clear Hl.
  split; [by eexists|]. split; [|cbn [start_line fresh]; lia]. exists 0%nat. do 2 (split; [done|]). split; apply not_elem_of_nil.
Qed.

(** ** Properties *)

(** C20: The server's answer does not depend on how a request is cut into packets.  For
    any packets that fit the buffer, what it answers (or that it waits for more) and
    what it prints are those of the specification on the bytes sent: lines ended by CR
    LF, a request line with GET, a path and the version, headers up to an empty line,
    and an error at the first CR or LF alone or wrong request line.  Whatever these bytes
    are, no access leaves the buffer. *)
Theorem packets_do_not_matter packets :
  Forall (fun bs => bs <> []) packets -> Zlen (concat packets) < BUFFER_SIZE ->
  exists p, connection (Packet <$> packets) = Ok (p, answer_to (verdict CHECK_STATE_REQUESTLINE (concat packets)).2) /\
            out p = (verdict CHECK_STATE_REQUESTLINE (concat packets)).1.
Proof.
  intros Hne Hroom. unfold connection.
  destruct (http_serve_ok packets fresh CHECK_STATE_REQUESTLINE [] fresh_reading) as (p & E & Ho); try done. by exists p.
Qed.

(** A request in three packets, one of which ends inside the end of a line. *)
Definition three_packets : list (list Z) :=
  [text "GE"; text "T http://h/x HTTP/1.1" ++ [CR]; [LF] ++ text "Host: h" ++ [CR; LF; CR; LF]].

Lemma packets_do_not_matter_witness :
  Zlen (concat three_packets) < BUFFER_SIZE /\
  exists p, connection (Packet <$> three_packets) =
              Ok (p, answer_to (verdict CHECK_STATE_REQUESTLINE (concat three_packets)).2) /\
            out p = (verdict CHECK_STATE_REQUESTLINE (concat three_packets)).1.
Proof.
  split; [by vm_compute|]. apply (packets_do_not_matter three_packets); [by_compute | by vm_compute].
Defined.

Example three_packets_verdict :
  verdict CHECK_STATE_REQUESTLINE (concat three_packets) =
    (text "The request method is GET" ++ [LF] ++ text "The request URL is: /x" ++ [LF] ++ text "the request host is: h" ++ [LF],
     GET_REQUEST).
Proof. by vm_compute. Qed.

(** A full buffer is taken for the end of the stream. *)
Example full_buffer_closes :
  match connection [Packet (replicate 5000 65)] with Ok (_, e) => e = RemoteClosed | Fault _ => False end.
Proof. by vm_compute. Qed.
