(* ===== verification/HttpConn.v ===== *)
(** * The HTTP server: a connection

    src/src/Linux High Perfermance Server Program/codes/15/15-4http_conn.h and
    15-5http_conn.cpp: the server that sends files.  A connection reads what has arrived
    into its buffer, parses it line by line, maps the file that is asked for and sends
    it behind headers; then it starts again, or is closed.

    The buffer that is parsed, its indices, [m_check_state] and what was printed are a
    [parser] of HttpParser.v, whose [parse_line] is the same code.  The file system and what
    the socket does are arguments. *)

From stdpp Require Import base numbers list list_numbers strings.
From S2P Require Import Prelude CStr HttpParser.

#[local] Open Scope Z_scope.

(** ** Data *)

Definition FILENAME_LEN : Z := 200.
Definition READ_BUFFER_SIZE : Z := 2048.
Definition WRITE_BUFFER_SIZE : Z := 1024.

Inductive METHOD := GET | POST | HEAD | PUT | DELETE | TRACE | OPTIONS | CONNECT | PATCH.
Inductive HTTP_CODE :=
  NO_REQUEST | GET_REQUEST | BAD_REQUEST | NO_RESOURCE | FORBIDDEN_REQUEST | FILE_REQUEST | INTERNAL_ERROR | CLOSED_CONNECTION.

#[global] Instance method_eq_dec : EqDecision METHOD.
Proof. solve_decision. Defined.
#[global] Instance http_conn_code_eq_dec : EqDecision HTTP_CODE.
Proof. solve_decision. Defined.
#[global] Instance check_state_eq_dec : EqDecision CHECK_STATE.
Proof. solve_decision. Defined.

(** What [m_file_address] can be. *)
Inductive address := Null | Mapped (bytes : list Z) | MAP_FAILED.

(** What is asked for; pointers into the buffer are offsets, [None] the null pointer. *)
Record request := Req {
  m_method : METHOD; m_url : option Z; m_version : option Z; m_host : option Z; m_content_length : Z; m_linger : bool;
}.

(** What is sent: [m_iv[0]] always points to [m_write_buf]. *)
Record response := Resp {
  m_write_buf : list Z; m_write_idx : Z; iov0_len : Z; iov1_base : address; iov1_len : Z; m_iv_count : Z;
}.

Record mapping := Mapping { m_real_file : list Z; m_file_address : address; st_mode : Z; st_size : Z }.

Inductive interest := EPOLLIN | EPOLLOUT.
#[global] Instance interest_eq_dec : EqDecision interest.
Proof. solve_decision. Defined.

Inductive epoll_call := Addfd (fd : Z) | Modfd (fd : Z) (ev : interest) | Removefd (fd : Z).

(** A connection; [m_user_count] is static; [epoll] are the calls made, [sent] what was
    handed to the socket. *)
Record http_conn := Conn {
  m_sockfd : Z; lines : parser; req : request; resp : response; file_ : mapping;
  m_user_count : Z; epoll : list epoll_call; sent : list Z;
}.

Definition set_sockfd (c : http_conn) x := Conn x (lines c) (req c) (resp c) (file_ c) (m_user_count c) (epoll c) (sent c).
Definition set_lines (c : http_conn) x := Conn (m_sockfd c) x (req c) (resp c) (file_ c) (m_user_count c) (epoll c) (sent c).
Definition set_req (c : http_conn) x := Conn (m_sockfd c) (lines c) x (resp c) (file_ c) (m_user_count c) (epoll c) (sent c).
Definition set_resp (c : http_conn) x := Conn (m_sockfd c) (lines c) (req c) x (file_ c) (m_user_count c) (epoll c) (sent c).
Definition set_file (c : http_conn) x := Conn (m_sockfd c) (lines c) (req c) (resp c) x (m_user_count c) (epoll c) (sent c).
Definition set_count (c : http_conn) x := Conn (m_sockfd c) (lines c) (req c) (resp c) (file_ c) x (epoll c) (sent c).
Definition call (c : http_conn) x := Conn (m_sockfd c) (lines c) (req c) (resp c) (file_ c) (m_user_count c) (epoll c ++ [x]) (sent c).
Definition send (c : http_conn) x := Conn (m_sockfd c) (lines c) (req c) (resp c) (file_ c) (m_user_count c) (epoll c) (sent c ++ x).

Definition set_buf (c : http_conn) b := set_lines c (set_buffer (lines c) b).
Definition buf (c : http_conn) : list Z := buffer (lines c).
Definition say (c : http_conn) s := set_lines c (printf (lines c) s).

Definition set_url (q : request) x := Req (m_method q) x (m_version q) (m_host q) (m_content_length q) (m_linger q).
Definition set_version (q : request) x := Req (m_method q) (m_url q) x (m_host q) (m_content_length q) (m_linger q).
Definition set_host (q : request) x := Req (m_method q) (m_url q) (m_version q) x (m_content_length q) (m_linger q).
Definition set_length (q : request) x := Req (m_method q) (m_url q) (m_version q) (m_host q) x (m_linger q).
Definition set_linger (q : request) x := Req (m_method q) (m_url q) (m_version q) (m_host q) (m_content_length q) x.
Definition set_method (q : request) x := Req x (m_url q) (m_version q) (m_host q) (m_content_length q) (m_linger q).

Definition set_write (r : response) b i := Resp b i (iov0_len r) (iov1_base r) (iov1_len r) (m_iv_count r).
Definition set_address (m : mapping) x := Mapping (m_real_file m) x (st_mode m) (st_size m).

(** ** Starting and ending *)

Definition modfd (c : http_conn) (ev : interest) : http_conn := call c (Modfd (m_sockfd c) ev).

Definition close_conn (c : http_conn) : http_conn :=
  if decide (m_sockfd c <> -1)
  then set_count (set_sockfd (call c (Removefd (m_sockfd c))) (-1)) (m_user_count c - 1)
  else c.

(** The private [init]. *)
Definition init (c : http_conn) : http_conn :=
  Conn (m_sockfd c)
       (Parser (replicate (Z.to_nat READ_BUFFER_SIZE) 0) 0 0 0 CHECK_STATE_REQUESTLINE (out (lines c)))
       (Req GET None None None 0 false)
       (set_write (resp c) (replicate (Z.to_nat WRITE_BUFFER_SIZE) 0) 0)
       (Mapping (replicate (Z.to_nat FILENAME_LEN) 0) (m_file_address (file_ c)) (st_mode (file_ c)) (st_size (file_ c)))
       (m_user_count c) (epoll c) (sent c).

(** [init( sockfd, addr )]. *)
Definition init_conn (c : http_conn) (sockfd : Z) : http_conn :=
  let c := call (set_sockfd c sockfd) (Addfd sockfd) in
  init (set_count c (m_user_count c + 1)).

(** ** Reading *)

(** What [recv] finds; without an event there is nothing to read. *)
Inductive recv_result := Recv (bytes : list Z) | RecvClosed | RecvFailed.

(** [recv] with no room returns 0.  What does not fit stays in the socket. *)
Fixpoint read_loop (net : list recv_result) (c : http_conn) : outcome (http_conn * bool) :=
  if decide (READ_BUFFER_SIZE - read_index (lines c) = 0) then Ok (c, false)
  else
    match net with
    | [] => Ok (c, true)
    | RecvFailed :: _ | RecvClosed :: _ | Recv [] :: _ => Ok (c, false)
    | Recv bytes :: net =>
        let got := take (Z.to_nat (READ_BUFFER_SIZE - read_index (lines c))) bytes in
        b ← wr_slice (buf c) (read_index (lines c)) got;
        read_loop net (set_lines c (set_read (set_buffer (lines c) b) (read_index (lines c) + Zlen got)))
    end.

Definition read (net : list recv_result) (c : http_conn) : outcome (http_conn * bool) :=
  if decide (READ_BUFFER_SIZE <= read_index (lines c)) then Ok (c, false) else read_loop net c.

(** ** Parsing *)

Definition conn_parse_line (c : http_conn) : outcome (http_conn * LINE_STATUS) :=
  '(p, st) ← parse_line (lines c); Ok (set_lines c p, st).

Definition parse_request_line (c : http_conn) (text_ : Z) : outcome (http_conn * HTTP_CODE) :=
  s ← cstr (buf c) text_;
  match find_char is_blank s with
  | None => Ok (set_req c (set_url (req c) None), BAD_REQUEST)
  | Some k =>
      b ← wr (buf c) (text_ + k) 0;
      let url := text_ + k + 1 in
      let c := set_req (set_buf c b) (set_url (req c) (Some url)) in
      method ← cstr (buf c) text_;
      if same_nocase method (text "GET") then
        let c := set_req c (set_method (req c) GET) in
        s ← cstr (buf c) url;
        let url := url + span_blanks s in
        s ← cstr (buf c) url;
        match find_char is_blank s with
        | None => Ok (set_req c (set_version (set_url (req c) (Some url)) None), BAD_REQUEST)
        | Some k =>
            b ← wr (buf c) (url + k) 0;
            let version := url + k + 1 in
            let c := set_buf c b in
            s ← cstr (buf c) version;
            let version := version + span_blanks s in
            let c := set_req c (set_version (set_url (req c) (Some url)) (Some version)) in
            s ← cstr (buf c) version;
            if same_nocase s (text "HTTP/1.1") then
              s ← cstr (buf c) url;
              let m_url' := (if same_nocase_n s (text "http://") 7
                             then k ← find_char is_slash (drop 7 s); Some (url + 7 + k)
                             else Some url) in
              let c := set_req c (set_url (req c) m_url') in
              match m_url' with
              | None => Ok (c, BAD_REQUEST)
              | Some url =>
                  x ← rd (buf c) url;
                  if decide (x = 47)
                  then Ok (set_lines c (set_state (lines c) CHECK_STATE_HEADER), NO_REQUEST)
                  else Ok (c, BAD_REQUEST)
              end
            else Ok (c, BAD_REQUEST)
        end
      else Ok (c, BAD_REQUEST)
  end.

Definition parse_headers (c : http_conn) (text_ : Z) : outcome (http_conn * HTTP_CODE) :=
  x ← rd (buf c) text_;
  if decide (x = 0) then
    if decide (m_method (req c) = HEAD) then Ok (c, GET_REQUEST)
    else if decide (m_content_length (req c) <> 0)
    then Ok (set_lines c (set_state (lines c) CHECK_STATE_CONTENT), NO_REQUEST)
    else Ok (c, GET_REQUEST)
  else
    s ← cstr (buf c) text_;
    if same_nocase_n s (text "Connection:") 11 then
      s ← cstr (buf c) (text_ + 11);
      s ← cstr (buf c) (text_ + 11 + span_blanks s);
      Ok (if same_nocase s (text "keep-alive") then set_req c (set_linger (req c) true) else c, NO_REQUEST)
    else if same_nocase_n s (text "Content-Length:") 15 then
      s ← cstr (buf c) (text_ + 15);
      s ← cstr (buf c) (text_ + 15 + span_blanks s);
      Ok (set_req c (set_length (req c) (s32 (atol s))), NO_REQUEST)
    else if same_nocase_n s (text "Host:") 5 then
      s ← cstr (buf c) (text_ + 5);
      Ok (set_req c (set_host (req c) (Some (text_ + 5 + span_blanks s))), NO_REQUEST)
    else Ok (say c (text "oop! unknow header " ++ s ++ [LF]), NO_REQUEST).

(** The sum of two [int]s wraps. *)
Definition parse_content (c : http_conn) (text_ : Z) : outcome (http_conn * HTTP_CODE) :=
  if decide (s32 (m_content_length (req c) + checked_index (lines c)) <= read_index (lines c)) then
    b ← wr (buf c) (text_ + m_content_length (req c)) 0;
    Ok (set_buf c b, GET_REQUEST)
  else Ok (c, NO_REQUEST).

(** ** The file *)

(** A file: its mode, its bytes, and whether it can be opened. *)
Record file := File { f_mode : Z; f_bytes : list Z; f_opens : bool }.

Definition doc_root : list Z := Eval cbv in text "/var/www/html".

Definition S_IROTH : Z := 4.
Definition S_ISDIR (mode : Z) : bool := bool_decide (Z.land mode 61440 = 16384).

(** [strncpy]: at most [n] characters, filled up with NULs. *)
Definition strncpy (s : list Z) (n : nat) : list Z := take n s ++ replicate (n - length s) 0.

(** [mmap] of nothing fails. *)
Definition mmap (f : file) : address :=
  if f_opens f && negb (bool_decide (f_bytes f = [])) then Mapped (f_bytes f) else MAP_FAILED.

Section Files.
Context (fs : list Z -> option file).

Definition do_request (c : http_conn) : outcome (http_conn * HTTP_CODE) :=
  real ← wr_slice (m_real_file (file_ c)) 0 (doc_root ++ [0]);
  match m_url (req c) with
  | None => Fault NullDeref
  | Some url =>
      url ← cstr (buf c) url;
      real ← wr_slice real (Zlen doc_root) (strncpy url (Z.to_nat (FILENAME_LEN - Zlen doc_root - 1)));
      path ← cstr real 0;
      let m := file_ c in
      match fs path with
      | None => Ok (set_file c (Mapping real (m_file_address m) (st_mode m) (st_size m)), NO_RESOURCE)
      | Some f =>
          let m := Mapping real (m_file_address m) (f_mode f) (Zlen (f_bytes f)) in
          if decide (Z.land (f_mode f) S_IROTH = 0) then Ok (set_file c m, FORBIDDEN_REQUEST)
          else if S_ISDIR (f_mode f) then Ok (set_file c m, BAD_REQUEST)
          else Ok (set_file c (set_address m (mmap f)), FILE_REQUEST)
      end
  end.

(** The loop of [process_read]: a turn that ends a line, or the first one for a body. *)
Fixpoint process_loop (fuel : nat) (c : http_conn) (line_status : LINE_STATUS) : outcome (http_conn * HTTP_CODE) :=
  match fuel with
  | O => Fault OutOfFuel
  | S fuel =>
      '(c, line_status) ←
        (if bool_decide (checkstate (lines c) = CHECK_STATE_CONTENT) && bool_decide (line_status = LINE_OK)
         then Ok (c, LINE_OK) else conn_parse_line c);
      if decide (line_status = LINE_OK) then
        let text_ := start_line (lines c) in
        let c := set_lines c (set_start (lines c) (checked_index (lines c))) in
        s ← cstr (buf c) text_;
        let c := say c (text "got 1 http line: " ++ s ++ [LF]) in
        match checkstate (lines c) with
        | CHECK_STATE_REQUESTLINE =>
            '(c, ret) ← parse_request_line c text_;
            if decide (ret = BAD_REQUEST) then Ok (c, BAD_REQUEST) else process_loop fuel c LINE_OK
        | CHECK_STATE_HEADER =>
            '(c, ret) ← parse_headers c text_;
            if decide (ret = BAD_REQUEST) then Ok (c, BAD_REQUEST)
            else if decide (ret = GET_REQUEST) then do_request c
            else process_loop fuel c LINE_OK
        | CHECK_STATE_CONTENT =>
            '(c, ret) ← parse_content c text_;
            if decide (ret = GET_REQUEST) then do_request c else process_loop fuel c LINE_OPEN
        end
      else Ok (c, NO_REQUEST)
  end.

(** Every line takes a character or more; a body takes one more turn. *)
Definition process_read (c : http_conn) : outcome (http_conn * HTTP_CODE) :=
  process_loop (S (S (Z.to_nat (read_index (lines c))))) c LINE_OK.

(** ** The answer *)

(** [s] is what the format gives; [vsnprintf] cuts it and ends it with a NUL. *)
Definition add_response (c : http_conn) (s : list Z) : outcome (http_conn * bool) :=
  let i := m_write_idx (resp c) in
  if decide (WRITE_BUFFER_SIZE <= i) then Ok (c, false)
  else
    let room := WRITE_BUFFER_SIZE - 1 - i in
    b ← (if decide (room <= 0) then Ok (m_write_buf (resp c))
         else wr_slice (m_write_buf (resp c)) i (take (Z.to_nat (room - 1)) s ++ [0]));
    if decide (room <= Zlen s) then Ok (set_resp c (set_write (resp c) b i), false)
    else Ok (set_resp c (set_write (resp c) b (i + Zlen s)), true).

Definition CRLF : list Z := [CR; LF].

Definition add_status_line (c : http_conn) (status : Z) (title : list Z) : outcome (http_conn * bool) :=
  add_response c (text "HTTP/1.1 " ++ dec status ++ [32] ++ title ++ CRLF).
Definition add_content_length (c : http_conn) (content_len : Z) : outcome (http_conn * bool) :=
  add_response c (text "Content-Length: " ++ dec content_len ++ CRLF).
Definition add_linger (c : http_conn) : outcome (http_conn * bool) :=
  add_response c (text "Connection: " ++ (if m_linger (req c) then text "keep-alive" else text "close") ++ CRLF).
Definition add_blank_line (c : http_conn) : outcome (http_conn * bool) := add_response c CRLF.
Definition add_content (c : http_conn) (content : list Z) : outcome (http_conn * bool) := add_response c content.

(** The function has no [return]; nobody uses its value. *)
Definition add_headers (c : http_conn) (content_len : Z) : outcome http_conn :=
  '(c, _) ← add_content_length c content_len;
  '(c, _) ← add_linger c;
  '(c, _) ← add_blank_line c;
  Ok c.

Definition ok_200_title : list Z := text "OK".
Definition error_400_title : list Z := text "Bad Request".
Definition error_400_form : list Z := text "Your request has bad syntax or is inherently impossible to satisfy." ++ [LF].
Definition error_403_title : list Z := text "Forbidden".
Definition error_403_form : list Z := text "You do not have permission to get file from this server." ++ [LF].
Definition error_404_title : list Z := text "Not Found".
Definition error_404_form : list Z := text "The requested file was not found on this server." ++ [LF].
Definition error_500_title : list Z := text "Internal Error".
Definition error_500_form : list Z := text "There was an unusual problem serving the requested file." ++ [LF].
Definition ok_string : list Z := text "<html><body></body></html>".

(** The cases that answer with a text; the last lines of [process_write] follow. *)
Definition error_answer (c : http_conn) (status : Z) (title form : list Z) : outcome (http_conn * bool) :=
  '(c, _) ← add_status_line c status title;
  c ← add_headers c (Zlen form);
  '(c, ok) ← add_content c form;
  if ok : bool then
    let r := resp c in
    Ok (set_resp c (Resp (m_write_buf r) (m_write_idx r) (m_write_idx r) (iov1_base r) (iov1_len r) 1), true)
  else Ok (c, false).

(** The case of an empty file has no [break]: the default case follows. *)
Definition process_write (c : http_conn) (ret : HTTP_CODE) : outcome (http_conn * bool) :=
  match ret with
  | INTERNAL_ERROR => error_answer c 500 error_500_title error_500_form
  | BAD_REQUEST => error_answer c 400 error_400_title error_400_form
  | NO_RESOURCE => error_answer c 404 error_404_title error_404_form
  | FORBIDDEN_REQUEST => error_answer c 403 error_403_title error_403_form
  | FILE_REQUEST =>
      '(c, _) ← add_status_line c 200 ok_200_title;
      if decide (st_size (file_ c) <> 0) then
        c ← add_headers c (s32 (st_size (file_ c)));
        let r := resp c in
        Ok (set_resp c (Resp (m_write_buf r) (m_write_idx r) (m_write_idx r) (m_file_address (file_ c)) (st_size (file_ c)) 2), true)
      else
        c ← add_headers c (Zlen ok_string);
        '(c, _) ← add_content c ok_string;
        Ok (c, false)
  | _ => Ok (c, false)
  end.

Definition process (c : http_conn) : outcome http_conn :=
  '(c, read_ret) ← process_read c;
  if decide (read_ret = NO_REQUEST) then Ok (modfd c EPOLLIN)
  else
    '(c, write_ret) ← process_write c read_ret;
    let c := if write_ret : bool then c else close_conn c in
    Ok (modfd c EPOLLOUT).

(** [process] up to where it closes the connection, if it does: [true] when [close_conn] and the last
    [modfd] are still to come. *)
Definition process_part (c : http_conn) : outcome (http_conn * bool) :=
  '(c, read_ret) ← process_read c;
  if decide (read_ret = NO_REQUEST) then Ok (modfd c EPOLLIN, false)
  else
    '(c, write_ret) ← process_write c read_ret;
    Ok (if write_ret : bool then (modfd c EPOLLOUT, false) else (c, true)).

Lemma process_parts c :
  process c = '(c, closing) ← process_part c; Ok (if closing : bool then modfd (close_conn c) EPOLLOUT else c).
Proof.
  unfold process, process_part. destruct (process_read c) as [[c1 ret]|]; [|done]. cbn [mbind outcome_bind].
  destruct (decide _); [done|]. destruct (process_write c1 ret) as [[c2 [|]]|]; done.
Qed.
End Files.

(** ** Writing *)

Definition unmap (c : http_conn) : http_conn :=
  match m_file_address (file_ c) with
  | Null => c
  | _ => set_file c (set_address (file_ c) Null)
  end.

(** The bytes of the vector; the kernel refuses an address that is not mapped. *)
Definition vector (r : response) : option (list Z) :=
  let head := take (Z.to_nat (iov0_len r)) (m_write_buf r) in
  if decide (m_iv_count r = 1) then Some head
  else match iov1_base r with
       | Mapped bytes => Some (head ++ take (Z.to_nat (iov1_len r)) bytes)
       | _ => None
       end.

(** What [writev] does: it takes some bytes, would block, or fails; without an event it
    would block. *)
Inductive writev_result := Wrote (n : Z) | WouldBlock | WriteFailed.

(** The vector is the same in every turn. *)
Fixpoint write_loop (net : list writev_result) (c : http_conn) (bytes_to_send bytes_have_send : Z) : http_conn * bool :=
  match net, vector (resp c) with
  | [], _ | WouldBlock :: _, _ => (modfd c EPOLLOUT, true)
  | WriteFailed :: _, _ | _, None => (unmap c, false)
  | Wrote temp :: net, Some bytes =>
      let c := send c (take (Z.to_nat temp) bytes) in
      let bytes_to_send := bytes_to_send - temp in
      let bytes_have_send := bytes_have_send + temp in
      if decide (bytes_to_send <= bytes_have_send) then
        let c := unmap c in
        if m_linger (req c) then (modfd (init c) EPOLLIN, true) else (modfd c EPOLLIN, false)
      else write_loop net c bytes_to_send bytes_have_send
  end.

Definition write (net : list writev_result) (c : http_conn) : http_conn * bool :=
  if decide (m_write_idx (resp c) = 0) then (init (modfd c EPOLLIN), true)
  else write_loop net c (m_write_idx (resp c)) 0.

(** ** The events of a connection *)

(** What the last call registered: every registration serves one event. *)
Definition armed (c : http_conn) : option interest :=
  match last (epoll c) with
  | Some (Addfd fd) => if decide (fd = m_sockfd c) then Some EPOLLIN else None
  | Some (Modfd fd ev) => if decide (fd = m_sockfd c) then Some ev else None
  | _ => None
  end.

Inductive event := Readable (net : list recv_result) | Writable (net : list writev_result) | Hangup.

(** The branches of the main loop for a connection; [process] is the work of a thread of
    the pool.  An event that is not registered does not come. *)
Definition handle (fs : list Z -> option file) (ev : event) (c : http_conn) : outcome http_conn :=
  match ev with
  | Hangup => Ok (close_conn c)
  | Readable net =>
      if decide (armed c = Some EPOLLIN) then
        '(c, ok) ← read net c;
        if ok : bool then process fs c else Ok (close_conn c)
      else Fault Blocked
  | Writable net =>
      if decide (armed c = Some EPOLLOUT) then
        let '(c, ok) := write net c in
        Ok (if ok then c else close_conn c)
      else Fault Blocked
  end.

Fixpoint run (fs : list Z -> option file) (evs : list event) (c : http_conn) : outcome http_conn :=
  match evs with
  | [] => Ok c
  | ev :: evs => c ← handle fs ev c; run fs evs c
  end.
