(* ===== verification/HttpAnswer.v ===== *)
(** * The HTTP server: what is answered

    The connection of HttpConn.v against a specification on the bytes a client sends:
    which file is asked for, and what is sent back.  Requests may be cut into packets and
    turns of the main loop at will, and a connection that is kept alive answers one request
    after the other. *)

From stdpp Require Import base numbers list list_numbers strings.
From S2P Require Import Prelude CStr HttpParser HttpConn.

#[local] Open Scope Z_scope.

(** ** The specification of a request *)










(** ** A line *)







(** ** The loop *)







Section Process.
Context (fs : list Z -> option file).









End Process.

(** ** The file *)





Section Answer.
Context (fs : list Z -> option file).


(** ** The bytes of an answer *)











(** ** A round: what arrives at once is read and processed *)








(** ** Requests in rounds, and sessions *)














End Answer.

(** ** Properties *)


(** A file, one that may not be read, and a directory. *)
Definition site (path : list Z) : option file :=
  if decide (path = text "/var/www/html/a") then Some (File 33188 (text "hello") true)
  else if decide (path = text "/var/www/html/b") then Some (File 33152 (text "secret") true)
  else if decide (path = text "/var/www/html/") then Some (File 16877 (text "x") true)
  else if decide (path = text "/var/www/html/empty") then Some (File 33188 [] true)
  else if decide (path = text "/var/www/html/../../../etc/passwd") then Some (File 33188 (text "root") true)
  else None.

Definition keep_alive : list Z := text "Connection: keep-alive" ++ CRLF.
Definition get_ (path : list Z) : list Z := text "GET " ++ path ++ text " HTTP/1.1" ++ CRLF.


Definition no_conn : http_conn :=
  Conn (-1) (Parser [] 0 0 0 CHECK_STATE_REQUESTLINE []) (Req GET None None None 0 false) (Resp [] 0 0 Null 0 0) (Mapping [] Null 0 0) 0 [] [].



(** ** What goes wrong *)

Definition after (evs : list event) : option (list Z * Z) :=
  match run site evs (init_conn no_conn 5) with Ok c => Some (sent c, m_sockfd c) | Fault _ => None end.
Definition ask (s : list Z) : event := Readable [Recv s].

(** A negative length writes before the buffer. *)
Example negative_length :
  run site [ask (get_ (text "/a") ++ text "Content-Length: -100" ++ CRLF ++ CRLF)] (init_conn no_conn 5) = Fault OutOfBounds.
Proof. by vm_compute. Qed.

(** A body that does not arrive with its headers is not recognised: what came of it is
    skipped as lines, and as many bytes again are awaited. *)
Example split_body :
  let head := get_ (text "/a") ++ text "Content-Length: 4" ++ CRLF ++ CRLF in
  (armed <$> match run site [ask (head ++ text "abcd")] (init_conn no_conn 5) with Ok c => Some c | Fault _ => None end) = Some (Some EPOLLOUT) /\
  (armed <$> match run site [ask (head ++ text "ab"); ask (text "cd")] (init_conn no_conn 5) with Ok c => Some c | Fault _ => None end) = Some (Some EPOLLIN).
Proof. by vm_compute. Qed.

(** A line with a CR alone gets no answer, whatever follows. *)
Example bad_line_waits :
  (armed <$> match run site [ask (text "GET /a" ++ [CR; 65]); ask (CRLF ++ CRLF)] (init_conn no_conn 5) with Ok c => Some c | Fault _ => None end)
    = Some (Some EPOLLIN).
Proof. by vm_compute. Qed.

(** When the socket takes half of the headers, the rest is never sent; when it takes
    less, the headers are sent again from the start. *)
Example half_is_enough :
  (fun r => length r.1) <$> after [ask (get_ (text "/a") ++ CRLF); Writable [Wrote 35]] = Some 35%nat.
Proof. by vm_compute. Qed.
Example sent_twice :
  after [ask (get_ (text "/a") ++ CRLF); Writable [Wrote 15; Wrote 30]] =
    Some (text "HTTP/1.1 200 OK" ++ text "HTTP/1.1 200 OK" ++ CRLF ++ text "Content-Lengt", -1).
Proof. by vm_compute. Qed.

(** An empty file closes the connection without an answer. *)
Example empty_file : after [ask (get_ (text "/empty") ++ CRLF)] = Some ([], -1).
Proof. by vm_compute. Qed.

(** A path may lead out of the directory. *)
Example out_of_the_root :
  after [ask (get_ (text "/../../../etc/passwd") ++ CRLF); Writable [Wrote 61]] =
    Some (text "HTTP/1.1 200 OK" ++ CRLF ++ text "Content-Length: 4" ++ CRLF ++ text "Connection: close" ++ CRLF ++ CRLF ++ text "root", -1).
Proof. by vm_compute. Qed.
