(* ===== verification/HttpPool.v ===== *)
(** * The HTTP server: the pool of threads and the main loop

    src/src/Linux High Perfermance Server Program/codes/15/15-3threadpool.h, 15-6main.cpp
    and the lock and semaphore of codes/14/14-2locker.h.  The main thread waits for
    events, reads and writes, and hands connections with new data to a queue; the
    threads of the pool take them from it and run [process].  Every call of the lock and
    of the semaphore, every access to the queue and every call on a connection is a step of
    its thread, and the threads interleave freely.  When [process] closes a connection, the
    close of the descriptor, the assignment to [m_sockfd], the load and the store of the
    counter and the last [modfd] are steps of their own; the main thread can accept a new
    connection between any two of them, and gets the same descriptor if [reuse] allows it.

    It is shown that in every reachable state, unless a descriptor is used again while a
    thread is still closing it, a connection is registered, queued or in the hands of one thread,
    never two of these at once. *)

From stdpp Require Import base numbers list list_numbers gmap relations strings.
From S2P Require Import Prelude CStr HttpParser HttpConn.

#[local] Open Scope Z_scope.

(** ** The pool *)

(** Where a thread is in [run]; a request is a pointer. *)
Inductive worker_pc :=
| W_top                       (* while ( ! m_stop ) *)
| W_wait                      (* m_queuestat.wait() *)
| W_lock                      (* m_queuelocker.lock() *)
| W_locked                    (* m_workqueue.empty(), front(), pop_front() *)
| W_unlock_empty              (* m_queuelocker.unlock(); continue *)
| W_unlock (r : option Z)     (* m_queuelocker.unlock() *)
| W_check (r : option Z)      (* if ( ! request ) *)
| W_process (r : Z)           (* request->process() *)
| W_close (r : Z)             (* in close_conn: if ( m_sockfd != -1 ) removefd() *)
| W_closed (r : Z)            (* m_sockfd = -1 *)
| W_uncount (r : Z)           (* m_user_count--: it is read *)
| W_count (r : Z) (v : Z)     (* and written *)
| W_modfd (r : Z)             (* back in process: modfd( m_epollfd, m_sockfd, EPOLLOUT ) *)
| W_exit.

(** Where the main thread is in [append], or in the change of the number of users at the end of an event. *)
Inductive append_pc :=
| A_idle
| A_lock (r : option Z)       (* m_queuelocker.lock() *)
| A_locked (r : option Z)     (* m_workqueue.size() > m_max_requests, push_back *)
| A_full                      (* m_queuelocker.unlock(); return false *)
| A_pushed                    (* m_queuelocker.unlock() *)
| A_post                      (* m_queuestat.post(); return true *)
| A_count (d : Z)             (* m_user_count++ or --: it is read *)
| A_store (v : Z).            (* and written *)

#[global] Instance append_pc_eq_dec : EqDecision append_pc.
Proof. solve_decision. Defined.

Inductive thread := MainThread | Worker (i : nat).
#[global] Instance thread_eq_dec : EqDecision thread.
Proof. solve_decision. Defined.

(** The pool, its threads, and what was ever put into the queue and taken out. *)
Record threadpool := Pool {
  m_max_requests : Z; m_workqueue : list (option Z); m_queuelocker : option thread; m_queuestat : Z; m_stop : bool;
  m_threads : list worker_pc; appender : append_pc; put : list (option Z); taken : list (option Z);
}.

Definition set_queue (p : threadpool) q t u :=
  Pool (m_max_requests p) q (m_queuelocker p) (m_queuestat p) (m_stop p) (m_threads p) (appender p) t u.
Definition set_lock (p : threadpool) x :=
  Pool (m_max_requests p) (m_workqueue p) x (m_queuestat p) (m_stop p) (m_threads p) (appender p) (put p) (taken p).
Definition set_sem (p : threadpool) x :=
  Pool (m_max_requests p) (m_workqueue p) (m_queuelocker p) x (m_stop p) (m_threads p) (appender p) (put p) (taken p).
Definition goto (p : threadpool) (i : nat) (pc : worker_pc) :=
  Pool (m_max_requests p) (m_workqueue p) (m_queuelocker p) (m_queuestat p) (m_stop p) (<[i := pc]> (m_threads p)) (appender p) (put p) (taken p).
Definition goto_main (p : threadpool) (pc : append_pc) :=
  Pool (m_max_requests p) (m_workqueue p) (m_queuelocker p) (m_queuestat p) (m_stop p) (m_threads p) pc (put p) (taken p).

(** The constructor; [None] when it throws. *)
Definition threadpool_init (thread_number max_requests : Z) : option threadpool :=
  if (thread_number <=? 0) || (max_requests <=? 0) then None
  else Some (Pool max_requests [] None 0 false (replicate (Z.to_nat thread_number) W_top) A_idle [] []).

(** [~threadpool] only asks the threads to stop. *)
Definition threadpool_stop (p : threadpool) : threadpool :=
  Pool (m_max_requests p) (m_workqueue p) (m_queuelocker p) (m_queuestat p) true (m_threads p) (appender p) (put p) (taken p).

(** A thread takes the lock, and gives it back. *)
Definition lock (p : threadpool) (t : thread) : option threadpool :=
  match m_queuelocker p with None => Some (set_lock p (Some t)) | Some _ => None end.
Definition unlock (p : threadpool) : threadpool := set_lock p None.

(** A step of the [i]th thread in [run]; [None] when it is blocked, has ended or is in [process]. *)
Definition run_step (p : threadpool) (i : nat) : option threadpool :=
  match m_threads p !! i with
  | Some W_top => Some (goto p i (if m_stop p then W_exit else W_wait))
  | Some W_wait => if decide (0 < m_queuestat p) then Some (goto (set_sem p (m_queuestat p - 1)) i W_lock) else None
  | Some W_lock => p ← lock p (Worker i); Some (goto p i W_locked)
  | Some W_locked =>
      match m_workqueue p with
      | [] => Some (goto p i W_unlock_empty)
      | r :: q => Some (goto (set_queue p q (put p) (taken p ++ [r])) i (W_unlock r))
      end
  | Some W_unlock_empty => Some (goto (unlock p) i W_top)
  | Some (W_unlock r) => Some (goto (unlock p) i (W_check r))
  | Some (W_check None) => Some (goto p i W_top)
  | Some (W_check (Some r)) => Some (goto p i (W_process r))
  | _ => None
  end.

(** A step of [append]. *)
Definition append_step (p : threadpool) : option threadpool :=
  match appender p with
  | A_idle | A_count _ | A_store _ => None
  | A_lock r => p ← lock p MainThread; Some (goto_main p (A_locked r))
  | A_locked r =>
      if decide (m_max_requests p < Zlen (m_workqueue p)) then Some (goto_main p A_full)
      else Some (goto_main (set_queue p (m_workqueue p ++ [r]) (put p ++ [r]) (taken p)) A_pushed)
  | A_full => Some (goto_main (unlock p) A_idle)
  | A_pushed => Some (goto_main (unlock p) A_post)
  | A_post => Some (goto_main (set_sem p (m_queuestat p + 1)) A_idle)
  end.

(** ** The server *)

Definition MAX_FD : Z := 65536.

(** The connections, what the kernel holds (registrations and open descriptors), the number
    of users and the pool. *)
Record server := Server {
  users : gmap Z http_conn; registered : gmap Z interest; opened : gset Z; user_count : Z; pool : threadpool;
}.

Definition set_pool (s : server) p := Server (users s) (registered s) (opened s) (user_count s) p.

(** What a call of a connection does to the registrations; [removefd] also closes.  A
    descriptor that is not open cannot be modified. *)
Definition epoll_ctl (k : gmap Z interest * gset Z) (x : epoll_call) : gmap Z interest * gset Z :=
  match x with
  | Addfd fd => (<[fd := EPOLLIN]> k.1, k.2)
  | Modfd fd ev => if decide (fd ∈ k.2) then (<[fd := ev]> k.1, k.2) else k
  | Removefd fd => (delete fd k.1, k.2 ∖ {[fd]})
  end.

(** The connection of a descriptor, with the static counter and no calls yet, and what a
    call on it leaves, the counter apart. *)
Definition conn_of (s : server) (c : http_conn) : http_conn :=
  Conn (m_sockfd c) (lines c) (req c) (resp c) (file_ c) (user_count s) [] (sent c).
Definition commit (s : server) (fd : Z) (c : http_conn) : server :=
  let k := foldl epoll_ctl (registered s, opened s) (epoll c) in
  Server (<[fd := c]> (users s)) k.1 k.2 (user_count s) (pool s).

(** The main thread goes on to change the counter, if the call did. *)
Definition commit_main (s : server) (fd : Z) (c : http_conn) : server :=
  let s' := commit s fd c in
  if decide (m_user_count c = user_count s) then s'
  else set_pool s' (goto_main (pool s') (A_count (m_user_count c - user_count s))).

Definition main_count (s : server) : option server :=
  match appender (pool s) with
  | A_count d => Some (set_pool s (goto_main (pool s) (A_store (user_count s + d))))
  | A_store v => Some (Server (users s) (registered s) (opened s) v (goto_main (pool s) A_idle))
  | _ => None
  end.

(** An event that epoll reports is registered no more. *)
Definition disarm (s : server) (fd : Z) : server :=
  Server (users s) (delete fd (registered s)) (opened s) (user_count s) (pool s).

Section Steps.
Context (fs : list Z -> option file).

(** The main loop on an event of a connection; with new data it goes on to [append]. *)
Definition main_readable (s : server) (fd : Z) (net : list recv_result) : outcome (option server) :=
  match users s !! fd, registered s !! fd with
  | Some c, Some EPOLLIN =>
      let s := disarm s fd in
      '(c, ok) ← read net (conn_of s c);
      Ok (Some (if ok : bool then let s := commit s fd c in set_pool s (goto_main (pool s) (A_lock (Some fd)))
                else commit_main s fd (close_conn c)))
  | _, _ => Ok None
  end.

Definition main_writable (s : server) (fd : Z) (net : list writev_result) : option server :=
  match users s !! fd, registered s !! fd with
  | Some c, Some EPOLLOUT =>
      let s := disarm s fd in
      let '(c, ok) := write net (conn_of s c) in
      Some (commit_main s fd (if ok then c else close_conn c))
  | _, _ => None
  end.

Definition main_hangup (s : server) (fd : Z) : option server :=
  match users s !! fd, registered s !! fd with
  | Some c, Some _ => let s := disarm s fd in Some (commit_main s fd (close_conn (conn_of s c)))
  | _, _ => None
  end.

(** A new connection gets a descriptor that is not open; beyond the limit it is closed again. *)
Definition main_accept (s : server) (fd : Z) : outcome (option server) :=
  if decide (0 <= fd /\ fd ∉ opened s) then
    if decide (MAX_FD <= user_count s) then Ok (Some s)
    else match users s !! fd with
         | Some c =>
             let s := Server (users s) (registered s) ({[fd]} ∪ opened s) (user_count s) (pool s) in
             Ok (Some (commit_main s fd (init_conn (conn_of s c) fd)))
         | None => Fault OutOfBounds
         end
  else Ok None.

(** A thread in [process]: what it does up to the close is one step, nobody else having the
    connection; the rest is one access to something shared after the other. *)
Definition worker_process (s : server) (i : nat) : outcome (option server) :=
  let go s pc := Ok (Some (set_pool s (goto (pool s) i pc))) in
  match m_threads (pool s) !! i with
  | Some (W_process fd) =>
      match users s !! fd with
      | Some c =>
          '(c, closing) ← process_part fs (conn_of s c);
          go (commit s fd c) (if closing : bool then W_close fd else W_top)
      | None => Ok None
      end
  | Some (W_close fd) =>
      match users s !! fd with
      | Some c =>
          if decide (m_sockfd c <> -1) then
            let k := epoll_ctl (registered s, opened s) (Removefd (m_sockfd c)) in
            go (Server (users s) k.1 k.2 (user_count s) (pool s)) (W_closed fd)
          else go s (W_modfd fd)
      | None => Ok None
      end
  | Some (W_closed fd) =>
      match users s !! fd with
      | Some c => go (Server (<[fd := set_sockfd c (-1)]> (users s)) (registered s) (opened s) (user_count s) (pool s)) (W_uncount fd)
      | None => Ok None
      end
  | Some (W_uncount fd) => go s (W_count fd (user_count s))
  | Some (W_count fd v) => go (Server (users s) (registered s) (opened s) (v - 1) (pool s)) (W_modfd fd)
  | Some (W_modfd fd) =>
      match users s !! fd with
      | Some c =>
          let k := epoll_ctl (registered s, opened s) (Modfd (m_sockfd c) EPOLLOUT) in
          go (Server (users s) k.1 k.2 (user_count s) (pool s)) W_top
      | None => Ok None
      end
  | _ => Ok None
  end.

(** The descriptors that threads of the pool have closed and are not done with. *)
Definition leaving (pc : worker_pc) : list Z :=
  match pc with W_closed r | W_uncount r | W_count r _ | W_modfd r => [r] | _ => [] end.
Definition closing (p : threadpool) : list Z := m_threads p ≫= leaving.

(** The steps of the server; the main thread handles an event when it is done with the one before.
    Without [reuse], a descriptor is not given out again before the thread that closed it
    has left [process]. *)
Inductive step (reuse : bool) : server -> server -> Prop :=
| step_readable s s' fd net : appender (pool s) = A_idle -> main_readable s fd net = Ok (Some s') -> step reuse s s'
| step_writable s s' fd net : appender (pool s) = A_idle -> main_writable s fd net = Some s' -> step reuse s s'
| step_hangup s s' fd : appender (pool s) = A_idle -> main_hangup s fd = Some s' -> step reuse s s'
| step_accept s s' fd : appender (pool s) = A_idle -> (reuse = true \/ fd ∉ closing (pool s)) ->
    main_accept s fd = Ok (Some s') -> step reuse s s'
| step_count s s' : main_count s = Some s' -> step reuse s s'
| step_append s p : append_step (pool s) = Some p -> step reuse s (set_pool s p)
| step_worker s i p : run_step (pool s) i = Some p -> step reuse s (set_pool s p)
| step_process s s' i : worker_process s i = Ok (Some s') -> step reuse s s'.
End Steps.

(** ** The invariant of the pool *)

(** Threads that have passed the semaphore and not yet taken a request. *)
Definition ticket (pc : worker_pc) : list unit := match pc with W_lock | W_locked => [()] | _ => [] end.
(** A push that the semaphore does not show yet. *)
Definition pending (pc : append_pc) : Z := match pc with A_pushed | A_post => 1 | _ => 0 end.

Definition holds (pc : worker_pc) : bool := match pc with W_locked | W_unlock_empty | W_unlock _ => true | _ => false end.
Definition main_holds (pc : append_pc) : bool := match pc with A_locked _ | A_full | A_pushed => true | _ => false end.

Record pool_ok (p : threadpool) : Prop := {
  ok_count : m_queuestat p + Z.of_nat (length (m_threads p ≫= ticket)) + pending (appender p) = Zlen (m_workqueue p);
  ok_sem : 0 <= m_queuestat p;
  ok_worker : forall i, m_queuelocker p = Some (Worker i) <-> exists pc, m_threads p !! i = Some pc /\ holds pc = true;
  ok_main : m_queuelocker p = Some MainThread <-> main_holds (appender p) = true;
  ok_empty : forall i, m_threads p !! i <> Some W_unlock_empty;
  ok_order : put p = taken p ++ m_workqueue p;
  ok_size : Zlen (m_workqueue p) <= m_max_requests p + 1;
}.

(** Replacing the state of one thread. *)
Lemma bind_insert {A B} (f : A -> list B) (l : list A) i x :
  l !! i = Some x -> exists rest, (l ≫= f) ≡ₚ f x ++ rest /\ forall y, (<[i := y]> l ≫= f) ≡ₚ f y ++ rest.
Proof.
  intros Hi. apply list_elem_of_split_length in Hi as (l1 & l2 & -> & ->). exists ((l1 ≫= f) ++ (l2 ≫= f)).
  rewrite bind_app, bind_cons. split; [solve_Permutation|]. intros y. rewrite insert_app_r_alt by lia. rewrite Nat.sub_diag. simpl. rewrite bind_app, bind_cons. solve_Permutation.
Qed.

Lemma tickets_goto l i x y :
  l !! i = Some x ->
  (length (<[i := y]> l ≫= ticket) + length (ticket x) = length (l ≫= ticket) + length (ticket y))%nat.
Proof.
  intros Hi. destruct (bind_insert ticket l i x Hi) as (rest & E1 & E2). rewrite E1, (E2 y), !length_app. lia.
Qed.

(** What a step of a thread does to the lock. *)
Lemma worker_lock_goto p i pc pc' lk :
  m_threads p !! i = Some pc ->
  (forall j, m_queuelocker p = Some (Worker j) <-> exists pc, m_threads p !! j = Some pc /\ holds pc = true) ->
  (holds pc' = true -> lk = Some (Worker i)) -> (holds pc' = false -> lk <> Some (Worker i)) ->
  (forall j, j <> i -> lk = Some (Worker j) <-> m_queuelocker p = Some (Worker j)) ->
  forall j, lk = Some (Worker j) <-> exists pc, <[i := pc']> (m_threads p) !! j = Some pc /\ holds pc = true.
Proof.
  intros Hi Hlk H1 H2 H3 j. pose proof (lookup_lt_Some _ _ _ Hi). destruct (decide (j = i)) as [->|Hj].
  - rewrite list_lookup_insert_eq by done. split.
    + intros E. exists pc'. split; [done|]. destruct (holds pc') eqn:Eh; [done|]. by destruct (H2 eq_refl).
    + intros (x & [= <-] & Hx). by apply H1.
  - rewrite list_lookup_insert_ne by done. by rewrite H3.
Qed.

Lemma run_step_ok p i p' : pool_ok p -> run_step p i = Some p' -> pool_ok p'.
Proof.
  intros [C1 C2 C3 C4 C5 C6 C7] Hs. unfold run_step in Hs. destruct (m_threads p !! i) as [pc|] eqn:Ei; [|done].
  assert (Hne : forall pc', pc' <> W_unlock_empty -> forall j, <[i := pc']> (m_threads p) !! j <> Some W_unlock_empty).
  { intros pc' Hpc j. destruct (decide (j = i)) as [->|Hj]; [|by rewrite list_lookup_insert_ne].
    rewrite list_lookup_insert_eq by (by eapply lookup_lt_Some). congruence. }
  assert (Hmain : forall lk, m_queuelocker p <> Some MainThread -> lk <> Some MainThread -> lk = Some MainThread <-> main_holds (appender p) = true).
  { intros lk H1 H2. rewrite <- C4. done. }
  assert (Hhold : holds pc = true -> m_queuelocker p = Some (Worker i)) by (intros Hh; apply C3; eauto).
  assert (Hfree : holds pc = false -> m_queuelocker p <> Some (Worker i)) by (intros Hh E; apply C3 in E as (x & Ex & Hx); congruence).
  assert (Htk : forall y, (length (<[i := y]> (m_threads p) ≫= ticket) + length (ticket pc) = length (m_threads p ≫= ticket) + length (ticket y))%nat)
    by (intros y; by apply tickets_goto).
  destruct pc as [| | | | |r|[r|]|r|r|r|r|r v|r|]; cbn [holds] in *; try done.
  - injection Hs as <-. split; simpl; try done.
    + destruct (m_stop p); [specialize (Htk W_exit)|specialize (Htk W_wait)]; simpl in Htk; lia.
    + eapply worker_lock_goto; [done|done|by destruct (m_stop p)|intros _; by apply Hfree|done].
    + apply Hne. by destruct (m_stop p).
  - destruct (decide (0 < m_queuestat p)); [|done]. injection Hs as <-. split; simpl; try done.
    + specialize (Htk W_lock). simpl in Htk. lia.
    + lia.
    + eapply worker_lock_goto; [done|done|done|intros _; by apply Hfree|done].
    + by apply Hne.
  - unfold lock in Hs. destruct (m_queuelocker p) eqn:El; [done|]. injection Hs as <-. split; simpl; try done.
    + specialize (Htk W_locked). simpl in Htk. lia.
    + eapply (worker_lock_goto p); [done|by rewrite El|done|done|]. intros j Hj. rewrite El. split; congruence.
    + by apply Hmain.
    + by apply Hne.
  - specialize (Hhold eq_refl). destruct (m_workqueue p) as [|r q] eqn:Eq.
    { exfalso. pose proof (bind_insert ticket _ _ _ Ei) as (rest & E & _). apply Permutation_length in E. rewrite length_app in E. simpl in E.
      change (Zlen []) with 0 in C1. destruct (appender p); simpl in C1; lia. }
    injection Hs as <-. rewrite Zlen_cons in *. split; simpl; try done.
    + specialize (Htk (W_unlock r)). simpl in Htk. lia.
    + eapply worker_lock_goto; [done|done|done|done|done].
    + by apply Hne.
    + rewrite C6. by rewrite <- app_assoc.
    + lia.
  - by destruct (C5 i).
  - specialize (Hhold eq_refl). injection Hs as <-. split; simpl; try done.
    + specialize (Htk (W_check r)). simpl in Htk. lia.
    + eapply (worker_lock_goto p); [done|done|done|done|]. intros j Hj. rewrite Hhold. split; congruence.
    + apply Hmain; congruence.
    + by apply Hne.
  - injection Hs as <-. split; simpl; try done.
    + specialize (Htk (W_process r)). simpl in Htk. lia.
    + eapply worker_lock_goto; [done|done|done|intros _; by apply Hfree|done].
    + by apply Hne.
  - injection Hs as <-. split; simpl; try done.
    + specialize (Htk W_top). simpl in Htk. lia.
    + eapply worker_lock_goto; [done|done|done|intros _; by apply Hfree|done].
    + by apply Hne.
Qed.

Lemma append_step_ok p p' : pool_ok p -> append_step p = Some p' -> pool_ok p'.
Proof.
  intros [C1 C2 C3 C4 C5 C6 C7] Hs. unfold append_step in Hs.
  assert (Hw : forall lk, (forall j, m_queuelocker p <> Some (Worker j)) -> (forall j, lk <> Some (Worker j)) ->
            forall j, lk = Some (Worker j) <-> exists pc, m_threads p !! j = Some pc /\ holds pc = true).
  { intros lk H1 H2 j. rewrite <- C3. split; intros E; [by destruct (H2 j)|by destruct (H1 j)]. }
  destruct (appender p) as [|r|r| | | |d|v] eqn:Ea; cbn [main_holds pending] in *; try done.
  - unfold lock in Hs. destruct (m_queuelocker p) eqn:El; [done|]. injection Hs as <-. split; simpl; try done. by apply Hw.
  - assert (Hl : m_queuelocker p = Some MainThread) by (by apply C4).
    destruct (decide (m_max_requests p < Zlen (m_workqueue p))).
    + injection Hs as <-. by split.
    + injection Hs as <-. assert (Hz : Zlen (m_workqueue p ++ [r]) = Zlen (m_workqueue p) + 1) by (unfold Zlen; rewrite length_app; simpl; lia).
      split; simpl; try done; [lia| |lia]. by rewrite C6, app_assoc.
  - assert (Hl : m_queuelocker p = Some MainThread) by (by apply C4). injection Hs as <-. split; simpl; try done. apply Hw; congruence.
  - assert (Hl : m_queuelocker p = Some MainThread) by (by apply C4). injection Hs as <-. split; simpl; try done. apply Hw; congruence.
  - injection Hs as <-. split; simpl; try done; lia.
Qed.

(** A thread is in [process]: it has been given a connection and does not wait for anything. *)
Definition at_work (pc : worker_pc) : Prop :=
  match pc with W_process _ | W_close _ | W_closed _ | W_uncount _ | W_count _ _ | W_modfd _ => True | _ => False end.

(** As long as something is queued and a thread is not in [process] (or has ended), some
    thread of the pool or the main thread in [append] can go on. *)
Lemma pool_goes_on p :
  pool_ok p -> m_workqueue p <> [] ->
  (exists i p', run_step p i = Some p') \/ (exists p', append_step p = Some p') \/
  forall i pc, m_threads p !! i = Some pc -> pc = W_exit \/ at_work pc.
Proof.
  intros [C1 C2 C3 C4 C5 C6 C7] Hq. destruct (m_queuelocker p) as [[|i]|] eqn:El.
  - right. left. pose proof (proj1 C4 eq_refl) as Hh. unfold append_step. destruct (appender p); try done; [|by eexists..].
    destruct (decide _); by eexists.
  - left. destruct (proj1 (C3 i) eq_refl) as (pc & Hi & Hh). exists i. unfold run_step. rewrite Hi.
    destruct pc; try done; [|by eexists..]. destruct (m_workqueue p); by eexists.
  - destruct (append_step p) as [p'|] eqn:Ea; [right; left; by exists p'|].
    assert (Hpend : pending (appender p) = 0).
    { unfold append_step, lock in Ea. rewrite El in Ea. destruct (appender p); try done. }
    rewrite Hpend in C1.
    destruct (decide (Exists (fun pc => match pc with W_top | W_lock | W_locked | W_unlock_empty | W_unlock _ | W_check _ => true | _ => false end = true) (m_threads p))) as [He|He].
    { left. apply Exists_exists in He as (pc & Hin & Hpc). apply list_elem_of_lookup in Hin as (i & Hi). exists i. unfold run_step, lock. rewrite Hi, El.
      destruct pc as [| | | | |r|[r|]|r|r|r|r|r v|r|]; try done; try by eexists. destruct (m_workqueue p); by eexists. }
    apply not_Exists_Forall in He; [|apply _].
    assert (Ht : (m_threads p ≫= ticket) = []).
    { clear - He. induction He as [|pc l Hpc _ IH]; [done|]. rewrite bind_cons, IH, app_nil_r. destruct pc; try done; by destruct Hpc. }
    rewrite Ht in C1. simpl in C1. assert (Hs : 0 < m_queuestat p).
    { destruct (m_workqueue p) as [|r q]; [done|]. rewrite Zlen_cons in C1. pose proof (Zlen_nonneg q). lia. }
    destruct (decide (Exists (fun pc => match pc with W_wait => true | _ => false end = true) (m_threads p))) as [Hw|Hw].
    { left. apply Exists_exists in Hw as (pc & Hin & Hpc). apply list_elem_of_lookup in Hin as (i & Hi). exists i. unfold run_step. rewrite Hi.
      destruct pc; try done. rewrite decide_True by done. by eexists. }
    right. right. apply not_Exists_Forall in Hw; [|apply _]. intros i pc Hi. rewrite Forall_lookup in He, Hw. specialize (He i pc Hi). specialize (Hw i pc Hi).
    destruct pc; try (by destruct He); try (by destruct Hw); first [by left | by right].
Qed.

(** ** Who has a connection *)

Definition hand (pc : worker_pc) : list Z :=
  match pc with W_unlock r | W_check r => option_list r | W_process r | W_close r => [r] | _ => [] end.
Definition hand_main (pc : append_pc) : list Z := match pc with A_lock r | A_locked r => option_list r | _ => [] end.
Definition held (p : threadpool) : list Z := hand_main (appender p) ++ omap id (m_workqueue p) ++ (m_threads p ≫= hand).

Lemma omap_id_cons (r : option Z) q : omap id (r :: q) = option_list r ++ omap id q.
Proof. by destruct r. Qed.

Lemma held_goto p p' i pc pc' :
  m_threads p !! i = Some pc -> m_threads p' = <[i := pc']> (m_threads p) -> appender p' = appender p ->
  omap id (m_workqueue p) ++ hand pc ≡ₚ omap id (m_workqueue p') ++ hand pc' -> held p' ≡ₚ held p.
Proof.
  intros Hi Ht Ha Hp. unfold held. rewrite Ht, Ha. destruct (bind_insert hand _ _ _ Hi) as (rest & E1 & E2). rewrite E1, (E2 pc').
  apply Permutation_app_head. rewrite !app_assoc. by rewrite Hp.
Qed.

Lemma run_step_held p i p' : run_step p i = Some p' -> held p' ≡ₚ held p.
Proof.
  intros Hs. unfold run_step in Hs. destruct (m_threads p !! i) as [pc|] eqn:Ei; [|done].
  destruct pc as [| | | | |r|[r|]|r|r|r|r|r v|r|]; try done.
  - injection Hs as <-. eapply held_goto; [done|done|done|]. by destruct (m_stop p).
  - destruct (decide _); [|done]. injection Hs as <-. by eapply held_goto.
  - unfold lock in Hs. destruct (m_queuelocker p); [done|]. injection Hs as <-. by eapply held_goto.
  - destruct (m_workqueue p) as [|r q] eqn:Eq; injection Hs as <-.
    + eapply held_goto; [done|done|done|]. simpl. by rewrite Eq.
    + eapply held_goto; [done|done|done|]. simpl m_workqueue. rewrite Eq, omap_id_cons. simpl hand. solve_Permutation.
  - injection Hs as <-. by eapply held_goto.
  - injection Hs as <-. by eapply held_goto.
  - injection Hs as <-. by eapply held_goto.
  - injection Hs as <-. by eapply held_goto.
Qed.

(** A full queue loses the connection. *)
Lemma append_step_held p p' : append_step p = Some p' -> exists lost, held p ≡ₚ lost ++ held p'.
Proof.
  intros Hs. unfold append_step in Hs. unfold held. destruct (appender p) as [|r|r| | | |d|v] eqn:Ea; try done.
  - unfold lock in Hs. destruct (m_queuelocker p); [done|]. injection Hs as <-. by exists [].
  - destruct (decide _); injection Hs as <-; simpl.
    + by exists (option_list r).
    + exists []. rewrite omap_app, omap_id_cons. simpl. rewrite app_nil_r. solve_Permutation.
  - injection Hs as <-. by exists [].
  - injection Hs as <-. by exists [].
  - injection Hs as <-. by exists [].
Qed.

(** ** What the calls on a connection leave alone *)

Definition kept (c c' : http_conn) : Prop :=
  m_sockfd c' = m_sockfd c /\ epoll c' = epoll c /\ m_user_count c' = m_user_count c.

Lemma kept_refl c : kept c c.
Proof. done. Qed.
Lemma kept_trans c1 c2 c3 : kept c1 c2 -> kept c2 c3 -> kept c1 c3.
Proof. unfold kept. intuition congruence. Qed.

(** Follow the branches of a call that returned. *)
Ltac branches H :=
  repeat first
    [ bind_inv H
    | match type of H with
      | Ok _ = Ok _ => injection H; clear H; intros; subst
      | Fault _ = Ok _ => discriminate H
      | context [match ?x with _ => _ end] => destruct x eqn:?
      end ].
Ltac keeps := intros H; branches H; repeat case_match; repeat split; reflexivity.

Lemma conn_parse_line_kept c c' x : conn_parse_line c = Ok (c', x) -> kept c c'.
Proof. unfold conn_parse_line. keeps. Qed.
Lemma parse_request_line_kept c i c' x : parse_request_line c i = Ok (c', x) -> kept c c'.
Proof. unfold parse_request_line. cbv zeta. keeps. Qed.
Lemma parse_headers_kept c i c' x : parse_headers c i = Ok (c', x) -> kept c c'.
Proof. unfold parse_headers. keeps. Qed.
Lemma parse_content_kept c i c' x : HttpConn.parse_content c i = Ok (c', x) -> kept c c'.
Proof. unfold HttpConn.parse_content. keeps. Qed.
Lemma do_request_kept fs c c' x : do_request fs c = Ok (c', x) -> kept c c'.
Proof. unfold do_request. cbv zeta. keeps. Qed.
Lemma add_response_kept c t c' x : add_response c t = Ok (c', x) -> kept c c'.
Proof. unfold add_response. cbv zeta. keeps. Qed.

Lemma process_loop_kept fs fuel : forall c st c' x, process_loop fs fuel c st = Ok (c', x) -> kept c c'.
Proof.
  induction fuel as [|fuel IH]; intros c st c' x H; [done|]. cbn [process_loop] in H. apply bind_Ok in H as ([c1 st1] & E & H).
  assert (H1 : kept c c1).
  { destruct (_ && _); [injection E as <- _; done|by eapply conn_parse_line_kept]. }
  destruct (decide (st1 = LINE_OK)); [|injection H as <- _; done]. cbv zeta in H. apply bind_Ok in H as (s & _ & H).
  eapply kept_trans; [exact H1|]. clear H1. set (c2 := say _ _) in H. apply (kept_trans _ c2); [done|].
  destruct (checkstate (lines c2)); apply bind_Ok in H as ([c3 ret] & E' & H).
  - apply parse_request_line_kept in E'. destruct (decide (ret = BAD_REQUEST)); [injection H as <- _; done|]. eapply kept_trans; eauto.
  - apply parse_headers_kept in E'. destruct (decide (ret = BAD_REQUEST)); [injection H as <- _; done|].
    destruct (decide (ret = GET_REQUEST)); [apply do_request_kept in H|apply IH in H]; by eapply kept_trans.
  - apply parse_content_kept in E'. destruct (decide (ret = GET_REQUEST)); [apply do_request_kept in H|apply IH in H]; by eapply kept_trans.
Qed.

Lemma add_headers_kept c len c' : add_headers c len = Ok c' -> kept c c'.
Proof.
  unfold add_headers, add_content_length, add_linger, add_blank_line. intros H.
  apply bind_Ok in H as ([c1 ?] & E & H). apply bind_Ok in H as ([c2 ?] & E0 & H). apply bind_Ok in H as ([c3 ?] & E1 & H). injection H as <-.
  apply add_response_kept in E, E0, E1. eauto using kept_trans.
Qed.

Lemma error_answer_kept c st t f c' x : error_answer c st t f = Ok (c', x) -> kept c c'.
Proof.
  unfold error_answer, add_status_line, add_content. intros H. apply bind_Ok in H as ([c1 ?] & E & H). apply bind_Ok in H as (c2 & E0 & H). apply bind_Ok in H as ([c3 ok] & E1 & H).
  apply add_response_kept in E, E1. apply add_headers_kept in E0.
  assert (kept c c3) by eauto using kept_trans. destruct ok; injection H as <- _; done.
Qed.

Lemma process_write_kept c code c' x : process_write c code = Ok (c', x) -> kept c c'.
Proof.
  unfold process_write. intros H. destruct code; try (by apply error_answer_kept in H); try (injection H as <- _; done).
  unfold add_status_line, add_content in H. apply bind_Ok in H as ([c1 ?] & E & H). apply add_response_kept in E.
  destruct (decide _); apply bind_Ok in H as (c2 & E0 & H); apply add_headers_kept in E0.
  - injection H as <- _. assert (kept c c2) by eauto using kept_trans. done.
  - apply bind_Ok in H as ([c3 ?] & E1 & H). apply add_response_kept in E1. injection H as <- _. eauto using kept_trans.
Qed.

Lemma read_kept net : forall c c' x, read_loop net c = Ok (c', x) -> kept c c'.
Proof.
  induction net as [|[bs| |] net IH]; intros c c' x H; cbn [read_loop] in H; destruct (decide _); try (injection H as <- _; done).
  destruct bs as [|b bs]; [injection H as <- _; done|]. apply bind_Ok in H as (b' & _ & H). apply IH in H. done.
Qed.

(** ** What the calls on a connection register *)

(** The connection stays open and is registered again, or it is closed. *)
Definition rearmed (c c' : http_conn) : Prop :=
  (m_sockfd c' = m_sockfd c /\ (exists ev, epoll c' = epoll c ++ [Modfd (m_sockfd c) ev]) /\ m_user_count c' = m_user_count c) \/
  (m_sockfd c' = -1 /\ (exists mods, epoll c' = epoll c ++ mods /\
      (mods = [Removefd (m_sockfd c)] \/ (exists ev, mods = [Removefd (m_sockfd c); Modfd (-1) ev]) \/
       exists ev, mods = [Modfd (m_sockfd c) ev; Removefd (m_sockfd c)])) /\
   m_user_count c' = m_user_count c - 1).

Lemma close_rearmed c c1 : m_sockfd c <> -1 -> kept c c1 -> rearmed c (close_conn c1).
Proof.
  intros Hfd (H1 & H2 & H3). right. unfold close_conn. rewrite decide_True by congruence. simpl. rewrite H1, H2, H3.
  split; [done|]. split; [|done]. eexists. split; [done|]. by left.
Qed.

Lemma process_part_kept fs c c' (b : bool) : process_part fs c = Ok (c', b) ->
  if b then kept c c'
  else m_sockfd c' = m_sockfd c /\ (exists ev, epoll c' = epoll c ++ [Modfd (m_sockfd c) ev]) /\ m_user_count c' = m_user_count c.
Proof.
  intros H. unfold process_part in H. apply bind_Ok in H as ([c1 ret] & E & H). apply process_loop_kept in E.
  destruct (decide (ret = NO_REQUEST)).
  { injection H as <- <-. destruct E as (H1 & H2 & H3). split; [done|]. split; [|done]. exists EPOLLIN. simpl. by rewrite H1, H2. }
  apply bind_Ok in H as ([c2 ok] & E0 & H). apply process_write_kept in E0.
  assert (Hk : kept c c2) by eauto using kept_trans. destruct ok; injection H as <- <-; [|done].
  destruct Hk as (H1 & H2 & H3). split; [done|]. split; [|done]. exists EPOLLOUT. simpl. by rewrite H1, H2.
Qed.

Lemma unmap_kept c : kept c (unmap c).
Proof. unfold unmap. by destruct (m_file_address (file_ c)). Qed.

Lemma write_loop_rearmed net : forall c c1 c' to have_ ok, kept c c1 ->
  write_loop net c1 to have_ = (c', ok) ->
  if ok : bool then rearmed c c' /\ m_sockfd c' = m_sockfd c
  else m_sockfd c' = m_sockfd c /\ m_user_count c' = m_user_count c /\
       (epoll c' = epoll c \/ exists ev, epoll c' = epoll c ++ [Modfd (m_sockfd c) ev]).
Proof.
  induction net as [|r net IH]; intros c c1 c' to have_ ok Hk H; cbn [write_loop] in H.
  - injection H as <- <-. destruct Hk as (H1 & H2 & H3). split; [|done]. left. split; [done|]. split; [|done]. exists EPOLLOUT. simpl. by rewrite H1, H2.
  - pose proof Hk as (H1 & H2 & H3). pose proof (unmap_kept c1) as (U1 & U2 & U3). destruct r as [temp| |].
    + destruct (vector (resp c1)) as [bytes|].
      2:{ injection H as <- <-. split; [congruence|]. split; [congruence|]. left. congruence. }
      cbv zeta in H. destruct (decide _); [|by eapply IH; [|exact H]]. set (c2 := unmap _) in H.
      pose proof (unmap_kept (send c1 (take (Z.to_nat temp) bytes))) as (V1 & V2 & V3). fold c2 in V1, V2, V3. simpl in V1, V2, V3. clearbody c2.
      destruct (m_linger (req c2)); injection H as <- <-.
      * split; [|simpl; congruence]. left. split; [simpl; congruence|]. split; [|simpl; congruence]. exists EPOLLIN. simpl. by rewrite V1, V2, H1, H2.
      * split; [simpl; congruence|]. split; [simpl; congruence|]. right. exists EPOLLIN. simpl. by rewrite V1, V2, H1, H2.
    + injection H as <- <-. split; [|done]. left. split; [done|]. split; [|done]. exists EPOLLOUT. simpl. by rewrite H1, H2.
    + injection H as <- <-. split; [congruence|]. split; [congruence|]. left. congruence.
Qed.

Lemma write_rearmed net c c' ok :
  m_sockfd c <> -1 -> write net c = (c', ok) -> rearmed c (if ok then c' else close_conn c').
Proof.
  intros Hfd H. unfold write in H. destruct (decide _).
  { injection H as <- <-. left. split; [done|]. split; [|done]. by exists EPOLLIN. }
  apply (write_loop_rearmed net c) in H; [|done]. destruct ok; [apply H|]. destruct H as (H1 & H2 & H3).
  unfold close_conn. rewrite decide_True by congruence. right. simpl. rewrite H1, H2. split; [done|]. split; [|done].
  destruct H3 as [->|(ev & ->)]; [eexists; split; [done|]; by left|]. eexists. split; [by rewrite <- app_assoc|]. right. right. by eexists.
Qed.

(** ** The invariant of the server *)

(** The threads that have set [m_sockfd] to -1. *)
Definition gone (pc : worker_pc) : list Z := match pc with W_uncount r | W_count r _ | W_modfd r => [r] | _ => [] end.
Definition gones (p : threadpool) : list Z := m_threads p ≫= gone.

Record server_ok (s : server) : Prop := {
  ok_held : NoDup (held (pool s) ++ closing (pool s));
  ok_reg : forall fd ev, registered s !! fd = Some ev -> fd ∈ opened s /\ (fd ∉ held (pool s));
  ok_open : forall fd, fd ∈ held (pool s) -> fd ∈ opened s;
  ok_sock : forall fd, fd ∈ opened s -> 0 <= fd /\ exists c, users s !! fd = Some c /\ m_sockfd c = fd;
  ok_closing : forall fd, fd ∈ closing (pool s) -> fd ∉ opened s;
  ok_gone : forall fd, fd ∈ gones (pool s) -> exists c, users s !! fd = Some c /\ m_sockfd c = -1;
}.

Lemma gones_closing p fd : fd ∈ gones p -> fd ∈ closing p.
Proof.
  unfold gones, closing. rewrite !list_elem_of_bind. intros (pc & Hfd & Hpc). exists pc. split; [|done].
  destruct pc; cbn [gone leaving] in *; first [done | by apply not_elem_of_nil in Hfd].
Qed.

(** An open connection that is nobody's, between two calls of a thread. *)
Definition loose (s : server) (fd : Z) : Prop := fd ∈ opened s /\ registered s !! fd = None /\ (fd ∉ held (pool s)).

Lemma disarm_ok s fd ev : server_ok s -> registered s !! fd = Some ev -> server_ok (disarm s fd) /\ loose (disarm s fd) fd.
Proof.
  intros [P2 P3 P4 P5 P6 P7] Hr. destruct (P3 fd ev Hr) as [Ho Hh]. split.
  - split; try done. intros fd' ev' H. simpl in H. apply lookup_delete_Some in H as [_ H]. by eapply P3.
  - split; [done|]. split; [apply lookup_delete_eq|done].
Qed.

(** What a call leaves in the kernel. *)
Lemma commit_kernel s fd c c' :
  0 <= fd -> (forall fd, fd ∈ opened s -> 0 <= fd) -> fd ∈ opened s -> m_sockfd c = fd -> rearmed (conn_of s c) c' ->
  (m_sockfd c' = fd /\ (exists ev, commit s fd c' = Server (<[fd := c']> (users s)) (<[fd := ev]> (registered s)) (opened s) (user_count s) (pool s))) \/
  commit s fd c' = Server (<[fd := c']> (users s)) (delete fd (registered s)) (opened s ∖ {[fd]}) (user_count s) (pool s).
Proof.
  intros Hfd Hpos Ho Hc [(H1 & (ev & H2) & H3)|(H1 & (mods & H2 & H3) & H4)]; unfold commit; rewrite H2; simpl in *.
  - left. split; [congruence|]. exists ev. rewrite Hc. rewrite decide_True by done. done.
  - right. rewrite Hc in H3. destruct H3 as [->|[(ev & ->)|(ev & ->)]]; simpl.
    + done.
    + rewrite decide_False; [done|]. intros Hin. apply elem_of_difference in Hin as [Hin _]. specialize (Hpos _ Hin). lia.
    + rewrite decide_True by done. simpl. by rewrite delete_insert_eq.
Qed.

Lemma commit_ok s fd c c' :
  server_ok s -> loose s fd -> users s !! fd = Some c -> rearmed (conn_of s c) c' -> server_ok (commit s fd c').
Proof.
  intros [P2 P3 P4 P5 P6 P7] (Ho & Hr & Hh) Hu Hre. destruct (P5 fd Ho) as (Hfd & c0 & Hu0 & Hc0). rewrite Hu in Hu0. injection Hu0 as <-.
  assert (Hgone : forall fd', fd' ∈ gones (pool s) -> exists c0, <[fd := c']> (users s) !! fd' = Some c0 /\ m_sockfd c0 = -1).
  { intros fd' Hin. rewrite lookup_insert_ne; [by apply P7|]. intros ->. by apply (P6 fd'); [apply gones_closing|]. }
  destruct (commit_kernel s fd c c' Hfd (fun fd H => proj1 (P5 fd H)) Ho Hc0 Hre) as [(Hs & ev & E)|E]; rewrite E; clear E; split; simpl; try done.
  - intros fd' ev'. destruct (decide (fd' = fd)) as [->|Hne]; [done|]. rewrite lookup_insert_ne by done. apply P3.
  - intros fd' Hin. destruct (P5 fd' Hin) as (H0 & c1 & H1 & H2). split; [done|]. destruct (decide (fd' = fd)) as [->|Hne].
    + rewrite lookup_insert_eq. by eexists.
    + rewrite lookup_insert_ne by done. by eexists.
  - intros fd' ev' H. apply lookup_delete_Some in H as [Hne H]. destruct (P3 fd' ev' H). set_solver.
  - intros fd' H. specialize (P4 fd' H). assert (fd' <> fd) by congruence. set_solver.
  - intros fd' Hin. apply elem_of_difference in Hin as [Hin Hne]. destruct (P5 fd' Hin) as (H0 & c1 & H1 & H2). split; [done|].
    rewrite lookup_insert_ne by set_solver. by eexists.
  - intros fd' Hin. specialize (P6 fd' Hin). set_solver.
Qed.

(** The pool changes and what it holds does not grow. *)
Lemma set_pool_ok s p lost :
  server_ok s -> held (pool s) ≡ₚ lost ++ held p -> closing p ≡ₚ closing (pool s) -> gones p ≡ₚ gones (pool s) -> server_ok (set_pool s p).
Proof.
  intros [P2 P3 P4 P5 P6 P7] Hh Hc Hg. split; simpl; try done.
  - rewrite Hh, <- app_assoc in P2. rewrite Hc. by apply NoDup_app in P2 as (_ & _ & P2).
  - intros fd ev Hr. destruct (P3 fd ev Hr) as [H1 H2]. split; [done|]. rewrite Hh, not_elem_of_app in H2. by destruct H2.
  - intros fd Hin. apply P4. rewrite Hh. apply elem_of_app. by right.
  - intros fd Hin. apply P6. by rewrite <- Hc.
  - intros fd Hin. rewrite Hg in Hin. by apply P7.
Qed.

(** The main thread goes on to the counter. *)
Lemma main_idle_ok s pc : server_ok s -> hand_main (appender (pool s)) = [] -> hand_main pc = [] -> server_ok (set_pool s (goto_main (pool s) pc)).
Proof.
  intros Hok H1 H2. apply (set_pool_ok s _ []); try done. unfold held. simpl. by rewrite H1, H2.
Qed.

Lemma commit_main_ok s fd c c' :
  server_ok s -> appender (pool s) = A_idle -> loose s fd -> users s !! fd = Some c -> rearmed (conn_of s c) c' ->
  server_ok (commit_main s fd c').
Proof.
  intros Hok Ha Hl Hu Hre. pose proof (commit_ok s fd c c' Hok Hl Hu Hre) as Hc. unfold commit_main. cbv zeta.
  destruct (decide _); [done|]. apply main_idle_ok; [done| |done]. simpl. by rewrite Ha.
Qed.

(** The main thread begins to hand over a connection. *)
Lemma begin_append_ok s fd :
  server_ok s -> loose s fd -> appender (pool s) = A_idle -> server_ok (set_pool s (goto_main (pool s) (A_lock (Some fd)))).
Proof.
  intros [P2 P3 P4 P5 P6 P7] (Ho & Hr & Hh) Ha.
  assert (E : held (goto_main (pool s) (A_lock (Some fd))) = fd :: held (pool s)) by (unfold held; simpl; by rewrite Ha).
  assert (Hc : fd ∉ closing (pool s)) by (intros Hin; by apply (P6 fd)).
  split; cbn [set_pool users registered opened user_count pool]; try done.
  - change (closing (goto_main _ _)) with (closing (pool s)). rewrite E. cbn [app]. constructor; [|done]. by rewrite not_elem_of_app.
  - intros fd' ev Hr'. destruct (P3 fd' ev Hr') as [H1 H2]. split; [done|]. rewrite E, not_elem_of_cons. split; [congruence|done].
  - intros fd' Hin. rewrite E in Hin. apply elem_of_cons in Hin as [->|Hin]; [done|by apply P4].
Qed.

(** What a thread in [process] has, before and after it goes on. *)
Lemma goto_lists p i pc pc' :
  m_threads p !! i = Some pc ->
  exists H C G, held p ≡ₚ hand pc ++ H /\ held (goto p i pc') ≡ₚ hand pc' ++ H /\
    closing p ≡ₚ leaving pc ++ C /\ closing (goto p i pc') ≡ₚ leaving pc' ++ C /\
    gones p ≡ₚ gone pc ++ G /\ gones (goto p i pc') ≡ₚ gone pc' ++ G.
Proof.
  intros Hi. destruct (bind_insert hand _ _ _ Hi) as (H & H1 & H2). destruct (bind_insert leaving _ _ _ Hi) as (C & C1 & C2).
  destruct (bind_insert gone _ _ _ Hi) as (G & G1 & G2).
  exists (hand_main (appender p) ++ omap id (m_workqueue p) ++ H), C, G. unfold held, closing, gones. simpl.
  rewrite H1, (H2 pc'), C1, (C2 pc'), G1, (G2 pc'). repeat split; solve_Permutation.
Qed.

(** A thread of the pool that is not in [process] leaves the lists of those that are alone. *)
Lemma run_step_leaving p i p' : run_step p i = Some p' -> closing p' ≡ₚ closing p /\ gones p' ≡ₚ gones p.
Proof.
  intros Hs. unfold run_step in Hs. destruct (m_threads p !! i) as [pc|] eqn:Ei; [|done].
  assert (Hgo : forall q pc', m_threads q = m_threads p -> leaving pc = [] -> leaving pc' = [] ->
            gone pc = [] -> gone pc' = [] -> closing (goto q i pc') ≡ₚ closing p /\ gones (goto q i pc') ≡ₚ gones p).
  { intros q pc' Hq L1 L2 G1 G2. unfold closing, gones. simpl. rewrite Hq.
    destruct (bind_insert leaving _ _ _ Ei) as (C & C1 & C2). destruct (bind_insert gone _ _ _ Ei) as (G & G3 & G4).
    by rewrite C1, (C2 pc'), G3, (G4 pc'), L1, L2, G1, G2. }
  destruct pc as [| | | | |r|[r|]|r|r|r|r|r v|r|]; try done; unfold lock in Hs; repeat case_match; try done;
    simplify_eq/=; by apply Hgo; try (by destruct (m_stop p)).
Qed.

Lemma append_step_leaving p p' : append_step p = Some p' -> m_threads p' = m_threads p.
Proof. intros Hs. unfold append_step, lock in Hs. repeat case_match; simplify_eq/=; done. Qed.

Lemma loose_conn s fd c : server_ok s -> loose s fd -> users s !! fd = Some c -> m_sockfd (conn_of s c) <> -1.
Proof. intros Hok (Ho & _) Hu. destruct (ok_sock s Hok fd Ho) as (H0 & c' & Hu' & Hs). rewrite Hu in Hu'. injection Hu' as <-. simpl. lia. Qed.

Section Invariant.
Context (fs : list Z -> option file).

(** A connection whose data changes, and not its descriptor. *)
Lemma users_kept_ok s fd c c1 :
  server_ok s -> users s !! fd = Some c -> m_sockfd c1 = m_sockfd c ->
  server_ok (Server (<[fd := c1]> (users s)) (registered s) (opened s) (user_count s) (pool s)).
Proof.
  intros [P2 P3 P4 P5 P6 P7] Hu Hs.
  assert (Hset : forall fd' x, (exists c0, users s !! fd' = Some c0 /\ m_sockfd c0 = x) -> exists c0, <[fd := c1]> (users s) !! fd' = Some c0 /\ m_sockfd c0 = x).
  { intros fd' x (c0 & H1 & H2). destruct (decide (fd' = fd)) as [->|Hne]; [|rewrite lookup_insert_ne by done; by exists c0].
    rewrite lookup_insert_eq. exists c1. split; [done|]. congruence. }
  split; simpl; try done.
  - intros fd' Hin. destruct (P5 fd' Hin) as [H0 H1]. split; [done|]. by apply Hset.
  - intros fd' Hin. apply Hset. by apply P7.
Qed.

Lemma readable_ok s fd net s' :
  server_ok s -> appender (pool s) = A_idle -> main_readable s fd net = Ok (Some s') -> server_ok s'.
Proof.
  intros Hok Ha H. unfold main_readable in H. destruct (users s !! fd) as [c|] eqn:Eu; [|done].
  destruct (registered s !! fd) as [[|]|] eqn:Er; try done. cbv zeta in H. apply bind_Ok in H as ([c1 ok] & E & H). injection H as <-.
  destruct (disarm_ok s fd _ Hok Er) as [Hok1 Hl1]. set (s1 := disarm s fd) in *.
  assert (Hk : kept (conn_of s1 c) c1).
  { unfold read in E. destruct (decide _); [injection E as <- _; done|]. by eapply read_kept. }
  destruct ok.
  - destruct Hk as (K1 & K2 & K3). simpl in K1, K2, K3.
    assert (Hc : server_ok (commit s1 fd c1)) by (unfold commit; rewrite K2; by apply (users_kept_ok s1 fd c)).
    apply (begin_append_ok (commit s1 fd c1) fd Hc); [|done]. unfold commit. by rewrite K2.
  - apply (commit_main_ok s1 fd c); [done|done|done|done|]. by apply close_rearmed; [eapply loose_conn|].
Qed.

Lemma accept_ok s fd s' :
  server_ok s -> appender (pool s) = A_idle -> (fd ∉ closing (pool s)) -> main_accept s fd = Ok (Some s') -> server_ok s'.
Proof.
  intros Hok Ha Hcl H. unfold main_accept in H. destruct (decide (0 <= fd /\ fd ∉ opened s)) as [[Hfd Ho]|]; [|done].
  destruct (decide (MAX_FD <= user_count s)); [by injection H as <-|].
  destruct (users s !! fd) as [c|] eqn:Eu; [|done]. injection H as <-. unfold commit_main. cbv zeta. rewrite decide_False by (simpl; lia).
  apply main_idle_ok; [|simpl; by rewrite Ha|done]. destruct Hok as [P2 P3 P4 P5 P6 P7]. unfold commit. simpl. split; simpl; try done.
  - intros fd' ev'. destruct (decide (fd' = fd)) as [->|Hne].
    + intros _. split; [set_solver|]. intros Hin. by apply Ho, P4.
    + rewrite lookup_insert_ne by done. intros Hr. destruct (P3 fd' ev' Hr). split; [set_solver|done].
  - intros fd' Hin. specialize (P4 fd' Hin). set_solver.
  - intros fd' Hin. destruct (decide (fd' = fd)) as [->|Hne].
    + split; [done|]. rewrite lookup_insert_eq. by eexists.
    + rewrite lookup_insert_ne by done. apply P5. set_solver.
  - intros fd' Hin. specialize (P6 fd' Hin). assert (fd' <> fd) by (intros ->; done). set_solver.
  - intros fd' Hin. rewrite lookup_insert_ne; [by apply P7|]. intros ->. by apply Hcl, gones_closing.
Qed.

(** The lists after a thread in [process] went on, and what the others have. *)
Lemma goto_ok us reg op n p i pc' H C G :
  held (goto p i pc') ≡ₚ hand pc' ++ H -> closing (goto p i pc') ≡ₚ leaving pc' ++ C -> gones (goto p i pc') ≡ₚ gone pc' ++ G ->
  NoDup ((hand pc' ++ H) ++ leaving pc' ++ C) ->
  (forall fd ev, reg !! fd = Some ev -> fd ∈ op /\ (fd ∉ hand pc' ++ H)) ->
  (forall fd, fd ∈ hand pc' ++ H -> fd ∈ op) ->
  (forall fd, fd ∈ op -> 0 <= fd /\ exists c, us !! fd = Some c /\ m_sockfd c = fd) ->
  (forall fd, fd ∈ leaving pc' ++ C -> fd ∉ op) ->
  (forall fd, fd ∈ gone pc' ++ G -> exists c, us !! fd = Some c /\ m_sockfd c = -1) ->
  server_ok (Server us reg op n (goto p i pc')).
Proof.
  intros EH EC EG K1 K2 K3 K4 K5 K6. split; cbn [users registered opened pool].
  - by rewrite EH, EC.
  - intros fd ev Hr. rewrite EH. by apply (K2 fd ev).
  - intros fd Hin. rewrite EH in Hin. by apply K3.
  - exact K4.
  - intros fd Hin. rewrite EC in Hin. by apply K5.
  - intros fd Hin. rewrite EG in Hin. by apply K6.
Qed.

(** A step that leaves a thread what it has. *)
Lemma stay_ok s i pc pc' n :
  server_ok s -> m_threads (pool s) !! i = Some pc -> hand pc' = hand pc -> leaving pc' = leaving pc -> gone pc' = gone pc ->
  server_ok (Server (users s) (registered s) (opened s) n (goto (pool s) i pc')).
Proof.
  intros [P2 P3 P4 P5 P6 P7] Ei E1 E2 E3. destruct (goto_lists (pool s) i pc pc' Ei) as (H & C & G & H1 & H2 & C1 & C2 & G1 & G2).
  apply (goto_ok _ _ _ _ _ _ _ H C G H2 C2 G2); rewrite E1, E2, E3 in *; try done.
  - by rewrite <- H1, <- C1.
  - intros fd ev Hr. rewrite <- H1. by apply (P3 fd ev).
  - intros fd Hin. apply P4. by rewrite H1.
  - intros fd Hin. apply P6. by rewrite C1.
  - intros fd Hin. apply P7. by rewrite G1.
Qed.

(** A thread lets go of a connection that stays open. *)
Lemma let_go_ok s i fd :
  server_ok s -> m_threads (pool s) !! i = Some (W_process fd) ->
  server_ok (set_pool s (goto (pool s) i W_top)) /\ loose (set_pool s (goto (pool s) i W_top)) fd.
Proof.
  intros Hok Ei. pose proof Hok as [P2 P3 P4 P5 P6 P7].
  destruct (goto_lists (pool s) i _ W_top Ei) as (H & C & G & H1 & H2 & C1 & C2 & G1 & G2). cbn [hand leaving gone app] in *.
  assert (Hin : fd ∈ held (pool s)) by (rewrite H1; by left).
  split.
  - apply (set_pool_ok s _ [fd]); [done|by rewrite H1, H2|by rewrite C1, C2|by rewrite G1, G2].
  - split; [by apply P4|]. split; simpl.
    + destruct (registered s !! fd) as [ev|] eqn:Er; [|done]. by destruct (P3 fd ev Er).
    + change (fd ∉ held (goto (pool s) i W_top)). rewrite H2. rewrite H1 in P2. cbn [app] in P2. apply NoDup_cons in P2 as [P2 _].
      rewrite not_elem_of_app in P2. tauto.
Qed.

(** A thread closes the descriptor of its connection. *)
Lemma removefd_ok s i fd n :
  server_ok s -> m_threads (pool s) !! i = Some (W_close fd) ->
  server_ok (Server (users s) (delete fd (registered s)) (opened s ∖ {[fd]}) n (goto (pool s) i (W_closed fd))).
Proof.
  intros [P2 P3 P4 P5 P6 P7] Ei.
  destruct (goto_lists (pool s) i _ (W_closed fd) Ei) as (H & C & G & H1 & H2 & C1 & C2 & G1 & G2). cbn [hand leaving gone app] in *.
  rewrite H1, C1 in P2. cbn [app] in P2. apply NoDup_cons in P2 as [Hfd P2]. rewrite not_elem_of_app in Hfd.
  apply (goto_ok _ _ _ _ _ _ _ H C G H2 C2 G2); cbn [hand leaving gone app].
  - rewrite <- Permutation_middle. constructor; [by rewrite not_elem_of_app|done].
  - intros fd' ev Hr. apply lookup_delete_Some in Hr as [Hne Hr]. destruct (P3 fd' ev Hr) as [Ho Hh].
    split; [set_solver|]. rewrite H1 in Hh. set_solver.
  - intros fd' Hin. assert (fd' ∈ opened s) by (apply P4; rewrite H1; by right). assert (fd' <> fd) by (intros ->; tauto). set_solver.
  - intros fd' Hin. apply P5. set_solver.
  - intros fd' Hin. apply elem_of_cons in Hin as [->|Hin]; [set_solver|].
    assert (fd' ∉ opened s) by (apply P6; by rewrite C1). set_solver.
  - intros fd' Hin. apply P7. by rewrite G1.
Qed.

(** It forgets the descriptor. *)
Lemma forget_ok s i fd c n :
  server_ok s -> m_threads (pool s) !! i = Some (W_closed fd) ->
  server_ok (Server (<[fd := set_sockfd c (-1)]> (users s)) (registered s) (opened s) n (goto (pool s) i (W_uncount fd))).
Proof.
  intros [P2 P3 P4 P5 P6 P7] Ei.
  destruct (goto_lists (pool s) i _ (W_uncount fd) Ei) as (H & C & G & H1 & H2 & C1 & C2 & G1 & G2). cbn [hand leaving gone app] in *.
  assert (Ho : fd ∉ opened s) by (apply P6; rewrite C1; by left).
  apply (goto_ok _ _ _ _ _ _ _ H C G H2 C2 G2); cbn [hand leaving gone app].
  - by rewrite H1, C1 in P2.
  - intros fd' ev Hr. rewrite <- H1. by apply (P3 fd' ev).
  - intros fd' Hin. apply P4. by rewrite H1.
  - intros fd' Hin. assert (fd <> fd') by (intros <-; done). rewrite lookup_insert_ne by done. by apply P5.
  - intros fd' Hin. apply P6. by rewrite C1.
  - intros fd' Hin. destruct (decide (fd' = fd)) as [->|Hne]; [rewrite lookup_insert_eq; by eexists|].
    rewrite lookup_insert_ne by done. apply P7. rewrite G1. apply elem_of_cons in Hin as [->|Hin]; [done|done].
Qed.

(** And it is done; the last [modfd] has no descriptor. *)
Lemma leave_ok s i fd n :
  server_ok s -> m_threads (pool s) !! i = Some (W_modfd fd) ->
  server_ok (Server (users s) (registered s) (opened s) n (goto (pool s) i W_top)).
Proof.
  intros [P2 P3 P4 P5 P6 P7] Ei.
  destruct (goto_lists (pool s) i _ W_top Ei) as (H & C & G & H1 & H2 & C1 & C2 & G1 & G2). cbn [hand leaving gone app] in *.
  apply (goto_ok _ _ _ _ _ _ _ H C G H2 C2 G2); cbn [hand leaving gone app]; try done.
  - rewrite H1, C1 in P2. rewrite <- Permutation_middle in P2. by apply NoDup_cons in P2 as [_ P2].
  - intros fd' ev Hr. rewrite <- H1. by apply (P3 fd' ev).
  - intros fd' Hin. apply P4. by rewrite H1.
  - intros fd' Hin. apply P6. rewrite C1. by right.
  - intros fd' Hin. apply P7. rewrite G1. by right.
Qed.

Lemma process_ok s i s' : server_ok s -> worker_process fs s i = Ok (Some s') -> server_ok s'.
Proof.
  intros Hok H. unfold worker_process in H. cbv zeta in H. destruct (m_threads (pool s) !! i) as [pc|] eqn:Ei; [|done].
  destruct pc as [| | | | |r|r|fd|fd|fd|fd|fd v|fd|]; try done.
  - destruct (users s !! fd) as [c|] eqn:Eu; [|done]. apply bind_Ok in H as ([c1 b] & E & H). injection H as <-.
    apply process_part_kept in E. destruct b.
    + destruct E as (E1 & E2 & _). simpl in E1, E2. unfold set_pool, commit. rewrite E2. cbn [foldl fst snd users registered opened user_count pool].
      exact (stay_ok _ i _ (W_close fd) (user_count s) (users_kept_ok s fd c c1 Hok Eu E1) Ei eq_refl eq_refl eq_refl).
    + destruct (let_go_ok s i fd Hok Ei) as [Hok1 Hl1].
      change (server_ok (commit (set_pool s (goto (pool s) i W_top)) fd c1)). apply (commit_ok _ fd c); [done|done|done|]. by left.
  - destruct (users s !! fd) as [c|] eqn:Eu; [|done].
    assert (Hfd : fd ∈ opened s).
    { apply (ok_open s Hok). destruct (goto_lists (pool s) i _ W_top Ei) as (H0 & _ & _ & H1 & _). rewrite H1. by left. }
    destruct (ok_sock s Hok fd Hfd) as (H0 & c0 & Hu & Hs). rewrite Eu in Hu. injection Hu as <-.
    rewrite decide_True in H by lia. injection H as <-. rewrite Hs. exact (removefd_ok s i fd (user_count s) Hok Ei).
  - destruct (users s !! fd) as [c|] eqn:Eu; [|done]. injection H as <-. exact (forget_ok s i fd c (user_count s) Hok Ei).
  - injection H as <-. exact (stay_ok s i _ (W_count fd (user_count s)) (user_count s) Hok Ei eq_refl eq_refl eq_refl).
  - injection H as <-. exact (stay_ok s i _ (W_modfd fd) (v - 1) Hok Ei eq_refl eq_refl eq_refl).
  - assert (Hg : fd ∈ gones (pool s)).
    { destruct (goto_lists (pool s) i _ W_top Ei) as (_ & _ & G & _ & _ & _ & _ & G1 & _). rewrite G1. by left. }
    destruct (ok_gone s Hok fd Hg) as (c & Eu & Hs). rewrite Eu in H. injection H as <-. rewrite Hs. cbn [epoll_ctl].
    rewrite decide_False by (intros Hin; destruct (ok_sock s Hok _ Hin); lia). exact (leave_ok s i fd (user_count s) Hok Ei).
Qed.

Lemma step_ok s s' : server_ok s -> step fs false s s' -> server_ok s'.
Proof.
  intros Hok Hs. destruct Hs as [s s' fd net Ha H|s s' fd net Ha H|s s' fd Ha H|s s' fd Ha Hre H|s s' H|s p H|s i p H|s s' i H].
  - by eapply readable_ok.
  - unfold main_writable in H. destruct (users s !! fd) as [c|] eqn:Eu; [|done]. destruct (registered s !! fd) as [[|]|] eqn:Er; try done.
    cbv zeta in H. destruct (disarm_ok s fd _ Hok Er) as [Hok1 Hl1]. set (s1 := disarm s fd) in *.
    destruct (write net (conn_of s1 c)) as [c1 ok] eqn:Ew. injection H as <-. apply (commit_main_ok s1 fd c); [done|done|done|done|].
    eapply write_rearmed; [by eapply loose_conn|done].
  - unfold main_hangup in H. destruct (users s !! fd) as [c|] eqn:Eu; [|done]. destruct (registered s !! fd) as [ev|] eqn:Er; [|done].
    injection H as <-. destruct (disarm_ok s fd _ Hok Er) as [Hok1 Hl1]. apply (commit_main_ok _ fd c); [done|done|done|done|].
    apply close_rearmed; [by eapply loose_conn|done].
  - destruct Hre as [Hre|Hre]; [done|]. by eapply accept_ok.
  - unfold main_count in H. destruct (appender (pool s)) eqn:Ea; try done; injection H as <-.
    + apply main_idle_ok; [done|by rewrite Ea|done].
    + assert (Hok' : server_ok (set_pool s (goto_main (pool s) A_idle))) by (apply main_idle_ok; [done|by rewrite Ea|done]).
      destruct Hok'. by split.
  - destruct (append_step_held _ _ H) as (lost & Hl). unfold closing, gones in *. pose proof (append_step_leaving _ _ H) as Ht.
    eapply set_pool_ok; [done|done|..]; unfold closing, gones; by rewrite Ht.
  - destruct (run_step_leaving _ _ _ H) as [H1 H2]. apply (set_pool_ok s p []); [done|by rewrite (run_step_held _ _ _ H)|done|done].
  - by eapply process_ok.
Qed.

(** *** The pool alone, reuse or not *)

Lemma goto_pool_ok p i pc pc' :
  pool_ok p -> m_threads p !! i = Some pc -> holds pc = false -> holds pc' = false -> ticket pc = [] -> ticket pc' = [] ->
  pool_ok (goto p i pc').
Proof.
  intros [C1 C2 C3 C4 C5 C6 C7] Hi Hh Hh' Ht Ht'. pose proof (tickets_goto _ _ _ pc' Hi) as Hn. rewrite Ht, Ht' in Hn. simpl in Hn.
  split; simpl; try done.
  - lia.
  - eapply worker_lock_goto; [done|done|congruence| |done]. intros _ El. apply C3 in El as (pc0 & Hpc & Hh0). congruence.
  - intros j. destruct (decide (j = i)) as [->|Hj]; [|by rewrite list_lookup_insert_ne].
    rewrite list_lookup_insert_eq by (by eapply lookup_lt_Some). intros [= ->]. done.
Qed.

Lemma goto_main_pool_ok p pc : pool_ok p -> main_holds (appender p) = main_holds pc -> pending (appender p) = pending pc -> pool_ok (goto_main p pc).
Proof. intros [C1 C2 C3 C4 C5 C6 C7] H1 H2. split; simpl; try done; [by rewrite <- H2|by rewrite <- H1]. Qed.

Lemma step_pool_ok reuse s s' : pool_ok (pool s) -> step fs reuse s s' -> pool_ok (pool s').
Proof.
  assert (Hmain : forall s fd c, pool_ok (pool s) -> appender (pool s) = A_idle -> pool_ok (pool (commit_main s fd c))).
  { intros s0 fd c Hp Ha. unfold commit_main. cbv zeta. destruct (decide _); [done|]. simpl. apply goto_main_pool_ok; [done|by rewrite Ha..]. }
  intros Hp Hs. destruct Hs as [s s' fd net Ha H|s s' fd net Ha H|s s' fd Ha H|s s' fd Ha Hre H|s s' H|s p H|s i p H|s s' i H].
  - unfold main_readable in H. destruct (users s !! fd) as [c|]; [|done]. destruct (registered s !! fd) as [[|]|]; try done.
    cbv zeta in H. apply bind_Ok in H as ([c1 [|]] & E & H); injection H as <-; [|by apply Hmain].
    simpl. apply goto_main_pool_ok; [done|by rewrite Ha..].
  - unfold main_writable in H. destruct (users s !! fd) as [c|]; [|done]. destruct (registered s !! fd) as [[|]|]; try done.
    cbv zeta in H. destruct (write _ _) as [c1 ok]. injection H as <-. by apply Hmain.
  - unfold main_hangup in H. destruct (users s !! fd) as [c|]; [|done]. destruct (registered s !! fd) as [ev|]; [|done]. injection H as <-. by apply Hmain.
  - unfold main_accept in H. destruct (decide _); [|done]. destruct (decide _); [by injection H as <-|].
    destruct (users s !! fd) as [c|]; [|done]. injection H as <-. by apply Hmain.
  - unfold main_count in H. destruct (appender (pool s)) eqn:Ea; try done; injection H as <-; simpl; apply goto_main_pool_ok; by rewrite ?Ea.
  - by eapply append_step_ok.
  - by eapply run_step_ok.
  - unfold worker_process in H. cbv zeta in H. destruct (m_threads (pool s) !! i) as [pc|] eqn:Ei; [|done].
    assert (Hgo : forall pc', holds pc = false -> ticket pc = [] -> holds pc' = false -> ticket pc' = [] -> pool_ok (goto (pool s) i pc'))
      by (intros pc' H1 H2 H3 H4; by eapply goto_pool_ok).
    destruct pc as [| | | | |r|r|fd|fd|fd|fd|fd v|fd|]; try done.
    1: { destruct (users s !! fd) as [c|]; [|done]. apply bind_Ok in H as ([c1 b] & _ & H). injection H as <-. by apply Hgo; destruct b. }
    all: repeat case_match; simplify_eq/=; by apply Hgo.
Qed.

(** The server after [main] has started. *)
Definition start (conns : gmap Z http_conn) (p : threadpool) : server := Server conns ∅ ∅ 0 p.

Lemma start_ok conns n max p : threadpool_init n max = Some p -> server_ok (start conns p) /\ pool_ok p.
Proof.
  unfold threadpool_init. intros H. destruct (_ || _) eqn:Eb; [done|]. zify_bool. injection H as <-.
  assert (Hb : forall {A} (f : worker_pc -> list A), f W_top = [] -> forall k, (replicate k W_top ≫= f) = []).
  { intros A f Hf k. induction k as [|k IH]; [done|]. cbn [replicate]. by rewrite bind_cons, Hf, IH. }
  split.
  - split; unfold held, closing, gones; simpl; rewrite ?(Hb _ hand), ?(Hb _ leaving), ?(Hb _ gone) by done; try done; try set_solver. constructor.
  - split; simpl; try done; [by rewrite (Hb _ ticket)| | |unfold Zlen; simpl; lia].
    + intros i. split; [done|]. intros (pc & Hi & Hpc). apply lookup_replicate in Hi as [-> _]. done.
    + intros i Hi. apply lookup_replicate in Hi as [? _]. done.
Qed.

Lemma reachable_pool reuse conns n max p s :
  threadpool_init n max = Some p -> rtc (step fs reuse) (start conns p) s -> pool_ok (pool s).
Proof.
  intros Hp Hr. destruct (start_ok conns n max p Hp) as [_ H0]. revert H0.
  change p with (pool (start conns p)) at 1. generalize (start conns p) as s0, Hr. clear. intros s0 Hr.
  induction Hr as [|s1 s2 s3 Hs _ IH]; [done|]. intros H0. apply IH. by eapply step_pool_ok.
Qed.

Lemma reachable_ok conns n max p s : threadpool_init n max = Some p -> rtc (step fs false) (start conns p) s -> server_ok s.
Proof.
  intros Hp Hr. destruct (start_ok conns n max p Hp) as [H0 _]. induction Hr as [|s1 s2 s3 Hs _ IH]; [done|]. apply IH. by eapply step_ok.
Qed.
End Invariant.

(** ** Properties *)

(** C13: In every state that the main thread and the threads of the pool can reach, whatever
    the clients do and in whatever order the threads run: what is handed to the pool is taken out
    once and in order; no thread that has passed the semaphore finds the queue empty; the queue
    never has more than one request beyond its limit.  And as long as accept does not give out a
    descriptor that a thread of the pool has closed but is not done with ([reuse] is false), a
    connection is never in the hands of two threads, in the queue twice, or registered for events
    while a thread has it or it is queued; a queued connection, or one that a thread works on, is
    open; an open connection has its own descriptor in [m_sockfd]; and a descriptor that is being
    closed is not open.  Closing is not atomic: the close of the descriptor, the assignment to
    [m_sockfd], the load and the store of the counter and the last [modfd] are steps between which
    every other thread runs.  With reuse the second part fails ([descriptor_used_again]), and the
    number of users is not counted right even without it ([update_lost]). *)
Theorem one_thread_per_connection fs reuse conns n max p s :
  threadpool_init n max = Some p -> rtc (step fs reuse) (start conns p) s ->
  put (pool s) = taken (pool s) ++ m_workqueue (pool s) /\
  (forall i, m_threads (pool s) !! i <> Some W_unlock_empty) /\
  Zlen (m_workqueue (pool s)) <= m_max_requests (pool s) + 1 /\
  (reuse = false ->
    NoDup (held (pool s) ++ closing (pool s)) /\
    (forall fd ev, registered s !! fd = Some ev -> fd ∈ opened s /\ (fd ∉ held (pool s)) /\ (fd ∉ closing (pool s))) /\
    (forall fd, fd ∈ held (pool s) -> fd ∈ opened s) /\
    (forall fd, fd ∈ opened s -> exists c, users s !! fd = Some c /\ m_sockfd c = fd) /\
    (forall fd, fd ∈ closing (pool s) -> fd ∉ opened s)).
Proof.
  intros Hp Hr. destruct (reachable_pool fs reuse conns n max p s Hp Hr) as [C1 C2 C3 C4 C5 C6 C7].
  split; [done|]. split; [done|]. split; [done|]. intros ->.
  destruct (reachable_ok fs conns n max p s Hp Hr) as [P2 P3 P4 P5 P6 P7]. split; [done|]. split; [|split; [done|split; [|done]]].
  - intros fd ev Hfd. destruct (P3 fd ev Hfd) as [H1 H2]. split; [done|]. split; [done|]. intros Hin. by apply (P6 fd).
  - intros fd Hin. by destruct (P5 fd Hin).
Qed.

(** C14: The pool does not get stuck: in every reachable state with something in the queue, a thread of the pool
    or the main thread can go on, unless every thread of the pool is at work on a
    connection (or has ended). *)
Theorem pool_never_stuck fs reuse conns n max p s :
  threadpool_init n max = Some p -> rtc (step fs reuse) (start conns p) s -> m_workqueue (pool s) <> [] ->
  (exists i p', run_step (pool s) i = Some p') \/ (exists p', append_step (pool s) = Some p') \/
  forall i pc, m_threads (pool s) !! i = Some pc -> pc = W_exit \/ at_work pc.
Proof. intros Hp Hr. apply pool_goes_on. by eapply reachable_pool. Qed.

(** *** A run: a client connects, its request is queued and a thread answers it *)

Definition nothing : http_conn :=
  Conn (-1) (Parser [] 0 0 0 CHECK_STATE_REQUESTLINE []) (Req GET None None None 0 false) (Resp [] 0 0 Null 0 0) (Mapping [] Null 0 0) 0 [] [].

(** What happens, as the choices of the step relation. *)
Inductive choice := Accept (fd : Z) | Read (fd : Z) (net : list recv_result) | Hang (fd : Z) | Count | Append | Work (i : nat) | Process (i : nat).

Section Choices.
Context (fs : list Z -> option file) (reuse : bool).

Definition choose (ch : choice) (s : server) : option server :=
  match ch with
  | Accept fd =>
      if decide (appender (pool s) = A_idle /\ (reuse = true \/ fd ∉ closing (pool s)))
      then match main_accept s fd with Ok o => o | Fault _ => None end else None
  | Read fd net => if decide (appender (pool s) = A_idle) then match main_readable s fd net with Ok o => o | Fault _ => None end else None
  | Hang fd => if decide (appender (pool s) = A_idle) then main_hangup s fd else None
  | Count => main_count s
  | Append => p ← append_step (pool s); Some (set_pool s p)
  | Work i => p ← run_step (pool s) i; Some (set_pool s p)
  | Process i => match worker_process fs s i with Ok o => o | Fault _ => None end
  end.

Fixpoint choices (chs : list choice) (s : server) : option server :=
  match chs with
  | [] => Some s
  | ch :: chs => s ← choose ch s; choices chs s
  end.

Lemma choose_step ch s s' : choose ch s = Some s' -> step fs reuse s s'.
Proof.
  destruct ch as [fd|fd net|fd| | |i|i]; simpl; intros H.
  - destruct (decide _) as [[Ha Hc]|]; [|done]. destruct (main_accept s fd) as [o|] eqn:E; [|done]. subst o. by eapply step_accept.
  - destruct (decide _); [|done]. destruct (main_readable s fd net) as [o|] eqn:E; [|done]. subst o. by eapply step_readable.
  - destruct (decide _); [|done]. by eapply step_hangup.
  - by apply step_count.
  - destruct (append_step (pool s)) as [p|] eqn:E; [|done]. injection H as <-. by apply step_append.
  - destruct (run_step (pool s) i) as [p|] eqn:E; [|done]. injection H as <-. by eapply step_worker.
  - destruct (worker_process fs s i) as [o|] eqn:E; [|done]. subst o. by eapply step_process.
Qed.

Lemma choices_steps chs : forall s s', choices chs s = Some s' -> rtc (step fs reuse) s s'.
Proof.
  induction chs as [|ch chs IH]; intros s s' H; simpl in H; [injection H as <-; apply rtc_refl|].
  destruct (choose ch s) as [s1|] eqn:E; [|done]. eapply rtc_l; [by eapply choose_step|]. by apply IH.
Qed.
End Choices.

Definition two_threads : threadpool := Pool 100 [] None 0 false [W_top; W_top] A_idle [] [].
Definition nowhere (path : list Z) : option file := None.

(** Up to the moment when the second thread has the connection, and on to the answer. *)
Definition hand_over : list choice :=
  [ Work 0; Accept 7; Count; Count; Work 1; Read 7 [Recv (text "GET / HTTP/1.1" ++ CRLF ++ CRLF)]; Append; Append; Append; Append;
    Work 1; Work 1; Work 1; Work 1; Work 1 ].

Definition summary (s : server) : list Z * list (Z * interest) * list worker_pc :=
  (held (pool s), map_to_list (registered s), m_threads (pool s)).

Example handed_over :
  summary <$> choices nowhere false hand_over (start {[7 := nothing]} two_threads) = Some ([7], [], [W_wait; W_process 7]).
Proof. by vm_compute. Qed.
Example answered :
  summary <$> choices nowhere false (hand_over ++ [Process 1]) (start {[7 := nothing]} two_threads) = Some ([], [(7, EPOLLOUT)], [W_wait; W_top]).
Proof. by vm_compute. Qed.

Definition some_state (o : option server) : server := default (start ∅ two_threads) o.

Lemma one_thread_per_connection_witness :
  let s := some_state (choices nowhere false hand_over (start {[7 := nothing]} two_threads)) in
  held (pool s) = [7] /\ NoDup (held (pool s) ++ closing (pool s)).
Proof.
  split; [by vm_compute|].
  apply (one_thread_per_connection nowhere false {[7 := nothing]} 2 100 two_threads); [done| |done]. apply (choices_steps _ _ hand_over). by vm_compute.
Defined.

(** A request is in the queue and the semaphore has not been raised. *)
Lemma pool_never_stuck_witness :
  let s := some_state (choices nowhere true (take 8 hand_over) (start {[7 := nothing]} two_threads)) in
  m_workqueue (pool s) = [Some 7] /\
  ((exists i p', run_step (pool s) i = Some p') \/ (exists p', append_step (pool s) = Some p') \/
   forall i pc, m_threads (pool s) !! i = Some pc -> pc = W_exit \/ at_work pc).
Proof.
  split; [by vm_compute|].
  apply (pool_never_stuck nowhere true {[7 := nothing]} 2 100 two_threads); [done| |by vm_compute].
  apply (choices_steps _ _ (take 8 hand_over)). by vm_compute.
Defined.

(** *** What goes wrong *)

(** When the queue is full the connection is left open, registered for nothing and held by nobody. *)
Example full_queue_loses :
  let busy := Pool 1 [None; None] None 2 false [W_top] A_idle [None; None] [] in
  summary <$> choices nowhere false [Accept 7; Count; Count; Read 7 [Recv (text "GET")]; Append; Append; Append] (start {[7 := nothing]} busy) = Some ([], [], [W_top]).
Proof. by vm_compute. Qed.

(** An empty file, for which [process_write] fails, so that the thread closes the connection. *)
Definition empty_file (path : list Z) : option file := Some (File S_IROTH [] true).

Definition fd_of (s : server) (fd : Z) : option Z := m_sockfd <$> users s !! fd.

(** The thread has closed descriptor 7 and the next client gets it; then the thread sets [m_sockfd] of the new
    connection to -1, which is open and registered, and can no longer be read or closed. *)
Example descriptor_used_again :
  (fun s => (fd_of s 7, bool_decide (7 ∈ opened s), map_to_list (registered s))) <$>
    choices empty_file true (hand_over ++ [Process 1; Process 1; Accept 7; Process 1]) (start {[7 := nothing]} two_threads) =
  Some (Some (-1), true, [(7, EPOLLIN)]).
Proof. by vm_compute. Qed.

(** The new connection is read and handed on, and the thread that closed the old one registers it: two
    threads can have it now. *)
Example registered_and_held :
  (fun s => (held (pool s), map_to_list (registered s))) <$>
    choices empty_file true (hand_over ++ [Process 1; Process 1; Process 1; Process 1; Process 1; Accept 7; Count; Count;
                                           Read 7 [Recv (text "GET")]; Append; Append; Append; Append; Process 1])
      (start {[7 := nothing]} two_threads) =
  Some ([7], [(7, EPOLLOUT)]).
Proof. by vm_compute. Qed.

(** The number of users is read by the thread, changed by the main thread and written by the thread: one
    connection is open, and none is counted. *)
Example update_lost :
  (fun s => (user_count s, size (opened s))) <$>
    choices empty_file false (hand_over ++ [Process 1; Process 1; Process 1; Process 1; Accept 8; Count; Count; Process 1])
      (start {[7 := nothing; 8 := nothing]} two_threads) =
  Some (0, 1%nat).
Proof. by vm_compute. Qed.
