(* ===== verification/Dijkstra.v ===== *)
(** * Shortest paths

    src/src/data_struct/graphics/dijkstra.cpp: Dijkstra's algorithm on an adjacency
    matrix, and the program that reads a graph and prints a distance.  The distances
    are shown to be those of shortest paths, with [MAX] for vertices out of reach, and
    the loop to end by its own test within [n] turns. *)

From stdpp Require Import base numbers list list_numbers.
From S2P Require Import Prelude.

#[local] Open Scope Z_scope.

Definition MAX : Z := 9999999.
Definition LEN : Z := 210.

(** The three global arrays. *)
Record arrays := Arrays { map : list (list Z); dist : list Z; mark : list Z }.

Definition set_map (s : arrays) x := Arrays x (dist s) (mark s).
Definition set_dist (s : arrays) x := Arrays (map s) x (mark s).
Definition set_mark (s : arrays) x := Arrays (map s) (dist s) x.

Definition zeroed : arrays :=
  Arrays (replicate (Z.to_nat LEN) (replicate (Z.to_nat LEN) 0)) (replicate (Z.to_nat LEN) 0) (replicate (Z.to_nat LEN) 0).

Definition init (s : arrays) : outcome arrays :=
  m ← for_ (Z.to_nat LEN) 0 (fun i => for_ (Z.to_nat LEN) 0 (fun j m => wr2 m i j MAX)) (map s);
  Ok (set_map s m).

(** ** myDijstra *)

(** The first loop. *)
Definition start_from (n start : Z) (s : arrays) : outcome arrays :=
  for_ (Z.to_nat n) 1 (fun i s =>
    m ← wr (mark s) i 0;
    w ← rd2 (map s) start i;
    d ← wr (dist s) i w;
    Ok (Arrays (map s) d m)) s.

(** The search for the nearest vertex that is not marked: [min] and [pos]. *)
Definition nearest (n : Z) (s : arrays) (pos : Z) : outcome (Z * Z) :=
  for_ (Z.to_nat n) 1 (fun j '(min, pos) =>
    m ← rd (mark s) j;
    d ← rd (dist s) j;
    Ok (if bool_decide (m = 0) && bool_decide (d < min) then (d, j) else (min, pos))) (MAX, pos).

(** The last loop, after [pos] was marked. *)
Definition relax (n pos : Z) (s : arrays) : outcome arrays :=
  for_ (Z.to_nat n) 1 (fun j s =>
    m ← rd (mark s) j;
    d ← rd (dist s) j;
    dp ← rd (dist s) pos;
    w ← rd2 (map s) pos j;
    if bool_decide (m = 0) && bool_decide (s32 (dp + w) < d) then
      d ← wr (dist s) j (s32 (dp + w));
      Ok (set_dist s d)
    else Ok s) s.

(** [turns] turns of the outer loop; [pos] keeps its value between them. *)
Fixpoint settle (turns : nat) (n pos : Z) (s : arrays) : outcome arrays :=
  match turns with
  | O => Ok s
  | S turns =>
      '(min, pos) ← nearest n s pos;
      if bool_decide (min = MAX) then Ok s
      else
        m ← wr (mark s) pos 1;
        s ← relax n pos (set_mark s m);
        settle turns n pos s
  end.

(** [pos] is not initialised. *)
Definition myDijstra (n start pos : Z) (s : arrays) : outcome arrays :=
  s ← start_from n start s;
  m ← wr (mark s) start 1;
  d ← wr (dist s) start 0;
  settle (Z.to_nat n) n pos (Arrays (map s) d m).

(** ** main *)

(** An edge that is read keeps the smaller weight, in both directions. *)
Definition add_edge (s : arrays) (e : Z * Z * Z) : outcome arrays :=
  let '(a, b, d) := e in
  w ← rd2 (map s) a b;
  if bool_decide (d < w) then
    m ← wr2 (map s) b a d;
    m ← wr2 m a b d;
    Ok (set_map s m)
  else Ok s.

Fixpoint add_edges (s : arrays) (es : list (Z * Z * Z)) : outcome arrays :=
  match es with
  | [] => Ok s
  | e :: es => s ← add_edge s e; add_edges s es
  end.

(** The number printed, for the [n] and the edges of the input. *)
Definition main_ (n pos : Z) (es : list (Z * Z * Z)) : outcome Z :=
  s ← init zeroed;
  s ← add_edges s es;
  s ← myDijstra n 1 pos s;
  rd (dist s) 5.

(** The example at the end of the file. *)
Example main_example :
  main_ 5 0 [(1, 2, 10); (1, 4, 30); (1, 5, 100); (2, 3, 50); (3, 5, 10); (4, 3, 20); (4, 5, 60)] = Ok 60.
Proof. by vm_compute. Qed.

(** ** Paths *)

(** A walk from [i] to [j] through vertices 1 to [n], with its cost. *)
Inductive path (n : Z) (w : Z -> Z -> Z) (i : Z) : Z -> Z -> Prop :=
| path_here : path n w i i 0
| path_step j k c : path n w i j c -> 1 <= j <= n -> 1 <= k <= n -> path n w i k (c + w j k).

(** Weights are not negative; [MAX] stands for no edge. *)
Definition weights (n : Z) (w : Z -> Z -> Z) : Prop := forall i j, 1 <= i <= n -> 1 <= j <= n -> 0 <= w i j <= MAX.

Lemma path_nonneg n w i j c : weights n w -> path n w i j c -> 0 <= c.
Proof. intros Hw. induction 1 as [|j k c Hp IH Hj Hk]; [lia|]. specialize (Hw j k Hj Hk). lia. Qed.

(** [d] is the length of a shortest path from [i] to [j], or [MAX]. *)
Definition distance (n : Z) (w : Z -> Z -> Z) (i j d : Z) : Prop :=
  d <= MAX /\ (forall c, path n w i j c -> d <= c \/ MAX <= c) /\ (d < MAX -> path n w i j d).

(** ** Arrays as functions *)

Definition vec (a : list Z) (n : Z) (f : Z -> Z) : Prop := n < Zlen a /\ forall i, 1 <= i <= n -> rd a i = Ok (f i).
Definition mat (m : list (list Z)) (n : Z) (w : Z -> Z -> Z) : Prop :=
  forall i j, 1 <= i <= n -> 1 <= j <= n -> rd2 m i j = Ok (w i j).

Definition upd (f : Z -> Z) (i x : Z) : Z -> Z := fun j => if decide (j = i) then x else f j.

Lemma vec_wr a n f i x : vec a n f -> 1 <= i <= n -> exists a', wr a i x = Ok a' /\ vec a' n (upd f i x).
Proof.
  intros [Hl Hf] Hi. rewrite wr_in_range by lia. eexists. split; [done|]. split; [by rewrite Zlen_insert|].
  intros j Hj. unfold upd. destruct (decide (j = i)) as [->|Hne].
  - by rewrite rd_insert_eq by lia.
  - rewrite rd_insert_ne by lia. by apply Hf.
Qed.

Lemma vec_ext a n f g : (forall i, 1 <= i <= n -> f i = g i) -> vec a n f -> vec a n g.
Proof. intros He [Hl Hf]. split; [done|]. intros i Hi. by rewrite <- He, Hf. Qed.

Lemma vec_some a n : n < Zlen a -> exists f, vec a n f.
Proof.
  intros Hl. exists (fun i => match rd a i with Ok x => x | Fault _ => 0 end). split; [done|].
  intros i Hi. by destruct (rd_in_range a i ltac:(lia)) as [x ->].
Qed.

(** The state of the algorithm. *)
Definition view (n : Z) (w : Z -> Z -> Z) (s : arrays) (ds mk : Z -> Z) : Prop :=
  mat (map s) n w /\ vec (dist s) n ds /\ vec (mark s) n mk.

Section Loops.
Context (n : Z) (w : Z -> Z -> Z).
Hypothesis Hw : weights n w.
Hypothesis Hn : 0 <= n.

Lemma start_from_ok start s :
  mat (map s) n w -> n < Zlen (dist s) -> n < Zlen (mark s) -> 1 <= start <= n ->
  exists s', start_from n start s = Ok s' /\ view n w s' (w start) (fun _ => 0).
Proof.
  intros Hm Hd Hk Hs. unfold start_from.
  destruct (for_inv (fun k s => mat (map s) n w /\ exists ds mk, vec (dist s) n ds /\ vec (mark s) n mk /\
              forall i, 1 <= i < k -> ds i = w start i /\ mk i = 0)
    (fun i s => m ← wr (mark s) i 0; w ← rd2 (map s) start i; d ← wr (dist s) i w; Ok (Arrays (map s) d m))
    (Z.to_nat n) 1 s) as (s' & E & Hm' & ds & mk & Hds & Hmk & Hall).
  - intros k st Hk' (Hmst & ds & mk & Hds & Hmk & Hall). assert (Hkn : 1 <= k <= n) by lia.
    destruct (vec_wr (mark st) n mk k 0 Hmk Hkn) as (m' & -> & Hmk'). cbn [mbind outcome_bind].
    rewrite (Hmst start k Hs Hkn). cbn [mbind outcome_bind].
    destruct (vec_wr (dist st) n ds k (w start k) Hds Hkn) as (d' & -> & Hds'). cbn [mbind outcome_bind].
    eexists. split; [done|]. split; [done|]. eexists _, _. split; [exact Hds'|]. split; [exact Hmk'|].
    intros i Hi. unfold upd. destruct (decide (i = k)) as [->|]; [done|]. apply Hall. lia.
  - split; [done|]. destruct (vec_some _ _ Hd) as [ds Hds]. destruct (vec_some _ _ Hk) as [mk Hmk].
    exists ds, mk. split; [done|]. split; [done|]. lia.
  - exists s'. split; [done|]. split; [done|]. split; (eapply vec_ext; [|eassumption]); intros i Hi; apply Hall; lia.
Qed.

(** What the search finds. *)
Lemma nearest_ok s ds mk pos :
  view n w s ds mk ->
  exists mn ps, nearest n s pos = Ok (mn, ps) /\ mn <= MAX /\ (forall i, 1 <= i <= n -> mk i = 0 -> mn <= ds i) /\
                (mn < MAX -> 1 <= ps <= n /\ mk ps = 0 /\ ds ps = mn).
Proof.
  intros (_ & Hds & Hmk). unfold nearest.
  destruct (for_inv (fun k '(mn, ps) => mn <= MAX /\ (forall i, 1 <= i < k -> mk i = 0 -> mn <= ds i) /\
                (mn < MAX -> 1 <= ps < k /\ mk ps = 0 /\ ds ps = mn))
    (fun j '(min, pos) => m ← rd (mark s) j; d ← rd (dist s) j;
       Ok (if bool_decide (m = 0) && bool_decide (d < min) then (d, j) else (min, pos))) (Z.to_nat n) 1 (MAX, pos))
    as ([mn ps] & E & H1 & H2 & H3).
  - intros k [mn ps] Hk (H1 & H2 & H3). rewrite (proj2 Hmk k ltac:(lia)), (proj2 Hds k ltac:(lia)). cbn [mbind outcome_bind].
    eexists. split; [done|]. destruct (bool_decide_reflect (mk k = 0)) as [E0|E0]; cbn [andb];
      [destruct (bool_decide_reflect (ds k < mn)) as [E1|E1]|].
    + split; [lia|]. split; [|intros _; split; [lia|done]]. intros i Hi Hm.
      destruct (decide (i = k)) as [->|]; [lia|]. specialize (H2 i ltac:(lia) Hm). lia.
    + split; [done|]. split; [|intros Hlt; specialize (H3 Hlt); split; [lia|tauto]].
      intros i Hi Hm. destruct (decide (i = k)) as [->|]; [lia|]. apply H2; [lia|done].
    + split; [done|]. split; [|intros Hlt; specialize (H3 Hlt); split; [lia|tauto]].
      intros i Hi Hm. destruct (decide (i = k)) as [->|]; [done|]. apply H2; [lia|done].
  - split; [done|]. split; [lia|]. lia.
  - exists mn, ps. split; [done|]. split; [done|]. split; [intros i Hi; apply H2; lia|].
    intros Hlt. specialize (H3 Hlt). split; [lia|tauto].
Qed.

(** The distances after the last loop. *)
Definition relaxed (ds mk : Z -> Z) (pos : Z) : Z -> Z :=
  fun j => if decide (mk j = 0) then Z.min (ds j) (ds pos + w pos j) else ds j.

Lemma relax_ok s ds mk pos :
  view n w s ds mk -> 1 <= pos <= n -> mk pos <> 0 -> 0 <= ds pos <= MAX ->
  exists s', relax n pos s = Ok s' /\ view n w s' (relaxed ds mk pos) mk.
Proof.
  intros (Hm & Hds & Hmk) Hp Hmp Hdp. unfold relax.
  destruct (for_inv (fun k s => mat (map s) n w /\ vec (mark s) n mk /\
              vec (dist s) n (fun j => if decide (j < k) then relaxed ds mk pos j else ds j))
    (fun j s => m ← rd (mark s) j; d ← rd (dist s) j; dp ← rd (dist s) pos; w ← rd2 (map s) pos j;
       if bool_decide (m = 0) && bool_decide (s32 (dp + w) < d)
       then d ← wr (dist s) j (s32 (dp + w)); Ok (set_dist s d) else Ok s) (Z.to_nat n) 1 s)
    as (s' & E & Hm' & Hmk' & Hds').
  - intros k st Hk (Hmst & Hmkst & Hdst). assert (Hkn : 1 <= k <= n) by lia.
    rewrite (proj2 Hmkst k Hkn), (proj2 Hdst k Hkn), (proj2 Hdst pos Hp), (Hmst pos k Hp Hkn). cbn [mbind outcome_bind].
    assert (Edp : (if decide (pos < k) then relaxed ds mk pos pos else ds pos) = ds pos)
      by (unfold relaxed; rewrite (decide_False (P := mk pos = 0)) by done; by destruct (decide _)).
    rewrite Edp, (decide_False (P := k < k)) by lia.
    pose proof (Hw pos k Hp Hkn) as Hwk. unfold MAX in *.
    assert (Es : s32 (ds pos + w pos k) = ds pos + w pos k) by (unfold s32; rewrite Z.mod_small; lia). rewrite Es.
    destruct (bool_decide_reflect (mk k = 0)) as [E0|E0]; cbn [andb];
      [destruct (bool_decide_reflect (ds pos + w pos k < ds k)) as [E1|E1]|].
    + destruct (vec_wr _ _ _ k (ds pos + w pos k) Hdst Hkn) as (d' & -> & Hd'). cbn [mbind outcome_bind].
      eexists. split; [done|]. split; [done|]. split; [done|]. eapply vec_ext; [|exact Hd'].
      intros i Hi. unfold upd, relaxed. destruct (decide (i = k)) as [->|Hne].
      * rewrite decide_True by lia. rewrite decide_True by done. lia.
      * destruct (decide (i < k)), (decide (i < k + 1)); try lia; done.
    + eexists. split; [done|]. split; [done|]. split; [done|]. eapply vec_ext; [|exact Hdst].
      intros i Hi. cbv beta. destruct (decide (i < k)), (decide (i < k + 1)); try lia.
      assert (i = k) as -> by lia. unfold relaxed. rewrite decide_True by done. lia.
    + eexists. split; [done|]. split; [done|]. split; [done|]. eapply vec_ext; [|exact Hdst].
      intros i Hi. cbv beta. destruct (decide (i < k)), (decide (i < k + 1)); try lia.
      assert (i = k) as -> by lia. unfold relaxed. by rewrite decide_False.
  - split; [done|]. split; [done|]. eapply vec_ext; [|exact Hds]. intros i Hi. cbv beta. by rewrite decide_False by lia.
  - exists s'. split; [done|]. split; [done|]. split; [|done]. eapply vec_ext; [|exact Hds'].
    intros i Hi. cbv beta. by rewrite decide_True by lia.
Qed.
End Loops.

(** ** The invariant *)

(** Distances are those of paths; those of marked vertices are shortest, and every
    edge out of a marked vertex has been used. *)
Definition settled (n : Z) (w : Z -> Z -> Z) (start : Z) (ds mk : Z -> Z) : Prop :=
  1 <= start <= n /\ mk start <> 0 /\
  (forall j, 1 <= j <= n -> ds j <= MAX /\ (ds j < MAX -> path n w start j (ds j))) /\
  (forall j, 1 <= j <= n -> mk j <> 0 -> ds j < MAX /\ forall c, path n w start j c -> ds j <= c) /\
  (forall i j, 1 <= i <= n -> 1 <= j <= n -> mk i <> 0 -> mk j = 0 -> ds j <= ds i + w i j).

Section Invariant.
Context (n : Z) (w : Z -> Z -> Z) (start : Z).
Hypothesis Hw : weights n w.

(** A path to a vertex that is not marked leaves the marked ones; where it does, the
    distance is at most its cost. *)
Lemma path_leaves ds mk k c :
  settled n w start ds mk -> path n w start k c -> mk k = 0 ->
  exists j, 1 <= j <= n /\ mk j = 0 /\ ds j <= c.
Proof.
  intros (Hs & Hms & H1 & H2 & H3) Hp. induction Hp as [|j k c Hp IH Hj Hk]; intros Hmk; [done|].
  pose proof (Hw j k Hj Hk). destruct (decide (mk j = 0)) as [E|E].
  - destruct (IH E) as (i & Hi & Hmi & Hd). exists i. split; [done|]. split; [done|lia].
  - exists k. split; [done|]. split; [done|]. destruct (H2 j Hj E) as [_ Hd]. specialize (Hd c Hp).
    specialize (H3 j k Hj Hk E Hmk). lia.
Qed.

(** Marking the nearest vertex and relaxing its edges keeps the invariant. *)
Lemma settled_step ds mk pos :
  settled n w start ds mk -> 1 <= pos <= n -> mk pos = 0 -> ds pos < MAX ->
  (forall i, 1 <= i <= n -> mk i = 0 -> ds pos <= ds i) ->
  settled n w start (relaxed w ds (upd mk pos 1) pos) (upd mk pos 1).
Proof.
  intros Hinv Hp Hmp Hlt Hmin. pose proof Hinv as (Hs & Hms & H1 & H2 & H3).
  destruct (H1 pos Hp) as [_ Hpp]. specialize (Hpp Hlt).
  assert (Hshort : forall c, path n w start pos c -> ds pos <= c).
  { intros c Hc. destruct (path_leaves ds mk pos c Hinv Hc Hmp) as (j & Hj & Hmj & Hd). specialize (Hmin j Hj Hmj). lia. }
  assert (Hrel : forall j, upd mk pos 1 j <> 0 -> relaxed w ds (upd mk pos 1) pos j = ds j)
    by (intros j Hj; unfold relaxed; by rewrite decide_False).
  assert (Hrel0 : forall j, upd mk pos 1 j = 0 ->
            relaxed w ds (upd mk pos 1) pos j = Z.min (ds j) (ds pos + w pos j) /\ mk j = 0)
    by (intros j Hj; unfold relaxed; rewrite decide_True by done; split; [done|];
        unfold upd in Hj; by destruct (decide (j = pos))).
  split; [done|]. split; [unfold upd; by destruct (decide _)|]. split; [|split].
  - intros j Hj. destruct (H1 j Hj) as [Hle Hpath]. pose proof (Hw pos j Hp Hj).
    destruct (decide (upd mk pos 1 j = 0)) as [E|E]; [|by rewrite Hrel].
    destruct (Hrel0 j E) as [-> _]. split; [lia|]. intros Hlt'.
    destruct (Z.min_spec (ds j) (ds pos + w pos j)) as [[_ Em]|[_ Em]]; rewrite Em in *; [by apply Hpath|].
    by apply path_step.
  - intros j Hj Hm. rewrite Hrel by done. unfold upd in Hm. destruct (decide (j = pos)) as [->|]; [done|by apply H2].
  - intros i j Hi Hj Hm E. destruct (Hrel0 j E) as [-> Hmj]. rewrite Hrel by done.
    unfold upd in Hm. destruct (decide (i = pos)) as [->|]; [lia|]. specialize (H3 i j Hi Hj Hm Hmj). lia.
Qed.

(** When no vertex is left that can be reached, every distance is right. *)
Lemma settled_done ds mk :
  settled n w start ds mk -> (forall j, 1 <= j <= n -> mk j = 0 -> MAX <= ds j) ->
  forall j, 1 <= j <= n -> distance n w start j (ds j).
Proof.
  intros Hinv Hdone j Hj. pose proof Hinv as (Hs & Hms & H1 & H2 & H3). destruct (H1 j Hj) as [Hle Hpath].
  split; [done|]. split; [|done]. intros c Hc. destruct (decide (mk j = 0)) as [E|E].
  - destruct (path_leaves ds mk j c Hinv Hc E) as (i & Hi & Hmi & Hd). specialize (Hdone i Hi Hmi). right. lia.
  - left. by apply H2.
Qed.

Lemma upd_zero mk pos x : upd mk pos 1 x = 0 -> mk x = 0 /\ x <> pos.
Proof. unfold upd. by destruct (decide (x = pos)). Qed.

(** The vertices that are not marked. *)
Definition unmarked (mk : Z -> Z) : list Z := filter (fun j => mk j = 0) (seqZ 1 n).

Lemma unmarked_upd mk pos :
  1 <= pos <= n -> mk pos = 0 -> (length (unmarked (upd mk pos 1)) < length (unmarked mk))%nat.
Proof.
  intros Hp Hm. unfold unmarked.
  assert (Hin : pos ∈ seqZ 1 n) by (apply elem_of_seqZ; lia). revert Hin. generalize (seqZ 1 n) as l.
  assert (Hle : forall l : list Z, (length (filter (fun j => upd mk pos 1 j = 0%Z) l) <= length (filter (fun j => mk j = 0%Z) l))%nat).
  { induction l as [|x l IH]; [done|]. rewrite !filter_cons.
    destruct (decide (upd mk pos 1 x = 0)) as [E|E], (decide (mk x = 0)) as [E'|E']; simpl; try lia.
    exfalso. apply E'. apply upd_zero in E. tauto. }
  induction l as [|x l IH]; [intros H; by apply elem_of_nil in H|]. intros Hin. rewrite !filter_cons.
  destruct (decide (upd mk pos 1 x = 0)) as [E|E], (decide (mk x = 0)) as [E'|E']; simpl.
  - apply elem_of_cons in Hin as [<-|Hin]; [apply upd_zero in E; tauto|]. specialize (IH Hin). lia.
  - apply upd_zero in E. tauto.
  - specialize (Hle l). lia.
  - apply elem_of_cons in Hin as [<-|Hin]; [done|]. by apply IH.
Qed.

Lemma settle_ok turns : forall s ds mk pos,
  0 <= n -> view n w s ds mk -> settled n w start ds mk -> (length (unmarked mk) < turns)%nat ->
  exists s' ds', settle turns n pos s = Ok s' /\ vec (dist s') n ds' /\
                 forall j, 1 <= j <= n -> distance n w start j (ds' j).
Proof.
  induction turns as [|turns IH]; intros s ds mk pos Hn Hv Hinv Hlt; [lia|]. cbn [settle].
  destruct (nearest_ok n w Hn s ds mk pos Hv) as (mn & ps & -> & Hle & Hmin & Hpos). cbn [mbind outcome_bind].
  destruct (bool_decide_reflect (mn = MAX)) as [->|Hne].
  - exists s, ds. split; [done|]. split; [apply Hv|]. by apply (settled_done ds mk).
  - destruct (Hpos ltac:(lia)) as (Hps & Hmps & <-). pose proof Hinv as (Hs & _ & H1 & _).
    destruct Hv as (Hm & Hds & Hmk). destruct (vec_wr _ _ _ ps 1 Hmk Hps) as (m' & -> & Hmk'). cbn [mbind outcome_bind].
    destruct (H1 ps Hps) as [_ Hpath]. pose proof (path_nonneg _ _ _ _ _ Hw (Hpath ltac:(lia))).
    destruct (relax_ok n w Hw (set_mark s m') ds (upd mk ps 1) ps) as (s1 & -> & Hv1);
      [done | done | unfold upd; by rewrite decide_True | lia |]. cbn [mbind outcome_bind].
    apply (IH s1 (relaxed w ds (upd mk ps 1) ps) (upd mk ps 1)); [done|done| |].
    + apply settled_step; try done. lia.
    + pose proof (unmarked_upd mk ps Hps Hmps). lia.
Qed.
End Invariant.

(** The distances computed, for any memory. *)
Lemma myDijstra_ok n w start pos s :
  weights n w -> mat (map s) n w -> n < Zlen (dist s) -> n < Zlen (mark s) -> 1 <= start <= n ->
  exists s' ds, myDijstra n start pos s = Ok s' /\ vec (dist s') n ds /\
                forall j, 1 <= j <= n -> distance n w start j (ds j).
Proof.
  intros Hw Hm Hd Hk Hs. unfold myDijstra.
  destruct (start_from_ok n w start s Hm Hd Hk Hs) as (s1 & -> & Hm1 & Hd1 & Hk1). cbn [mbind outcome_bind].
  destruct (vec_wr _ _ _ start 1 Hk1 Hs) as (m' & -> & Hk2). cbn [mbind outcome_bind].
  destruct (vec_wr _ _ _ start 0 Hd1 Hs) as (d' & -> & Hd2). cbn [mbind outcome_bind].
  apply (settle_ok n w start Hw (Z.to_nat n) _ (upd (w start) start 0) (upd (fun _ => 0) start 1)); [lia|done| |].
  - split; [done|]. split; [unfold upd; by rewrite decide_True|]. unfold upd. split; [|split].
    + intros j Hj. destruct (decide (j = start)) as [->|Hne]; [split; [done|]; intros _; apply path_here|].
      pose proof (Hw start j Hs Hj). split; [lia|]. intros _. rewrite <- (Z.add_0_l (w start j)).
      apply path_step; [apply path_here|done|done].
    + intros j Hj. destruct (decide (j = start)) as [->|Hne]; [|done]. intros _. split; [done|].
      intros c Hc. by eapply path_nonneg.
    + intros i j Hi Hj. destruct (decide (i = start)) as [->|]; [|done]. destruct (decide (j = start)); [done|]. lia.
  - pose proof (unmarked_upd n (fun _ => 0) start Hs eq_refl) as Hu. unfold unmarked in Hu at 2.
    pose proof (length_filter (fun _ : Z => 0 = 0) (seqZ 1 n)) as Hf. rewrite length_seqZ in Hf. lia.
Qed.

(** ** The graph that is read *)

(** The smallest weight given for an edge, in either direction. *)
Definition lightest (es : list (Z * Z * Z)) (a b : Z) : Z :=
  foldr (fun '(x, y, d) acc => if decide ((a = x /\ b = y) \/ (a = y /\ b = x)) then Z.min d acc else acc) MAX es.

Definition edge_ok (n : Z) (e : Z * Z * Z) : Prop := let '(a, b, d) := e in 1 <= a <= n /\ 1 <= b <= n /\ 0 <= d.

#[global] Instance edge_ok_dec n e : Decision (edge_ok n e).
Proof. destruct e as [[a b] d]. unfold edge_ok. apply _. Defined.

Lemma lightest_le es a b : lightest es a b <= MAX.
Proof. induction es as [|[[x y] d] es IH]; simpl; [done|]. destruct (decide _); lia. Qed.

Lemma lightest_nonneg n es a b : Forall (edge_ok n) es -> 0 <= lightest es a b.
Proof. induction 1 as [|[[x y] d] es (H1 & H2 & H3) _ IH]; simpl; [done|]. destruct (decide _); lia. Qed.

Lemma init_zeroed : init zeroed = Ok (set_map zeroed (replicate (Z.to_nat LEN) (replicate (Z.to_nat LEN) MAX))).
Proof. by vm_compute. Qed.

Lemma add_edge_ok n s g e :
  n < LEN -> dims2 (map s) LEN LEN -> holds2 (map s) LEN LEN g -> (forall a b, g a b = g b a) -> edge_ok n e ->
  exists m g', add_edge s e = Ok (set_map s m) /\ dims2 m LEN LEN /\ holds2 m LEN LEN g' /\
    forall a b, g' a b = let '(x, y, d) := e in
      if decide ((a = x /\ b = y) \/ (a = y /\ b = x)) then Z.min d (g a b) else g a b.
Proof.
  intros Hn Hd Hg Hsym He. destruct e as [[x y] d]. destruct He as (Hx & Hy & Hd0). unfold add_edge.
  rewrite (Hg x y ltac:(lia) ltac:(lia)). cbn [mbind outcome_bind]. destruct (bool_decide_reflect (d < g x y)) as [Hlt|Hge].
  - destruct (wr2_ok (map s) LEN LEN g y x d Hd Hg ltac:(lia) ltac:(lia)) as (m1 & -> & Hd1 & Hg1). cbn [mbind outcome_bind].
    destruct (wr2_ok m1 LEN LEN _ x y d Hd1 Hg1 ltac:(lia) ltac:(lia)) as (m2 & -> & Hd2 & Hg2). cbn [mbind outcome_bind].
    eexists _, _. split; [done|]. split; [done|]. split; [exact Hg2|]. intros a b. unfold upd2.
    destruct (decide (a = x /\ b = y)) as [[-> ->]|H1]; [rewrite decide_True by tauto; lia|].
    destruct (decide (a = y /\ b = x)) as [[-> ->]|H2]; [rewrite decide_True by tauto; rewrite (Hsym y x); lia|].
    by rewrite decide_False by tauto.
  - exists (map s), g. split; [by destruct s|]. split; [done|]. split; [done|]. intros a b.
    destruct (decide _) as [[[-> ->]|[-> ->]]|]; [lia|rewrite (Hsym y x); lia|done].
Qed.

Lemma add_edges_ok n es : forall s g,
  n < LEN -> dims2 (map s) LEN LEN -> holds2 (map s) LEN LEN g -> (forall a b, g a b = g b a) ->
  (forall a b, g a b <= MAX) -> Forall (edge_ok n) es ->
  exists m g', add_edges s es = Ok (set_map s m) /\ holds2 m LEN LEN g' /\
               forall a b, g' a b = Z.min (g a b) (lightest es a b).
Proof.
  induction es as [|e es IH]; intros s g Hn Hd Hg Hsym Hmax Hes.
  - exists (map s), g. split; [by destruct s|]. split; [done|]. intros a b. simpl. specialize (Hmax a b). lia.
  - apply Forall_cons in Hes as [He Hes].
    destruct (add_edge_ok n s g e Hn Hd Hg Hsym He) as (m1 & g1 & E1 & Hd1 & Hg1 & Hval). cbn [add_edges]. rewrite E1.
    cbn [mbind outcome_bind]. destruct (IH (set_map s m1) g1 Hn Hd1 Hg1) as (m' & g' & E & Hg' & Hval'); [| |done|].
    + intros a b. rewrite !Hval. destruct e as [[x y] d]. rewrite (Hsym a b).
      destruct (decide _) as [H1|H1], (decide _) as [H2|H2]; tauto.
    + intros a b. rewrite Hval. destruct e as [[x y] d]. specialize (Hmax a b). destruct (decide _); lia.
    + exists m', g'. split; [exact E|]. split; [done|]. intros a b. rewrite Hval', Hval. destruct e as [[x y] d]. simpl.
      destruct (decide _); lia.
Qed.

(** The program prints the distance from vertex 1 to vertex 5. *)
Lemma dijkstra_main_prints n pos es :
  5 <= n < LEN -> Forall (edge_ok n) es ->
  exists d, main_ n pos es = Ok d /\ distance n (lightest es) 1 5 d.
Proof.
  intros Hn Hes. unfold main_. rewrite init_zeroed. cbn [mbind outcome_bind].
  set (m0 := replicate (Z.to_nat LEN) (replicate (Z.to_nat LEN) MAX)).
  assert (Hd0 : dims2 m0 LEN LEN).
  { split; [done|]. apply Forall_replicate. done. }
  assert (Hg0 : holds2 m0 LEN LEN (fun _ _ => MAX)).
  { intros i j Hi Hj. unfold rd2. assert (Er : rd m0 i = Ok (replicate (Z.to_nat LEN) MAX)).
    { apply rd_Ok_iff. split; [lia|]. apply lookup_replicate. split; [done|lia]. }
    rewrite Er. cbn [mbind outcome_bind]. apply rd_Ok_iff. split; [lia|]. apply lookup_replicate. split; [done|lia]. }
  destruct (add_edges_ok n es (set_map zeroed m0) (fun _ _ => MAX) ltac:(lia) Hd0 Hg0 ltac:(done) ltac:(done) Hes)
    as (m & g & -> & Hg & Hval). cbn [mbind outcome_bind].
  assert (Hval' : forall a b, g a b = lightest es a b) by (intros a b; rewrite Hval; pose proof (lightest_le es a b); lia).
  destruct (myDijstra_ok n (lightest es) 1 pos (set_map (set_map zeroed m0) m)) as (s' & ds & -> & Hds & Hdist).
  - intros a b _ _. pose proof (lightest_le es a b). pose proof (lightest_nonneg n es a b Hes). lia.
  - intros i j Hi Hj. simpl. rewrite Hg by lia. by rewrite Hval'.
  - change (n < LEN). lia.
  - change (n < LEN). lia.
  - lia.
  - cbn [mbind outcome_bind]. exists (ds 5). split; [apply Hds; lia|]. apply Hdist. lia.
Qed.

(** ** Properties *)

(** C27: Dijkstra's algorithm computes shortest distances.  For every matrix of weights
    that are not negative ([MAX] for no edge), whatever the other arrays and [pos] held
    before, [myDijstra] returns with, for every vertex, the length of a shortest path
    from the start (the cost of some path, and of none less), and [MAX] for the vertices
    that no path shorter than [MAX] reaches.  No access leaves the arrays and no sum
    overflows. *)
Theorem dijkstra_shortest n w start pos s :
  weights n w -> mat (map s) n w -> n < Zlen (dist s) -> n < Zlen (mark s) -> 1 <= start <= n ->
  exists s' ds, myDijstra n start pos s = Ok s' /\ (forall j, 1 <= j <= n -> rd (dist s') j = Ok (ds j)) /\
                forall j, 1 <= j <= n -> distance n w start j (ds j).
Proof.
  intros Hw Hm Hd Hk Hs. destruct (myDijstra_ok n w start pos s Hw Hm Hd Hk Hs) as (s' & ds & E & [_ Hv] & Hdist).
  by exists s', ds.
Qed.

(** Two vertices, one edge. *)
Definition one_edge (i j : Z) : Z := if decide (i = j) then MAX else 7.

Lemma dijkstra_shortest_witness :
  exists s' ds, myDijstra 2 1 77 (Arrays [[]; [0; MAX; 7]; [0; 7; MAX]] [5; 5; 5] [1; 1; 1]) = Ok s' /\
                (forall j, 1 <= j <= 2 -> rd (dist s') j = Ok (ds j)) /\
                forall j, 1 <= j <= 2 -> distance 2 one_edge 1 j (ds j).
Proof.
  apply (dijkstra_shortest 2 one_edge 1 77 (Arrays [[]; [0; MAX; 7]; [0; 7; MAX]] [5; 5; 5] [1; 1; 1])).
  - intros i j _ _. unfold one_edge, MAX. destruct (decide _); lia.
  - intros i j Hi Hj. assert (i = 1 \/ i = 2) as [-> | ->] by lia; assert (j = 1 \/ j = 2) as [-> | ->] by lia; done.
  - done.
  - done.
  - lia.
Defined.
