(* ===== verification/SnailConn.v ===== *)
(** * springsnail: a proxied connection

    src/src/Linux High Perfermance Server Program/codes/springsnail/conn.cpp: a client is
    joined to a connection to a server, and the bytes of either go through a buffer to
    the other.  The sockets are part of the state: what [recv] and [send] will do next
    is a script, and what they did is recorded, so that what went in can be compared
    with what came out. *)

From stdpp Require Import base numbers list list_numbers gmap.
From S2P Require Import Prelude.

#[local] Open Scope Z_scope.

(** ** Sockets *)

(** The results of [recv]: bytes (none is the end of the stream), no data yet, an error. *)
Inductive rcv := Bytes (bs : list Z) | NoData | RecvError.

(** The results of [send]: room for so many bytes, no room, an error. *)
Inductive snd_ := Room (n : nat) | NoRoom | SendError.

(** A socket without a script has no data and no room. *)
Record sock := Sock { rcvs : list rcv; snds : list snd_; got : list Z; sent : list Z }.

(** The open sockets by descriptor. *)
Abbreviation sockets := (gmap Z sock).

(** [recv] with room for [n] bytes; what does not fit is left for the next call. *)
Definition recv_sock (n : nat) (k : sock) : sock * rcv :=
  match rcvs k with
  | [] => (k, NoData)
  | Bytes bs :: rs =>
      (Sock (if decide (length bs <= n)%nat then rs else Bytes (drop n bs) :: rs) (snds k) (got k ++ take n bs) (sent k),
       Bytes (take n bs))
  | r :: rs => (Sock rs (snds k) (got k) (sent k), r)
  end.

(** [send] of [bs]; [Room n] with the number of bytes it took. *)
Definition send_sock (bs : list Z) (k : sock) : sock * snd_ :=
  match snds k with
  | [] => (k, NoRoom)
  | Room n :: ss => (Sock (rcvs k) ss (got k) (sent k ++ take n bs), Room (n `min` length bs))
  | s :: ss => (Sock (rcvs k) ss (got k) (sent k), s)
  end.

(** On a descriptor; one that is not open is an error. *)
Definition recv_fd (net : sockets) (fd n : Z) : sockets * rcv :=
  match net !! fd with
  | None => (net, RecvError)
  | Some k => let '(k, r) := recv_sock (Z.to_nat n) k in (<[fd := k]> net, r)
  end.
Definition send_fd (net : sockets) (fd : Z) (bs : list Z) : sockets * snd_ :=
  match net !! fd with
  | None => (net, SendError)
  | Some k => let '(k, r) := send_sock bs k in (<[fd := k]> net, r)
  end.

(** ** Connections *)

Inductive RET_CODE := OK | NOTHING | IOERR | CLOSED | BUFFER_FULL | BUFFER_EMPTY | TRY_AGAIN.

#[global] Instance ret_code_eq_dec : EqDecision RET_CODE.
Proof. solve_decision. Defined.

Definition BUF_SIZE : Z := 2048.

(** The [_buf], [_read_idx] and [_write_idx] fields of one side. *)
Record half := Half { buf : list Z; read_idx : Z; write_idx : Z }.

(** The fields [m_clt_*] and [m_srv_*]; an address is known by a number. *)
Record conn := Conn {
  m_clt : half; m_clt_address : Z; m_cltfd : Z;
  m_srv : half; m_srv_address : Z; m_srvfd : Z;
  m_srv_closed : bool;
}.

Definition set_clt (c : conn) h := Conn h (m_clt_address c) (m_cltfd c) (m_srv c) (m_srv_address c) (m_srvfd c) (m_srv_closed c).
Definition set_srv (c : conn) h := Conn (m_clt c) (m_clt_address c) (m_cltfd c) h (m_srv_address c) (m_srvfd c) (m_srv_closed c).
Definition set_srv_closed (c : conn) b := Conn (m_clt c) (m_clt_address c) (m_cltfd c) (m_srv c) (m_srv_address c) (m_srvfd c) b.

Definition empty_half : half := Half (replicate (Z.to_nat BUF_SIZE) 0) 0 0.

Definition reset (c : conn) : conn :=
  Conn empty_half (m_clt_address c) (-1) empty_half (m_srv_address c) (m_srvfd c) false.

(** The constructor; [junk] is what the fields it does not set hold. *)
Definition new_conn (junk : conn) : conn :=
  reset (Conn (m_clt junk) (m_clt_address junk) (m_cltfd junk) (m_srv junk) (m_srv_address junk) (-1) (m_srv_closed junk)).

Definition init_clt (c : conn) (sockfd client_addr : Z) : conn :=
  Conn (m_clt c) client_addr sockfd (m_srv c) (m_srv_address c) (m_srvfd c) (m_srv_closed c).
Definition init_srv (c : conn) (sockfd server_addr : Z) : conn :=
  Conn (m_clt c) (m_clt_address c) (m_cltfd c) (m_srv c) server_addr sockfd (m_srv_closed c).

(** The loop of the two [read]s; every turn but the last takes a byte or more. *)
Fixpoint fill (fuel : nat) (net : sockets) (fd : Z) (h : half) : outcome (sockets * half * RET_CODE) :=
  match fuel with
  | O => Fault OutOfFuel
  | S fuel =>
      if bool_decide (BUF_SIZE <= read_idx h) then Ok (net, h, BUFFER_FULL)
      else
        let '(net, r) := recv_fd net fd (BUF_SIZE - read_idx h) in
        match r with
        | NoData => Ok (net, h, if bool_decide (0 < read_idx h - write_idx h) then OK else NOTHING)
        | RecvError => Ok (net, h, IOERR)
        | Bytes [] => Ok (net, h, CLOSED)
        | Bytes bs =>
            b ← wr_slice (buf h) (read_idx h) bs;
            fill fuel net fd (Half b (read_idx h + Zlen bs) (write_idx h))
        end
  end.

(** The loop of the two [write]s. *)
Fixpoint drain (fuel : nat) (net : sockets) (fd : Z) (h : half) : outcome (sockets * half * RET_CODE) :=
  match fuel with
  | O => Fault OutOfFuel
  | S fuel =>
      if bool_decide (read_idx h <= write_idx h) then Ok (net, Half (buf h) 0 0, BUFFER_EMPTY)
      else
        bs ← rd_slice (buf h) (write_idx h) (read_idx h - write_idx h);
        let '(net, r) := send_fd net fd bs in
        match r with
        | NoRoom => Ok (net, h, TRY_AGAIN)
        | SendError => Ok (net, h, IOERR)
        | Room O => Ok (net, h, CLOSED)
        | Room n => drain fuel net fd (Half (buf h) (read_idx h) (write_idx h + Z.of_nat n))
        end
  end.

Definition turns : nat := S (Z.to_nat BUF_SIZE).

Definition read_clt (net : sockets) (c : conn) : outcome (sockets * conn * RET_CODE) :=
  '(net, h, r) ← fill turns net (m_cltfd c) (m_clt c);
  Ok (net, set_clt c h, r).

Definition read_srv (net : sockets) (c : conn) : outcome (sockets * conn * RET_CODE) :=
  '(net, h, r) ← fill turns net (m_srvfd c) (m_srv c);
  Ok (net, set_srv c h, r).

Definition write_srv (net : sockets) (c : conn) : outcome (sockets * conn * RET_CODE) :=
  '(net, h, r) ← drain turns net (m_srvfd c) (m_clt c);
  Ok (net, set_clt c h, r).

Definition write_clt (net : sockets) (c : conn) : outcome (sockets * conn * RET_CODE) :=
  '(net, h, r) ← drain turns net (m_cltfd c) (m_srv c);
  Ok (net, set_srv c h, r).

(** ** Buffers *)

Definition half_ok (h : half) : Prop := Zlen (buf h) = BUF_SIZE /\ 0 <= write_idx h <= read_idx h /\ read_idx h <= BUF_SIZE.

(** The bytes that still have to be sent. *)
Definition pending (h : half) : list Z := slice (buf h) (write_idx h) (read_idx h - write_idx h).

(** What happened to the sockets: [fd] got the bytes [i] and sent the bytes [o]. *)
Definition moved (net net' : sockets) (fd : Z) (i o : list Z) : Prop :=
  (forall g, g <> fd -> net' !! g = net !! g) /\
  match net !! fd with
  | None => net' !! fd = None /\ i = [] /\ o = []
  | Some k => exists k', net' !! fd = Some k' /\ got k' = got k ++ i /\ sent k' = sent k ++ o
  end.

Lemma moved_refl net fd : moved net net fd [] [].
Proof. split; [done|]. destruct (net !! fd) as [k|] eqn:E; [|done]. exists k. by rewrite !app_nil_r. Qed.

Lemma moved_trans net net1 net2 fd i o i' o' :
  moved net net1 fd i o -> moved net1 net2 fd i' o' -> moved net net2 fd (i ++ i') (o ++ o').
Proof.
  intros [H1 H2] [G1 G2]. split; [intros g Hg; by rewrite G1, H1|]. destruct (net !! fd) as [k|].
  - destruct H2 as (k1 & E1 & Hg & Hs). rewrite E1 in G2. destruct G2 as (k2 & E2 & Hg2 & Hs2). exists k2. split; [done|].
    rewrite Hg2, Hs2, Hg, Hs. by rewrite !app_assoc.
  - destruct H2 as (E & -> & ->). by rewrite E in G2.
Qed.

Lemma recv_fd_ok net fd n :
  match recv_fd net fd n with
  | (net', Bytes bs) => moved net net' fd bs [] /\ Zlen bs <= Z.max 0 n
  | (net', _) => moved net net' fd [] []
  end.
Proof.
  unfold recv_fd. destruct (net !! fd) as [k|] eqn:E; [|apply moved_refl].
  assert (Hput : forall k' i, got k' = got k ++ i -> sent k' = sent k -> moved net (<[fd := k']> net) fd i []).
  { intros k' i Hg Hs. split; [intros g Hg'; by apply lookup_insert_ne|]. rewrite E. exists k'.
    rewrite lookup_insert_eq, app_nil_r. done. }
  unfold recv_sock. destruct (rcvs k) as [|[bs| |] rs]; try (apply Hput; by rewrite ?app_nil_r).
  split; [by apply Hput|]. unfold Zlen. rewrite length_take. lia.
Qed.

Lemma send_fd_ok net fd bs :
  match send_fd net fd bs with
  | (net', Room n) => moved net net' fd [] (take n bs) /\ (n <= length bs)%nat
  | (net', _) => moved net net' fd [] []
  end.
Proof.
  unfold send_fd. destruct (net !! fd) as [k|] eqn:E; [|apply moved_refl].
  assert (Hput : forall k' o, got k' = got k -> sent k' = sent k ++ o -> moved net (<[fd := k']> net) fd [] o).
  { intros k' o Hg Hs. split; [intros g Hg'; by apply lookup_insert_ne|]. rewrite E. exists k'.
    rewrite lookup_insert_eq, app_nil_r. done. }
  unfold send_sock. destruct (snds k) as [|[n| |] ss]; try (apply Hput; by rewrite ?app_nil_r).
  split; [|lia]. apply Hput; [done|]. cbn. destruct (decide (n <= length bs)%nat).
  - by rewrite Nat.min_l.
  - rewrite Nat.min_r by lia. by rewrite !take_ge by lia.
Qed.

Lemma slice_append {A} (b : list A) w r xs :
  0 <= w <= r -> r + Zlen xs <= Zlen b -> slice (splice b r xs) w (r + Zlen xs - w) = slice b w (r - w) ++ xs.
Proof.
  intros Hw Hr. unfold slice, splice, Zlen in *. rewrite drop_app_le by (rewrite length_take; lia).
  rewrite skipn_firstn_comm. rewrite take_app_ge by (rewrite length_take, length_drop; lia).
  rewrite length_take, length_drop. rewrite take_app_le by lia. rewrite (take_ge xs) by lia.
  f_equal. f_equal. lia.
Qed.

(** Reading appends to what is pending exactly what the socket got. *)
Lemma conn_fill_ok fd fuel : forall net h,
  half_ok h -> BUF_SIZE - read_idx h < Z.of_nat fuel ->
  exists net' h' r i, fill fuel net fd h = Ok (net', h', r) /\ half_ok h' /\ pending h' = pending h ++ i /\ moved net net' fd i [].
Proof.
  induction fuel as [|fuel IH]; intros net h Hok Hf; pose proof Hok as (Hl & Hw & Hr); [lia|]. cbn [fill].
  destruct (bool_decide_reflect (BUF_SIZE <= read_idx h)) as [Hfull|Hroom].
  { exists net, h, BUFFER_FULL, []. rewrite app_nil_r. split; [done|]. split; [done|]. split; [done|]. apply moved_refl. }
  pose proof (recv_fd_ok net fd (BUF_SIZE - read_idx h)) as Hrecv. destruct (recv_fd net fd (BUF_SIZE - read_idx h)) as [net1 r].
  destruct r as [bs| |]; [|eexists net1, h, _, []; rewrite app_nil_r; done..]. destruct Hrecv as [Hmv Hbs].
  destruct bs as [|x bs]; [eexists net1, h, _, []; rewrite app_nil_r; done|]. set (bs' := x :: bs) in *.
  assert (Hpos : 0 < Zlen bs') by (unfold bs'; rewrite Zlen_cons; pose proof (Zlen_nonneg bs); lia).
  rewrite wr_slice_in_range by lia. cbn [mbind outcome_bind].
  destruct (IH net1 (Half (splice (buf h) (read_idx h) bs') (read_idx h + Zlen bs') (write_idx h))) as (net' & h' & r & i & E & Hok' & Hp & Hmv').
  - split; cbn; [rewrite splice_length; lia|lia].
  - cbn. lia.
  - exists net', h', r, (bs' ++ i). split; [exact E|]. split; [done|]. split.
    + rewrite Hp. unfold pending at 1. cbn. rewrite slice_append by lia. by rewrite <- app_assoc.
    + by apply (moved_trans net net1 net' fd bs' []).
Qed.

(** Writing takes from the front of what is pending exactly what the socket sent. *)
Lemma conn_drain_ok fd fuel : forall net h,
  half_ok h -> read_idx h - write_idx h < Z.of_nat fuel ->
  exists net' h' r o, drain fuel net fd h = Ok (net', h', r) /\ half_ok h' /\ pending h = o ++ pending h' /\ moved net net' fd [] o /\
    (r = BUFFER_EMPTY -> pending h' = []).
Proof.
  induction fuel as [|fuel IH]; intros net h Hok Hf; pose proof Hok as (Hl & Hw & Hr); [lia|]. cbn [drain].
  destruct (bool_decide_reflect (read_idx h <= write_idx h)) as [Hempty|Hmore].
  { eexists net, _, BUFFER_EMPTY, []. split; [done|]. split; [split; cbn; [exact Hl|unfold BUF_SIZE; lia]|]. split.
    - unfold pending. cbn. rewrite slice_0 by lia. done.
    - split; [apply moved_refl|]. intros _. unfold pending. cbn. by rewrite slice_0. }
  rewrite rd_slice_in_range by lia. cbn [mbind outcome_bind]. fold (pending h).
  pose proof (send_fd_ok net fd (pending h)) as Hsend. destruct (send_fd net fd (pending h)) as [net1 r].
  destruct r as [[|n]| |]; try (eexists net1, h, _, []; split; [done|]; split; [done|]; split; [done|]; split; [apply Hsend|done]).
  destruct Hsend as [Hmv Hn]. assert (Hlen : Zlen (pending h) = read_idx h - write_idx h) by (apply slice_length; lia).
  destruct (IH net1 (Half (buf h) (read_idx h) (write_idx h + Z.of_nat (S n)))) as (net' & h' & r & o & E & Hok' & Hp & Hmv' & He).
  - unfold Zlen in Hlen. split; cbn [buf read_idx write_idx]; lia.
  - cbn [read_idx write_idx]. lia.
  - exists net', h', r, (take (S n) (pending h) ++ o). split; [exact E|]. split; [done|]. split; [|split; [|done]].
    + rewrite <- app_assoc, <- Hp. rewrite <- (take_drop (S n) (pending h)) at 1. f_equal. unfold pending, slice.
      cbn [buf read_idx write_idx]. rewrite skipn_firstn_comm, drop_drop. f_equal; [lia|]. f_equal. lia.
    + by apply (moved_trans net net1 net' fd [] _ []).
Qed.

(** ** The relay *)

(** A connection between a client and a server: what either sent is what the other
    got, and the rest of it is in the buffer. *)
Definition relays (net : sockets) (c : conn) : Prop :=
  half_ok (m_clt c) /\ half_ok (m_srv c) /\ m_cltfd c <> m_srvfd c /\
  exists kc ks, net !! m_cltfd c = Some kc /\ net !! m_srvfd c = Some ks /\
    got kc = sent ks ++ pending (m_clt c) /\ got ks = sent kc ++ pending (m_srv c).

(** Only these descriptors have changed. *)
Definition touches (net net' : sockets) (c : conn) : Prop :=
  (forall g, g <> m_cltfd c -> g <> m_srvfd c -> net' !! g = net !! g) /\ dom net' = dom net.

(** The fields that say whose connection it is. *)
Definition same_ends (c c' : conn) : Prop :=
  m_cltfd c' = m_cltfd c /\ m_srvfd c' = m_srvfd c /\ m_srv_address c' = m_srv_address c /\ m_srv_closed c' = m_srv_closed c.

Lemma moved_dom net net' fd i o : moved net net' fd i o -> dom net' = dom net.
Proof.
  intros [H1 H2]. apply set_eq. intros g. rewrite !elem_of_dom. destruct (decide (g = fd)) as [->|Hne]; [|by rewrite H1].
  destruct (net !! fd) as [k|].
  - destruct H2 as (k' & -> & _). split; by eexists.
  - destruct H2 as (-> & _). done.
Qed.

Lemma moved_in net net' fd i o k :
  moved net net' fd i o -> net !! fd = Some k -> exists k', net' !! fd = Some k' /\ got k' = got k ++ i /\ sent k' = sent k ++ o.
Proof. intros [_ H] E. by rewrite E in H. Qed.

Section Relay.
Context (net : sockets) (c : conn).
Hypothesis Hc : relays net c.

Lemma fill_turns fd h : half_ok h ->
  exists net' h' r i, fill turns net fd h = Ok (net', h', r) /\ half_ok h' /\ pending h' = pending h ++ i /\ moved net net' fd i [].
Proof. intros Hh. apply conn_fill_ok; [done|]. destruct Hh as (_ & Hw & _). unfold turns. lia. Qed.

Lemma drain_turns fd h : half_ok h ->
  exists net' h' r o, drain turns net fd h = Ok (net', h', r) /\ half_ok h' /\ pending h = o ++ pending h' /\ moved net net' fd [] o /\
    (r = BUFFER_EMPTY -> pending h' = []).
Proof. intros Hh. apply conn_drain_ok; [done|]. destruct Hh as (_ & Hw & Hr). unfold turns. lia. Qed.

Lemma read_clt_relays : exists net' c' r, read_clt net c = Ok (net', c', r) /\ relays net' c' /\ touches net net' c /\ same_ends c c'.
Proof.
  destruct Hc as (H1 & H2 & Hne & kc & ks & Ec & Es & Gc & Gs).
  destruct (fill_turns (m_cltfd c) (m_clt c) H1) as (net' & h' & r & i & E & Hok & Hp & Hmv).
  destruct (moved_in _ _ _ _ _ _ Hmv Ec) as (kc' & Ec' & Gc' & Sc'). rewrite app_nil_r in Sc'.
  exists net', (set_clt c h'), r. unfold read_clt. rewrite E. split; [done|]. split; [|split; [|done]].
  - split; [done|]. split; [done|]. split; [done|]. exists kc', ks. cbn. split; [done|]. pose proof Hmv as [Hoth _]. rewrite Hoth by done.
    split; [done|]. rewrite Gc', Sc', Gc, Hp, app_assoc. done.
  - split; [intros g G1 G2; by apply Hmv|]. by apply moved_dom in Hmv.
Qed.

Lemma read_srv_relays : exists net' c' r, read_srv net c = Ok (net', c', r) /\ relays net' c' /\ touches net net' c /\ same_ends c c'.
Proof.
  destruct Hc as (H1 & H2 & Hne & kc & ks & Ec & Es & Gc & Gs).
  destruct (fill_turns (m_srvfd c) (m_srv c) H2) as (net' & h' & r & i & E & Hok & Hp & Hmv).
  destruct (moved_in _ _ _ _ _ _ Hmv Es) as (ks' & Es' & Gs' & Ss'). rewrite app_nil_r in Ss'.
  exists net', (set_srv c h'), r. unfold read_srv. rewrite E. split; [done|]. split; [|split; [|done]].
  - split; [done|]. split; [done|]. split; [done|]. exists kc, ks'. cbn. pose proof Hmv as [Hoth _]. rewrite Hoth by done.
    do 2 (split; [done|]). rewrite Gs', Ss', Gs, Hp, app_assoc. done.
  - split; [intros g G1 G2; by apply Hmv|]. by apply moved_dom in Hmv.
Qed.

Lemma write_srv_relays : exists net' c' r, write_srv net c = Ok (net', c', r) /\ relays net' c' /\ touches net net' c /\ same_ends c c' /\
  (r = BUFFER_EMPTY -> pending (m_clt c') = []).
Proof.
  destruct Hc as (H1 & H2 & Hne & kc & ks & Ec & Es & Gc & Gs).
  destruct (drain_turns (m_srvfd c) (m_clt c) H1) as (net' & h' & r & o & E & Hok & Hp & Hmv & He).
  destruct (moved_in _ _ _ _ _ _ Hmv Es) as (ks' & Es' & Gs' & Ss'). rewrite app_nil_r in Gs'.
  exists net', (set_clt c h'), r. unfold write_srv. rewrite E. split; [done|]. split; [|split; [|done]].
  - split; [done|]. split; [done|]. split; [done|]. exists kc, ks'. cbn. pose proof Hmv as [Hoth _]. rewrite Hoth by done.
    do 2 (split; [done|]). rewrite Gs', Ss', Gc, Hp, app_assoc. done.
  - split; [intros g G1 G2; by apply Hmv|]. by apply moved_dom in Hmv.
Qed.

Lemma write_clt_relays : exists net' c' r, write_clt net c = Ok (net', c', r) /\ relays net' c' /\ touches net net' c /\ same_ends c c' /\
  (r = BUFFER_EMPTY -> pending (m_srv c') = []).
Proof.
  destruct Hc as (H1 & H2 & Hne & kc & ks & Ec & Es & Gc & Gs).
  destruct (drain_turns (m_cltfd c) (m_srv c) H2) as (net' & h' & r & o & E & Hok & Hp & Hmv & He).
  destruct (moved_in _ _ _ _ _ _ Hmv Ec) as (kc' & Ec' & Gc' & Sc'). rewrite app_nil_r in Gc'.
  exists net', (set_srv c h'), r. unfold write_clt. rewrite E. split; [done|]. split; [|split; [|done]].
  - split; [done|]. split; [done|]. split; [done|]. exists kc', ks. cbn. pose proof Hmv as [Hoth _]. rewrite (Hoth (m_srvfd c)) by done.
    do 2 (split; [done|]). rewrite Gc', Sc', Gs, Hp, app_assoc. done.
  - split; [intros g G1 G2; by apply Hmv|]. by apply moved_dom in Hmv.
Qed.
End Relay.

(** Other connections are not affected. *)
Lemma relays_frame net net' c d :
  relays net d -> touches net net' c ->
  m_cltfd d <> m_cltfd c -> m_cltfd d <> m_srvfd c -> m_srvfd d <> m_cltfd c -> m_srvfd d <> m_srvfd c -> relays net' d.
Proof.
  intros (H1 & H2 & Hne & kc & ks & Ec & Es & G) [Ht _] N1 N2 N3 N4. do 3 (split; [done|]). exists kc, ks. by rewrite !Ht.
Qed.
