(* ===== verification/SnailMgr.v ===== *)
(** * springsnail: the connections of a child process

    src/src/Linux High Perfermance Server Program/codes/springsnail/mgr.cpp with
    fdwrapper.cpp, and the part of the event loop in processpool.h that uses them: a
    child keeps a pool of connections to its server, joins every client it accepts to
    one of them, relays bytes when [epoll] reports a descriptor, and dials again for the
    connections that were closed.  It is shown that no client ever gets bytes of
    another's, or loses or repeats bytes while it is served. *)

From stdpp Require Import base numbers list list_numbers gmap sorting.
From S2P Require Import Prelude SnailConn.

#[local] Open Scope Z_scope.

Inductive OP_TYPE := READ | WRITE | ERROR.

(** What a descriptor is registered for, always with [EPOLLET]. *)
Inductive interest := EPOLLIN | EPOLLOUT.

(** A [std::map<int, conn*>]. *)
Abbreviation table := (gmap Z (option positive)).

(** The child: the [conn] objects, the three tables, the sockets, the descriptors
    registered with [epoll] and the bytes sent to the parent. *)
Record mgr := Mgr {
  heap : gmap positive conn;
  m_conns : table;
  m_used : table;
  m_freed : table;
  net : sockets;
  epoll : gmap Z interest;
  ratios : list Z;
}.

Definition set_heap (s : mgr) x := Mgr x (m_conns s) (m_used s) (m_freed s) (net s) (epoll s) (ratios s).
Definition set_conns (s : mgr) x := Mgr (heap s) x (m_used s) (m_freed s) (net s) (epoll s) (ratios s).
Definition set_used (s : mgr) x := Mgr (heap s) (m_conns s) x (m_freed s) (net s) (epoll s) (ratios s).
Definition set_freed (s : mgr) x := Mgr (heap s) (m_conns s) (m_used s) x (net s) (epoll s) (ratios s).
Definition set_net (s : mgr) x := Mgr (heap s) (m_conns s) (m_used s) (m_freed s) x (epoll s) (ratios s).
Definition set_epoll (s : mgr) x := Mgr (heap s) (m_conns s) (m_used s) (m_freed s) (net s) x (ratios s).

(** ** Descriptors *)

(** [epoll_ctl] refuses to add what is there and to change what is not. *)
Definition add_read_fd (s : mgr) (fd : Z) : mgr :=
  match net s !! fd, epoll s !! fd with
  | Some _, None => set_epoll s (<[fd := EPOLLIN]> (epoll s))
  | _, _ => s
  end.
Definition add_write_fd (s : mgr) (fd : Z) : mgr :=
  match net s !! fd, epoll s !! fd with
  | Some _, None => set_epoll s (<[fd := EPOLLOUT]> (epoll s))
  | _, _ => s
  end.
Definition removefd (s : mgr) (fd : Z) : mgr := set_epoll s (base.delete fd (epoll s)).
Definition closefd (s : mgr) (fd : Z) : mgr := set_net (removefd s fd) (base.delete fd (net s)).
Definition modfd (s : mgr) (fd : Z) (ev : interest) : mgr := set_epoll s (alter (fun _ => ev) fd (epoll s)).

(** ** Tables *)

(** [m.insert( pair( k, v ) )] keeps an entry that is there. *)
Definition insert_ (m : table) (k : Z) (v : option positive) : table :=
  match m !! k with Some _ => m | None => <[k := v]> m end.

(** The entries from [begin()] to [end()]. *)
Definition by_key (a b : Z * option positive) : Prop := a.1 <= b.1.
#[global] Instance by_key_dec : RelDecision by_key.
Proof. intros a b. unfold by_key. apply _. Defined.
Definition entries (m : table) : list (Z * option positive) := merge_sort by_key (map_to_list m).

Definition get_conn (s : mgr) (p : positive) : outcome conn :=
  match heap s !! p with Some c => Ok c | None => Fault NullDeref end.
Definition put_conn (s : mgr) (p : positive) (c : conn) : mgr := set_heap s (<[p := c]> (heap s)).

(** ** The manager *)

(** What [connect] and [accept] do: they fail, or give a descriptor of a socket with its
    scripts. *)
Definition answer : Type := option (Z * list rcv * list snd_).

Definition new_sock (rs : list rcv) (ss : list snd_) : sock := Sock rs ss [] [].

Definition open_fd (s : mgr) (a : answer) : mgr * Z :=
  match a with
  | None => (s, -1)
  | Some (fd, rs, ss) => (set_net s (<[fd := new_sock rs ss]> (net s)), fd)
  end.

Definition conn2srv (s : mgr) (a : answer) : mgr * Z := open_fd s a.

(** The constructor: one turn of the loop for each of the [m_conncnt] answers; [junk] is
    what a new object holds. *)
Fixpoint build_conns (junk : conn) (address : Z) (s : mgr) (answers : list answer) : mgr :=
  match answers with
  | [] => s
  | a :: answers =>
      let '(s, sockfd) := conn2srv s a in
      if bool_decide (sockfd < 0) then build_conns junk address s answers
      else
        let p := fresh (dom (heap s) : gset positive) in
        let s := put_conn s p (init_srv (new_conn junk) sockfd address) in
        build_conns junk address (set_conns s (insert_ (m_conns s) sockfd (Some p))) answers
  end.
Definition new_mgr (junk : conn) (address : Z) (answers : list answer) : mgr :=
  build_conns junk address (Mgr ∅ ∅ ∅ ∅ ∅ ∅ []) answers.

Definition get_used_conn_cnt (s : mgr) : Z := Z.of_nat (size (m_used s)).

Definition pick_conn (s : mgr) (cltfd : Z) : mgr * option positive :=
  match entries (m_conns s) with
  | [] => (s, None)
  | (_, None) :: _ => (s, None)
  | (srvfd, Some tmp) :: _ =>
      let s := set_conns s (base.delete srvfd (m_conns s)) in
      let s := set_used s (insert_ (m_used s) cltfd (Some tmp)) in
      let s := set_used s (insert_ (m_used s) srvfd (Some tmp)) in
      let s := add_read_fd s cltfd in
      (add_read_fd s srvfd, Some tmp)
  end.

Definition free_conn (s : mgr) (p : positive) : outcome mgr :=
  c ← get_conn s p;
  let cltfd := m_cltfd c in
  let srvfd := m_srvfd c in
  let s := closefd (closefd s cltfd) srvfd in
  let s := set_used s (base.delete srvfd (base.delete cltfd (m_used s))) in
  let s := put_conn s p (reset c) in
  Ok (set_freed s (insert_ (m_freed s) srvfd (Some p))).

(** The loop of [recycle_conns], with an answer for every connection. *)
Fixpoint recycle_loop (s : mgr) (l : list (Z * option positive)) (answers : list answer) : outcome mgr :=
  match l with
  | [] => Ok s
  | (_, None) :: _ => Fault NullDeref
  | (_, Some tmp) :: l =>
      c ← get_conn s tmp;
      let '(s, srvfd) := conn2srv s (mjoin (head answers)) in
      if bool_decide (srvfd < 0) then recycle_loop s l (tail answers)
      else
        let s := put_conn s tmp (init_srv c srvfd (m_srv_address c)) in
        recycle_loop (set_conns s (insert_ (m_conns s) srvfd (Some tmp))) l (tail answers)
  end.
Definition recycle_conns (s : mgr) (answers : list answer) : outcome mgr :=
  if bool_decide (m_freed s = ∅) then Ok s
  else
    s ← recycle_loop s (entries (m_freed s)) answers;
    Ok (set_freed s ∅).

(** [free_conn( connection ); return CLOSED;] *)
Definition close_conn (s : mgr) (p : positive) : outcome (mgr * RET_CODE) :=
  s ← free_conn s p;
  Ok (s, CLOSED).

(** [if( connection->m_srv_closed )] after an operation on the client. *)
Definition after_clt (s : mgr) (p : positive) : outcome (mgr * RET_CODE) :=
  c ← get_conn s p;
  if m_srv_closed c then close_conn s p else Ok (s, OK).

Definition process_clt (s : mgr) (p : positive) (c : conn) (fd : Z) (type : OP_TYPE) : outcome (mgr * RET_CODE) :=
  let srvfd := m_srvfd c in
  match type with
  | READ =>
      '(n, c, res) ← read_clt (net s) c;
      let s := put_conn (set_net s n) p c in
      match res with
      | OK | BUFFER_FULL => after_clt (modfd s srvfd EPOLLOUT) p
      | IOERR | CLOSED => close_conn s p
      | _ => after_clt s p
      end
  | WRITE =>
      '(n, c, res) ← write_clt (net s) c;
      let s := put_conn (set_net s n) p c in
      match res with
      | TRY_AGAIN => after_clt (modfd s fd EPOLLOUT) p
      | BUFFER_EMPTY => after_clt (modfd (modfd s srvfd EPOLLIN) fd EPOLLIN) p
      | IOERR | CLOSED => close_conn s p
      | _ => after_clt s p
      end
  | ERROR => Ok (s, OK)
  end.

Definition process_srv (s : mgr) (p : positive) (c : conn) (fd : Z) (type : OP_TYPE) : outcome (mgr * RET_CODE) :=
  let cltfd := m_cltfd c in
  match type with
  | READ =>
      '(n, c, res) ← read_srv (net s) c;
      let s := put_conn (set_net s n) p c in
      match res with
      | OK | BUFFER_FULL => Ok (modfd s cltfd EPOLLOUT, OK)
      | IOERR | CLOSED => Ok (put_conn (modfd s cltfd EPOLLOUT) p (set_srv_closed c true), OK)
      | _ => Ok (s, OK)
      end
  | WRITE =>
      '(n, c, res) ← write_srv (net s) c;
      let s := put_conn (set_net s n) p c in
      match res with
      | TRY_AGAIN => Ok (modfd s fd EPOLLOUT, OK)
      | BUFFER_EMPTY => Ok (modfd (modfd s cltfd EPOLLIN) fd EPOLLIN, OK)
      | IOERR | CLOSED => Ok (put_conn (modfd s cltfd EPOLLOUT) p (set_srv_closed c true), OK)
      | _ => Ok (s, OK)
      end
  | ERROR => Ok (s, OK)
  end.

(** [m_used[ fd ]] makes an entry, a null pointer, when there is none. *)
Definition process (s : mgr) (fd : Z) (type : OP_TYPE) : outcome (mgr * RET_CODE) :=
  match m_used s !! fd with
  | None => Ok (set_used s (<[fd := None]> (m_used s)), NOTHING)
  | Some None => Ok (s, NOTHING)
  | Some (Some p) =>
      c ← get_conn s p;
      if decide (m_cltfd c = fd) then process_clt s p c fd type
      else if decide (m_srvfd c = fd) then process_srv s p c fd type
      else Ok (s, NOTHING)
  end.

(** ** The event loop of a child *)

(** One byte of the number, as it is in memory. *)
Definition notify_parent_busy_ratio (s : mgr) : mgr :=
  Mgr (heap s) (m_conns s) (m_used s) (m_freed s) (net s) (epoll s) (ratios s ++ [u8 (get_used_conn_cnt s)]).

(** What [epoll_wait] reports: the parent has a client to accept (with the result of
    [accept] and the client's address), a descriptor is ready, or nothing happened for
    a while.  [Traffic] is not an event of the loop: the peers of the sockets change
    what [recv] and [send] will do. *)
Inductive event :=
| NewClient (a : answer) (client_address : Z)
| Ready (fd : Z) (type : OP_TYPE)
| Idle (answers : list answer)
| Traffic (fd : Z) (rs : list rcv) (ss : list snd_).

Definition accept_client (s : mgr) (a : answer) (client_address : Z) : outcome mgr :=
  let '(s, connfd) := open_fd s a in
  if bool_decide (connfd < 0) then Ok s
  else
    let s := add_read_fd s connfd in
    let '(s, picked) := pick_conn s connfd in
    match picked with
    | None => Ok (closefd s connfd)
    | Some p =>
        c ← get_conn s p;
        Ok (notify_parent_busy_ratio (put_conn s p (init_clt c connfd client_address)))
    end.

Definition run_child (s : mgr) (e : event) : outcome mgr :=
  match e with
  | NewClient a client_address => accept_client s a client_address
  | Ready fd type =>
      '(s, result) ← process s fd type;
      Ok (if decide (result = CLOSED) then notify_parent_busy_ratio s else s)
  | Idle answers => recycle_conns s answers
  | Traffic fd rs ss => Ok (set_net s (alter (fun k => Sock rs ss (got k) (sent k)) fd (net s)))
  end.

(** ** The parent *)

(** The child with the smallest busy ratio, the first of them. *)
Definition get_most_free_srv (m_busy_ratio : list Z) (m_process_number : Z) : outcome Z :=
  ratio ← rd m_busy_ratio 0;
  '(idx, _) ← for_ (Z.to_nat m_process_number) 0 (fun i '(idx, ratio) =>
    r ← rd m_busy_ratio i;
    Ok (if bool_decide (r < ratio) then (i, r) else (idx, ratio))) (0, ratio);
  Ok idx.

(** [recv] of up to four bytes into a number that is 0, on a little-endian machine. *)
Definition recv_busy_ratio (bytes : list Z) : Z :=
  s32 (foldr (fun b n => b + 256 * n) 0 (take 4 bytes)).

(** ** The invariant *)

(** A connection that is not in use. *)
Definition clean (c : conn) : Prop :=
  half_ok (m_clt c) /\ half_ok (m_srv c) /\ pending (m_clt c) = [] /\ pending (m_srv c) = [].

Definition ends (c : conn) : list Z := [m_cltfd c; m_srvfd c].

Definition active (s : mgr) (p : positive) (c : conn) : Prop :=
  (exists fd, m_used s !! fd = Some (Some p)) /\ heap s !! p = Some c.

(** The connections of the pool have a socket of their own that nothing went through;
    those in use relay between two sockets of their own; those that were freed wait for
    a new socket; and no connection is in two of these states. *)
Record inv (s : mgr) : Prop := {
  inv_pool fd x : m_conns s !! fd = Some x ->
    exists p c k, x = Some p /\ heap s !! p = Some c /\ m_srvfd c = fd /\ clean c /\ net s !! fd = Some k /\ got k = [] /\ sent k = [];
  inv_used fd p : m_used s !! fd = Some (Some p) -> exists c, heap s !! p = Some c /\ fd ∈ ends c;
  inv_active p c : active s p c -> relays (net s) c;
  inv_freed fd x : m_freed s !! fd = Some x -> exists p c, x = Some p /\ heap s !! p = Some c /\ m_srvfd c = fd /\ clean c;
  inv_pool_used fd g p : m_conns s !! fd = Some (Some p) -> m_used s !! g = Some (Some p) -> False;
  inv_pool_freed fd g p : m_conns s !! fd = Some (Some p) -> m_freed s !! g = Some (Some p) -> False;
  inv_used_freed fd g p : m_used s !! fd = Some (Some p) -> m_freed s !! g = Some (Some p) -> False;
  inv_apart p c q d f : active s p c -> active s q d -> p <> q -> f ∈ ends c -> f ∈ ends d -> False;
  inv_pool_apart fd p c : is_Some (m_conns s !! fd) -> active s p c -> fd ∈ ends c -> False;
}.

Lemma elem_of_ends f c : f ∈ ends c <-> f = m_cltfd c \/ f = m_srvfd c.
Proof. unfold ends. rewrite !elem_of_cons, elem_of_nil. tauto. Qed.

Lemma relays_open n c f : relays n c -> f ∈ ends c -> is_Some (n !! f).
Proof. intros (_ & _ & _ & kc & ks & Ec & Es & _) [->| ->]%elem_of_ends; eauto. Qed.

(** Only the sockets of one connection have changed. *)
Lemma relays_apart n n' c d :
  relays n d -> (forall g, g ∉ ends c -> n' !! g = n !! g) -> (forall f, f ∈ ends c -> f ∈ ends d -> False) -> relays n' d.
Proof.
  intros (H1 & H2 & Hne & kc & ks & Ec & Es & G) Hn Hd. do 3 (split; [done|]). exists kc, ks.
  rewrite !Hn; [done| |]; intros Hf; apply (Hd _ Hf), elem_of_ends; auto.
Qed.

Lemma touches_ends n n' c g : touches n n' c -> g ∉ ends c -> n' !! g = n !! g.
Proof. intros [H _]. rewrite elem_of_ends. intros Hg. apply H; tauto. Qed.

(** What a descriptor is registered for and what was reported play no part. *)
Lemma inv_ext s s' :
  heap s' = heap s -> m_conns s' = m_conns s -> m_used s' = m_used s -> m_freed s' = m_freed s -> net s' = net s -> inv s -> inv s'.
Proof. destruct s, s'. cbn. intros -> -> -> -> -> [H1 H2 H3 H4 H5 H6 H7 H8 H9]. constructor; done. Qed.

(** A connection in use works on its sockets. *)
Lemma inv_work s s' p c c' :
  inv s -> active s p c -> heap s' = <[p := c']> (heap s) -> m_conns s' = m_conns s -> m_used s' = m_used s -> m_freed s' = m_freed s ->
  relays (net s') c' -> touches (net s) (net s') c -> ends c' = ends c -> inv s'.
Proof.
  intros H Hp Eh Ec Eu Ef Hr Ht Hends. pose proof Hp as [[fd0 Hu] Hc].
  assert (Hold : forall q d, active s' q d -> (q = p /\ d = c') \/ (q <> p /\ active s q d)).
  { intros q d [Hq Hd]. rewrite Eu in Hq. rewrite Eh in Hd. destruct (decide (q = p)) as [->|Hne].
    - rewrite lookup_insert_eq in Hd. injection Hd as <-. by left.
    - rewrite lookup_insert_ne in Hd by congruence. right. done. }
  constructor; rewrite ?Ec, ?Eu, ?Ef.
  - intros fd x Hx. destruct (inv_pool s H fd x Hx) as (q & d & k & -> & Hd & H1 & H2 & H3 & H4). exists q, d, k.
    assert (q <> p) by (intros ->; by eapply (inv_pool_used s H)). rewrite Eh, lookup_insert_ne by congruence.
    rewrite (touches_ends _ _ _ _ Ht); [done|]. intros Hf. by eapply (inv_pool_apart s H).
  - intros fd q Hq. rewrite Eh. destruct (inv_used s H fd q Hq) as (d & Hd & Hf). destruct (decide (q = p)) as [->|Hne].
    + exists c'. rewrite lookup_insert_eq, Hends. split; [done|]. congruence.
    + exists d. by rewrite lookup_insert_ne by congruence.
  - intros q d Hq. destruct (Hold q d Hq) as [[-> ->]|[Hne Hq']]; [done|]. eapply relays_apart; [by apply (inv_active s H q)|by intros g; apply touches_ends|].
    intros f Hf Hf'. by eapply (inv_apart s H p c q d f).
  - intros fd x Hx. destruct (inv_freed s H fd x Hx) as (q & d & -> & Hd & H1 & H2). exists q, d.
    assert (q <> p) by (intros ->; by eapply (inv_used_freed s H)). by rewrite Eh, lookup_insert_ne by congruence.
  - apply (inv_pool_used s H).
  - apply (inv_pool_freed s H).
  - apply (inv_used_freed s H).
  - intros q1 d1 q2 d2 f A1 A2 Hne F1 F2. destruct (Hold _ _ A1) as [[-> ->]|[N1 B1]], (Hold _ _ A2) as [[-> ->]|[N2 B2]];
      rewrite ?Hends in *; [done|by eapply (inv_apart s H p c q2 d2 f)|by eapply (inv_apart s H q1 d1 p c f)|by eapply (inv_apart s H q1 d1 q2 d2 f)].
  - intros fd q d Hx A F. destruct (Hold _ _ A) as [[-> ->]|[N B]]; rewrite ?Hends in F; by eapply (inv_pool_apart s H).
Qed.

(** A connection is freed. *)
Lemma empty_half_ok : half_ok empty_half /\ pending empty_half = [].
Proof. split; [|done]. split; [done|]. unfold BUF_SIZE. cbn. lia. Qed.

Lemma reset_clean c : clean (reset c).
Proof. destruct empty_half_ok. by repeat split. Qed.

Lemma insert_Some (m : table) k v fd x : insert_ m k v !! fd = Some x -> m !! fd = Some x \/ (fd = k /\ x = v /\ m !! k = None).
Proof.
  unfold insert_. destruct (m !! k) eqn:E; [by left|]. destruct (decide (fd = k)) as [->|Hne].
  - rewrite lookup_insert_eq. intros [= <-]. by right.
  - rewrite lookup_insert_ne by congruence. by left.
Qed.

Lemma free_conn_inv s p c : inv s -> active s p c -> exists s', free_conn s p = Ok s' /\ inv s'.
Proof.
  intros H Hp. pose proof Hp as [[fd0 Hu] Hc]. unfold free_conn, get_conn. rewrite Hc. cbn [mbind outcome_bind]. cbv zeta.
  eexists. split; [done|]. set (s' := set_freed _ _).
  assert (Hused : forall fd q, m_used s' !! fd = Some (Some q) -> m_used s !! fd = Some (Some q) /\ (fd ∉ ends c) /\ q <> p).
  { intros fd q. cbn. rewrite !lookup_delete_Some. intros (N1 & N2 & Hq). split; [done|]. split; [rewrite elem_of_ends; naive_solver|].
    intros ->. destruct (inv_used s H fd p Hq) as (d & Hd & Hf). assert (d = c) as -> by congruence. apply elem_of_ends in Hf. naive_solver. }
  assert (Hnet : forall g, g ∉ ends c -> net s' !! g = net s !! g).
  { intros g Hg. rewrite elem_of_ends in Hg. cbn. rewrite !lookup_delete_ne by naive_solver. done. }
  assert (Hheap : forall q, q <> p -> heap s' !! q = heap s !! q) by (intros q Hq; cbn; by rewrite lookup_insert_ne by congruence).
  assert (Hold : forall q d, active s' q d -> q <> p /\ active s q d).
  { intros q d [[fd Hq] Hd]. destruct (Hused fd q Hq) as (Hq' & _ & Hne). rewrite Hheap in Hd by done. split; [done|]. split; [eauto|done]. }
  constructor.
  - intros fd x Hx. destruct (inv_pool s H fd x Hx) as (q & d & k & -> & Hd & H1 & H2 & H3 & H4). exists q, d, k.
    assert (q <> p) by (intros ->; by eapply (inv_pool_used s H)). rewrite Hheap by done.
    rewrite Hnet; [done|]. intros Hf. by eapply (inv_pool_apart s H).
  - intros fd q Hq. destruct (Hused fd q Hq) as (Hq' & _ & Hne). rewrite Hheap by done. by apply (inv_used s H).
  - intros q d Hq. destruct (Hold q d Hq) as [Hne Hq']. eapply relays_apart; [by apply (inv_active s H q)|exact Hnet|].
    intros f Hf Hf'. by eapply (inv_apart s H p c q d f).
  - intros fd x [Hx|(-> & -> & _)]%insert_Some.
    + destruct (inv_freed s H fd x Hx) as (q & d & -> & Hd & H1 & H2). exists q, d.
      assert (q <> p) by (intros ->; by eapply (inv_used_freed s H)). by rewrite Hheap.
    + exists p, (reset c). cbn. rewrite lookup_insert_eq. do 3 (split; [done|]). apply reset_clean.
  - intros fd g q Hq Hg. destruct (Hused g q Hg) as (Hq' & _). by eapply (inv_pool_used s H).
  - intros fd g q Hq [Hg|(-> & [= ->] & _)]%insert_Some; [by eapply (inv_pool_freed s H)|]. by eapply (inv_pool_used s H).
  - intros fd g q Hq [Hg|(-> & [= ->] & _)]%insert_Some.
    + destruct (Hused fd q Hq) as (Hq' & _). by eapply (inv_used_freed s H).
    + by destruct (Hused fd p Hq) as (_ & _ & ?).
  - intros q1 d1 q2 d2 f A1 A2 Hne. destruct (Hold _ _ A1) as [_ B1], (Hold _ _ A2) as [_ B2]. by eapply (inv_apart s H).
  - intros fd q d Hx A. destruct (Hold _ _ A) as [_ B]. by eapply (inv_pool_apart s H).
Qed.

(** A null pointer in the table of connections in use. *)
Lemma inv_null s fd : inv s -> m_used s !! fd = None -> inv (set_used s (<[fd := None]> (m_used s))).
Proof.
  intros H Hn. assert (Hu : forall g q, <[fd := None]> (m_used s) !! g = Some (Some q) -> m_used s !! g = Some (Some q)).
  { intros g q. destruct (decide (g = fd)) as [->|Hne]; [by rewrite lookup_insert_eq|by rewrite lookup_insert_ne by congruence]. }
  assert (Ha : forall q d, active (set_used s (<[fd := None]> (m_used s))) q d -> active s q d).
  { intros q d [[g Hg] Hd]. split; [|done]. eauto. }
  constructor; cbn.
  - apply (inv_pool s H).
  - intros g q Hg. by eapply (inv_used s H), Hu.
  - intros q d Hq. by eapply (inv_active s H), Ha.
  - apply (inv_freed s H).
  - intros g1 g2 q H1 H2. by eapply (inv_pool_used s H); [|apply Hu].
  - apply (inv_pool_freed s H).
  - intros g1 g2 q H1 H2. by eapply (inv_used_freed s H); [apply Hu|].
  - intros q1 d1 q2 d2 f A1 A2. by eapply (inv_apart s H); apply Ha.
  - intros g q d Hx A. by eapply (inv_pool_apart s H); [|apply Ha].
Qed.

(** ** Events on a connection in use *)

Lemma active_put s s' p c c' : active s p c -> m_used s' = m_used s -> heap s' = <[p := c']> (heap s) -> active s' p c'.
Proof. intros [Hu _] Eu Eh. split; [by rewrite Eu|]. by rewrite Eh, lookup_insert_eq. Qed.

Definition good (r : outcome (mgr * RET_CODE)) : Prop := exists s' x, r = Ok (s', x) /\ inv s'.

Lemma close_conn_good s p c : inv s -> active s p c -> good (close_conn s p).
Proof. intros H Hp. destruct (free_conn_inv s p c H Hp) as (s' & E & H'). unfold close_conn. rewrite E. by exists s', CLOSED. Qed.

Lemma after_clt_good s p c : inv s -> active s p c -> good (after_clt s p).
Proof.
  intros H Hp. pose proof Hp as [_ Hc]. unfold after_clt, get_conn. rewrite Hc. cbn [mbind outcome_bind].
  destruct (m_srv_closed c); [by eapply close_conn_good|]. by exists s, OK.
Qed.

(** After a connection has worked on its sockets, with any registrations. *)
Lemma worked s p c n c' e :
  inv s -> active s p c -> relays n c' -> touches (net s) n c -> same_ends c c' ->
  let s' := set_epoll (put_conn (set_net s n) p c') e in inv s' /\ active s' p c'.
Proof.
  intros H Hp Hr Ht (E1 & E2 & _) s'. split.
  - apply (inv_work s s' p c c'); try done. unfold ends. by rewrite E1, E2.
  - by eapply active_put.
Qed.

Lemma set_epoll_same s : set_epoll s (epoll s) = s.
Proof. by destruct s. Qed.

Lemma relays_closed n c b : relays n c -> relays n (set_srv_closed c b).
Proof. done. Qed.

Lemma process_clt_good s p c fd type : inv s -> active s p c -> good (process_clt s p c fd type).
Proof.
  intros H Hp. pose proof (inv_active s H p c Hp) as Hr. unfold process_clt. destruct type; [| |by exists s, OK].
  - destruct (read_clt_relays (net s) c Hr) as (n & c' & r & E & Hr' & Ht & He). rewrite E. cbn [mbind outcome_bind]. cbv zeta.
    assert (Hw := fun e => worked s p c n c' e H Hp Hr' Ht He). cbv zeta in Hw. set (s1 := put_conn (set_net s n) p c') in *.
    pose proof (Hw (epoll s1)) as [Hi Ha]. rewrite set_epoll_same in Hi, Ha.
    destruct r; try (by eapply after_clt_good); try (by eapply close_conn_good); by eapply after_clt_good; apply Hw.
  - destruct (write_clt_relays (net s) c Hr) as (n & c' & r & E & Hr' & Ht & He & _). rewrite E. cbn [mbind outcome_bind]. cbv zeta.
    assert (Hw := fun e => worked s p c n c' e H Hp Hr' Ht He). cbv zeta in Hw. set (s1 := put_conn (set_net s n) p c') in *.
    pose proof (Hw (epoll s1)) as [Hi Ha]. rewrite set_epoll_same in Hi, Ha.
    destruct r; try (by eapply after_clt_good); try (by eapply close_conn_good); by eapply after_clt_good; apply Hw.
Qed.

(** The end of the server's stream is noted. *)
Lemma noted s p c n c' e :
  inv s -> active s p c -> relays n c' -> touches (net s) n c -> same_ends c c' ->
  inv (put_conn (set_epoll (put_conn (set_net s n) p c') e) p (set_srv_closed c' true)).
Proof.
  intros H Hp Hr Ht He. destruct (worked s p c n c' e H Hp Hr Ht He) as [H' Hp'].
  eapply (inv_work _ _ p c' (set_srv_closed c' true) H' Hp'); try done. 
Qed.

Lemma process_srv_good s p c fd type : inv s -> active s p c -> good (process_srv s p c fd type).
Proof.
  intros H Hp. pose proof (inv_active s H p c Hp) as Hr. unfold process_srv. destruct type; [| |by exists s, OK].
  - destruct (read_srv_relays (net s) c Hr) as (n & c' & r & E & Hr' & Ht & He). rewrite E. cbn [mbind outcome_bind]. cbv zeta.
    assert (Hw := fun e => worked s p c n c' e H Hp Hr' Ht He). cbv zeta in Hw. assert (Hnote := fun e => noted s p c n c' e H Hp Hr' Ht He).
    set (s1 := put_conn (set_net s n) p c') in *. pose proof (Hw (epoll s1)) as [Hi Ha]. rewrite set_epoll_same in Hi, Ha.
    destruct r; eexists _, OK; (split; [done|]); try done; try apply Hnote; apply Hw.
  - destruct (write_srv_relays (net s) c Hr) as (n & c' & r & E & Hr' & Ht & He & _). rewrite E. cbn [mbind outcome_bind]. cbv zeta.
    assert (Hw := fun e => worked s p c n c' e H Hp Hr' Ht He). cbv zeta in Hw. assert (Hnote := fun e => noted s p c n c' e H Hp Hr' Ht He).
    set (s1 := put_conn (set_net s n) p c') in *. pose proof (Hw (epoll s1)) as [Hi Ha]. rewrite set_epoll_same in Hi, Ha.
    destruct r; eexists _, OK; (split; [done|]); try done; try apply Hnote; apply Hw.
Qed.

Lemma process_good s fd type : inv s -> good (process s fd type).
Proof.
  intros H. unfold process. destruct (m_used s !! fd) as [[p|]|] eqn:E.
  - destruct (inv_used s H fd p E) as (c & Hc & _). assert (Hp : active s p c) by (split; eauto).
    unfold get_conn. rewrite Hc. cbn [mbind outcome_bind].
    destruct (decide (m_cltfd c = fd)); [by apply process_clt_good|]. destruct (decide (m_srvfd c = fd)); [by apply process_srv_good|].
    by exists s, NOTHING.
  - by exists s, NOTHING.
  - eexists _, NOTHING. split; [done|]. by apply inv_null.
Qed.

(** ** New sockets *)

(** A new descriptor is none of those in use. *)
Lemma new_fd_apart s fd : inv s -> net s !! fd = None -> m_conns s !! fd = None /\ forall p c, active s p c -> fd ∉ ends c.
Proof.
  intros H Hn. split.
  - destruct (m_conns s !! fd) as [x|] eqn:E; [|done]. destruct (inv_pool s H fd x E) as (p & c & k & _ & _ & _ & _ & Hk & _). congruence.
  - intros p c Hp Hf. destruct (relays_open _ _ _ (inv_active s H p c Hp) Hf) as [k Hk]. congruence.
Qed.

Lemma relays_insert n c fd k : relays n c -> fd ∉ ends c -> relays (<[fd := k]> n) c.
Proof.
  intros (H1 & H2 & Hne & kc & ks & Ec & Es & G) Hf. rewrite elem_of_ends in Hf. do 3 (split; [done|]). exists kc, ks.
  rewrite !lookup_insert_ne by naive_solver. done.
Qed.

(** A connection gets a new socket to the server and goes into the pool. *)
Lemma inv_pooled s s' p c fd k :
  inv s -> net s !! fd = None -> (forall g, m_used s !! g <> Some (Some p)) -> (forall g, m_conns s !! g <> Some (Some p)) ->
  (forall g, m_freed s !! g <> Some (Some p)) -> heap s' = <[p := c]> (heap s) -> m_conns s' = insert_ (m_conns s) fd (Some p) ->
  m_used s' = m_used s -> m_freed s' = m_freed s -> net s' = <[fd := k]> (net s) -> got k = [] -> sent k = [] ->
  m_srvfd c = fd -> clean c -> inv s'.
Proof.
  intros H Hfd Nu Nc Nf Eh Ec Eu Ef En Hg Hs Hsrv Hcl. destruct (new_fd_apart s fd H Hfd) as [Hfree Hap].
  assert (Hheap : forall q, q <> p -> heap s' !! q = heap s !! q) by (intros q Hq; rewrite Eh; by rewrite lookup_insert_ne by congruence).
  assert (Hold : forall q d, active s' q d -> q <> p /\ active s q d).
  { intros q d [[g Hq] Hd]. rewrite Eu in Hq. assert (q <> p) by (intros ->; by apply (Nu g)). rewrite Hheap in Hd by done.
    split; [done|]. split; [eauto|done]. }
  constructor; rewrite ?Eu, ?Ef, ?Ec.
  - intros g x [Hx|(-> & -> & _)]%insert_Some.
    + destruct (inv_pool s H g x Hx) as (q & d & k' & -> & Hd & H1 & H2 & H3 & H4). exists q, d, k'.
      rewrite Hheap by (intros ->; by apply (Nc g)). rewrite En, lookup_insert_ne by congruence. done.
    + exists p, c, k. rewrite Eh, En, !lookup_insert_eq. done.
  - intros g q Hq. rewrite Hheap by (intros ->; by apply (Nu g)). by apply (inv_used s H).
  - intros q d Hq. destruct (Hold q d Hq) as [_ Hq']. rewrite En. apply relays_insert; [by apply (inv_active s H q)|by apply (Hap q)].
  - intros g x Hx. destruct (inv_freed s H g x Hx) as (q & d & -> & Hd & H1). exists q, d.
    rewrite Hheap by (intros ->; by apply (Nf g)). done.
  - intros g1 g2 q [Hq|(_ & [= ->] & _)]%insert_Some Hg2; [by eapply (inv_pool_used s H)|by apply (Nu g2)].
  - intros g1 g2 q [Hq|(_ & [= ->] & _)]%insert_Some Hg2; [by eapply (inv_pool_freed s H)|by apply (Nf g2)].
  - apply (inv_used_freed s H).
  - intros q1 d1 q2 d2 f A1 A2. destruct (Hold _ _ A1) as [_ B1], (Hold _ _ A2) as [_ B2]. by eapply (inv_apart s H).
  - intros g q d [x Hx] A. destruct (Hold _ _ A) as [_ B]. apply insert_Some in Hx as [Hx|(-> & _ & _)].
    + eapply (inv_pool_apart s H); [eauto|done].
    + by apply (Hap q).
Qed.

(** A connection of the pool is joined to the client that was accepted. *)
Lemma inv_joined s s' p c fd rs ss srvfd addr :
  inv s -> net s !! fd = None -> m_conns s !! srvfd = Some (Some p) -> heap s !! p = Some c ->
  heap s' = <[p := init_clt c fd addr]> (heap s) -> m_conns s' = base.delete srvfd (m_conns s) ->
  m_used s' = insert_ (insert_ (m_used s) fd (Some p)) srvfd (Some p) -> m_freed s' = m_freed s ->
  net s' = <[fd := new_sock rs ss]> (net s) -> inv s'.
Proof.
  intros H Hfd Hp Hc Eh Ec Eu Ef En. destruct (new_fd_apart s fd H Hfd) as [Hfree Hap].
  destruct (inv_pool s H srvfd _ Hp) as (p' & c' & ks & [= <-] & Hc' & Hsrv & (C1 & C2 & C3 & C4) & Hks & Gk & Sk).
  assert (c' = c) as -> by congruence. assert (Hne : fd <> srvfd) by congruence.
  assert (Hused : forall g q, m_used s' !! g = Some (Some q) -> (q = p /\ (g = fd \/ g = srvfd)) \/ (q <> p /\ m_used s !! g = Some (Some q))).
  { intros g q. rewrite Eu. intros [[Hq|(-> & [= ->] & _)]%insert_Some|(-> & [= ->] & _)]%insert_Some; [|by left; auto|by left; auto].
    right. split; [|done]. intros ->. by eapply (inv_pool_used s H). }
  assert (Hheap : forall q, q <> p -> heap s' !! q = heap s !! q) by (intros q Hq; rewrite Eh; by rewrite lookup_insert_ne by congruence).
  assert (Hold : forall q d, active s' q d -> (q = p /\ d = init_clt c fd addr) \/ (q <> p /\ active s q d)).
  { intros q d [[g Hq] Hd]. destruct (Hused g q Hq) as [[-> _]|[N Hq']].
    - rewrite Eh, lookup_insert_eq in Hd. injection Hd as <-. by left.
    - rewrite Hheap in Hd by done. right. split; [done|]. split; [eauto|done]. }
  assert (Hends : forall f, f ∈ ends (init_clt c fd addr) <-> f = fd \/ f = srvfd) by (intros f; rewrite elem_of_ends; cbn; by rewrite Hsrv).
  assert (Hnew : forall f q d, f ∈ ends (init_clt c fd addr) -> active s q d -> f ∈ ends d -> False).
  { intros f q d [->| ->]%Hends Hq Hf; [by apply (Hap q d)|]. eapply (inv_pool_apart s H); [|exact Hq|exact Hf]. eauto. }
  constructor; rewrite ?Ef, ?Ec.
  - intros g x [Ng Hx]%lookup_delete_Some. destruct (inv_pool s H g x Hx) as (q & d & k' & -> & Hd & H1 & H2 & H3 & H4). exists q, d, k'.
    rewrite Hheap by (intros ->; congruence). rewrite En, lookup_insert_ne by congruence. done.
  - intros g q Hq. destruct (Hused g q Hq) as [[-> Hg]|[N Hq']].
    + exists (init_clt c fd addr). rewrite Eh, lookup_insert_eq. split; [done|]. by apply Hends.
    + rewrite Hheap by done. by apply (inv_used s H).
  - intros q d Hq. rewrite En. destruct (Hold q d Hq) as [[-> ->]|[N Hq']].
    + split; [done|]. split; [done|]. cbn. rewrite Hsrv. split; [done|]. exists (new_sock rs ss), ks.
      rewrite lookup_insert_eq, lookup_insert_ne by done. rewrite Gk, Sk, C3, C4. done.
    + apply relays_insert; [by apply (inv_active s H q)|by apply (Hap q)].
  - intros g x Hx. destruct (inv_freed s H g x Hx) as (q & d & -> & Hd & H1). exists q, d.
    rewrite Hheap by (intros ->; by eapply (inv_pool_freed s H)). done.
  - intros g1 g2 q [N1 H1]%lookup_delete_Some H2. destruct (Hused g2 q H2) as [[-> _]|[N Hq']]; [|by eapply (inv_pool_used s H)].
    destruct (inv_pool s H g1 _ H1) as (p' & c' & _ & [= <-] & Hc'' & Hs1 & _). congruence.
  - intros g1 g2 q [N1 H1]%lookup_delete_Some. by apply (inv_pool_freed s H) with (1 := H1).
  - intros g1 g2 q H1 H2. destruct (Hused g1 q H1) as [[-> _]|[N Hq']]; [by eapply (inv_pool_freed s H)|by eapply (inv_used_freed s H)].
  - intros q1 d1 q2 d2 f A1 A2 Nq F1 F2. destruct (Hold _ _ A1) as [[-> ->]|[N1 B1]], (Hold _ _ A2) as [[-> ->]|[N2 B2]];
      [done|by eapply Hnew|by eapply Hnew|by eapply (inv_apart s H q1 d1 q2 d2 f)].
  - intros g q d [x [Ng Hx]%lookup_delete_Some] A F. destruct (Hold _ _ A) as [[-> ->]|[N B]].
    + apply Hends in F as [->| ->]; [congruence|done].
    + eapply (inv_pool_apart s H); [eauto|exact B|exact F].
Qed.

(** ** The event loop *)

Lemma entries_perm m : entries m ≡ₚ map_to_list m.
Proof. apply merge_sort_Permutation. Qed.

Lemma entries_in m fd x : (fd, x) ∈ entries m -> m !! fd = Some x.
Proof. rewrite entries_perm. by rewrite elem_of_map_to_list. Qed.

Lemma add_read_fd_ext s fd :
  heap (add_read_fd s fd) = heap s /\ m_conns (add_read_fd s fd) = m_conns s /\ m_used (add_read_fd s fd) = m_used s /\
  m_freed (add_read_fd s fd) = m_freed s /\ net (add_read_fd s fd) = net s.
Proof. unfold add_read_fd. by destruct (net s !! fd), (epoll s !! fd). Qed.

(** The descriptors that [connect] and [accept] give are not open. *)
Definition new_fd (n : sockets) (a : answer) : Prop :=
  match a with None => True | Some (fd, _, _) => 0 <= fd /\ n !! fd = None end.

Fixpoint new_fds (n : sockets) (answers : list answer) : Prop :=
  match answers with
  | [] => True
  | a :: answers => new_fd n a /\ new_fds (match a with None => n | Some (fd, rs, ss) => <[fd := new_sock rs ss]> n end) answers
  end.

Lemma accept_client_inv s a addr : inv s -> new_fd (net s) a -> exists s', accept_client s a addr = Ok s' /\ inv s'.
Proof.
  intros H Ha. unfold accept_client. destruct a as [[[fd rs] ss]|]; cbn [open_fd]; [|by exists s].
  destruct Ha as [Hpos Hfd]. rewrite bool_decide_false by lia. set (s1 := set_net s _). cbv zeta.
  destruct (add_read_fd_ext s1 fd) as (A1 & A2 & A3 & A4 & A5). set (s2 := add_read_fd s1 fd) in *. unfold pick_conn. rewrite A2.
  assert (Hclose : inv (closefd s2 fd)).
  { eapply inv_ext; [| | | | |exact H]; try done. cbn. rewrite A5. cbn. by apply delete_insert_id. }
  change (m_conns s1) with (m_conns s). destruct (entries (m_conns s)) as [|[srvfd [p|]] l] eqn:El; [by eexists| |by eexists].
  assert (Hp : m_conns s !! srvfd = Some (Some p)) by (apply entries_in; rewrite El; apply elem_of_cons; by left).
  destruct (inv_pool s H srvfd _ Hp) as (p' & c & _ & [= <-] & Hc & _). cbv zeta.
  set (s3 := set_used (set_used _ _) _). destruct (add_read_fd_ext s3 fd) as (B1 & B2 & B3 & B4 & B5). set (s4 := add_read_fd s3 fd) in *.
  destruct (add_read_fd_ext s4 srvfd) as (C1 & C2 & C3 & C4 & C5). set (s5 := add_read_fd s4 srvfd) in *.
  assert (E5 : heap s5 = heap s) by (rewrite C1, B1; exact A1). unfold get_conn. rewrite E5, Hc. cbn [mbind outcome_bind].
  eexists. split; [done|]. apply (inv_joined s _ p c fd rs ss srvfd addr H Hfd Hp Hc); cbn.
  - by rewrite E5.
  - by rewrite C2, B2.
  - rewrite C3, B3. cbn. by rewrite A3.
  - rewrite C4, B4. exact A4.
  - rewrite C5, B5. exact A5.
Qed.

(** Fewer connections wait for a new socket. *)
Lemma inv_fewer s m : inv s -> m ⊆ m_freed s -> inv (set_freed s m).
Proof.
  intros [H1 H2 H3 H4 H5 H6 H7 H8 H9] Hm. constructor; try done; cbn.
  - intros fd x Hx. eapply H4, lookup_weaken; done.
  - intros fd g p Hp Hg. eapply H6; [exact Hp|]. by eapply lookup_weaken.
  - intros fd g p Hp Hg. eapply H7; [exact Hp|]. by eapply lookup_weaken.
Qed.

Lemma recycle_loop_inv l : forall s answers,
  inv (set_freed s (list_to_map l)) -> NoDup l.*1 -> new_fds (net s) answers ->
  exists s', recycle_loop s l answers = Ok s' /\ inv (set_freed s' ∅).
Proof.
  induction l as [|[fd x] l IH]; intros s answers H Hnd Hnew; [by exists s|]. apply NoDup_cons in Hnd as [Hin Hnd].
  destruct (inv_freed _ H fd x) as (p & c & -> & Hc & Hsrv & Hcl); [apply lookup_insert_eq|]. cbn in Hc.
  assert (Hl : list_to_map (M := table) l !! fd = None) by (by apply not_elem_of_list_to_map_1).
  assert (H0 : inv (set_freed s (list_to_map l))).
  { apply (inv_fewer (set_freed s (list_to_map ((fd, Some p) :: l))) (list_to_map l) H). by apply insert_subseteq. }
  assert (Hp : forall g, m_freed (set_freed s (list_to_map ((fd, Some p) :: l))) !! g = Some (Some p) -> g = fd).
  { intros g Hg. destruct (inv_freed _ H g _ Hg) as (p' & c' & [= <-] & Hc' & Hs & _). cbn in Hc'. congruence. }
  cbn [recycle_loop]. unfold get_conn. rewrite Hc. cbn [mbind outcome_bind]. unfold conn2srv.
  assert (Hnew' : new_fd (net s) (mjoin (head answers)) /\
    new_fds (match mjoin (head answers) with None => net s | Some (fd, rs, ss) => <[fd := new_sock rs ss]> (net s) end) (tail answers))
    by (destruct answers as [|a answers]; [done|]; cbn in *; by destruct a).
  destruct Hnew' as [Ha Hnew']. destruct (mjoin (head answers)) as [[[srvfd rs] ss]|]; cbn [open_fd].
  - destruct Ha as [Hpos Hfd]. rewrite bool_decide_false by lia. cbv zeta. apply IH; [|done|done].
    apply (inv_pooled (set_freed s (list_to_map l)) _ p (init_srv c srvfd (m_srv_address c)) srvfd (new_sock rs ss) H0); try done; cbn.
    + intros g Hg. eapply (inv_used_freed _ H g fd p); [done|apply lookup_insert_eq].
    + intros g Hg. eapply (inv_pool_freed _ H g fd p); [done|apply lookup_insert_eq].
    + intros g Hg. assert (g = fd) as ->; [|congruence]. apply Hp. cbn. rewrite lookup_insert_ne; [done|]. congruence.
  - rewrite bool_decide_true by lia. by apply IH.
Qed.

Lemma recycle_conns_inv s answers : inv s -> new_fds (net s) answers -> exists s', recycle_conns s answers = Ok s' /\ inv s'.
Proof.
  intros H Hnew. unfold recycle_conns. case_bool_decide; [by exists s|].
  destruct (recycle_loop_inv (entries (m_freed s)) s answers) as (s' & E & H').
  - replace (list_to_map (entries (m_freed s))) with (m_freed s); [by destruct s|]. rewrite <- (list_to_map_to_list (m_freed s)) at 1.
    apply list_to_map_proper; [apply NoDup_fst_map_to_list|]. by rewrite entries_perm.
  - rewrite entries_perm. apply NoDup_fst_map_to_list.
  - done.
  - rewrite E. by exists (set_freed s' ∅).
Qed.

Lemma build_conns_inv junk addr answers : forall s, inv s -> new_fds (net s) answers -> inv (build_conns junk addr s answers).
Proof.
  induction answers as [|a answers IH]; intros s H Hnew; [done|]. cbn [build_conns]. destruct Hnew as [Ha Hnew]. unfold conn2srv.
  destruct a as [[[fd rs] ss]|]; cbn [open_fd].
  - destruct Ha as [Hpos Hfd]. rewrite bool_decide_false by lia. cbv zeta. apply IH; [|done].
    set (p := fresh (dom (heap (set_net s (<[fd := new_sock rs ss]> (net s)))) : gset positive)).
    assert (Hp : heap s !! p = None) by (apply not_elem_of_dom; exact (is_fresh (dom (heap s) : gset positive))).
    apply (inv_pooled s _ p (init_srv (new_conn junk) fd addr) fd (new_sock rs ss) H); try done.
    + intros g Hg. destruct (inv_used s H g p Hg) as (c & Hc & _). congruence.
    + intros g Hg. destruct (inv_pool s H g _ Hg) as (p' & c & k & [= <-] & Hc & _). congruence.
    + intros g Hg. destruct (inv_freed s H g _ Hg) as (p' & c & [= <-] & Hc & _). congruence.
  - rewrite bool_decide_true by lia. by apply IH.
Qed.

Lemma empty_inv : inv (Mgr ∅ ∅ ∅ ∅ ∅ ∅ []).
Proof.
  constructor; try done.
  - intros p c [[fd Hf] _]. done.
  - intros p c q d f [[fd Hf] _]. done.
  - intros fd p c [x Hx]. done.
Qed.

Lemma traffic_inv s fd rs ss : inv s -> inv (set_net s (alter (fun k => Sock rs ss (got k) (sent k)) fd (net s))).
Proof.
  intros H. set (n := alter _ _ _).
  assert (Hn : forall g k, net s !! g = Some k -> exists k', n !! g = Some k' /\ got k' = got k /\ sent k' = sent k).
  { intros g k Hk. unfold n. rewrite lookup_alter. case_decide; [subst; rewrite Hk; by eexists|by exists k]. }
  destruct H as [H1 H2 H3 H4 H5 H6 H7 H8 H9]. constructor; try done.
  - intros g x Hx. destruct (H1 g x Hx) as (p & c & k & -> & Hc & Hs & Hcl & Hk & G & S). destruct (Hn g k Hk) as (k' & Hk' & G' & S').
    exists p, c, k'. cbn. rewrite G', S'. done.
  - intros p c Hp. destruct (H3 p c Hp) as (R1 & R2 & R3 & kc & ks & Ec & Es & G). destruct (Hn _ _ Ec) as (kc' & Ec' & Gc & Sc).
    destruct (Hn _ _ Es) as (ks' & Es' & Gs & Ss). do 3 (split; [done|]). exists kc', ks'. rewrite Gc, Sc, Gs, Ss. done.
Qed.

Definition possible (s : mgr) (e : event) : Prop :=
  match e with
  | NewClient a _ => new_fd (net s) a
  | Idle answers => new_fds (net s) answers
  | _ => True
  end.

Lemma run_child_inv s e : inv s -> possible s e -> exists s', run_child s e = Ok s' /\ inv s'.
Proof.
  intros H He. destruct e as [a addr|fd type|answers|fd rs ss]; cbn [run_child].
  - by apply accept_client_inv.
  - destruct (process_good s fd type H) as (s' & x & E & H'). rewrite E. cbn [mbind outcome_bind]. eexists. split; [done|].
    destruct (decide _); [|done]. by eapply inv_ext; [| | | | |exact H'].
  - by apply recycle_conns_inv.
  - eexists. split; [done|]. by apply traffic_inv.
Qed.

(** ** The runs of a child *)

Inductive reachable (junk : conn) (addr : Z) (answers : list answer) : mgr -> Prop :=
| Started : new_fds ∅ answers -> reachable junk addr answers (new_mgr junk addr answers)
| Stepped s e s' : reachable junk addr answers s -> possible s e -> run_child s e = Ok s' -> reachable junk addr answers s'.

Lemma reachable_inv junk addr answers s : reachable junk addr answers s -> inv s.
Proof.
  induction 1 as [Hnew|s e s' _ IH He E].
  - apply build_conns_inv; [apply empty_inv|done].
  - destruct (run_child_inv s e IH He) as (s1 & E1 & H1). congruence.
Qed.

(** Runs on given events. *)
#[global] Instance new_fd_dec n a : Decision (new_fd n a).
Proof. destruct a as [[[fd rs] ss]|]; cbn; apply _. Defined.
Fixpoint new_fds_dec n answers : Decision (new_fds n answers).
Proof. destruct answers as [|a answers]; [by left|]. apply and_dec; [apply _|apply new_fds_dec]. Defined.
#[global] Existing Instance new_fds_dec.
#[global] Instance possible_dec s e : Decision (possible s e).
Proof. destruct e; cbn; apply _. Defined.

Fixpoint run_events (s : mgr) (es : list event) : option mgr :=
  match es with
  | [] => Some s
  | e :: es =>
      if decide (possible s e) then match run_child s e with Ok s => run_events s es | Fault _ => None end else None
  end.

Lemma run_events_reachable junk addr answers es : forall s s',
  reachable junk addr answers s -> run_events s es = Some s' -> reachable junk addr answers s'.
Proof.
  induction es as [|e es IH]; intros s s' H; cbn; [by intros [= <-]|]. destruct (decide (possible s e)) as [He|]; [|done].
  destruct (run_child s e) as [s1|] eqn:E; [|done]. apply IH. by eapply Stepped.
Qed.

(** ** Properties *)

(** C11: The proxy relays exactly.  In every state that a child process reaches, whatever
    the clients, the server and [epoll] do, events for descriptors that were closed
    included, the next event is handled without a fault; for every connection in use
    what the server was sent is what its client sent, in order, up to the bytes still in
    the buffer, and likewise back; and no descriptor belongs to two connections, so no
    byte of one client reaches another. *)
Theorem proxy_relays_exactly junk addr answers s :
  reachable junk addr answers s ->
  (forall e, possible s e -> exists s', run_child s e = Ok s') /\
  (forall fd p, m_used s !! fd = Some (Some p) ->
     exists c kc ks, heap s !! p = Some c /\ fd ∈ ends c /\ net s !! m_cltfd c = Some kc /\ net s !! m_srvfd c = Some ks /\
       got kc = sent ks ++ pending (m_clt c) /\ got ks = sent kc ++ pending (m_srv c)) /\
  (forall p c q d f, active s p c -> active s q d -> p <> q -> f ∈ ends c -> f ∈ ends d -> False).
Proof.
  intros Hr. pose proof (reachable_inv _ _ _ _ Hr) as H. split; [|split].
  - intros e He. destruct (run_child_inv s e H He) as (s' & E & _). by exists s'.
  - intros fd p Hp. destruct (inv_used s H fd p Hp) as (c & Hc & Hf). destruct (inv_active s H p c) as (_ & _ & _ & kc & ks & Ec & Es & G1 & G2).
    { split; [eauto|done]. }
    by exists c, kc, ks.
  - apply (inv_apart s H).
Qed.

Definition junk_conn : conn := Conn empty_half 0 0 empty_half 0 0 true.

(** One connection to the server, and a client that sends three bytes, of which the
    server has taken two. *)
Definition three_bytes : list event :=
  [NewClient (Some (7, [Bytes [1; 2; 3]], [])) 99; Ready 7 READ; Traffic 5 [] [Room 2]; Ready 5 WRITE].

Definition one_server : mgr := new_mgr junk_conn 42 [Some (5, [], [])].

Lemma one_server_reachable : reachable junk_conn 42 [Some (5, [], [])] one_server.
Proof. apply Started. by_compute. Qed.

Lemma proxy_relays_exactly_witness :
  exists s, run_events one_server three_bytes = Some s /\
    exists p c kc ks, m_used s !! 7 = Some (Some p) /\ heap s !! p = Some c /\ net s !! 7 = Some kc /\ net s !! 5 = Some ks /\
      got kc = [1; 2; 3] /\ sent ks = [1; 2] /\ got kc = sent ks ++ pending (m_clt c).
Proof.
  destruct (run_events one_server three_bytes) as [s|] eqn:E; [|by vm_compute in E]. exists s. split; [done|].
  pose proof (run_events_reachable _ _ _ _ _ _ one_server_reachable E) as Hr.
  destruct (proxy_relays_exactly junk_conn 42 [Some (5, [], [])] s Hr) as (_ & H & _).
  assert (Hs : m_used s !! 7 = Some (Some 1%positive) /\ (m_cltfd <$> heap s !! 1%positive) = Some 7 /\
    (m_srvfd <$> heap s !! 1%positive) = Some 5 /\ (got <$> net s !! 7) = Some [1; 2; 3] /\ (sent <$> net s !! 5) = Some [1; 2]).
  { vm_compute in E. injection E as <-. by vm_compute. }
  clear E. destruct Hs as (Hu & Hcl & Hsv & Hg & Ht). destruct (H 7 1%positive Hu) as (c & kc & ks & Hc & _ & Ec & Es & G & _).
  rewrite Hc in Hcl, Hsv. cbn in Hcl, Hsv. injection Hcl as Hcl. injection Hsv as Hsv. rewrite Hcl in Ec. rewrite Hsv in Es.
  rewrite Ec in Hg. rewrite Es in Ht. cbn in Hg, Ht. injection Hg as Hg. injection Ht as Ht.
  by exists 1%positive, c, kc, ks.
Defined.

(** A client goes to a child that no other child is less busy than. *)
Lemma most_free_is_least l :
  l <> [] -> exists i x, get_most_free_srv l (Zlen l) = Ok i /\ rd l i = Ok x /\ forall j y, rd l j = Ok y -> x <= y.
Proof.
  intros Hl. assert (Hpos : 0 < Zlen l) by (destruct l; [done|]; unfold Zlen; cbn; lia).
  destruct (rd_in_range l 0 ltac:(lia)) as [r0 E0]. unfold get_most_free_srv. rewrite E0. cbn [mbind outcome_bind].
  set (P := fun (i : Z) (st : Z * Z) => rd l st.1 = Ok st.2 /\ forall j y, j < i -> rd l j = Ok y -> st.2 <= y).
  destruct (for_inv P (fun i '(idx, ratio) => r ← rd l i; Ok (if bool_decide (r < ratio) then (i, r) else (idx, ratio)))
    (Z.to_nat (Zlen l)) 0 (0, r0)) as ([idx ratio] & E & Hr & Hmin).
  - intros i [idx ratio] Hi [Hr Hmin]. destruct (rd_in_range l i ltac:(lia)) as [r Er]. rewrite Er. cbn [mbind outcome_bind].
    eexists. split; [done|]. cbn in Hr, Hmin. case_bool_decide; (split; [done|]); cbn; intros j y Hj Hy;
      (destruct (decide (j = i)) as [->|]; [|assert (j < i) as Hj' by lia; specialize (Hmin j y Hj' Hy)]);
      try lia; assert (y = r) by congruence; lia.
  - split; [done|]. intros j y Hj Hy. apply rd_range in Hy. lia.
  - cbn in Hr, Hmin. rewrite E. cbn [mbind outcome_bind]. exists idx, ratio. split; [done|]. split; [done|].
    intros j y Hy. apply (Hmin j y); [|done]. apply rd_range in Hy. lia.
Qed.

(** ** What goes wrong *)

(** The client closes and the server's descriptor is reported in the same batch: the
    second event leaves a null pointer in [m_used].  The connection is dialled again and
    gets the same descriptor; [insert] does not replace the null pointer, so the next
    client is joined to a server whose answers are never read. *)
Definition stale_event : list event :=
  [NewClient (Some (7, [Bytes []], [])) 99; Ready 7 READ; Ready 5 READ; Idle [Some (5, [], [])];
   NewClient (Some (7, [], [])) 99; Traffic 5 [Bytes [1]] []; Ready 5 READ].

Example stale_event_blocks :
  match run_events one_server stale_event with
  | Some s => m_used s !! 7 = Some (Some 1%positive) /\ m_used s !! 5 = Some None /\ (got <$> net s !! 5) = Some []
  | None => False
  end.
Proof. by vm_compute. Qed.

(** The server sends two bytes and closes; the client's socket has no room just then:
    the connection is freed with the bytes in its buffer. *)
Definition server_closes : list event :=
  [NewClient (Some (7, [], [])) 99; Traffic 5 [Bytes [1; 2]; Bytes []] []; Ready 5 READ].

Example unsent_bytes_are_dropped :
  match run_events one_server server_closes with
  | Some s =>
      (c ← heap s !! 1%positive; Some (pending (m_srv c))) = Some [1; 2] /\
      match run_child s (Ready 7 WRITE) with Ok s => net s !! 7 = None | Fault _ => False end
  | None => False
  end.
Proof. by vm_compute. Qed.

(** A connection that could not be dialled again is in no table any more. *)
Example failed_redial_loses_connection :
  match run_events one_server [NewClient (Some (7, [Bytes []], [])) 99; Ready 7 READ; Idle [None]] with
  | Some s => m_conns s = ∅ /\ m_used s = ∅ /\ m_freed s = ∅ /\ size (heap s) = 1%nat
  | None => False
  end.
Proof. by vm_compute. Qed.

(** Two notifications read by the parent at once are one number. *)
Example notifications_run_together : recv_busy_ratio [1; 2] = 513.
Proof. done. Qed.
