(* ===== verification/SnailConf.v ===== *)
(** * springsnail: the configuration file

    The part of [main] in src/src/Linux High Perfermance Server Program/codes/springsnail/main.cpp
    that reads the file with the address to listen on and the servers behind it.  The
    parser is shown to read back every list of servers that is written in the file's
    format. *)

From stdpp Require Import base numbers list list_numbers strings.
From S2P Require Import Prelude CStr.

#[local] Open Scope Z_scope.

(** ** The string functions it uses; a string is its characters *)

Fixpoint starts (pat s : list Z) : bool :=
  match pat, s with
  | [], _ => true
  | c :: pat, d :: s => bool_decide (c = d) && starts pat s
  | _, [] => false
  end.

(** [strstr( s, pat )]: the rest of [s] from the first [pat] on. *)
Fixpoint strstr (s pat : list Z) : option (list Z) :=
  if starts pat s then Some s
  else match s with [] => None | _ :: s => strstr s pat end.

(** The string up to a place in it, after a NUL was written there. *)
Definition upto (s rest : list Z) : list Z := take (length s - length rest) s.

(** ** The parser *)

Record host := Host { m_hostname : list Z; m_port : Z; m_conncnt : Z }.

Definition no_name : list Z := replicate 1024 0.

Definition set_name (h : host) x := Host x (m_port h) (m_conncnt h).
Definition set_port (h : host) x := Host (m_hostname h) x (m_conncnt h).
Definition set_conncnt (h : host) x := Host (m_hostname h) (m_port h) x.

Record conf := Conf { tmp_host : host; opentag : bool; balance_srv : list host; logical_srv : list host }.

Definition set_tmp (s : conf) x := Conf x (opentag s) (balance_srv s) (logical_srv s).

Definition HOST_OPEN : list Z := Eval cbv in text "<logical_host>".
Definition HOST_CLOSE : list Z := Eval cbv in text "</logical_host>".
Definition NAME_OPEN : list Z := Eval cbv in text "<name>".
Definition NAME_CLOSE : list Z := Eval cbv in text "</name>".
Definition PORT_OPEN : list Z := Eval cbv in text "<port>".
Definition PORT_CLOSE : list Z := Eval cbv in text "</port>".
Definition CONNS_OPEN : list Z := Eval cbv in text "<conns>".
Definition CONNS_CLOSE : list Z := Eval cbv in text "</conns>".
Definition LISTEN : list Z := Eval cbv in text "Listen".

(** One line; [None] is [return 1] with "parse config file failed". *)
Definition conf_line (s : conf) (tmp : list Z) : outcome (option conf) :=
  if strstr tmp HOST_OPEN is Some _ then
    if opentag s then Ok None else Ok (Some (Conf (tmp_host s) true (balance_srv s) (logical_srv s)))
  else if strstr tmp HOST_CLOSE is Some _ then
    if negb (opentag s) then Ok None
    else Ok (Some (Conf (set_name (tmp_host s) no_name) false (balance_srv s) (logical_srv s ++ [tmp_host s])))
  else match strstr tmp NAME_OPEN with
  | Some tmp3 =>
      let tmp_hostname := drop 6 tmp3 in
      match strstr tmp_hostname NAME_CLOSE with
      | None => Ok None
      | Some tmp4 =>
          name ← wr_slice (m_hostname (tmp_host s)) 0 (upto tmp_hostname tmp4);
          Ok (Some (set_tmp s (set_name (tmp_host s) name)))
      end
  | None =>
  match strstr tmp PORT_OPEN with
  | Some tmp3 =>
      let tmp_port := drop 6 tmp3 in
      match strstr tmp_port PORT_CLOSE with
      | None => Ok None
      | Some tmp4 => Ok (Some (set_tmp s (set_port (tmp_host s) (atoi (upto tmp_port tmp4)))))
      end
  | None =>
  match strstr tmp CONNS_OPEN with
  | Some tmp3 =>
      let tmp_conncnt := drop 7 tmp3 in
      match strstr tmp_conncnt CONNS_CLOSE with
      | None => Ok None
      | Some tmp4 => Ok (Some (set_tmp s (set_conncnt (tmp_host s) (atoi (upto tmp_conncnt tmp4)))))
      end
  | None =>
  match strstr tmp LISTEN with
  | Some tmp3 =>
      let tmp_hostname := drop 6 tmp3 in
      match strstr tmp_hostname [58] with
      | None => Ok None
      | Some tmp4 =>
          let h := set_port (tmp_host s) (atoi (drop 1 tmp4)) in
          name ← wr_slice (m_hostname h) 0 (upto tmp3 tmp4);
          let h := set_name h name in
          Ok (Some (Conf (set_name h no_name) (opentag s) (balance_srv s ++ [h]) (logical_srv s)))
      end
  | None => Ok (Some s)
  end end end end.

(** The text before the first line feed and the text behind it. *)
Fixpoint split_line (s : list Z) : option (list Z * list Z) :=
  match s with
  | [] => None
  | c :: s => if decide (c = 10) then Some ([], s) else '(l, r) ← split_line s; Some (c :: l, r)
  end.

(** The loop over the lines; a last line without line feed is not read. *)
Fixpoint conf_loop (fuel : nat) (s : conf) (tmp : list Z) : outcome (option conf) :=
  match fuel with
  | O => Fault OutOfFuel
  | S fuel =>
      match split_line tmp with
      | None => Ok (Some s)
      | Some (line, rest) =>
          r ← conf_line s line;
          match r with
          | None => Ok None
          | Some s => conf_loop fuel s rest
          end
      end
  end.

(** The file's text up to a NUL; the port and number of the first host are not set. *)
Definition read_conf (junk : host) (buf : list Z) : outcome (option conf) :=
  r ← conf_loop (S (length buf)) (Conf (set_name junk no_name) false [] []) buf;
  Ok (s ← r; if bool_decide (balance_srv s = []) || bool_decide (logical_srv s = []) then None else Some s).

(** ** Searching *)

Lemma starts_app pat s : starts pat (pat ++ s) = true.
Proof. induction pat as [|c pat IH]; [done|]. cbn. by rewrite bool_decide_true. Qed.

Lemma strstr_here pat s : strstr (pat ++ s) pat = Some (pat ++ s).
Proof. destruct (pat ++ s) as [|c l] eqn:E; cbn; rewrite <- E, starts_app; done. Qed.

Lemma starts_other c pat a s : c ∉ a -> a <> [] -> starts (c :: pat) (a ++ s) = false.
Proof. destruct a as [|d a]; [done|]. intros [Hd _]%not_elem_of_cons _. cbn. by rewrite bool_decide_false. Qed.

Lemma strstr_skip c pat a s : c ∉ a -> strstr (a ++ s) (c :: pat) = strstr s (c :: pat).
Proof.
  induction a as [|d a IH]; [done|]. intros Hc. change ((d :: a) ++ s) with (d :: a ++ s).
  pose proof (starts_other c pat (d :: a) s Hc ltac:(done)) as E. change ((d :: a) ++ s) with (d :: a ++ s) in E.
  cbn [strstr]. rewrite E. apply IH. by apply not_elem_of_cons in Hc as [_ ?].
Qed.

Lemma strstr_none c pat a : c ∉ a -> strstr a (c :: pat) = None.
Proof. intros Hc. rewrite <- (app_nil_r a), strstr_skip by done. done. Qed.

Lemma upto_app a b : upto (a ++ b) b = a.
Proof. unfold upto. rewrite length_app. replace (length a + length b - length b)%nat with (length a) by lia. apply take_app_length. Qed.

(** ** Lines *)

Lemma split_line_app l r : 10 ∉ l -> split_line (l ++ 10 :: r) = Some (l, r).
Proof.
  induction l as [|c l IH]; [done|]. intros [Hc Hl]%not_elem_of_cons. cbn. rewrite decide_False by congruence. by rewrite IH.
Qed.

(** Reading the file is reading its lines. *)
Fixpoint conf_lines (s : conf) (ls : list (list Z)) : outcome (option conf) :=
  match ls with
  | [] => Ok (Some s)
  | l :: ls =>
      r ← conf_line s l;
      match r with
      | None => Ok None
      | Some s => conf_lines s ls
      end
  end.

Definition unlines (ls : list (list Z)) : list Z := concat ((fun l => l ++ [10]) <$> ls).

Lemma conf_loop_lines ls : forall s fuel,
  Forall (fun l => 10 ∉ l) ls -> (length (unlines ls) < fuel)%nat -> conf_loop fuel s (unlines ls) = conf_lines s ls.
Proof.
  induction ls as [|l ls IH]; intros s fuel Hls Hf; (destruct fuel as [|fuel]; [lia|]); [done|].
  apply Forall_cons in Hls as [Hl Hls]. change (unlines (l :: ls)) with ((l ++ [10]) ++ unlines ls) in *. rewrite <- app_assoc in *.
  cbn [conf_loop]. change ([10] ++ unlines ls) with (10 :: unlines ls) in *. rewrite split_line_app by done.
  cbn [conf_lines]. destruct (conf_line s l) as [[s1|]|f]; cbn [mbind outcome_bind]; [|done..].
  apply IH; [done|]. rewrite length_app in Hf. cbn in Hf. lia.
Qed.

Lemma conf_lines_app s ls1 ls2 : forall s1, conf_lines s ls1 = Ok (Some s1) -> conf_lines s (ls1 ++ ls2) = conf_lines s1 ls2.
Proof.
  revert s. induction ls1 as [|l ls1 IH]; intros s s1; cbn; [by intros [= <-]|].
  destruct (conf_line s l) as [[s2|]|f]; cbn; [|done..]. apply IH.
Qed.

(** ** Files in the format *)

(** Texts that may stand between tags. *)
Definition plain (s : list Z) : Prop := Forall (fun c => c <> 60 /\ c <> 10 /\ c <> 0) s.

Lemma plain_notin s c : plain s -> c = 60 \/ c = 10 -> c ∉ s.
Proof. intros H Hc Hin. unfold plain in H. rewrite Forall_forall in H. specialize (H c Hin). lia. Qed.

(** The lines of a server, each with an indentation, and of the address to listen on. *)
Record server := Server { name_ : list Z; port_ : list Z; conns_ : list Z }.

Definition tag_line (ind open s close : list Z) : list Z := ind ++ open ++ s ++ close.

Definition server_lines (ind : list Z) (v : server) : list (list Z) :=
  [HOST_OPEN; tag_line ind NAME_OPEN (name_ v) NAME_CLOSE; tag_line ind PORT_OPEN (port_ v) PORT_CLOSE;
   tag_line ind CONNS_OPEN (conns_ v) CONNS_CLOSE; HOST_CLOSE].

Definition listen_line (ip port : list Z) : list Z := LISTEN ++ ip ++ 58 :: port.

Definition conf_text (ip port ind : list Z) (vs : list server) : list Z :=
  unlines (listen_line ip port :: concat (server_lines ind <$> vs)).

(** The record of a server, and of the address: with the word in front of it. *)
Definition host_of (v : server) : host := Host (splice no_name 0 (name_ v)) (atoi (port_ v)) (atoi (conns_ v)).

Definition fits (v : server) : Prop := plain (name_ v) /\ plain (port_ v) /\ plain (conns_ v) /\ (length (name_ v) <= 1024)%nat.

Lemma strstr_next pat d s : starts pat (d :: s) = false -> strstr (d :: s) pat = strstr s pat.
Proof. intros E. cbn [strstr]. by rewrite E. Qed.

(** No tag of another kind in a line. *)
Ltac other_tag :=
  unfold tag_line, HOST_OPEN, HOST_CLOSE, NAME_OPEN, NAME_CLOSE, PORT_OPEN, PORT_CLOSE, CONNS_OPEN, CONNS_CLOSE;
  rewrite strstr_skip by (apply plain_notin; [done|by left]); cbn [app];
  repeat (rewrite strstr_next by reflexivity);
  rewrite strstr_skip by (apply plain_notin; [done|by left]); reflexivity.

(** The text between the tags. *)
Lemma tag_line_open ind open s close : plain ind -> head open = Some 60 -> strstr (tag_line ind open s close) open = Some (open ++ s ++ close).
Proof.
  intros Hi Ho. destruct open as [|c open]; [done|]. injection Ho as ->. unfold tag_line.
  rewrite strstr_skip by (apply plain_notin; [done|by left]). apply strstr_here.
Qed.

Lemma tag_line_close s close : plain s -> head close = Some 60 -> strstr (s ++ close) close = Some close.
Proof.
  intros Hs Ho. destruct close as [|c close]; [done|]. injection Ho as ->. rewrite strstr_skip by (apply plain_notin; [done|by left]).
  rewrite <- (app_nil_r (60 :: close)) at 1. rewrite strstr_here. by rewrite app_nil_r.
Qed.

Lemma conf_line_name ind s n :
  plain ind -> plain n -> (length n <= 1024)%nat -> m_hostname (tmp_host s) = no_name ->
  conf_line s (tag_line ind NAME_OPEN n NAME_CLOSE) = Ok (Some (set_tmp s (set_name (tmp_host s) (splice no_name 0 n)))).
Proof.
  intros Hi Hn Hlen Hname. unfold conf_line.
  assert (E1 : strstr (tag_line ind NAME_OPEN n NAME_CLOSE) HOST_OPEN = None) by other_tag.
  assert (E2 : strstr (tag_line ind NAME_OPEN n NAME_CLOSE) HOST_CLOSE = None) by other_tag.
  rewrite E1, E2, (tag_line_open ind NAME_OPEN n NAME_CLOSE Hi eq_refl). cbv zeta.
  change (drop 6 (NAME_OPEN ++ n ++ NAME_CLOSE)) with (n ++ NAME_CLOSE).
  rewrite (tag_line_close n NAME_CLOSE Hn eq_refl), upto_app, Hname. rewrite wr_slice_in_range; [done|lia|].
  change (Zlen no_name) with 1024. unfold Zlen. lia.
Qed.

Lemma conf_line_port ind s n :
  plain ind -> plain n -> conf_line s (tag_line ind PORT_OPEN n PORT_CLOSE) = Ok (Some (set_tmp s (set_port (tmp_host s) (atoi n)))).
Proof.
  intros Hi Hn. unfold conf_line.
  assert (E1 : strstr (tag_line ind PORT_OPEN n PORT_CLOSE) HOST_OPEN = None) by other_tag.
  assert (E2 : strstr (tag_line ind PORT_OPEN n PORT_CLOSE) HOST_CLOSE = None) by other_tag.
  assert (E3 : strstr (tag_line ind PORT_OPEN n PORT_CLOSE) NAME_OPEN = None) by other_tag.
  rewrite E1, E2, E3, (tag_line_open ind PORT_OPEN n PORT_CLOSE Hi eq_refl). cbv zeta.
  change (drop 6 (PORT_OPEN ++ n ++ PORT_CLOSE)) with (n ++ PORT_CLOSE).
  by rewrite (tag_line_close n PORT_CLOSE Hn eq_refl), upto_app.
Qed.

Lemma conf_line_conns ind s n :
  plain ind -> plain n -> conf_line s (tag_line ind CONNS_OPEN n CONNS_CLOSE) = Ok (Some (set_tmp s (set_conncnt (tmp_host s) (atoi n)))).
Proof.
  intros Hi Hn. unfold conf_line.
  assert (E1 : strstr (tag_line ind CONNS_OPEN n CONNS_CLOSE) HOST_OPEN = None) by other_tag.
  assert (E2 : strstr (tag_line ind CONNS_OPEN n CONNS_CLOSE) HOST_CLOSE = None) by other_tag.
  assert (E3 : strstr (tag_line ind CONNS_OPEN n CONNS_CLOSE) NAME_OPEN = None) by other_tag.
  assert (E4 : strstr (tag_line ind CONNS_OPEN n CONNS_CLOSE) PORT_OPEN = None) by other_tag.
  rewrite E1, E2, E3, E4, (tag_line_open ind CONNS_OPEN n CONNS_CLOSE Hi eq_refl). cbv zeta.
  change (drop 7 (CONNS_OPEN ++ n ++ CONNS_CLOSE)) with (n ++ CONNS_CLOSE).
  by rewrite (tag_line_close n CONNS_CLOSE Hn eq_refl), upto_app.
Qed.

(** A server. *)
Lemma conf_server ind v h bs ls :
  plain ind -> fits v -> m_hostname h = no_name ->
  exists h', conf_lines (Conf h false bs ls) (server_lines ind v) = Ok (Some (Conf h' false bs (ls ++ [host_of v]))) /\ m_hostname h' = no_name.
Proof.
  intros Hi (H1 & H2 & H3 & H4) Hh. unfold server_lines. cbn [conf_lines].
  change (conf_line (Conf h false bs ls) HOST_OPEN) with (Ok (Some (Conf h true bs ls)) : outcome (option conf)). cbn [mbind outcome_bind].
  rewrite conf_line_name by done. cbn [mbind outcome_bind]. rewrite conf_line_port by done. cbn [mbind outcome_bind].
  rewrite conf_line_conns by done. cbn [mbind outcome_bind]. eexists. split; [done|]. done.
Qed.

Lemma conf_servers ind vs : forall h bs ls,
  plain ind -> Forall fits vs -> m_hostname h = no_name ->
  exists h', conf_lines (Conf h false bs ls) (concat (server_lines ind <$> vs)) = Ok (Some (Conf h' false bs (ls ++ (host_of <$> vs)))).
Proof.
  induction vs as [|v vs IH]; intros h bs ls Hi Hvs Hh; [exists h; cbn; by rewrite app_nil_r|]. apply Forall_cons in Hvs as [Hv Hvs].
  destruct (conf_server ind v h bs ls Hi Hv Hh) as (h1 & E1 & Hh1). cbn [fmap list_fmap concat].
  rewrite (conf_lines_app _ _ _ _ E1). destruct (IH h1 bs (ls ++ [host_of v]) Hi Hvs Hh1) as (h' & E'). exists h'. rewrite E'.
  by rewrite <- app_assoc.
Qed.

Lemma conf_listen h ip port :
  plain ip -> (58 ∉ ip) -> plain port -> (length ip <= 1018)%nat -> m_hostname h = no_name ->
  exists h', conf_line (Conf h false [] []) (listen_line ip port) =
    Ok (Some (Conf h' false [Host (splice no_name 0 (LISTEN ++ ip)) (atoi port) (m_conncnt h)] [])) /\ m_hostname h' = no_name.
Proof.
  intros Hip Hcol Hport Hlen Hh. assert (Hno : 60 ∉ listen_line ip port).
  { unfold listen_line. rewrite !not_elem_of_app, not_elem_of_cons. split; [by_compute|]. split; [by apply plain_notin; [|left]|].
    split; [lia|]. by apply plain_notin; [|left]. }
  unfold conf_line. unfold HOST_OPEN, HOST_CLOSE, NAME_OPEN, PORT_OPEN, CONNS_OPEN. rewrite !strstr_none by exact Hno.
  unfold listen_line at 1. rewrite strstr_here. cbv zeta. change (drop 6 (LISTEN ++ ip ++ 58 :: port)) with (ip ++ 58 :: port).
  rewrite strstr_skip by done. change (strstr (58 :: port) [58]) with (Some (58 :: port)).
  rewrite (app_assoc LISTEN ip (58 :: port)), upto_app. cbn [tmp_host set_port m_hostname m_conncnt]. rewrite Hh.
  rewrite wr_slice_in_range; [|lia|].
  - cbn [mbind outcome_bind]. eexists. split; [done|]. done.
  - change (Zlen no_name) with 1024. unfold Zlen. rewrite length_app. change (length LISTEN) with 6%nat. lia.
Qed.

Lemma lines_ok ip port ind vs :
  plain ip -> plain port -> plain ind -> Forall fits vs ->
  Forall (fun l => 10 ∉ l) (listen_line ip port :: concat (server_lines ind <$> vs)).
Proof.
  intros Hip Hport Hind Hvs.
  assert (Htag : forall o s c, plain s -> (10 ∉ o) -> (10 ∉ c) -> 10 ∉ tag_line ind o s c).
  { intros o s c Hs Ho Hc. unfold tag_line. rewrite !not_elem_of_app. split; [by apply plain_notin; [|right]|]. split; [done|].
    split; [by apply plain_notin; [|right]|done]. }
  apply Forall_cons. split.
  - unfold listen_line. rewrite !not_elem_of_app, not_elem_of_cons. split; [by_compute|]. split; [by apply plain_notin; [|right]|].
    split; [lia|]. by apply plain_notin; [|right].
  - apply Forall_concat. apply Forall_fmap. eapply Forall_impl; [exact Hvs|]. intros v (H1 & H2 & H3 & _). cbn [compose].
    unfold server_lines. repeat (apply Forall_cons; split); [by_compute| | | |by_compute|by apply Forall_nil]; apply Htag; done || by_compute.
Qed.

(** ** Properties *)

(** C26: The configuration parser reads back what is written in its format: from the lines
    of any servers, whatever their number, names, texts and indentation, it gets their
    names, ports and connection counts, in order.  The address to listen on keeps the
    word in front of it as part of its name. *)
Theorem conf_roundtrip junk ip port ind vs :
  plain ip -> (58 ∉ ip) -> plain port -> (length ip <= 1018)%nat -> plain ind -> Forall fits vs -> vs <> [] ->
  exists s, read_conf junk (conf_text ip port ind vs) = Ok (Some s) /\ logical_srv s = host_of <$> vs /\
            balance_srv s = [Host (splice no_name 0 (LISTEN ++ ip)) (atoi port) (m_conncnt junk)].
Proof.
  intros Hip Hcol Hport Hlen Hind Hvs Hne. unfold read_conf, conf_text.
  rewrite conf_loop_lines by (try apply lines_ok; done || lia). cbn [conf_lines].
  destruct (conf_listen (set_name junk no_name) ip port) as (h1 & E1 & Hh1); try done. rewrite E1. cbn [mbind outcome_bind].
  destruct (conf_servers ind vs h1 [Host (splice no_name 0 (LISTEN ++ ip)) (atoi port) (m_conncnt junk)] [] Hind Hvs Hh1) as (h' & E').
  change (m_conncnt (set_name junk no_name)) with (m_conncnt junk). rewrite E'. cbn [mbind outcome_bind option_bind].
  eexists (Conf h' false _ (host_of <$> vs)). split; [|by split]. do 2 f_equal. cbn [balance_srv logical_srv app].
  rewrite bool_decide_false by done. rewrite bool_decide_false; [done|]. by destruct vs.
Qed.

Definition junk_host : host := Host [] 7 9.
Definition localhost : server := Server (text "127.0.0.1") (text "54321") (text "5").

Lemma conf_roundtrip_witness :
  exists s, read_conf junk_host (conf_text (text " 10.0.0.1") (text "80") [32; 32] [localhost; localhost]) = Ok (Some s) /\
    logical_srv s = host_of <$> [localhost; localhost] /\ (m_port <$> logical_srv s) = [54321; 54321] /\
    (m_conncnt <$> logical_srv s) = [5; 5].
Proof.
  destruct (conf_roundtrip junk_host (text " 10.0.0.1") (text "80") [32; 32] [localhost; localhost]) as (s & E & Hl & _).
  - unfold plain. by_compute.
  - by_compute.
  - unfold plain. by_compute.
  - vm_compute. lia.
  - unfold plain. by_compute.
  - assert (fits localhost) as Hf by (split; [unfold plain; by_compute|split; [unfold plain; by_compute|split; [unfold plain; by_compute|vm_compute; lia]]]).
    apply Forall_cons; split; [exact Hf|]. apply Forall_singleton. exact Hf.
  - done.
  - exists s. split; [exact E|]. split; [exact Hl|]. rewrite Hl. by vm_compute.
Defined.

(** A name that does not fit is written past its array. *)
Example long_name_overruns :
  conf_line (Conf (Host no_name 0 0) true [] []) (NAME_OPEN ++ replicate 1025 97 ++ NAME_CLOSE) = Fault OutOfBounds.
Proof. by vm_compute. Qed.

(** The last line is read only when a line feed ends it. *)
Example last_line_needs_line_feed :
  match conf_loop 100 (Conf (Host no_name 0 0) true [] []) HOST_CLOSE with
  | Ok (Some s) => logical_srv s = []
  | _ => False
  end.
Proof. by vm_compute. Qed.
