(* ===== verification/HuffOpt.v ===== *)
(** * Optimal trees for weights

    Binary trees with weights at their leaves, their weighted path length, and the
    greedy choice of merging the two smallest weights.  The greedy choice is optimal:
    the proof compares it with assignments of depths to weights that satisfy Kraft's
    equation, of which the trees are a special case. *)

From stdpp Require Import base numbers list list_numbers.
From S2P Require Import Prelude.

#[local] Open Scope Z_scope.

(** ** Trees *)

Inductive wtree := Leaf (w : Z) | Fork (l r : wtree).

Fixpoint leaves (t : wtree) : list Z :=
  match t with
  | Leaf w => [w]
  | Fork l r => leaves l ++ leaves r
  end.

Fixpoint total (l : list Z) : Z := match l with [] => 0 | w :: l => w + total l end.

Definition weight (t : wtree) : Z := total (leaves t).

(** The leaves with their depths, from depth [d] on. *)
Fixpoint depths (t : wtree) (d : nat) : list (Z * nat) :=
  match t with
  | Leaf w => [(w, d)]
  | Fork l r => depths l (S d) ++ depths r (S d)
  end.

Fixpoint cost (l : list (Z * nat)) : Z :=
  match l with
  | [] => 0
  | (w, d) :: l => w * Z.of_nat d + cost l
  end.

(** The weighted path length. *)
Definition wpl (t : wtree) : Z := cost (depths t 0).

(** ** Sums *)

Lemma total_app l k : total (l ++ k) = total l + total k.
Proof. induction l as [|w l IH]; cbn; [done|]. rewrite IH. lia. Qed.

#[global] Instance total_perm : Proper ((≡ₚ) ==> (=)) total.
Proof. intros l k H. induction H; cbn; lia. Qed.

Lemma cost_app l k : cost (l ++ k) = cost l + cost k.
Proof. induction l as [|[w d] l IH]; cbn; [done|]. rewrite IH. lia. Qed.

#[global] Instance cost_perm : Proper ((≡ₚ) ==> (=)) cost.
Proof. intros l k H. induction H as [|[w d]|[w d] [v e]|]; cbn; lia. Qed.

Lemma depths_weights t d : (depths t d).*1 = leaves t.
Proof. revert d. induction t as [w|l IHl r IHr]; intros d; cbn; [done|]. by rewrite fmap_app, IHl, IHr. Qed.

Lemma depths_deeper t d : cost (depths t (S d)) = cost (depths t d) + weight t.
Proof.
  revert d. unfold weight. induction t as [w|l IHl r IHr]; intros d; cbn [depths leaves cost total]; [lia|].
  rewrite !cost_app, total_app, IHl, IHr. lia.
Qed.

Lemma wpl_fork l r : wpl (Fork l r) = wpl l + wpl r + weight l + weight r.
Proof. unfold wpl. cbn [depths]. rewrite cost_app, !depths_deeper. lia. Qed.

Lemma weight_fork l r : weight (Fork l r) = weight l + weight r.
Proof. unfold weight. cbn [leaves]. apply total_app. Qed.

(** ** Kraft's equation *)

Fixpoint room (D : nat) (l : list (Z * nat)) : Z :=
  match l with
  | [] => 0
  | (_, d) :: l => 2 ^ Z.of_nat (D - d) + room D l
  end.

(** No depth is above [D], and the depths are those of a tree. *)
Definition kraft (D : nat) (l : list (Z * nat)) : Prop :=
  Forall (fun wd => (wd.2 <= D)%nat) l /\ room D l = 2 ^ Z.of_nat D.

Lemma room_app D l k : room D (l ++ k) = room D l + room D k.
Proof. induction l as [|[w d] l IH]; cbn [app room]; [done|]. rewrite IH. lia. Qed.

#[global] Instance room_perm D : Proper ((≡ₚ) ==> (=)) (room D).
Proof. intros l k H. induction H as [|[w d]|[w d] [v e]|]; cbn [room]; lia. Qed.

#[global] Instance kraft_perm D : Proper ((≡ₚ) ==> iff) (kraft D).
Proof. intros l k H. unfold kraft. by rewrite H. Qed.

Fixpoint height (t : wtree) : nat := match t with Leaf _ => 0 | Fork l r => S (height l `max` height r) end.

Lemma depths_kraft t : forall D d, (d + height t <= D)%nat ->
  Forall (fun wd => (wd.2 <= D)%nat) (depths t d) /\ room D (depths t d) = 2 ^ Z.of_nat (D - d).
Proof.
  induction t as [w|l IHl r IHr]; intros D d HD; cbn [depths height] in *.
  - split; [apply Forall_singleton; cbn; lia|]. cbn [room]. lia.
  - destruct (IHl D (S d) ltac:(lia)) as [Fl Rl], (IHr D (S d) ltac:(lia)) as [Fr Rr]. split; [by apply Forall_app|].
    rewrite room_app, Rl, Rr. replace (D - d)%nat with (S (D - S d)) by lia. rewrite Nat2Z.inj_succ, Z.pow_succ_r by lia. lia.
Qed.

(** Assignments of one weight: the depth is 0.  Otherwise two have the largest depth. *)
Lemma room_parity D l :
  Forall (fun wd => (wd.2 <= D)%nat) l -> exists k, room D l = Z.of_nat (length (filter (fun wd => wd.2 = D) l)) + 2 * k.
Proof.
  induction 1 as [|[w d] l Hd _ (k & IH)]; [by exists 0|]. cbn [snd] in Hd. cbn [room]. rewrite IH, filter_cons. cbn [snd].
  destruct (decide (d = D)) as [->|Hne].
  - rewrite Nat.sub_diag. exists k. cbn. lia.
  - exists (2 ^ Z.of_nat (D - S d) + k). replace (D - d)%nat with (S (D - S d)) by lia.
    rewrite Nat2Z.inj_succ, Z.pow_succ_r by lia. lia.
Qed.

Lemma room_smaller D l : Forall (fun wd => (wd.2 <= D)%nat) l -> room (S D) l = 2 * room D l.
Proof.
  induction 1 as [|[w d] l Hd _ IH]; [done|]. cbn [snd] in Hd. cbn [room]. rewrite IH.
  replace (S D - d)%nat with (S (D - d)) by lia. rewrite Nat2Z.inj_succ, Z.pow_succ_r by lia. lia.
Qed.

Lemma two_deepest D l :
  kraft D l -> (2 <= length l)%nat ->
  exists D' ds, kraft (S D') l /\ l.*2 ≡ₚ S D' :: S D' :: ds.
Proof.
  revert l. induction D as [|D IH]; intros l [Hd Hr] Hlen.
  - exfalso. assert (E : room 0 l = Z.of_nat (length l)).
    { clear -Hd. induction Hd as [|[w d] l Hd _ IH]; [done|]. cbn [room length]. rewrite IH. cbn [snd] in Hd.
      replace (0 - d)%nat with 0%nat by lia. cbn. lia. }
    cbn in Hr. lia.
  - destruct (room_parity (S D) l Hd) as (k & Hk). set (top := filter (fun wd => wd.2 = S D) l) in *.
    assert (Hpow : 2 ^ Z.of_nat (S D) = 2 * 2 ^ Z.of_nat D) by (rewrite Nat2Z.inj_succ, Z.pow_succ_r by lia; lia).
    destruct top as [|x [|y top']] eqn:Etop; cbn [length] in Hk.
    + apply IH; [|done].
      assert (Hd' : Forall (fun wd => (wd.2 <= D)%nat) l).
      { rewrite Forall_forall in Hd |- *. intros wd Hin. specialize (Hd wd Hin). destruct (decide (wd.2 = S D)) as [E|]; [|lia].
        exfalso. assert (wd ∈ top) as Hin' by (apply list_elem_of_filter; done). rewrite Etop in Hin'. by apply not_elem_of_nil in Hin'. }
      split; [done|]. rewrite room_smaller in Hr by done. lia.
    + lia.
    + exists D, (top'.*2 ++ (filter (fun wd => wd.2 <> S D) l).*2). split; [done|].
      rewrite <- (filter_app_complement (fun wd : Z * nat => wd.2 = S D) l) at 1. fold top. rewrite Etop. cbn [app fmap list_fmap].
      assert (Hx : x.2 = S D /\ y.2 = S D).
      { assert (x ∈ top /\ y ∈ top) as [Hx Hy] by (rewrite Etop, !elem_of_cons; auto). unfold top in Hx, Hy.
        rewrite list_elem_of_filter in Hx, Hy. tauto. }
      destruct Hx as [-> ->]. by rewrite fmap_app.
Qed.

(** ** The exchange *)

(** A weight that none of the others is below may have the largest depth. *)
Lemma sink D a d l :
  Forall (fun wd => (wd.2 <= D)%nat) ((a, d) :: l) -> D ∈ ((a, d) :: l).*2 -> Forall (fun w => a <= w) l.*1 ->
  exists l', l'.*1 ≡ₚ l.*1 /\ ((a, D) :: l').*2 ≡ₚ ((a, d) :: l).*2 /\ cost ((a, D) :: l') <= cost ((a, d) :: l).
Proof.
  intros Hd Hin Ha. apply Forall_cons in Hd as [Hd Hl]. cbn [snd fmap list_fmap] in *. destruct (decide (d = D)) as [->|Hne]; [by exists l|].
  apply elem_of_cons in Hin as [->|Hin]; [done|]. apply list_elem_of_fmap in Hin as ([x e] & -> & Hin). cbn [snd] in *.
  apply list_elem_of_split in Hin as (l1 & l2 & ->). exists ((x, d) :: l1 ++ l2).
  assert (Hax : a <= x).
  { rewrite Forall_forall in Ha. apply Ha. rewrite fmap_app. apply elem_of_app. right. cbn. apply elem_of_cons. by left. }
  split; [|split].
  - rewrite fmap_app. cbn. rewrite fmap_app. by rewrite <- Permutation_middle.
  - cbn. rewrite !fmap_app. cbn. rewrite <- Permutation_middle. apply perm_swap.
  - rewrite <- Permutation_middle. cbn [cost]. assert (Z.of_nat d <= Z.of_nat e) by lia. nia.
Qed.

Lemma kraft_same D l l' : l.*2 ≡ₚ l'.*2 -> kraft D l -> kraft D l'.
Proof.
  intros H [Hd Hr]. assert (Hroom : forall k, room D k = total ((fun d => 2 ^ Z.of_nat (D - d)) <$> k.*2)).
  { induction k as [|[w d] k IH]; [done|]. cbn [room fmap list_fmap total]. by rewrite IH. }
  split.
  - assert (Hd' : Forall (fun d : nat => (d <= D)%nat) l.*2) by (by apply Forall_fmap). rewrite H in Hd'. by apply Forall_fmap in Hd'.
  - rewrite Hroom, <- H, <- Hroom. done.
Qed.

(** ** The greedy choice *)

(** [greedy M c]: merging two smallest weights again and again adds up to [c]. *)
Inductive greedy : list Z -> Z -> Prop :=
| greedy_one w : greedy [w] 0
| greedy_merge M a b M' c :
    M ≡ₚ a :: b :: M' -> a <= b -> Forall (fun w => b <= w) M' -> greedy (a + b :: M') c -> greedy M (a + b + c).

Lemma pick_weight (l : list (Z * nat)) a M : l.*1 ≡ₚ a :: M -> exists d l', l ≡ₚ (a, d) :: l' /\ l'.*1 ≡ₚ M.
Proof.
  intros H. assert (Hin : a ∈ l.*1) by (rewrite H; apply elem_of_cons; by left).
  apply list_elem_of_fmap in Hin as ([x d] & -> & Hin). apply list_elem_of_split in Hin as (l1 & l2 & ->).
  exists d, (l1 ++ l2). split; [by rewrite <- Permutation_middle|]. rewrite fmap_app in H |- *. cbn in H. rewrite <- Permutation_middle in H.
  by apply Permutation_cons_inv in H.
Qed.

(** No assignment of depths to the weights costs less. *)
Lemma greedy_least M c :
  greedy M c -> Forall (fun w => 0 <= w) M -> forall D l, l.*1 ≡ₚ M -> kraft D l -> c <= cost l.
Proof.
  induction 1 as [w|M a b M' c HM Hab Hb Hg IH]; intros Hpos D l Hl Hk.
  - apply pick_weight in Hl as (d & l' & -> & Hl'). apply Permutation_nil_r, fmap_nil_inv in Hl' as ->.
    apply Forall_cons in Hpos as [Hpos _]. cbn [cost]. nia.
  - rewrite HM in Hpos. apply Forall_cons in Hpos as [Ha0 [Hb0 Hpos]%Forall_cons]. rewrite HM in Hl.
    assert (Hlen : (2 <= length l)%nat) by (rewrite <- (length_fmap fst), Hl; cbn; lia).
    destruct (two_deepest D l Hk Hlen) as (D' & ds & Hk' & Hds). clear D Hk.
    destruct (pick_weight l a (b :: M') Hl) as (da & l1 & E1 & Hl1). rewrite E1 in Hk', Hds |- *.
    destruct (sink (S D') a da l1) as (l2 & W2 & D2 & C2).
    + apply Hk'.
    + rewrite Hds. apply elem_of_cons. by left.
    + rewrite Hl1. apply Forall_cons. split; [done|]. eapply Forall_impl; [exact Hb|]. cbn. lia.
    + assert (Hds2 : l2.*2 ≡ₚ S D' :: ds).
      { rewrite Hds in D2. cbn in D2. by apply Permutation_cons_inv in D2. }
      destruct (pick_weight l2 b M') as (db & l3 & E3 & Hl3); [by rewrite W2|].
      destruct (sink (S D') b db l3) as (l4 & W4 & D4 & C4).
      * rewrite <- E3. apply (kraft_same _ _ ((a, S D') :: l2)) in Hk'; [|by symmetry]. by destruct Hk' as [[_ Hk']%Forall_cons _].
      * rewrite <- E3, Hds2. apply elem_of_cons. by left.
      * by rewrite Hl3.
      * assert (Hk4 : kraft (S D') ((a, S D') :: (b, S D') :: l4)).
        { eapply kraft_same; [|exact Hk']. rewrite <- D2. cbn in D4 |- *. apply perm_skip. rewrite D4. rewrite E3. done. }
        assert (Hc : c <= cost ((a + b, D') :: l4)).
        { apply (IH ltac:(apply Forall_cons; split; [lia|done]) (S D')).
          - cbn. apply perm_skip. by rewrite W4.
          - destruct Hk4 as [[_ [_ F4]%Forall_cons]%Forall_cons R4]. split; [apply Forall_cons; split; [cbn; lia|done]|]. cbn [room] in R4 |- *.
            rewrite !Nat.sub_diag in R4. replace (S D' - D')%nat with 1%nat by lia. cbn in R4 |- *. lia. }
        assert (Hc2 : cost ((a, S D') :: l2) = a * Z.of_nat (S D') + cost ((b, db) :: l3)) by (cbn [cost]; by rewrite E3).
        cbn [cost] in Hc, C2, C4, Hc2 |- *. lia.
Qed.

(** The same for trees. *)
Lemma greedy_least_tree c t : greedy (leaves t) c -> Forall (fun w => 0 <= w) (leaves t) -> c <= wpl t.
Proof.
  intros Hg Hpos. apply (greedy_least _ _ Hg Hpos (height t)); [by rewrite depths_weights|].
  destruct (depths_kraft t (height t) 0 ltac:(lia)) as [Hd Hr]. split; [done|]. by rewrite Nat.sub_0_r in Hr.
Qed.

Lemma greedy_perm M M' c : M ≡ₚ M' -> greedy M c -> greedy M' c.
Proof.
  intros H Hg. destruct Hg as [w|M a b M1 c HM Hab Hb Hg].
  - apply Permutation_length_1_inv in H as ->. constructor.
  - apply (greedy_merge M' a b M1); [by rewrite <- H|done..].
Qed.
