(* ===== verification/BinTree.v ===== *)
(** * Binary trees

    src/src/data_struct/btree/BinaryTree.cpp and HuffmanTree.cpp: a binary tree is built
    from its text, printed in order, and built from weights by Huffman's algorithm.  The
    text of a tree is shown to be read back, and Huffman's tree to be optimal. *)

From stdpp Require Import base numbers list list_numbers gmap strings.
From S2P Require Import Prelude HuffOpt.

#[local] Open Scope Z_scope.

Abbreviation ptr := (option positive).

(** [data] is a [char]. *)
Record BT := Bt { data : Z; left : ptr; right : ptr }.

Abbreviation heap := (gmap positive BT).

Definition MS : Z := 10.

(** [x->...] *)
Definition node_at (h : heap) (x : ptr) : outcome BT :=
  match x with
  | None => Fault NullDeref
  | Some p => match h !! p with Some n => Ok n | None => Fault NullDeref end
  end.

(** [malloc], with the fields that are set at once. *)
Definition alloc (h : heap) (n : BT) : heap * ptr :=
  let p := fresh (dom h : gset positive) in (<[p := n]> h, Some p).

(** ** CreateBTree *)

(** The variables of the function; [p], the stack [s] and [k] are not initialised. *)
Record builder := Builder { mem : heap; bt : ptr; p_ : ptr; s_ : list ptr; top : Z; k_ : Z }.

(** [s[top]->left = p;] or [s[top]->right = p;] *)
Definition hang (h : heap) (x : ptr) (k : Z) (p : ptr) : outcome heap :=
  n ← node_at h x;
  Ok (match x with
      | Some q => <[q := if decide (k = 1) then Bt (data n) p (right n) else Bt (data n) (left n) p]> h
      | None => h
      end).

Definition is_letter (c : Z) : bool := bool_decide (97 <= c <= 122) || bool_decide (65 <= c <= 90).

(** One turn of the loop; [None] is [exit(1)]. *)
Definition bt_char (st : builder) (c : Z) : outcome (option builder) :=
  if decide (c = 32) then Ok (Some st)
  else if decide (c = 40) then
    if decide (top st = MS - 1) then Ok None
    else
      s ← wr (s_ st) (top st + 1) (p_ st);
      Ok (Some (Builder (mem st) (bt st) (p_ st) s (top st + 1) 1))
  else if decide (c = 41) then
    if decide (top st = -1) then Ok None
    else Ok (Some (Builder (mem st) (bt st) (p_ st) (s_ st) (top st - 1) (k_ st)))
  else if decide (c = 44) then Ok (Some (Builder (mem st) (bt st) (p_ st) (s_ st) (top st) 2))
  else if is_letter c then
    let '(h, p) := alloc (mem st) (Bt c None None) in
    match bt st with
    | None => Ok (Some (Builder h p p (s_ st) (top st) (k_ st)))
    | Some _ =>
        x ← rd (s_ st) (top st);
        h ← hang h x (k_ st) p;
        Ok (Some (Builder h (bt st) p (s_ st) (top st) (k_ st)))
    end
  else Ok None.

Fixpoint bt_loop (a : list Z) (st : builder) : outcome (option builder) :=
  match a with
  | [] => Fault OutOfBounds
  | c :: a =>
      if decide (c = 0) then Ok (Some st)
      else
        r ← bt_char st c;
        match r with
        | None => Ok None
        | Some st => bt_loop a st
        end
  end.

Definition CreateBTree (h : heap) (p0 : ptr) (s0 : list ptr) (k0 : Z) (a : list Z) : outcome (option (heap * ptr)) :=
  r ← bt_loop a (Builder h None p0 s0 (-1) k0);
  Ok (st ← r; Some (mem st, bt st)).

Definition InitBTree : ptr := None.

(** What is printed; the recursion goes down the tree. *)
Fixpoint Inorder (fuel : nat) (h : heap) (x : ptr) : outcome (list Z) :=
  match fuel with
  | O => Fault OutOfFuel
  | S fuel =>
      match x with
      | None => Ok []
      | Some _ =>
          n ← node_at h x;
          l ← Inorder fuel h (left n);
          r ← Inorder fuel h (right n);
          Ok (l ++ [data n; 10] ++ r)
      end
  end.

(** ** CreateHuffman *)

(** The leaves. *)
Definition make_leaves (h : heap) (a : list Z) (b : list ptr) (n : Z) : outcome (heap * list ptr) :=
  for_ (Z.to_nat n) 0 (fun i '(h, b) =>
    w ← rd a i;
    let '(h, p) := alloc h (Bt (s8 w) None None) in
    b ← wr b i p;
    Ok (h, b)) (h, b).

(** The first two pointers that are not null; [k2] is not initialised. *)
Fixpoint first_two (n : nat) (j : Z) (b : list ptr) (k1 k2 : Z) : outcome (Z * Z) :=
  match n with
  | O => Ok (k1, k2)
  | S n =>
      x ← rd b j;
      match x with
      | None => first_two n (j + 1) b k1 k2
      | Some _ => if decide (k1 = -1) then first_two n (j + 1) b j k2 else Ok (k1, j)
      end
  end.

Definition data_at (h : heap) (b : list ptr) (i : Z) : outcome Z :=
  x ← rd b i;
  n ← node_at h x;
  Ok (data n).

(** The two smallest. *)
Definition pick_turn (h : heap) (b : list ptr) (j : Z) (ks : Z * Z) : outcome (Z * Z) :=
  let '(k1, k2) := ks in
  x ← rd b j;
  match x with
  | None => Ok (k1, k2)
  | Some _ =>
      d ← data_at h b j;
      d1 ← data_at h b k1;
      if bool_decide (d < d1) then Ok (j, k1)
      else
        d2 ← data_at h b k2;
        Ok (if bool_decide (d < d2) then (k1, j) else (k1, k2))
  end.
Definition two_smallest (h : heap) (b : list ptr) (n k2_0 : Z) : outcome (Z * Z) :=
  '(k1, k2) ← first_two (Z.to_nat n) 0 b (-1) k2_0;
  for_ (Z.to_nat (n - k2)) k2 (pick_turn h b) (k1, k2).

(** One turn of the outer loop. *)
Definition merge_turn (h : heap) (b : list ptr) (n k2_0 : Z) : outcome (heap * list ptr * ptr) :=
  '(k1, k2) ← two_smallest h b n k2_0;
  x1 ← rd b k1;
  x2 ← rd b k2;
  n1 ← node_at h x1;
  n2 ← node_at h x2;
  let '(h, q) := alloc h (Bt (s8 (data n1 + data n2)) x1 x2) in
  b ← wr b k1 q;
  b ← wr b k2 None;
  Ok (h, b, q).

Fixpoint merge_loop (turns : nat) (h : heap) (b : list ptr) (n k2_0 : Z) (q : ptr) : outcome (heap * ptr) :=
  match turns with
  | O => Ok (h, q)
  | S turns =>
      '(h, b, q) ← merge_turn h b n k2_0;
      merge_loop turns h b n k2_0 q
  end.

(** [b0] is the new array, [k2_0] and [q0] what [k2] and [q] hold at first. *)
Definition CreateHuffman (h : heap) (a : list Z) (n : Z) (b0 : list ptr) (k2_0 : Z) (q0 : ptr) : outcome (heap * ptr) :=
  '(h, b) ← make_leaves h a b0 n;
  merge_loop (Z.to_nat (n - 1)) h b n k2_0 q0.

(** ** Trees and their text *)

Inductive btree := E | T (c : Z) (l r : btree).

#[global] Instance btree_eq_dec : EqDecision btree.
Proof. solve_decision. Defined.

Fixpoint show (t : btree) : list Z :=
  match t with
  | E => []
  | T c E E => [c]
  | T c l E => c :: 40 :: show l ++ [41]
  | T c l r => c :: 40 :: show l ++ 44 :: show r ++ [41]
  end.

(** The parentheses inside each other. *)
Fixpoint nesting (t : btree) : Z :=
  match t with
  | E | T _ E E => 0
  | T _ l r => 1 + Z.max (nesting l) (nesting r)
  end.

Fixpoint letters (t : btree) : Prop :=
  match t with
  | E => True
  | T c l r => is_letter c = true /\ letters l /\ letters r
  end.

Fixpoint in_order (t : btree) : list Z :=
  match t with
  | E => []
  | T c l r => in_order l ++ [c; 10] ++ in_order r
  end.

Fixpoint levels (t : btree) : nat := match t with E => 0 | T _ l r => S (levels l `max` levels r) end.

(** The tree in memory, with its nodes among [S]. *)
Fixpoint tree_at (h : heap) (S : gset positive) (x : ptr) (t : btree) : Prop :=
  match t with
  | E => x = None
  | T c l r => exists p xl xr, x = Some p /\ p ∈ S /\ h !! p = Some (Bt c xl xr) /\ tree_at h S xl l /\ tree_at h S xr r
  end.

Lemma tree_at_frame h h' S t : forall x, (forall p, p ∈ S -> h' !! p = h !! p) -> tree_at h S x t -> tree_at h' S x t.
Proof.
  induction t as [|c l IHl r IHr]; intros x Hh; cbn; [done|]. intros (p & xl & xr & -> & Hp & Hn & Hl & Hr).
  exists p, xl, xr. rewrite Hh by done. do 3 (split; [done|]). split; [by apply IHl|by apply IHr].
Qed.

Lemma tree_at_more h S S' t : forall x, S ⊆ S' -> tree_at h S x t -> tree_at h S' x t.
Proof.
  induction t as [|c l IHl r IHr]; intros x HS; cbn; [done|]. intros (p & xl & xr & -> & Hp & Hn & Hl & Hr).
  exists p, xl, xr. split; [done|]. split; [by apply HS|]. split; [done|]. split; [by apply IHl|by apply IHr].
Qed.

(** Printing in order. *)
Lemma Inorder_ok h S t : forall x fuel, tree_at h S x t -> (levels t < fuel)%nat -> Inorder fuel h x = Ok (in_order t).
Proof.
  induction t as [|c l IHl r IHr]; intros x fuel Ht Hf; (destruct fuel as [|fuel]; [lia|]); cbn in Ht |- *; [by rewrite Ht|].
  destruct Ht as (p & xl & xr & -> & _ & Hn & Hl & Hr). cbn in Hf. cbn [node_at]. rewrite Hn. cbn [mbind outcome_bind left right data].
  rewrite (IHl xl fuel Hl) by lia. cbn [mbind outcome_bind]. by rewrite (IHr xr fuel Hr) by lia.
Qed.

(** ** Reading a tree *)

(** The loop on a part of the text. *)
Fixpoint steps (cs : list Z) (st : builder) : outcome (option builder) :=
  match cs with
  | [] => Ok (Some st)
  | c :: cs =>
      r ← bt_char st c;
      match r with
      | None => Ok None
      | Some st => steps cs st
      end
  end.

Lemma steps_app cs1 cs2 : forall st st1, steps cs1 st = Ok (Some st1) -> steps (cs1 ++ cs2) st = steps cs2 st1.
Proof.
  induction cs1 as [|c cs1 IH]; intros st st1; cbn; [by intros [= <-]|].
  destruct (bt_char st c) as [[st2|]|f]; cbn; [apply IH|done..].
Qed.

Lemma bt_loop_steps cs rest : Forall (fun c => c <> 0) cs -> forall st, bt_loop (cs ++ 0 :: rest) st = steps cs st.
Proof.
  induction 1 as [|c cs Hc _ IH]; intros st; cbn; [done|]. rewrite decide_False by done.
  destruct (bt_char st c) as [[st2|]|f]; cbn; [apply IH|done..].
Qed.

Definition put (k : Z) (x : ptr) (n : BT) : BT := if decide (k = 1) then Bt (data n) x (right n) else Bt (data n) (left n) x.
Definition side (k : Z) (n : BT) : ptr := if decide (k = 1) then left n else right n.

(** The stack up to its top, and the root, are as before. *)
Definition grows (st st' : builder) : Prop :=
  bt st' = bt st /\ top st' = top st /\ Zlen (s_ st') = MS /\ (forall i, 0 <= i <= top st -> rd (s_ st') i = rd (s_ st) i) /\
  dom (mem st) ⊆ dom (mem st').

(** Reading the text of [t] hangs the tree below the node on top of the stack. *)
Definition hangs (t : btree) : Prop := forall st q n,
  letters t -> bt st <> None -> 0 <= top st -> top st + nesting t <= MS - 1 -> Zlen (s_ st) = MS ->
  rd (s_ st) (top st) = Ok (Some q) -> mem st !! q = Some n -> side (k_ st) n = None ->
  exists st' x, steps (show t) st = Ok (Some st') /\ grows st st' /\ mem st' !! q = Some (put (k_ st) x n) /\
    (forall z, z ∈ dom (mem st) -> z <> q -> mem st' !! z = mem st !! z) /\
    tree_at (mem st') (dom (mem st') ∖ dom (mem st)) x t.

(** The text behind the letter. *)
Definition args (l r : btree) : list Z :=
  match l, r with
  | E, E => []
  | l, E => 40 :: show l ++ [41]
  | l, r => 40 :: show l ++ 44 :: show r ++ [41]
  end.

Lemma show_args c l r : show (T c l r) = c :: args l r.
Proof. by destruct l, r. Qed.

Lemma put_none k n : side k n = None -> put k None n = n.
Proof. unfold side, put. destruct n, (decide (k = 1)); cbn; by intros ->. Qed.

Lemma hangs_E : hangs E.
Proof.
  intros st q n _ _ Ht _ Hl Hq Hn Hs. exists st, None. split; [done|]. split; [done|]. rewrite put_none by done. done.
Qed.

Lemma dom_same (h h' : heap) q n' : (forall z, z ∈ dom h -> z <> q -> h' !! z = h !! z) -> h' !! q = Some n' -> dom h ⊆ dom h'.
Proof.
  intros H Hq z Hz. apply elem_of_dom. destruct (decide (z = q)) as [->|Hne]; [by eexists|]. rewrite H by done. by apply elem_of_dom.
Qed.

(** Both children: the parenthesis, the left one, the comma and the right one. *)
Lemma args_ok l r st p c :
  hangs l -> hangs r -> letters l -> letters r -> bt st <> None -> -1 <= top st -> top st + nesting (T c l r) <= MS - 1 ->
  Zlen (s_ st) = MS -> p_ st = Some p -> mem st !! p = Some (Bt c None None) ->
  exists st' xl xr, steps (args l r) st = Ok (Some st') /\ grows st st' /\ mem st' !! p = Some (Bt c xl xr) /\
    (forall z, z ∈ dom (mem st) -> z <> p -> mem st' !! z = mem st !! z) /\
    tree_at (mem st') (dom (mem st') ∖ dom (mem st)) xl l /\ tree_at (mem st') (dom (mem st') ∖ dom (mem st)) xr r.
Proof.
  intros Hl Hr Ll Lr Hbt Ht Hnest Hlen Hp Hn. destruct (decide (l = E /\ r = E)) as [[-> ->]|Hne].
  { exists st, None, None. split; [done|]. by split. }
  assert (Hnest' : nesting (T c l r) = 1 + Z.max (nesting l) (nesting r)) by (destruct l, r; try done; tauto).
  rewrite Hnest' in Hnest. assert (Hnn : 0 <= nesting l /\ 0 <= nesting r).
  { assert (forall t, 0 <= nesting t) as Hpos; [|auto]. induction t as [|c' [] IHl [] IHr]; cbn in *; lia. }
  (* the opening parenthesis *)
  set (st1 := Builder (mem st) (bt st) (p_ st) (<[Z.to_nat (top st + 1) := Some p]> (s_ st)) (top st + 1) 1).
  assert (E1 : bt_char st 40 = Ok (Some st1)).
  { unfold bt_char. cbn [decide]. rewrite !decide_False by done. rewrite decide_True by done. rewrite decide_False by lia.
    rewrite wr_in_range by lia. cbn [mbind outcome_bind]. unfold st1. by rewrite Hp. }
  destruct (Hl st1 p (Bt c None None) Ll Hbt) as (st2 & xl & E2 & (G1 & G2 & G3 & G4 & G5) & Hp2 & Ho2 & Tl); cbn; try done; try lia.
  { by rewrite Zlen_insert. }
  { apply rd_insert_eq. lia. }
  cbn [mem bt top s_ k_ st1] in *. change (mem st2 !! p = Some (Bt c xl None)) in Hp2.
  (* the right child, with the comma when there is one *)
  assert (Hrest : exists st3 xr, steps (match r with E => [] | _ => 44 :: show r end) st2 = Ok (Some st3) /\
     bt st3 = bt st /\ top st3 = top st + 1 /\ Zlen (s_ st3) = MS /\ (forall i, 0 <= i <= top st -> rd (s_ st3) i = rd (s_ st) i) /\
     mem st3 !! p = Some (Bt c xl xr) /\ (forall z, z ∈ dom (mem st2) -> z <> p -> mem st3 !! z = mem st2 !! z) /\
     tree_at (mem st3) (dom (mem st3) ∖ dom (mem st2)) xr r).
  { assert (Hst : forall i, 0 <= i <= top st -> rd (s_ st2) i = rd (s_ st) i).
    { intros i Hi. rewrite G4 by lia. apply rd_insert_ne; lia. }
    destruct (decide (r = E)) as [->|Hre]; [exists st2, None; done|].
    set (st2' := Builder (mem st2) (bt st2) (p_ st2) (s_ st2) (top st2) 2).
    destruct (Hr st2' p (Bt c xl None) Lr) as (st3 & xr & E3 & (K1 & K2 & K3 & K4 & K5) & Hp3 & Ho3 & Tr); cbn; try done; try lia.
    - by rewrite G1.
    - rewrite G2, G4 by lia. apply rd_insert_eq. lia.
    - cbn [mem bt top s_ k_ st2'] in *. exists st3, xr. split; [destruct r; [done|]; cbn [steps]; exact E3|].
      split; [congruence|]. split; [congruence|]. split; [done|]. split; [|done].
      intros i Hi. rewrite K4 by lia. by apply Hst. }
  destruct Hrest as (st3 & xr & E3 & B1 & B2 & B3 & B4 & Hp3 & Ho3 & Tr).
  assert (D23 : dom (mem st2) ⊆ dom (mem st3)) by (by eapply dom_same).
  exists (Builder (mem st3) (bt st3) (p_ st3) (s_ st3) (top st3 - 1) (k_ st3)), xl, xr. cbn [mem bt top s_ k_]. split; [|split; [|split; [done|split; [|split]]]].
  - assert (Eargs : args l r = 40 :: show l ++ (match r with E => [] | _ => 44 :: show r end) ++ [41]).
    { destruct l, r; cbn [args]; done || (exfalso; tauto). }
    rewrite Eargs. cbn [steps]. rewrite E1. cbn [mbind outcome_bind]. rewrite (steps_app _ _ _ _ E2), (steps_app _ _ _ _ E3).
    cbn [steps]. unfold bt_char. rewrite !decide_False by done. rewrite decide_True by done. rewrite decide_False by lia. done.
  - split; [done|]. cbn [top s_ mem]. split; [lia|]. split; [done|]. split; [done|]. set_solver.
  - intros z Hz Hzp. rewrite Ho3 by set_solver. by apply Ho2.
  - eapply tree_at_more; [|eapply tree_at_frame; [|exact Tl]]; [set_solver|].
    intros z [Hz1 Hz2]%elem_of_difference. apply Ho3; [done|]. intros ->. apply Hz2. apply elem_of_dom. eauto.
  - eapply tree_at_more; [|exact Tr]. set_solver.
Qed.

Lemma letter_range c : is_letter c = true -> 65 <= c.
Proof. unfold is_letter. rewrite orb_true_iff, !bool_decide_eq_true. lia. Qed.

Lemma alloc_fresh h n : exists p, alloc h n = (<[p := n]> h, Some p) /\ h !! p = None.
Proof.
  exists (fresh (dom h : gset positive)). split; [done|]. apply not_elem_of_dom. exact (is_fresh (dom h : gset positive)).
Qed.

Lemma bt_char_letter st c :
  is_letter c = true ->
  bt_char st c = (let '(h, p) := alloc (mem st) (Bt c None None) in
    match bt st with
    | None => Ok (Some (Builder h p p (s_ st) (top st) (k_ st)))
    | Some _ => x ← rd (s_ st) (top st); h ← hang h x (k_ st) p; Ok (Some (Builder h (bt st) p (s_ st) (top st) (k_ st)))
    end).
Proof. intros Hc. pose proof (letter_range c Hc). unfold bt_char. rewrite !decide_False by lia. by rewrite Hc. Qed.

Lemma hangs_all t : hangs t.
Proof.
  induction t as [|c l IHl r IHr]; [apply hangs_E|]. intros st q n (Lc & Ll & Lr) Hbt Ht Hnest Hlen Hq Hn Hs.
  rewrite show_args. cbn [steps]. rewrite bt_char_letter by done. destruct (alloc_fresh (mem st) (Bt c None None)) as (p & -> & Hp).
  destruct (bt st) as [x|] eqn:Ebt; [|done]. rewrite Hq. cbn [mbind outcome_bind].
  assert (Hqp : q <> p) by congruence. unfold hang. cbn [node_at]. rewrite lookup_insert_ne by congruence. rewrite Hn. cbn [mbind outcome_bind].
  change (if decide (k_ st = 1) then Bt (data n) (Some p) (right n) else Bt (data n) (left n) (Some p)) with (put (k_ st) (Some p) n).
  set (h2 := <[q := put (k_ st) (Some p) n]> (<[p := Bt c None None]> (mem st))). set (st1 := Builder h2 _ _ _ _ _).
  destruct (args_ok l r st1 p c IHl IHr Ll Lr) as (st' & xl & xr & E & (G1 & G2 & G3 & G4 & G5) & Hp' & Ho & Tl & Tr); cbn; try done; try lia.
  { unfold h2. rewrite lookup_insert_ne by congruence. by rewrite lookup_insert_eq. }
  cbn [mem bt top s_ k_ st1] in *. rewrite E. assert (D2 : dom h2 = {[p]} ∪ dom (mem st)).
  { unfold h2. rewrite !dom_insert_L. assert (q ∈ dom (mem st)) by (apply elem_of_dom; eauto). set_solver. }
  exists st', (Some p). split; [done|]. split; [split; [congruence|split; [done|split; [done|split; [done|]]]]; set_solver|]. split; [|split].
  - rewrite Ho by (try done; rewrite D2; apply elem_of_union_r, elem_of_dom; eauto). unfold h2. by rewrite lookup_insert_eq.
  - intros z Hz Hzq. assert (z <> p) by (intros ->; apply elem_of_dom in Hz as [? ?]; congruence).
    rewrite Ho by (try done; rewrite D2; by apply elem_of_union_r). unfold h2. by rewrite !lookup_insert_ne by congruence.
  - exists p, xl, xr. split; [done|]. split.
    { apply elem_of_difference. split; [apply elem_of_dom; eauto|]. by apply not_elem_of_dom. }
    split; [done|]. split; (eapply tree_at_more; [|done]); rewrite D2; set_solver.
Qed.

(** ** Huffman's trees in memory *)

(** Every node holds the weight of its tree. *)
Fixpoint wtree_at (h : heap) (x : ptr) (t : wtree) : Prop :=
  match t with
  | Leaf w => exists p, x = Some p /\ h !! p = Some (Bt w None None)
  | Fork l r => exists p xl xr, x = Some p /\ h !! p = Some (Bt (weight t) xl xr) /\ wtree_at h xl l /\ wtree_at h xr r
  end.

Lemma wtree_at_more h h' t : forall x, h ⊆ h' -> wtree_at h x t -> wtree_at h' x t.
Proof.
  induction t as [w|l IHl r IHr]; intros x Hh; cbn [wtree_at].
  - intros (p & -> & Hn). exists p. split; [done|]. by eapply lookup_weaken.
  - intros (p & xl & xr & -> & Hn & Hl & Hr). exists p, xl, xr. split; [done|]. split; [by eapply lookup_weaken|]. auto.
Qed.

Lemma wtree_at_data h x t : wtree_at h x t -> exists p n, x = Some p /\ h !! p = Some n /\ data n = weight t.
Proof.
  destruct t as [w|l r]; cbn [wtree_at].
  - intros (p & -> & Hn). exists p, (Bt w None None). split; [done|]. split; [done|]. unfold weight. cbn. lia.
  - intros (p & xl & xr & -> & Hn & _). by exists p, (Bt (weight (Fork l r)) xl xr).
Qed.

(** The array: a tree or nothing at each place. *)
Abbreviation forest := (list (option wtree)).

Definition place (h : heap) (x : ptr) (o : option wtree) : Prop :=
  match o with None => x = None | Some t => wtree_at h x t end.

Definition trees (F : forest) : list wtree := omap id F.

Lemma trees_take F i t : F !! i = Some (Some t) -> trees F ≡ₚ t :: trees (<[i := None]> F).
Proof.
  intros H. pose proof (lookup_lt_Some _ _ _ H) as Hl. rewrite insert_take_drop by done. rewrite <- (take_drop_middle F i (Some t) H) at 1.
  unfold trees. rewrite !omap_app. cbn. by rewrite <- Permutation_middle.
Qed.

Lemma trees_put F i t : F !! i = Some None -> trees (<[i := Some t]> F) ≡ₚ t :: trees F.
Proof.
  intros H. pose proof (lookup_lt_Some _ _ _ H) as Hl. rewrite insert_take_drop by done. rewrite <- (take_drop_middle F i None H) at 3.
  unfold trees. rewrite !omap_app. cbn. by rewrite <- Permutation_middle.
Qed.

Lemma trees_in F i t : F !! i = Some (Some t) -> t ∈ trees F.
Proof. intros H. rewrite (trees_take F i t H). apply elem_of_cons. by left. Qed.

Section Pick.
Context (h : heap) (b : list ptr) (F : forest).
Hypothesis Hrep : Forall2 (place h) b F.

Definition tree_in (i : Z) (t : wtree) : Prop := 0 <= i /\ F !! Z.to_nat i = Some (Some t).

Lemma rep_len : length b = length F.
Proof. by eapply Forall2_length. Qed.

Lemma tree_in_data i t : tree_in i t -> (exists p, rd b i = Ok (Some p)) /\ data_at h b i = Ok (weight t).
Proof.
  intros [Hi Ht]. destruct (Forall2_lookup_r _ _ _ _ _ Hrep Ht) as (x & Hx & Hpl). cbn in Hpl.
  assert (Hrd : rd b i = Ok x) by (apply rd_Ok_iff; done). destruct (wtree_at_data _ _ _ Hpl) as (p & n & -> & Hn & Hd).
  split; [by exists p|]. unfold data_at. rewrite Hrd. cbn [mbind outcome_bind node_at]. rewrite Hn. cbn. by rewrite Hd.
Qed.

Lemma no_tree_rd i : 0 <= i -> F !! Z.to_nat i = Some None -> rd b i = Ok None.
Proof.
  intros Hi Ht. destruct (Forall2_lookup_r _ _ _ _ _ Hrep Ht) as (x & Hx & ->). by apply rd_Ok_iff.
Qed.

Lemma tree_in_fun i t t' : tree_in i t -> tree_in i t' -> t = t'.
Proof. intros [_ H] [_ H']. congruence. Qed.

Lemma next_place m j : 0 <= j -> j + Z.of_nat (S m) = Zlen F ->
  exists o, F !! Z.to_nat j = Some o /\ drop (Z.to_nat j) F = o :: drop (Z.to_nat (j + 1)) F.
Proof.
  intros Hj Hm. destruct (lookup_lt_is_Some_2 F (Z.to_nat j)) as [o Ho]; [unfold Zlen in Hm; lia|]. exists o. split; [done|].
  replace (Z.to_nat (j + 1)) with (S (Z.to_nat j)) by lia. by apply drop_S.
Qed.

(** The second of the first two. *)
Lemma first_two_second m k1 k2_0 : forall j,
  0 <= j -> j + Z.of_nat m = Zlen F -> k1 <> -1 -> (1 <= length (trees (drop (Z.to_nat j) F)))%nat ->
  exists k2 t, first_two m j b k1 k2_0 = Ok (k1, k2) /\ j <= k2 /\ tree_in k2 t /\ forall i t, j <= i < k2 -> ~ tree_in i t.
Proof.
  induction m as [|m IH]; intros j Hj Hm Hk Hlen.
  { rewrite drop_ge in Hlen by (unfold Zlen in Hm; lia). cbn in Hlen. lia. }
  destruct (next_place m j Hj Hm) as (o & Ho & Hd). rewrite Hd in Hlen. cbn [first_two]. destruct o as [t|].
  - assert (Ht : tree_in j t) by (split; done). destruct (proj1 (tree_in_data j t Ht)) as [p ->]. cbn [mbind outcome_bind].
    rewrite decide_False by done. exists j, t. split; [done|]. split; [lia|]. split; [done|]. intros; lia.
  - rewrite no_tree_rd by done. cbn [mbind outcome_bind]. destruct (IH (j + 1)) as (k2 & t & E & Hk2 & Ht & Hno); [lia|lia|done|exact Hlen|].
    exists k2, t. split; [done|]. split; [lia|]. split; [done|]. intros i t' Hi. destruct (decide (i = j)) as [->|]; [|apply Hno; lia].
    intros [_ Ht']. congruence.
Qed.

Lemma first_two_ok m k2_0 : forall j,
  0 <= j -> j + Z.of_nat m = Zlen F -> (2 <= length (trees (drop (Z.to_nat j) F)))%nat -> (forall i t, i < j -> ~ tree_in i t) ->
  exists k1 k2 t1 t2, first_two m j b (-1) k2_0 = Ok (k1, k2) /\ k1 < k2 /\ tree_in k1 t1 /\ tree_in k2 t2 /\
    forall i t, i < k2 -> i <> k1 -> ~ tree_in i t.
Proof.
  induction m as [|m IH]; intros j Hj Hm Hlen Hno.
  { rewrite drop_ge in Hlen by (unfold Zlen in Hm; lia). cbn in Hlen. lia. }
  destruct (next_place m j Hj Hm) as (o & Ho & Hd). rewrite Hd in Hlen. cbn [first_two]. destruct o as [t|].
  - assert (Ht : tree_in j t) by (split; done). destruct (proj1 (tree_in_data j t Ht)) as [p ->]. cbn [mbind outcome_bind].
    rewrite decide_True by done. destruct (first_two_second m j k2_0 (j + 1)) as (k2 & t2 & E & Hk2 & Ht2 & Hno2); [lia|lia|lia| |].
    { cbn in Hlen. unfold trees. lia. }
    exists j, k2, t, t2. split; [done|]. split; [lia|]. split; [done|]. split; [done|]. intros i t' Hi Hne.
    destruct (decide (i < j)); [by apply Hno|]. apply Hno2. lia.
  - rewrite no_tree_rd by done. cbn [mbind outcome_bind]. apply IH; [lia|lia|exact Hlen|].
    intros i t Hi. destruct (decide (i = j)) as [->|]; [|apply Hno; lia]. intros [_ Ht]. congruence.
Qed.

(** [k1] and [k2] hold the two smallest weights before [j]. *)
Definition least_two (j k1 k2 : Z) : Prop :=
  exists t1 t2, k1 <> k2 /\ k1 < j /\ k2 < j /\ tree_in k1 t1 /\ tree_in k2 t2 /\ weight t1 <= weight t2 /\
    forall i t, i < j -> i <> k1 -> i <> k2 -> tree_in i t -> weight t2 <= weight t.

(** What [pick_turn] does when there is a tree at [j], and when there is none. *)
Lemma pick_turn_tree j t k1 k2 t1 t2 :
  tree_in j t -> tree_in k1 t1 -> tree_in k2 t2 ->
  pick_turn h b j (k1, k2) = Ok (if decide (weight t < weight t1) then (j, k1) else if decide (weight t < weight t2) then (k1, j) else (k1, k2)).
Proof.
  intros Ht H1 H2. unfold pick_turn. destruct (tree_in_data j t Ht) as [[p ->] Ej]. cbn [mbind outcome_bind]. rewrite Ej.
  cbn [mbind outcome_bind]. rewrite (proj2 (tree_in_data k1 t1 H1)). cbn [mbind outcome_bind]. rewrite bool_decide_decide.
  destruct (decide (weight t < weight t1)); [done|]. rewrite (proj2 (tree_in_data k2 t2 H2)). cbn [mbind outcome_bind].
  rewrite bool_decide_decide. by destruct (decide (weight t < weight t2)).
Qed.

(** The first turn orders the two. *)
Lemma pick_turn_first k1 k2 t1 t2 :
  k1 < k2 -> tree_in k1 t1 -> tree_in k2 t2 -> (forall i t, i < k2 -> i <> k1 -> ~ tree_in i t) ->
  exists ks, pick_turn h b k2 (k1, k2) = Ok ks /\ least_two (k2 + 1) ks.1 ks.2.
Proof.
  intros Hlt H1 H2 Hno. rewrite (pick_turn_tree k2 t2 k1 k2 t1 t2) by done. eexists. split; [done|].
  assert (Hnone : forall i t, i < k2 + 1 -> i <> k1 -> i <> k2 -> tree_in i t -> False) by (intros i t Hi N1 N2; apply Hno; [lia|done]).
  destruct (decide (weight t2 < weight t1)) as [Hw|Hw]; [|rewrite decide_False by lia].
  - exists t2, t1. cbn. do 3 (split; [lia|]). do 2 (split; [done|]). split; [lia|]. intros i t Hi N1 N2 Hi'. exfalso. by apply (Hnone i t).
  - exists t1, t2. cbn. do 3 (split; [lia|]). do 2 (split; [done|]). split; [lia|]. intros i t Hi N1 N2 Hi'. exfalso. by apply (Hnone i t).
Qed.

(** The other turns keep the two smallest. *)
Lemma pick_turn_next j k1 k2 :
  0 <= j < Zlen F -> least_two j k1 k2 -> exists ks, pick_turn h b j (k1, k2) = Ok ks /\ least_two (j + 1) ks.1 ks.2.
Proof.
  intros Hj (t1 & t2 & Hne & B1 & B2 & H1 & H2 & Hord & Hmin). destruct (lookup_lt_is_Some_2 F (Z.to_nat j)) as [[t|] Ho]; [unfold Zlen in Hj; lia| |].
  - assert (Ht : tree_in j t) by (split; [lia|done]). rewrite (pick_turn_tree j t k1 k2 t1 t2) by done. eexists. split; [done|].
    assert (Hk : forall i t' t'', tree_in i t' -> tree_in i t'' -> weight t' = weight t'') by (intros i t' t'' A B; by rewrite (tree_in_fun i t' t'' A B)).
    destruct (decide (weight t < weight t1)) as [Hw|Hw]; [|destruct (decide (weight t < weight t2)) as [Hw2|Hw2]].
    + exists t, t1. cbn. do 3 (split; [lia|]). do 2 (split; [done|]). split; [lia|]. intros i t' Hi N1 N2 Hi'.
      destruct (decide (i = k2)) as [->|]; [rewrite (Hk _ _ _ Hi' H2); lia|]. transitivity (weight t2); [lia|]. apply (Hmin i); try done. lia.
    + exists t1, t. cbn. do 3 (split; [lia|]). do 2 (split; [done|]). split; [lia|]. intros i t' Hi N1 N2 Hi'.
      destruct (decide (i = k2)) as [->|]; [rewrite (Hk _ _ _ Hi' H2); lia|]. transitivity (weight t2); [lia|]. apply (Hmin i); try done. lia.
    + exists t1, t2. cbn. do 3 (split; [lia|]). do 2 (split; [done|]). split; [lia|]. intros i t' Hi N1 N2 Hi'.
      destruct (decide (i = j)) as [->|]; [rewrite (Hk _ _ _ Hi' Ht); lia|]. apply (Hmin i); try done. lia.
  - exists (k1, k2). unfold pick_turn. rewrite no_tree_rd by (done || lia). cbn [mbind outcome_bind]. split; [done|]. exists t1, t2. cbn.
    do 3 (split; [lia|]). do 2 (split; [done|]). split; [lia|]. intros i t' Hi N1 N2 Hi'.
    destruct (decide (i = j)) as [->|]; [destruct Hi'; congruence|]. apply (Hmin i); try done. lia.
Qed.

Lemma two_smallest_ok k2_0 :
  (2 <= length (trees F))%nat -> exists k1 k2, two_smallest h b (Zlen b) k2_0 = Ok (k1, k2) /\ least_two (Zlen F) k1 k2.
Proof.
  intros Hlen. assert (Hl : Zlen b = Zlen F) by (unfold Zlen; by rewrite rep_len). rewrite Hl. pose proof (Zlen_nonneg F).
  destruct (first_two_ok (Z.to_nat (Zlen F)) k2_0 0) as (a1 & a2 & t1 & t2 & E & Ha & H1 & H2 & Hno); [lia|lia|exact Hlen| |].
  { intros i t Hi [? _]. lia. }
  assert (Ha2 : a2 < Zlen F) by (destruct H2 as [_ H2]; apply lookup_lt_Some in H2; unfold Zlen; lia). pose proof H1 as [Hp1 _].
  unfold two_smallest. rewrite E. cbn [mbind outcome_bind].
  destruct (for_inv (fun j ks => (j = a2 /\ ks = (a1, a2)) \/ least_two j ks.1 ks.2) (pick_turn h b)
    (Z.to_nat (Zlen F - a2)) a2 (a1, a2)) as ([k1 k2] & E2 & HP).
  - intros j [k1 k2] Hj [[-> [= -> ->]]|HL].
    + destruct (pick_turn_first a1 a2 t1 t2 Ha H1 H2 Hno) as (ks & E3 & HL). exists ks. split; [done|]. by right.
    + destruct (pick_turn_next j k1 k2 ltac:(lia) HL) as (ks & E3 & HL'). exists ks. split; [done|]. by right.
  - by left.
  - exists k1, k2. split; [done|]. destruct HP as [[Hbad _]|HL]; [lia|]. by replace (a2 + Z.of_nat (Z.to_nat (Zlen F - a2))) with (Zlen F) in HL by lia.
Qed.
End Pick.

(** ** Merging *)

Lemma trees_elem F t : t ∈ trees F -> exists i, F !! i = Some (Some t).
Proof.
  unfold trees. intros ([t'|] & Hin & Ht)%list_elem_of_omap; cbn in Ht; [|done]. injection Ht as ->. by apply list_elem_of_lookup in Hin.
Qed.

Lemma total_in l w : Forall (fun x => 0 <= x) l -> w ∈ l -> w <= total l.
Proof.
  induction 1 as [|x l Hx Hl IH]; intros Hin; [by apply not_elem_of_nil in Hin|]. cbn.
  assert (0 <= total l) by (clear -Hl; induction Hl; cbn; lia). apply elem_of_cons in Hin as [->|Hin]; [lia|]. specialize (IH Hin). lia.
Qed.

Lemma s8_small z : 0 <= z <= 127 -> s8 z = z.
Proof. intros Hz. unfold s8. rewrite Z.mod_small by lia. lia. Qed.

(** No weight is negative and they fit a [char] together. *)
Definition light (ts : list wtree) : Prop := Forall (fun t => 0 <= weight t) ts /\ total (weight <$> ts) <= 127.

Lemma light_merge t1 t2 ts : light (t1 :: t2 :: ts) -> light (Fork t1 t2 :: ts).
Proof.
  unfold light. rewrite !Forall_cons. cbn [fmap list_fmap total]. rewrite weight_fork. intros [(H1 & H2 & H3) H4]. split; [split; [lia|done]|]. lia.
Qed.

#[global] Instance light_perm : Proper ((≡ₚ) ==> iff) light.
Proof. intros l k H. unfold light. by rewrite H. Qed.

Lemma merge_turn_ok h b F k2_0 :
  Forall2 (place h) b F -> (2 <= length (trees F))%nat -> light (trees F) ->
  exists h' b' q F' t1 t2 rest, merge_turn h b (Zlen b) k2_0 = Ok (h', b', q) /\ h ⊆ h' /\ Forall2 (place h') b' F' /\ Zlen b' = Zlen b /\
    trees F ≡ₚ t1 :: t2 :: rest /\ trees F' ≡ₚ Fork t1 t2 :: rest /\ weight t1 <= weight t2 /\
    Forall (fun t => weight t2 <= weight t) rest /\ wtree_at h' q (Fork t1 t2).
Proof.
  intros Hrep Hlen Hlight. destruct (two_smallest_ok h b F Hrep k2_0 Hlen) as (k1 & k2 & E & t1 & t2 & Hne & _ & _ & H1 & H2 & Hord & Hmin).
  pose proof H1 as [P1 L1]. pose proof H2 as [P2 L2].
  assert (Hn : Z.to_nat k1 <> Z.to_nat k2) by lia.
  set (G := <[Z.to_nat k2 := None]> (<[Z.to_nat k1 := None]> F)).
  assert (HG : trees F ≡ₚ t1 :: t2 :: trees G).
  { rewrite (trees_take F _ t1 L1). apply perm_skip. apply trees_take. by rewrite list_lookup_insert_ne. }
  destruct (Forall2_lookup_r _ _ _ _ _ Hrep L1) as (x1 & X1 & W1). destruct (Forall2_lookup_r _ _ _ _ _ Hrep L2) as (x2 & X2 & W2).
  cbn in W1, W2. destruct (wtree_at_data _ _ _ W1) as (q1 & n1 & -> & N1 & D1). destruct (wtree_at_data _ _ _ W2) as (q2 & n2 & -> & N2 & D2).
  unfold merge_turn. rewrite E. cbn [mbind outcome_bind]. rewrite (proj2 (rd_Ok_iff b k1 _) (conj P1 X1)), (proj2 (rd_Ok_iff b k2 _) (conj P2 X2)).
  cbn [mbind outcome_bind node_at]. rewrite N1, N2. cbn [mbind outcome_bind]. rewrite D1, D2.
  assert (Hsum : s8 (weight t1 + weight t2) = weight (Fork t1 t2)).
  { rewrite weight_fork. apply s8_small. rewrite HG in Hlight. destruct (light_merge _ _ _ Hlight) as [[Hw Hpos]%Forall_cons Htot].
    cbn [fmap list_fmap total] in Htot. rewrite weight_fork in *. split; [done|].
    assert (0 <= total (weight <$> trees G)) by (clear -Hpos; induction Hpos; cbn; lia). lia. }
  rewrite Hsum. destruct (alloc_fresh h (Bt (weight (Fork t1 t2)) (Some q1) (Some q2))) as (p & -> & Hp).
  assert (Hsub : h ⊆ <[p := Bt (weight (Fork t1 t2)) (Some q1) (Some q2)]> h) by (by apply insert_subseteq).
  set (h' := <[p := _]> h) in *.
  assert (B1 : k1 < Zlen b) by (apply lookup_lt_Some in X1; unfold Zlen; lia). assert (B2 : k2 < Zlen b) by (apply lookup_lt_Some in X2; unfold Zlen; lia).
  rewrite wr_in_range by lia. cbn [mbind outcome_bind]. rewrite wr_in_range by (rewrite Zlen_insert; lia). cbn [mbind outcome_bind].
  assert (Hq : wtree_at h' (Some p) (Fork t1 t2)).
  { exists p, (Some q1), (Some q2). split; [done|]. split; [apply lookup_insert_eq|]. split; by eapply wtree_at_more. }
  exists h', (<[Z.to_nat k2 := None]> (<[Z.to_nat k1 := Some p]> b)), (Some p), (<[Z.to_nat k2 := None]> (<[Z.to_nat k1 := Some (Fork t1 t2)]> F)), t1, t2, (trees G).
  split; [done|]. split; [done|]. split; [|split; [by rewrite !Zlen_insert|split; [done|split; [|split; [done|split; [|done]]]]]].
  - apply Forall2_insert; [|done]. apply Forall2_insert; [|done]. eapply Forall2_impl; [exact Hrep|]. intros x [t|]; cbn; [|done].
    by apply wtree_at_more.
  - rewrite <- (trees_put G (Z.to_nat k1)).
    + unfold G. rewrite (list_insert_insert_ne (<[Z.to_nat k1 := None]> F) (Z.to_nat k1) (Z.to_nat k2)) by done.
      by rewrite list_insert_insert_eq.
    + unfold G. rewrite list_lookup_insert_ne by done. apply list_lookup_insert_eq. by eapply lookup_lt_Some.
  - apply Forall_forall. intros t [i Hi]%trees_elem. unfold G in Hi. destruct (decide (i = Z.to_nat k2)) as [->|N2'].
    { rewrite list_lookup_insert_eq in Hi; [done|]. rewrite length_insert. by eapply lookup_lt_Some. }
    rewrite list_lookup_insert_ne in Hi by done. destruct (decide (i = Z.to_nat k1)) as [->|N1'].
    { rewrite list_lookup_insert_eq in Hi; [done|]. by eapply lookup_lt_Some. }
    rewrite list_lookup_insert_ne in Hi by done. apply (Hmin (Z.of_nat i)); try lia.
    + apply lookup_lt_Some in Hi. unfold Zlen. lia.
    + split; [lia|]. by rewrite Nat2Z.id.
Qed.

Lemma merge_loop_ok m : forall h b F k2_0 q0,
  Forall2 (place h) b F -> length (trees F) = S (S m) -> light (trees F) ->
  exists h' q t c, merge_loop (S m) h b (Zlen b) k2_0 q0 = Ok (h', q) /\ h ⊆ h' /\ wtree_at h' q t /\
    leaves t ≡ₚ trees F ≫= leaves /\ greedy (weight <$> trees F) c /\ wpl t = total (wpl <$> trees F) + c.
Proof.
  induction m as [|m IH]; intros h b F k2_0 q0 Hrep Hlen Hlight;
    destruct (merge_turn_ok h b F k2_0 Hrep ltac:(lia) Hlight) as (h1 & b1 & q1 & F1 & t1 & t2 & rest & E1 & Hs1 & Hrep1 & Hl1 & HF & HF1 & Hord & Hmin & Hq1);
    assert (Hgr : forall c, greedy (weight (Fork t1 t2) :: (weight <$> rest)) c -> greedy (weight <$> trees F) (weight t1 + weight t2 + c)).
  1,3: intros c Hc; apply (greedy_merge _ (weight t1) (weight t2) (weight <$> rest)); [by rewrite HF|done|by apply Forall_fmap|by rewrite <- weight_fork].
  - rewrite HF in Hlen. destruct rest as [|t rest]; [|cbn in Hlen; lia]. cbn [merge_loop]. rewrite E1. cbn [mbind outcome_bind].
    exists h1, q1, (Fork t1 t2), (weight t1 + weight t2 + 0). split; [done|]. split; [done|]. split; [done|]. split; [|split].
    + rewrite HF. cbn. by rewrite app_nil_r.
    + apply Hgr. constructor.
    + rewrite wpl_fork, HF. cbn. lia.
  - assert (Hlen1 : length (trees F1) = S (S m)) by (rewrite HF1; rewrite HF in Hlen; cbn in *; lia).
    assert (Hlight1 : light (trees F1)) by (rewrite HF1; apply light_merge; by rewrite <- HF).
    destruct (IH h1 b1 F1 k2_0 q1 Hrep1 Hlen1 Hlight1) as (h' & q & t & c & E & Hs & Hq & Hlv & Hg & Hw).
    change (merge_loop (S (S m)) h b (Zlen b) k2_0 q0) with ('(h, b', q) ← merge_turn h b (Zlen b) k2_0; merge_loop (S m) h b' (Zlen b) k2_0 q).
    rewrite E1. cbn [mbind outcome_bind]. rewrite <- Hl1.
    exists h', q, t, (weight t1 + weight t2 + c). split; [done|]. split; [by transitivity h1|]. split; [done|]. split; [|split].
    + rewrite Hlv, HF1, HF. cbn. by rewrite <- app_assoc.
    + apply Hgr. eapply greedy_perm; [|exact Hg]. by rewrite HF1.
    + rewrite Hw, HF1, HF. cbn [fmap list_fmap total]. rewrite wpl_fork. lia.
Qed.

Lemma make_leaves_ok h a b0 :
  Zlen b0 = Zlen a -> Forall (fun w => 0 <= w <= 127) a ->
  exists h' b, make_leaves h a b0 (Zlen a) = Ok (h', b) /\ h ⊆ h' /\ Zlen b = Zlen a /\ Forall2 (place h') b ((fun w => Some (Leaf w)) <$> a).
Proof.
  intros Hl Ha. pose proof (Zlen_nonneg a).
  set (P := fun (i : Z) (st : heap * list ptr) => h ⊆ st.1 /\ Zlen st.2 = Zlen a /\
    forall j w, 0 <= j < i -> a !! Z.to_nat j = Some w -> exists p, rd st.2 j = Ok (Some p) /\ st.1 !! p = Some (Bt w None None)).
  unfold make_leaves. destruct (for_inv P (fun i '(h, b) => w ← rd a i; let '(h, p) := alloc h (Bt (s8 w) None None) in b ← wr b i p; Ok (h, b))
    (Z.to_nat (Zlen a)) 0 (h, b0)) as ([h' b] & E & Hs & Hb & Hn).
  - intros i [h1 b1] Hi (Hs & Hb & Hn). cbn [fst snd] in *. destruct (rd_in_range a i ltac:(lia)) as [w Hw]. rewrite Hw. cbn [mbind outcome_bind].
    pose proof (Forall_rd _ _ _ _ Ha Hw) as Hw'. cbn in Hw'. rewrite s8_small by done.
    destruct (alloc_fresh h1 (Bt w None None)) as (p & -> & Hp). rewrite wr_in_range by lia. cbn [mbind outcome_bind].
    eexists. split; [done|]. unfold P. cbn [fst snd]. split; [transitivity h1; [done|by apply insert_subseteq]|]. split; [by rewrite Zlen_insert|].
    intros j w' Hj Hw2. destruct (decide (j = i)) as [->|Hne].
    + exists p. rewrite rd_insert_eq by lia. split; [done|]. apply rd_Ok_iff in Hw as [_ Hw]. assert (w' = w) as -> by congruence. apply lookup_insert_eq.
    + destruct (Hn j w') as (p' & Hr & Hp'); [lia|done|]. exists p'. rewrite rd_insert_ne by lia. split; [done|].
      rewrite lookup_insert_ne by congruence. done.
  - split; [done|]. split; [done|]. intros; lia.
  - cbn [fst snd] in *. exists h', b. split; [done|]. split; [done|]. split; [done|]. apply Forall2_same_length_lookup_2.
    + rewrite length_fmap. unfold Zlen in Hb. lia.
    + intros i x o Hx Ho. rewrite list_lookup_fmap in Ho. destruct (a !! i) as [w|] eqn:Ew; [|done]. injection Ho as <-.
      pose proof (lookup_lt_Some _ _ _ Ew). destruct (Hn (Z.of_nat i) w) as (p & Hr & Hp); [unfold Zlen; lia|by rewrite Nat2Z.id|].
      apply rd_Ok_iff in Hr as [_ Hr]. rewrite Nat2Z.id in Hr. assert (x = Some p) as -> by congruence. cbn. by exists p.
Qed.

(** ** Properties *)

(** C25: [CreateBTree] reads back the text of every tree: from the letters, parentheses and
    commas of any tree whose parentheses are at most ten deep it builds that tree in new
    nodes, whatever its variables hold at first, and [Inorder] then prints the letters
    of the tree in order. *)
Theorem create_reads_tree h p0 s0 k0 t rest :
  t <> E -> letters t -> nesting t <= MS -> Zlen s0 = MS ->
  exists h' x, CreateBTree h p0 s0 k0 (show t ++ 0 :: rest) = Ok (Some (h', x)) /\
    tree_at h' (dom h' ∖ dom h) x t /\ h ⊆ h' /\ Inorder (S (levels t)) h' x = Ok (in_order t).
Proof.
  intros Hne Hlet Hnest Hlen. destruct t as [|c l r]; [done|]. destruct Hlet as (Lc & Ll & Lr). unfold CreateBTree.
  assert (Hnz : forall t, letters t -> Forall (fun c => c <> 0) (show t)).
  { clear. induction t as [|c l IHl r IHr]; [constructor|]. intros (Lc & Ll & Lr). pose proof (letter_range c Lc). rewrite show_args.
    apply Forall_cons. split; [lia|]. destruct l, r; cbn [args]; rewrite ?Forall_cons, ?Forall_app; rewrite ?Forall_cons, ?Forall_app, ?Forall_cons;
      repeat split; try done; try lia; try (by apply IHl); by apply IHr. }
  rewrite bt_loop_steps by (by apply Hnz). rewrite show_args. cbn [steps]. rewrite bt_char_letter by done. cbn [mem bt s_ top k_].
  destruct (alloc_fresh h (Bt c None None)) as (p & -> & Hp). cbn [mbind outcome_bind]. set (st := Builder _ _ _ _ _ _).
  destruct (args_ok l r st p c (hangs_all l) (hangs_all r) Ll Lr) as (st' & xl & xr & E & (G1 & _) & Hp' & Ho & Tl & Tr); try done;
    cbn [top mem bt s_ p_ st]; try lia.
  { apply lookup_insert_eq. }
  rewrite E. cbn [mbind outcome_bind option_bind]. exists (mem st'), (bt st'). split; [done|]. rewrite G1. cbn [bt st].
  assert (D : dom (mem st) = {[p]} ∪ dom h) by (cbn; by rewrite dom_insert_L).
  assert (Ht : tree_at (mem st') (dom (mem st') ∖ dom h) (Some p) (T c l r)).
  { exists p, xl, xr. split; [done|]. split; [apply elem_of_difference; split; [apply elem_of_dom; eauto|by apply not_elem_of_dom]|].
    split; [done|]. split; (eapply tree_at_more; [|done]); rewrite D; set_solver. }
  split; [done|]. split; [|eapply Inorder_ok; [exact Ht|lia]]. apply map_subseteq_spec. intros z n Hz.
  assert (z <> p) by congruence. rewrite Ho; [cbn [mem st]; by rewrite lookup_insert_ne by congruence| |done].
  rewrite D. apply elem_of_union_r, elem_of_dom. eauto.
Qed.

(** The tree of the test program. *)
Definition sample : btree :=
  T 65 (T 66 (T 67 E E) E) (T 68 (T 69 (T 70 E E) (T 71 E E)) (T 72 E (T 73 E E))).

Lemma create_reads_tree_witness :
  show sample = text "A(B(C),D(E(F,G),H(,I)))" /\
  exists h' x, CreateBTree ∅ None (replicate 10 None) 0 (show sample ++ [0]) = Ok (Some (h', x)) /\
    tree_at h' (dom h' ∖ dom (∅ : heap)) x sample /\ ∅ ⊆ h' /\ Inorder (S (levels sample)) h' x = Ok (in_order sample).
Proof.
  split; [by vm_compute|].
  apply (create_reads_tree ∅ None (replicate 10 None) 0 sample []); [done|by vm_compute|by vm_compute|by vm_compute].
Defined.

(** C19: [CreateHuffman] builds an optimal tree: for two or more weights that are not
    negative and fit a [char] together, the tree it returns has these weights at its
    leaves, sums at its inner nodes, and no tree with the same leaves has a smaller
    weighted path length. *)
Theorem huffman_optimal h a b0 k2_0 q0 :
  2 <= Zlen a -> Zlen b0 = Zlen a -> Forall (fun w => 0 <= w) a -> total a <= 127 ->
  exists h' q t, CreateHuffman h a (Zlen a) b0 k2_0 q0 = Ok (h', q) /\ h ⊆ h' /\ wtree_at h' q t /\ leaves t ≡ₚ a /\
    forall t', leaves t' ≡ₚ a -> wpl t <= wpl t'.
Proof.
  intros Hn Hb Hpos Htot.
  assert (Hsmall : Forall (fun w => 0 <= w <= 127) a).
  { apply Forall_forall. intros w Hw. pose proof (total_in a w Hpos Hw). rewrite Forall_forall in Hpos. specialize (Hpos w Hw). lia. }
  destruct (make_leaves_ok h a b0 Hb Hsmall) as (h1 & b & E1 & Hs1 & Hlb & Hrep). set (F := (fun w => Some (Leaf w)) <$> a) in *.
  assert (HF : trees F = Leaf <$> a) by (unfold trees, F; clear; induction a as [|w a IH]; cbn; [done|]; by f_equal).
  assert (Hw : weight <$> trees F = a).
  { rewrite HF. clear. induction a as [|w a IH]; cbn; [done|]. rewrite IH. unfold weight. cbn. by rewrite Z.add_0_r. }
  assert (Hlv : trees F ≫= leaves = a) by (rewrite HF; clear; induction a as [|w a IH]; cbn in *; [done|]; by f_equal).
  assert (Hlight : light (trees F)).
  { split; [|by rewrite Hw]. apply (Forall_fmap weight (fun w => 0 <= w)). by rewrite Hw. }
  assert (Hwpl : total (wpl <$> trees F) = 0) by (rewrite HF; clear; induction a as [|w a IH]; cbn in *; [done|]; lia).
  destruct (merge_loop_ok (Z.to_nat (Zlen a) - 2) h1 b F k2_0 q0 Hrep) as (h' & q & t & c & E & Hs & Hq & Hl & Hg & Hc).
  { rewrite HF, length_fmap. unfold Zlen in *. lia. }
  { done. }
  exists h', q, t. unfold CreateHuffman. rewrite E1. cbn [mbind outcome_bind]. rewrite <- Hlb.
  replace (Z.to_nat (Zlen b - 1)) with (S (Z.to_nat (Zlen a) - 2)) by lia. split; [exact E|]. split; [by transitivity h1|]. split; [done|].
  split; [by rewrite Hl, Hlv|]. intros t' Ht'. rewrite Hw in Hg. rewrite Hc, Hwpl. apply greedy_least_tree.
  - by eapply greedy_perm; [symmetry; exact Ht'|].
  - by rewrite Ht'.
Qed.

(** The weights of the test program. *)
Lemma huffman_optimal_witness :
  exists h' q t, CreateHuffman ∅ [3; 9; 5; 12; 6; 15] 6 (replicate 6 None) 0 None = Ok (h', q) /\ ∅ ⊆ h' /\ wtree_at h' q t /\
    leaves t ≡ₚ [3; 9; 5; 12; 6; 15] /\ forall t', leaves t' ≡ₚ [3; 9; 5; 12; 6; 15] -> wpl t <= wpl t'.
Proof. apply (huffman_optimal ∅ [3; 9; 5; 12; 6; 15] (replicate 6 None) 0 None); [by_compute|done|by_compute|by_compute]. Defined.

(** Sums above 127 wrap: the root of the tree of 100, 100 and 1 holds -55, not 201. *)
Example huffman_char_overflow :
  match CreateHuffman ∅ [100; 100; 1] 3 (replicate 3 None) 0 None with
  | Ok (h, Some q) => data <$> h !! q = Some (-55)
  | _ => False
  end.
Proof. by vm_compute. Qed.

(** With one weight the pointer that is returned was never set. *)
Example huffman_one_weight q0 : (snd <$> match CreateHuffman ∅ [7] 1 [None] 0 q0 with Ok r => Some r | Fault _ => None end) = Some q0.
Proof. by vm_compute. Qed.
