(* ===== verification/RuleMatch.v ===== *)
(** * IPv6 rule matching

    src/src/ipv6_rule_match/ipv6_mask_rule_match.c and ipv6_mask_rule_match_2.c: packets
    are compared with masked rules.  The two versions differ in the comparison: the first
    has no parentheses around [&].  It is shown which rule the second version finds. *)

From stdpp Require Import base numbers list list_numbers.
From S2P Require Import Prelude.

#[local] Open Scope Z_scope.

Record ipv6_mask_rule_item := Rule {
  r_protocol : Z; protocol_mask : Z; prot_mk : Z;
  r_sport : Z; sport_mask : Z; sp_mk : Z;
  r_dport : Z; dport_mask : Z; dp_mk : Z;
  r_sipv6 : list Z; sipv6_mask : list Z; sipv6_mk : list Z;
  r_dipv6 : list Z; dipv6_mask : list Z; dipv6_mk : list Z;
  rule_id : Z;
}.

Record ipv6_pkt_key := Key {
  protocol : Z; sport : Z; dport : Z; sipv6 : list Z; dipv6 : list Z; pkt_id : Z; match_id : Z;
}.

Definition set_match (key : ipv6_pkt_key) (j : Z) : ipv6_pkt_key :=
  Key (protocol key) (sport key) (dport key) (sipv6 key) (dipv6 key) (pkt_id key) j.

(** [x & mask == mk] as the first version has it, and with the parentheses. *)
Definition test_1 (x mask mk : Z) : bool := bool_decide (Z.land x (if decide (mask = mk) then 1 else 0) <> 0).
Definition test_2 (x mask mk : Z) : bool := bool_decide (Z.land x mask = mk).

Section Traverse.
Context (test : Z -> Z -> Z -> bool).

(** The loop over the eight words of the addresses; [flag] is set by every word whose
    source matches. *)
Definition words (key : ipv6_pkt_key) (mrp : ipv6_mask_rule_item) (flag : bool) : outcome bool :=
  for_ 8 0 (fun k (flag : bool) =>
    s ← rd (sipv6 key) k;
    sm ← rd (sipv6_mask mrp) k;
    smk ← rd (sipv6_mk mrp) k;
    if test s sm smk then
      d ← rd (dipv6 key) k;
      dm ← rd (dipv6_mask mrp) k;
      dmk ← rd (dipv6_mk mrp) k;
      Ok (test d dm dmk)
    else Ok flag) flag.

(** The body of the loop over the rules: whether the rule is found, and [flag]; [reset]
    is whether [flag] is cleared then. *)
Definition try_rule (reset : bool) (key : ipv6_pkt_key) (mrp : ipv6_mask_rule_item) (flag : bool) : outcome (bool * bool) :=
  if test (protocol key) (protocol_mask mrp) (prot_mk mrp) && test (sport key) (sport_mask mrp) (sp_mk mrp)
     && test (dport key) (dport_mask mrp) (dp_mk mrp) then
    flag ← words key mrp flag;
    Ok (if (flag : bool) then (true, negb reset) else (false, flag))
  else Ok (false, flag).

Fixpoint rules_loop (reset : bool) (key : ipv6_pkt_key) (rules : list ipv6_mask_rule_item) (j : Z) (flag : bool) : outcome (ipv6_pkt_key * bool) :=
  match rules with
  | [] => Ok (key, flag)
  | mrp :: rules =>
      '(found, flag) ← try_rule reset key mrp flag;
      if found : bool then Ok (set_match key j, flag) else rules_loop reset key rules (j + 1) flag
  end.

(** [flag] is not initialised. *)
Fixpoint traverse (reset : bool) (keys : list ipv6_pkt_key) (rules : list ipv6_mask_rule_item) (flag : bool) : outcome (list ipv6_pkt_key) :=
  match keys with
  | [] => Ok []
  | key :: keys =>
      '(key, flag) ← rules_loop reset key rules 0 flag;
      keys ← traverse reset keys rules flag;
      Ok (key :: keys)
  end.
End Traverse.

Definition traverse_1 := traverse test_1 false.
Definition traverse_2 := traverse test_2 true.

(** ** The programs: rules, packets and the count of hits *)

Definition IPV6_MASK_RULE_NUM : Z := 100000.
Definition PKT_KEY_NUM : Z := 10000.

Definition zeros : list Z := replicate 8 0.

(** The values under the masks, the end of the body of the loop that creates the rules. *)
Definition create_rule (protocol pm sport sm dport dm : Z) (sip sipm dip dipm : list Z) (id : Z) : ipv6_mask_rule_item :=
  Rule protocol pm (Z.land protocol pm) sport sm (Z.land sport sm) dport dm (Z.land dport dm)
       sip sipm (zip_with Z.land sip sipm) dip dipm (zip_with Z.land dip dipm) id.

(** The arrays start with zeros; the first version sets one word of each address. *)
Definition rule_1 (i : Z) : ipv6_mask_rule_item :=
  let set x := <[Z.to_nat (i mod 8) := u16 x]> zeros in
  create_rule 6 255 80 65535 8080 65535 (set (4660 + i)) (set (4660 + i)) (set (22136 + i)) (set (773615 - i)) 1.
Definition rule_2 (i : Z) : ipv6_mask_rule_item :=
  create_rule 6 255 128 65535 144 65535 (replicate 8 (u16 i)) (replicate 8 65535) (replicate 8 (u16 i)) (replicate 8 65535) i.

Definition key_1 (i : Z) : ipv6_pkt_key :=
  Key 6 80 0 (<[Z.to_nat (i mod 8) := u16 (4660 + i)]> zeros) (<[Z.to_nat (i mod 8) := u16 (43981 + i)]> zeros) i IPV6_MASK_RULE_NUM.
Definition key_2 (i : Z) : ipv6_pkt_key :=
  Key 6 128 144 (replicate 8 50000) (replicate 8 50000) i IPV6_MASK_RULE_NUM.

Definition upto (n : Z) : list Z := seqZ 0 n.

Fixpoint hit_num (keys : list ipv6_pkt_key) : Z :=
  match keys with
  | [] => 0
  | key :: keys => (if match_id key <? IPV6_MASK_RULE_NUM then 1 else 0) + hit_num keys
  end.

(** The printed number of hits; [flag] is what the uninitialised variable holds. *)
Definition main_1 (flag : bool) : outcome Z :=
  keys ← traverse_1 (key_1 <$> upto PKT_KEY_NUM) (rule_1 <$> upto IPV6_MASK_RULE_NUM) flag;
  Ok (hit_num keys).
Definition main_2 (flag : bool) : outcome Z :=
  keys ← traverse_2 (key_2 <$> upto PKT_KEY_NUM) (rule_2 <$> upto IPV6_MASK_RULE_NUM) flag;
  Ok (hit_num keys).

(** ** What the second version finds *)

Definition word (l : list Z) (k : nat) : Z := nth k l 0.
Definition src_word (key : ipv6_pkt_key) (r : ipv6_mask_rule_item) (k : nat) : bool :=
  test_2 (word (sipv6 key) k) (word (sipv6_mask r) k) (word (sipv6_mk r) k).
Definition dst_word (key : ipv6_pkt_key) (r : ipv6_mask_rule_item) (k : nat) : bool :=
  test_2 (word (dipv6 key) k) (word (dipv6_mask r) k) (word (dipv6_mk r) k).

Definition ports (key : ipv6_pkt_key) (r : ipv6_mask_rule_item) : bool :=
  test_2 (protocol key) (protocol_mask r) (prot_mk r) && test_2 (sport key) (sport_mask r) (sp_mk r) && test_2 (dport key) (dport_mask r) (dp_mk r).

(** What the last word with the right source says of the destination; [flag] without one. *)
Definition last_word (key : ipv6_pkt_key) (r : ipv6_mask_rule_item) (flag : bool) : bool :=
  match find (src_word key r) [7; 6; 5; 4; 3; 2; 1; 0]%nat with Some k => dst_word key r k | None => flag end.

Definition hits (key : ipv6_pkt_key) (r : ipv6_mask_rule_item) : bool := ports key r && last_word key r false.

(** What a match is meant to be. *)
Definition matches (key : ipv6_pkt_key) (r : ipv6_mask_rule_item) : bool :=
  ports key r && forallb (fun k => src_word key r k && dst_word key r k) [0; 1; 2; 3; 4; 5; 6; 7]%nat.

Definition pkt_ok (key : ipv6_pkt_key) : Prop := length (sipv6 key) = 8%nat /\ length (dipv6 key) = 8%nat.
Definition rule_ok (r : ipv6_mask_rule_item) : Prop :=
  length (sipv6_mask r) = 8%nat /\ length (sipv6_mk r) = 8%nat /\ length (dipv6_mask r) = 8%nat /\ length (dipv6_mk r) = 8%nat.

(** The number of the first rule that is hit. *)
Fixpoint first_hit (key : ipv6_pkt_key) (rules : list ipv6_mask_rule_item) (j : Z) : option Z :=
  match rules with
  | [] => None
  | r :: rules => if hits key r then Some j else first_hit key rules (j + 1)
  end.

Lemma rd_word l k : length l = 8%nat -> (k < 8)%nat -> rd l (Z.of_nat k) = Ok (word l k).
Proof.
  intros Hl Hk. apply rd_Ok_iff. split; [lia|]. rewrite Nat2Z.id. unfold word.
  destruct (lookup_lt_is_Some_2 l k ltac:(lia)) as [x Hx]. by rewrite Hx, (nth_lookup_Some _ _ _ _ Hx).
Qed.

Lemma words_ok key r flag :
  pkt_ok key -> rule_ok r -> words test_2 key r flag = Ok (last_word key r flag).
Proof.
  intros [K1 K2] (R1 & R2 & R3 & R4). unfold words, last_word.
  assert (Hk : forall k, (k < 8)%nat -> forall flag : bool,
    (s ← rd (sipv6 key) (Z.of_nat k); sm ← rd (sipv6_mask r) (Z.of_nat k); smk ← rd (sipv6_mk r) (Z.of_nat k);
     if test_2 s sm smk then d ← rd (dipv6 key) (Z.of_nat k); dm ← rd (dipv6_mask r) (Z.of_nat k); dmk ← rd (dipv6_mk r) (Z.of_nat k); Ok (test_2 d dm dmk)
     else Ok flag) = Ok (if src_word key r k then dst_word key r k else flag)).
  { intros k Hk f. rewrite !rd_word by done. cbn [mbind outcome_bind]. fold (src_word key r k). by destruct (src_word key r k). }
  cbn [for_]. change (0 + 1 + 1 + 1 + 1 + 1 + 1 + 1) with (Z.of_nat 7). change (0 + 1 + 1 + 1 + 1 + 1 + 1) with (Z.of_nat 6).
  change (0 + 1 + 1 + 1 + 1 + 1) with (Z.of_nat 5). change (0 + 1 + 1 + 1 + 1) with (Z.of_nat 4).
  change (0 + 1 + 1 + 1) with (Z.of_nat 3). change (0 + 1 + 1) with (Z.of_nat 2). change (0 + 1) with (Z.of_nat 1). change 0 with (Z.of_nat 0).
  repeat (rewrite Hk by lia; cbn [mbind outcome_bind]). cbn [find]. repeat (destruct (src_word key r _); [done|]). done.
Qed.

Lemma rules_loop_ok key rules : forall j,
  pkt_ok key -> Forall rule_ok rules ->
  rules_loop test_2 true key rules j false = Ok (match first_hit key rules j with Some i => set_match key i | None => key end, false).
Proof.
  induction rules as [|r rules IH]; intros j Hk Hr; [done|]. apply Forall_cons in Hr as [Hr Hrs]. cbn [rules_loop first_hit].
  unfold try_rule, hits. fold (ports key r). destruct (ports key r); cbn [andb].
  - rewrite words_ok by done. cbn [mbind outcome_bind]. destruct (last_word key r false); cbn [mbind outcome_bind negb]; [done|]. by apply IH.
  - cbn [mbind outcome_bind]. by apply IH.
Qed.

(** Every packet gets the number of the first rule it hits, or keeps its own, when
    [flag] happens to be 0 at the start. *)
Lemma traverse_finds keys rules :
  Forall pkt_ok keys -> Forall rule_ok rules ->
  traverse_2 keys rules false =
    Ok ((fun key => match first_hit key rules 0 with Some i => set_match key i | None => key end) <$> keys).
Proof.
  intros Hk Hr. unfold traverse_2. induction Hk as [|key keys Hkey _ IH]; [done|]. cbn [traverse]. rewrite rules_loop_ok by done.
  cbn [mbind outcome_bind]. rewrite IH. done.
Qed.

(** A rule that matches as meant is hit, so a packet with such a rule is found. *)
Lemma matches_hits key r : matches key r = true -> hits key r = true.
Proof.
  unfold matches, hits, last_word. rewrite !andb_true_iff. cbn [forallb find]. rewrite !andb_true_iff.
  intros [Hp H]. split; [done|]. destruct H as (_ & _ & _ & _ & _ & _ & _ & [Hs Hd] & _). by rewrite Hs.
Qed.

(** ** What the programs print *)

(** No rule of the first version is even compared further than the protocol: [6] is
    masked with the 0 that comparing the mask and the masked value gives. *)
Lemma rules_loop_1 i rules : forall j flag,
  rules_loop test_1 false (key_1 i) (rule_1 <$> rules) j flag = Ok (key_1 i, flag).
Proof. induction rules as [|r rules IH]; intros j flag; [done|]. rewrite fmap_cons. cbn [rules_loop]. apply IH. Qed.

Lemma traverse_1_none keys rules flag :
  traverse_1 (key_1 <$> keys) (rule_1 <$> rules) flag = Ok (key_1 <$> keys).
Proof.
  unfold traverse_1. induction keys as [|i keys IH]; [done|]. rewrite !fmap_cons. cbn [traverse].
  rewrite rules_loop_1. cbn [mbind outcome_bind]. by rewrite IH.
Qed.

Lemma hit_num_const (f : Z -> ipv6_pkt_key) keys :
  (forall i, match_id (f i) = IPV6_MASK_RULE_NUM) -> hit_num (f <$> keys) = 0.
Proof. intros H. induction keys as [|i keys IH]; [done|]. rewrite fmap_cons. cbn [hit_num]. rewrite H, IH. done. Qed.

(** The first program finds nothing, for every packet has an even protocol number. *)
Lemma main_1_prints flag : main_1 flag = Ok 0.
Proof. unfold main_1. rewrite traverse_1_none. cbn [mbind outcome_bind]. by rewrite hit_num_const. Qed.

Lemma first_hit_at key pre r post : forall j,
  Forall (fun r => hits key r = false) pre -> hits key r = true ->
  first_hit key (pre ++ r :: post) j = Some (j + Z.of_nat (length pre)).
Proof.
  induction pre as [|p pre IH]; intros j Hp Hr; cbn [app first_hit].
  - rewrite Hr. f_equal. cbn. lia.
  - apply Forall_cons in Hp as [Hp Hpre]. rewrite Hp, IH by done. f_equal. cbn [length]. lia.
Qed.

Lemma test_2_full x y : 0 <= x < 65536 -> test_2 x 65535 (Z.land (u16 y) 65535) = bool_decide (x = y mod 65536).
Proof.
  intros Hx. unfold test_2, u16. change 65535 with (Z.ones 16). rewrite !Z.land_ones by lia. change (2 ^ 16) with 65536.
  rewrite Z.mod_mod, (Z.mod_small x) by lia. done.
Qed.

(** A rule of the second program has one number in all its words. *)
Lemma rule_2_word i j k : (k < 8)%nat ->
  src_word (key_2 i) (rule_2 j) k = bool_decide (50000 = j mod 65536) /\
  dst_word (key_2 i) (rule_2 j) k = bool_decide (50000 = j mod 65536).
Proof.
  intros Hk. rewrite <- test_2_full by lia. do 8 (destruct k as [|k]; [done|]). lia.
Qed.

Lemma rule_2_last_word i j flag :
  last_word (key_2 i) (rule_2 j) flag = if bool_decide (50000 = j mod 65536) then true else flag.
Proof.
  unfold last_word. cbn [find]. rewrite !(fun k Hk => proj1 (rule_2_word i j k Hk)) by lia.
  case_bool_decide; [|done]. rewrite (proj2 (rule_2_word i j 7 ltac:(lia))). by case_bool_decide.
Qed.

Lemma rule_2_hits i j : hits (key_2 i) (rule_2 j) = bool_decide (50000 = j mod 65536).
Proof. unfold hits. rewrite rule_2_last_word. change (ports (key_2 i) (rule_2 j)) with true. by case_bool_decide. Qed.

Lemma rules_2_split :
  rule_2 <$> upto IPV6_MASK_RULE_NUM = (rule_2 <$> seqZ 0 50000) ++ rule_2 50000 :: (rule_2 <$> seqZ 50001 49999).
Proof.
  unfold upto, IPV6_MASK_RULE_NUM. change 100000 with (50000 + 50000). rewrite seqZ_app by lia.
  rewrite (seqZ_cons (0 + 50000)) by lia. by rewrite fmap_app, fmap_cons.
Qed.

Lemma first_hit_2 i : first_hit (key_2 i) (rule_2 <$> upto IPV6_MASK_RULE_NUM) 0 = Some 50000.
Proof.
  rewrite rules_2_split, first_hit_at.
  - by rewrite length_fmap, length_seqZ.
  - apply Forall_fmap, Forall_forall. intros j Hj. apply elem_of_seqZ in Hj. cbn. rewrite rule_2_hits, bool_decide_eq_false, Z.mod_small by lia. lia.
  - by rewrite rule_2_hits.
Qed.

Lemma rule_2_ok j : rule_ok (rule_2 j).
Proof. done. Qed.
Lemma key_2_ok i : pkt_ok (key_2 i).
Proof. done. Qed.

Lemma traverse_2_found keys :
  traverse_2 (key_2 <$> keys) (rule_2 <$> upto IPV6_MASK_RULE_NUM) false = Ok ((fun i => set_match (key_2 i) 50000) <$> keys).
Proof.
  rewrite traverse_finds.
  - f_equal. rewrite <- list_fmap_compose. apply list_fmap_ext. intros _ i _. unfold compose. by rewrite first_hit_2.
  - apply Forall_fmap, Forall_true. intros i. apply key_2_ok.
  - apply Forall_fmap, Forall_true. intros i. apply rule_2_ok.
Qed.

(** With a flag that is set at the start the first packet takes the first rule. *)
Lemma rules_loop_2_stale i :
  rules_loop test_2 true (key_2 i) (rule_2 <$> upto IPV6_MASK_RULE_NUM) 0 true = Ok (set_match (key_2 i) 0, false).
Proof.
  unfold upto. rewrite (seqZ_cons 0) by done. rewrite fmap_cons. cbn [rules_loop]. unfold try_rule.
  rewrite (words_ok _ _ _ (key_2_ok i) (rule_2_ok 0)), rule_2_last_word. done.
Qed.

Lemma hit_num_found (f : Z -> ipv6_pkt_key) keys : (forall i, match_id (f i) < IPV6_MASK_RULE_NUM) -> hit_num (f <$> keys) = Z.of_nat (length keys).
Proof.
  intros H. induction keys as [|i keys IH]; [done|]. rewrite fmap_cons. cbn [hit_num].
  rewrite (proj2 (Z.ltb_lt _ _) (H i)), IH. cbn [length]. lia.
Qed.

Lemma traverse_2_cons key keys rules flag key' flag' keys' :
  rules_loop test_2 true key rules 0 flag = Ok (key', flag') -> traverse_2 keys rules flag' = Ok keys' ->
  traverse_2 (key :: keys) rules flag = Ok (key' :: keys').
Proof. intros H1 H2. unfold traverse_2 in *. cbn [traverse]. rewrite H1. cbn [mbind outcome_bind]. by rewrite H2. Qed.

(** The packets of the second program and what is found for them. *)
Lemma traverse_2_program flag :
  exists j, traverse_2 (key_2 <$> upto PKT_KEY_NUM) (rule_2 <$> upto IPV6_MASK_RULE_NUM) flag =
    Ok (set_match (key_2 0) j :: ((fun i => set_match (key_2 i) 50000) <$> seqZ 1 9999)) /\ j < IPV6_MASK_RULE_NUM.
Proof.
  assert (E : upto PKT_KEY_NUM = 0 :: seqZ 1 9999) by exact (seqZ_cons 0 10000 ltac:(lia)).
  rewrite E. destruct flag.
  - exists 0. split; [|done]. rewrite fmap_cons. eapply traverse_2_cons; [apply rules_loop_2_stale|apply traverse_2_found].
  - exists 50000. split; [|done]. rewrite traverse_2_found. by rewrite fmap_cons.
Qed.

(** The second program finds a rule for every packet, whatever [flag] holds at the start. *)
Lemma main_2_prints flag : main_2 flag = Ok PKT_KEY_NUM.
Proof.
  unfold main_2. destruct (traverse_2_program flag) as (j & -> & Hj). cbn [mbind outcome_bind]. f_equal. cbn [hit_num].
  rewrite hit_num_found by done. rewrite length_seqZ, Z2Nat.id by lia. cbn [match_id set_match].
  by rewrite (proj2 (Z.ltb_lt _ _) Hj).
Qed.

(** ** What goes wrong *)

Definition any8 : list Z := replicate 8 0.
Definition some_rule (s d : list Z) : ipv6_mask_rule_item :=
  Rule 6 255 6 80 65535 80 8080 65535 8080 s (replicate 8 65535) s d (replicate 8 65535) d 0.
Definition some_key (s d : list Z) : ipv6_pkt_key := Key 6 80 8080 s d 0 100000.

Definition match_ids (keys : outcome (list ipv6_pkt_key)) : option (list Z) :=
  match keys with Ok l => Some (match_id <$> l) | Fault _ => None end.

(** One word that agrees is enough when no later source word does. *)
Example one_word_is_enough :
  let r := some_rule [1; 2; 3; 4; 5; 6; 7; 8] [1; 2; 3; 4; 5; 6; 7; 8] in
  let key := some_key [1; 0; 0; 0; 0; 0; 0; 0] [1; 9; 9; 9; 9; 9; 9; 9] in
  matches key r = false /\ match_ids (traverse_2 [key] [r] false) = Some [0].
Proof. by vm_compute. Qed.

(** [flag] is not initialised: when it is not 0 at first, the first rule with the right
    ports is found, whatever the addresses. *)
Example stale_flag :
  let r := some_rule any8 any8 in
  let key := some_key (replicate 8 1) (replicate 8 1) in
  match_ids (traverse_2 [key] [r] true) = Some [0].
Proof. by vm_compute. Qed.

(** The first version masks with the result of a comparison: a packet that agrees in
    everything is not found when its protocol number is even. *)
Example even_protocol_not_found :
  let r := some_rule any8 any8 in
  matches (some_key any8 any8) r = true /\ test_1 (protocol (some_key any8 any8)) (protocol_mask r) (prot_mk r) = false.
Proof. by vm_compute. Qed.
