(* ===== verification/Download.v ===== *)
(** * The parallel download

    src/src/download/download.c: a file is fetched over HTTP by several threads, each of
    which asks for a range of it and writes what it gets at its place in the file; a
    monitor waits until everything has been counted.  What is left to do is kept in a
    file, from which a later run goes on.

    The network and the name server are arguments.  The threads and the main program that creates
    them interleave freely: what is done under the lock is one step, an assignment without it is a
    load and a store. *)

From stdpp Require Import base numbers list list_numbers gmap relations strings.
From S2P Require Import Prelude CStr.

#[local] Open Scope Z_scope.

Definition MAX_THREAD : Z := 100.

Record URLInfo := URL { schema : list Z; host : list Z; host_name : list Z; port : Z; file : list Z }.
Record Resource := Res { file_url : list Z; file_size : Z; file_name : list Z }.
Record ThreadArg := Arg { start_pos : Z; limit : Z; no : nat }.
Record BreakPoint := Break { downloaded : Z; thread_amount : Z; tasks : list (Z * Z) }.

(** ** URLs *)

(** [buf[j++] = url[i++]] until a character that stops; the array has room for [size]
    characters and the NUL after them.  The end of the URL is a NUL. *)
Fixpoint copy_until (stop : Z -> bool) (url : list Z) (size : nat) : outcome (list Z * list Z) :=
  match url with
  | [] => Fault OutOfBounds
  | c :: url' =>
      if stop c then Ok ([], url)
      else match size with
           | O => Fault OutOfBounds
           | S size => '(s, rest) ← copy_until stop url' size; Ok (c :: s, rest)
           end
  end.

Definition is_char (x : Z) (c : Z) : bool := bool_decide (c = x).

Fixpoint skip (n : nat) (url : list Z) : outcome (list Z) :=
  match n, url with
  | O, _ => Ok url
  | S _, [] => Fault OutOfBounds
  | S n, _ :: url => skip n url
  end.

(** [sscanf( s, "%d", &x )]: the value, or [None] when there is no number and [x] keeps what it had. *)
Fixpoint scan_digits (n : Z) (s : list Z) : Z * list Z :=
  match s with
  | c :: s' => if bool_decide (48 <= c <= 57) then scan_digits (n * 10 + (c - 48)) s' else (n, s)
  | [] => (n, [])
  end.
Definition scan_unsigned (s : list Z) : option (Z * list Z) :=
  match s with c :: _ => if bool_decide (48 <= c <= 57) then Some (scan_digits 0 s) else None | [] => None end.
Fixpoint scan_int (s : list Z) : option (Z * list Z) :=
  match s with
  | [] => None
  | c :: s' =>
      if is_space c then scan_int s'
      else if bool_decide (c = 45) then '(n, r) ← scan_unsigned s'; Some (s32 (- n), r)
      else if bool_decide (c = 43) then '(n, r) ← scan_unsigned s'; Some (s32 n, r)
      else '(n, r) ← scan_unsigned s; Some (s32 n, r)
  end.

(** [url] ends with its NUL; [resolve] is [gethostbyname] and [inet_ntop], [junk] what the
    fields that are not set hold. *)
Definition parse_url (resolve : list Z -> option (list Z)) (junk : URLInfo) (url : list Z) : outcome URLInfo :=
  '(schema, rest) ← copy_until (is_char 58) url 7;
  rest ← skip 3 rest;
  '(host_, rest) ← copy_until (fun c => is_char 58 c || is_char 47 c || is_char 0 c) rest 255;
  '(port_, rest) ←
    (if bool_decide (head rest = Some 58) then
       rest ← skip 1 rest;
       '(p, rest) ← copy_until (is_char 47) rest 7;
       Ok (match scan_int p with Some (n, _) => n | None => port junk end, rest)
     else Ok (80, rest));
  '(file_, _) ← (if bool_decide (head rest = Some 0) then Ok ([47], rest) else copy_until (is_char 0) rest 255);
  Ok (URL schema (match resolve host_ with Some ip => ip | None => host junk end) host_ port_ file_).

(** [strstr]: the offset of a text, up to the first NUL. *)
Fixpoint starts_with (pat s : list Z) : bool :=
  match pat, s with
  | [], _ => true
  | a :: pat, b :: s => bool_decide (a = b) && starts_with pat s
  | _, [] => false
  end.
Fixpoint strstr (s pat : list Z) : option Z :=
  if starts_with pat s then Some 0
  else match s with [] => None | c :: s => k ← strstr s pat; Some (k + 1) end.

(** ** Redirections *)

(** The parts of a path between slashes. *)
Fixpoint segments (redirect : list Z) : list (list Z) :=
  match redirect with
  | [] => [[]]
  | c :: r =>
      match segments r with
      | seg :: segs => if bool_decide (c = 47) then [] :: seg :: segs else (c :: seg) :: segs
      | [] => []
      end
  end.

(** The segments on [stack2]: [..] takes one away.  The arrays have 256 places of 256 characters. *)
Fixpoint push_segments (segs : list (list Z)) (p2 : Z) (stack2 : list (list Z)) : outcome (Z * list (list Z)) :=
  match segs with
  | [] => Ok (p2, stack2)
  | seg :: segs =>
      if bool_decide (seg = text "..") && bool_decide (-1 < p2) then push_segments segs (p2 - 1) stack2
      else if bool_decide (seg = text ".") then push_segments segs p2 stack2
      else stack2 ← wr stack2 p2 seg; push_segments segs (p2 + 1) stack2
  end.

(** [strncpy( new_url, old_url, i + 1 )] for the last slash. *)
Fixpoint last_slash (s : list Z) : option Z :=
  match s with
  | [] => None
  | c :: s => match last_slash s with Some i => Some (i + 1) | None => if bool_decide (c = 47) then Some 0 else None end
  end.

Fixpoint append_segments (n : nat) (j : Z) (stack2 : list (list Z)) : outcome (list Z) :=
  match n with
  | O => Ok []
  | S n => seg ← rd stack2 j; rest ← append_segments n (j + 1) stack2; Ok (seg ++ [47] ++ rest)
  end.

Definition join_url (resolve : list Z -> option (list Z)) (junk : URLInfo) (old_url redirect : list Z) : outcome (list Z) :=
  if decide (strstr redirect (text "://") <> None) then Ok redirect
  else
    let segs := segments redirect in
    if decide (256 < Zlen segs \/ Exists (fun seg => 256 <= Zlen seg) segs) then Fault OutOfBounds
    else
      '(p2, stack2) ← push_segments segs 0 (replicate 256 []);
      first ← rd stack2 0;
      start ← (if bool_decide (first = []) then
                 u ← parse_url resolve junk (old_url ++ [0]);
                 Ok (schema u ++ text "://" ++ host u ++ [58] ++ dec (port u) ++ [47])
               else match last_slash old_url with Some i => Ok (take (Z.to_nat (i + 1)) old_url) | None => Fault OutOfBounds end);
      middle ← append_segments (Z.to_nat (p2 - 1)) 0 stack2;
      final ← rd stack2 (p2 - 1);
      if decide (256 <= Zlen (start ++ middle ++ final)) then Fault OutOfBounds else Ok (start ++ middle ++ final).

(** [sscanf( s, "%s", buf )]: a word, after blanks. *)
Fixpoint word_of (s : list Z) : list Z :=
  match s with [] => [] | c :: s => if is_space c then [] else c :: word_of s end.
Fixpoint skip_spaces (s : list Z) : list Z :=
  match s with [] => [] | c :: s' => if is_space c then skip_spaces s' else s end.

Definition after_text (buf pat : list Z) : option (list Z) := k ← strstr buf pat; Some (drop (Z.to_nat k + length pat) buf).

(** What follows the last slash. *)
Definition base_name (url : list Z) : list Z :=
  match last_slash url with Some i => drop (Z.to_nat (i + 1)) url | None => url end.

(** [ask] is what the server answers, [None] when there is no connection; [hops] is how many
    redirections are still followed, [size0] what [res.file_size] holds.  [None] is a resource
    that was never filled in. *)
Fixpoint get_resource (resolve : list Z -> option (list Z)) (junk : URLInfo) (size0 : Z) (ask : URLInfo -> option (list Z)) (hops : nat) (url : list Z)
    : outcome (option Resource * nat) :=
  u ← parse_url resolve junk (url ++ [0]);
  match ask u with
  | None => Ok (None, hops)
  | Some buf =>
      let buf := upto_nul (take 1024 buf) in
      if decide (strstr buf (text "HTTP/1.1 404") <> None \/ strstr buf (text "HTTP/1.0 404") <> None) then Ok (None, hops)
      else
        let answer :=
          let size := match after_text buf (text "Content-Length:") with
                      | Some r => match scan_int r with Some (n, _) => n | None => size0 end
                      | None => size0
                      end in
          Ok (Some (Res url size (base_name url)), hops) in
        match after_text buf (text "Location:"), hops with
        | Some r, S hops =>
            let redirect := word_of (skip_spaces r) in
            if decide (256 <= Zlen redirect) then Fault OutOfBounds
            else
              let old_url := schema u ++ text "://" ++ host_name u ++ [58] ++ dec (port u) ++ file u in
              new_url ← join_url resolve junk old_url redirect;
              get_resource resolve junk size0 ask hops new_url
        | _, _ => answer
        end
  end.

(** ** The tasks *)

(** A new task: the threads and what is kept of them. *)
Definition new_arg (size n : Z) (i : nat) : ThreadArg :=
  let block_size := Z.quot size n in
  Arg (block_size * Z.of_nat i) (if decide (Z.of_nat i = n - 1) then block_size + Z.rem size n else block_size) i.
Definition new_task (size n : Z) (i : nat) : Z * Z := (Z.quot size n * Z.of_nat i, Z.quot size n).

Definition threads_for (size n : Z) : Z := if decide (size < 1000000) then 1 else n.

Definition new_args (size n : Z) : list ThreadArg := new_arg size n <$> seq 0 (Z.to_nat n).

(** ** The file with what is left *)

Definition store_breakpoint (b : BreakPoint) : list Z :=
  dec (downloaded b) ++ [10] ++ dec (thread_amount b) ++ [10] ++
  concat ((fun t => dec t.1 ++ [45] ++ dec t.2 ++ [10]) <$> take (Z.to_nat (thread_amount b)) (tasks b)).

(** [fscanf( f, "%d-%d", ... )], into [t] as far as it matches. *)
Definition scan_task (s : list Z) (t : Z * Z) : (Z * Z) * list Z :=
  match scan_int s with
  | None => (t, s)
  | Some (a, s) =>
      match s with
      | 45 :: s' => match scan_int s' with Some (b, s) => ((a, b), s) | None => ((a, t.2), s') end
      | _ => ((a, t.2), s)
      end
  end.

Fixpoint scan_tasks (n : nat) (i : nat) (s : list Z) (t : Z * Z) : list ThreadArg :=
  match n with
  | O => []
  | S n => let '(t, s) := scan_task s t in Arg t.1 t.2 i :: scan_tasks n (S i) s t
  end.

(** The start of [download]: the threads, what [g_downloaded] is, and what is kept.  [cfg] is
    the text of the file with what is left, if there is one; [junk] what is on the stack. *)
Definition download (size thread_amount_ : Z) (cfg : option (list Z)) (junk : Z * Z) : outcome (option (list ThreadArg * BreakPoint)) :=
  if decide (MAX_THREAD < thread_amount_) then Ok None
  else
    let n := threads_for size thread_amount_ in
    if decide (n = 0) then Fault DivByZero
    else
      let fresh := Ok (Some (new_args size n, Break 0 n (new_task size n <$> seq 0 (Z.to_nat n)))) in
      match cfg with
      | None => fresh
      | Some s =>
          match (match scan_int s with None => if forallb is_space s then None else Some (0, s) | o => o end) with
          | None => fresh
          | Some (d, s) =>
              let '(n, s) := match scan_int s with Some (m, s) => (m, s) | None => (n, s) end in
              if decide (MAX_THREAD < n) then Fault OutOfBounds
              else
                let args := scan_tasks (Z.to_nat n) 0 s junk in
                Ok (Some (args, Break d n ((fun a => (start_pos a, limit a)) <$> args)))
          end
      end.

(** ** A thread *)

Definition answers (buf : list Z) (code : list Z) : bool := bool_decide (strstr (upto_nul buf) code <> None).
Definition good_answer (buf : list Z) : bool :=
  answers buf (text "HTTP/1.1 206") || answers buf (text "HTTP/1.0 206") || answers buf (text "HTTP/1.1 200") || answers buf (text "HTTP/1.0 200").
Definition blank_line : list Z := [13; 10; 13; 10].

(** The beginning of a good answer, for the runs. *)
Definition partial : list Z := text "HTTP/1.1 206 P" ++ blank_line.

(** Where a thread is in [download_part]. *)
Inductive part_pc :=
| P_send                              (* begin_down: send *)
| P_first                             (* recv of the headers *)
| P_count (i : Z) (first : bool)      (* written; pthread_mutex_lock *)
| P_more                              (* while(ct< targ->limit): recv *)
| P_load                              (* fclose(f); g_downloaded is read *)
| P_store (v : Z)                     (* g_breakpoint.downloaded=, without the lock *)
| P_done.

(** A thread: [from] is where the range in [pack] begins, [fpos] the position in the file. *)
Record part := Part { targ : ThreadArg; pc : part_pc; ct : Z; from : Z; fpos : Z }.

(** What the threads share: the bytes of the file by position, [g_downloaded], [g_breakpoint]. *)
Record shared := Shared { disk : gmap Z Z; g_downloaded : Z; g_breakpoint : BreakPoint }.

(** What [recv] returns: bytes, 0 for a closed connection, -1. *)
Inductive recv_event := Data (bytes : list Z) | Closed | Error.

Fixpoint fwrite (d : gmap Z Z) (pos : Z) (bytes : list Z) : gmap Z Z :=
  match bytes with
  | [] => d
  | b :: bytes => fwrite (<[pos := b]> d) (pos + 1) bytes
  end.

(** The first recv of an answer. *)
Definition recv_first (ev : recv_event) (t : part) (s : shared) : outcome (part * shared) :=
  let again := Ok (Part (targ t) P_send (ct t) (from t) (fpos t), s) in
  match ev with
  | Data buf =>
      if good_answer buf then
        match strstr (upto_nul buf) blank_line with
        | None => Fault NullDeref
        | Some k =>
            let body := drop (Z.to_nat (k + 4)) buf in
            Ok (Part (targ t) (P_count (Zlen body) true) (ct t + Zlen body) (from t) (fpos t + Zlen body),
                Shared (fwrite (disk s) (fpos t) body) (g_downloaded s) (g_breakpoint s))
        end
      else again
  | _ => again
  end.

(** The others; -1 is taken for a length. *)
Definition recv_more (ev : recv_event) (t : part) (s : shared) : outcome (part * shared) :=
  match ev with
  | Data buf =>
      Ok (Part (targ t) (P_count (Zlen buf) false) (ct t + Zlen buf) (from t) (fpos t + Zlen buf),
          Shared (fwrite (disk s) (fpos t) buf) (g_downloaded s) (g_breakpoint s))
  | Closed => Ok (Part (targ t) P_send (ct t) (start_pos (targ t) + ct t) (start_pos (targ t) + ct t), s)
  | Error => Fault OutOfBounds
  end.

(** What is done under the lock, and the test of the loop. *)
Definition count_part (i : Z) (first : bool) (t : part) (s : shared) : part * shared :=
  let g := g_downloaded s + i in
  let b := g_breakpoint s in
  let b := if first then b
           else Break g (thread_amount b) (<[no (targ t) := (start_pos (targ t) + ct t, limit (targ t) - ct t)]> (tasks b)) in
  if decide (ct t < limit (targ t)) then (Part (targ t) P_more (ct t) (from t) (fpos t), Shared (disk s) g b)
  else (Part (targ t) P_load (ct t) (from t) (fpos t), Shared (disk s) g b).

(** [g_breakpoint.downloaded=v] *)
Definition put_downloaded (v : Z) (s : shared) : shared :=
  Shared (disk s) (g_downloaded s) (Break v (thread_amount (g_breakpoint s)) (tasks (g_breakpoint s))).

Definition part_step (ev : recv_event) (t : part) (s : shared) : outcome (part * shared) :=
  match pc t with
  | P_send => Ok (Part (targ t) P_first (ct t) (from t) (fpos t), s)
  | P_first => recv_first ev t s
  | P_more => recv_more ev t s
  | P_count i first => Ok (count_part i first t s)
  | P_load => Ok (Part (targ t) (P_store (g_downloaded s)) (ct t) (from t) (fpos t), s)
  | P_store v => Ok (Part (targ t) P_done (ct t) (from t) (fpos t), put_downloaded v s)
  | P_done => Ok (t, s)
  end.

(** A thread at its start. *)
Definition new_part (a : ThreadArg) : part := Part a P_send 0 (start_pos a) (start_pos a).

(** Where the main program is in [download]: the threads it has not created, with what is kept of each
    at first, and the thread amount; then what it sets after it has created the monitor. *)
Inductive main_pc :=
| M_create (todo : list (ThreadArg * (Z * Z))) (n : Z)
| M_amount (n : Z)                    (* g_breakpoint.thread_amount=thread_amount *)
| M_load                              (* g_breakpoint.downloaded=g_downloaded *)
| M_store (v : Z)
| M_wait.                             (* pthread_join *)

Record system := System { parts : list part; main : main_pc; common : shared }.

Definition main_step (s : system) : system :=
  let c := common s in
  let b := g_breakpoint c in
  match main s with
  | M_create ((a, t) :: todo) n =>
      System (parts s ++ [new_part a]) (M_create todo n)
             (Shared (disk c) (g_downloaded c) (Break (downloaded b) (thread_amount b) (tasks b ++ [t])))
  | M_create [] n => System (parts s) (M_amount n) c
  | M_amount n => System (parts s) M_load (Shared (disk c) (g_downloaded c) (Break (downloaded b) n (tasks b)))
  | M_load => System (parts s) (M_store (g_downloaded c)) c
  | M_store v => System (parts s) M_wait (put_downloaded v c)
  | M_wait => s
  end.

(** Before the first thread is created, with a file that holds [d] (nothing for a new task).  Of the array of
    tasks the model has the entries that have been set. *)
Definition launch (args : list ThreadArg) (b : BreakPoint) (d : gmap Z Z) : system :=
  System [] (M_create (zip args (tasks b)) (thread_amount b)) (Shared d (downloaded b) (Break 0 0 [])).

(** [monitor], created after the threads, ends when everything has been counted. *)
Definition finished (g_total : Z) (s : system) : bool :=
  match main s with M_create _ _ => false | _ => g_total <=? g_downloaded (common s) end.

(** ** A server that sends the ranges it is asked for *)

Section Server.
Context (R : list Z).

(** The bytes of the resource from a position on. *)
Definition sent_from (pos : Z) (bytes : list Z) : Prop := 0 <= pos /\ bytes = slice R pos (Zlen bytes).

(** The answers that the code is written for.  The first piece of an answer either has no good code (then the
    request is sent again), or has the headers up to the blank line in it, and after them the beginning
    of the range that was asked for; later pieces are what follows in the range, never beyond it; a
    connection may be closed at any time, but a later recv does not fail.  [long_headers],
    [whole_file_at_offset] and [recv_error] below are what happens otherwise. *)
Definition conforms (t : part) (ev : recv_event) : Prop :=
  match pc t, ev with
  | P_first, Data buf =>
      good_answer buf = true ->
      exists h body, buf = h ++ blank_line ++ body /\ strstr (upto_nul buf) blank_line = Some (Zlen h) /\
        sent_from (from t) body /\ from t + Zlen body <= start_pos (targ t) + limit (targ t) /\
        from t + Zlen body <= Zlen R
  | P_more, Data buf =>
      sent_from (fpos t) buf /\ fpos t + Zlen buf <= start_pos (targ t) + limit (targ t) /\ fpos t + Zlen buf <= Zlen R
  | P_more, Error => False
  | _, _ => True
  end.

Inductive step : system -> system -> Prop :=
| step_part ts m i t t' ev s s' :
    ts !! i = Some t -> conforms t ev -> part_step ev t s = Ok (t', s') ->
    step (System ts m s) (System (<[i := t']> ts) m s')
| step_main s : step s (main_step s).

(** ** The invariant *)

(** Only bytes of the resource are in the file; those of a range are there. *)
Definition sound (d : gmap Z Z) : Prop := forall k b, d !! k = Some b -> 0 <= k /\ R !! Z.to_nat k = Some b.
Definition covers (d : gmap Z Z) (a b : Z) : Prop := forall k, a <= k < b -> d !! k = R !! Z.to_nat k.

Lemma fwrite_ok d pos bytes :
  sent_from pos bytes -> pos + Zlen bytes <= Zlen R -> sound d ->
  sound (fwrite d pos bytes) /\ covers (fwrite d pos bytes) pos (pos + Zlen bytes) /\
  (forall a b, 0 <= a -> covers d a b -> covers (fwrite d pos bytes) a b).
Proof.
  intros [Hpos Hb] Hlen Hd. assert (Hlk : forall k x, bytes !! k = Some x -> R !! (Z.to_nat pos + k)%nat = Some x).
  { intros k x Hk. rewrite Hb in Hk. unfold slice in Hk. apply lookup_take_Some in Hk as [Hk _]. by rewrite lookup_drop in Hk. }
  clear Hb. revert d pos Hpos Hlen Hd Hlk. induction bytes as [|x bytes IH]; intros d pos Hpos Hlen Hd Hlk; cbn [fwrite].
  { split; [done|]. split; [|done]. intros k Hk. change (Zlen []) with 0 in Hk. lia. }
  rewrite Zlen_cons in *. pose proof (Zlen_nonneg bytes). assert (Hx : R !! Z.to_nat pos = Some x) by (rewrite <- (Hlk 0%nat x eq_refl); f_equal; lia).
  assert (Hd' : sound (<[pos := x]> d)).
  { intros k b Hk. destruct (decide (k = pos)) as [->|Hne]; [rewrite lookup_insert_eq in Hk; by injection Hk as <-|].
    rewrite lookup_insert_ne in Hk by done. by apply Hd. }
  destruct (IH (<[pos := x]> d) (pos + 1)) as (H1 & H2 & H3); [lia|lia|done| |].
  { intros k y Hk. rewrite <- (Hlk (S k) y Hk). f_equal. lia. }
  assert (Hkeep : forall a b, 0 <= a -> covers d a b -> covers (<[pos := x]> d) a b).
  { intros a b Ha Hc k Hk. destruct (decide (k = pos)) as [->|Hne]; [by rewrite lookup_insert_eq|]. rewrite lookup_insert_ne by done. by apply Hc. }
  split; [done|]. split; [|intros a b Ha Hc; apply H3; [done|]; by apply Hkeep].
  intros k Hk. destruct (decide (k = pos)) as [->|Hne]; [|apply H2; lia].
  apply (H3 pos (pos + 1)); [done| |lia]. intros k' Hk'. replace k' with pos by lia. by rewrite lookup_insert_eq.
Qed.

(** A thread has written its range up to [ct]. *)
Record part_ok (d : gmap Z Z) (t : part) : Prop := {
  p_start : 0 <= start_pos (targ t);
  p_ct : 0 <= ct t <= limit (targ t);
  p_end : start_pos (targ t) + limit (targ t) <= Zlen R;
  p_pos : fpos t = start_pos (targ t) + ct t;
  p_from : match pc t with P_send | P_first => from t = fpos t | _ => True end;
  p_count : match pc t with P_count i _ => 0 <= i <= ct t | _ => True end;
  p_done : match pc t with P_load | P_store _ | P_done => ct t = limit (targ t) | _ => True end;
  p_covers : covers d (start_pos (targ t)) (start_pos (targ t) + ct t);
}.

(** What a thread has counted. *)
Definition counted (t : part) : Z := match pc t with P_count i _ => ct t - i | _ => ct t end.

Fixpoint sum (l : list Z) : Z := match l with [] => 0 | x :: l => x + sum l end.

Lemma sum_insert {A} (f : A -> Z) (l : list A) i x y :
  l !! i = Some x -> sum (f <$> <[i := y]> l) = sum (f <$> l) - f x + f y.
Proof.
  revert i. induction l as [|z l IH]; intros [|i] H; try done.
  - injection H as ->. change (<[0%nat := y]> (x :: l)) with (y :: l). rewrite !fmap_cons. cbn [sum]. lia.
  - change (<[S i := y]> (z :: l)) with (z :: <[i := y]> l). rewrite !fmap_cons. cbn [sum]. rewrite (IH i H). lia.
Qed.

Lemma sum_snoc l x : sum (l ++ [x]) = sum l + x.
Proof. induction l as [|y l IH]; cbn [app sum]; [lia | rewrite IH; lia]. Qed.

(** The threads that are still to be created. *)
Definition todo (m : main_pc) : list (ThreadArg * (Z * Z)) := match m with M_create l _ => l | _ => [] end.

(** The thread amount is the right one, where it is kept or about to be. *)
Definition amount_ok (n : Z) (s : system) : Prop :=
  match main s with
  | M_create _ n' | M_amount n' => n' = n
  | _ => thread_amount (g_breakpoint (common s)) = n
  end.

Definition in_range (a : ThreadArg) : Prop := 0 <= start_pos a /\ 0 <= limit a /\ start_pos a + limit a <= Zlen R.

Record system_ok (args : list ThreadArg) (b : BreakPoint) (s : system) : Prop := {
  so_sound : sound (disk (common s));
  so_parts : Forall (part_ok (disk (common s))) (parts s);
  so_args : (targ <$> parts s) ++ (fst <$> todo (main s)) = args;
  so_count : g_downloaded (common s) = downloaded b + sum (counted <$> parts s);
  so_amount : amount_ok (thread_amount b) s;
  so_range : Forall in_range args;
}.

Lemma part_ok_mono d d' t :
  (forall a b, 0 <= a -> covers d a b -> covers d' a b) -> part_ok d t -> part_ok d' t.
Proof. intros H [H1 H2 H3 H4 H5 H6 H7 H8]. split; try done. by apply H. Qed.

(** Bytes that are written where they belong. *)
Lemma write_part t d bytes pc' :
  part_ok d t -> sound d -> sent_from (fpos t) bytes -> fpos t + Zlen bytes <= start_pos (targ t) + limit (targ t) ->
  let d' := fwrite d (fpos t) bytes in
  sound d' /\ (forall a b, 0 <= a -> covers d a b -> covers d' a b) /\
  part_ok d' (Part (targ t) (P_count (Zlen bytes) pc') (ct t + Zlen bytes) (from t) (fpos t + Zlen bytes)).
Proof.
  intros [H1 H2 H3 H4 H5 H6 H7 H8] Hd Hs He d'. pose proof (Zlen_nonneg bytes).
  destruct (fwrite_ok d (fpos t) bytes Hs ltac:(lia) Hd) as (W1 & W2 & W3). split; [done|]. split; [done|].
  split; simpl; try done; try lia. intros k Hk. destruct (decide (k < start_pos (targ t) + ct t)); [by apply (W3 _ _ H1 H8); lia|apply W2; lia].
Qed.

Lemma part_step_ok ev t s t' s' :
  part_ok (disk s) t -> sound (disk s) -> conforms t ev -> part_step ev t s = Ok (t', s') ->
  sound (disk s') /\ (forall a b, 0 <= a -> covers (disk s) a b -> covers (disk s') a b) /\ part_ok (disk s') t' /\
  targ t' = targ t /\ g_downloaded s' - counted t' = g_downloaded s - counted t /\
  thread_amount (g_breakpoint s') = thread_amount (g_breakpoint s).
Proof.
  intros Hp Hd Hc H. pose proof Hp as [H1 H2 H3 H4 H5 H6 H7 H8]. unfold part_step in H. destruct (pc t) as [| |i first| | |v|] eqn:Epc.
  - injection H as <- <-. split; [done|]. split; [done|]. split; [by split|]. split; [done|]. split; [unfold counted; rewrite Epc; simpl; lia|by repeat case_match].
  - unfold recv_first in H. unfold conforms in Hc. rewrite Epc in Hc.
    assert (Hagain : Ok (Part (targ t) P_send (ct t) (from t) (fpos t), s) = Ok (t', s') ->
      sound (disk s') /\ (forall a b, 0 <= a -> covers (disk s) a b -> covers (disk s') a b) /\ part_ok (disk s') t' /\
      targ t' = targ t /\ g_downloaded s' - counted t' = g_downloaded s - counted t /\
      thread_amount (g_breakpoint s') = thread_amount (g_breakpoint s)).
    { intros E. injection E as <- <-. split; [done|]. split; [done|]. split; [by split|]. split; [done|]. split; [unfold counted; rewrite Epc; simpl; lia|by repeat case_match]. }
    destruct ev as [buf| |]; [|by apply Hagain..]. destruct (good_answer buf); [|by apply Hagain]. clear Hagain.
    destruct (Hc eq_refl) as (h & body & Hbuf & Hk & Hs & He & Hl). rewrite Hk in H.
    assert (Hdrop : drop (Z.to_nat (Zlen h + 4)) buf = body).
    { rewrite Hbuf, app_assoc. apply drop_app_length'. unfold Zlen. rewrite length_app. simpl. lia. }
    cbv zeta in H. rewrite Hdrop in H. injection H as <- <-. rewrite H5 in Hs, He.
    destruct (write_part t (disk s) body true Hp Hd Hs He) as (W1 & W2 & W3). do 3 (split; [done|]). split; [done|].
    split; [unfold counted; rewrite Epc; simpl; lia|by repeat case_match].
  - injection H as E. unfold count_part in E. assert (Hg : g_downloaded s + i - ct t = g_downloaded s - (ct t - i)) by lia.
    destruct (decide (ct t < limit (targ t))) as [Hlt|Hge]; injection E as <- <-; simpl; (split; [done|]); (split; [done|]).
    + split; [by split|]. split; [done|]. split; [unfold counted; rewrite Epc; simpl; lia|by repeat case_match].
    + split; [split; simpl; try done; lia|]. split; [done|]. split; [unfold counted; rewrite Epc; simpl; lia|by repeat case_match].
  - unfold recv_more in H. unfold conforms in Hc. rewrite Epc in Hc. destruct ev as [buf| |]; [| |done].
    + destruct Hc as (Hs & He & Hl). injection H as <- <-. destruct (write_part t (disk s) buf false Hp Hd Hs He) as (W1 & W2 & W3).
      do 3 (split; [done|]). split; [done|]. split; [unfold counted; rewrite Epc; simpl; lia|by repeat case_match].
    + injection H as <- <-. split; [done|]. split; [done|]. split; [by split|]. split; [done|]. split; [unfold counted; rewrite Epc; simpl; lia|by repeat case_match].
  - injection H as <- <-. split; [done|]. split; [done|]. split; [by split|]. split; [done|]. split; [unfold counted; rewrite Epc; simpl; lia|done].
  - injection H as <- <-. split; [done|]. split; [done|]. split; [by split|]. split; [done|]. split; [unfold counted; rewrite Epc; simpl; lia|done].
  - injection H as <- <-. split; [done|]. split; [done|]. split; [done|]. split; [done|]. split; [lia|done].
Qed.

Lemma new_part_ok d a : in_range a -> part_ok d (new_part a).
Proof. intros (A1 & A2 & A3). split; simpl; try done; try lia. intros k Hk. lia. Qed.

Lemma main_step_ok args b s : system_ok args b s -> system_ok args b (main_step s) /\ disk (common (main_step s)) = disk (common s).
Proof.
  intros [S1 S2 S3 S4 S5 S6]. destruct s as [ts m c]. unfold main_step, amount_ok in *. cbn [parts main common] in *.
  destruct m as [[|[a t] l] n|n| |v|]; cbn [todo] in *; (split; [split; cbn [parts main common todo]; try done|done]).
  - apply Forall_app_2; [done|]. apply Forall_singleton, new_part_ok. rewrite Forall_forall in S6. apply S6. rewrite <- S3.
    cbn [fmap list_fmap fst]. apply elem_of_app. right. by left.
  - rewrite fmap_app, <- app_assoc. exact S3.
  - cbn [g_downloaded]. rewrite S4, fmap_app. cbn [fmap list_fmap]. rewrite sum_snoc. unfold counted, new_part. cbn [pc ct]. lia.
Qed.

Lemma step_system_ok args b s s' : system_ok args b s -> step s s' ->
  system_ok args b s' /\ (forall x y, 0 <= x -> covers (disk (common s)) x y -> covers (disk (common s')) x y).
Proof.
  intros Hok Hs. destruct Hs as [ts m i t t' ev sh sh' Hi Hc H|s].
  2:{ destruct (main_step_ok args b s Hok) as [H1 H2]. split; [done|]. by rewrite H2. }
  destruct Hok as [S1 S2 S3 S4 S5 S6]. cbn [parts main common] in *.
  assert (Ht : part_ok (disk sh) t) by (eapply Forall_lookup_1 in S2; done).
  destruct (part_step_ok _ _ _ _ _ Ht S1 Hc H) as (W1 & W2 & W3 & W4 & W5 & W6). split; [|done].
  split; cbn [parts main common]; try done.
  - apply Forall_insert; [|done]. eapply Forall_impl; [exact S2|]. intros x Hx. by eapply part_ok_mono.
  - rewrite <- S3, list_fmap_insert, W4. f_equal. apply list_insert_id. by rewrite list_lookup_fmap, Hi.
  - rewrite (sum_insert _ _ _ _ _ Hi). lia.
  - unfold amount_ok in *. cbn [main common] in *. destruct m; congruence.
Qed.

(** ** A finished download is complete *)

(** What the threads are to do covers what the file [d] lacks, and their lengths add up. *)
Record plan_ok (args : list ThreadArg) (b : BreakPoint) (d : gmap Z Z) : Prop := {
  plan_sound : sound d;
  plan_args : Forall in_range args;
  plan_tasks : length (tasks b) = length args;
  plan_sum : downloaded b + sum (limit <$> args) = Zlen R;
  plan_covers : forall k, 0 <= k < Zlen R -> d !! k = R !! Z.to_nat k \/ exists a, a ∈ args /\ start_pos a <= k < start_pos a + limit a;
}.

Lemma launch_ok args b d : plan_ok args b d -> system_ok args b (launch args b d).
Proof.
  intros [P1 P2 P3 P4 P5]. split; cbn [launch parts main common todo]; try done.
  - cbn [fmap list_fmap app]. apply fst_zip. lia.
  - cbn. lia.
Qed.

Lemma sum_le (ts : list part) d : Forall (part_ok d) ts -> sum (limit <$> (targ <$> ts)) <= sum (counted <$> ts) -> Forall (fun t => ct t = limit (targ t)) ts.
Proof.
  assert (Hle : forall t, part_ok d t -> counted t <= limit (targ t)).
  { intros t [H1 H2 H3 H4 H5 H6 H7 H8]. unfold counted. destruct (pc t); lia. }
  assert (Hsum : forall ts, Forall (part_ok d) ts -> sum (counted <$> ts) <= sum (limit <$> (targ <$> ts))).
  { induction 1 as [|t l Ht _ IH]; [done|]. rewrite !fmap_cons. cbn [sum]. specialize (Hle t Ht). lia. }
  induction 1 as [|t l Ht Hl IH]; intros H; [done|]. rewrite !fmap_cons in H. cbn [sum] in H. specialize (Hsum l Hl). pose proof (Hle t Ht). constructor; [|apply IH; lia].
  destruct Ht as [H1 H2 H3 H4 H5 H6 H7 H8]. assert (counted t = limit (targ t)) by (lia). unfold counted in *. destruct (pc t); lia.
Qed.

Lemma reach_ok args b d s :
  plan_ok args b d -> rtc step (launch args b d) s ->
  system_ok args b s /\ forall k, 0 <= k -> d !! k = R !! Z.to_nat k -> disk (common s) !! k = R !! Z.to_nat k.
Proof.
  intros Hplan Hr.
  assert (H0 : system_ok args b (launch args b d) /\ forall k, 0 <= k -> d !! k = R !! Z.to_nat k -> disk (common (launch args b d)) !! k = R !! Z.to_nat k)
    by (split; [by apply launch_ok|done]).
  revert H0. generalize (launch args b d) as s0, Hr. clear. intros s0 Hr. induction Hr as [|s1 s2 s3 Hs Hr IH]; [done|].
  intros [H1 H2]. apply IH. destruct (step_system_ok _ _ _ _ H1 Hs) as [H1' Hc]. split; [done|]. intros k Hk0 Hk. specialize (H2 k Hk0 Hk).
  apply (Hc k (k + 1)); [done| |lia]. intros k' Hk'. by assert (k' = k) as -> by lia.
Qed.

Lemma finished_complete args b d s :
  plan_ok args b d -> rtc step (launch args b d) s -> finished (Zlen R) s = true ->
  forall k, 0 <= k < Zlen R -> disk (common s) !! k = R !! Z.to_nat k.
Proof.
  intros Hplan Hr Hf k Hk. destruct (reach_ok args b d s Hplan Hr) as [[S1 S2 S3 S4 _ _] Hkeep].
  destruct Hplan as [P1 P2 P3 P4 P5]. destruct (P5 k Hk) as [Hd|(a & Ha & Hka)]; [apply Hkeep; [lia|done]|].
  assert (Htodo : todo (main s) = [] /\ Zlen R <= g_downloaded (common s)).
  { unfold finished in Hf. destruct (main s); try done; apply Z.leb_le in Hf; done. }
  destruct Htodo as [Htodo Hle]. rewrite Htodo, app_nil_r in S3. assert (Hall : Forall (fun t => ct t = limit (targ t)) (parts s)).
  { eapply sum_le; [exact S2|]. rewrite S3. lia. }
  rewrite <- S3 in Ha. apply list_elem_of_fmap in Ha as (t & -> & Ht). rewrite Forall_forall in Hall, S2. specialize (Hall t Ht). specialize (S2 t Ht).
  apply (p_covers _ _ S2). lia.
Qed.

(** What a server of this kind sends never makes a thread fail. *)
Lemma part_step_total t ev s : conforms t ev -> exists r, part_step ev t s = Ok r.
Proof.
  intros Hc. unfold part_step. destruct (pc t) eqn:Epc; try by eexists.
  - unfold recv_first. unfold conforms in Hc. rewrite Epc in Hc. destruct ev as [buf| |]; try by eexists.
    destruct (good_answer buf); [|by eexists]. destruct (Hc eq_refl) as (h & body & _ & -> & _). by eexists.
  - unfold recv_more. unfold conforms in Hc. rewrite Epc in Hc. destruct ev; [by eexists..|done].
Qed.

(** *** It can always be finished *)

Lemma part_step_step ts m i t t' ev s s' :
  ts !! i = Some t -> conforms t ev -> part_step ev t s = Ok (t', s') -> rtc step (System ts m s) (System (<[i := t']> ts) m s').
Proof. intros Hi Hc H. eapply rtc_once, step_part; done. Qed.

(** One thread alone reaches its end from [t], and leaves the others as they are. *)
Definition can_end (t : part) : Prop :=
  forall ts m i s, ts !! i = Some t -> part_ok (disk s) t -> sound (disk s) ->
  exists t' s', rtc step (System ts m s) (System (<[i := t']> ts) m s') /\ pc t' = P_done.

Lemma can_end_step t ev :
  (forall s, part_ok (disk s) t -> conforms t ev /\ exists t' s', part_step ev t s = Ok (t', s') /\ can_end t') -> can_end t.
Proof.
  intros H ts m i s Hi Hok Hd. destruct (H s Hok) as (Hc & t1 & s1 & E & Hend). destruct (part_step_ok _ _ _ _ _ Hok Hd Hc E) as (Hd1 & _ & Hok1 & _).
  destruct (Hend (<[i := t1]> ts) m i s1) as (t2 & s2 & Hr & Hpc); [apply list_lookup_insert_eq; by eapply lookup_lt_Some|done|done|].
  exists t2, s2. split; [|done]. etrans; [by eapply part_step_step|]. by rewrite list_insert_insert_eq in Hr.
Qed.

Lemma can_end_done t : pc t = P_done -> can_end t.
Proof. intros Hpc ts m j s Hj _ _. exists t, s. rewrite list_insert_id by done. by split. Qed.

(** A step that needs no answer. *)
Lemma can_end_alone t :
  match pc t with P_send | P_count _ _ | P_load | P_store _ => True | _ => False end ->
  (forall s t' s', part_step Closed t s = Ok (t', s') -> can_end t') -> can_end t.
Proof.
  intros Hpc H. apply (can_end_step t Closed). intros s Hok.
  assert (Hc : conforms t Closed) by (unfold conforms; by destruct (pc t)). split; [done|].
  destruct (part_step_total t Closed s Hc) as [[t' s'] E]. exists t', s'. split; [done|]. by apply (H s t' s').
Qed.

Lemma can_end_closing t : match pc t with P_load | P_store _ | P_done => True | _ => False end -> can_end t.
Proof.
  assert (Hst : forall t v, pc t = P_store v -> can_end t).
  { intros u v Hu. apply can_end_alone; [by rewrite Hu|]. intros s t' s' E. unfold part_step in E. rewrite Hu in E.
    injection E as <- <-. by apply can_end_done. }
  intros Hpc. destruct (pc t) eqn:E; try done; [|by eapply Hst|by apply can_end_done].
  apply can_end_alone; [by rewrite E|]. intros s t' s' Es. unfold part_step in Es. rewrite E in Es.
  injection Es as <- <-. by eapply Hst.
Qed.

Lemma can_end_counted t i first : pc t = P_count i first -> limit (targ t) <= ct t -> can_end t.
Proof.
  intros Hpc Hl. apply can_end_alone; [by rewrite Hpc|]. intros s t' s' E. unfold part_step, count_part in E. rewrite Hpc in E.
  rewrite decide_False in E by lia. injection E as <- <-. by apply can_end_closing.
Qed.

Lemma can_end_more t : pc t = P_more -> can_end t.
Proof.
  intros Hpc. set (rest := slice R (fpos t) (limit (targ t) - ct t)). apply (can_end_step t (Data rest)). intros s [H1 H2 H3 H4 H5 H6 H7 H8].
  assert (Hl : Zlen rest = limit (targ t) - ct t) by (unfold rest, slice, Zlen in *; rewrite length_take, length_drop; lia). split.
  - unfold conforms. rewrite Hpc. unfold sent_from. rewrite Hl. split; [split; [lia|done]|lia].
  - unfold part_step, recv_more. rewrite Hpc. eexists _, _. split; [done|]. eapply can_end_counted; [done|]. simpl. lia.
Qed.

Lemma can_end_count t i first : pc t = P_count i first -> can_end t.
Proof.
  intros Hpc. destruct (decide (ct t < limit (targ t))); [|eapply can_end_counted; [done|lia]].
  apply can_end_alone; [by rewrite Hpc|]. intros s t' s' E. unfold part_step, count_part in E. rewrite Hpc in E.
  rewrite decide_True in E by lia. injection E as <- <-. by apply can_end_more.
Qed.

Lemma can_end_first t : pc t = P_first -> can_end t.
Proof.
  intros Hpc. apply (can_end_step t (Data partial)). intros s [H1 H2 H3 H4 H5 H6 H7 H8]. rewrite Hpc in H5. split.
  - unfold conforms. rewrite Hpc. intros _. exists (text "HTTP/1.1 206 P"), []. split; [done|]. split; [by vm_compute|].
    change (Zlen []) with 0. split; [split; [lia|done]|lia].
  - unfold part_step, recv_first. rewrite Hpc. change (good_answer partial) with true. cbv iota.
    change (strstr (upto_nul partial) blank_line) with (Some 14). eexists _, _. split; [done|]. by eapply can_end_count.
Qed.

Lemma thread_can_end t : can_end t.
Proof.
  destruct (pc t) as [| |i first| | |v|] eqn:Hpc; try (apply can_end_closing; by rewrite Hpc).
  - apply can_end_alone; [by rewrite Hpc|]. intros s t' s' E. unfold part_step in E. rewrite Hpc in E.
    injection E as <- <-. by apply can_end_first.
  - by apply can_end_first.
  - by eapply can_end_count.
  - by apply can_end_more.
Qed.

Lemma rtc_system_ok args b s s' : system_ok args b s -> rtc step s s' -> system_ok args b s'.
Proof. intros H Hr. induction Hr as [|x y z Hxy _ IH]; [done|]. apply IH. by destruct (step_system_ok _ _ _ _ H Hxy). Qed.

(** The main program creates the threads and waits. *)
Lemma main_can_end args b s : system_ok args b s ->
  exists s', rtc step s s' /\ system_ok args b s' /\ main s' = M_wait.
Proof.
  intros Hok. enough (H : exists s', rtc step s s' /\ main s' = M_wait).
  { destruct H as (s' & Hr & Hm). exists s'. split; [done|]. split; [by eapply rtc_system_ok|done]. }
  clear Hok. assert (Hl : forall ts c, exists s', rtc step (System ts M_load c) s' /\ main s' = M_wait).
  { intros ts c. eexists. split; [eapply rtc_l; [apply step_main|]; eapply rtc_l; [apply step_main|]; apply rtc_refl|done]. }
  assert (Ha : forall ts n c, exists s', rtc step (System ts (M_amount n) c) s' /\ main s' = M_wait).
  { intros ts n c. destruct (Hl ts (Shared (disk c) (g_downloaded c) (Break (downloaded (g_breakpoint c)) n (tasks (g_breakpoint c))))) as (s' & Hr & Hm).
    exists s'. split; [|done]. eapply rtc_l; [apply step_main|exact Hr]. }
  destruct s as [ts m c]. destruct m as [l n|n| |v|].
  - revert ts c. induction l as [|[a t] l IH]; intros ts c.
    + destruct (Ha ts n c) as (s' & Hr & Hm). exists s'. split; [|done]. eapply rtc_l; [apply step_main|exact Hr].
    + destruct (IH (ts ++ [new_part a]) (Shared (disk c) (g_downloaded c) (Break (downloaded (g_breakpoint c)) (thread_amount (g_breakpoint c)) (tasks (g_breakpoint c) ++ [t]))))
        as (s' & Hr & Hm). exists s'. split; [|done]. eapply rtc_l; [apply step_main|exact Hr].
  - apply Ha.
  - apply Hl.
  - eexists. split; [apply rtc_once, step_main|done].
  - by exists (System ts M_wait c).
Qed.

Lemma threads_can_end args b s k : system_ok args b s ->
  exists s', rtc step s s' /\ system_ok args b s' /\ main s' = main s /\ forall i t, (i < k)%nat -> parts s' !! i = Some t -> pc t = P_done.
Proof.
  intros Hok. induction k as [|k (s1 & Hr & Hok1 & Hm & Hdone)]; [exists s; split; [done|]; split; [done|]; split; [done|lia]|].
  destruct s1 as [ts m sh]. cbn [parts main] in Hdone, Hm. destruct (ts !! k) as [t|] eqn:Ek.
  - pose proof Hok1 as [S1 S2 _ _ _ _]. destruct (thread_can_end t ts m k sh Ek (Forall_lookup_1 _ _ _ _ S2 Ek) S1) as (t' & sh' & Hr' & Hpc).
    eexists. split; [by etrans|]. split; [by eapply rtc_system_ok|]. split; [done|].
    intros i u Hi Hu. cbn [parts] in Hu. destruct (decide (i = k)) as [->|Hne].
    + rewrite list_lookup_insert_eq in Hu by (by eapply lookup_lt_Some). by injection Hu as <-.
    + rewrite list_lookup_insert_ne in Hu by done. apply (Hdone i); [lia|done].
  - exists (System ts m sh). split; [done|]. split; [done|]. split; [done|]. intros i u Hi Hu.
    destruct (decide (i = k)) as [->|Hne]; [cbn [parts] in Hu; congruence|]. apply (Hdone i); [lia|done].
Qed.

Lemma can_finish args b d s :
  plan_ok args b d -> rtc step (launch args b d) s -> exists s', rtc step s s' /\ finished (Zlen R) s' = true.
Proof.
  intros Hplan Hr. destruct (reach_ok args b d s Hplan Hr) as [Hok _]. destruct (main_can_end args b s Hok) as (s1 & Hr1 & Hok1 & Hm1).
  destruct (threads_can_end args b s1 (length args) Hok1) as (s' & Hr' & [S1 S2 S3 S4 _ _] & Hm & Hdone).
  exists s'. split; [by etrans|]. rewrite Hm1 in Hm. rewrite Hm in S3. cbn [todo fmap list_fmap] in S3. rewrite app_nil_r in S3.
  unfold finished. rewrite Hm. apply Z.leb_le. rewrite S4, <- (plan_sum _ _ _ Hplan), <- S3.
  enough (Hc : counted <$> parts s' = limit <$> (targ <$> parts s')) by (rewrite Hc; lia).
  rewrite <- list_fmap_compose. apply list_eq. intros i. rewrite !list_lookup_fmap. destruct (parts s' !! i) as [t|] eqn:E; [|done]. simpl. f_equal.
  assert (Hpc : pc t = P_done). { apply (Hdone i); [|done]. rewrite <- S3, length_fmap. by eapply lookup_lt_Some. }
  pose proof (Forall_lookup_1 _ _ _ _ S2 E) as Ht. pose proof (p_done _ _ Ht) as Hd. rewrite Hpc in Hd. unfold counted. by rewrite Hpc.
Qed.

(** ** Going on later *)

(** What is kept says how many threads there are and where each is. *)
Definition accurate (s : system) : Prop :=
  match main s with M_create _ _ | M_amount _ => False | _ => True end /\
  tasks (g_breakpoint (common s)) = (fun t => (start_pos (targ t) + ct t, limit (targ t) - ct t)) <$> parts s /\
  downloaded (g_breakpoint (common s)) = g_downloaded (common s) /\ Forall (fun t => counted t = ct t) (parts s).

Lemma task_args_fields (ts : list (Z * Z)) : (fun a => (start_pos a, limit a)) <$> imap (fun j t => Arg t.1 t.2 j) ts = ts.
Proof. apply list_eq. intros i. rewrite list_lookup_fmap, list_lookup_imap. by destruct (ts !! i) as [[a b]|]. Qed.

Lemma resume_plan args b d s :
  plan_ok args b d -> rtc step (launch args b d) s -> accurate s ->
  plan_ok (imap (fun j t => Arg t.1 t.2 j) (tasks (g_breakpoint (common s)))) (g_breakpoint (common s)) (disk (common s)).
Proof.
  intros Hplan Hr (A0 & A1 & A2 & A3). destruct (reach_ok args b d s Hplan Hr) as [[S1 S2 S3 S4 _ _] Hkeep].
  assert (Htodo : todo (main s) = []) by (by destruct (main s)). rewrite Htodo, app_nil_r in S3.
  set (args' := imap _ _). pose proof (task_args_fields (tasks (g_breakpoint (common s)))) as Hf. fold args' in Hf. rewrite A1 in Hf.
  assert (Hin : forall a, a ∈ args' -> exists t, t ∈ parts s /\ start_pos a = start_pos (targ t) + ct t /\ limit a = limit (targ t) - ct t).
  { intros a Ha. apply (list_elem_of_fmap_2 (fun a => (start_pos a, limit a))) in Ha. rewrite Hf in Ha. apply list_elem_of_fmap in Ha as (t & E & Ht).
    injection E as E1 E2. by exists t. }
  destruct Hplan as [P1 P2 P3 P4 P5]. rewrite Forall_forall in S2. split; [done| | | |].
  - apply Forall_forall. intros a Ha. unfold in_range. destruct (Hin a Ha) as (t & Ht & -> & ->). destruct (S2 t Ht) as [H1 H2 H3 H4 H5 H6 H7 H8]. lia.
  - unfold args'. by rewrite length_imap.
  - rewrite A2, S4. assert (Hs : sum (limit <$> args') = sum (limit <$> args) - sum (counted <$> parts s)); [|lia].
    replace (limit <$> args') with (snd <$> ((fun a => (start_pos a, limit a)) <$> args')) by (by rewrite <- list_fmap_compose).
    rewrite Hf, <- S3. clear - A3. induction A3 as [|t l Ht _ IH]; [done|]. rewrite !fmap_cons. cbn [sum snd]. rewrite IH, Ht. lia.
  - intros k Hk. destruct (P5 k Hk) as [Hd|(a & Ha & Hka)]; [left; apply Hkeep; [lia|done]|].
    rewrite <- S3 in Ha. apply list_elem_of_fmap in Ha as (t & -> & Ht). destruct (S2 t Ht) as [H1 H2 H3 H4 H5 H6 H7 H8].
    destruct (decide (k < start_pos (targ t) + ct t)) as [Hlt|Hge]; [left; apply H8; lia|]. right.
    assert (Ht' : (start_pos (targ t) + ct t, limit (targ t) - ct t) ∈ ((fun a => (start_pos a, limit a)) <$> args')) by (rewrite Hf; by apply (list_elem_of_fmap_2 (fun t => (start_pos (targ t) + ct t, limit (targ t) - ct t)))).
    apply list_elem_of_fmap in Ht' as (a & E & Ha). injection E as E1 E2. exists a. split; [done|]. lia.
Qed.

Lemma counted_range d ts : Forall (part_ok d) ts -> 0 <= sum (counted <$> ts) <= sum (limit <$> (targ <$> ts)).
Proof.
  induction 1 as [|t l [H1 H2 H3 H4 H5 H6 H7 H8] _ IH]; [done|]. rewrite !fmap_cons. cbn [sum].
  assert (0 <= counted t <= limit (targ t)) by (unfold counted; destruct (pc t); lia). lia.
Qed.
End Server.

(** ** The parts of a new task *)

Lemma sum_limits size n m : forall j, 0 < n ->
  sum (limit <$> (new_arg size n <$> seq j m)) =
    Z.quot size n * Z.of_nat m + (if decide (Z.of_nat j <= n - 1 < Z.of_nat (j + m)) then Z.rem size n else 0).
Proof.
  induction m as [|m IH]; intros j Hn.
  - rewrite decide_False by lia. simpl. lia.
  - cbn [seq]. rewrite !fmap_cons. cbn [sum]. rewrite IH by done. cbn [limit new_arg].
    destruct (decide (Z.of_nat j = n - 1)).
    + rewrite decide_False by lia. rewrite decide_True by lia. lia.
    + destruct (decide (Z.of_nat (S j) <= n - 1 < Z.of_nat (S j + m))); [rewrite decide_True by lia|rewrite decide_False by lia]; lia.
Qed.

Lemma new_plan R size n tasks_ :
  Zlen R = size -> 0 < n -> length tasks_ = Z.to_nat n -> plan_ok R (new_args size n) (Break 0 n tasks_) ∅.
Proof.
  intros HR Hn Ht. pose proof (Zlen_nonneg R) as H0. assert (Hq : 0 <= Z.quot size n) by (apply Z.quot_pos; lia).
  assert (Hr : 0 <= Z.rem size n < n) by (apply Z.rem_bound_pos; lia). pose proof (Z.quot_rem' size n) as Hqr. split.
  - intros k b Hk. by rewrite lookup_empty in Hk.
  - apply Forall_fmap, Forall_forall. intros i Hi. apply elem_of_seq in Hi. unfold compose, in_range. simpl.
    assert (Z.quot size n * Z.of_nat i + Z.quot size n <= Z.quot size n * n) by nia. destruct (decide _); [|nia]. nia.
  - unfold new_args. by rewrite length_fmap, length_seq.
  - simpl. unfold new_args. rewrite sum_limits by done. rewrite decide_True by lia. nia.
  - intros k Hk. right. destruct (decide (Z.quot size n * n <= k)) as [Hbig|Hsmall].
    + exists (new_arg size n (Z.to_nat (n - 1))). split; [apply list_elem_of_fmap; exists (Z.to_nat (n - 1)); split; [done|apply elem_of_seq; lia]|].
      simpl. rewrite Z2Nat.id by lia. rewrite decide_True by done. nia.
    + set (q := Z.quot size n) in *. assert (Hq0 : 0 < q) by nia. pose proof (Z.div_mod k q ltac:(lia)). pose proof (Z.mod_pos_bound k q Hq0).
      assert (Hi : 0 <= k / q < n) by (split; [apply Z.div_pos; lia|apply Z.div_lt_upper_bound; lia]).
      exists (new_arg size n (Z.to_nat (k / q))). split; [apply list_elem_of_fmap; exists (Z.to_nat (k / q)); split; [done|apply elem_of_seq; lia]|].
      simpl. fold q. rewrite Z2Nat.id by lia. destruct (decide _); nia.
Qed.

(** ** What is kept is read back *)

Lemma dec_digits_scan fuel : forall n, 0 <= n < 10 ^ Z.of_nat fuel -> (0 < fuel)%nat ->
  exists k, 0 <= k /\ forall m acc, scan_digits m (dec_digits fuel n acc) = scan_digits (m * 10 ^ k + n) acc /\
    exists c r, dec_digits fuel n acc = c :: r /\ 48 <= c <= 57.
Proof.
  induction fuel as [|fuel IH]; intros n Hn Hf; [lia|]. cbn [dec_digits]. destruct (decide (n < 10)) as [Hlt|Hge].
  - exists 1. split; [done|]. intros m acc. split; [|eexists _, _; split; [done|lia]]. cbn [scan_digits]. rewrite bool_decide_true by lia. f_equal. lia.
  - assert (Hf' : (0 < fuel)%nat) by (destruct fuel; [simpl in Hn; lia|lia]).
    rewrite Nat2Z.inj_succ, Z.pow_succ_r in Hn by lia.
    destruct (IH (n / 10)) as (k & Hk & E); [split; [apply Z.div_pos; lia|apply Z.div_lt_upper_bound; lia]|done|].
    exists (k + 1). split; [lia|]. intros m acc. destruct (E m ((48 + n `mod` 10) :: acc)) as [E1 E2]. split; [|exact E2].
    rewrite E1. cbn [scan_digits]. pose proof (Z.mod_pos_bound n 10 ltac:(lia)). rewrite bool_decide_true by lia. f_equal.
    rewrite Z.pow_add_r by lia. pose proof (Z.div_mod n 10 ltac:(lia)). lia.
Qed.

Definition no_digit (r : list Z) : Prop := match r with c :: _ => ~ 48 <= c <= 57 | [] => True end.

Lemma scan_stop n r : no_digit r -> scan_digits n r = (n, r).
Proof. destruct r as [|c r]; [done|]. simpl. intros H. by rewrite bool_decide_false. Qed.

Lemma dec_digits_app fuel : forall n acc, dec_digits fuel n acc = dec_digits fuel n [] ++ acc.
Proof.
  induction fuel as [|fuel IH]; intros n acc; simpl; [done|]. destruct (decide (n < 10)); [done|]. rewrite IH, (IH _ [_]), <- app_assoc. done.
Qed.

Lemma s32_int n : - 2 ^ 31 <= n < 2 ^ 31 -> s32 n = n.
Proof. intros H. unfold s32. change (2 ^ 31) with 2147483648 in H. rewrite Z.mod_small; lia. Qed.

Lemma scan_unsigned_dec n r : 0 <= n < 2 ^ 32 -> no_digit r -> scan_unsigned (dec_digits 20 n [] ++ r) = Some (n, r).
Proof.
  intros Hn Hr. rewrite <- dec_digits_app. destruct (dec_digits_scan 20 n) as (k & Hk & E); [change (10 ^ Z.of_nat 20) with 100000000000000000000; change (2 ^ 32) with 4294967296 in *; lia|lia|].
  destruct (E 0 r) as [E1 (c & r' & E2 & Hc)]. unfold scan_unsigned. rewrite E2 in *. rewrite bool_decide_true by done. rewrite E1. by rewrite scan_stop.
Qed.

Lemma scan_int_dec n r : - 2 ^ 31 <= n < 2 ^ 31 -> no_digit r -> scan_int (dec n ++ r) = Some (n, r).
Proof.
  intros Hn Hr. unfold dec. destruct (decide (n < 0)) as [Hneg|Hpos].
  - cbn [app scan_int]. change (is_space 45) with false. cbn match. rewrite bool_decide_true by done.
    rewrite scan_unsigned_dec by (done || lia). cbn [mbind option_bind]. by rewrite Z.opp_involutive, s32_int.
  - pose proof (scan_unsigned_dec n r ltac:(lia) Hr) as E. destruct (dec_digits_scan 20 n) as (k & Hk & E'); [change (10 ^ Z.of_nat 20) with 100000000000000000000; change (2 ^ 31) with 2147483648 in *; lia|lia|].
    destruct (E' 0 []) as [_ (c & r' & E2 & Hc)]. rewrite E2 in *. cbn [app scan_int]. unfold is_space.
    rewrite !(bool_decide_false (c = _)) by lia. rewrite bool_decide_false by lia. cbn [orb]. cbn [app] in E. rewrite E. cbn [mbind option_bind]. by rewrite s32_int.
Qed.

Definition is_int (n : Z) : Prop := - 2 ^ 31 <= n < 2 ^ 31.

Definition task_line (t : Z * Z) : list Z := dec t.1 ++ [45] ++ dec t.2 ++ [10].

Lemma scan_tasks_lines ts : forall i t,
  Forall (fun t => is_int t.1 /\ is_int t.2) ts ->
  scan_tasks (length ts) i (10 :: concat (task_line <$> ts)) t = imap (fun j t => Arg t.1 t.2 (i + j)) ts.
Proof.
  induction ts as [|[a b] ts IH]; intros i t H; [done|]. apply Forall_cons in H as [[Ha Hb] H]. simpl in Ha, Hb.
  cbn [length scan_tasks]. unfold scan_task. rewrite fmap_cons. cbn [concat]. unfold task_line at 1. cbn [fst snd].
  assert (E : forall s, scan_int (10 :: s) = scan_int s) by done. rewrite E, <- !app_assoc. rewrite scan_int_dec; [|done|simpl; lia]. cbn [app].
  rewrite scan_int_dec; [|done|simpl; lia]. rewrite IH by done. rewrite imap_cons. cbn [fst snd]. f_equal; [by rewrite Nat.add_0_r|].
  apply imap_ext. intros j x _. unfold compose. by rewrite Nat.add_succ_r.
Qed.

Lemma breakpoint_read b size m junk :
  thread_amount b = Zlen (tasks b) -> Zlen (tasks b) <= MAX_THREAD -> Forall (fun t => is_int t.1 /\ is_int t.2) (tasks b) -> is_int (downloaded b) ->
  m <= MAX_THREAD -> threads_for size m <> 0 ->
  download size m (Some (store_breakpoint b)) junk = Ok (Some (imap (fun j t => Arg t.1 t.2 j) (tasks b), b)).
Proof.
  intros Hn Hmax Ht Hd Hm H0. unfold download. rewrite decide_False by lia. cbv zeta. rewrite decide_False by done.
  unfold store_breakpoint. rewrite scan_int_dec; [|done|simpl; lia]. cbn [app].
  assert (E : forall s, scan_int (10 :: s) = scan_int s) by done. rewrite E.
  assert (Hi : is_int (thread_amount b)) by (unfold is_int, MAX_THREAD in *; pose proof (Zlen_nonneg (tasks b)); lia).
  rewrite scan_int_dec; [|done|simpl; lia]. rewrite decide_False by lia. rewrite Hn. unfold Zlen. rewrite Nat2Z.id, firstn_all.
  rewrite scan_tasks_lines by done. do 3 f_equal. destruct b as [d n ts]. simpl in *. rewrite Hn. f_equal. apply task_args_fields.
Qed.

(** A new download. *)
Lemma fresh_plan R n junk args b :
  0 < n -> download (Zlen R) n None junk = Ok (Some (args, b)) ->
  plan_ok R args b ∅ /\ downloaded b = 0 /\ thread_amount b = Zlen args /\ Zlen args <= MAX_THREAD.
Proof.
  intros Hn Hd. unfold download in Hd. destruct (decide (MAX_THREAD < n)); [done|]. cbv zeta in Hd. destruct (decide (threads_for (Zlen R) n = 0)); [done|].
  injection Hd as <- <-. assert (0 < threads_for (Zlen R) n <= MAX_THREAD) by (unfold threads_for, MAX_THREAD in *; destruct (decide (Zlen R < 1000000)); lia).
  split; [apply new_plan; [done|lia|by rewrite length_fmap, length_seq]|]. set (n' := threads_for (Zlen R) n) in *. clearbody n'.
  unfold new_args, Zlen. rewrite length_fmap, length_seq. cbn [downloaded thread_amount]. lia.
Qed.

(** ** Properties *)


(** C16: A download that is interrupted when what is kept says where every thread is goes on
    from the file with what is left: the numbers are read back from its text, and when the
    second run is finished, which it always can be, the file is complete. *)
Theorem resume_complete R n junk args b s m junk' args' b' s' :
  0 < n -> Zlen R < 2 ^ 31 -> download (Zlen R) n None junk = Ok (Some (args, b)) -> rtc (step R) (launch args b ∅) s -> accurate s ->
  download (Zlen R) m (Some (store_breakpoint (g_breakpoint (common s)))) junk' = Ok (Some (args', b')) ->
  rtc (step R) (launch args' b' (disk (common s))) s' ->
  (finished (Zlen R) s' = true -> forall k, 0 <= k < Zlen R -> disk (common s') !! k = R !! Z.to_nat k) /\
  exists s'', rtc (step R) s' s'' /\ finished (Zlen R) s'' = true.
Proof.
  intros Hn Hsize Hd Hr Hac Hd' Hr'. destruct (fresh_plan R n junk args b Hn Hd) as [Hplan (Hb0 & Hamount & Hmax)].
  destruct (reach_ok R args b ∅ s Hplan Hr) as [[S1 S2 S3 S4 S5 _] _].
  pose proof (resume_plan R args b ∅ s Hplan Hr Hac) as Hplan'. destruct Hac as (A0 & A1 & A2 & A3).
  assert (Hmain : todo (main s) = [] /\ thread_amount (g_breakpoint (common s)) = thread_amount b)
    by (unfold amount_ok in S5; by destruct (main s)).
  destruct Hmain as [Htodo Hta]. rewrite Htodo, app_nil_r in S3.
  assert (Hlen : Zlen (tasks (g_breakpoint (common s))) = Zlen args) by (rewrite A1, <- S3; unfold Zlen; by rewrite !length_fmap).
  rewrite breakpoint_read in Hd'.
  - injection Hd' as <- <-. split; [intros Hf; by apply (finished_complete R _ _ _ s' Hplan')|by eapply can_finish].
  - congruence.
  - by rewrite Hlen.
  - rewrite A1. apply Forall_fmap. eapply Forall_impl; [exact S2|]. intros t [H1 H2 H3 H4 H5 H6 H7 H8]. simpl. unfold is_int. lia.
  - rewrite A2, S4. pose proof (counted_range R _ _ S2) as Hc. rewrite S3 in Hc. pose proof (plan_sum _ _ _ _ Hplan) as Hp.
    unfold is_int. lia.
  - unfold download in Hd'. destruct (decide (MAX_THREAD < m)); [done|]. lia.
  - intros E. unfold download in Hd'. destruct (decide (MAX_THREAD < m)); [done|]. cbv zeta in Hd'. by rewrite decide_True in Hd'.
Qed.

(** *** URLs *)

Lemma copy_until_stop stop a c r size :
  Forall (fun x => stop x = false) a -> stop c = true -> (length a <= size)%nat -> copy_until stop (a ++ c :: r) size = Ok (a, c :: r).
Proof.
  intros Ha Hc. revert size. induction Ha as [|x a Hx _ IH]; intros size Hl; simpl in *; [by rewrite Hc|].
  rewrite Hx. destruct size as [|size]; [lia|]. rewrite IH by lia. done.
Qed.

(** A URL with a port is taken apart into its parts. *)
Lemma parse_url_parts resolve junk s h n path :
  Forall (fun x => is_char 58 x = false) s -> (length s <= 7)%nat ->
  Forall (fun x => is_char 58 x || is_char 47 x || is_char 0 x = false) h -> (length h <= 255)%nat ->
  0 <= n < 10000000 -> head path = Some 47 -> Forall (fun x => is_char 0 x = false) path -> (length path <= 255)%nat ->
  parse_url resolve junk (s ++ text "://" ++ h ++ [58] ++ dec n ++ path ++ [0]) =
    Ok (URL s (match resolve h with Some ip => ip | None => host junk end) h n path).
Proof.
  intros Hs Hsl Hh Hhl Hn Hp Hp0 Hpl. unfold parse_url. change (text "://") with [58; 47; 47]. cbn [app].
  rewrite copy_until_stop by done. cbn [mbind outcome_bind skip]. rewrite copy_until_stop by done. cbn [mbind outcome_bind].
  rewrite bool_decide_true by done. cbn [skip mbind outcome_bind]. destruct path as [|c path]; [done|]. injection Hp as ->.
  assert (Hd : Forall (fun x => is_char 47 x = false) (dec n) /\ (length (dec n) <= 7)%nat).
  { unfold dec. rewrite decide_False by lia. assert (Hdig : forall f k acc, 0 <= k < 10 ^ Z.of_nat f ->
      exists ds, dec_digits f k acc = ds ++ acc /\ Forall (fun x => 48 <= x <= 57) ds /\ (length ds <= f)%nat).
    { clear. induction f as [|f IH]; intros k acc Hk; [by exists []|]. cbn [dec_digits]. destruct (decide (k < 10)).
      { exists [48 + k]. split; [done|]. split; [constructor; [lia|constructor]|simpl; lia]. }
      rewrite Nat2Z.inj_succ, Z.pow_succ_r in Hk by lia. destruct (IH (k / 10) ((48 + k `mod` 10) :: acc)) as (ds & E & F & L);
        [split; [apply Z.div_pos; lia|apply Z.div_lt_upper_bound; lia]|].
      exists (ds ++ [48 + k `mod` 10]). rewrite E, <- app_assoc. split; [done|]. split; [|rewrite length_app; simpl; lia].
      apply Forall_app. split; [done|]. constructor; [|constructor]. pose proof (Z.mod_pos_bound k 10 ltac:(lia)). lia. }
    assert (E7 : dec_digits 20 n [] = dec_digits 7 n []).
    { assert (Hfuel : forall f g k acc, (f <= g)%nat -> (0 < f)%nat -> 0 <= k < 10 ^ Z.of_nat f -> dec_digits g k acc = dec_digits f k acc).
      { clear. induction f as [|f IH]; intros g k acc Hfg Hf Hk; [lia|]. destruct g as [|g]; [lia|]. cbn [dec_digits]. destruct (decide (k < 10)); [done|].
        rewrite Nat2Z.inj_succ, Z.pow_succ_r in Hk by lia. assert ((0 < f)%nat) by (destruct f; [simpl in Hk; lia|lia]).
        apply IH; [lia|done|]. split; [apply Z.div_pos; lia|apply Z.div_lt_upper_bound; lia]. }
      apply Hfuel; [lia|lia|]. change (10 ^ Z.of_nat 7) with 10000000. lia. }
    rewrite E7. destruct (Hdig 7%nat n []) as (ds & -> & F & L); [change (10 ^ Z.of_nat 7) with 10000000; lia|]. rewrite app_nil_r. split; [|done].
    eapply Forall_impl; [exact F|]. intros x Hx. cbv beta in Hx. unfold is_char. apply bool_decide_eq_false. lia. }
  destruct Hd as [Hd1 Hd2]. change ((47 :: path) ++ [0]) with (47 :: path ++ [0]). rewrite copy_until_stop by done. cbn [mbind outcome_bind].
  assert (Hsc : scan_int (dec n) = Some (n, [])).
  { pose proof (scan_int_dec n [] ltac:(change (2 ^ 31) with 2147483648; lia) I) as E. by rewrite app_nil_r in E. }
  rewrite Hsc. cbn match. rewrite bool_decide_false by done. change (47 :: path ++ [0]) with ((47 :: path) ++ [0]). by rewrite copy_until_stop.
Qed.

(** *** Runs *)

Fixpoint run (evs : list (nat * recv_event)) (s : system) : option system :=
  match evs with
  | [] => Some s
  | (i, ev) :: evs =>
      t ← parts s !! i;
      match part_step ev t (common s) with
      | Ok (t', c) => run evs (System (<[i := t']> (parts s)) (main s) c)
      | Fault _ => None
      end
  end.

(** The main program runs until it waits. *)
Definition start (n : nat) (s : system) : system := Nat.iter n main_step s.

Lemma start_reached R n s : rtc (step R) s (start n s).
Proof. induction n as [|n IH]; [apply rtc_refl|]. etrans; [exact IH|]. apply rtc_once, step_main. Qed.

Definition abc : list Z := text "abc".
Definition run_1 : list (nat * recv_event) := [(0%nat, Closed); (0%nat, Data (partial ++ text "a")); (0%nat, Closed); (0%nat, Data (text "b")); (0%nat, Closed)].
Definition args_1 : list ThreadArg := [Arg 0 3 0].
Definition break_1 : BreakPoint := Break 0 1 [(0, 3)].

Definition state_of (o : option system) : system := default (System [] M_wait (Shared ∅ 0 break_1)) o.
Definition paused : system := state_of (run run_1 (start 5 (launch args_1 break_1 ∅))).
Definition resumed : system :=
  state_of (run [(0%nat, Closed); (0%nat, Data (partial ++ text "c")); (0%nat, Closed)]
                (start 5 (launch [Arg 2 1 0] (g_breakpoint (common paused)) (disk (common paused))))).

(** One step of the run, by computation. *)
Lemma step_run R ts m i t t' ev s s' :
  ts !! i = Some t -> conforms R t ev -> part_step ev t s = Ok (t', s') -> step R (System ts m s) (System (<[i := t']> ts) m s').
Proof. apply step_part. Qed.

Ltac one_step ev := eapply rtc_l; [eapply (step_run _ _ _ 0%nat _ _ ev); [by vm_compute| |by vm_compute]|].
Ltac received :=
  split; [split; [by vm_compute|by vm_compute]|split; by vm_compute].

Lemma paused_reached : rtc (step abc) (launch args_1 break_1 ∅) paused.
Proof.
  etrans; [apply (start_reached abc 5)|].
  change (start 5 (launch args_1 break_1 ∅)) with (System [new_part (Arg 0 3 0)] M_wait (Shared ∅ 0 break_1)).
  one_step Closed; [done|]. one_step (Data (partial ++ text "a")).
  { intros _. exists (text "HTTP/1.1 206 P"), (text "a"). split; [done|]. split; [by vm_compute|]. received. }
  one_step Closed; [done|]. one_step (Data (text "b")); [received|]. one_step Closed; [done|].
  replace paused with (System [Part (Arg 0 3 0) P_more 2 0 2] M_wait (common paused)) by (by vm_compute). apply rtc_refl.
Qed.


Lemma resume_complete_witness :
  store_breakpoint (g_breakpoint (common paused)) = text "2" ++ [10] ++ text "1" ++ [10] ++ text "2-1" ++ [10] /\ disk (common resumed) !! 1 = Some 98.
Proof.
  split; [by vm_compute|].
  apply (resume_complete abc 1 (0, 0) args_1 break_1 paused 5 (7, 7) [Arg 2 1 0] (g_breakpoint (common paused)) resumed);
    [done|by vm_compute|by vm_compute|exact paused_reached| |by vm_compute| |by vm_compute|by vm_compute].
  - split; [by vm_compute|]. split; [by vm_compute|]. split; [by vm_compute|]. constructor; [by vm_compute|constructor].
  - etrans; [apply (start_reached abc 5)|].
    replace (start 5 (launch [Arg 2 1 0] (g_breakpoint (common paused)) (disk (common paused))))
      with (System [new_part (Arg 2 1 0)] M_wait (Shared (disk (common paused)) 2 (g_breakpoint (common paused)))) by (by vm_compute).
    one_step Closed; [done|]. one_step (Data (partial ++ text "c")).
    { intros _. exists (text "HTTP/1.1 206 P"), (text "c"). split; [done|]. split; [by vm_compute|]. received. }
    one_step Closed; [done|].
    replace resumed with (System [Part (Arg 2 1 0) P_load 1 2 3] M_wait (common resumed)) by (by vm_compute). apply rtc_refl.
Defined.

(** *** What goes wrong *)

(** What is kept of a new task leaves out the bytes beyond the last full block. *)
Example remainder_not_kept :
  (fun o => match o with Ok (Some (args, b)) => Some (sum (limit <$> args), sum (snd <$> tasks b)) | _ => None end)
    (download 1000003 5 None (0, 0)) = Some (1000003, 1000000).
Proof. by vm_compute. Qed.

(** The first piece of an answer is counted but not kept; another thread writes the count.
    A run that goes on from there takes itself for finished before it is. *)
Example counted_twice :
  let first := state_of (run [(0%nat, Closed); (0%nat, Data (partial ++ text "ab")); (0%nat, Closed);
                              (1%nat, Closed); (1%nat, Data (partial ++ text "e")); (1%nat, Closed); (1%nat, Data (text "f")); (1%nat, Closed)]
                             (start 6 (launch [Arg 0 4 0; Arg 4 4 1] (Break 0 2 [(0, 4); (4, 4)]) ∅))) in
  let second := state_of (run [(0%nat, Closed); (0%nat, Data (partial ++ text "abcd")); (0%nat, Closed)]
                              (start 6 (launch [Arg 0 4 0; Arg 6 2 1] (g_breakpoint (common first)) (disk (common first))))) in
  store_breakpoint (g_breakpoint (common first)) = text "4" ++ [10] ++ text "2" ++ [10] ++ text "0-4" ++ [10] ++ text "6-2" ++ [10] /\
  finished 8 second = true /\ disk (common second) !! 7 = None.
Proof. by vm_compute. Qed.

(** Without the lock, a thread at its end puts back a count that another thread has gone beyond. *)
Example count_put_back :
  let s := state_of (run [(0%nat, Closed); (0%nat, Data (partial ++ text "a")); (0%nat, Closed); (0%nat, Closed);
                          (1%nat, Closed); (1%nat, Data (partial ++ text "b")); (1%nat, Closed); (1%nat, Data (text "c")); (1%nat, Closed);
                          (0%nat, Closed)]
                         (start 6 (launch [Arg 0 1 0; Arg 1 3 1] (Break 0 2 [(0, 1); (1, 3)]) ∅))) in
  (downloaded (g_breakpoint (common s)), g_downloaded (common s)) = (1, 3).
Proof. by vm_compute. Qed.

(** A server that does not know ranges sends everything, which is written from the middle on. *)
Example whole_file_at_offset :
  let s := state_of (run [(0%nat, Closed); (0%nat, Data (text "HTTP/1.1 200 OK" ++ blank_line ++ text "abcd"))]
                         (start 5 (launch [Arg 2 2 0] (Break 0 1 [(2, 2)]) ∅))) in
  disk (common s) !! 2 = Some 97.
Proof. by vm_compute. Qed.

(** A failed [recv] is taken for a length; headers longer than the buffer for a null pointer. *)
Example recv_error : part_step Error (Part (Arg 0 4 0) P_more 2 0 2) (Shared ∅ 2 break_1) = Fault OutOfBounds.
Proof. by vm_compute. Qed.
Example long_headers :
  part_step (Data (text "HTTP/1.1 206 P")) (Part (Arg 0 4 0) P_first 0 0 0) (Shared ∅ 0 break_1) = Fault NullDeref.
Proof. by vm_compute. Qed.

(** No threads at all. *)
Example zero_threads : download 1000000 0 None (0, 0) = Fault DivByZero.
Proof. by vm_compute. Qed.

(** A URL without a scheme is read beyond its end. *)
Example no_schema junk : parse_url (fun _ => None) junk (text "a.com" ++ [0]) = Fault OutOfBounds.
Proof. by vm_compute. Qed.

(** *** Redirections *)

Definition plain_answer (u : URLInfo) : option (list Z) :=
  if bool_decide (file u = text "/a/b") then Some (text "HTTP/1.1 302 Found" ++ [13; 10] ++ text "Location: ../c/d.txt" ++ [13; 10])
  else Some (text "HTTP/1.1 200 OK" ++ [13; 10] ++ text "Content-Length: 42" ++ [13; 10]).
Definition some_url : URLInfo := URL [] [] [] 0 [].

(** A redirection that goes up a directory from the start writes before the stack. *)
Example up_from_the_start :
  get_resource (fun _ => None) some_url 0 plain_answer 5 (text "http://h/a/b") = Fault OutOfBounds.
Proof. by vm_compute. Qed.
Example join_relative :
  join_url (fun _ => None) some_url (text "http://h:80/a/b") (text "x/./y/../z") = Ok (text "http://h:80/a/x/z").
Proof. by vm_compute. Qed.
(** An absolute path gets two slashes, and the address in place of the name. *)
Example join_absolute :
  join_url (fun _ => Some (text "1.2.3.4")) some_url (text "http://h:80/a/b") (text "/c") = Ok (text "http://1.2.3.4:80//c").
Proof. by vm_compute. Qed.
Example plain_resource :
  get_resource (fun _ => None) some_url 0 plain_answer 5 (text "http://h/d.txt") = Ok (Some (Res (text "http://h/d.txt") 42 (text "d.txt")), 5%nat).
Proof. by vm_compute. Qed.
