(* ===== verification/Ping.v ===== *)
(** * ping

    src/src/ping/ping_t.c: echo requests are packed with a checksum and the time of sending,
    and the answers are unpacked.  Packets are bytes; the machine is little-endian, [long]
    and pointers have 64 bits; the times are arguments. *)

From stdpp Require Import base numbers list list_numbers strings.
From S2P Require Import Prelude CStr.

#[local] Open Scope Z_scope.

Definition PACKET_SIZE : Z := 4096.
Definition MAX_NO_PACKETS : Z := 3.
Definition datalen : Z := 56.
Definition ICMP_ECHO : Z := 8.
Definition ICMP_ECHOREPLY : Z := 0.

(** ** The checksum *)

(** The loops of [cal_chksum] over the words and the last byte; [sum] is an [int]. *)
Fixpoint sum_loop (bytes : list Z) (sum : Z) : Z :=
  match bytes with
  | lo :: hi :: bytes => sum_loop bytes (s32 (sum + (lo + 256 * hi)))
  | [lo] => s32 (sum + lo)
  | [] => sum
  end.

Definition fold_sum (sum : Z) : Z :=
  let sum := s32 (Z.shiftr sum 16 + Z.land sum 65535) in
  s32 (sum + Z.shiftr sum 16).

Definition cal_chksum (bytes : list Z) : Z := u16 (Z.lnot (fold_sum (sum_loop bytes 0))).

(** ** Packets *)

Record timeval := Timeval { tv_sec : Z; tv_usec : Z }.

(** The bytes of a number of [n] bytes, and the number in some bytes. *)
Fixpoint le_bytes (n : nat) (x : Z) : list Z :=
  match n with
  | O => []
  | S n => x `mod` 256 :: le_bytes n (x / 256)
  end.
Fixpoint le_value (bytes : list Z) : Z :=
  match bytes with [] => 0 | b :: bytes => b + 256 * le_value bytes end.
Definition s64_of (bytes : list Z) : Z := let x := le_value bytes in if decide (x < 2 ^ 63) then x else x - 2 ^ 64.

(** [pack]: type, code, checksum, identifier, number, the time, and what was in the packet after it. *)
Definition icmp_bytes (type cksum id seq : Z) (data : list Z) : list Z :=
  [type; 0] ++ le_bytes 2 cksum ++ le_bytes 2 id ++ le_bytes 2 seq ++ data.

Definition pack (pid pack_no : Z) (now : timeval) (rest : list Z) : list Z :=
  let data := le_bytes 8 (tv_sec now) ++ le_bytes 8 (tv_usec now) ++ rest in
  let cksum := cal_chksum (icmp_bytes ICMP_ECHO 0 pid pack_no data) in
  icmp_bytes ICMP_ECHO cksum pid pack_no data.

(** [out -= in]. *)
Definition tv_sub (out in_ : timeval) : timeval :=
  let usec := tv_usec out - tv_usec in_ in
  if decide (usec < 0) then Timeval (tv_sec out - 1 - tv_sec in_) (usec + 1000000) else Timeval (tv_sec out - tv_sec in_) usec.

(** What [unpack] prints: the length, the number, the time to live and the round trip in
    milliseconds; [None] when it returns -1.  After printing it returns without a value; what
    its caller compares with -1 is then taken to be something else. *)
Definition unpack (pid : Z) (tvrecv : timeval) (buf : list Z) (len : Z) : outcome (option (Z * Z * Z * Z)) :=
  b0 ← rd buf 0;
  let iphdrlen := Z.shiftl (Z.land b0 15) 2 in
  let len := len - iphdrlen in
  if decide (len < 8) then Ok None
  else
    type ← rd buf iphdrlen;
    id ← rd_slice buf (iphdrlen + 4) 2;
    if decide (type = ICMP_ECHOREPLY /\ le_value id = pid) then
      sec ← rd_slice buf (iphdrlen + 8) 8;
      usec ← rd_slice buf (iphdrlen + 16) 8;
      let tv := tv_sub tvrecv (Timeval (s64_of sec) (s64_of usec)) in
      seq ← rd_slice buf (iphdrlen + 6) 2;
      ttl ← rd buf 8;
      Ok (Some (len, le_value seq, ttl, tv_sec tv * 1000 + Z.quot (tv_usec tv) 1000))
    else Ok None.

(** ** The loops *)

(** The data after the time: [sendpacket] is global, and nothing else writes it. *)
Definition filler : list Z := replicate (Z.to_nat (datalen - 16)) 0.

(** [send_packet]: every packet is counted, whether it can be sent or not. *)
Fixpoint send_packet (fuel : nat) (pid nsend : Z) (clock : Z -> timeval) (sendto : Z -> bool) : outcome (Z * list (list Z)) :=
  match fuel with
  | O => Fault OutOfFuel
  | S fuel =>
      if decide (nsend < MAX_NO_PACKETS) then
        let nsend := nsend + 1 in
        let p := pack pid nsend (clock nsend) filler in
        '(n, ps) ← send_packet fuel pid nsend clock sendto;
        Ok (n, if sendto nsend then p :: ps else ps)
      else Ok (nsend, [])
  end.

(** What [recvfrom] gives: a packet and when it came, an error, or the alarm that ends the program. *)
Inductive arrival := Packet (buf : list Z) (len : Z) (at_ : timeval) | RecvError | Alarm.

(** [recv_packet]; without a packet the alarm comes in the end. *)
Fixpoint recv_packet (pid nsend nreceived : Z) (net : list arrival) : outcome Z :=
  if decide (nreceived < nsend) then
    match net with
    | [] | Alarm :: _ => Ok nreceived
    | RecvError :: net => recv_packet pid nsend nreceived net
    | Packet buf len tv :: net =>
        r ← unpack pid tv buf len;
        recv_packet pid nsend (match r with Some _ => nreceived + 1 | None => nreceived end) net
    end
  else Ok nreceived.

(** The percentage that [statistics] prints. *)
Definition lost (nsend nreceived : Z) : outcome Z :=
  if decide (nsend = 0) then Fault DivByZero else Ok (Z.quot (nsend - nreceived) nsend * 100).

(** ** The checksum verifies *)

Definition is_byte (b : Z) : Prop := 0 <= b < 256.

(** The sum of the words. *)
Fixpoint words_sum (bytes : list Z) : Z :=
  match bytes with
  | lo :: hi :: bytes => lo + 256 * hi + words_sum bytes
  | [lo] => lo
  | [] => 0
  end.

Lemma s32_fits z : 0 <= z < 2147483648 -> s32 z = z.
Proof. intros H. unfold s32. rewrite Z.mod_small; lia. Qed.

Lemma words_ind (P : list Z -> Prop) : P [] -> (forall x, P [x]) -> (forall x y l, P l -> P (x :: y :: l)) -> forall l, P l.
Proof. intros H0 H1 H2. fix IH 1. intros [|x [|y l]]; [done|apply H1|apply H2, IH]. Qed.

Lemma words_sum_range l : Forall is_byte l -> 0 <= words_sum l <= 65535 * ((Zlen l + 1) / 2).
Proof.
  induction l as [|x|x y l IH] using words_ind; intros H.
  - done.
  - apply Forall_cons in H as [H _]. unfold is_byte in H. change (Zlen [x]) with 1. change ((1 + 1) / 2) with 1. cbn [words_sum]. lia.
  - apply Forall_cons in H as [Hx H]. apply Forall_cons in H as [Hy H]. specialize (IH H). unfold is_byte in *. rewrite !Zlen_cons. cbn [words_sum].
    replace (Zlen l + 1 + 1 + 1) with (Zlen l + 1 + 1 * 2) by lia. rewrite Z.div_add by lia. lia.
Qed.

Lemma sum_loop_words l : forall s, Forall is_byte l -> 0 <= s -> s + words_sum l < 2147483648 -> sum_loop l s = s + words_sum l.
Proof.
  induction l as [|x|x y l IH] using words_ind; intros s H Hs Hb; cbn [sum_loop words_sum] in *.
  - lia.
  - apply Forall_cons in H as [H _]. unfold is_byte in H. apply s32_fits. lia.
  - apply Forall_cons in H as [Hx H]. apply Forall_cons in H as [Hy H]. pose proof (words_sum_range l H). unfold is_byte in *.
    rewrite s32_fits by lia. rewrite IH by (done || lia). lia.
Qed.

(** Folding keeps the remainder modulo 65535; only 0 becomes 0. *)
Lemma fold_sum_mod s : 0 <= s < 2147483648 ->
  exists r, u16 (Z.lnot (fold_sum s)) = 65535 - r /\ 0 <= r <= 65535 /\ r `mod` 65535 = s `mod` 65535 /\ (r = 0 <-> s = 0).
Proof.
  intros Hs. unfold fold_sum. cbv zeta. rewrite !Z.shiftr_div_pow2 by lia. change (Z.land s 65535) with (Z.land s (Z.ones 16)). rewrite Z.land_ones by lia. change (2 ^ 16) with 65536.
  pose proof (Z.div_mod s 65536 ltac:(lia)). pose proof (Z.mod_pos_bound s 65536 ltac:(lia)). set (h := s / 65536) in *. set (l := s `mod` 65536) in *.
  assert (0 <= h < 32768) by lia. rewrite (s32_fits (h + l)) by lia.
  assert (Hc : (h + l) / 65536 = if decide (h + l < 65536) then 0 else 1).
  { destruct (decide _); [by apply Z.div_small; lia|]. symmetry. apply (Z.div_unique _ _ _ (h + l - 65536)); lia. }
  rewrite Hc. unfold u16, Z.lnot. destruct (decide (h + l < 65536)).
  - exists (h + l). rewrite Z.add_0_r, s32_fits by lia. split; [|split; [lia|split; [|lia]]].
    + symmetry. apply (Z.mod_unique _ _ (-1)); lia.
    + replace s with (h + l + h * 65535) by lia. by rewrite Z.mod_add.
  - exists (h + l + 1 - 65536). rewrite s32_fits by lia. split; [|split; [lia|split; [|lia]]].
    + symmetry. apply (Z.mod_unique _ _ (-2)); lia.
    + replace s with (h + l + 1 - 65536 + (h + 1) * 65535) by lia. by rewrite Z.mod_add.
Qed.

Definition short (l : list Z) : Prop := Forall is_byte l /\ Zlen l <= 60000.

Lemma chksum_sum l : short l ->
  exists r, cal_chksum l = 65535 - r /\ 0 <= r <= 65535 /\ r `mod` 65535 = words_sum l `mod` 65535 /\ (r = 0 <-> words_sum l = 0).
Proof.
  intros [Hb Hl]. pose proof (words_sum_range l Hb) as Hr. pose proof (Zlen_nonneg l).
  assert (Hd : (Zlen l + 1) / 2 <= 30000) by (apply Z.lt_succ_r, Z.div_lt_upper_bound; lia).
  unfold cal_chksum. rewrite sum_loop_words by (done || lia). apply fold_sum_mod. lia.
Qed.

(** A packet with something in it is accepted exactly when its words add up to a multiple of 65535. *)
Lemma chksum_zero_iff l : short l -> 0 < words_sum l -> cal_chksum l = 0 <-> words_sum l `mod` 65535 = 0.
Proof.
  intros Hs Hp. destruct (chksum_sum l Hs) as (r & -> & Hr & Hm & H0). rewrite <- Hm. split; intros H.
  - replace r with 65535 by lia. done.
  - assert (r <> 0) by lia. destruct (decide (r = 65535)); [lia|]. rewrite Z.mod_small in H by lia. lia.
Qed.

Lemma le_bytes_byte n : forall x, Forall is_byte (le_bytes n x).
Proof. induction n as [|n IH]; intros x; constructor; [|apply IH]. unfold is_byte. pose proof (Z.mod_pos_bound x 256 ltac:(lia)). lia. Qed.

Lemma le_bytes_length n : forall x, length (le_bytes n x) = n.
Proof. induction n as [|n IH]; intros x; simpl; [done|]. by rewrite IH. Qed.

Lemma le_round n : forall x, le_value (le_bytes n x) = x `mod` 256 ^ Z.of_nat n.
Proof.
  induction n as [|n IH]; intros x; cbn [le_bytes le_value].
  - by rewrite Z.pow_0_r, Z.mod_1_r.
  - rewrite IH, Nat2Z.inj_succ, Z.pow_succ_r by lia. symmetry. rewrite Z.rem_mul_r by lia. done.
Qed.

Lemma words_sum_even l1 : forall l2, Nat.even (length l1) = true -> words_sum (l1 ++ l2) = words_sum l1 + words_sum l2.
Proof. induction l1 as [|x|x y l IH] using words_ind; intros l2 H; [done|done|]. cbn [app words_sum]. rewrite IH by done. lia. Qed.

Lemma words_le2 x : words_sum (le_bytes 2 x) = x `mod` 65536.
Proof. change 65536 with (256 ^ Z.of_nat 2). rewrite <- le_round. cbn [le_bytes words_sum le_value]. lia. Qed.

Lemma icmp_sum type cksum id seq data :
  words_sum (icmp_bytes type cksum id seq data) = type + cksum `mod` 65536 + id `mod` 65536 + seq `mod` 65536 + words_sum data.
Proof.
  unfold icmp_bytes. rewrite !words_sum_even by (by rewrite ?le_bytes_length). rewrite !words_le2. cbn [words_sum]. lia.
Qed.

Lemma icmp_short type cksum id seq data :
  is_byte type -> Forall is_byte data -> Zlen data <= 50000 -> short (icmp_bytes type cksum id seq data).
Proof.
  intros Ht Hd Hl. split.
  - unfold icmp_bytes. rewrite !Forall_app. repeat split; try apply le_bytes_byte; [constructor; [done|constructor; [done|constructor]]|done].
  - unfold icmp_bytes, Zlen in *. rewrite !length_app, !le_bytes_length. simpl. lia.
Qed.

(** With the checksum of the packet without it in its place, a packet verifies. *)
Lemma icmp_verifies type id seq data :
  is_byte type -> 0 < type -> Forall is_byte data -> Zlen data <= 50000 ->
  cal_chksum (icmp_bytes type (cal_chksum (icmp_bytes type 0 id seq data)) id seq data) = 0.
Proof.
  intros Ht Hp Hd Hl. pose proof (icmp_short type 0 id seq data Ht Hd Hl) as H0. destruct (chksum_sum _ H0) as (r & E & Hr & Hm & _).
  pose proof (words_sum_range data Hd). assert (Hpos : 0 <= id `mod` 65536 /\ 0 <= seq `mod` 65536) by (split; apply Z.mod_pos_bound; lia).
  apply chksum_zero_iff; [by apply icmp_short| |]; rewrite icmp_sum, E, (Z.mod_small (65535 - r)) by lia; [unfold is_byte in Ht; lia|].
  rewrite icmp_sum in Hm. change (0 `mod` 65536) with 0 in Hm.
  set (s := type + 0 + id `mod` 65536 + seq `mod` 65536 + words_sum data) in *.
  replace (type + (65535 - r) + id `mod` 65536 + seq `mod` 65536 + words_sum data) with (s - r + 1 * 65535) by lia.
  rewrite Z.mod_add by lia. rewrite Zminus_mod, Hm, Z.sub_diag. done.
Qed.

(** ** Properties *)

(** An answer: the header of IP, and the packet with the type of an answer and some checksum. *)
Definition echo_reply (header : list Z) (cksum pid pack_no : Z) (now : timeval) (rest : list Z) : list Z :=
  header ++ icmp_bytes ICMP_ECHOREPLY cksum pid pack_no (le_bytes 8 (tv_sec now) ++ le_bytes 8 (tv_usec now) ++ rest).

Definition micros (t : timeval) : Z := tv_sec t * 1000000 + tv_usec t.
Definition time_ok (t : timeval) : Prop := 0 <= tv_sec t < 2 ^ 40 /\ 0 <= tv_usec t < 1000000.

Lemma rtt_ms t0 t1 : time_ok t0 -> time_ok t1 -> micros t0 <= micros t1 ->
  tv_sec (tv_sub t1 t0) * 1000 + Z.quot (tv_usec (tv_sub t1 t0)) 1000 = (micros t1 - micros t0) / 1000.
Proof.
  unfold micros, tv_sub. destruct t0 as [s0 u0], t1 as [s1 u1]. unfold time_ok. cbn [tv_sec tv_usec]. intros [H1 H2] [H3 H4] Hle.
  destruct (decide (u1 - u0 < 0)); cbn [tv_sec tv_usec]; rewrite Z.quot_div_nonneg by lia.
  - replace (s1 * 1000000 + u1 - (s0 * 1000000 + u0)) with (u1 - u0 + 1000000 + (s1 - 1 - s0) * 1000 * 1000) by lia. rewrite Z.div_add by lia. lia.
  - replace (s1 * 1000000 + u1 - (s0 * 1000000 + u0)) with (u1 - u0 + (s1 - s0) * 1000 * 1000) by lia. rewrite Z.div_add by lia. lia.
Qed.

Lemma rd_slice_mid {A} (a b c : list A) i n : i = Zlen a -> n = Zlen b -> rd_slice (a ++ b ++ c) i n = Ok b.
Proof.
  intros -> ->. unfold rd_slice. pose proof (Zlen_nonneg a). pose proof (Zlen_nonneg b). rewrite bool_decide_true.
  - unfold slice, Zlen. rewrite !Nat2Z.id, drop_app_length, take_app_length. done.
  - unfold Zlen in *. rewrite !length_app. lia.
Qed.

Lemma s64_le x : 0 <= x < 2 ^ 63 -> s64_of (le_bytes 8 x) = x.
Proof. intros H. unfold s64_of. rewrite le_round. change (256 ^ Z.of_nat 8) with (2 ^ 64). rewrite Z.mod_small by lia. by rewrite decide_True by lia. Qed.

(** Ping and its answer.  The packets that are sent verify (their checksum is 0 over the
    whole packet), whatever is in them; and of an answer to one of them, with the length of
    the IP header in its first byte, [unpack] recognises the identifier and gives its length,
    the number of the request, the time to live, and the whole milliseconds between sending
    and receiving.  The process number must fit the 16 bits of the identifier. *)
Lemma ping_roundtrip pid pack_no now rest header cksum tvrecv b0 ttl :
  0 <= pid < 65536 -> 0 <= pack_no < 65536 -> time_ok now -> time_ok tvrecv -> micros now <= micros tvrecv ->
  Forall is_byte rest -> Zlen rest <= 4000 ->
  header !! 0%nat = Some b0 -> header !! 8%nat = Some ttl -> Zlen header = Z.shiftl (Z.land b0 15) 2 ->
  cal_chksum (pack pid pack_no now rest) = 0 /\
  unpack pid tvrecv (echo_reply header cksum pid pack_no now rest) (Zlen (echo_reply header cksum pid pack_no now rest)) =
    Ok (Some (24 + Zlen rest, pack_no, ttl, (micros tvrecv - micros now) / 1000)).
Proof.
  intros Hpid Hno Hnow Hrecv Hle Hrest Hlen Hb0 Httl Hhl. split.
  - apply icmp_verifies; [done|done| |].
    + rewrite !Forall_app. split; [apply le_bytes_byte|]. split; [apply le_bytes_byte|done].
    + unfold Zlen in *. rewrite !length_app, !le_bytes_length. lia.
  - unfold unpack, echo_reply, icmp_bytes. set (data := le_bytes 8 (tv_sec now) ++ _).
    assert (Hrd : forall i x tl, header !! i = Some x -> rd (header ++ tl) (Z.of_nat i) = Ok x).
    { intros i x tl Hi. apply rd_Ok_iff. split; [lia|]. rewrite Nat2Z.id. by apply lookup_app_l_Some. }
    rewrite (Hrd 0%nat b0 _ Hb0). cbn [mbind outcome_bind]. rewrite <- Hhl.
    assert (Hz : Zlen data = 16 + Zlen rest) by (unfold data, Zlen; rewrite !length_app, !le_bytes_length; lia).
    set (p := header ++ _). assert (Hp : Zlen p = Zlen header + 8 + Zlen data) by (unfold p, Zlen; rewrite !length_app, !le_bytes_length; simpl; lia).
    pose proof (Zlen_nonneg rest). rewrite decide_False by lia.
    assert (Htype : rd p (Zlen header) = Ok ICMP_ECHOREPLY).
    { apply rd_Ok_iff. split; [apply Zlen_nonneg|]. unfold p, Zlen. rewrite Nat2Z.id. by rewrite lookup_app_r, Nat.sub_diag by lia. }
    rewrite Htype. cbn [mbind outcome_bind].
    assert (Hid : rd_slice p (Zlen header + 4) 2 = Ok (le_bytes 2 pid)).
    { unfold p. replace (header ++ [ICMP_ECHOREPLY; 0] ++ le_bytes 2 cksum ++ le_bytes 2 pid ++ le_bytes 2 pack_no ++ data)
        with ((header ++ [ICMP_ECHOREPLY; 0] ++ le_bytes 2 cksum) ++ le_bytes 2 pid ++ le_bytes 2 pack_no ++ data) by (by rewrite <- !app_assoc).
      apply rd_slice_mid; [unfold Zlen; rewrite !length_app, le_bytes_length; simpl; lia|done]. }
    assert (Hseq : rd_slice p (Zlen header + 6) 2 = Ok (le_bytes 2 pack_no)).
    { unfold p. replace (header ++ [ICMP_ECHOREPLY; 0] ++ le_bytes 2 cksum ++ le_bytes 2 pid ++ le_bytes 2 pack_no ++ data)
        with ((header ++ [ICMP_ECHOREPLY; 0] ++ le_bytes 2 cksum ++ le_bytes 2 pid) ++ le_bytes 2 pack_no ++ data) by (by rewrite <- !app_assoc).
      apply rd_slice_mid; [unfold Zlen; rewrite !length_app, !le_bytes_length; simpl; lia|done]. }
    assert (Hsec : rd_slice p (Zlen header + 8) 8 = Ok (le_bytes 8 (tv_sec now))).
    { unfold p, data. replace (header ++ [ICMP_ECHOREPLY; 0] ++ le_bytes 2 cksum ++ le_bytes 2 pid ++ le_bytes 2 pack_no ++ le_bytes 8 (tv_sec now) ++ le_bytes 8 (tv_usec now) ++ rest)
        with ((header ++ [ICMP_ECHOREPLY; 0] ++ le_bytes 2 cksum ++ le_bytes 2 pid ++ le_bytes 2 pack_no) ++ le_bytes 8 (tv_sec now) ++ le_bytes 8 (tv_usec now) ++ rest) by (by rewrite <- !app_assoc).
      apply rd_slice_mid; [unfold Zlen; rewrite !length_app, !le_bytes_length; simpl; lia|done]. }
    assert (Husec : rd_slice p (Zlen header + 16) 8 = Ok (le_bytes 8 (tv_usec now))).
    { unfold p, data. replace (header ++ [ICMP_ECHOREPLY; 0] ++ le_bytes 2 cksum ++ le_bytes 2 pid ++ le_bytes 2 pack_no ++ le_bytes 8 (tv_sec now) ++ le_bytes 8 (tv_usec now) ++ rest)
        with ((header ++ [ICMP_ECHOREPLY; 0] ++ le_bytes 2 cksum ++ le_bytes 2 pid ++ le_bytes 2 pack_no ++ le_bytes 8 (tv_sec now)) ++ le_bytes 8 (tv_usec now) ++ rest) by (by rewrite <- !app_assoc).
      apply rd_slice_mid; [unfold Zlen; rewrite !length_app, !le_bytes_length; simpl; lia|done]. }
    assert (Ht8 : rd p 8 = Ok ttl) by exact (Hrd 8%nat ttl _ Httl).
    rewrite Hid. cbn [mbind outcome_bind]. rewrite le_round. change (256 ^ Z.of_nat 2) with 65536. rewrite Z.mod_small by done. rewrite decide_True by done.
    rewrite Hsec. cbn [mbind outcome_bind]. rewrite Husec. cbn [mbind outcome_bind]. cbv zeta. rewrite Hseq. cbn [mbind outcome_bind].
    rewrite Ht8. cbn [mbind outcome_bind]. rewrite le_round. change (256 ^ Z.of_nat 2) with 65536. rewrite Z.mod_small by done.
    destruct Hnow as [N1 N2]. rewrite !s64_le by lia. rewrite Hp, Hz.
    assert (Hms := rtt_ms now tvrecv (conj N1 N2) Hrecv Hle). destruct now as [s0 u0]. cbn [tv_sec tv_usec] in *. rewrite Hms. repeat f_equal. lia.
Qed.

Definition ip_header : list Z := 69 :: replicate 7 0 ++ 64 :: replicate 11 0.

Lemma ping_roundtrip_witness :
  cal_chksum (pack 1234 2 (Timeval 100 999500) filler) = 0 /\
  unpack 1234 (Timeval 101 20500) (echo_reply ip_header 7 1234 2 (Timeval 100 999500) filler)
    (Zlen (echo_reply ip_header 7 1234 2 (Timeval 100 999500) filler)) = Ok (Some (64, 2, 64, 21)).
Proof.
  apply (ping_roundtrip 1234 2 (Timeval 100 999500) filler ip_header 7 (Timeval 101 20500) 69 64);
    unfold time_ok, micros; cbn [tv_sec tv_usec]; try done; try lia.
  repeat constructor; unfold is_byte; lia.
Defined.

(** A process number of more than 16 bits is cut in the packet and compared whole: no answer
    is ever recognised. *)
Example wide_pid : unpack 70000 (Timeval 101 20500) (echo_reply ip_header 7 70000 2 (Timeval 100 999500) filler) 84 = Ok None.
Proof. vm_compute. reflexivity. Qed.

(** One of three answers, and 0 percent are lost; without a packet sent the division fails. *)
Example two_of_three_lost : lost 3 1 = Ok 0 /\ lost 3 0 = Ok 100 /\ lost 0 0 = Fault DivByZero.
Proof. vm_compute. done. Qed.

Example three_sent :
  match send_packet 4 1234 0 (fun n => Timeval n 0) (fun n => negb (n =? 2)) with
  | Ok (n, ps) => n = 3 /\ length ps = 2%nat /\ Forall (fun p => Zlen p = 8 + datalen) ps
  | Fault _ => False
  end.
Proof. vm_compute. repeat constructor. Qed.

Example an_answer_counts :
  recv_packet 1234 1 0 [RecvError; Packet ip_header 20 (Timeval 0 0);
                        Packet (echo_reply ip_header 7 1234 1 (Timeval 1 0) filler) 84 (Timeval 1 5000)] = Ok 1.
Proof. vm_compute. reflexivity. Qed.
