(* ===== verification/ConfFile.v ===== *)
(** * The configuration files

    src/src/conf_file/conf.c and conf-2.c, which differ in the length of the lines: a key is
    looked up in a section of a file.  The file, the strings and the caller's array for the
    value are bytes; [malloc] is an argument that says how many bytes an allocation has.
    Whatever is written in the format of the files, the first entry of the key in the first
    section of the name is found. *)

From stdpp Require Import base numbers list list_numbers strings.
From S2P Require Import Prelude CStr.

#[local] Open Scope Z_scope.

Definition KEYVALLEN : Z := 100.
Definition KEYVALLEN_2 : Z := 700.

(** ** Trimming *)

Fixpoint l_trim (s : list Z) : list Z :=
  match s with
  | c :: s' => if is_space c then l_trim s' else s
  | [] => []
  end.

(** The loop from the end of the string backwards. *)
Definition r_trim (s : list Z) : list Z := rev (l_trim (rev s)).
Definition a_trim (s : list Z) : list Z := r_trim (l_trim s).

(** ** What is used of stdio *)

(** [fgets]: at most [room] bytes, up to a newline, and the rest of the file. *)
Fixpoint fgets (room : nat) (file : list Z) : list Z * list Z :=
  match room, file with
  | S room, c :: file =>
      if decide (c = LF) then ([c], file) else let '(line, rest) := fgets room file in (c :: line, rest)
  | _, _ => ([], file)
  end.

(** A string and its NUL written to the front of an array. *)
Definition store (buf s : list Z) : outcome (list Z) :=
  if decide (Zlen s < Zlen buf) then Ok (s ++ 0 :: drop (length s + 1) buf) else Fault OutOfBounds.

(** The longest prefix outside a set, which [%[^...]] reads when it is not empty. *)
Fixpoint outside (stop : Z -> bool) (s : list Z) : list Z :=
  match s with
  | c :: s => if stop c then [] else c :: outside stop s
  | [] => []
  end.

(** The set of [%[^=|^ |^\t]]: the bar and the caret are in it. *)
Definition key_stop (c : Z) : bool := bool_decide (c ∈ [61; 124; 94; 32; 9]).
Definition is_newline (c : Z) : bool := bool_decide (c = LF).
Definition is_equals (c : Z) : bool := bool_decide (c = 61).

(** [appname] and [keyname] have 32 bytes. *)
Definition section_line (AppName : list Z) : outcome (list Z) :=
  let s := 91 :: AppName ++ [93] in if decide (Zlen s < 32) then Ok s else Fault OutOfBounds.

Definition scan_key (buf : list Z) : outcome (list Z) :=
  let k := outside key_stop buf in if decide (Zlen k < 32) then Ok k else Fault OutOfBounds.

(** ** GetProfileString *)

Section Profile.
Context (keyvallen : Z) (malloc : Z -> option Z).

(** The value after the equals sign into the caller's array, and trimmed through a copy of
    which [memset] clears the first [sizeof( char* )] bytes. *)
Definition take_value (rest KeyVal : list Z) : outcome (list Z) :=
  KeyVal ← match outside is_newline rest with [] => Ok KeyVal | v => store KeyVal v end;
  v ← string_of KeyVal;
  match malloc (Zlen v + 1) with
  | None => Ok KeyVal
  | Some size =>
      if decide (size < 8 \/ size <= Zlen (l_trim v)) then Fault OutOfBounds
      else match a_trim v with [] => Ok KeyVal | o => store KeyVal o end
  end.

(** The loop over the lines; [in_section] for [found] being 1.  The result says whether
    [found] became 2. *)
Fixpoint scan (fuel : nat) (appname KeyName : list Z) (in_section : bool) (file KeyVal : list Z) : outcome (bool * list Z) :=
  match fuel with
  | O => Fault OutOfFuel
  | S fuel =>
      match file with
      | [] => Ok (false, KeyVal)
      | _ =>
          let '(line, file) := fgets (Z.to_nat (keyvallen - 1)) file in
          let buf := l_trim (upto_nul line) in
          match buf with
          | [] => scan fuel appname KeyName in_section file KeyVal
          | c0 :: _ =>
              if in_section then
                if decide (c0 = 35) then scan fuel appname KeyName true file KeyVal
                else if decide (c0 = 91) then Ok (false, KeyVal)
                else match find_char is_equals buf with
                     | None => scan fuel appname KeyName true file KeyVal
                     | Some c =>
                         keyname ← scan_key buf;
                         if decide (keyname = KeyName) then
                           KeyVal ← take_value (drop (Z.to_nat (c + 1)) buf) KeyVal; Ok (true, KeyVal)
                         else scan fuel appname KeyName true file KeyVal
                     end
              else if decide (c0 = 91 /\ take (length appname) buf = appname) then scan fuel appname KeyName true file KeyVal
              else scan fuel appname KeyName false file KeyVal
          end
      end
  end.

(** [None] is a file that cannot be opened. *)
Definition GetProfileString (profile : option (list Z)) (AppName KeyName KeyVal : list Z) : outcome (Z * list Z) :=
  match profile with
  | None => Ok (-1, KeyVal)
  | Some file =>
      appname ← section_line AppName;
      '(found, KeyVal) ← scan (S (length file)) appname KeyName false file KeyVal;
      Ok (if (found : bool) then 0 else -1, KeyVal)
  end.
End Profile.

Definition GetProfileString_2 := GetProfileString KEYVALLEN_2.

(** ** The format *)

Inductive item :=
| Blank (lead : list Z)
| Comment (lead text : list Z)
| Entry (lead key gap value : list Z).

Record section := Sect { s_lead : list Z; s_name : list Z; s_tail : list Z; s_items : list item }.
Record config := Config { preamble : list item; sections : list section }.

Definition item_text (i : item) : list Z :=
  match i with
  | Blank lead => lead
  | Comment lead text => lead ++ 35 :: text
  | Entry lead key gap value => lead ++ key ++ gap ++ 61 :: value
  end.
Definition head_text (s : section) : list Z := s_lead s ++ 91 :: s_name s ++ 93 :: s_tail s.

Definition print_items (l : list item) : list Z := l ≫= fun i => item_text i ++ [LF].
Definition print_section (s : section) : list Z := head_text s ++ LF :: print_items (s_items s).
Definition print (c : config) : list Z := print_items (preamble c) ++ (sections c ≫= print_section).

(** What is to be found. *)
Fixpoint find_entry (key : list Z) (l : list item) : option (list Z) :=
  match l with
  | [] => None
  | Entry _ k _ v :: l => if decide (k = key) then Some v else find_entry key l
  | _ :: l => find_entry key l
  end.
Fixpoint find_section (name : list Z) (l : list section) : list item :=
  match l with
  | [] => []
  | s :: l => if decide (s_name s = name) then s_items s else find_section name l
  end.
Definition config_find (name key : list Z) (c : config) : option (list Z) := find_entry key (find_section name (sections c)).

(** The lines: no newline or NUL, and short enough to be read at once. *)
Definition line_ok (n : Z) (s : list Z) : Prop := (LF ∉ s) /\ (0 ∉ s) /\ Zlen s + 1 < n.
Definition spaces (s : list Z) : Prop := Forall (fun c => is_space c = true) s.
Definition key_char (c : Z) : Prop := is_space c = false /\ key_stop c = false.

Definition key_ok (k : list Z) : Prop :=
  Forall key_char k /\ Zlen k < 32 /\ match k with c :: _ => c <> 35 /\ c <> 91 | [] => False end.

Definition item_ok (n : Z) (i : item) : Prop :=
  line_ok n (item_text i) /\
  match i with
  | Blank lead | Comment lead _ => spaces lead
  | Entry lead key gap value => spaces lead /\ key_ok key /\ Forall (fun c => is_blank c = true) gap /\ a_trim value <> []
  end.

Definition section_ok (n : Z) (s : section) : Prop :=
  line_ok n (head_text s) /\ spaces (s_lead s) /\ (93 ∉ s_name s) /\ Forall (item_ok n) (s_items s).

Definition config_ok (n : Z) (c : config) : Prop := Forall (item_ok n) (preamble c) /\ Forall (section_ok n) (sections c).

(** ** Lines *)

Lemma fgets_line room l file : LF ∉ l -> (length l < room)%nat -> fgets room (l ++ LF :: file) = (l ++ [LF], file).
Proof.
  revert room. induction l as [|c l IH]; intros [|room] Hl Hn; simpl in *; try lia; [done|].
  apply not_elem_of_cons in Hl as [Hc Hl]. rewrite decide_False by congruence. by rewrite IH by (done || lia).
Qed.

Lemma fgets_rest room file line rest : fgets (S room) file = (line, rest) -> file <> [] -> (length rest < length file)%nat.
Proof.
  assert (H : forall room file line rest, fgets room file = (line, rest) -> (length rest <= length file)%nat).
  { clear. induction room as [|room IH]; intros [|c file] line rest; simpl; try by intros [= _ <-].
    destruct (decide (c = LF)); [intros [= _ <-]; lia|]. destruct (fgets room file) eqn:E. intros [= _ <-]. apply IH in E. lia. }
  destruct file as [|c file]; [done|]. simpl. destruct (decide (c = LF)); [intros [= _ <-] _; lia|].
  destruct (fgets room file) eqn:E. intros [= _ <-] _. apply H in E. lia.
Qed.

Lemma upto_nul_id s : 0 ∉ s -> upto_nul s = s.
Proof. induction s as [|c s IH]; [done|]. rewrite not_elem_of_cons. intros [Hc Hs]. simpl. rewrite decide_False by congruence. by rewrite IH. Qed.

Lemma l_trim_spaces lead s : spaces lead -> l_trim (lead ++ s) = l_trim s.
Proof. induction 1 as [|c l Hc _ IH]; [done|]. simpl. by rewrite Hc. Qed.

Lemma l_trim_app s t : l_trim s <> [] -> l_trim (s ++ t) = l_trim s ++ t.
Proof. induction s as [|c s IH]; [done|]. simpl. destruct (is_space c); [apply IH|done]. Qed.

Lemma l_trim_nil s : l_trim s = [] <-> spaces s.
Proof.
  split.
  - induction s as [|c s IH]; simpl; [intros _; constructor|]. destruct (is_space c) eqn:E; [|done]. intros H. constructor; [done|by apply IH].
  - intros H. pose proof (l_trim_spaces s [] H) as E. by rewrite app_nil_r in E.
Qed.

Lemma l_trim_suffix s : exists lead, spaces lead /\ s = lead ++ l_trim s.
Proof.
  induction s as [|c s (lead & Hl & E)]; [by exists []; split; [constructor|]|]. simpl. destruct (is_space c) eqn:Ec.
  - exists (c :: lead). split; [by constructor|]. simpl. congruence.
  - exists []. split; [constructor|done].
Qed.

Lemma outside_all stop s t c : Forall (fun c => stop c = false) s -> stop c = true -> outside stop (s ++ c :: t) = s.
Proof. induction 1 as [|d s Hd _ IH]; intros Hc; simpl; [by rewrite Hc|]. rewrite Hd. by rewrite IH. Qed.

Lemma find_char_app P s c t : Forall (fun c => P c = false) s -> P c = true -> find_char P (s ++ c :: t) = Some (Zlen s).
Proof. induction 1 as [|d s Hd _ IH]; intros Hc; simpl; [by rewrite Hc|]. rewrite Hd, IH by done. simpl. by rewrite Zlen_cons. Qed.

(** A closing bracket ends the name. *)
Lemma names_differ (a b s t : list Z) : 93 ∉ a -> 93 ∉ b -> a ++ 93 :: s = b ++ 93 :: t -> a = b.
Proof.
  revert b. induction a as [|x a IH]; intros [|y b] Ha Hb; simpl; [done| | |].
  - intros [= <- _]. by apply not_elem_of_cons in Hb as [].
  - intros [= -> _]. by apply not_elem_of_cons in Ha as [].
  - apply not_elem_of_cons in Ha as [_ Ha]. apply not_elem_of_cons in Hb as [_ Hb]. intros [= -> E]. f_equal. by apply (IH b).
Qed.

Lemma store_string buf s : 0 ∉ s -> Zlen s < Zlen buf ->
  exists buf', store buf s = Ok buf' /\ string_of buf' = Ok s /\ Zlen buf' = Zlen buf.
Proof.
  intros H0 Hl. unfold store. rewrite decide_True by done. eexists. split; [done|]. split; [by apply string_of_ok|].
  unfold Zlen in *. rewrite length_app. simpl. rewrite length_drop. lia.
Qed.

Lemma l_trim_length s : Zlen (l_trim s) <= Zlen s.
Proof. destruct (l_trim_suffix s) as (lead & _ & E). rewrite E at 2. unfold Zlen. rewrite length_app. lia. Qed.

Lemma l_trim_in x s : x ∈ l_trim s -> x ∈ s.
Proof. destruct (l_trim_suffix s) as (lead & _ & E). intros H. rewrite E, elem_of_app. by right. Qed.

Lemma a_trim_length s : Zlen (a_trim s) <= Zlen s.
Proof.
  unfold a_trim, r_trim. pose proof (l_trim_length (rev (l_trim s))). pose proof (l_trim_length s). unfold Zlen in *. rewrite length_rev in *. lia.
Qed.

Lemma a_trim_in x s : x ∈ a_trim s -> x ∈ s.
Proof. unfold a_trim, r_trim. rewrite list_elem_of_In, <- in_rev, <- list_elem_of_In. intros H%l_trim_in. rewrite list_elem_of_In, <- in_rev, <- list_elem_of_In in H. by apply l_trim_in. Qed.

(** What becomes of a value: it is trimmed when there is memory for a copy, whose first
    [sizeof( char* )] bytes are cleared whatever its size. *)
Definition fetched (malloc : Z -> option Z) (value : list Z) : outcome (list Z) :=
  match malloc (Zlen value + 1) with
  | None => Ok value
  | Some size => if decide (size < 8) then Fault OutOfBounds else Ok (a_trim value)
  end.

(** A result and the string it leaves in the caller's array, or a fault. *)
Definition leaves (m : outcome (list Z)) (r : outcome (list Z)) : Prop :=
  match r with
  | Ok v => exists KeyVal, m = Ok KeyVal /\ string_of KeyVal = Ok v
  | Fault f => m = Fault f
  end.

Lemma take_value_ok (malloc : Z -> option Z) value KeyVal :
  (forall k size, malloc k = Some size -> k <= size) ->
  LF ∉ value -> 0 ∉ value -> a_trim value <> [] -> Zlen value < Zlen KeyVal ->
  leaves (take_value malloc (value ++ [LF]) KeyVal) (fetched malloc value).
Proof.
  intros Hm Hlf H0 Ht Hl. unfold take_value, fetched.
  assert (E : outside is_newline (value ++ [LF]) = value).
  { apply outside_all; [|done]. apply Forall_forall. intros c Hc. apply bool_decide_eq_false. intros ->. done. }
  rewrite E. destruct (store_string KeyVal value H0 Hl) as (kv & E1 & E2 & E3).
  destruct value as [|c v] eqn:Ev; [done|]. rewrite <- Ev in *. rewrite E1. cbn [mbind outcome_bind]. rewrite E2. cbn [mbind outcome_bind].
  destruct (malloc (Zlen value + 1)) as [size|] eqn:Em; [|by exists kv]. apply Hm in Em. pose proof (l_trim_length value).
  destruct (decide (size < 8)); [by rewrite decide_True by lia|]. rewrite decide_False by lia.
  destruct (store_string kv (a_trim value)) as (kv' & E4 & E5 & _).
  - intros Hin. by apply a_trim_in in Hin.
  - pose proof (a_trim_length value). lia.
  - exists kv'. split; [|done]. by destruct (a_trim value).
Qed.

(** ** The loop ends: every line takes at least a byte of the file *)

Lemma scan_ends n malloc appname KeyName fuel : forall found file KeyVal,
  2 <= n -> (length file < fuel)%nat -> scan n malloc fuel appname KeyName found file KeyVal <> Fault OutOfFuel.
Proof.
  assert (Hs : forall b s, store b s <> Fault OutOfFuel) by (intros b s; unfold store; by destruct (decide _)).
  assert (Hst : forall b, string_of b <> Fault OutOfFuel).
  { induction b as [|c b IH]; simpl; [done|]. destruct (decide (c = 0)); [done|]. destruct (string_of b); [done|]. simpl. congruence. }
  assert (Htv : forall r kv, take_value malloc r kv <> Fault OutOfFuel).
  { intros r kv. unfold take_value.
    assert (Hafter : forall kv, (v ← string_of kv; match malloc (Zlen v + 1) with None => Ok kv
      | Some size => if decide (size < 8 \/ size <= Zlen (l_trim v)) then Fault OutOfBounds
                     else match a_trim v with [] => Ok kv | o => store kv o end end) <> Fault OutOfFuel).
    { clear kv. intros kv. destruct (string_of kv) as [w|f] eqn:E; [|intros [= ->]; by apply (Hst kv)]. cbn [mbind outcome_bind].
      destruct (malloc _); [|done]. destruct (decide _); [done|]. destruct (a_trim w); [done|apply Hs]. }
    destruct (outside is_newline r) as [|x v]; [apply Hafter|].
    destruct (store kv (x :: v)) as [kv'|f] eqn:E; [apply Hafter|]. intros [= ->]. by apply (Hs kv (x :: v)). }
  induction fuel as [|fuel IH]; intros found file KeyVal Hn Hf; [lia|]. cbn [scan]. destruct file as [|c file]; [done|].
  destruct (fgets _ (c :: file)) as [line rest] eqn:E. replace (Z.to_nat (n - 1)) with (S (Z.to_nat (n - 2))) in E by lia.
  apply fgets_rest in E; [|done]. cbv zeta. destruct (l_trim (upto_nul line)) as [|c0 b] eqn:Eb; [apply IH; lia|].
  destruct found; repeat case_decide; try done; try (apply IH; lia).
  destruct (find_char is_equals (c0 :: b)); [|apply IH; lia].
  unfold scan_key. destruct (decide _); [|done]. cbn [mbind outcome_bind]. destruct (decide _); [|apply IH; lia].
  destruct (take_value _ _ _) as [kv|f] eqn:Ev; [done|]. cbn [mbind outcome_bind]. intros [= ->]. by apply (Htv _ _ Ev).
Qed.

(** ** One line at a time *)

(** The key of an entry and the place of its equals sign. *)
Lemma key_line key gap rest :
  Forall key_char key -> Zlen key < 32 -> Forall (fun c => is_blank c = true) gap ->
  find_char is_equals (key ++ gap ++ 61 :: rest) = Some (Zlen key + Zlen gap) /\ scan_key (key ++ gap ++ 61 :: rest) = Ok key.
Proof.
  intros Hkey Hlen Hgap.
  assert (Hstop : forall c, is_equals c = true \/ is_blank c = true -> key_stop c = true).
  { intros c H. unfold key_stop. apply bool_decide_eq_true. unfold is_equals, is_blank in H.
    rewrite orb_true_iff, !bool_decide_eq_true in H. rewrite !elem_of_cons. naive_solver. }
  assert (Hoff : Forall (fun c => is_equals c = false) (key ++ gap)).
  { apply Forall_app. split; eapply Forall_impl; [exact Hkey| |exact Hgap|]; intros c H.
    - destruct H as [_ H]. destruct (is_equals c) eqn:E; [|done]. rewrite Hstop in H by auto. done.
    - unfold is_blank in H. unfold is_equals. apply bool_decide_eq_false. intros ->. done. }
  split.
  - rewrite app_assoc, find_char_app by done. unfold Zlen. rewrite length_app. f_equal. lia.
  - unfold scan_key. assert (E : outside key_stop (key ++ gap ++ 61 :: rest) = key).
    { assert (Hk : Forall (fun c => key_stop c = false) key) by (eapply Forall_impl; [exact Hkey|]; by intros c []).
      destruct Hgap as [|g gap Hg _]; simpl; apply outside_all; auto. }
    rewrite E. by rewrite decide_True.
Qed.

(** What the loop sees of the line of an entry. *)
Lemma entry_line n lead key gap value :
  item_ok n (Entry lead key gap value) ->
  exists c b, l_trim (item_text (Entry lead key gap value) ++ [LF]) = c :: b /\ c <> 35 /\ c <> 91 /\
    c :: b = key ++ gap ++ 61 :: value ++ [LF] /\
    find_char is_equals (c :: b) = Some (Zlen key + Zlen gap) /\ scan_key (c :: b) = Ok key.
Proof.
  intros (_ & Hlead & (Hkey & Hlen & Hfirst) & Hgap & _). destruct key as [|c k']; [done|]. destruct Hfirst as [Hc1 Hc2].
  destruct (key_line (c :: k') gap (value ++ [LF]) Hkey Hlen Hgap) as [E1 E2].
  exists c, (k' ++ gap ++ 61 :: value ++ [LF]). split; [|by split_and!].
  cbn [item_text]. rewrite <- app_assoc, l_trim_spaces, <- !app_assoc by done. cbn [app l_trim].
  apply Forall_cons in Hkey as [[Hsp _] _]. by rewrite Hsp.
Qed.

(** The loop has found the key. *)
Definition finds (m : outcome (bool * list Z)) (r : outcome (list Z)) : Prop :=
  match r with
  | Ok v => exists KeyVal, m = Ok (true, KeyVal) /\ string_of KeyVal = Ok v
  | Fault f => m = Fault f
  end.

Section Lines.
Context (n : Z) (malloc : Z -> option Z) (appname KeyName : list Z).
Hypothesis malloc_gives : forall k size, malloc k = Some size -> k <= size.

(** What the loop sees of a line. *)
Lemma scan_line fuel found l file KeyVal :
  line_ok n l ->
  scan n malloc (S fuel) appname KeyName found (l ++ LF :: file) KeyVal =
    match l_trim (l ++ [LF]) with
    | [] => scan n malloc fuel appname KeyName found file KeyVal
    | (c0 :: _) as buf =>
        if found then
          if decide (c0 = 35) then scan n malloc fuel appname KeyName true file KeyVal
          else if decide (c0 = 91) then Ok (false, KeyVal)
          else match find_char is_equals buf with
               | None => scan n malloc fuel appname KeyName true file KeyVal
               | Some c =>
                   keyname ← scan_key buf;
                   if decide (keyname = KeyName) then
                     KeyVal ← take_value malloc (drop (Z.to_nat (c + 1)) buf) KeyVal; Ok (true, KeyVal)
                   else scan n malloc fuel appname KeyName true file KeyVal
               end
        else if decide (c0 = 91 /\ take (length appname) buf = appname) then scan n malloc fuel appname KeyName true file KeyVal
        else scan n malloc fuel appname KeyName false file KeyVal
    end.
Proof.
  intros (Hl & H0 & Hn). pose proof (Zlen_nonneg l). cbn [scan].
  rewrite fgets_line by (done || (unfold Zlen in *; lia)). cbv zeta.
  rewrite upto_nul_id by (rewrite not_elem_of_app, list_elem_of_singleton; unfold LF; done).
  destruct (l ++ LF :: file) eqn:E; [by destruct l|]. by destruct (l_trim (l ++ [LF])).
Qed.

Lemma scan_skip fuel found i file KeyVal :
  item_ok n i -> (found = true -> forall lead gap value, i <> Entry lead KeyName gap value) ->
  scan n malloc (S fuel) appname KeyName found (item_text i ++ LF :: file) KeyVal = scan n malloc fuel appname KeyName found file KeyVal.
Proof.
  intros [Hl Hi] Hk. rewrite scan_line by done. destruct i as [lead|lead text|lead key gap value]; cbn [item_text].
  - rewrite l_trim_spaces by done. done.
  - rewrite <- app_assoc, l_trim_spaces by done. simpl. by destruct found.
  - destruct (entry_line n lead key gap value (conj Hl Hi)) as (c & b & El & Hc1 & Hc2 & Eb & E1 & E2). cbn [item_text] in El. rewrite El.
    destruct found.
    + rewrite !decide_False by done. rewrite E1, E2. cbn [mbind outcome_bind]. rewrite decide_False; [done|].
      intros ->. by apply (Hk eq_refl lead gap value).
    + rewrite decide_False; [done|]. by intros [-> _].
Qed.

Lemma scan_found fuel lead gap value file KeyVal :
  item_ok n (Entry lead KeyName gap value) -> Zlen value < Zlen KeyVal ->
  finds (scan n malloc (S fuel) appname KeyName true (item_text (Entry lead KeyName gap value) ++ LF :: file) KeyVal) (fetched malloc value).
Proof.
  intros Hi Hv. destruct (entry_line n lead KeyName gap value Hi) as (c & b & El & Hc1 & Hc2 & Eb & E1 & E2).
  destruct Hi as (Hl & _ & _ & _ & Ht). rewrite scan_line, El by done. rewrite !decide_False by done. rewrite E1, E2. cbn [mbind outcome_bind]. rewrite decide_True by done.
  assert (Ed : drop (Z.to_nat (Zlen KeyName + Zlen gap + 1)) (c :: b) = value ++ [LF]).
  { rewrite Eb, app_assoc. replace (Z.to_nat _) with (length (KeyName ++ gap) + 1)%nat by (unfold Zlen; rewrite length_app; lia).
    rewrite <- drop_drop, drop_app_length. done. }
  rewrite Ed. pose proof (take_value_ok malloc value KeyVal malloc_gives) as Hv'. unfold leaves in Hv'. unfold finds.
  destruct Hl as (Hlf & H0 & _). cbn [item_text] in Hlf, H0. rewrite !not_elem_of_app, !not_elem_of_cons in Hlf, H0.
  destruct (fetched malloc value) as [v|f]; [destruct Hv' as (kv & -> & E); [tauto..|by exists kv]|]. by rewrite Hv' by tauto.
Qed.

(** Within a section, up to its end: the end of the file or the next section. *)
Definition section_end (file : list Z) : Prop :=
  file = [] \/ exists lead tail rest, spaces lead /\ line_ok n (lead ++ 91 :: tail) /\ file = (lead ++ 91 :: tail) ++ LF :: rest.

Lemma scan_section fuel items file KeyVal :
  Forall (item_ok n) items -> (length (print_items items ++ file) < fuel)%nat -> section_end file ->
  (forall v, find_entry KeyName items = Some v -> Zlen v < Zlen KeyVal) ->
  match find_entry KeyName items with
  | None => scan n malloc fuel appname KeyName true (print_items items ++ file) KeyVal = Ok (false, KeyVal)
  | Some v => finds (scan n malloc fuel appname KeyName true (print_items items ++ file) KeyVal) (fetched malloc v)
  end.
Proof.
  intros Hi. revert fuel. induction Hi as [|i items Hi _ IH]; intros fuel Hf Hend Hv.
  - cbn [find_entry print_items app mbind list_bind] in *. destruct fuel as [|fuel]; [lia|].
    destruct Hend as [->|(lead & tail & rest & Hlead & Hl & ->)]; [done|]. rewrite scan_line by done.
    rewrite <- app_assoc, l_trim_spaces by done. done.
  - change (print_items (i :: items)) with ((item_text i ++ [LF]) ++ print_items items) in *. rewrite <- !app_assoc in *. cbn [app] in *.
    destruct fuel as [|fuel]; [lia|].
    assert (Hf' : (length (print_items items ++ file) < fuel)%nat) by (rewrite length_app in Hf; simpl in Hf; lia).
    destruct i as [lead|lead text|lead key gap value]; cbn [find_entry] in *.
    + rewrite scan_skip by done. by apply IH.
    + rewrite scan_skip by done. by apply IH.
    + destruct (decide (key = KeyName)) as [->|Hk]; [apply scan_found; auto|]. rewrite scan_skip by (done || congruence). by apply IH.
Qed.

Lemma scan_preamble fuel items file KeyVal :
  Forall (item_ok n) items -> (length (print_items items ++ file) < fuel)%nat ->
  exists fuel', (length file < fuel')%nat /\
    scan n malloc fuel appname KeyName false (print_items items ++ file) KeyVal = scan n malloc fuel' appname KeyName false file KeyVal.
Proof.
  intros Hi. revert fuel. induction Hi as [|i items Hi _ IH]; intros fuel Hf; [by exists fuel|].
  change (print_items (i :: items)) with ((item_text i ++ [LF]) ++ print_items items) in *. rewrite <- !app_assoc in *. cbn [app] in *.
  destruct fuel as [|fuel]; [lia|]. rewrite length_app in Hf. cbn [length] in Hf. rewrite scan_skip by done. apply IH. lia.
Qed.

Lemma print_section_end l : Forall (section_ok n) l -> section_end (l ≫= print_section).
Proof.
  destruct 1 as [|s l (Hl & Hlead & _ & _) _]; [by left|]. right. exists (s_lead s), (s_name s ++ 93 :: s_tail s), (print_items (s_items s) ++ (l ≫= print_section)).
  split; [done|]. split; [done|]. simpl. unfold print_section, head_text. by rewrite <- !app_assoc.
Qed.

Lemma scan_head name fuel s file KeyVal :
  appname = 91 :: name ++ [93] -> 93 ∉ name -> section_ok n s ->
  scan n malloc (S fuel) appname KeyName false (head_text s ++ LF :: file) KeyVal =
    scan n malloc fuel appname KeyName (bool_decide (s_name s = name)) file KeyVal.
Proof.
  intros Ha Hname (Hline & Hlead & Hn & _). rewrite scan_line by done.
  assert (El : l_trim (head_text s ++ [LF]) = 91 :: s_name s ++ 93 :: s_tail s ++ [LF]).
  { unfold head_text. rewrite <- app_assoc, l_trim_spaces by done. simpl. by rewrite <- app_assoc. }
  rewrite El. destruct (decide (s_name s = name)) as [E|Hne].
  - rewrite bool_decide_true by done. rewrite decide_True; [done|]. split; [done|]. rewrite Ha, E. cbn [length take]. f_equal.
    replace (name ++ 93 :: s_tail s ++ [LF]) with ((name ++ [93]) ++ s_tail s ++ [LF]) by (by rewrite <- app_assoc). apply take_app_length.
  - rewrite bool_decide_false by done. rewrite decide_False; [done|]. intros [_ E]. apply Hne. rewrite Ha in E. cbn [length take] in E. injection E as E.
    apply (names_differ _ _ (s_tail s ++ [LF]) (drop (length (name ++ [93])) (s_name s ++ 93 :: s_tail s ++ [LF]))); [done|done|].
    rewrite <- (take_drop (length (name ++ [93])) (s_name s ++ 93 :: s_tail s ++ [LF])) at 1. rewrite E. by rewrite <- app_assoc.
Qed.

Lemma scan_sections name fuel l KeyVal :
  appname = 91 :: name ++ [93] -> 93 ∉ name -> Forall (section_ok n) l -> (length (l ≫= print_section) < fuel)%nat ->
  (forall v, find_entry KeyName (find_section name l) = Some v -> Zlen v < Zlen KeyVal) ->
  match find_entry KeyName (find_section name l) with
  | None => scan n malloc fuel appname KeyName false (l ≫= print_section) KeyVal = Ok (false, KeyVal)
  | Some v => finds (scan n malloc fuel appname KeyName false (l ≫= print_section) KeyVal) (fetched malloc v)
  end.
Proof.
  intros Ha Hname Hs. revert fuel. induction Hs as [|s l Hs Hl IH]; intros fuel Hf Hv; [by destruct fuel; [simpl in Hf; lia|]|].
  assert (Ep : (s :: l) ≫= print_section = head_text s ++ LF :: print_items (s_items s) ++ (l ≫= print_section)).
  { cbn [mbind list_bind]. unfold print_section at 1. by rewrite <- app_assoc. }
  rewrite Ep in *. pose proof (print_section_end l Hl) as Hend. set (R := l ≫= print_section) in *.
  destruct fuel as [|fuel]; [lia|]. rewrite (scan_head name) by done.
  assert (Hf' : (length (print_items (s_items s) ++ R) < fuel)%nat) by (rewrite length_app in Hf; cbn [length] in Hf; lia).
  destruct Hs as (_ & _ & _ & Hitems). cbn [find_section] in *. destruct (decide (s_name s = name)).
  - rewrite bool_decide_true by done. by apply scan_section.
  - rewrite bool_decide_false by done. destruct (scan_preamble fuel (s_items s) R KeyVal Hitems Hf') as (fuel' & Hlt & ->). by apply IH.
Qed.
End Lines.

(** ** Properties *)

(** C18: looking up a configuration.  A file in the format of the readers - blank lines,
    comments, sections and entries, with spaces around the names and around the equals
    sign, in any number and order - is searched for a key of a section: the first entry of the
    key in the first section of that name is found, 0 is returned, and the caller's array
    holds its value, without the spaces around it when there is memory for a copy; when
    that section has no such entry, or there is none of that name, -1 is returned and the
    array is left alone.  Of [malloc] it is assumed that an allocation has at least the
    bytes that were asked for.  With less than eight, which only a value of less than seven
    characters asks for, clearing the copy leaves it; that is the only fault. *)
Theorem profile_lookup n malloc c AppName KeyName KeyVal :
  config_ok n c -> 93 ∉ AppName -> Zlen AppName < 30 ->
  (forall k size, malloc k = Some size -> k <= size) ->
  (forall v, config_find AppName KeyName c = Some v -> Zlen v < Zlen KeyVal) ->
  match config_find AppName KeyName c with
  | None => GetProfileString n malloc (Some (print c)) AppName KeyName KeyVal = Ok (-1, KeyVal)
  | Some v =>
      match malloc (Zlen v + 1) with
      | Some size =>
          if decide (size < 8) then Zlen v < 7 /\ GetProfileString n malloc (Some (print c)) AppName KeyName KeyVal = Fault OutOfBounds
          else exists KeyVal', GetProfileString n malloc (Some (print c)) AppName KeyName KeyVal = Ok (0, KeyVal') /\ string_of KeyVal' = Ok (a_trim v)
      | None => exists KeyVal', GetProfileString n malloc (Some (print c)) AppName KeyName KeyVal = Ok (0, KeyVal') /\ string_of KeyVal' = Ok v
      end
  end.
Proof.
  intros [Hpre Hsec] Hname Hlen Hm Hv. unfold GetProfileString, section_line.
  rewrite decide_True by (unfold Zlen in *; cbn [length]; rewrite length_app; cbn [length]; lia). cbn [mbind outcome_bind].
  unfold print, config_find in *.
  destruct (scan_preamble n malloc (91 :: AppName ++ [93]) KeyName (S (length (print_items (preamble c) ++ (sections c ≫= print_section))))
              (preamble c) (sections c ≫= print_section) KeyVal Hpre) as (fuel & Hf & ->); [lia|].
  pose proof (scan_sections n malloc (91 :: AppName ++ [93]) KeyName Hm AppName fuel (sections c) KeyVal eq_refl Hname Hsec Hf Hv) as H.
  destruct (find_entry KeyName (find_section AppName (sections c))) as [v|]; [|by rewrite H].
  unfold finds, fetched in H. destruct (malloc (Zlen v + 1)) as [size|] eqn:Em; [|destruct H as (kv & -> & E); by exists kv].
  destruct (decide (size < 8)); [|destruct H as (kv & -> & E); by exists kv]. rewrite H. split; [|done]. apply Hm in Em. lia.
Qed.

(** The file cls.conf, without the text of its comments. *)
Definition cls_conf : config :=
  Config [] [Sect [] (text "cls_server") [] [Comment [] []; Entry [] (text "ip") [] (text "192.16.31.2"); Blank []];
             Sect [] (text "server") [] [Entry [32] (text "ip") [32] (text " 1.2.3.4");
                                        Entry [32] (text "mac") [32] (text " 12:34:56:78:90:ab:cd:ef"); Blank []; Comment [] (text "#")];
             Sect [32; 32; 32] (text "port") [] [Entry [32] (text "id") [32] (text " 1"); Entry [32] (text "num") [32] (text " 3")]].

(** An allocation of glibc has 24 bytes or more. *)
Definition glibc_malloc (n : Z) : option Z := Some (Z.max 24 n).

#[local] Instance line_ok_dec n s : Decision (line_ok n s) := ltac:(unfold line_ok; apply _).
#[local] Instance spaces_dec s : Decision (spaces s) := ltac:(unfold spaces; apply _).
#[local] Instance key_char_dec c : Decision (key_char c) := ltac:(unfold key_char; apply _).
#[local] Instance key_ok_dec k : Decision (key_ok k) := ltac:(unfold key_ok; destruct k; apply _).
#[local] Instance item_ok_dec n i : Decision (item_ok n i) := ltac:(unfold item_ok; destruct i; apply _).
#[local] Instance section_ok_dec n s : Decision (section_ok n s) := ltac:(unfold section_ok; apply _).
#[local] Instance config_ok_dec n c : Decision (config_ok n c) := ltac:(unfold config_ok; apply _).

Lemma profile_lookup_witness :
  exists KeyVal', GetProfileString KEYVALLEN glibc_malloc (Some (print cls_conf)) (text "server") (text "mac") (replicate 32 0) = Ok (0, KeyVal') /\
    string_of KeyVal' = Ok (text "12:34:56:78:90:ab:cd:ef").
Proof.
  apply (profile_lookup KEYVALLEN glibc_malloc cls_conf (text "server") (text "mac") (replicate 32 0)).
  - refine (bool_decide_unpack _ _). vm_compute. exact I.
  - refine (bool_decide_unpack _ _). vm_compute. exact I.
  - done.
  - intros k size [= <-]. lia.
  - intros v E. vm_compute in E. injection E as <-. done.
Defined.

(** The main program's lookups. *)
Example main_reads_cls_conf :
  (fun '(app, key, size) => '(r, v) ← GetProfileString KEYVALLEN glibc_malloc (Some (print cls_conf)) (text app) (text key) (replicate size 0);
                            s ← string_of v; Ok (r, s)) <$> [("cls_server", "ip", 16%nat); ("server", "ip", 16%nat); ("port", "id", 10%nat); ("port", "none", 10%nat)] =
  [Ok (0, text "192.16.31.2"); Ok (0, text "1.2.3.4"); Ok (0, text "1"); Ok (-1, [])].
Proof. vm_compute. reflexivity. Qed.

(** An entry without a value leaves what was in the array before, and reports success. *)
Example empty_value_keeps_old :
  GetProfileString KEYVALLEN glibc_malloc (Some (text "[a]" ++ [LF] ++ text "k=" ++ [LF])) (text "a") (text "k") (text "old" ++ [0]) = Ok (0, text "old" ++ [0]).
Proof. vm_compute. reflexivity. Qed.

(** [memset] clears the size of a pointer: beyond the end of the copy of a short value. *)
Example short_value_overruns :
  GetProfileString KEYVALLEN (fun n => Some n) (Some (text "[a]" ++ [LF] ++ text "k=v" ++ [LF])) (text "a") (text "k") (replicate 10 0) = Fault OutOfBounds.
Proof. vm_compute. reflexivity. Qed.

(** A value is written to the caller's array whatever its size. *)
Example long_value_overruns :
  GetProfileString KEYVALLEN glibc_malloc (Some (text "[a]" ++ [LF] ++ text "k=0123456789" ++ [LF])) (text "a") (text "k") (replicate 10 0) = Fault OutOfBounds.
Proof. vm_compute. reflexivity. Qed.

(** The bar and the caret end a key as the space does. *)
Example bar_ends_key :
  GetProfileString KEYVALLEN glibc_malloc (Some (text "[a]" ++ [LF] ++ text "k|x=v" ++ [LF])) (text "a") (text "k") (replicate 3 0) = Ok (0, [118; 0; 0]).
Proof. vm_compute. reflexivity. Qed.

(** The end of a line that is too long is taken for a line of its own: here for the key. *)
Example long_line_splits :
  let line := text "c=" ++ replicate 97 120 ++ text "k=v" ++ [LF] in
  GetProfileString KEYVALLEN glibc_malloc (Some (text "[a]" ++ [LF] ++ line)) (text "a") (text "k") (replicate 3 0) = Ok (0, [118; 0; 0]) /\
  GetProfileString_2 glibc_malloc (Some (text "[a]" ++ [LF] ++ line)) (text "a") (text "k") (replicate 3 0) = Ok (-1, [0; 0; 0]).
Proof. vm_compute. done. Qed.
