(* ===== verification/ProdCons.v ===== *)
(** * Producer and consumer

    src/src/thread/producer_consumer.c: two threads hand ten items over through one variable
    under a mutex, with a condition variable each.  A step is one operation on what they
    share; waiting on a condition gives the mutex back, and may end without a signal. *)

From stdpp Require Import base numbers list.
From S2P Require Import Prelude.

Definition MAX : nat := 10.

Inductive role := Pro | Con.
#[export] Instance role_dec : EqDecision role.
Proof. solve_decision. Defined.

(** Where a thread is: before [pthread_mutex_lock]; at the test of the [while]; in
    [pthread_cond_wait]; woken up and waiting for the mutex; before the item is put or
    taken; before [pthread_cond_signal]; before [pthread_mutex_unlock]; after
    [pthread_exit]. *)
Inductive pc := Lock | Test | Wait | Wake | Act | Signal | Unlock | Done.
#[export] Instance pc_dec : EqDecision pc.
Proof. solve_decision. Defined.

Inductive event := Produced (i : nat) | Consumed (i : nat).

Record thread := Thread { at_ : pc; item : nat }.
Record state := State { buffer : nat; owner : option role; pro : thread; con : thread; out : list event }.

Definition init : state := State 0 None (Thread Lock 1) (Thread Lock 1) [].

Definition me (r : role) (s : state) : thread := match r with Pro => pro s | Con => con s end.
Definition set_me (r : role) (t : thread) (s : state) : state :=
  match r with
  | Pro => State (buffer s) (owner s) t (con s) (out s)
  | Con => State (buffer s) (owner s) (pro s) t (out s)
  end.
Definition set_owner (o : option role) (s : state) : state := State (buffer s) o (pro s) (con s) (out s).
Definition goto (r : role) (p : pc) (s : state) : state := set_me r (Thread p (item (me r s))) s.
Definition other (r : role) : role := match r with Pro => Con | Con => Pro end.

(** The condition of each [while], and what each thread does to the buffer and prints. *)
Definition must_wait (r : role) (s : state) : bool :=
  match r with Pro => bool_decide (buffer s <> 0) | Con => bool_decide (buffer s = 0) end.
Definition act (r : role) (s : state) : state :=
  match r with
  | Pro => State (item (pro s)) (owner s) (pro s) (con s) (out s ++ [Produced (item (pro s))])
  | Con => State 0 (owner s) (pro s) (con s) (out s ++ [Consumed (item (con s))])
  end.

(** The next step of a thread; [None] when it is blocked or over. *)
Definition step (r : role) (s : state) : option state :=
  match at_ (me r s) with
  | Lock =>
      if decide (MAX < item (me r s)) then Some (goto r Done s)
      else if decide (owner s = None) then Some (goto r Test (set_owner (Some r) s)) else None
  | Test => Some (if must_wait r s then goto r Wait (set_owner None s) else goto r Act s)
  | Wait => None
  | Wake => if decide (owner s = None) then Some (goto r Test (set_owner (Some r) s)) else None
  | Act => Some (goto r Signal (act r s))
  | Signal =>
      let s := if decide (at_ (me (other r) s) = Wait) then goto (other r) Wake s else s in
      Some (goto r Unlock s)
  | Unlock => Some (set_me r (Thread Lock (item (me r s) + 1)) (set_owner None s))
  | Done => None
  end.

(** [pthread_cond_wait] may return without a signal. *)
Definition spurious (r : role) (s : state) : option state :=
  match at_ (me r s) with Wait => Some (goto r Wake s) | _ => None end.

Inductive reachable : state -> Prop :=
| reach_init : reachable init
| reach_step r s s' : reachable s -> step r s = Some s' -> reachable s'
| reach_spurious r s s' : reachable s -> spurious r s = Some s' -> reachable s'.

(** Some schedule, for the witnesses. *)
Fixpoint run (sched : list role) (s : state) : state :=
  match sched with
  | [] => s
  | r :: sched => run sched (match step r s with Some s => s | None => s end)
  end.

(** ** What is promised *)

Fixpoint rounds (k : nat) : list event :=
  match k with O => [] | S k => rounds k ++ [Produced (S k); Consumed (S k)] end.

Definition holds (p : pc) : bool := match p with Test | Act | Signal | Unlock => true | _ => false end.

(** How many items a thread has put or taken. *)
Definition count (t : thread) : nat := match at_ t with Signal | Unlock => item t | _ => item t - 1 end.

(** How far a thread is from its end. *)
Definition rank_at (p : pc) : nat :=
  match p with Lock | Wake => 15 | Test => 14 | Act => 13 | Signal => 12 | Wait => 5 | Unlock => 1 | Done => 0 end.
Definition rank1 (t : thread) : nat := 20 * (MAX + 1 - item t) + rank_at (at_ t).
Definition rank (s : state) : nat := rank1 (pro s) + rank1 (con s).

Definition thread_ok (t : thread) : Prop :=
  1 <= item t <= MAX + 1 /\ (match at_ t with Lock => True | Done => item t = MAX + 1 | _ => item t <= MAX end).

(** Who holds the mutex and where the threads can be, for a buffer that is empty or not.  A
    thread waits only while the buffer is as it must not be, or the signal is coming. *)
Definition control (o : option role) (full : bool) (p c : pc) : bool :=
  match o with
  | None => negb (holds p) && negb (holds c)
  | Some Pro => holds p && negb (holds c)
  | Some Con => negb (holds p) && holds c
  end &&
  match p with Act => negb full | Signal | Unlock => full | Wait => full || bool_decide (c = Signal) | _ => true end &&
  match c with Act => full | Signal | Unlock => negb full | Wait => negb full || bool_decide (p = Signal) | _ => true end.

Record inv (s : state) : Prop := {
  i_pro : thread_ok (pro s);
  i_con : thread_ok (con s);
  i_control : control (owner s) (negb (Nat.eqb (buffer s) 0)) (at_ (pro s)) (at_ (con s)) = true;
  i_buffer : match buffer s with
             | O => count (pro s) = count (con s) /\ out s = rounds (count (con s))
             | S _ => buffer s = count (pro s) /\ count (pro s) = count (con s) + 1 /\ out s = rounds (count (con s)) ++ [Produced (count (pro s))]
             end;
}.

Lemma inv_init : inv init.
Proof. by repeat split; unfold MAX; simpl; try lia. Qed.

Lemma rounds_S k : 1 <= k -> rounds (k - 1) ++ [Produced k; Consumed k] = rounds k.
Proof. destruct k as [|k]; [lia|]. intros _. simpl. by rewrite Nat.sub_0_r. Qed.

(** A state taken apart: the owner, the program counters, and whether the buffer is full. *)
Ltac open_state H :=
  let b := fresh "b" in let o := fresh "o" in let p := fresh "p" in let c := fresh "c" in
  let i := fresh "i" in let j := fresh "j" in let l := fresh "l" in let Hctl := fresh "Hctl" in let Hb := fresh "Hb" in
  match type of H with inv ?s => destruct s as [b o [p i] [c j] l] end;
  destruct H as [[? ?] [? ?] Hctl Hb]; cbn [me pro con at_ item owner buffer out] in *;
  destruct o as [[]|], b as [|b], p; try discriminate Hctl; destruct c; try discriminate Hctl; clear Hctl;
  cbn [count at_ item] in Hb; try match type of Hb with _ /\ _ /\ _ => destruct Hb as (? & ? & ->) | _ => destruct Hb as (? & ->) end.

Ltac same_trace :=
  repeat match goal with |- _ /\ _ => split end;
  first [lia | done | rewrite <- app_assoc; cbn [app]; match goal with |- _ = rounds ?k => rewrite <- (rounds_S k) by lia end; repeat f_equal; lia | repeat f_equal; lia].

Lemma inv_step r s s' : inv s -> step r s = Some s' -> inv s'.
Proof.
  intros H Hs. open_state H; destruct r; cbn in Hs; try discriminate Hs; repeat case_decide; try discriminate; try done; injection Hs as <-;
    try (match goal with |- inv (State ?b _ _ _ _) => is_var b; destruct b; [lia|] end);
    (split; [split; cbn in *; first [exact I|unfold MAX in *; lia] | split; cbn in *; first [exact I|unfold MAX in *; lia] | reflexivity | cbn [count at_ item buffer out pro con]; same_trace]).
Qed.

Lemma inv_spurious r s s' : inv s -> spurious r s = Some s' -> inv s'.
Proof.
  intros H Hs. open_state H; destruct r; cbn in Hs; try discriminate Hs; injection Hs as <-;
    (split; [split; cbn in *; first [exact I|unfold MAX in *; lia] | split; cbn in *; first [exact I|unfold MAX in *; lia] | reflexivity | cbn [count at_ item buffer out pro con]; same_trace]).
Qed.

Lemma inv_reachable s : reachable s -> inv s.
Proof. induction 1; [apply inv_init|by eapply inv_step|by eapply inv_spurious]. Qed.

Lemma rank_step r s s' : inv s -> step r s = Some s' -> rank s' < rank s.
Proof.
  intros H Hs. open_state H; destruct r; cbn in Hs; try discriminate Hs; repeat case_decide; try discriminate; try done; injection Hs as <-;
    unfold rank, rank1; cbn [pro con at_ item rank_at] in *; unfold MAX in *; lia.
Qed.

Definition finished (s : state) : Prop := at_ (pro s) = Done /\ at_ (con s) = Done.

Lemma never_stuck s : inv s -> finished s \/ exists r s', step r s = Some s'.
Proof.
  intros H. open_state H.
  all: try (left; split; reflexivity).
  all: try (exfalso; unfold MAX in *; lia).
  all: right; first [exists Pro; cbn; repeat case_decide; try discriminate; try congruence; by eexists | exists Con; cbn; repeat case_decide; try discriminate; try congruence; by eexists].
Qed.

(** What a reachable state has printed is a part of the ten rounds. *)
Lemma rounds_prefix k m : k <= m -> rounds k `prefix_of` rounds m.
Proof.
  induction 1 as [|m _ IH]; [done|]. simpl. by apply prefix_app_r.
Qed.

Lemma printed_prefix s : inv s -> out s `prefix_of` rounds MAX.
Proof.
  intros [[Hp1 Hp2] [Hc1 Hc2] _ Hb].
  assert (H : count (pro s) <= MAX /\ count (con s) <= MAX).
  { unfold count. destruct (at_ (pro s)), (at_ (con s)); unfold MAX in *; lia. }
  destruct (buffer s) as [|b]; [destruct Hb as [_ ->]; apply rounds_prefix; lia|]. destruct Hb as (_ & E & ->).
  etrans; [|apply (rounds_prefix (count (con s) + 1)); lia]. rewrite E, Nat.add_1_r. simpl. apply prefix_app. by exists [Consumed (S (count (con s)))].
Qed.

(** Runs of [n] steps and [w] waits that end without a signal. *)
Inductive steps : nat -> nat -> state -> state -> Prop :=
| steps_nil s : steps 0 0 s s
| steps_cons r n w s s' s'' : step r s = Some s' -> steps n w s' s'' -> steps (S n) w s s''
| steps_spurious r n w s s' s'' : spurious r s = Some s' -> steps n w s' s'' -> steps n (S w) s s''.

Lemma rank_spurious r s s' : spurious r s = Some s' -> rank s' = rank s + 10.
Proof.
  unfold spurious, goto, rank, rank1. destruct s as [b o [p i] [c j] l], r; simpl; [destruct p|destruct c]; try done; intros [= <-]; simpl; lia.
Qed.

Lemma steps_rank n w s s' : inv s -> steps n w s s' -> inv s' /\ n + rank s' <= rank s + 10 * w.
Proof.
  intros H Hs. induction Hs as [|r n w s s1 s2 E _ IH|r n w s s1 s2 E _ IH]; [split; [done|lia]| |].
  - destruct (IH (inv_step r s s1 H E)) as [H1 H2]. split; [done|]. pose proof (rank_step r s s1 H E). lia.
  - destruct (IH (inv_spurious r s s1 H E)) as [H1 H2]. split; [done|]. pose proof (rank_spurious r s s1 E). lia.
Qed.

(** ** Properties *)

(** C17: handing over through one variable.  However the threads are scheduled, and however
    often a wait ends without a signal: at most one thread holds the mutex; what was printed
    so far is the beginning of "produce 1, consume 1, produce 2, ..., consume 10"; and the
    threads are never both blocked - no signal is lost - until both are over, when all of
    it was printed.  From any such state a run in which [w] waits end by themselves takes at
    most 430 steps and ten more for each of these waits. *)
Theorem handover s :
  reachable s ->
  ~ (holds (at_ (pro s)) = true /\ holds (at_ (con s)) = true) /\
  out s `prefix_of` rounds MAX /\
  ((finished s /\ out s = rounds MAX) \/ exists r s', step r s = Some s') /\
  (forall n w s', steps n w s s' -> n <= 430 + 10 * w).
Proof.
  intros H%inv_reachable. split_and!.
  - destruct H as [_ _ Hctl _]. unfold control in Hctl. destruct (owner s) as [[]|], (holds (at_ (pro s))), (holds (at_ (con s))); by (done || intros [? ?]).
  - by apply printed_prefix.
  - destruct (never_stuck s H) as [[E1 E2]|Hn]; [left|by right]. split; [done|]. destruct H as [[_ Hp] [_ Hc] _ Hb].
    rewrite E1 in Hp. rewrite E2 in Hc. unfold count in Hb. rewrite E1, E2, Hp, Hc in Hb. unfold MAX in *.
    destruct (buffer s); [by destruct Hb as [_ ->]|]. destruct Hb as (_ & Hb & _). simpl in Hb. lia.
  - intros n w s' Hs. destruct (steps_rank n w s s' H Hs) as [_ Hr]. destruct H as [[Hp _] [Hc _] _ _].
    assert (forall p, rank_at p <= 15) as Hat by (intros []; simpl; lia). pose proof (Hat (at_ (pro s))). pose proof (Hat (at_ (con s))).
    unfold rank, rank1, MAX in *. lia.
Qed.

Definition alternate : list role := mjoin (replicate 100 [Con; Pro; Pro]).

Lemma reachable_run sched s : reachable s -> reachable (run sched s).
Proof.
  revert s. induction sched as [|r sched IH]; intros s H; [done|]. simpl. apply IH. destruct (step r s) eqn:E; [by eapply reach_step|done].
Qed.

Lemma handover_witness :
  let s := run (take 40 alternate) init in
  ~ (holds (at_ (pro s)) = true /\ holds (at_ (con s)) = true) /\ out s `prefix_of` rounds MAX /\
  ((finished s /\ out s = rounds MAX) \/ exists r s', step r s = Some s') /\
  (forall n w s', steps n w s s' -> n <= 430 + 10 * w).
Proof. apply (handover (run (take 40 alternate) init)). apply reachable_run, reach_init. Defined.

Example all_handed_over : finished (run alternate init) /\ out (run alternate init) = rounds MAX.
Proof. vm_compute. done. Qed.
